(* ===== verification/_CoqProject ===== *)
-Q . S2P
Prelude.v
Memory.v
TypeDescriptor.v
Validate.v
Sample.v
ValidateSafe.v
Codec.v
Restores.v
RoundTrip.v
NestedUnion.v
Buffer.v
SizeCopy.v
Objects.v
Graph.v
CopySteps.v
CopyCorrect.v
SizeCorrect.v
Message.v
MojoResult.v
System.v
Handles.v
Contract.v
Thunks.v
PlatformThunks.v
NaclThunks.v
CppHandles.v
CppHandlesSafe.v
CppHandlesOps.v
CppHandlesOwners.v
CppHandlesMojo.v
RunLoop.v
RunLoopSafe.v
RunLoopTasks.v
RunLoopEnds.v
RunLoopDeadlines.v
RunLoopSample.v
CppBindings.v
CppAgrees.v
CppMessage.v
CppBuilder.v
Router.v
RouterInv.v
RouterSafe.v
RouterSample.v
CppArray.v
CppArrayAgrees.v
CppArrayFlaws.v
CppArrayCodec.v
CppMap.v
CppWrappers.v
CppWrappersRefine.v
CppSerialize.v
CppSerializeSteps.v
CppLayout.v
CppSerializeElements.v
CppDeserialize.v
CppSerializeCorrect.v
CppSerializeErrors.v
CppWalk.v
CppTravel.v
CppAccepts.v
CppArrives.v
WatcherCommand.v
HandleWatcher.v
HandleWatcherInv.v
HandleWatcherSpec.v
HandleWatcherWait.v
HandleWatcherPrune.v
HandleWatcherRun.v
HandleWatcherSample.v
HandleWatcherSafe.v
HandleWatcherFlaws.v
HandleWatcherThreads.v
DartNatives.v
DartNativesSafe.v
DartNativesData.v
DartNativesRead.v
DartNativesSample.v
DartNativesSpec.v
FrameTracker.v
