(* ===== verification/Prelude.v ===== *)
(** * Mojo: the bindings, the system API, the thunks, the run loop, the router, owned
    handles, the Dart natives and handle watcher, and the frame tracker

    A verification development of the Mojo SDK.  Of its C code: the bindings
    library that validates, encodes, decodes, measures and copies mojom objects
    ([src/public/c/lib/bindings], headers under
    [src/public/c/include/mojo/bindings]), the implementation of the system API
    over the Magenta kernel ([src/system/mojo.c]), and the tables of functions an
    embedder installs in an application ([src/public/platform/native], and
    [src/public/platform/nacl] for Native Client).  Of its C++ code: the wrappers of
    the system API that own handles ([src/public/cpp/system]), the run loop ([src/public/cpp/utility]), and of the C++ bindings
    ([src/public/cpp/bindings]) the wire primitives, messages and their
    validation, and the router and connector that dispatch them; and the native
    functions and the handle watcher of the Dart platform
    ([src/public/platform/dart]).  Of the services: the frame tracker that the clients of
    the compositor use ([src/services/gfx/composition/cpp]).

    ** The program

    A mojom message is a graph of structs, arrays, unions and maps.  In memory
    ("unencoded") its objects refer to each other by address and to kernel
    objects by handle; on the wire ("encoded") an address is an offset relative
    to the slot that holds it and a handle is an index into the array of handles
    sent along.  Generated code describes each type by a table of descriptors;
    the library walks a graph under the guidance of these tables.  A receiver
    validates the bytes, then decodes them in place; a sender copies its objects
    into one buffer (deep copy), whose size it computed before, and encodes them
    in place.  Messages travel over pipes of the system API; every call of an
    application goes through a thunk to the embedder's implementation.

    A C++ application is a set of callbacks.  The run loop of a thread waits for
    handles, deadlines and delayed tasks and calls them; a connector is one of its
    clients: when its pipe becomes readable it reads the messages, and the router
    around it validates each one, gives requests to the application together with
    a responder, and matches responses with the responders of its own requests.
    Callbacks may call the loop and the router back, wait for further messages,
    nest a run of the loop, and destroy the object that is calling them.

    C++ code holds handles in scopers, objects that close their handle when they die
    and that hand it on when they are moved.

    Dart code reaches the system through native functions that check its arguments,
    lend the system the memory of its typed data for the time of a call, and leave
    it to the garbage collector to close handles and to free buffers.

    A Dart isolate waits for handles and timers through a thread of its own, the
    handle watcher: commands over a pipe tell it what to watch and when to wake
    which port, and it posts to the isolate's ports what happened.

    ** The model

    Memory is a finite map from addresses to bytes, so that out-of-bounds
    accesses, aliasing and overlapping objects are visible; integers are [Z]
    with the wrap-around of their width written out ([u32], [u64], [s32]).  C
    code that can crash returns a [result]: [Crash BadAccess] for an access to
    unmapped memory, [Crash AssertFailed] for a failed [assert].  Code with
    state is a function in the monad [stateR].  The walks are mutually recursive
    through a dispatcher per operation; each object function takes the
    dispatcher as an argument and the dispatcher is a fixpoint on fuel, the
    bound on its recursion depth ([Crash OutOfFuel]).  Fuel is never assumed
    sufficient silently: validation needs a quarter of the size of the buffer
    ([MojomStruct_Validate_total]), decoding and encoding no more than
    validation did, copying and measuring the depth of the graph.

    The application is a parameter: its callbacks are call trees ([RunLoop.prog],
    [Router.prog]) whose nodes are the calls of the library's interface and whose
    branches are the results, so that a theorem about all trees is about all
    applications.  The system below is a type class of functions on an abstract
    state.  Fuel there bounds the nesting of runs and the number of steps of a
    loop that may go on for ever; safety ([guarded], [safely]) holds for every
    fuel, and [RunInternal_returns] says when there is enough.

    ** The files

    - [Prelude]: results, the state monad, machine integers, tactics that
      execute a program symbolically.
    - [Memory]: bytes, loads and stores, [memcpy]; regions and agreement of
      memories on regions.
    - [TypeDescriptor]: descriptor tables (internal/type_descriptor.h), the
      layout of headers (array.h, struct.h, union.h, interface.h, util.h);
      well-formedness of tables as a generator emits them.
    - [Validate]: validation.h and the [Validate] functions of struct.c, array.c,
      union.c, map.c and type_descriptor.c.  [Sample]: a descriptor table and a
      message for the witnesses.  [ValidateSafe]: validation of arbitrary bytes
      is memory safe and terminates.
    - [Codec]: encoding and decoding of pointers and handles (the [Encode...] and
      [Decode...] functions of the same files).  [Restores]: the logic of
      steps that encoding undoes.  [RoundTrip]: a validated message decodes
      without a crash and encodes back to the same bytes and handles.
    - [NestedUnion]: unions inside unions, which the library handles wrongly
      (see below), and null handle arrays.
    - [Buffer]: buffer.c and [MojomArray_New].
    - [SizeCopy]: [ComputeSerializedSize] and [DeepCopy].  [Objects]: what a
      well-formed graph of unencoded objects is and what a copy of one is, the
      specification of copying.  [Graph]: an executable check of
      well-formedness.  [CopySteps]: rules for the steps of a copy;
      [CopyCorrect]: deep copy refines its specification.  [SizeCorrect]: the
      size computed is the size of the objects.
    - [Message]: message.c and message.h.
    - [MojoResult]: result.h.
    - [System]: mojo.c, over a type class of Magenta system calls ([MxSyscalls]:
      the kernel is not part of the repository).  [Handles]: what replacing a
      handle does to the handle table, against an interface ([HandleTable]) that
      states the documented behaviour of the handle calls, with an executable
      instance that shows it can be met.  [Contract]: the results the headers
      list for every function, and how mojo.c keeps to them.
    - [Thunks]: system_thunks.{h,c}, against a type class [MojoSystem] of the
      31 system functions, of which mojo.c is an instance.
    - [PlatformThunks]: the other tables, mgl*_thunks.{h,c} and
      platform_handle_private_thunks.{h,c}, against a type class [MojoPlatform]
      of the embedder's functions; which table is in force after the setters
      were called in any order.
    - [NaclThunks]: libmojo.cc, mgl_irt.{h,cc}, mojo_irt.h and mojo_main_thunk.cc, the
      same functions in Native Client, where the application asks for its tables
      at the first call.
    - [CppHandles]: handle.h, buffer.h, message_pipe.h and data_pipe.h of cpp/system, over
      [MojoSystem] and a store of the scopers that are alive.  [CppHandlesSafe]: what they
      rely on of the system ([HandleLaws]), the invariant that each handle has one owner,
      and its steps.  [CppHandlesOps]: what each operation on scopers does.
      [CppHandlesOwners]: programs of such operations.  [CppHandlesMojo]: mojo.c over a
      kernel with a handle table has the laws, so that the theorems hold of C++, C and
      kernel together.
    - [RunLoop]: run_loop.{h,cc}, run_loop_handler.h and the wrappers it calls
      (cpp/system/time.h, wait_set.h).  [RunLoopSafe]: its invariant, and safety.
      [RunLoopTasks]: which tasks an iteration runs, in which order.
      [RunLoopEnds]: termination.  [RunLoopDeadlines]: the deadline of a wait and
      what happens when it passes.  [RunLoopSample]: a simulated system, the
      theorems at runs of it, and a run that starves.
    - [CppBindings]: bounds_checker, validation_util, bindings_serialization and
      fixed_buffer (cpp/bindings/lib).  [CppAgrees]: they do what the C library
      does.  [CppMessage]: message_internal.h, message.h, the validators and the
      builders of messages, against [Message].  [CppBuilder]: what is built is
      valid.
    - [Router]: router.{h,cc}, connector.{h,cc} and the reading of messages in
      message.cc, one state for the router, its connector, the flags on the stack
      of the read loops, the responders and their history.  [RouterInv]: the
      invariant, what a callback may have changed when it returns, and the steps
      that keep it.  [RouterSafe]: callbacks, dispatch and read loops keep it; the
      theorems about the whole program.  [RouterSample]: a simulated pipe and an
      application that destroys the router inside a nested dispatch.
    - [CppArray]: array_internal.{h,cc}, map_data_internal.h, validate_params.h: the
      templates of arrays and maps, as functions of the element type.
      [CppArrayAgrees]: they validate as the C library does, type by type.
      [CppArrayCodec]: they decode as it does, and so decode what they accepted.
      [CppArrayFlaws]: the types for which this fails.
    - [WatcherCommand]: the commands of dart_handle_watcher.h.  [HandleWatcher]: the
      thread of dart_handle_watcher.cc, over a type class of what it calls.
      [HandleWatcherInv]: the invariant of its vectors, map and timers, and the
      removal of a handle.  [HandleWatcherSpec]: the abstract watcher, a map of
      handles and one of alarms with its steps, and the commands that implement
      them.  [HandleWatcherWait], [HandleWatcherPrune], [HandleWatcherRun]: the work after
      a wait that succeeded and timers, that after one that failed, and the loop.  [HandleWatcherSample]: a simulated
      system.  [HandleWatcherSafe]: the theorems about a thread.
      [HandleWatcherFlaws]: where it fails.  [HandleWatcherThreads]: starting and
      stopping threads.
    - [DartNatives]: mojo_natives.cc and wait.h, over type classes of the system calls
      ([NativeSystem]) and of what they use of the Dart VM ([DartVM]; dart_api.h is not
      part of the repository).  [DartNativesSafe]: the laws of both, and a logic of what a
      native function may do to the typed data, the system and the heap.
      [DartNativesData], [DartNativesRead]: the functions that are given typed data.
      [DartNativesSample]: a VM and a system with the laws.  [DartNativesSpec]: the
      theorems about all native functions, and where they fail.
    - [CppMap]: map.h and map_internal.h, the nullable wrapper of std::map, as a list
      of entries in the order of their keys, which is a parameter with its laws.
    - [CppWrappers]: array.h with its iterators and conversions, string.h and struct_ptr.h,
      the nullable wrappers an application holds its data in.  [CppWrappersRefine]:
      programs over variables of such wrappers, against their meaning in nullable
      values, through an interface ([wrapper_laws]) that each wrapper implements.
    - [CppSerialize]: array_serialization.h, map_serialization.h and
      string_serialization.cc, from the arrays and maps of an application to wire data
      and back.  [CppSerializeSteps]: what a step writes, what a later step reads of
      it, and allocation.  [CppLayout]: what may be sent, the space it takes, and
      where everything lies, which depends on distances only.  [CppSerializeElements]:
      serializing leaves the layout behind, kind by kind.
      [CppDeserialize]: what is made of it.  [CppSerializeCorrect]: the round trips,
      and that the computed size is the size.  [CppSerializeErrors]: what an error
      leaves behind.
    - [CppWalk]: encoding and decoding as instances of one walk that replaces
      pointers and handles.  [CppTravel]: the two instances.  [CppAccepts]: what was
      encoded validates.  [CppArrives]: serialize, encode, validate, decode and
      deserialize, from one process to another.

    - [FrameTracker]: frame_tracker.{h,cc} of the composition service's client library,
      against the same computation on unbounded integers.

    ** What is shown

    - Safety on hostile input: validation (structs and everything below them,
      message headers), and decoding of whatever validation accepted.
    - Functional correctness: encoding undoes decoding; deep copy builds a
      faithful copy in exactly the space its objects take, or fails cleanly when
      there is less; the serialized size (of graphs without nested unions) is that space
      when all sizes are multiples of 8;
      allocation; array construction; classification of messages; packing of
      result codes.
    - The system API: out parameters are assigned exactly on success, statuses
      are translated faithfully, unsupported options never reach the kernel,
      handles are accounted for when one is replaced, the results returned are
      the documented ones up to a list of exceptions; the thunks are
      transparent once installed and installation is all or nothing.
    - The run loop, for any callbacks: it is safe, also when a callback removes
      handlers or nests a run; tasks run in order of time and posting, if none of those
      due runs the loop itself; runs whose tasks cause finitely much work end; deadlines are the earliest ones.
    - The C++ bindings agree with the C library on the encoding of pointers and
      handles, on which message headers are valid, on allocation and on which arrays
      are valid, numbers, strings and handles nested to any depth; these arrays decode
      safely; what is claimed of a message is disjoint.  Serializing C++ arrays and maps
      takes the computed space, and deserializing gives them back, also in another
      process, at another address and with other handles, after they were encoded,
      validated and decoded; a map built of what was received holds the first value of
      each key.
    - The router, for any messages and any application: no use of a destroyed
      router or of a dead stack flag; each responder is called at most once, with
      the response to its request, and deleted exactly once; and no [MOJO_CHECK]
      fails for applications that leave closing to the library.
    - The handle watcher refines a map of watched handles and alarms: it waits on exactly
      these handles, forgets those reported ready, closes exactly those reported dead and
      obeys its commands in order, without a failed check or an access outside its
      vectors; timers that are due fire in order; a command to shut down ends it on a
      system that is attentive; every thread started is joined once.
    - Handles in C++: whatever a program does with its scopers, each handle of the
      process has one owner, none is closed twice or while another owns it, and none
      is left when all scopers are gone.
    - The Dart natives: given typed data that is not in use they return, give it back
      except in one case, and have the system access no other memory, and none outside it
      if it is as large as they are told; what they allocate is freed once; an argument
      that is not an integer has no effect; the table of natives is complete.
    - The arrays, strings and struct pointers of an application stand for nullable lists,
      strings and structs, whatever a program does with them, moves to themselves
      included, except that a release build lets a null [InlinedStructPtr] be written
      through.
    - A client that tracks its frames is never in the future, late or going back, as long
      as the frames it is told of are plausible; which frames make an update undefined.
    - Native Client: every function is the embedder's once the table is offered.
    - Flaws, as theorems: pointers to unions inside unions are validated without
      bounds, encoded and measured wrongly; a null handle array fails an
      assertion; a buffer of the serialized size can be too small for the copy;
      a bad handle is reported as an unknown error by some functions; a handler
      whose deadline has passed can starve the run loop; dropping a responder
      closes the pipe without the error state, so that using another one ends the
      process; the C++ bindings accept arrays of [bool] that leave the message, and
      pass the numbers in an array of interfaces on as handles, and lose handles when
      an array cannot be serialized; the handle watcher
      loses one of two timers with one deadline, waits for centuries when a deadline
      passes at the wrong moment, spins once it watches the invalid handle, and
      closes its control handle twice; the Dart native that writes a message keeps the
      typed data acquired when a handle is no integer, those that read and write check no
      sizes, and the one that creates a
      shared buffer asks for a wrong size from 2 GiB on; a hostile frame overflows the
      frame tracker, and a frame that is held back starts after its deadline.

    ** Bounds and assumptions

    Theorems on validated messages take descriptor tables that are [wf_descs]
    and [wf_layout]: entries refer to tables of the right kind, fields lie inside
    the struct versions that have them and do not overlap, and no union contains
    a union.  Buffers are below 4 GiB, as the code's [uint32_t] sizes require,
    and inside the 64-bit address space.  Addresses are plain integers: the
    pointer comparisons of the assertions are comparisons of [Z].  A message is decoded
    with an array of handles that is not null, also if there are none
    ([decode_handle_rejects_null_array]).  That encoding gives back the message received,
    byte for byte, takes a message that skips no handle index.  The order of tasks is
    claimed for tasks that run no loop of their own ([flat]); safety and termination are
    for all.  The handle watcher gets valid commands ([valid_command]) and a control pipe
    that stays open ([WatcherLaws]); that it ends assumes that a wait sees a pending
    command, or blames a handle that is reported dead, or does anything else at most so
    many times ([attentive]).  Dart code gives a native function typed data that is not in
    use ([arguments_ok]); that it is as large as the counts ([counts_fit]) is only needed
    for the accesses of the system to stay inside it; nobody else reads the pipe while
    [MojoMessagePipe_QueryAndRead] does.  A program over scopers gives and closes only handles
    that it holds itself ([op_ok]).

    ** Not modelled

    The GLES2 thunks (generated tables of the same shape; the header of
    gles2_thunks.c is missing), the start-up stub main.c, the members of generated types
    (which are arguments of the array templates; arrays and maps of structs and unions
    are not serialized), C++ callbacks, interface pointers and bindings, which tie the
    router to generated proxies and stubs, the application manager and
    the services above except for the frame tracker of their clients, the mojom compiler and the bindings for other languages.  Of
    what is modelled: the thread-local pointer to the current run loop, that a
    written message loses its handles, and the mutex of the table of watcher
    threads. *)

From stdpp Require Import base list numbers option.
From Stdlib Require Export ZifyBool.

(** ** Faults and results

    [result A] is the outcome of running C code: a value, or a crash.  A crash
    records why the execution leaves the defined behaviour of the program:
    an access to unmapped memory, a failed [assert], or (only in the model)
    recursion deeper than the fuel supplied. *)

Inductive fault : Type :=
| BadAccess      (** load or store outside mapped memory, or a null/ill-typed dereference *)
| AssertFailed   (** an [assert(...)] of the source, or a checked access ([at]), failed *)
| SignedOverflow (** an overflow of a signed integer, undefined in C and C++ *)
| OutOfFuel      (** the recursion bound of the model was reached *)
| OutOfIds       (** a 64-bit counter of identifiers would wrap around *)
| Misuse         (** the application broke a rule of an interface it calls *)
| Blocked.       (** a system call the program waits in never returns *)

(** Limits of what the model follows, not faults of the program. *)
Definition limit (f : fault) : Prop := f = OutOfFuel ∨ f = OutOfIds ∨ f = Blocked.

Inductive result (A : Type) : Type :=
| Ok (a : A)
| Crash (f : fault).
Arguments Ok {_} _.
Arguments Crash {_} _.

#[global] Instance fault_eq_dec : EqDecision fault.
Proof. solve_decision. Defined.

#[global] Instance result_eq_dec `{EqDecision A} : EqDecision (result A).
Proof. solve_decision. Defined.

#[global] Instance result_ret : MRet result := λ A a, Ok a.
#[global] Instance result_bind : MBind result := λ A B k e,
  match e with Ok a => k a | Crash f => Crash f end.

(** Stateful C code: a function from the state to a result and a new state. *)
Definition stateR (S A : Type) : Type := S → result (A * S).

#[global] Instance stateR_ret {S} : MRet (stateR S) := λ A a s, Ok (a, s).
#[global] Instance stateR_bind {S} : MBind (stateR S) := λ A B k e s,
  match e s with Ok (a, s') => k a s' | Crash f => Crash f end.

Definition lift {S A} (e : result A) : stateR S A := λ s,
  match e with Ok a => Ok (a, s) | Crash f => Crash f end.
Definition get_state {S} : stateR S S := λ s, Ok (s, s).
Definition put_state {S} (s : S) : stateR S unit := λ _, Ok (tt, s).
Definition crash {S A} (f : fault) : stateR S A := λ _, Crash f.

(** [assert(b)] *)
Definition c_assert {S} (b : bool) : stateR S unit :=
  if b then mret tt else crash AssertFailed.
Definition c_assertR (b : bool) : result unit :=
  if b then Ok tt else Crash AssertFailed.

(** [for (x : l) body(x);] *)
Fixpoint for_each {S A} (l : list A) (body : A → stateR S unit) : stateR S unit :=
  match l with
  | [] => mret tt
  | x :: l' => body x ;; for_each l' body
  end.

(** ** Reasoning about results

    [returns e Q]: the execution [e] terminates without a crash, with a value
    that satisfies [Q] (total correctness). *)
Definition returns {A} (e : result A) (Q : A → Prop) : Prop :=
  match e with Ok a => Q a | Crash _ => False end.

Section returns_rules.
Context {A B : Type}.
Implicit Types (e : result A).

Lemma returns_mono e (P Q : A → Prop) :
  returns e P → (∀ a, P a → Q a) → returns e Q.
Proof. destruct e; simpl; auto. Qed.

Lemma returns_bind e (k : A → result B) Q :
  returns e (λ a, returns (k a) Q) → returns (e ≫= k) Q.
Proof. by destruct e. Qed.

Lemma returns_Ok_inv e Q : returns e Q → ∃ a, e = Ok a ∧ Q a.
Proof. destruct e; simpl; [eauto|done]. Qed.

Lemma bind_Ok_inv e (k : A → result B) r :
  e ≫= k = Ok r → ∃ a, e = Ok a ∧ k a = Ok r.
Proof. destruct e; simpl; [eauto|done]. Qed.
End returns_rules.

Section state_rules.
Context {S A B : Type}.
Implicit Types (e : stateR S A).

Lemma returnsS_bind e (k : A → stateR S B) s Q :
  returns (e s) (λ '(a, s'), returns (k a s') Q) → returns ((e ≫= k) s) Q.
Proof. unfold mbind, stateR_bind. by destruct (e s) as [[]|]. Qed.

Lemma returnsS_lift (e : result A) s (Q : A * S → Prop) :
  returns e (λ a, Q (a, s)) → returns (lift (S:=S) e s) Q.
Proof. by destruct e. Qed.

Lemma bindS_Ok_inv e (k : A → stateR S B) s r :
  (e ≫= k) s = Ok r → ∃ a s', e s = Ok (a, s') ∧ k a s' = Ok r.
Proof. unfold mbind, stateR_bind. destruct (e s) as [[]|]; [eauto|done]. Qed.

Lemma bindS_Ok e (k : A → stateR S B) s a s' :
  e s = Ok (a, s') → (e ≫= k) s = k a s'.
Proof. unfold mbind, stateR_bind. by intros ->. Qed.

Lemma bind_lift_Ok (e : result A) a (k : A → stateR S B) s :
  e = Ok a → (lift e ≫= k) s = k a s.
Proof. by intros ->. Qed.

Lemma lift_Ok_inv (e : result A) s a s' :
  lift (S:=S) e s = Ok (a, s') → e = Ok a ∧ s' = s.
Proof. destruct e; simpl; naive_solver. Qed.
End state_rules.

(** [guarded G e s Q]: if the execution [e] from [s] returns, [Q] holds of the
    value and the state; if it stops, then for a reason in [G]. *)
Definition guarded {S A} (G : fault → Prop) (e : stateR S A) (s : S) (Q : A → S → Prop) : Prop :=
  match e s with Ok (a, s') => Q a s' | Crash f => G f end.

(** [safely e s Q]: the same for an execution that commits no fault (partial
    correctness and safety). *)
Definition safely {S A} (e : stateR S A) (s : S) (Q : A → S → Prop) : Prop :=
  match e s with Ok (a, s') => Q a s' | Crash f => limit f end.

Section guarded_rules.
Context {S A B : Type} (G : fault → Prop).
Implicit Types (e : stateR S A) (s : S).

Lemma guarded_mono e s (P Q : A → S → Prop) :
  guarded G e s P → (∀ a s', P a s' → Q a s') → guarded G e s Q.
Proof. unfold guarded. destruct (e s) as [[]|]; auto. Qed.

Lemma guarded_bind e (k : A → stateR S B) s Q :
  guarded G e s (λ a s', guarded G (k a) s' Q) → guarded G (e ≫= k) s Q.
Proof. unfold guarded, mbind, stateR_bind. by destruct (e s) as [[]|]. Qed.

Lemma guarded_ret a s (Q : A → S → Prop) : Q a s → guarded G (mret a) s Q.
Proof. done. Qed.

Lemma guarded_crash f s (Q : A → S → Prop) : G f → guarded G (crash f) s Q.
Proof. done. Qed.

Lemma guarded_lift (r : result A) s (Q : A → S → Prop) :
  returns r (λ a, Q a s) → guarded G (lift r) s Q.
Proof. by destruct r. Qed.

Lemma guarded_returns e s (Q : A → S → Prop) :
  returns (e s) (λ '(a, s'), Q a s') → guarded G e s Q.
Proof. unfold guarded. by destruct (e s) as [[]|]. Qed.
End guarded_rules.

Section safely_rules.
Context {S A B : Type}.
Implicit Types (e : stateR S A) (s : S).

Lemma safely_mono e s (P Q : A → S → Prop) :
  safely e s P → (∀ a s', P a s' → Q a s') → safely e s Q.
Proof. apply guarded_mono. Qed.

Lemma safely_bind e (k : A → stateR S B) s Q :
  safely e s (λ a s', safely (k a) s' Q) → safely (e ≫= k) s Q.
Proof. apply guarded_bind. Qed.

Lemma safely_ret a s (Q : A → S → Prop) : Q a s → safely (mret a) s Q.
Proof. done. Qed.

Lemma safely_assert b s (Q : unit → S → Prop) :
  b = true → Q tt s → safely (c_assert b) s Q.
Proof. by intros ->. Qed.

Lemma safely_limit f s (Q : A → S → Prop) : limit f → safely (crash f) s Q.
Proof. done. Qed.
End safely_rules.

(** ** Lists *)

Lemma Forall2_elem_l {A B} (P : A → B → Prop) l k x :
  Forall2 P l k → x ∈ l → ∃ y, P x y.
Proof.
  induction 1 as [|a b l k Hab Hl IH]; intros Hx; [by apply elem_of_nil in Hx|].
  apply elem_of_cons in Hx as [->|Hx]; [by exists b|by apply IH].
Qed.

Lemma Forall2_impl_elem {A B} (P Q : A → B → Prop) l k :
  Forall2 P l k → (∀ x y, x ∈ l → P x y → Q x y) → Forall2 Q l k.
Proof.
  induction 1 as [|a b l k Hab Hl IH]; intros HPQ; [constructor|].
  constructor; [apply HPQ; [by left|done]|]. apply IH. intros x y Hx. apply HPQ. by right.
Qed.

(** ** Machine integers *)

Open Scope Z_scope.

Definition UINT32_MAX : Z := 4294967295.

(** Conversion to [uint32_t] and [uint64_t]: reduction modulo [2^w]. *)
Definition u32 (z : Z) : Z := z `mod` 2 ^ 32.
Definition u64 (z : Z) : Z := z `mod` 2 ^ 64.
(** Conversion to [int32_t] and [int64_t] (two's complement). *)
Definition s32 (z : Z) : Z := (z + 2 ^ 31) `mod` 2 ^ 32 - 2 ^ 31.
Definition s64 (z : Z) : Z := (z + 2 ^ 63) `mod` 2 ^ 64 - 2 ^ 63.

#[global] Arguments u32 : simpl never.
#[global] Arguments u64 : simpl never.
#[global] Arguments s32 : simpl never.
#[global] Arguments s64 : simpl never.

Lemma u32_range z : 0 <= u32 z < 2 ^ 32.
Proof. apply Z.mod_pos_bound. lia. Qed.
Lemma u64_range z : 0 <= u64 z < 2 ^ 64.
Proof. apply Z.mod_pos_bound. lia. Qed.
Lemma u32_small z : 0 <= z < 2 ^ 32 → u32 z = z.
Proof. apply Z.mod_small. Qed.
Lemma u64_small z : 0 <= z < 2 ^ 64 → u64 z = z.
Proof. apply Z.mod_small. Qed.

Create HintDb mojo.
Create Rewrite HintDb mojo.
#[export] Hint Rewrite u32_small u64_small using lia : mojo.
#[export] Hint Resolve u32_range u64_range : mojo.

(** ** Tactics

    [run_step] executes one step of a goal [returns (e s) Q]; [run] executes
    until a call it has no rule for. *)
Ltac run_step :=
  lazymatch goal with
  | |- returns ((_ ≫= _) _) _ => apply returnsS_bind
  | |- returns (lift _ _) _ => apply returnsS_lift
  | |- returns (c_assert true _) _ => cbn [c_assert returns mret stateR_ret]
  | |- returns (c_assert ?b _) _ => unfold c_assert; destruct b eqn:?
  | |- returns (mret _ _) _ => cbn [returns mret stateR_ret]
  | |- returns (get_state _) _ => cbn [returns get_state]
  | |- returns (put_state _ _) _ => cbn [returns put_state]
  | |- returns ((if ?b then _ else _) _) _ => destruct b eqn:?
  | |- returns (_ ≫= _) _ => apply returns_bind
  | |- returns (if ?b then _ else _) _ => destruct b eqn:?
  | |- returns (Ok _) _ => cbn [returns]
  | H : ?e = Ok _ |- returns ?e _ => rewrite H; cbn [returns]
  end.
Ltac run := repeat run_step.

(** The same, dropping the branches [lia] refutes. *)
Ltac prune_step :=
  lazymatch goal with
  | |- returns (c_assert true _) _ => cbn [c_assert returns mret stateR_ret]
  | |- returns (c_assert ?b _) _ => unfold c_assert; destruct b eqn:?; try (exfalso; lia)
  | |- returns ((if ?b then _ else _) _) _ => destruct b eqn:?; try (exfalso; lia)
  | |- returns (if ?b then _ else _) _ => destruct b eqn:?; try (exfalso; lia)
  | |- _ => run_step
  end.

(** Two executions of the same expression have the same result. *)
Ltac same_result :=
  repeat match goal with
  | H1 : ?e = Ok ?a, H2 : ?e = Ok ?b |- _ =>
      rewrite H1 in H2; injection H2 as H2; try subst b; try subst a
  end.
