(* ===== verification/Memory.v ===== *)
(** * Byte-addressed memory

    The flat address space the C bindings run in: a finite map from addresses
    to bytes.  An address outside the map is not accessible.  Integers are
    stored little-endian. *)
From stdpp Require Import gmap.
From Stdlib Require Import Strings.Byte.
From S2P Require Import Prelude.

#[global] Instance byte_eq_dec : EqDecision byte := Byte.byte_eq_dec.

Definition byte_to_Z (b : byte) : Z := Z.of_N (Byte.to_N b).
Definition Z_to_byte (z : Z) : byte :=
  default x00 (Byte.of_N (Z.to_N (z `mod` 256))).

Lemma byte_to_Z_range b : 0 <= byte_to_Z b < 256.
Proof. unfold byte_to_Z. pose proof (Byte.to_N_bounded b). lia. Qed.

Lemma byte_to_Z_to_byte z : byte_to_Z (Z_to_byte z) = z `mod` 256.
Proof.
  unfold byte_to_Z, Z_to_byte.
  pose proof (Z.mod_pos_bound z 256 ltac:(lia)) as Hb.
  destruct (Byte.of_N (Z.to_N (z `mod` 256))) as [b|] eqn:E; simpl.
  - apply Byte.to_of_N in E. lia.
  - apply Byte.of_N_None_iff in E. lia.
Qed.

Lemma Z_to_byte_to_Z b : Z_to_byte (byte_to_Z b) = b.
Proof.
  unfold Z_to_byte. rewrite Z.mod_small by apply byte_to_Z_range.
  unfold byte_to_Z. by rewrite N2Z.id, Byte.of_to_N.
Qed.

Abbreviation mem := (gmap Z byte).

Implicit Types (m : mem) (a x v : Z).

(** ** Loads and stores *)

Definition load_byte m a : result Z :=
  match m !! a with
  | Some b => Ok (byte_to_Z b)
  | None => Crash BadAccess
  end.

Definition store_byte m a v : result mem :=
  match m !! a with
  | Some _ => Ok (<[a := Z_to_byte v]> m)
  | None => Crash BadAccess
  end.

(** Little-endian access to [n] consecutive bytes. *)
Fixpoint load_le (n : nat) m a : result Z :=
  match n with
  | O => Ok 0
  | S n' =>
      b ← load_byte m a;
      r ← load_le n' m (a + 1);
      Ok (b + 256 * r)
  end.

Fixpoint store_le (n : nat) m a v : result mem :=
  match n with
  | O => Ok m
  | S n' =>
      m' ← store_byte m a v;
      store_le n' m' (a + 1) (v / 256)
  end.

Definition load32 : mem → Z → result Z := load_le 4.
Definition load64 : mem → Z → result Z := load_le 8.
Definition store32 : mem → Z → Z → result mem := store_le 4.
Definition store64 : mem → Z → Z → result mem := store_le 8.

(** [memcpy(dst, src, n)], byte by byte (the C function requires that the two
    areas do not overlap). *)
Fixpoint memcpy (n : nat) m (dst src : Z) : result mem :=
  match n with
  | O => Ok m
  | S n' =>
      b ← load_byte m src;
      m' ← store_byte m dst b;
      memcpy n' m' (dst + 1) (src + 1)
  end.

(** ** Regions *)

Definition range (lo hi x : Z) : Prop := lo <= x < hi.

#[global] Instance range_dec lo hi x : Decision (range lo hi x).
Proof. unfold range. apply _. Defined.

(** Every address of [lo, hi) is accessible. *)
Definition mapped m (lo hi : Z) : Prop := ∀ x, range lo hi x → is_Some (m !! x).

(** Two memories hold the same bytes on a region. *)
Definition agree_on (R : Z → Prop) (m1 m2 : mem) : Prop :=
  ∀ x, R x → m1 !! x = m2 !! x.

Lemma mapped_sub m lo hi lo' hi' :
  mapped m lo hi → lo <= lo' → hi' <= hi → mapped m lo' hi'.
Proof. intros Hm ?? x [??]. apply Hm. split; lia. Qed.

Lemma agree_on_sub (R R' : Z → Prop) m1 m2 :
  agree_on R m1 m2 → (∀ x, R' x → R x) → agree_on R' m1 m2.
Proof. intros H HR x Hx. auto. Qed.

Lemma agree_on_sym R m1 m2 : agree_on R m1 m2 → agree_on R m2 m1.
Proof. intros H x Hx. symmetry. auto. Qed.

Lemma agree_on_trans R m1 m2 m3 :
  agree_on R m1 m2 → agree_on R m2 m3 → agree_on R m1 m3.
Proof. intros H1 H2 x Hx. rewrite H1 by done. auto. Qed.

#[global] Instance agree_on_equiv R : Equivalence (agree_on R).
Proof.
  split.
  - by intros m x _.
  - intros m1 m2. apply agree_on_sym.
  - intros m1 m2 m3. apply agree_on_trans.
Qed.

Lemma agree_on_mapped lo hi m1 m2 :
  agree_on (range lo hi) m1 m2 → mapped m1 lo hi → mapped m2 lo hi.
Proof. intros Ha Hm x Hx. rewrite <- Ha by done. auto. Qed.

(** Regions as predicates on addresses. *)
Definition union (R1 R2 : Z → Prop) (x : Z) : Prop := R1 x ∨ R2 x.
Definition disjoint (R1 R2 : Z → Prop) : Prop := ∀ x, R1 x → R2 x → False.
Definition empty (x : Z) : Prop := False.
Definition outside (R : Z → Prop) (x : Z) : Prop := ¬ R x.

Abbreviation DecRegion R := (∀ x : Z, Decision (R x)).

#[global] Instance union_dec R1 R2 `{!DecRegion R1, !DecRegion R2} : DecRegion (union R1 R2).
Proof. intros x. unfold union. apply _. Defined.
#[global] Instance empty_dec : DecRegion empty.
Proof. intros x. unfold empty. apply _. Defined.

Lemma agree_on_union R1 R2 m1 m2 :
  agree_on (union R1 R2) m1 m2 ↔ agree_on R1 m1 m2 ∧ agree_on R2 m1 m2.
Proof.
  split.
  - intros Ha. split; intros x Hx; apply Ha; [by left|by right].
  - intros [H1 H2] x [Hx|Hx]; auto.
Qed.

(** ** Laws of loads *)

Lemma load_byte_agree m1 m2 a : m1 !! a = m2 !! a → load_byte m1 a = load_byte m2 a.
Proof. unfold load_byte. by intros ->. Qed.

Lemma load_le_agree n m1 m2 a :
  agree_on (range a (a + Z.of_nat n)) m1 m2 → load_le n m1 a = load_le n m2 a.
Proof.
  revert a. induction n as [|n IH]; intros a Ha; [done|]. simpl.
  rewrite (load_byte_agree m1 m2 a) by (apply Ha; split; lia).
  destruct (load_byte m2 a); simpl; [|done].
  rewrite IH; [done|]. eapply agree_on_sub; [done|]. unfold range. lia.
Qed.

Lemma load_le_range n m a v : load_le n m a = Ok v → 0 <= v < 256 ^ Z.of_nat n.
Proof.
  revert a v. induction n as [|n IH]; intros a v; simpl.
  { intros [= <-]. lia. }
  intros (b & Hb & (r & Hr & [= <-])%bind_Ok_inv)%bind_Ok_inv.
  apply IH in Hr. rewrite Nat2Z.inj_succ, Z.pow_succ_r by lia.
  unfold load_byte in Hb. destruct (m !! a); simplify_eq.
  pose proof (byte_to_Z_range b0). nia.
Qed.

(** The high part of a multi-byte value. *)
Lemma load_le_high k n m a v :
  load_le (k + n) m a = Ok v → load_le n m (a + Z.of_nat k) = Ok (v / 256 ^ Z.of_nat k).
Proof.
  revert a v. induction k as [|k IH]; intros a v; cbn [Nat.add].
  { intros Hv. rewrite Z.div_1_r, Z.add_0_r. exact Hv. }
  intros (b & Hb & (r & Hr & [= <-])%bind_Ok_inv)%bind_Ok_inv.
  apply IH in Hr. unfold load_byte in Hb. destruct (m !! a); simplify_eq.
  pose proof (byte_to_Z_range b0).
  replace (a + Z.of_nat (S k)) with (a + 1 + Z.of_nat k) by lia. rewrite Hr. f_equal.
  rewrite Nat2Z.inj_succ, Z.pow_succ_r, <- Z.div_div by lia. f_equal.
  rewrite (Z.mul_comm 256), Z.div_add by lia. rewrite Z.div_small by lia. lia.
Qed.

Lemma load_le_mapped n m a :
  mapped m a (a + Z.of_nat n) → ∃ v, load_le n m a = Ok v.
Proof.
  revert a. induction n as [|n IH]; intros a Hm; [by exists 0|]. simpl.
  destruct (Hm a) as [b Hb]; [split; lia|].
  unfold load_byte. rewrite Hb. simpl.
  destruct (IH (a + 1)) as [r ->]; [|simpl; eauto].
  eapply mapped_sub; [done|lia|lia].
Qed.

Lemma load_le_Ok_mapped n m a v : load_le n m a = Ok v → mapped m a (a + Z.of_nat n).
Proof.
  revert a v. induction n as [|n IH]; intros a v; simpl.
  { intros _ x [??]. lia. }
  intros (b & Hb & (r & Hr & _)%bind_Ok_inv)%bind_Ok_inv x Hx.
  unfold load_byte in Hb. destruct (m !! a) eqn:E; simplify_eq.
  destruct (decide (x = a)) as [->|]; [by eauto|].
  eapply IH; [done|]. unfold range in *. lia.
Qed.

(** A multi-byte value determines the bytes it was loaded from. *)
Lemma load_le_inj n m1 m2 a v :
  load_le n m1 a = Ok v → load_le n m2 a = Ok v →
  agree_on (range a (a + Z.of_nat n)) m1 m2.
Proof.
  revert a v. induction n as [|n IH]; intros a v; simpl.
  { intros _ _ x [??]. lia. }
  intros (b1 & Hb1 & (r1 & Hr1 & [= <-])%bind_Ok_inv)%bind_Ok_inv
    (b2 & Hb2 & (r2 & Hr2 & [= Hv])%bind_Ok_inv)%bind_Ok_inv x Hx.
  unfold load_byte in *.
  destruct (m1 !! a) as [c1|] eqn:E1, (m2 !! a) as [c2|] eqn:E2; simplify_eq.
  pose proof (byte_to_Z_range c1). pose proof (byte_to_Z_range c2).
  assert (byte_to_Z c1 = byte_to_Z c2) as Hc by lia.
  assert (r1 = r2) as -> by lia.
  destruct (decide (x = a)) as [->|].
  - rewrite E1, E2. f_equal. rewrite <- (Z_to_byte_to_Z c1), Hc. apply Z_to_byte_to_Z.
  - eapply IH; [done..|]. unfold range in *. lia.
Qed.

(** ** Laws of stores *)

Lemma store_le_frame n m a v m' :
  store_le n m a v = Ok m' →
  agree_on (λ x, ¬ range a (a + Z.of_nat n) x) m m'.
Proof.
  revert m a v. induction n as [|n IH]; intros m a v; simpl.
  { by intros [= ->]. }
  intros (m1 & Hm1 & Hm')%bind_Ok_inv x Hx. unfold store_byte in Hm1.
  destruct (m !! a); simplify_eq. apply IH in Hm'.
  rewrite <- Hm' by (unfold range in *; lia).
  rewrite lookup_insert_ne; [done|]. unfold range in *. lia.
Qed.

Lemma store_le_load n m a v m' :
  store_le n m a v = Ok m' → load_le n m' a = Ok (v `mod` 256 ^ Z.of_nat n).
Proof.
  revert m a v. induction n as [|n IH]; intros m a v; simpl.
  { intros _. by rewrite Z.mod_1_r. }
  intros (m1 & Hm1 & Hm')%bind_Ok_inv. unfold store_byte in Hm1.
  destruct (m !! a); simplify_eq.
  pose proof (store_le_frame _ _ _ _ _ Hm' a) as Hf.
  rewrite lookup_insert_eq in Hf. unfold load_byte.
  rewrite <- Hf by (unfold range; lia). simpl.
  rewrite (IH _ _ _ Hm'). simpl. f_equal. rewrite byte_to_Z_to_byte.
  rewrite Nat2Z.inj_succ, Z.pow_succ_r by lia.
  rewrite Z.rem_mul_r by lia. lia.
Qed.

Lemma store_le_mapped n m a v :
  mapped m a (a + Z.of_nat n) → ∃ m', store_le n m a v = Ok m'.
Proof.
  revert m a v. induction n as [|n IH]; intros m a v Hm; simpl; [eauto|].
  destruct (Hm a) as [b Hb]; [split; lia|].
  unfold store_byte. rewrite Hb. simpl. apply IH.
  intros x Hx. destruct (decide (a = x)) as [->|].
  - rewrite lookup_insert_eq. eauto.
  - rewrite lookup_insert_ne by done. apply Hm. unfold range in *. lia.
Qed.

Lemma store_le_is_Some n m a v m' x :
  store_le n m a v = Ok m' → is_Some (m' !! x) ↔ is_Some (m !! x).
Proof.
  revert m a v. induction n as [|n IH]; intros m a v; simpl.
  { by intros [= ->]. }
  intros (m1 & Hm1 & Hm')%bind_Ok_inv. unfold store_byte in Hm1.
  destruct (m !! a) eqn:E; simplify_eq. rewrite (IH _ _ _ Hm').
  destruct (decide (a = x)) as [->|].
  - rewrite lookup_insert_eq, E. by split; eauto.
  - by rewrite lookup_insert_ne.
Qed.

(** A store over mapped bytes: it succeeds, reads back, and changes nothing
    else. *)
Lemma store_le_ok n m a v :
  mapped m a (a + Z.of_nat n) → 0 <= v < 256 ^ Z.of_nat n →
  returns (store_le n m a v) (λ m', load_le n m' a = Ok v ∧
    agree_on (λ x, ¬ range a (a + Z.of_nat n) x) m m' ∧
    ∀ x, is_Some (m' !! x) ↔ is_Some (m !! x)).
Proof.
  intros Hm Hv. destruct (store_le_mapped n m a v Hm) as [m' Hs]. rewrite Hs.
  cbn [returns]. split_and!.
  - rewrite (store_le_load _ _ _ _ _ Hs). by rewrite Z.mod_small.
  - by eapply store_le_frame.
  - intros x. by eapply store_le_is_Some.
Qed.

Lemma store32_ok m a v :
  mapped m a (a + 4) → 0 <= v < 2 ^ 32 →
  returns (store32 m a v) (λ m', load32 m' a = Ok v ∧
    agree_on (λ x, ¬ range a (a + 4) x) m m' ∧
    ∀ x, is_Some (m' !! x) ↔ is_Some (m !! x)).
Proof. apply (store_le_ok 4). Qed.

Lemma store64_ok m a v :
  mapped m a (a + 8) → 0 <= v < 2 ^ 64 →
  returns (store64 m a v) (λ m', load64 m' a = Ok v ∧
    agree_on (λ x, ¬ range a (a + 8) x) m m' ∧
    ∀ x, is_Some (m' !! x) ↔ is_Some (m !! x)).
Proof. apply (store_le_ok 8). Qed.

Lemma load32_agree m1 m2 a :
  agree_on (range a (a + 4)) m1 m2 → load32 m1 a = load32 m2 a.
Proof. apply (load_le_agree 4). Qed.
Lemma load64_agree m1 m2 a :
  agree_on (range a (a + 8)) m1 m2 → load64 m1 a = load64 m2 a.
Proof. apply (load_le_agree 8). Qed.
Lemma load32_range m a v : load32 m a = Ok v → 0 <= v < 2 ^ 32.
Proof. apply (load_le_range 4). Qed.
Lemma load64_range m a v : load64 m a = Ok v → 0 <= v < 2 ^ 64.
Proof. apply (load_le_range 8). Qed.
Lemma load32_mapped m a v : load32 m a = Ok v → mapped m a (a + 4).
Proof. apply (load_le_Ok_mapped 4). Qed.
Lemma load64_mapped m a v : load64 m a = Ok v → mapped m a (a + 8).
Proof. apply (load_le_Ok_mapped 8). Qed.
Lemma load64_high m a v : load64 m a = Ok v → load32 m (a + 4) = Ok (v / 2 ^ 32).
Proof. apply (load_le_high 4 4). Qed.
Lemma load32_unmapped m a : m !! a = None → load32 m a = Crash BadAccess.
Proof. intros Ha. unfold load32. simpl. unfold load_byte. by rewrite Ha. Qed.
Lemma load32_inj m1 m2 a v :
  load32 m1 a = Ok v → load32 m2 a = Ok v → agree_on (range a (a + 4)) m1 m2.
Proof. apply (load_le_inj 4). Qed.
Lemma load64_inj m1 m2 a v :
  load64 m1 a = Ok v → load64 m2 a = Ok v → agree_on (range a (a + 8)) m1 m2.
Proof. apply (load_le_inj 8). Qed.

(** Copying between areas that do not overlap. *)
Lemma memcpy_ok n m dst src :
  mapped m dst (dst + Z.of_nat n) → mapped m src (src + Z.of_nat n) →
  (∀ x, range dst (dst + Z.of_nat n) x → ¬ range src (src + Z.of_nat n) x) →
  returns (memcpy n m dst src) (λ m',
    (∀ i, 0 <= i < Z.of_nat n → m' !! (dst + i) = m !! (src + i)) ∧
    agree_on (λ x, ¬ range dst (dst + Z.of_nat n) x) m m' ∧
    ∀ x, is_Some (m' !! x) ↔ is_Some (m !! x)).
Proof.
  revert m dst src. induction n as [|n IH]; intros m dst src Hd Hs Hsep.
  { split_and!; [intros; lia|done|done]. }
  destruct (Hd dst) as [bd Hbd]; [unfold range; lia|].
  destruct (Hs src) as [bs Hbs]; [unfold range; lia|].
  cbn [memcpy]. unfold load_byte, store_byte. rewrite Hbs. cbn [mbind result_bind].
  rewrite Hbd. cbn [mbind result_bind]. rewrite Z_to_byte_to_Z.
  assert (∀ x, is_Some (<[dst := bs]> m !! x) ↔ is_Some (m !! x)) as Hdom.
  { intros x. destruct (decide (dst = x)) as [<-|].
    - rewrite lookup_insert_eq, Hbd. by split; eauto.
    - by rewrite lookup_insert_ne. }
  eapply returns_mono; [apply IH|].
  - intros x Hx. apply Hdom, Hd. unfold range in *. lia.
  - intros x Hx. apply Hdom, Hs. unfold range in *. lia.
  - intros x Hx Hx'. apply (Hsep x); unfold range in *; lia.
  - intros m' (Hcopy & Hframe & Hdom'). split_and!.
    + intros i Hi. destruct (decide (i = 0)) as [->|Hi0].
      * rewrite !Z.add_0_r, <- Hframe by (unfold range; lia).
        by rewrite lookup_insert_eq.
      * replace (dst + i) with (dst + 1 + (i - 1)) by lia.
        rewrite Hcopy by lia. replace (src + 1 + (i - 1)) with (src + i) by lia.
        apply lookup_insert_ne. intros Heq. apply (Hsep dst); unfold range; lia.
    + intros x Hx. rewrite <- Hframe by (unfold range in *; lia).
      rewrite lookup_insert_ne; [done|]. unfold range in *. lia.
    + intros x. by rewrite Hdom', Hdom.
Qed.

#[global] Arguments load_le : simpl never.
#[global] Arguments store_le : simpl never.
#[global] Arguments load32 : simpl never.
#[global] Arguments load64 : simpl never.
#[global] Arguments store32 : simpl never.
#[global] Arguments store64 : simpl never.
