(* ===== verification/TypeDescriptor.v ===== *)
(** * Type descriptors (public/c/include/mojo/bindings/internal/type_descriptor.h)

    The tables a bindings generator emits for mojom structs, unions and
    arrays.  A C pointer to a descriptor is an index into the table of all
    descriptors ([None] is [NULL]), so descriptors may refer to each other
    cyclically, as those of recursive mojom types do.  The second half of the
    file states what a generator guarantees of its tables. *)
From stdpp Require Import base list numbers option gmap.
From S2P Require Import Prelude Memory.

Inductive MojomTypeDescriptorType : Set :=
| STRUCT_PTR
| MAP_PTR
| ARRAY_PTR
| UNION_PTR
| UNION
| HANDLE
| INTERFACE
| POD.

#[global] Instance MojomTypeDescriptorType_eq_dec : EqDecision MojomTypeDescriptorType.
Proof. solve_decision. Defined.

(** [const void* elem_descriptor] *)
Definition desc_ptr : Set := option nat.

Record MojomTypeDescriptorStructVersion : Set := mkStructVersion {
  sv_version : Z;
  sv_num_bytes : Z;
}.

Record MojomTypeDescriptorStructEntry : Set := mkStructEntry {
  se_elem_type : MojomTypeDescriptorType;
  se_elem_descriptor : desc_ptr;
  se_offset : Z;
  se_min_version : Z;
  se_nullable : bool;
}.

(** [num_versions] and [num_entries] are the lengths of the lists. *)
Record MojomTypeDescriptorStruct : Set := mkStructDesc {
  sd_versions : list MojomTypeDescriptorStructVersion;
  sd_entries : list MojomTypeDescriptorStructEntry;
}.

Record MojomTypeDescriptorUnionEntry : Set := mkUnionEntry {
  ue_elem_type : MojomTypeDescriptorType;
  ue_elem_descriptor : desc_ptr;
  ue_tag : Z;
  ue_nullable : bool;
}.

Record MojomTypeDescriptorUnion : Set := mkUnionDesc {
  ud_num_fields : Z;
  ud_entries : list MojomTypeDescriptorUnionEntry;
}.

Record MojomTypeDescriptorArray : Set := mkArrayDesc {
  ad_elem_type : MojomTypeDescriptorType;
  ad_elem_descriptor : desc_ptr;
  ad_num_elements : Z;
  ad_elem_num_bits : Z;
  ad_nullable : bool;
}.

Inductive MojomTypeDescriptor : Set :=
| DescStruct (d : MojomTypeDescriptorStruct)
| DescUnion (d : MojomTypeDescriptorUnion)
| DescArray (d : MojomTypeDescriptorArray).

Definition desc_table : Set := list MojomTypeDescriptor.

Definition g_mojom_string_type_description : MojomTypeDescriptorArray := {|
  ad_elem_type := POD;
  ad_elem_descriptor := None;
  ad_num_elements := 0;
  ad_elem_num_bits := 8;
  ad_nullable := false;
|}.

Definition MojomType_IsPointer (type : MojomTypeDescriptorType) : bool :=
  bool_decide (type = STRUCT_PTR) || bool_decide (type = MAP_PTR) ||
  bool_decide (type = ARRAY_PTR) || bool_decide (type = UNION_PTR).

(** ** Layout of the objects descriptors talk about *)

(** [sizeof(struct MojomStructHeader)], [sizeof(struct MojomArrayHeader)],
    [sizeof(union MojomPointer)], [sizeof(struct MojomUnionLayout)],
    [sizeof(struct MojomInterfaceData)] and [sizeof(MojoHandle)]. *)
Definition sizeof_MojomStructHeader : Z := 8.
Definition sizeof_MojomArrayHeader : Z := 8.
Definition sizeof_MojomPointer : Z := 8.
Definition sizeof_MojomUnionLayout : Z := 16.
Definition sizeof_MojomInterfaceData : Z := 8.
Definition sizeof_MojoHandle : Z := 4.

(** Field access: [struct MojomStructHeader] and [struct MojomArrayHeader]
    hold two [uint32_t]; [struct MojomUnionLayout] holds [size], [tag] and the
    8 bytes of [data]; [struct MojomInterfaceData] holds [handle], [version]. *)
Definition struct_num_bytes (m : mem) (p : Z) : result Z := load32 m p.
Definition struct_version (m : mem) (p : Z) : result Z := load32 m (p + 4).
Definition array_num_bytes (m : mem) (p : Z) : result Z := load32 m p.
Definition array_num_elements (m : mem) (p : Z) : result Z := load32 m (p + 4).
Definition union_size (m : mem) (p : Z) : result Z := load32 m p.
Definition union_tag (m : mem) (p : Z) : result Z := load32 m (p + 4).
Definition union_data (p : Z) : Z := p + 8.
Definition interface_handle (p : Z) : Z := p.

(** [MOJOM_ARRAY_INDEX(base, type, index)] with [elem_size = sizeof(type)] *)
Definition MOJOM_ARRAY_INDEX (base elem_size index : Z) : Z :=
  base + sizeof_MojomArrayHeader + elem_size * index.

(** [MOJOM_INTERNAL_ROUND_TO_8(num)] at unsigned width [w] *)
Definition MOJOM_INTERNAL_ROUND_TO_8 (w num : Z) : Z :=
  Z.land ((num + 7) `mod` 2 ^ w) (Z.lnot 7 `mod` 2 ^ w).

#[global] Arguments MOJOM_INTERNAL_ROUND_TO_8 : simpl never.

(** ** Dereferencing a descriptor pointer

    [(const struct MojomTypeDescriptorStruct* )p] and its siblings, at the
    point where the program first reads through the pointer: a null pointer or
    one to a descriptor of another kind is undefined behaviour. *)
Section deref.
Context (descs : desc_table).

Definition deref_struct (p : desc_ptr) : result MojomTypeDescriptorStruct :=
  match p ≫= λ i, descs !! i with
  | Some (DescStruct d) => Ok d
  | _ => Crash BadAccess
  end.

Definition deref_union (p : desc_ptr) : result MojomTypeDescriptorUnion :=
  match p ≫= λ i, descs !! i with
  | Some (DescUnion d) => Ok d
  | _ => Crash BadAccess
  end.

Definition deref_array (p : desc_ptr) : result MojomTypeDescriptorArray :=
  match p ≫= λ i, descs !! i with
  | Some (DescArray d) => Ok d
  | _ => Crash BadAccess
  end.
End deref.

(** The loops of union.c: [for (i = 0; i < num_entries; i++) { entry =
    &entries[i]; if (union->tag != entry->tag) continue; ... }], up to the first
    entry whose tag is the union's; the tag is read for each entry examined. *)
Fixpoint select_union_entry (tag : result Z)
    (entries : list MojomTypeDescriptorUnionEntry)
    : result (option MojomTypeDescriptorUnionEntry) :=
  match entries with
  | [] => Ok None
  | entry :: entries' =>
      t ← tag;
      if negb (t =? ue_tag entry) then select_union_entry tag entries'
      else Ok (Some entry)
  end.

(** [p != NULL] for a descriptor pointer *)
Definition desc_nonnull (p : desc_ptr) : bool := bool_decide (is_Some p).

(** ** What a generator guarantees *)

(** Bytes a field or element of this type occupies where it is declared. *)
Definition elem_size (t : MojomTypeDescriptorType) : Z :=
  match t with
  | STRUCT_PTR | MAP_PTR | ARRAY_PTR | UNION_PTR => sizeof_MojomPointer
  | UNION => sizeof_MojomUnionLayout
  | HANDLE => sizeof_MojoHandle
  | INTERFACE => sizeof_MojomInterfaceData
  | POD => 0
  end.

Lemma elem_size_nonneg t : 0 <= elem_size t.
Proof. by destruct t. Qed.
Lemma elem_size_pos t : t ≠ POD → 0 < elem_size t.
Proof. by destruct t. Qed.

Section wf.
Context (descs : desc_table).

(** A map is a struct of two arrays, the keys and the values. *)
Definition map_shape (d : MojomTypeDescriptorStruct) : bool :=
  match sd_entries d with
  | [k; v] =>
      bool_decide (se_elem_type k = ARRAY_PTR) && (se_offset k =? 0) &&
      (se_min_version k =? 0) && negb (se_nullable k) &&
      bool_decide (se_elem_type v = ARRAY_PTR) && (se_offset v =? 8) &&
      (se_min_version v =? 0) && negb (se_nullable v)
  | _ => false
  end.

(** The descriptor pointer matches the element type.  Unions nested inside
    unions ([UNION_PTR]) are left out: see the findings on them. *)
Definition wf_elem (t : MojomTypeDescriptorType) (p : desc_ptr) : bool :=
  match t with
  | STRUCT_PTR => match deref_struct descs p with Ok _ => true | _ => false end
  | MAP_PTR => match deref_struct descs p with Ok d => map_shape d | _ => false end
  | ARRAY_PTR => match deref_array descs p with Ok _ => true | _ => false end
  | UNION => match deref_union descs p with Ok _ => true | _ => false end
  | UNION_PTR => false
  | HANDLE | INTERFACE | POD => true
  end.

(** Version records start at the oldest version, increase strictly, and are
    no smaller than a struct header. *)
Fixpoint increasing (l : list Z) : bool :=
  match l with
  | x :: (y :: _) as l' => (x <? y) && increasing l'
  | _ => true
  end.

Definition wf_versions (vs : list MojomTypeDescriptorStructVersion) : bool :=
  (0 <? Z.of_nat (length vs)) && (Z.of_nat (length vs) <? 2 ^ 32) && increasing (map sv_version vs) &&
  forallb (λ v, sizeof_MojomStructHeader <=? sv_num_bytes v) vs.

(** A field lies inside every version of the struct that has it, and some
    version record introduces it. *)
Definition wf_entry (vs : list MojomTypeDescriptorStructVersion)
    (e : MojomTypeDescriptorStructEntry) : bool :=
  wf_elem (se_elem_type e) (se_elem_descriptor e) &&
  negb (bool_decide (se_elem_type e = POD)) && (0 <=? se_offset e) &&
  existsb (λ v, sv_version v =? se_min_version e) vs &&
  forallb (λ v, (sv_version v <? se_min_version e) ||
    (sizeof_MojomStructHeader + se_offset e + elem_size (se_elem_type e)
       <=? sv_num_bytes v)) vs.

Definition wf_struct (d : MojomTypeDescriptorStruct) : bool :=
  wf_versions (sd_versions d) && forallb (wf_entry (sd_versions d)) (sd_entries d).

(** The 8 data bytes of a union hold a pointer, a handle or an interface. *)
Definition wf_union (d : MojomTypeDescriptorUnion) : bool :=
  forallb (λ e, wf_elem (ue_elem_type e) (ue_elem_descriptor e) &&
    negb (bool_decide (ue_elem_type e = UNION))) (ud_entries d).

Definition wf_array (d : MojomTypeDescriptorArray) : bool :=
  wf_elem (ad_elem_type d) (ad_elem_descriptor d) &&
  (8 * elem_size (ad_elem_type d) <=? ad_elem_num_bits d) &&
  (ad_elem_num_bits d <? 2 ^ 32).

Definition wf_desc (d : MojomTypeDescriptor) : bool :=
  match d with
  | DescStruct d => wf_struct d
  | DescUnion d => wf_union d
  | DescArray d => wf_array d
  end.

Definition wf_descs : bool := forallb wf_desc descs.

(** Fields of a struct do not overlap. *)
Definition disjoint_fields (e1 e2 : MojomTypeDescriptorStructEntry) : bool :=
  (se_offset e1 + elem_size (se_elem_type e1) <=? se_offset e2) ||
  (se_offset e2 + elem_size (se_elem_type e2) <=? se_offset e1).

Fixpoint disjoint_entries (es : list MojomTypeDescriptorStructEntry) : bool :=
  match es with
  | [] => true
  | e :: es' => forallb (disjoint_fields e) es' && disjoint_entries es'
  end.

Definition wf_layout : bool :=
  forallb (λ d, match d with
                | DescStruct d => disjoint_entries (sd_entries d)
                | _ => true
                end) descs.
End wf.

(** ** Consequences of well-formedness *)
Section wf_facts.
Context (descs : desc_table) (Hwf : wf_descs descs = true).

Lemma wf_lookup i d : descs !! i = Some d → wf_desc descs d = true.
Proof.
  intros Hi. unfold wf_descs in Hwf. rewrite forallb_forall in Hwf.
  apply Hwf, list_elem_of_In, list_elem_of_lookup. eauto.
Qed.

Lemma deref_struct_wf p d : deref_struct descs p = Ok d → wf_struct descs d = true.
Proof.
  unfold deref_struct. destruct p as [i|]; simpl; [|done].
  destruct (descs !! i) as [[]|] eqn:E; intros; simplify_eq.
  by apply wf_lookup in E.
Qed.

Lemma deref_union_wf p d : deref_union descs p = Ok d → wf_union descs d = true.
Proof.
  unfold deref_union. destruct p as [i|]; simpl; [|done].
  destruct (descs !! i) as [[]|] eqn:E; intros; simplify_eq.
  by apply wf_lookup in E.
Qed.

Lemma deref_array_wf p d : deref_array descs p = Ok d → wf_array descs d = true.
Proof.
  unfold deref_array. destruct p as [i|]; simpl; [|done].
  destruct (descs !! i) as [[]|] eqn:E; intros; simplify_eq.
  by apply wf_lookup in E.
Qed.
End wf_facts.

(** Fields of a well-laid-out struct are pairwise disjoint, wherever it lies. *)
Lemma deref_struct_layout descs (Hlay : wf_layout descs = true) p d :
  deref_struct descs p = Ok d → disjoint_entries (sd_entries d) = true.
Proof.
  unfold wf_layout in Hlay. rewrite forallb_forall in Hlay.
  unfold deref_struct. destruct p as [i|]; simpl; [|done].
  destruct (descs !! i) as [[]|] eqn:E; intros; simplify_eq.
  apply (Hlay (DescStruct d)), list_elem_of_In, list_elem_of_lookup. eauto.
Qed.

Lemma disjoint_entries_pairs (l : list MojomTypeDescriptorStructEntry) (q : Z)
    (active : MojomTypeDescriptorStructEntry → bool) :
  disjoint_entries l = true →
  ForallOrdPairs (λ a b, disjoint
    (λ x, active a = true ∧ range (q + se_offset a) (q + se_offset a + elem_size (se_elem_type a)) x)
    (λ x, active b = true ∧ range (q + se_offset b) (q + se_offset b + elem_size (se_elem_type b)) x)) l.
Proof.
  induction l as [|a l IH]; cbn; intros Hl; [constructor|].
  apply andb_true_iff in Hl as [Ha Hl]. constructor; [|by apply IH].
  apply Forall_forall. intros b Hb x [_ Hx] [_ Hy].
  rewrite forallb_forall in Ha. specialize (Ha b). unfold disjoint_fields, range in *.
  apply list_elem_of_In in Hb. specialize (Ha Hb). lia.
Qed.

(** ** The rounding macro *)
Lemma round_to_8_spec w num :
  3 <= w → 0 <= num → num + 7 < 2 ^ w →
  MOJOM_INTERNAL_ROUND_TO_8 w num = (num + 7) / 8 * 8.
Proof.
  intros Hw Hn Hlt. unfold MOJOM_INTERNAL_ROUND_TO_8.
  rewrite (Z.mod_small (num + 7)) by lia.
  apply Z.bits_inj'. intros i Hi.
  rewrite Z.land_spec.
  change (_ * 8) with ((num + 7) / 2 ^ 3 * 2 ^ 3).
  rewrite <- Z.shiftr_div_pow2, <- Z.shiftl_mul_pow2 by lia.
  destruct (Z.lt_ge_cases i 3) as [Hi3|Hi3].
  - rewrite Z.shiftl_spec_low by lia.
    rewrite Z.mod_pow2_bits_low by lia. rewrite Z.lnot_spec by lia.
    assert (Z.testbit 7 i = true) as ->.
    { assert (i = 0 ∨ i = 1 ∨ i = 2) as Hc by lia.
      destruct Hc as [Hc | Hc]; [|destruct Hc as [Hc | Hc]]; by subst. }
    by rewrite andb_false_r.
  - rewrite Z.shiftl_spec by lia. rewrite Z.shiftr_spec by lia.
    replace (i - 3 + 3) with i by lia.
    destruct (Z.lt_ge_cases i w) as [Hiw|Hiw].
    + rewrite Z.mod_pow2_bits_low by lia. rewrite Z.lnot_spec by lia.
      rewrite (Z.bits_above_log2 7 i) by (simpl; lia).
      by rewrite andb_true_r.
    + rewrite (Z.bits_above_log2 (num + 7) i); [done|lia|].
      assert (Z.log2 (num + 7) < w) by (apply Z.log2_lt_pow2; lia). lia.
Qed.
