(* ===== verification/Validate.v ===== *)
(** * Validation of encoded mojom objects

    [public/c/lib/bindings]: [validate_pointer], [validate_handle] and
    [MojomType_DispatchValidate] (type_descriptor.c), [MojomStruct_Validate]
    (struct.c), [MojomArray_Validate] (array.c), [MojomUnion_Validate]
    (union.c) and [MojomMap_Validate] (map.c).

    Validation reads one memory and threads the validation context.  The four
    object validators and the dispatcher are mutually recursive in C; here the
    object validators take the dispatcher they call as an argument and the
    dispatcher ties the knot on fuel. *)
From stdpp Require Import base list numbers option gmap.
From S2P Require Import Prelude Memory TypeDescriptor.

(** ** Result codes (validation.h) *)
Definition MOJOM_VALIDATION_ERROR_NONE : Z := 0.
Definition MOJOM_VALIDATION_MISALIGNED_OBJECT : Z := 1.
Definition MOJOM_VALIDATION_ILLEGAL_MEMORY_RANGE : Z := 2.
Definition MOJOM_VALIDATION_UNEXPECTED_STRUCT_HEADER : Z := 3.
Definition MOJOM_VALIDATION_UNEXPECTED_ARRAY_HEADER : Z := 4.
Definition MOJOM_VALIDATION_ILLEGAL_HANDLE : Z := 5.
Definition MOJOM_VALIDATION_UNEXPECTED_INVALID_HANDLE : Z := 6.
Definition MOJOM_VALIDATION_ILLEGAL_POINTER : Z := 7.
Definition MOJOM_VALIDATION_UNEXPECTED_NULL_POINTER : Z := 8.
Definition MOJOM_VALIDATION_MESSAGE_HEADER_INVALID_FLAGS : Z := 9.
Definition MOJOM_VALIDATION_MESSAGE_HEADER_MISSING_REQUEST_ID : Z := 10.
Definition MOJOM_VALIDATION_MESSAGE_HEADER_UNKNOWN_METHOD : Z := 11.
Definition MOJOM_VALIDATION_DIFFERENT_SIZED_ARRAYS_IN_MAP : Z := 12.
Definition MOJOM_VALIDATION_UNEXPECTED_NULL_UNION : Z := 13.

(** [kEncodedHandleInvalid = (MojoHandle)-1] *)
Definition kEncodedHandleInvalid : Z := u32 (-1).

Record MojomValidationContext : Set := mkContext {
  next_handle_index : Z;
  next_pointer : Z;
}.

Definition set_next_pointer (p : Z) : stateR MojomValidationContext unit := λ c,
  Ok (tt, mkContext (next_handle_index c) p).
Definition set_next_handle_index (i : Z) : stateR MojomValidationContext unit := λ c,
  Ok (tt, mkContext i (next_pointer c)).

(** A validation step: threads the context, returns a result code. *)
Abbreviation VM := (stateR MojomValidationContext).

(** [for (x : l) { result = body(x); if (result != NONE) return result; }
     return NONE;] *)
Fixpoint validate_each {A} (l : list A) (body : A → VM Z) : VM Z :=
  match l with
  | [] => mret MOJOM_VALIDATION_ERROR_NONE
  | x :: l' =>
      r ← body x;
      if negb (r =? MOJOM_VALIDATION_ERROR_NONE) then mret r
      else validate_each l' body
  end.

(** Rounds up to nearest byte; [uint64_t] arithmetic. *)
Definition bits_to_bytes (bits : Z) : Z := u64 (bits + 7) / 8.

(** [array_index_by_type]: the address of an array element; the types an
    array cannot hold fail the assertion. *)
Definition array_index_by_type (array : Z) (type : MojomTypeDescriptorType)
    (index : Z) : result Z :=
  match type with
  | STRUCT_PTR | MAP_PTR | ARRAY_PTR =>
      Ok (MOJOM_ARRAY_INDEX array sizeof_MojomPointer index)
  | UNION => Ok (MOJOM_ARRAY_INDEX array sizeof_MojomUnionLayout index)
  | HANDLE => Ok (MOJOM_ARRAY_INDEX array sizeof_MojoHandle index)
  | INTERFACE => Ok (MOJOM_ARRAY_INDEX array sizeof_MojomInterfaceData index)
  | UNION_PTR | POD => Crash AssertFailed
  end.

(** The scan of [is_valid_size_for_version]: from index [i] downwards, the
    first version record not newer than [version]. *)
Fixpoint seek_version (versions : list MojomTypeDescriptorStructVersion)
    (version : Z) (i : nat) : result nat :=
  match i with
  | O => Ok O
  | S i' =>
      match versions !! i with
      | None => Crash BadAccess
      | Some v =>
          if version <? sv_version v then seek_version versions version i' else Ok i
      end
  end.

Section validate.
Context (m : mem) (descs : desc_table).

Definition validate_pointer (pointer max_offset : Z) (is_nullable : bool) : VM Z :=
  offset ← lift (load64 m pointer);
  if (max_offset <? offset) || (UINT32_MAX <? offset) then
    mret MOJOM_VALIDATION_ILLEGAL_POINTER
  else
  ctx ← get_state;
  if negb (offset =? 0) && (pointer + offset <? next_pointer ctx) then
    mret MOJOM_VALIDATION_ILLEGAL_MEMORY_RANGE
  else
  (if negb (offset =? 0) then set_next_pointer (pointer + offset) else mret tt);;
  if negb (Z.land offset 7 =? 0) then
    mret MOJOM_VALIDATION_MISALIGNED_OBJECT
  else if negb is_nullable && (offset =? 0) then
    mret MOJOM_VALIDATION_UNEXPECTED_NULL_POINTER
  else mret MOJOM_VALIDATION_ERROR_NONE.

Definition validate_handle (encoded_handle num_handles : Z) (is_nullable : bool) : VM Z :=
  if negb is_nullable && (encoded_handle =? kEncodedHandleInvalid) then
    mret MOJOM_VALIDATION_UNEXPECTED_INVALID_HANDLE
  else if negb (encoded_handle =? kEncodedHandleInvalid) then
    ctx ← get_state;
    if (num_handles <=? encoded_handle) || (encoded_handle <? next_handle_index ctx) then
      mret MOJOM_VALIDATION_ILLEGAL_HANDLE
    else
      set_next_handle_index (u32 (encoded_handle + 1));;
      mret MOJOM_VALIDATION_ERROR_NONE
  else mret MOJOM_VALIDATION_ERROR_NONE.

Definition is_valid_size_for_version (in_struct : Z)
    (versions : list MojomTypeDescriptorStructVersion) : result bool :=
  version ← struct_version m in_struct;
  i ← seek_version versions version
        (Z.to_nat (u32 (Z.of_nat (length versions) - 1)));
  num_bytes ← struct_num_bytes m in_struct;
  match versions !! i with
  | None => Crash BadAccess
  | Some v =>
      if version =? sv_version v then Ok (num_bytes =? sv_num_bytes v)
      else Ok (sv_num_bytes v <=? num_bytes)
  end.

Definition validate_array_header (in_type_desc : MojomTypeDescriptorArray)
    (in_array in_buf_size : Z) : result Z :=
  if in_buf_size <? sizeof_MojomArrayHeader then
    Ok MOJOM_VALIDATION_ILLEGAL_MEMORY_RANGE
  else
  num_bytes ← array_num_bytes m in_array;
  if num_bytes <? sizeof_MojomArrayHeader then
    Ok MOJOM_VALIDATION_UNEXPECTED_ARRAY_HEADER
  else if in_buf_size <? num_bytes then
    Ok MOJOM_VALIDATION_ILLEGAL_MEMORY_RANGE
  else
  num_elements ← array_num_elements m in_array;
  if negb (ad_num_elements in_type_desc =? 0) &&
     negb (num_elements =? ad_num_elements in_type_desc) then
    Ok MOJOM_VALIDATION_UNEXPECTED_ARRAY_HEADER
  else if num_bytes <?
      u64 (sizeof_MojomArrayHeader +
           bits_to_bytes (u64 (ad_elem_num_bits in_type_desc * num_elements))) then
    Ok MOJOM_VALIDATION_UNEXPECTED_ARRAY_HEADER
  else Ok MOJOM_VALIDATION_ERROR_NONE.

(** [in_type_desc] is only cast in [MojomMap_Validate], never read. *)
Definition MojomMap_Validate (in_type_desc : desc_ptr)
    (in_struct in_buf_size in_num_handles : Z) : VM Z :=
  let keys := in_struct + sizeof_MojomStructHeader in
  let values := in_struct + sizeof_MojomStructHeader + sizeof_MojomPointer in
  keys_offset ← lift (load64 m keys);
  values_offset ← lift (load64 m values);
  keys_num ← lift (array_num_elements m (keys + keys_offset));
  values_num ← lift (array_num_elements m (values + values_offset));
  if negb (keys_num =? values_num) then
    mret MOJOM_VALIDATION_DIFFERENT_SIZED_ARRAYS_IN_MAP
  else mret MOJOM_VALIDATION_ERROR_NONE.

Section objects.
(** [MojomType_DispatchValidate] as the object validators call it. *)
Context (dispatch : MojomTypeDescriptorType → desc_ptr → bool → Z → Z → Z → VM Z).

Definition MojomStruct_Validate (in_type_desc : desc_ptr)
    (in_struct in_struct_size in_num_handles : Z) : VM Z :=
  c_assert (desc_nonnull in_type_desc);;
  c_assert (negb (in_struct =? 0));;
  if in_struct_size <? sizeof_MojomStructHeader then
    mret MOJOM_VALIDATION_ILLEGAL_MEMORY_RANGE
  else
  num_bytes ← lift (struct_num_bytes m in_struct);
  if in_struct_size <? num_bytes then
    mret MOJOM_VALIDATION_ILLEGAL_MEMORY_RANGE
  else
  desc ← lift (deref_struct descs in_type_desc);
  valid_size ← lift (is_valid_size_for_version in_struct (sd_versions desc));
  if negb valid_size then
    mret MOJOM_VALIDATION_UNEXPECTED_STRUCT_HEADER
  else if negb (Z.land num_bytes 7 =? 0) then
    mret MOJOM_VALIDATION_MISALIGNED_OBJECT
  else
  set_next_pointer (in_struct + num_bytes);;
  validate_each (sd_entries desc) (λ entry,
    version ← lift (struct_version m in_struct);
    if version <? se_min_version entry then mret MOJOM_VALIDATION_ERROR_NONE
    else
    let elem_data := in_struct + sizeof_MojomStructHeader + se_offset entry in
    dispatch (se_elem_type entry) (se_elem_descriptor entry) (se_nullable entry)
      elem_data (u32 (in_struct_size - (elem_data - in_struct))) in_num_handles).

Definition MojomArray_Validate (in_type_desc : desc_ptr)
    (in_array in_array_size in_num_handles : Z) : VM Z :=
  c_assert (desc_nonnull in_type_desc);;
  c_assert (negb (in_array =? 0));;
  desc ← lift (deref_array descs in_type_desc);
  result ← lift (validate_array_header desc in_array in_array_size);
  if negb (result =? MOJOM_VALIDATION_ERROR_NONE) then mret result
  else
  num_bytes ← lift (array_num_bytes m in_array);
  set_next_pointer (in_array + num_bytes);;
  if bool_decide (ad_elem_type desc = POD) then mret MOJOM_VALIDATION_ERROR_NONE
  else
  num_elements ← lift (array_num_elements m in_array);
  validate_each (seqZ 0 num_elements) (λ i,
    elem_data ← lift (array_index_by_type in_array (ad_elem_type desc) i);
    dispatch (ad_elem_type desc) (ad_elem_descriptor desc) (ad_nullable desc)
      elem_data (u32 (in_array_size - u32 (elem_data - in_array))) in_num_handles).

(** The first entry with the union's tag decides; POD entries and unknown
    tags are accepted. *)
Definition MojomUnion_Validate (in_type_desc : desc_ptr) (in_nullable : bool)
    (in_union in_union_size in_num_handles : Z) : VM Z :=
  desc ← lift (deref_union descs in_type_desc);
  entry ← lift (select_union_entry (union_tag m in_union) (ud_entries desc));
  match entry with
  | None => mret MOJOM_VALIDATION_ERROR_NONE
  | Some entry =>
      if bool_decide (ue_elem_type entry = POD) then mret MOJOM_VALIDATION_ERROR_NONE
      else
      size ← lift (union_size m in_union);
      if negb in_nullable && negb (size =? sizeof_MojomUnionLayout) then
        mret MOJOM_VALIDATION_UNEXPECTED_NULL_UNION
      else
      dispatch (ue_elem_type entry) (ue_elem_descriptor entry) (ue_nullable entry)
        (union_data in_union)
        (u32 (in_union_size - (union_data in_union - in_union))) in_num_handles
  end.
End objects.

(** The recursion bound is the only part of the dispatcher that is not in
    the source; [Validate_safe] shows how much is enough. *)
Fixpoint MojomType_DispatchValidate (fuel : nat)
    (in_elem_type : MojomTypeDescriptorType) (in_type_desc : desc_ptr)
    (in_nullable : bool) (in_buf in_buf_size in_num_handles : Z) : VM Z :=
  match fuel with
  | O => crash OutOfFuel
  | S fuel' =>
    let dispatch := MojomType_DispatchValidate fuel' in
    let validate_union (union : Z) :=
      size ← lift (union_size m union);
      if size =? 0 then
        mret (if in_nullable then MOJOM_VALIDATION_ERROR_NONE
              else MOJOM_VALIDATION_UNEXPECTED_NULL_UNION)
      else
      MojomUnion_Validate dispatch in_type_desc in_nullable union
        (u32 (in_buf_size - (union - in_buf))) in_num_handles in
    c_assert (negb (in_buf =? 0));;
    match in_elem_type with
    | MAP_PTR | STRUCT_PTR =>
        result ← validate_pointer in_buf in_buf_size in_nullable;
        offset ← lift (load64 m in_buf);
        if negb (result =? MOJOM_VALIDATION_ERROR_NONE) || (offset =? 0) then mret result
        else
        result ← MojomStruct_Validate dispatch in_type_desc (in_buf + offset)
                   (u32 (in_buf_size - offset)) in_num_handles;
        if (result =? MOJOM_VALIDATION_ERROR_NONE) &&
           bool_decide (in_elem_type = MAP_PTR) then
          MojomMap_Validate in_type_desc (in_buf + offset)
            (u32 (in_buf_size - offset)) in_num_handles
        else mret result
    | ARRAY_PTR =>
        result ← validate_pointer in_buf in_buf_size in_nullable;
        offset ← lift (load64 m in_buf);
        if negb (result =? MOJOM_VALIDATION_ERROR_NONE) || (offset =? 0) then mret result
        else
        MojomArray_Validate dispatch in_type_desc (in_buf + offset)
          (u32 (in_buf_size - offset)) in_num_handles
    | UNION_PTR =>
        result ← validate_pointer in_buf in_buf_size in_nullable;
        offset ← lift (load64 m in_buf);
        if negb (result =? MOJOM_VALIDATION_ERROR_NONE) || (offset =? 0) then mret result
        else
        ctx ← get_state;
        set_next_pointer (next_pointer ctx + sizeof_MojomUnionLayout);;
        validate_union (in_buf + offset)
    | UNION => validate_union in_buf
    | HANDLE =>
        handle ← lift (load32 m in_buf);
        validate_handle handle in_num_handles in_nullable
    | INTERFACE =>
        handle ← lift (load32 m (interface_handle in_buf));
        validate_handle handle in_num_handles in_nullable
    | POD => mret MOJOM_VALIDATION_ERROR_NONE
    end
  end.
End validate.
