(* ===== verification/Sample.v ===== *)
(** * A sample message

    Descriptors as a generator would emit them for

      struct Node { Node? next; handle h; array<handle?> hs; U u; map<string, ...> m; }
      union U { int32 i; string? s; handle h; }

    and one encoded message of two nodes with six handles, on which the
    theorems are instantiated. *)
From stdpp Require Import base list numbers option gmap.
From S2P Require Import Prelude Memory TypeDescriptor Validate.

(** Memory holding the 32-bit words [ws] from address [a] on. *)
Fixpoint words (a : Z) (ws : list Z) : mem :=
  match ws with
  | [] => ∅
  | w :: ws' =>
      <[a := Z_to_byte w]> (<[a + 1 := Z_to_byte (w / 256)]>
        (<[a + 2 := Z_to_byte (w / 65536)]> (<[a + 3 := Z_to_byte (w / 16777216)]>
          (words (a + 4) ws'))))
  end.

(** [mapped], decided by looking at every address. *)
Definition mapped_check (m : mem) (lo hi : Z) : bool :=
  forallb (λ x, bool_decide (is_Some (m !! x))) (seqZ lo (hi - lo)).

Lemma mapped_check_sound m lo hi : mapped_check m lo hi = true → mapped m lo hi.
Proof.
  unfold mapped_check. rewrite forallb_forall. intros Hc x Hx.
  apply (bool_decide_eq_true (is_Some (m !! x))), Hc, list_elem_of_In, elem_of_seqZ.
  unfold range in Hx. lia.
Qed.

Definition sample_node : MojomTypeDescriptorStruct := {|
  sd_versions := [mkStructVersion 0 56];
  sd_entries := [
    mkStructEntry STRUCT_PTR (Some 0%nat) 0 0 true;
    mkStructEntry HANDLE None 8 0 false;
    mkStructEntry ARRAY_PTR (Some 1%nat) 16 0 false;
    mkStructEntry UNION (Some 2%nat) 24 0 false;
    mkStructEntry MAP_PTR (Some 3%nat) 40 0 false];
|}.

Definition sample_handles_array : MojomTypeDescriptorArray :=
  mkArrayDesc HANDLE None 0 32 true.

Definition sample_union : MojomTypeDescriptorUnion := {|
  ud_num_fields := 3;
  ud_entries := [
    mkUnionEntry ARRAY_PTR (Some 4%nat) 1 true;
    mkUnionEntry HANDLE None 2 false];
|}.

Definition sample_map : MojomTypeDescriptorStruct := {|
  sd_versions := [mkStructVersion 0 24];
  sd_entries := [
    mkStructEntry ARRAY_PTR (Some 4%nat) 0 0 false;
    mkStructEntry ARRAY_PTR (Some 1%nat) 8 0 false];
|}.

Definition sample_descs : desc_table := [
  DescStruct sample_node; DescArray sample_handles_array; DescUnion sample_union;
  DescStruct sample_map; DescArray g_mojom_string_type_description].

Definition sample_base : Z := 4096.
Definition sample_size : Z := 240.

Definition sample_words : list Z := [
  (* +0: the root node *)
  56; 0;  48; 0;  3; 0;  160; 0;  16; 2; 5; 0;  152; 0;
  (* +56: the next node *)
  56; 0;  0; 0;  0; 0;  32; 0;  16; 1; 0; 0;  24; 0;
  (* +112: its array of handles, one invalid handle *)
  12; 1;  4294967295; 0;
  (* +128: its map, keys at +152, values at +168 *)
  24; 0;  16; 0;  24; 0;
  10; 2;  16705; 0;
  16; 2;  1; 2;
  (* +184: the root's array of handles *)
  12; 1;  4; 0;
  (* +200: the root's map, empty *)
  24; 0;  16; 0;  16; 0;
  8; 0;
  8; 0].

Definition sample_mem : mem := words sample_base sample_words.
Definition sample_handles : list Z := [101; 102; 103; 104; 105; 106].

(** Enough fuel for the sample: a quarter of its size. *)
Definition sample_fuel : nat := 60.

Definition sample_validate : result (Z * MojomValidationContext) :=
  MojomStruct_Validate sample_mem sample_descs
    (MojomType_DispatchValidate sample_mem sample_descs sample_fuel)
    (Some 0%nat) sample_base sample_size (Z.of_nat (length sample_handles))
    (mkContext 0 sample_base).

Lemma sample_descs_wf : wf_descs sample_descs = true.
Proof. by vm_compute. Qed.
Lemma sample_descs_layout : wf_layout sample_descs = true.
Proof. by vm_compute. Qed.
Lemma sample_mapped : mapped sample_mem sample_base (sample_base + sample_size).
Proof. apply mapped_check_sound. by vm_compute. Qed.
Lemma sample_validates :
  sample_validate = Ok (MOJOM_VALIDATION_ERROR_NONE, mkContext 6 (sample_base + 240)).
Proof. by vm_compute. Qed.
