(* ===== verification/ValidateSafe.v ===== *)
(** * Validation is memory safe and terminates *)
From stdpp Require Import base list numbers option gmap.
From Stdlib Require Import ZifyBool.
From S2P Require Import Prelude Memory TypeDescriptor Validate Sample.

(** ** Facts about the pieces, for any memory *)

Lemma seek_version_spec vs version i j :
  seek_version vs version i = Ok j →
  (j ≤ i)%nat ∧
  (∀ k v, (j < k ≤ i)%nat → vs !! k = Some v → version < sv_version v) ∧
  (j = O ∨ ∃ v, vs !! j = Some v ∧ sv_version v <= version).
Proof.
  revert j. induction i as [|i IH]; intros j; cbn [seek_version].
  { intros [= <-]. split_and!; [lia| |by left]. intros. lia. }
  destruct (vs !! S i) as [v|] eqn:Ev; [|done].
  destruct (version <? sv_version v) eqn:Hlt.
  - intros (Hj & Hnew & Hold)%IH. split_and!; [lia| |done].
    intros k v' Hk Hv'. destruct (decide (k = S i)) as [->|]; [|eapply Hnew; eauto; lia].
    simplify_eq. lia.
  - intros [= <-]. split_and!; [lia| |].
    + intros. lia.
    + right. exists v. split; [done|lia].
Qed.

Lemma seek_version_total vs version i :
  (i < length vs)%nat → ∃ j, seek_version vs version i = Ok j.
Proof.
  induction i as [|i IH]; intros Hi; cbn [seek_version]; [eauto|].
  destruct (lookup_lt_is_Some_2 vs (S i) Hi) as [v ->].
  case_match; [apply IH; lia|eauto].
Qed.

Lemma increasing_lt l i j x y :
  increasing l = true → (i < j)%nat → l !! i = Some x → l !! j = Some y → x < y.
Proof.
  revert i j x. induction l as [|z [|z' l] IH]; intros i j x Hinc Hij Hi Hj; [done| |].
  { destruct i, j; simplify_eq/=; lia. }
  cbn [increasing] in Hinc. apply andb_true_iff in Hinc as [Hz Hinc].
  destruct j as [|j]; [lia|]. destruct i as [|i].
  - simplify_eq/=. destruct j as [|j]; simplify_eq/=; [lia|].
    assert (z' < y); [|lia]. eapply (IH 0%nat (S j)); eauto. lia.
  - eapply (IH i j); eauto. lia.
Qed.

(** The version record a struct header is measured against. *)
Lemma wf_entry_fits descs vs e version i v :
  wf_versions vs = true → wf_entry descs vs e = true →
  seek_version vs version (Z.to_nat (u32 (Z.of_nat (length vs) - 1))) = Ok i →
  vs !! i = Some v → se_min_version e <= version →
  sizeof_MojomStructHeader + se_offset e + elem_size (se_elem_type e) <= sv_num_bytes v.
Proof.
  intros Hvs He Hi Hv Hmin.
  apply seek_version_spec in Hi as (_ & Hnew & _).
  unfold wf_versions in Hvs. unfold wf_entry in He.
  rewrite !andb_true_iff in Hvs, He.
  destruct Hvs as [[[Hne Hlen] Hinc] _]. destruct He as [[_ Hex] Hall].
  apply existsb_exists in Hex as (v0 & Hin & Hv0%Z.eqb_eq).
  apply list_elem_of_In, list_elem_of_lookup in Hin as [k Hk].
  assert (k ≤ i)%nat as Hki.
  { destruct (decide (k ≤ i)%nat) as [|Hgt]; [done|]. exfalso.
    pose proof (lookup_lt_Some _ _ _ Hk).
    rewrite u32_small in Hnew by lia.
    specialize (Hnew k v0 ltac:(lia) Hk). lia. }
  assert (sv_version v0 <= sv_version v) as Hle.
  { destruct (decide (k = i)) as [->|]; [simplify_eq; lia|].
    apply Z.lt_le_incl. eapply (increasing_lt _ k i); [done|lia| |];
      rewrite list_lookup_fmap, ?Hk, ?Hv; done. }
  rewrite forallb_forall in Hall. specialize (Hall v).
  rewrite orb_true_iff in Hall. destruct Hall as [Hc|Hc].
  - apply list_elem_of_In, list_elem_of_lookup. eauto.
  - lia.
  - lia.
Qed.

Lemma select_union_entry_spec t l :
  returns (select_union_entry (Ok t) l) (λ o,
    match o with
    | Some e => e ∈ l ∧ ue_tag e = t
    | None => ∀ e, e ∈ l → ue_tag e ≠ t
    end).
Proof.
  induction l as [|e l IH]; cbn [select_union_entry]; run.
  - intros e He. by apply elem_of_nil in He.
  - eapply returns_mono; [apply IH|]. intros [e'|].
    + intros [? ?]. split; [by right|done].
    + intros Hl e' [->|He']%elem_of_cons; [lia|auto].
  - split; [by left|lia].
Qed.

(** The size check on an array header, with its wrap-around, is the real one:
    no descriptor and no element count make the product overflow. *)
Lemma array_elements_fit descs d n nb :
  wf_array descs d = true → 0 <= n < 2 ^ 32 →
  u64 (sizeof_MojomArrayHeader + bits_to_bytes (u64 (ad_elem_num_bits d * n))) <= nb →
  8 + elem_size (ad_elem_type d) * n <= nb.
Proof.
  intros Hd Hn Hnb. unfold wf_array in Hd. unfold bits_to_bytes, sizeof_MojomArrayHeader in *.
  pose proof (elem_size_nonneg (ad_elem_type d)).
  set (w := ad_elem_num_bits d) in *.
  assert (0 <= w < 2 ^ 32) by lia.
  assert (0 <= w * n <= (2 ^ 32 - 1) * (2 ^ 32 - 1)) by nia.
  rewrite (u64_small (w * n)) in * by lia.
  rewrite (u64_small (w * n + 7)) in * by lia.
  rewrite u64_small in * by (split; [|]; try apply Z.add_nonneg_nonneg; try lia;
    try (apply Z.div_pos; lia); pose proof (Z.div_le_upper_bound (w * n + 7) 8 (2 ^ 62)); lia).
  assert (elem_size (ad_elem_type d) * n <= (w * n + 7) / 8); [|lia].
  apply Z.div_le_lower_bound; [lia|]. nia.
Qed.

(** ** Safety of one buffer

    The buffer is [[base, endp)], mapped, away from [NULL], shorter than 4 GiB;
    the descriptors are those of a generator. *)
Section safety.
Context (m : mem) (descs : desc_table) (Hwf : wf_descs descs = true).
Context (base endp : Z).
Context (Hmap : mapped m base endp) (Hbase : 0 < base) (Hend : endp - base < 2 ^ 32).

Lemma load_ok n p :
  base <= p → p + Z.of_nat n <= endp →
  returns (load_le n m p) (λ v, load_le n m p = Ok v ∧ 0 <= v < 256 ^ Z.of_nat n).
Proof.
  intros H1 H2. destruct (load_le_mapped n m p) as [v Hv].
  { eapply mapped_sub; eauto. }
  rewrite Hv. split; [done|]. by eapply load_le_range.
Qed.

Lemma load32_ok p :
  base <= p → p + 4 <= endp →
  returns (load32 m p) (λ v, load32 m p = Ok v ∧ 0 <= v < 2 ^ 32).
Proof. apply (load_ok 4). Qed.

Lemma load64_ok p :
  base <= p → p + 8 <= endp →
  returns (load64 m p) (λ v, load64 m p = Ok v ∧ 0 <= v < 2 ^ 64).
Proof. apply (load_ok 8). Qed.

(** How a step may move the context: forward, inside the buffer. *)
Definition ctx_step (c c' : MojomValidationContext) : Prop :=
  next_pointer c <= next_pointer c' <= endp.

(** An accepted pointer slot leads to at least 8 bytes of the buffer. *)
Definition slot_ok (t : MojomTypeDescriptorType) (p : Z) : Prop :=
  MojomType_IsPointer t = true →
  ∃ off, load64 m p = Ok off ∧ 0 <= off ∧ p + off + 8 <= endp.

Lemma validate_pointer_safe p nullable c :
  base <= p → p + 8 <= endp → next_pointer c <= endp →
  returns (validate_pointer m p (endp - p) nullable c) (λ '(r, c'),
    ∃ off, load64 m p = Ok off ∧ 0 <= off ∧ ctx_step c c' ∧
      (r = MOJOM_VALIDATION_ERROR_NONE →
        off <= endp - p ∧
        if off =? 0 then c' = c ∧ nullable = true
        else next_pointer c <= p + off ∧
          c' = mkContext (next_handle_index c) (p + off))).
Proof.
  intros Hp Hpe Hc. unfold validate_pointer. run.
  eapply returns_mono; [by apply load64_ok|]. intros off [Hoff Hr]. run.
  all: try (exists off; unfold ctx_step; split_and!; [done|lia|lia|lia|done]).
  all: cbn; run; exists off; unfold ctx_step; cbn;
    (split_and!; [done|lia|lia|lia|try done]).
  all: intros _; split; [lia|].
  all: destruct (Z.eqb_spec off 0); cbn in *; try done.
  all: split; [first [lia|done]|try done].
  all: destruct nullable; cbn in *; [done|lia].
Qed.

Lemma validate_handle_safe h nh nullable c :
  returns (validate_handle h nh nullable c)
    (λ '(r, c'), next_pointer c' = next_pointer c).
Proof. unfold validate_handle. run; done. Qed.

Lemma is_valid_size_safe p vs :
  wf_versions vs = true → base <= p → p + 8 <= endp →
  returns (is_valid_size_for_version m p vs) (λ b, b = true →
    ∃ version nb i v, struct_version m p = Ok version ∧ struct_num_bytes m p = Ok nb ∧
      seek_version vs version (Z.to_nat (u32 (Z.of_nat (length vs) - 1))) = Ok i ∧
      vs !! i = Some v ∧ sv_num_bytes v <= nb).
Proof.
  intros Hvs Hp Hpe. unfold is_valid_size_for_version. run.
  eapply returns_mono; [apply load32_ok; lia|]. intros version [Hver _]. run.
  unfold wf_versions in Hvs.
  destruct (seek_version_total vs version
    (Z.to_nat (u32 (Z.of_nat (length vs) - 1)))) as [i Hi].
  { rewrite u32_small by lia. lia. }
  rewrite Hi. cbn [returns]. run.
  eapply returns_mono; [apply load32_ok; lia|]. intros nb [Hnb _].
  destruct (lookup_lt_is_Some_2 vs i) as [v Hv].
  { apply seek_version_spec in Hi as [Hi _]. rewrite u32_small in Hi by lia. lia. }
  rewrite Hv. run; intros Hb; exists version, nb, i, v; split_and!; try done; lia.
Qed.

Lemma validate_array_header_safe d p :
  wf_array descs d = true → base <= p →
  returns (validate_array_header m d p (endp - p)) (λ r,
    r = MOJOM_VALIDATION_ERROR_NONE →
    ∃ nb n, array_num_bytes m p = Ok nb ∧ array_num_elements m p = Ok n ∧
      8 <= nb ∧ p + nb <= endp ∧ 0 <= n < 2 ^ 32 ∧
      8 + elem_size (ad_elem_type d) * n <= nb).
Proof.
  intros Hd Hp. unfold validate_array_header, sizeof_MojomArrayHeader. run; try done.
  eapply returns_mono; [apply load32_ok; lia|]. intros nb [Hnb Hnbr]. run; try done.
  eapply returns_mono; [apply load32_ok; lia|]. intros n [Hn Hnr]. run; try done.
  intros _. exists nb, n. split_and!; try done; try lia.
  apply (array_elements_fit descs); [done|lia|unfold sizeof_MojomArrayHeader; lia].
Qed.

(** *** The interface between the dispatcher and the object validators

    An inline union costs the dispatcher one more level than a pointer. *)
Definition slack (t : MojomTypeDescriptorType) : Z :=
  match t with UNION => 8 | _ => 4 end.

Abbreviation dispatcher :=
  (MojomTypeDescriptorType → desc_ptr → bool → Z → Z → Z → VM Z).

(** What the object validators need of the dispatcher they call: on a slot
    inside the buffer it returns, moves the context forward inside the
    buffer, and accepts only pointers that lead into the buffer. *)
Class SafeDispatch (n : Z) (dispatch : dispatcher) : Prop :=
  safe_dispatch : ∀ t d nullable p nh c,
    wf_elem descs t d = true → base <= p → p + elem_size t <= endp →
    next_pointer c <= endp → endp - next_pointer c + slack t <= 4 * n →
    returns (dispatch t d nullable p (endp - p) nh c) (λ '(r, c'),
      ctx_step c c' ∧ (r = MOJOM_VALIDATION_ERROR_NONE → slot_ok t p)).

Lemma validate_each_safe {A} (P : A → Prop) (l : list A) (body : A → VM Z) c :
  (∀ x c1, x ∈ l → ctx_step c c1 →
    returns (body x c1) (λ '(r, c2), ctx_step c1 c2 ∧
      (r = MOJOM_VALIDATION_ERROR_NONE → P x))) →
  next_pointer c <= endp →
  returns (validate_each l body c) (λ '(r, c'), ctx_step c c' ∧
    (r = MOJOM_VALIDATION_ERROR_NONE → ∀ x, x ∈ l → P x)).
Proof.
  intros Hbody Hc.
  assert (∀ c1, ctx_step c c1 → (∀ x, x ∈ l → ∀ c1, ctx_step c c1 →
    returns (body x c1) (λ '(r, c2), ctx_step c1 c2 ∧
      (r = MOJOM_VALIDATION_ERROR_NONE → P x))) →
    returns (validate_each l body c1) (λ '(r, c'), ctx_step c c' ∧
      (r = MOJOM_VALIDATION_ERROR_NONE → ∀ x, x ∈ l → P x))) as Hgen.
  { clear Hbody. induction l as [|x l IH]; intros c1 Hc1 Hbody; cbn [validate_each].
    - split; [done|]. intros _ x Hx. by apply elem_of_nil in Hx.
    - run. eapply returns_mono; [by apply Hbody; [left|]|].
      intros [r c2] [Hc2 Hr].
      assert (ctx_step c c2) by (unfold ctx_step in *; lia). run.
      + split; [done|]. intros ->. done.
      + eapply returns_mono; [apply IH; [done|]|].
        { intros y Hy. apply Hbody. by right. }
        intros [r' c3] [Hc3 Hr']. split; [done|]. intros ->.
        intros y [->|Hy]%elem_of_cons; [apply Hr; lia|auto]. }
  apply Hgen; [unfold ctx_step; lia|]. intros x Hx c1 Hc1. auto.
Qed.

(** The context after an object at [p]: untouched, or past its header. *)
Definition past (p : Z) (c c' : MojomValidationContext) : Prop :=
  next_pointer c' <= endp ∧ (next_pointer c' = next_pointer c ∨ p + 8 <= next_pointer c').

Lemma MojomStruct_Validate_safe n dispatch `{!SafeDispatch n dispatch} dp d p nh c :
  deref_struct descs dp = Ok d → base <= p <= endp → next_pointer c <= endp →
  endp - p <= 4 * n →
  returns (MojomStruct_Validate m descs dispatch dp p (endp - p) nh c) (λ '(r, c'),
    past p c c' ∧ (r = MOJOM_VALIDATION_ERROR_NONE →
      p + 8 <= next_pointer c' ∧
      ∀ e, e ∈ sd_entries d → se_min_version e = 0 →
        slot_ok (se_elem_type e) (p + 8 + se_offset e))).
Proof.
  intros Hd Hp Hc Hn. unfold MojomStruct_Validate, sizeof_MojomStructHeader.
  pose proof (deref_struct_wf descs Hwf _ _ Hd) as Hds.
  unfold wf_struct in Hds. apply andb_true_iff in Hds as [Hvs Hes].
  rewrite forallb_forall in Hes. unfold past.
  assert (desc_nonnull dp = true) as -> by (by destruct dp).
  assert (negb (p =? 0) = true) as -> by lia. run; [split; [lia|done]|].
  eapply returns_mono; [apply load32_ok; lia|]. intros nb [Hnb Hnbr].
  run; [split; [lia|done]|].
  run. eapply returns_mono; [apply is_valid_size_safe; [done|lia|lia]|].
  intros b Hb. run; try (split; [lia|done]).
  destruct b; [|done]. destruct (Hb eq_refl) as (ver & nb' & i & v & Hver & Hnb' & Hi & Hv & Hle).
  assert (nb' = nb) as -> by (unfold struct_num_bytes in *; congruence).
  assert (8 <= sv_num_bytes v) as Hv8.
  { unfold wf_versions in Hvs. rewrite !andb_true_iff, forallb_forall in Hvs.
    destruct Hvs as [_ Hvs]. specialize (Hvs v).
    rewrite <- Z.leb_le. apply Hvs, list_elem_of_In, list_elem_of_lookup; eauto. }
  cbn [set_next_pointer returns].
  eapply returns_mono; [apply (validate_each_safe (λ e, se_min_version e = 0 →
    slot_ok (se_elem_type e) (p + 8 + se_offset e)))|].
  - intros e c1 He Hc1. cbn [next_pointer] in *. run.
    { split; [unfold ctx_step in *; lia|]. intros _ Hmin.
      apply load_le_range in Hver. lia. }
    assert (wf_entry descs (sd_versions d) e = true) as Hwe.
    { by apply Hes, list_elem_of_In. }
    pose proof (wf_entry_fits _ _ _ _ _ _ Hvs Hwe Hi Hv ltac:(lia)) as Hfit.
    unfold wf_entry in Hwe. rewrite !andb_true_iff in Hwe.
    destruct Hwe as [[[[Hwe _] Hoff] _] _].
    unfold sizeof_MojomStructHeader in *.
    assert (0 <= elem_size (se_elem_type e)) by (by destruct (se_elem_type e)).
    rewrite u32_small by lia.
    replace (endp - p - (p + 8 + se_offset e - p)) with (endp - (p + 8 + se_offset e)) by lia.
    eapply returns_mono; [apply safe_dispatch; try done; try lia|].
    + unfold ctx_step in *. lia.
    + unfold ctx_step in *. cbn [next_pointer] in *. assert (slack (se_elem_type e) <= 8) by
        (by destruct (se_elem_type e)). lia.
    + intros [r c2] [Hc2 Hr]. split; [done|]. intros Hr0 _. auto.
  - cbn. lia.
  - intros [r c'] [Hc' Hr]. unfold ctx_step in Hc'. cbn [next_pointer] in Hc'.
    split; [lia|]. intros Hr0. split; [lia|]. auto.
Qed.

Lemma array_index_safe p t i :
  t ≠ UNION_PTR → t ≠ POD → array_index_by_type p t i = Ok (p + 8 + elem_size t * i).
Proof. intros ??. by destruct t. Qed.

Lemma MojomArray_Validate_safe n dispatch `{!SafeDispatch n dispatch} dp d p nh c :
  deref_array descs dp = Ok d → base <= p <= endp → next_pointer c <= endp →
  endp - p <= 4 * n →
  returns (MojomArray_Validate m descs dispatch dp p (endp - p) nh c) (λ '(r, c'),
    past p c c' ∧ (r = MOJOM_VALIDATION_ERROR_NONE → p + 8 <= next_pointer c')).
Proof.
  intros Hd Hp Hc Hn. unfold MojomArray_Validate, past.
  pose proof (deref_array_wf descs Hwf _ _ Hd) as Hda.
  assert (desc_nonnull dp = true) as -> by (by destruct dp).
  assert (negb (p =? 0) = true) as -> by lia. run.
  eapply returns_mono; [apply validate_array_header_safe; [done|lia]|].
  intros r Hr. run; [split; [lia|intros ->; done]|].
  destruct Hr as (nb & k & Hnb & Hk & Hnb8 & Hnbe & Hkr & Hfit); [lia|]. run.
  cbn [set_next_pointer returns]. run; [cbn; lia|].
  eapply returns_mono; [apply (validate_each_safe (λ _, True))|].
  - intros i c1 Hi%elem_of_seqZ Hc1.
    match goal with H : bool_decide (_ = POD) = false |- _ =>
      apply bool_decide_eq_false in H as Hpod end.
    unfold wf_array in Hda. rewrite !andb_true_iff in Hda. destruct Hda as [[Hwe _] _].
    assert (ad_elem_type d ≠ UNION_PTR) as Hup by (intros E; by rewrite E in Hwe).
    assert (0 <= elem_size (ad_elem_type d)) by (by destruct (ad_elem_type d)).
    run. rewrite array_index_safe by done.
    cbn [returns]. cbn [next_pointer] in *.
    rewrite (u32_small (_ - p)) by nia. rewrite u32_small by nia.
    replace (endp - p - (p + 8 + elem_size (ad_elem_type d) * i - p)) with
      (endp - (p + 8 + elem_size (ad_elem_type d) * i)) by lia.
    unfold ctx_step in *. cbn [next_pointer] in *.
    eapply returns_mono; [apply safe_dispatch; try done; try nia|].
    + assert (slack (ad_elem_type d) <= 8) by (by destruct (ad_elem_type d)). lia.
    + intros [r' c2] [Hc2 _]. done.
  - cbn. lia.
  - intros [r' c'] [Hc' _]. unfold ctx_step in Hc'. cbn [next_pointer] in Hc'. lia.
Qed.

Lemma MojomUnion_Validate_safe n dispatch `{!SafeDispatch n dispatch} dp d nullable p nh c :
  deref_union descs dp = Ok d → base <= p → p + 16 <= endp →
  next_pointer c <= endp → endp - next_pointer c + 4 <= 4 * n →
  returns (MojomUnion_Validate m descs dispatch dp nullable p (endp - p) nh c)
    (λ '(r, c'), ctx_step c c').
Proof.
  intros Hd Hp Hpe Hc Hn. unfold MojomUnion_Validate, ctx_step.
  pose proof (deref_union_wf descs Hwf _ _ Hd) as Hdu.
  unfold wf_union in Hdu. rewrite forallb_forall in Hdu. run.
  destruct (returns_Ok_inv _ _ (load32_ok (p + 4) ltac:(lia) ltac:(lia))) as (t & Ht & _).
  unfold union_tag. rewrite Ht.
  eapply returns_mono; [apply select_union_entry_spec|].
  intros [e|] He; run; try (cbn; lia).
  destruct He as [He Htag]. apply list_elem_of_In, Hdu in He.
  rewrite andb_true_iff in He. destruct He as [Hwe Hnu].
  eapply returns_mono; [apply load32_ok; lia|]. intros size _. run; [lia|].
  unfold union_data in *.
  apply negb_true_iff, bool_decide_eq_false in Hnu.
  assert (elem_size (ue_elem_type e) <= 8 ∧ slack (ue_elem_type e) = 4)
    by (unfold elem_size, slack; destruct (ue_elem_type e); split; first [done|lia]).
  rewrite u32_small by lia.
  replace (endp - p - (p + 8 - p)) with (endp - (p + 8)) by lia.
  eapply returns_mono; [apply safe_dispatch; try done; lia|].
  intros [r c'] [Hc' _]. done.
Qed.

(** A map struct that validated has readable key and value headers. *)
Lemma MojomMap_Validate_safe dp d p size nh c :
  map_shape d = true → base <= p →
  (∀ e, e ∈ sd_entries d → se_min_version e = 0 →
     slot_ok (se_elem_type e) (p + 8 + se_offset e)) →
  returns (MojomMap_Validate m dp p size nh c) (λ '(r, c'), c' = c).
Proof.
  intros Hd Hp Hslots. unfold MojomMap_Validate.
  unfold sizeof_MojomStructHeader, sizeof_MojomPointer.
  unfold map_shape in Hd. destruct (sd_entries d) as [|k [|v []]]; try done.
  rewrite !andb_true_iff, !bool_decide_eq_true in Hd.
  destruct Hd as (((((((Hkt & Hko) & Hkv) & _) & Hvt) & Hvo) & Hvv) & _).
  assert (Hk : slot_ok ARRAY_PTR (p + 8)).
  { rewrite <- Hkt. replace (p + 8) with (p + 8 + se_offset k) by lia.
    apply Hslots; [by left|lia]. }
  assert (Hv : slot_ok ARRAY_PTR (p + 16)).
  { rewrite <- Hvt. replace (p + 16) with (p + 8 + se_offset v) by lia.
    apply Hslots; [right; by left|lia]. }
  destruct Hk as (ko & Hko' & ? & ?); [done|]. destruct Hv as (vo & Hvo' & ? & ?); [done|].
  replace (p + 8 + 8) with (p + 16) by lia. run.
  eapply returns_mono; [apply load32_ok; lia|]. intros kn _. run.
  eapply returns_mono; [apply load32_ok; lia|]. intros vn _. run; done.
Qed.

(** *** The dispatcher discharges the interface *)

(** The checks on a pointer slot, and what follows for the object behind it. *)
Lemma slot_safe t p nullable c (k : Z → VM Z) :
  base <= p → p + 8 <= endp → next_pointer c <= endp → MojomType_IsPointer t = true →
  (∀ off c1, load64 m p = Ok off → off ≠ 0 → base <= p + off <= endp →
     next_pointer c <= next_pointer c1 → next_pointer c1 = p + off →
     returns (k off c1) (λ '(r, c'),
       past (p + off) c1 c' ∧
       (r = MOJOM_VALIDATION_ERROR_NONE → p + off + 8 <= endp))) →
  returns ((result ← validate_pointer m p (endp - p) nullable;
            offset ← lift (load64 m p);
            if negb (result =? MOJOM_VALIDATION_ERROR_NONE) || (offset =? 0)
            then mret result else k offset) c)
    (λ '(r, c'), ctx_step c c' ∧ (r = MOJOM_VALIDATION_ERROR_NONE → slot_ok t p)).
Proof.
  intros Hp Hpe Hc Ht Hk. run.
  eapply returns_mono; [by apply validate_pointer_safe|].
  intros [r c1] (off & Hoff & Hoff0 & Hc1 & Hr). run.
  - split; [done|]. intros -> _. exists off. split_and!; [done|lia|].
    replace (off =? 0) with true in Hr by lia. lia.
  - destruct Hr as [Hmax Hr]; [lia|]. replace (off =? 0) with false in Hr by lia.
    destruct Hr as [Hnp ->].
    eapply returns_mono; [apply Hk; cbn; lia || done|].
    intros [r' c'] [[Hc' Hc''] Hr']. cbn [next_pointer] in *.
    split; [unfold ctx_step; lia|]. intros Hr0 _. exists off. auto.
Qed.

#[export] Instance DispatchValidate_safe fuel :
  SafeDispatch (Z.of_nat fuel) (MojomType_DispatchValidate m descs fuel).
Proof.
  induction fuel as [|fuel IH]; intros t d nullable p nh c Hd Hp Hpe Hc Hn.
  { destruct t; cbn in Hn; lia. }
  cbn [MojomType_DispatchValidate].
  assert (negb (p =? 0) = true) as ->.
  { lia. }
  run. unfold wf_elem in Hd. destruct t; try done.
  - destruct (deref_struct descs d) as [sd|] eqn:Hsd; [|done].
    apply slot_safe; [done|done|done|done|]. intros off c1 Hoff Hoff0 Hrange Hc1 Hnp.
    rewrite u32_small by lia. replace (endp - p - off) with (endp - (p + off)) by lia.
    cbn [slack] in Hn. run.
    eapply returns_mono; [eapply MojomStruct_Validate_safe; try done; lia|].
    intros [r c'] [Hc' Hr]. rewrite andb_false_r. run.
    split; [done|]. intros Hr0. destruct (Hr Hr0) as [? _]. unfold past in *. lia.
  - destruct (deref_struct descs d) as [sd|] eqn:Hsd; [|done].
    apply slot_safe; [done|done|done|done|]. intros off c1 Hoff Hoff0 Hrange Hc1 Hnp.
    rewrite u32_small by lia. replace (endp - p - off) with (endp - (p + off)) by lia.
    cbn [slack] in Hn. run.
    eapply returns_mono; [eapply MojomStruct_Validate_safe; try done; lia|].
    intros [r c'] [Hc' Hr]. run.
    + destruct Hr as [Hpast Hslots]; [lia|].
      eapply returns_mono; [by apply (MojomMap_Validate_safe d sd); [|lia|]|].
      intros [r' c''] ->. split; [done|]. unfold past in *. lia.
    + split; [done|]. intros Hr0. destruct (Hr Hr0) as [? _]. unfold past in *. lia.
  - destruct (deref_array descs d) as [ad|] eqn:Had; [|done].
    apply slot_safe; [done|done|done|done|]. intros off c1 Hoff Hoff0 Hrange Hc1 Hnp.
    rewrite u32_small by lia. replace (endp - p - off) with (endp - (p + off)) by lia.
    cbn [slack] in Hn.
    eapply returns_mono; [eapply MojomArray_Validate_safe; try done; lia|].
    intros [r c'] [Hc' Hr]. split; [done|]. intros Hr0. unfold past in *.
    specialize (Hr Hr0). lia.
  - destruct (deref_union descs d) as [ud|] eqn:Hud; [|done].
    cbn [elem_size slack] in *. unfold sizeof_MojomUnionLayout in *. run.
    eapply returns_mono; [apply load32_ok; lia|]. intros size _.
    run; [split; [unfold ctx_step; lia|done]..|].
    replace (p - p) with 0 by lia. rewrite Z.sub_0_r, u32_small by lia.
    eapply returns_mono; [eapply MojomUnion_Validate_safe; try done; lia|].
    intros [r c'] Hc'. done.
  - run. eapply returns_mono; [apply load32_ok; change (p + 4 <= endp) in Hpe; lia|]. intros h _.
    eapply returns_mono; [apply validate_handle_safe|].
    intros [r c'] Hc'. unfold ctx_step. split; [lia|done].
  - run. eapply returns_mono; [apply load32_ok; unfold interface_handle; change (p + 8 <= endp) in Hpe; lia|].
    intros h _.
    eapply returns_mono; [apply validate_handle_safe|].
    intros [r c'] Hc'. unfold ctx_step. split; [lia|done].
Qed.
End safety.

(** ** The property of the whole *)

(** C1: [MojomStruct_Validate] is memory safe and terminates on any buffer.
    For descriptor tables whose types nest no union in a union ([wf_descs]), and
    whatever bytes the peer sent (truncated, with hostile offsets, sizes and
    counts), a struct validated over a mapped buffer of [size] bytes returns a
    result code: no access outside the buffer, no failed assertion, and
    recursion no deeper than a quarter of the buffer's size.  The claimed part
    of the buffer ends inside it. *)
Theorem MojomStruct_Validate_total m descs dp d base size nh fuel c :
  wf_descs descs = true → deref_struct descs dp = Ok d →
  0 < base → 0 <= size < 2 ^ 32 → mapped m base (base + size) →
  next_pointer c <= base + size → size <= 4 * Z.of_nat fuel →
  ∃ r c', MojomStruct_Validate m descs (MojomType_DispatchValidate m descs fuel)
    dp base size nh c = Ok (r, c') ∧ next_pointer c' <= base + size.
Proof.
  intros Hwf Hd Hbase Hsize Hmap Hc Hfuel.
  pose proof (DispatchValidate_safe m descs Hwf base (base + size) Hmap Hbase
    ltac:(lia) fuel) as Hsafe.
  edestruct (returns_Ok_inv _ _ (MojomStruct_Validate_safe m descs Hwf base (base + size)
    Hmap Hbase ltac:(lia) (Z.of_nat fuel) _ dp d base nh c Hd ltac:(lia) Hc ltac:(lia)))
    as ([r c'] & Hr & [Hp _] & _).
  replace (base + size - base) with size in Hr by lia. eauto.
Qed.

Lemma MojomStruct_Validate_total_witness : ∃ r c',
  MojomStruct_Validate sample_mem sample_descs
    (MojomType_DispatchValidate sample_mem sample_descs sample_fuel)
    (Some 0%nat) sample_base sample_size 6 (mkContext 0 sample_base) = Ok (r, c') ∧
  next_pointer c' <= sample_base + sample_size.
Proof.
  apply (MojomStruct_Validate_total sample_mem sample_descs (Some 0%nat) sample_node).
  - exact sample_descs_wf.
  - done.
  - done.
  - done.
  - exact sample_mapped.
  - done.
  - done.
Defined.
