(* ===== verification/Codec.v ===== *)
(** * Encoding and decoding of pointers and handles

    [public/c/lib/bindings]: [encode_pointer], [decode_pointer],
    [encode_handle], [decode_handle] and the two dispatchers of
    type_descriptor.c, with the [EncodePointersAndHandles] and
    [DecodePointersAndHandles] of struct.c, array.c and union.c.

    An unencoded object holds absolute addresses and handles; encoding rewrites
    it in place to relative offsets and indices into an array of handles, and
    decoding undoes that.  The state is the memory and the handle array; the
    handle array is an object of its own, accessed only by index. *)
From stdpp Require Import base list numbers option gmap.
From S2P Require Import Prelude Memory TypeDescriptor Validate.

(** [MOJO_HANDLE_INVALID] *)
Definition MOJO_HANDLE_INVALID : Z := 0.

(** [struct MojomHandleBuffer]; [handles = None] is a null pointer. *)
Record MojomHandleBuffer : Set := mkHandleBuffer {
  hb_handles : option (list Z);
  hb_num_handles : Z;
  hb_num_handles_used : Z;
}.

(** State of encoding: the memory and [*inout_handles_buffer] ([None]: the
    pointer is null).  State of decoding: the memory and [inout_handles]. *)
Abbreviation EM := (stateR (mem * option MojomHandleBuffer)).
Abbreviation DM := (stateR (mem * option (list Z))).

Definition get_mem {H} : stateR (mem * H) mem := λ s, Ok (fst s, s).
Definition put_mem {H} (m : mem) : stateR (mem * H) unit := λ s, Ok (tt, (m, snd s)).

(** Reads and writes of the current memory. *)
Definition read {H A} (f : mem → result A) : stateR (mem * H) A :=
  m ← get_mem; lift (f m).
Definition write {H} (f : mem → result mem) : stateR (mem * H) unit :=
  m ← get_mem; m' ← lift (f m); put_mem m'.

Section access_rules.
Context {H A : Type}.
Implicit Types (s : mem * H).

Lemma returns_read (f : mem → result A) m (h : H) (Q : A * (mem * H) → Prop) :
  returns (f m) (λ a, Q (a, (m, h))) → returns (read f (m, h)) Q.
Proof. unfold read, get_mem, mbind, stateR_bind; cbn. by destruct (f m). Qed.

Lemma returns_write (f : mem → result mem) m (h : H) (Q : unit * (mem * H) → Prop) :
  returns (f m) (λ m', Q (tt, (m', h))) → returns (write f (m, h)) Q.
Proof. unfold write, get_mem, mbind, stateR_bind; cbn. by destruct (f m). Qed.
End access_rules.

(** [run] extended to reads and writes of memory, without impossible branches. *)
Ltac run_mem := repeat first
  [ prune_step
  | lazymatch goal with
    | |- returns (read _ _) _ => apply returns_read
    | |- returns (write _ _) _ => apply returns_write
    | |- returns (get_mem _) _ => cbn [returns get_mem fst]
    | |- returns (put_mem _ _) _ => cbn [returns put_mem snd]
    end ].

(** [handles[i]] and [handles[i] = h] *)
Definition handles_get (hs : list Z) (i : Z) : result Z :=
  match hs !! Z.to_nat i with Some h => Ok h | None => Crash BadAccess end.
Definition handles_set (hs : list Z) (i h : Z) : result (list Z) :=
  match hs !! Z.to_nat i with
  | Some _ => Ok (<[Z.to_nat i := h]> hs)
  | None => Crash BadAccess
  end.

(** [for (size_t i = 0; i < array->num_elements; i++) body(i);]

    The bound is read before every iteration.  [num_elements], its value when
    the loop starts, bounds the recursion of the model: a loop whose body
    raised the bound would run out of fuel. *)
Definition for_each_element {H} (array num_elements : Z)
    (body : Z → stateR (mem * H) unit) : stateR (mem * H) unit :=
  for_each (seqZ 0 num_elements) (λ i,
    num ← read (λ m, array_num_elements m array);
    if num <=? i then mret tt else body i);;
  num ← read (λ m, array_num_elements m array);
  if num_elements <? num then crash OutOfFuel else mret tt.

(** ** Pointers *)

Definition encode_pointer {H} (pointer max_offset : Z) : stateR (mem * H) unit :=
  ptr ← read (λ m, load64 m pointer);
  if ptr =? 0 then write (λ m, store64 m pointer 0)
  else
  c_assert (pointer <? ptr);;
  c_assert (ptr - pointer <? max_offset);;
  write (λ m, store64 m pointer (ptr - pointer)).

Definition decode_pointer {H} (pointer : Z) : stateR (mem * H) unit :=
  offset ← read (λ m, load64 m pointer);
  if offset =? 0 then write (λ m, store64 m pointer 0)
  else write (λ m, store64 m pointer (u64 (pointer + offset))).

(** ** Handles *)

Definition encode_handle (nullable : bool) (handle : Z) : EM unit :=
  c_assert (negb (handle =? 0));;
  s ← get_state;
  match snd s with
  | None => crash AssertFailed
  | Some hb =>
      match hb_handles hb with
      | None => crash AssertFailed
      | Some handles =>
          h ← read (λ m, load32 m handle);
          if h =? MOJO_HANDLE_INVALID then
            c_assert nullable;;
            write (λ m, store32 m handle kEncodedHandleInvalid)
          else
          c_assert (hb_num_handles_used hb <? hb_num_handles hb);;
          handles' ← lift (handles_set handles (hb_num_handles_used hb) h);
          write (λ m, store32 m handle (hb_num_handles_used hb));;
          m' ← get_mem;
          put_state (m', Some (mkHandleBuffer (Some handles') (hb_num_handles hb)
            (u32 (hb_num_handles_used hb + 1))))
      end
  end.

Definition decode_handle (handle in_num_handles : Z) : DM unit :=
  c_assert (negb (handle =? 0));;
  s ← get_state;
  match snd s with
  | None => crash AssertFailed
  | Some inout_handles =>
      index ← read (λ m, load32 m handle);
      if index =? kEncodedHandleInvalid then
        write (λ m, store32 m handle MOJO_HANDLE_INVALID)
      else
      c_assert (index <? in_num_handles);;
      h ← lift (handles_get inout_handles index);
      write (λ m, store32 m handle h);;
      inout_handles' ← lift (handles_set inout_handles index MOJO_HANDLE_INVALID);
      m' ← get_mem;
      put_state (m', Some inout_handles')
  end.

(** [inout_handles != NULL || in_num_handles == 0] *)
Definition handles_usable (hs : option (list Z)) (in_num_handles : Z) : bool :=
  bool_decide (is_Some hs) || (in_num_handles =? 0).

Section codec.
Context (descs : desc_table).

Section encode_objects.
Context (dispatch : MojomTypeDescriptorType → desc_ptr → bool → Z → Z → EM unit).

Definition MojomStruct_EncodePointersAndHandles (in_type_desc : desc_ptr)
    (inout_struct in_struct_size : Z) : EM unit :=
  c_assert (desc_nonnull in_type_desc);;
  c_assert (negb (inout_struct =? 0));;
  c_assert (sizeof_MojomStructHeader <=? in_struct_size);;
  desc ← lift (deref_struct descs in_type_desc);
  for_each (sd_entries desc) (λ entry,
    version ← read (λ m, struct_version m inout_struct);
    if version <? se_min_version entry then mret tt
    else
    c_assert (sizeof_MojomStructHeader + se_offset entry <? in_struct_size);;
    let elem_data := inout_struct + sizeof_MojomStructHeader + se_offset entry in
    dispatch (se_elem_type entry) (se_elem_descriptor entry) (se_nullable entry)
      elem_data (u32 (in_struct_size - (elem_data - inout_struct)))).

Definition MojomArray_EncodePointersAndHandles (in_type_desc : desc_ptr)
    (inout_array in_array_size : Z) : EM unit :=
  c_assert (desc_nonnull in_type_desc);;
  c_assert (negb (inout_array =? 0));;
  c_assert (sizeof_MojomArrayHeader <=? in_array_size);;
  num_bytes ← read (λ m, array_num_bytes m inout_array);
  c_assert (num_bytes <=? in_array_size);;
  desc ← lift (deref_array descs in_type_desc);
  if bool_decide (ad_elem_type desc = POD) then mret tt
  else
  num_elements ← read (λ m, array_num_elements m inout_array);
  for_each_element inout_array num_elements (λ i,
    elem_data ← lift (array_index_by_type inout_array (ad_elem_type desc) i);
    c_assert (elem_data <? inout_array + in_array_size);;
    dispatch (ad_elem_type desc) (ad_elem_descriptor desc) (ad_nullable desc)
      elem_data (u32 (in_array_size - u32 (elem_data - inout_array)))).

Definition MojomUnion_EncodePointersAndHandles (in_type_desc : desc_ptr)
    (inout_union in_buf_size : Z) : EM unit :=
  c_assert (sizeof_MojomUnionLayout <=? in_buf_size);;
  desc ← lift (deref_union descs in_type_desc);
  entry ← read (λ m, select_union_entry (union_tag m inout_union) (ud_entries desc));
  match entry with
  | None => mret tt
  | Some entry =>
      if bool_decide (ue_elem_type entry = POD) then mret tt
      else
      dispatch (ue_elem_type entry) (ue_elem_descriptor entry) (ue_nullable entry)
        (union_data inout_union)
        (u32 (in_buf_size - (union_data inout_union - inout_union)))
  end.
End encode_objects.

(** For [UNION_PTR] the source tests [union_buf], the union behind the
    pointer, but passes [inout_buf], the pointer itself, to
    [MojomUnion_EncodePointersAndHandles]. *)
Fixpoint MojomType_DispatchEncodePointersAndHandles (fuel : nat)
    (in_elem_type : MojomTypeDescriptorType) (in_type_desc : desc_ptr)
    (in_nullable : bool) (inout_buf in_buf_size : Z) : EM unit :=
  match fuel with
  | O => crash OutOfFuel
  | S fuel' =>
    let dispatch := MojomType_DispatchEncodePointersAndHandles fuel' in
    let encode_union (union_buf : Z) : EM unit :=
      size ← (if in_nullable then
                (if negb (union_buf =? 0) then read (λ m, union_size m union_buf)
                 else mret 0)
              else mret 0);
      if negb in_nullable || (negb (union_buf =? 0) && negb (size =? 0)) then
        MojomUnion_EncodePointersAndHandles dispatch in_type_desc inout_buf in_buf_size
      else mret tt in
    c_assert (negb (inout_buf =? 0));;
    match in_elem_type with
    | MAP_PTR | STRUCT_PTR =>
        inout_struct ← read (λ m, load64 m inout_buf);
        encode_pointer inout_buf in_buf_size;;
        if negb in_nullable || negb (inout_struct =? 0) then
          MojomStruct_EncodePointersAndHandles dispatch in_type_desc inout_struct
            (u32 (in_buf_size - (inout_struct - inout_buf)))
        else mret tt
    | ARRAY_PTR =>
        inout_array ← read (λ m, load64 m inout_buf);
        encode_pointer inout_buf in_buf_size;;
        if negb in_nullable || negb (inout_array =? 0) then
          MojomArray_EncodePointersAndHandles dispatch in_type_desc inout_array
            (u32 (in_buf_size - (inout_array - inout_buf)))
        else mret tt
    | UNION_PTR =>
        union_buf ← read (λ m, load64 m inout_buf);
        encode_pointer inout_buf in_buf_size;;
        encode_union union_buf
    | UNION => encode_union inout_buf
    | HANDLE => encode_handle in_nullable inout_buf
    | INTERFACE => encode_handle in_nullable (interface_handle inout_buf)
    | POD => crash AssertFailed
    end
  end.

Section decode_objects.
Context (dispatch : MojomTypeDescriptorType → desc_ptr → bool → Z → Z → Z → DM unit).

Definition MojomStruct_DecodePointersAndHandles (in_type_desc : desc_ptr)
    (inout_struct in_struct_size in_num_handles : Z) : DM unit :=
  c_assert (desc_nonnull in_type_desc);;
  c_assert (negb (inout_struct =? 0));;
  s ← get_state;
  c_assert (handles_usable (snd s) in_num_handles);;
  desc ← lift (deref_struct descs in_type_desc);
  for_each (sd_entries desc) (λ entry,
    version ← read (λ m, struct_version m inout_struct);
    if version <? se_min_version entry then mret tt
    else
    c_assert (sizeof_MojomStructHeader + se_offset entry <? in_struct_size);;
    let elem_data := inout_struct + sizeof_MojomStructHeader + se_offset entry in
    dispatch (se_elem_type entry) (se_elem_descriptor entry) (se_nullable entry)
      elem_data (u32 (in_struct_size - (elem_data - inout_struct))) in_num_handles).

Definition MojomArray_DecodePointersAndHandles (in_type_desc : desc_ptr)
    (inout_array in_array_size in_num_handles : Z) : DM unit :=
  c_assert (desc_nonnull in_type_desc);;
  c_assert (negb (inout_array =? 0));;
  s ← get_state;
  c_assert (handles_usable (snd s) in_num_handles);;
  desc ← lift (deref_array descs in_type_desc);
  if bool_decide (ad_elem_type desc = POD) then mret tt
  else
  num_elements ← read (λ m, array_num_elements m inout_array);
  for_each_element inout_array num_elements (λ i,
    elem_data ← lift (array_index_by_type inout_array (ad_elem_type desc) i);
    c_assert (elem_data <? inout_array + in_array_size);;
    dispatch (ad_elem_type desc) (ad_elem_descriptor desc) (ad_nullable desc)
      elem_data (u32 (in_array_size - u32 (elem_data - inout_array))) in_num_handles).

Definition MojomUnion_DecodePointersAndHandles (in_type_desc : desc_ptr)
    (inout_union in_union_size in_num_handles : Z) : DM unit :=
  c_assert (sizeof_MojomUnionLayout <=? in_union_size);;
  s ← get_state;
  c_assert (handles_usable (snd s) in_num_handles);;
  desc ← lift (deref_union descs in_type_desc);
  entry ← read (λ m, select_union_entry (union_tag m inout_union) (ud_entries desc));
  match entry with
  | None => mret tt
  | Some entry =>
      if bool_decide (ue_elem_type entry = POD) then mret tt
      else
      dispatch (ue_elem_type entry) (ue_elem_descriptor entry) (ue_nullable entry)
        (union_data inout_union)
        (u32 (in_union_size - (union_data inout_union - inout_union))) in_num_handles
  end.
End decode_objects.

Fixpoint MojomType_DispatchDecodePointersAndHandles (fuel : nat)
    (in_elem_type : MojomTypeDescriptorType) (in_type_desc : desc_ptr)
    (in_nullable : bool) (inout_buf in_buf_size in_num_handles : Z) : DM unit :=
  match fuel with
  | O => crash OutOfFuel
  | S fuel' =>
    let dispatch := MojomType_DispatchDecodePointersAndHandles fuel' in
    let decode_union (union_buf : Z) : DM unit :=
      size ← (if in_nullable then
                (if negb (union_buf =? 0) then read (λ m, union_size m union_buf)
                 else mret 0)
              else mret 0);
      if negb in_nullable || (negb (union_buf =? 0) && negb (size =? 0)) then
        MojomUnion_DecodePointersAndHandles dispatch in_type_desc inout_buf in_buf_size
          in_num_handles
      else mret tt in
    c_assert (negb (inout_buf =? 0));;
    match in_elem_type with
    | MAP_PTR | STRUCT_PTR =>
        decode_pointer inout_buf;;
        inout_struct ← read (λ m, load64 m inout_buf);
        c_assert ((inout_struct =? 0) || (inout_struct <? inout_buf + in_buf_size));;
        if negb in_nullable || negb (inout_struct =? 0) then
          MojomStruct_DecodePointersAndHandles dispatch in_type_desc inout_struct
            (u32 (in_buf_size - (inout_struct - inout_buf))) in_num_handles
        else mret tt
    | ARRAY_PTR =>
        decode_pointer inout_buf;;
        inout_array ← read (λ m, load64 m inout_buf);
        c_assert ((inout_array =? 0) || (inout_array <? inout_buf + in_buf_size));;
        if negb in_nullable || negb (inout_array =? 0) then
          MojomArray_DecodePointersAndHandles dispatch in_type_desc inout_array
            (u32 (in_buf_size - (inout_array - inout_buf))) in_num_handles
        else mret tt
    | UNION_PTR =>
        decode_pointer inout_buf;;
        union_buf ← read (λ m, load64 m inout_buf);
        c_assert ((union_buf =? 0) || (union_buf <? inout_buf + in_buf_size));;
        decode_union union_buf
    | UNION => decode_union inout_buf
    | HANDLE => decode_handle inout_buf in_num_handles
    | INTERFACE => decode_handle (interface_handle inout_buf) in_num_handles
    | POD => crash AssertFailed
    end
  end.
End codec.
