(* ===== verification/Restores.v ===== *)
(** * In-place rewrites and their inverses

    [restores] relates a decoding step to the encoding step that undoes it:
    where in memory and among the handles they act, and what they leave
    behind.  The relation composes over disjoint parts, so that a whole object
    graph is handled by induction on its traversal. *)
From stdpp Require Import base list numbers option gmap.
From S2P Require Import Prelude Memory TypeDescriptor Validate Codec.

(** Two handle arrays agree on the indices [[i, j)]. *)
Definition handles_agree (i j : Z) (h1 h2 : list Z) : Prop :=
  ∀ x, i <= x < j → h1 !! Z.to_nat x = h2 !! Z.to_nat x.

(** Pairwise facts about the indices of a loop. *)
Lemma seqZ_pairs (R : Z → Z → Prop) lo n :
  (∀ a b, lo <= a < b → b < lo + n → R a b) → ForallOrdPairs R (seqZ lo n).
Proof.
  destruct (decide (n <= 0)) as [Hn|Hn].
  { rewrite seqZ_nil by lia. constructor. }
  revert lo. replace n with (Z.of_nat (Z.to_nat n)) by lia. clear Hn.
  induction (Z.to_nat n) as [|k IH]; intros lo HR; [constructor|].
  rewrite seqZ_cons by lia. replace (Z.pred (Z.of_nat (S k))) with (Z.of_nat k) by lia.
  constructor.
  - apply Forall_forall. intros b Hb%elem_of_seqZ. apply HR; lia.
  - apply IH. intros a b Ha Hb. apply HR; lia.
Qed.

Section restores.
Context (H : list Z).  (** the handles that came with the message *)

(** A step of decoding [dec] and its inverse [enc], started from a state that
    agrees with [m] on [K ∪ FP] and with [H] on the indices [[i, j)]:

    - [dec] succeeds; it writes only [FP] and takes only handles in [[i, j)];
    - [enc], run on any state that still has what [dec] left on [K ∪ FP],
      succeeds; it writes only [FP] and appends [k <= j - i] handles;
    - when no index of [[i, j)] was skipped, it puts back the bytes [m] had
      on [FP] and the handles [H] had at [[i, j)]. *)
Definition restores (K FP : Z → Prop) (m : mem) (i j k : Z)
    (dec : DM unit) (enc : EM unit) : Prop :=
  0 <= i ∧ 0 <= k <= j - i ∧
  ∀ m2 hs, agree_on (union K FP) m m2 → length hs = length H → handles_agree i j H hs →
  ∃ m2' hs', dec (m2, Some hs) = Ok (tt, (m2', Some hs')) ∧
    agree_on (outside FP) m2 m2' ∧ length hs' = length hs ∧
    (∀ x, 0 <= x → ¬ (i <= x < j) → hs' !! Z.to_nat x = hs !! Z.to_nat x) ∧
    ∀ m3 arr num used, agree_on (union K FP) m2' m3 →
      Z.of_nat (length arr) = num → num < 2 ^ 32 → 0 <= used → used + k <= num →
      ∃ m3' arr',
        enc (m3, Some (mkHandleBuffer (Some arr) num used)) =
          Ok (tt, (m3', Some (mkHandleBuffer (Some arr') num (used + k)))) ∧
        agree_on (outside FP) m3 m3' ∧ length arr' = length arr ∧
        (∀ x, 0 <= x < used → arr' !! Z.to_nat x = arr !! Z.to_nat x) ∧
        (used = i → k = j - i →
           agree_on FP m m3' ∧ handles_agree i j H arr').

(** Steps that do nothing. *)
Lemma restores_ret K FP m i :
  0 <= i → restores K FP m i i 0 (mret tt) (mret tt).
Proof.
  intros Hi. split_and!; [done|lia|lia|]. intros m2 hs Hm Hlen Hh.
  exists m2, hs. split_and!; [done|done|done|done|].
  intros m3 arr num used Hm3 Hlen3 Hnum Hused Hroom.
  exists m3, arr. rewrite Z.add_0_r. split_and!; [done|done|done|done|].
  intros _ _. split; [|intros x Hx; lia].
  intros x Hx. rewrite (Hm x) by (by right). apply Hm3. by right.
Qed.

(** A larger read set and a larger footprint. *)
Lemma restores_weaken K FP `{!DecRegion FP} K' FP' m i j k dec enc :
  restores K FP m i j k dec enc →
  (∀ x, K x → K' x ∨ FP' x) → (∀ x, FP x → FP' x) →
  restores K' FP' m i j k dec enc.
Proof.
  intros (Hi & Hk & Hr) HK HFP. split_and!; [done|lia|lia|].
  intros m2 hs Hm Hlen Hh.
  destruct (Hr m2 hs) as (m2' & hs' & Hdec & Hout & Hl & Hho & Henc); [|done..|].
  { intros x [Hx|Hx]; apply Hm; [destruct (HK x Hx); [by left|by right]|right; auto]. }
  exists m2', hs'. split_and!; [done| |done|done|].
  { intros x Hx. apply Hout. intros ?. apply Hx. auto. }
  intros m3 arr num used Hm3 Hlen3 Hnum Hused Hroom.
  destruct (Henc m3 arr num used) as (m3' & arr' & Henc' & Hout3 & Hl3 & Hpre & Hres);
    [|done..|].
  { intros x [Hx|Hx]; apply Hm3; [destruct (HK x Hx); [by left|by right]|right; auto]. }
  exists m3', arr'. split_and!; [done| |done|done|].
  { intros x Hx. apply Hout3. intros ?. apply Hx. auto. }
  intros Hu Hkk. destruct (Hres Hu Hkk) as [Hm3' Hha]. split; [|done].
  intros x Hx. destruct (decide (FP x)) as [HF|HF]; [by apply Hm3'|].
  rewrite <- Hout3 by done. rewrite <- Hm3 by (by right).
  rewrite <- Hout by done. apply Hm. by right.
Qed.

(** Steps in sequence, on disjoint footprints. *)
Lemma restores_seq K FP1 FP2 `{!DecRegion FP1, !DecRegion FP2} m i j l k1 k2
    dec1 enc1 dec2 enc2 :
  restores K FP1 m i j k1 dec1 enc1 → restores K FP2 m j l k2 dec2 enc2 →
  disjoint FP1 FP2 → disjoint K FP1 → disjoint K FP2 →
  restores K (union FP1 FP2) m i l (k1 + k2) (dec1;; dec2) (enc1;; enc2).
Proof.
  intros (Hi & Hk1 & Hr1) (_ & Hk2 & Hr2) H12 HK1 HK2. split_and!; [done|lia|lia|].
  intros m2 hs Hm Hlen Hh.
  destruct (Hr1 m2 hs) as (m2a & hsa & Hdec1 & Hout1 & Hl1 & Hho1 & Henc1); [|done| |].
  { intros x [Hx|Hx]; apply Hm; [by left|right; by left]. }
  { intros x Hx. apply Hh. lia. }
  destruct (Hr2 m2a hsa) as (m2b & hsb & Hdec2 & Hout2 & Hl2 & Hho2 & Henc2); [|lia| |].
  { intros x Hx. rewrite <- Hout1.
    - apply Hm. destruct Hx as [Hx|Hx]; [by left|right; by right].
    - intros HF. destruct Hx as [Hx|Hx]; [by eapply HK1|by eapply H12]. }
  { intros x Hx. rewrite Hho1 by lia. apply Hh. lia. }
  exists m2b, hsb. split_and!.
  - by rewrite (bindS_Ok _ _ _ _ _ Hdec1).
  - intros x Hx. rewrite Hout1, Hout2; [done| |]; intros ?; apply Hx; [by right|by left].
  - lia.
  - intros x Hx0 Hx. rewrite Hho2, Hho1 by lia. done.
  - intros m3 arr num used Hm3 Hlen3 Hnum Hused Hroom.
    destruct (Henc1 m3 arr num used) as (m3a & arra & He1 & Ho1 & Hla & Hpre1 & Hres1);
      [|done|done|done|lia|].
    { intros x Hx. rewrite Hout2.
      - apply Hm3. destruct Hx as [Hx|Hx]; [by left|right; by left].
      - intros HF. destruct Hx as [Hx|Hx]; [by eapply HK2|by eapply H12]. }
    destruct (Henc2 m3a arra num (used + k1)) as (m3b & arrb & He2 & Ho2 & Hlb & Hpre2 & Hres2);
      [|lia|done|lia|lia|].
    { intros x Hx. rewrite <- Ho1.
      - apply Hm3. destruct Hx as [Hx|Hx]; [by left|right; by right].
      - intros HF. destruct Hx as [Hx|Hx]; [by eapply HK1|by eapply H12]. }
    exists m3b, arrb. split_and!.
    + rewrite (bindS_Ok _ _ _ _ _ He1), He2. by rewrite Z.add_assoc.
    + intros x Hx. rewrite Ho1, Ho2; [done| |]; intros ?; apply Hx; [by right|by left].
    + lia.
    + intros x Hx. rewrite Hpre2, Hpre1 by lia. done.
    + intros Hu Hk. destruct Hres1 as [Hm1 Ha1]; [done|lia|].
      destruct Hres2 as [Hm2 Ha2]; [lia|lia|]. split.
      * intros x [Hx|Hx]; [|by apply Hm2].
        rewrite (Hm1 x Hx). apply Ho2. intros HF. by eapply H12.
      * intros x Hx. destruct (decide (x < j)).
        -- rewrite (Ha1 x) by lia. symmetry. apply Hpre2. lia.
        -- apply Ha2. lia.
Qed.

(** Steps that behave the same on the states [restores] runs them on. *)
Lemma restores_ext K FP m i j k dec enc dec' enc' :
  restores K FP m i j k dec enc →
  (∀ m hs, dec' (m, Some hs) = dec (m, Some hs)) →
  (∀ m hb, enc' (m, Some hb) = enc (m, Some hb)) →
  restores K FP m i j k dec' enc'.
Proof.
  intros (Hi & Hk & Hr) Hdec Henc. split_and!; [done|lia|lia|].
  intros m2 hs Hm Hlen Hh.
  destruct (Hr m2 hs Hm Hlen Hh) as (m2' & hs' & ? & ? & ? & ? & He).
  exists m2', hs'. rewrite Hdec. split_and!; [done..|].
  intros m3 arr num used Hm3 Hlen3 Hnum Hused Hroom. rewrite Henc. by apply He.
Qed.

(** Reading the region [K] that both directions leave alone. *)
Lemma restores_dec_read {A} K FP m i j k (f : mem → result A) a dec enc :
  restores K FP m i j k (dec a) enc →
  (∀ m', agree_on K m m' → f m' = Ok a) →
  restores K FP m i j k (x ← read f; dec x) enc.
Proof.
  intros (Hi & Hk & Hr) Hf. split_and!; [done|lia|lia|].
  intros m2 hs Hm Hlen Hh.
  destruct (Hr m2 hs Hm Hlen Hh) as (m2' & hs' & Hdec & ? & ? & ? & He).
  exists m2', hs'. split_and!; [|done..].
  unfold read, get_mem, mbind, stateR_bind, lift. cbn [fst].
  rewrite Hf; [done|]. intros x Hx. apply Hm. by left.
Qed.

Lemma restores_enc_read {A} K FP m i j k (f : mem → result A) a dec enc :
  restores K FP m i j k dec (enc a) → disjoint K FP →
  (∀ m', agree_on K m m' → f m' = Ok a) →
  restores K FP m i j k dec (x ← read f; enc x).
Proof.
  intros (Hi & Hk & Hr) Hdis Hf. split_and!; [done|lia|lia|].
  intros m2 hs Hm Hlen Hh.
  destruct (Hr m2 hs Hm Hlen Hh) as (m2' & hs' & Hdec & Hout & ? & ? & He).
  exists m2', hs'. split_and!; [done..|].
  intros m3 arr num used Hm3 Hlen3 Hnum Hused Hroom.
  destruct (He m3 arr num used Hm3 Hlen3 Hnum Hused Hroom)
    as (m3' & arr' & He' & ? & ? & ? & ?).
  exists m3', arr'. split_and!; [|done..].
  unfold read, get_mem, mbind, stateR_bind, lift. cbn [fst].
  rewrite Hf; [done|]. intros x Hx.
  rewrite (Hm x) by (by left). rewrite Hout by (intros ?; by eapply Hdis).
  apply Hm3. by left.
Qed.

Lemma restores_assert K FP m i j k b1 b2 dec enc :
  restores K FP m i j k dec enc → b1 = true → b2 = true →
  restores K FP m i j k (c_assert b1;; dec) (c_assert b2;; enc).
Proof. by intros ? -> ->. Qed.

Lemma restores_lift {A} K FP m i j k (a : A) dec enc :
  restores K FP m i j k (dec a) (enc a) →
  restores K FP m i j k (x ← lift (Ok a); dec x) (x ← lift (Ok a); enc x).
Proof. done. Qed.

(** A value both directions read from [K] before they go on. *)
Lemma restores_read {A} K FP m i j k (f : mem → result A) a dec enc :
  restores K FP m i j k (dec a) (enc a) → disjoint K FP →
  (∀ m', agree_on K m m' → f m' = Ok a) →
  restores K FP m i j k (x ← read f; dec x) (x ← read f; enc x).
Proof.
  intros Hr Hdis Hf. apply (restores_dec_read _ _ _ _ _ _ _ a); [|done].
  by apply (restores_enc_read _ _ _ _ _ _ _ a).
Qed.

(** A validated loop, whose bodies act on disjoint slots below [lim] and on
    the part of the buffer the validation of each body claimed. *)
Section loop.
Context {A : Type} (K : Z → Prop) (slot : A → Z → Prop) `{!∀ a, DecRegion (slot a)}.
Context (m : mem) (lim : Z).
Context (vbody : A → VM Z) (dbody : A → DM unit) (ebody : A → EM unit).
Context (HKlim : ∀ x, K x → x < lim).

Lemma validate_each_cons_inv a l c c' :
  validate_each (a :: l) vbody c = Ok (MOJOM_VALIDATION_ERROR_NONE, c') →
  ∃ c1, vbody a c = Ok (MOJOM_VALIDATION_ERROR_NONE, c1) ∧
    validate_each l vbody c1 = Ok (MOJOM_VALIDATION_ERROR_NONE, c').
Proof.
  cbn [validate_each]. intros (r & c1 & Hr & Hk)%bindS_Ok_inv.
  destruct (negb (r =? MOJOM_VALIDATION_ERROR_NONE)) eqn:E.
  - injection Hk as -> ->. done.
  - assert (r = MOJOM_VALIDATION_ERROR_NONE) as -> by lia. eauto.
Qed.

Lemma restores_for_each l c c' :
  validate_each l vbody c = Ok (MOJOM_VALIDATION_ERROR_NONE, c') →
  (∀ a c1 c2, a ∈ l → lim <= next_pointer c1 → 0 <= next_handle_index c1 →
     vbody a c1 = Ok (MOJOM_VALIDATION_ERROR_NONE, c2) →
     next_pointer c1 <= next_pointer c2 ∧
     ∃ k, restores K (union (slot a) (range (next_pointer c1) (next_pointer c2))) m
       (next_handle_index c1) (next_handle_index c2) k (dbody a) (ebody a)) →
  lim <= next_pointer c → 0 <= next_handle_index c →
  (∀ a, a ∈ l → disjoint K (slot a) ∧ ∀ x, slot a x → x < lim) →
  ForallOrdPairs (λ a b, disjoint (slot a) (slot b)) l →
  next_pointer c <= next_pointer c' ∧
  ∃ k, restores K
    (union (λ x, Exists (λ a, slot a x) l) (range (next_pointer c) (next_pointer c'))) m
    (next_handle_index c) (next_handle_index c') k (for_each l dbody) (for_each l ebody).
Proof.
  intros Hv Hbody Hlim Hi Hslot Hpairs. revert c Hv Hlim Hi.
  induction Hpairs as [|a l Ha Hpairs IH]; intros c Hv Hlim Hi.
  { injection Hv as ->. split; [done|]. exists 0. by apply restores_ret. }
  apply validate_each_cons_inv in Hv as (c1 & Hva & Hvl).
  destruct (Hbody a c c1) as (Hmono & k1 & Hr1); [by left|done..|].
  assert (0 <= next_handle_index c1) by (destruct Hr1 as (? & ? & _); lia).
  destruct (IH) with (c := c1) as (Hmono' & k2 & Hr2); [| |done|lia|done|].
  { intros. apply Hbody; [by right|done..]. }
  { intros. apply Hslot. by right. }
  split; [lia|]. exists (k1 + k2). cbn [for_each].
  destruct (Hslot a) as [HKa Ha_lim]; [by left|].
  assert (∀ b x, b ∈ l → slot b x → x < lim) as Hl_lim.
  { intros b x Hb. apply Hslot. by right. }
  eapply (restores_weaken K _); [eapply (restores_seq _ _ _ _ _ _ _ _ _ _ _ _ _ Hr1 Hr2)|..].
  - intros x [Hx|Hx] [Hy|Hy].
    + apply Exists_exists in Hy as (b & Hb & Hby).
      rewrite Forall_forall in Ha. by eapply Ha.
    + apply Ha_lim in Hx. unfold range in Hy. lia.
    + apply Exists_exists in Hy as (b & Hb & Hby).
      apply Hl_lim in Hby; [|done]. unfold range in Hx. lia.
    + unfold range in *. lia.
  - intros x Hx [Hy|Hy]; [by eapply HKa|]. apply HKlim in Hx. unfold range in Hy. lia.
  - intros x Hx [Hy|Hy].
    + apply Exists_exists in Hy as (b & Hb & Hby).
      destruct (Hslot b) as [HKb _]; [by right|]. by eapply HKb.
    + apply HKlim in Hx. unfold range in Hy. lia.
  - by left.
  - intros x [[Hx|Hx]|[Hx|Hx]].
    + left. by left.
    + right. unfold range in *. lia.
    + left. by right.
    + right. unfold range in *. lia.
  Unshelve. all: apply _.
Qed.
End loop.
End restores.
