(* ===== verification/RoundTrip.v ===== *)
(** * A validated message decodes safely, and encoding undoes decoding *)
From stdpp Require Import base list numbers option gmap.
From S2P Require Import Prelude Memory TypeDescriptor Validate Sample ValidateSafe Codec Restores.

(** ** What a successful validation step says *)

Abbreviation ok_code := MOJOM_VALIDATION_ERROR_NONE.

Lemma validate_handle_inv h nh nullable c c' :
  validate_handle h nh nullable c = Ok (ok_code, c') →
  next_pointer c' = next_pointer c ∧
  if h =? kEncodedHandleInvalid then nullable = true ∧ c' = c
  else h < nh ∧ next_handle_index c <= h ∧ next_handle_index c' = u32 (h + 1).
Proof.
  unfold validate_handle. destruct (h =? kEncodedHandleInvalid) eqn:E; cbn.
  - destruct nullable; cbn; intros [= <-]; done.
  - rewrite andb_false_r. unfold mbind, stateR_bind; cbn.
    destruct (_ || _) eqn:E2; [done|]. cbn. intros [= <-]. cbn. lia.
Qed.

Lemma validate_pointer_inv m p mx nullable c c' :
  validate_pointer m p mx nullable c = Ok (ok_code, c') →
  ∃ off, load64 m p = Ok off ∧ off <= mx ∧ off <= UINT32_MAX ∧
    if off =? 0 then c' = c ∧ nullable = true
    else next_pointer c <= p + off ∧ c' = mkContext (next_handle_index c) (p + off).
Proof.
  unfold validate_pointer.
  intros (off & c1 & [Hoff ->]%lift_Ok_inv & Hk)%bindS_Ok_inv. exists off.
  destruct (_ || _) eqn:Emx; [done|].
  apply bindS_Ok_inv in Hk as (? & ? & [= <- <-] & Hk).
  destruct (negb (off =? 0) && _) eqn:E1; [done|].
  apply bindS_Ok_inv in Hk as ([] & c2 & Hc2 & Hk).
  destruct (negb (Z.land off 7 =? 0)); [done|].
  destruct (negb nullable && (off =? 0)) eqn:E3; [done|]. injection Hk as ->.
  split_and!; [done|lia|lia|]. destruct (off =? 0); cbn in *.
  - injection Hc2 as ->. destruct nullable; done.
  - injection Hc2 as <-. split; [lia|done].
Qed.

(** ** Single handles and pointers *)

(** What one rewrite of [n] bytes at [p] does: the value it leaves, and that
    nothing else moves. *)
Definition wrote32 (p v : Z) (m m' : mem) : Prop :=
  load32 m' p = Ok v ∧ agree_on (outside (range p (p + 4))) m m'.
Definition wrote64 (p v : Z) (m m' : mem) : Prop :=
  load64 m' p = Ok v ∧ agree_on (outside (range p (p + 8))) m m'.

Lemma returns_store32 m p v :
  mapped m p (p + 4) → 0 <= v < 2 ^ 32 → returns (store32 m p v) (wrote32 p v m).
Proof. intros. eapply returns_mono; [by apply store32_ok|]. intros m' (? & ? & _). done. Qed.

Lemma returns_store64 m p v :
  mapped m p (p + 8) → 0 <= v < 2 ^ 64 → returns (store64 m p v) (wrote64 p v m).
Proof. intros. eapply returns_mono; [by apply store64_ok|]. intros m' (? & ? & _). done. Qed.

Lemma decode_handle_null m hs p n :
  0 < p → load32 m p = Ok kEncodedHandleInvalid →
  returns (decode_handle p n (m, Some hs)) (λ '(_, (m', hs')),
    hs' = Some hs ∧ wrote32 p MOJO_HANDLE_INVALID m m').
Proof.
  intros Hp Hl. unfold decode_handle. assert (negb (p =? 0) = true) as -> by lia.
  run_mem. cbn [snd]. run_mem.
  eapply returns_mono; [apply returns_store32; [by eapply load32_mapped|done]|]. done.
Qed.

Lemma decode_handle_valid m hs p n i h :
  0 < p → load32 m p = Ok i → i ≠ kEncodedHandleInvalid → i < n →
  hs !! Z.to_nat i = Some h → 0 <= h < 2 ^ 32 →
  returns (decode_handle p n (m, Some hs)) (λ '(_, (m', hs')),
    hs' = Some (<[Z.to_nat i := MOJO_HANDLE_INVALID]> hs) ∧ wrote32 p h m m').
Proof.
  intros Hp Hl Hi Hn Hh Hr. unfold decode_handle, handles_get, handles_set.
  assert (negb (p =? 0) = true) as -> by lia.
  run_mem. cbn [snd]. run_mem. rewrite Hh. cbn [returns]. run_mem.
  eapply returns_mono; [apply returns_store32; [by eapply load32_mapped|done]|].
  intros m' Hw. run_mem. done.
Qed.

Lemma encode_handle_null m arr num used p :
  0 < p → load32 m p = Ok MOJO_HANDLE_INVALID →
  returns (encode_handle true p (m, Some (mkHandleBuffer (Some arr) num used)))
    (λ '(_, (m', hb)), hb = Some (mkHandleBuffer (Some arr) num used) ∧
      wrote32 p kEncodedHandleInvalid m m').
Proof.
  intros Hp Hl. unfold encode_handle. assert (negb (p =? 0) = true) as -> by lia.
  run_mem. cbn [snd hb_handles]. run_mem.
  eapply returns_mono; [apply returns_store32; [by eapply load32_mapped|done]|]. done.
Qed.

Lemma encode_handle_valid m arr num used p h nullable :
  0 < p → load32 m p = Ok h → h ≠ MOJO_HANDLE_INVALID →
  Z.of_nat (length arr) = num → num < 2 ^ 32 → 0 <= used < num →
  returns (encode_handle nullable p (m, Some (mkHandleBuffer (Some arr) num used)))
    (λ '(_, (m', hb)),
      hb = Some (mkHandleBuffer (Some (<[Z.to_nat used := h]> arr)) num (used + 1)) ∧
      wrote32 p used m m').
Proof.
  intros Hp Hl Hh Hlen Hnum Hused. unfold encode_handle, handles_set.
  assert (negb (p =? 0) = true) as -> by lia.
  run_mem. cbn [snd hb_handles hb_num_handles hb_num_handles_used]. run_mem.
  2: { destruct (lookup_lt_is_Some_2 arr (Z.to_nat used)); [lia|congruence]. }
  eapply returns_mono; [apply returns_store32; [by eapply load32_mapped|lia]|].
  intros m' Hw. run_mem. by rewrite u32_small by lia.
Qed.

Lemma decode_pointer_spec {H} m (hs : H) p off :
  0 < p → load64 m p = Ok off → p + off < 2 ^ 64 →
  returns (decode_pointer p (m, hs)) (λ '(_, (m', hs')),
    hs' = hs ∧ wrote64 p (if off =? 0 then 0 else p + off) m m').
Proof.
  intros Hp Hl Hlt. unfold decode_pointer. run_mem.
  all: pose proof (load64_range _ _ _ Hl); pose proof (load64_mapped _ _ _ Hl).
  - eapply returns_mono; [by apply returns_store64|]. done.
  - rewrite u64_small by lia. eapply returns_mono; [by apply returns_store64; [|lia]|]. done.
Qed.

Lemma encode_pointer_spec {H} m (hb : H) p ptr mx :
  load64 m p = Ok ptr → (ptr ≠ 0 → p < ptr ∧ ptr - p < mx ∧ 0 <= p) →
  returns (encode_pointer p mx (m, hb)) (λ '(_, (m', hb')),
    hb' = hb ∧ wrote64 p (if ptr =? 0 then 0 else ptr - p) m m').
Proof.
  intros Hl Hptr. unfold encode_pointer. run_mem.
  all: pose proof (load64_range _ _ _ Hl); pose proof (load64_mapped _ _ _ Hl).
  - eapply returns_mono; [by apply returns_store64|]. done.
  - eapply returns_mono; [by apply returns_store64; [|lia]|]. done.
Qed.

(** ** Inversion of the object validators *)

Lemma is_valid_size_inv m p vs :
  is_valid_size_for_version m p vs = Ok true →
  ∃ version nb i v, struct_version m p = Ok version ∧ struct_num_bytes m p = Ok nb ∧
    seek_version vs version (Z.to_nat (u32 (Z.of_nat (length vs) - 1))) = Ok i ∧
    vs !! i = Some v ∧ sv_num_bytes v <= nb.
Proof.
  unfold is_valid_size_for_version.
  intros (version & Hver & (i & Hi & (nb & Hnb & Hv)%bind_Ok_inv)%bind_Ok_inv)%bind_Ok_inv.
  exists version, nb, i. destruct (vs !! i) as [v|]; [|done]. exists v.
  destruct (version =? sv_version v); injection Hv as Hv; split_and!; first [done|lia].
Qed.

Lemma c_assert_inv {S A} b (k : stateR S A) s r :
  (c_assert b;; k) s = Ok r → b = true ∧ k s = Ok r.
Proof. by destruct b. Qed.

Section inversion.
Context (m : mem) (descs : desc_table) (nh : Z).
Context (vd : MojomTypeDescriptorType → desc_ptr → bool → Z → Z → Z → VM Z).

Lemma MojomStruct_Validate_inv dp p size c c' :
  MojomStruct_Validate m descs vd dp p size nh c = Ok (ok_code, c') →
  ∃ d nb, p ≠ 0 ∧ 8 <= size ∧ struct_num_bytes m p = Ok nb ∧ nb <= size ∧
    deref_struct descs dp = Ok d ∧
    is_valid_size_for_version m p (sd_versions d) = Ok true ∧
    validate_each (sd_entries d) (λ entry,
      version ← lift (struct_version m p);
      if version <? se_min_version entry then mret ok_code
      else vd (se_elem_type entry) (se_elem_descriptor entry) (se_nullable entry)
        (p + sizeof_MojomStructHeader + se_offset entry)
        (u32 (size - (p + sizeof_MojomStructHeader + se_offset entry - p))) nh)
      (mkContext (next_handle_index c) (p + nb)) = Ok (ok_code, c').
Proof.
  unfold MojomStruct_Validate. intros (_ & [Hp Hv]%c_assert_inv)%c_assert_inv.
  destruct (size <? sizeof_MojomStructHeader) eqn:Esz; [done|].
  apply bindS_Ok_inv in Hv as (nb & ? & [Hnb ->]%lift_Ok_inv & Hv).
  destruct (size <? nb) eqn:Enb; [done|].
  apply bindS_Ok_inv in Hv as (d & ? & [Hd ->]%lift_Ok_inv & Hv).
  apply bindS_Ok_inv in Hv as ([] & ? & [Hvs ->]%lift_Ok_inv & Hv); [|done].
  cbn [negb] in Hv. destruct (negb (Z.land nb 7 =? 0)); [done|].
  exists d, nb. unfold sizeof_MojomStructHeader in *.
  split_and!; [lia|lia|done|lia|done|done|]. exact Hv.
Qed.

Lemma validate_array_header_inv d p size :
  validate_array_header m d p size = Ok ok_code →
  ∃ nb n, 8 <= size ∧ array_num_bytes m p = Ok nb ∧ array_num_elements m p = Ok n ∧
    8 <= nb <= size ∧
    u64 (8 + bits_to_bytes (u64 (ad_elem_num_bits d * n))) <= nb.
Proof.
  unfold validate_array_header, sizeof_MojomArrayHeader.
  destruct (size <? 8) eqn:E1; [done|]. intros (nb & Hnb & Hv)%bind_Ok_inv.
  destruct (nb <? 8) eqn:E2; [done|]. destruct (size <? nb) eqn:E3; [done|].
  apply bind_Ok_inv in Hv as (n & Hn & Hv).
  destruct (_ && _); [done|]. destruct (nb <? u64 _) eqn:E4; [done|].
  exists nb, n. split_and!; first [done|lia].
Qed.

Lemma MojomArray_Validate_inv dp p size c c' :
  MojomArray_Validate m descs vd dp p size nh c = Ok (ok_code, c') →
  ∃ d nb n, p ≠ 0 ∧ deref_array descs dp = Ok d ∧
    validate_array_header m d p size = Ok ok_code ∧
    array_num_bytes m p = Ok nb ∧ array_num_elements m p = Ok n ∧
    if bool_decide (ad_elem_type d = POD) then
      c' = mkContext (next_handle_index c) (p + nb)
    else
      validate_each (seqZ 0 n) (λ i,
        elem_data ← lift (array_index_by_type p (ad_elem_type d) i);
        vd (ad_elem_type d) (ad_elem_descriptor d) (ad_nullable d)
          elem_data (u32 (size - u32 (elem_data - p))) nh)
      (mkContext (next_handle_index c) (p + nb)) = Ok (ok_code, c').
Proof.
  unfold MojomArray_Validate. intros (_ & [Hp Hv]%c_assert_inv)%c_assert_inv.
  apply bindS_Ok_inv in Hv as (d & ? & [Hd ->]%lift_Ok_inv & Hv).
  apply bindS_Ok_inv in Hv as (r & ? & [Hr ->]%lift_Ok_inv & Hv).
  destruct (negb (r =? ok_code)) eqn:Er; [injection Hv as -> ->; done|].
  assert (r = ok_code) as -> by lia.
  apply bindS_Ok_inv in Hv as (nb & ? & [Hnb ->]%lift_Ok_inv & Hv).
  destruct (validate_array_header_inv _ _ _ Hr) as (nb' & n & _ & _ & Hn & _).
  exists d, nb, n. split_and!; [lia|done|done|done|done|].
  apply bindS_Ok_inv in Hv as ([] & ? & [= <-] & Hv).
  destruct (bool_decide (ad_elem_type d = POD)); [by injection Hv as <-|].
  apply bindS_Ok_inv in Hv as (n' & ? & [Hn' ->]%lift_Ok_inv & Hv).
  by rewrite Hn in Hn'; injection Hn' as <-.
Qed.

Lemma MojomUnion_Validate_inv dp nullable p size c c' :
  MojomUnion_Validate m descs vd dp nullable p size nh c = Ok (ok_code, c') →
  ∃ d o, deref_union descs dp = Ok d ∧
    select_union_entry (union_tag m p) (ud_entries d) = Ok o ∧
    match o with
    | Some e => if bool_decide (ue_elem_type e = POD) then c' = c
                else vd (ue_elem_type e) (ue_elem_descriptor e) (ue_nullable e)
                  (union_data p) (u32 (size - (union_data p - p))) nh c = Ok (ok_code, c')
    | None => c' = c
    end.
Proof.
  unfold MojomUnion_Validate.
  intros (d & ? & [Hd ->]%lift_Ok_inv & Hv)%bindS_Ok_inv.
  apply bindS_Ok_inv in Hv as (o & ? & [Ho ->]%lift_Ok_inv & Hv).
  exists d, o. split_and!; [done|done|]. destruct o as [e|]; [|by injection Hv].
  destruct (bool_decide (ue_elem_type e = POD)); [by injection Hv|].
  apply bindS_Ok_inv in Hv as (sz & ? & [Hsz ->]%lift_Ok_inv & Hv).
  destruct (negb nullable && _); done.
Qed.

Lemma MojomMap_Validate_inv dp p size c c' :
  MojomMap_Validate m dp p size nh c = Ok (ok_code, c') →
  c' = c ∧ ∃ ko vo n, load64 m (p + 8) = Ok ko ∧ load64 m (p + 16) = Ok vo ∧
    array_num_elements m (p + 8 + ko) = Ok n ∧ array_num_elements m (p + 16 + vo) = Ok n.
Proof.
  unfold MojomMap_Validate, sizeof_MojomStructHeader, sizeof_MojomPointer.
  replace (p + 8 + 8) with (p + 16) by lia.
  intros (ko & ? & [Hko ->]%lift_Ok_inv & Hv)%bindS_Ok_inv.
  apply bindS_Ok_inv in Hv as (vo & ? & [Hvo ->]%lift_Ok_inv & Hv).
  apply bindS_Ok_inv in Hv as (kn & ? & [Hkn ->]%lift_Ok_inv & Hv).
  apply bindS_Ok_inv in Hv as (vn & ? & [Hvn ->]%lift_Ok_inv & Hv).
  destruct (negb (kn =? vn)) eqn:E; [done|]. injection Hv as ->.
  assert (kn = vn) as <- by lia. split; [done|]. exists ko, vo, kn. done.
Qed.
End inversion.

Lemma select_union_entry_In t l e :
  select_union_entry t l = Ok (Some e) → e ∈ l.
Proof.
  induction l as [|e' l IH]; cbn [select_union_entry]; [done|].
  intros (t' & -> & Hs)%bind_Ok_inv. destruct (negb (t' =? ue_tag e')).
  - right. by apply IH.
  - injection Hs as ->. by left.
Qed.

Section roundtrip.
Context (m : mem) (H : list Z).
Context (HH : Forall (λ h, 0 < h < 2 ^ 32) H) (Hnh : Z.of_nat (length H) < 2 ^ 32).
Abbreviation nh := (Z.of_nat (length H)).
Abbreviation restores := (restores H).

Lemma H_valid x : 0 <= x < nh → ∃ h, H !! Z.to_nat x = Some h ∧ 0 < h < 2 ^ 32.
Proof.
  intros Hx. destruct (lookup_lt_is_Some_2 H (Z.to_nat x)) as [h Hh]; [lia|].
  exists h. split; [done|]. by eapply Forall_lookup_1 in HH.
Qed.

Lemma restores_handle p nullable h c c' :
  0 < p → load32 m p = Ok h → 0 <= next_handle_index c →
  validate_handle h nh nullable c = Ok (ok_code, c') →
  ∃ k, restores empty (range p (p + 4)) m (next_handle_index c) (next_handle_index c') k
    (decode_handle p nh) (encode_handle nullable p).
Proof.
  intros Hp Hload Hi (_ & Hv)%validate_handle_inv.
  pose proof (load32_range _ _ _ Hload) as Hhr.
  pose proof (load32_mapped _ _ _ Hload) as Hmap.
  assert (kEncodedHandleInvalid = 4294967295) as Hk by done.
  assert (∀ m2, agree_on (union empty (range p (p + 4))) m m2 → load32 m2 p = Ok h) as Hl2.
  { intros m2 Hm. rewrite <- (load32_agree m m2); [done|].
    intros x Hx. apply Hm. by right. }
  destruct (h =? kEncodedHandleInvalid) eqn:E.
  - destruct Hv as [-> ->]. exists 0. split_and!; [done|lia|lia|].
    intros m2 hs Hm Hlen Hh. assert (h = kEncodedHandleInvalid) as -> by lia.
    destruct (returns_Ok_inv _ _ (decode_handle_null m2 hs p nh Hp (Hl2 _ Hm)))
      as ([[] [m2' hs']] & -> & -> & Hw & Hf).
    exists m2', hs. split_and!; [done|done|done|done|].
    intros m3 arr num used Hm3 Hlen3 Hnum Hused Hroom.
    assert (load32 m3 p = Ok MOJO_HANDLE_INVALID) as Hl3.
    { rewrite <- (load32_agree m2' m3); [done|]. intros x Hx. apply Hm3. by right. }
    destruct (returns_Ok_inv _ _ (encode_handle_null m3 arr num used p Hp Hl3))
      as ([[] [m3' hb']] & -> & -> & Hw3 & Hf3).
    exists m3', arr. rewrite Z.add_0_r. split_and!; [done|done|done|done|].
    intros _ _. split; [by eapply load32_inj|]. intros x Hx. lia.
  - destruct Hv as (Hlt & Hge & Hnext). exists 1.
    rewrite u32_small in Hnext by lia. rewrite Hnext.
    split_and!; [done|lia|lia|].
    intros m2 hs Hm Hlen Hh.
    destruct (H_valid h ltac:(lia)) as (v & Hv & Hvr).
    assert (hs !! Z.to_nat h = Some v) as Hhs by (rewrite <- Hh by lia; done).
    destruct (returns_Ok_inv _ _ (decode_handle_valid m2 hs p nh h v Hp (Hl2 _ Hm)
      ltac:(lia) Hlt Hhs ltac:(lia))) as ([[] [m2' hs']] & -> & -> & Hw & Hf).
    eexists m2', _. split_and!; [done|done|by rewrite length_insert| |].
    { intros x Hx0 Hx. rewrite list_lookup_insert_ne by lia. done. }
    intros m3 arr num used Hm3 Hlen3 Hnum Hused Hroom.
    assert (load32 m3 p = Ok v) as Hl3.
    { rewrite <- (load32_agree m2' m3); [done|]. intros x Hx. apply Hm3. by right. }
    destruct (returns_Ok_inv _ _ (encode_handle_valid m3 arr num used p v nullable Hp Hl3
      ltac:(unfold MOJO_HANDLE_INVALID; lia) Hlen3 Hnum ltac:(lia)))
      as ([[] [m3' hb']] & -> & -> & Hw3 & Hf3).
    eexists m3', _. split_and!; [done|done|by rewrite length_insert| |].
    { intros x Hx. rewrite list_lookup_insert_ne by lia. done. }
    intros -> Hone. assert (h = next_handle_index c) as Heq by lia. split.
    { rewrite <- Heq in Hw3. by eapply load32_inj. }
    intros x Hx. assert (x = h) as -> by lia. rewrite Hv, <- Heq.
    rewrite list_lookup_insert_eq by lia. done.
Qed.

(** A pointer slot and the object behind it, as the dispatchers treat them. *)
Definition decode_slot (p size : Z) (nullable : bool) (obj : Z → DM unit) : DM unit :=
  decode_pointer p;;
  ptr ← read (λ m, load64 m p);
  c_assert ((ptr =? 0) || (ptr <? p + size));;
  if negb nullable || negb (ptr =? 0) then obj ptr else mret tt.
Definition encode_slot (p size : Z) (nullable : bool) (obj : Z → EM unit) : EM unit :=
  ptr ← read (λ m, load64 m p);
  encode_pointer p size;;
  if negb nullable || negb (ptr =? 0) then obj ptr else mret tt.

Lemma restores_null_slot p size dobj eobj i :
  0 < p < 2 ^ 64 → 0 <= i → load64 m p = Ok 0 →
  restores empty (range p (p + 8)) m i i 0
    (decode_slot p size true dobj) (encode_slot p size true eobj).
Proof.
  intros Hp Hi Hl. split_and!; [done|lia|lia|].
  intros m2 hs Hm Hlen Hh.
  assert (load64 m2 p = Ok 0) as Hl2.
  { rewrite <- (load64_agree m m2); [done|]. intros x Hx. apply Hm. by right. }
  assert (returns (decode_slot p size true dobj (m2, Some hs))
    (λ '(_, (m2', hs')), hs' = Some hs ∧ wrote64 p 0 m2 m2')) as Hdec.
  { unfold decode_slot. run_mem.
    eapply returns_mono; [eapply decode_pointer_spec; [lia|done|lia]|].
    intros [[] [m2' hs']] [-> [Hw Hf]]. cbn in Hw. run_mem. done. }
  apply returns_Ok_inv in Hdec as ([[] [m2' hs']] & -> & -> & Hw & Hf).
  exists m2', hs. split_and!; [done|done|done|done|].
  intros m3 arr num used Hm3 Hlen3 Hnum Hused Hroom.
  assert (load64 m3 p = Ok 0) as Hl3.
  { rewrite <- (load64_agree m2' m3); [done|]. intros x Hx. apply Hm3. by right. }
  assert (returns (encode_slot p size true eobj (m3, Some (mkHandleBuffer (Some arr) num used)))
    (λ '(_, (m3', hb)), hb = Some (mkHandleBuffer (Some arr) num used) ∧ wrote64 p 0 m3 m3'))
    as Henc.
  { unfold encode_slot. run_mem.
    eapply returns_mono; [eapply encode_pointer_spec; [done|lia]|].
    intros [[] [m3' hb']] [-> [Hw3 Hf3]]. cbn in Hw3. run_mem. done. }
  apply returns_Ok_inv in Henc as ([[] [m3' hb']] & -> & -> & Hw3 & Hf3).
  exists m3', arr. rewrite Z.add_0_r. split_and!; [done|done|done|done|].
  intros _ _. split; [by eapply load64_inj|]. intros x Hx. lia.
Qed.

Lemma restores_full_slot p size nullable off hi i j k dobj eobj :
  0 < p → p + size <= 2 ^ 64 → load64 m p = Ok off → 8 <= off < size →
  restores empty (range (p + off) hi) m i j k (dobj (p + off)) (eobj (p + off)) →
  restores empty (union (range p (p + 8)) (range (p + off) hi)) m i j k
    (decode_slot p size nullable dobj) (encode_slot p size nullable eobj).
Proof.
  intros Hp Hsize Hl Hoff (Hi & Hk & Hr). split_and!; [done|lia|lia|].
  assert (∀ x, range (p + off) hi x → ¬ range p (p + 8) x) as Hdisj.
  { intros x Hx Hx'. unfold range in *. lia. }
  intros m2 hs Hm Hlen Hh.
  assert (load64 m2 p = Ok off) as Hl2.
  { rewrite <- (load64_agree m m2); [done|]. intros x Hx. apply Hm. right. by left. }
  destruct (returns_Ok_inv _ _ (decode_pointer_spec m2 (Some hs) p off Hp Hl2 ltac:(lia)))
    as ([[] [m2a hsa]] & Hdp & -> & Hw & Hf). rewrite (proj2 (Z.eqb_neq off 0)) in Hw by lia.
  destruct (Hr m2a hs) as (m2' & hs' & Hdobj & Hout & Hl' & Hho & Henc); [|done|done|].
  { intros x [[]|Hx]. rewrite <- Hf by (by apply Hdisj). apply Hm. right. by right. }
  assert (load64 m2' p = Ok (p + off)) as Hw'.
  { rewrite <- (load64_agree m2a m2'); [done|]. intros x Hx. apply Hout.
    intros Hx'. by eapply Hdisj. }
  exists m2', hs'. split_and!.
  - unfold decode_slot. rewrite (bindS_Ok _ _ _ _ _ Hdp).
    unfold read, get_mem, mbind, stateR_bind, lift. cbn [fst snd]. rewrite Hw.
    replace ((p + off =? 0) || (p + off <? p + size)) with true by lia. cbn.
    by replace (negb nullable || negb (p + off =? 0)) with true by (destruct nullable; lia).
  - intros x Hx. rewrite Hf, Hout; [done| |]; intros ?; apply Hx; [by right|by left].
  - done.
  - done.
  - intros m3 arr num used Hm3 Hlen3 Hnum Hused Hroom.
    assert (load64 m3 p = Ok (p + off)) as Hl3.
    { rewrite <- (load64_agree m2' m3); [done|]. intros x Hx. apply Hm3. right. by left. }
    destruct (returns_Ok_inv _ _ (encode_pointer_spec m3
      (Some (mkHandleBuffer (Some arr) num used)) p (p + off) size Hl3 ltac:(lia)))
      as ([[] [m3a hba]] & Hep & -> & Hw3 & Hf3).
    rewrite (proj2 (Z.eqb_neq (p + off) 0)) in Hw3 by lia.
    replace (p + off - p) with off in Hw3 by lia.
    destruct (Henc m3a arr num used) as (m3' & arr' & Heobj & Hout3 & Hla & Hpre & Hres);
      [|done|done|done|done|].
    { intros x [[]|Hx]. rewrite <- Hf3 by (by apply Hdisj). apply Hm3. right. by right. }
    exists m3', arr'. split_and!.
    + unfold encode_slot, read, get_mem, mbind, stateR_bind, lift. cbn [fst snd]. rewrite Hl3.
      rewrite Hep.
      by replace (negb nullable || negb (p + off =? 0)) with true by (destruct nullable; lia).
    + intros x Hx. rewrite Hf3, Hout3; [done| |]; intros ?; apply Hx; [by right|by left].
    + done.
    + done.
    + intros Hu Hkk. destruct (Hres Hu Hkk) as [Hm' Ha]. split; [|done].
      intros x [Hx|Hx]; [|by apply Hm'].
      rewrite (load64_inj _ _ _ _ Hl Hw3 x Hx). apply Hout3.
      intros Hx'. by eapply Hdisj.
Qed.

(** *** The interface between the dispatchers *)
Context (descs : desc_table) (Hwf : wf_descs descs = true) (Hlay : wf_layout descs = true).
Context (base endp : Z).
Context (Hbase : 0 < base) (Hend : endp - base < 2 ^ 32) (Hend64 : endp <= 2 ^ 64).

Abbreviation vdispatch := (MojomTypeDescriptorType → desc_ptr → bool → Z → Z → Z → VM Z).
Abbreviation ddispatch := (MojomTypeDescriptorType → desc_ptr → bool → Z → Z → Z → DM unit).
Abbreviation edispatch := (MojomTypeDescriptorType → desc_ptr → bool → Z → Z → EM unit).

(** A slot that the validating dispatcher accepted is decoded and encoded
    back by the other two, within the slot and the part of the buffer the
    validation claimed. *)
Class RestoringDispatch (vd : vdispatch) (dd : ddispatch) (ed : edispatch) : Prop :=
  restoring_dispatch : ∀ t d nullable p c c',
    wf_elem descs t d = true → t ≠ POD → base <= p → p + elem_size t <= endp →
    p + elem_size t <= next_pointer c → 0 <= next_handle_index c →
    vd t d nullable p (endp - p) nh c = Ok (ok_code, c') →
    next_pointer c <= next_pointer c' ∧
    ∃ k, restores empty
      (union (range p (p + elem_size t)) (range (next_pointer c) (next_pointer c'))) m
      (next_handle_index c) (next_handle_index c') k
      (dd t d nullable p (endp - p) nh) (ed t d nullable p (endp - p)).

(** What holds of a whole object at [p] that validated from [c] to [c']. *)
Definition object_restores (p : Z) (c c' : MojomValidationContext)
    (dec : DM unit) (enc : EM unit) : Prop :=
  p + 8 <= endp ∧ p + 8 <= next_pointer c' ∧
  ∃ k, restores empty (range p (next_pointer c')) m
    (next_handle_index c) (next_handle_index c') k dec enc.

(** The part of a struct at [p] that a field present in version [ver] occupies. *)
Definition active_slot (ver p : Z) (e : MojomTypeDescriptorStructEntry) (x : Z) : Prop :=
  (se_min_version e <=? ver) = true ∧
  range (p + 8 + se_offset e) (p + 8 + se_offset e + elem_size (se_elem_type e)) x.

#[export] Instance active_slot_dec ver p e : DecRegion (active_slot ver p e).
Proof. intros x. unfold active_slot. apply _. Defined.

(** The size check of the validator and the table's well-formedness give every
    field of the message's version its place in the struct. *)
Lemma struct_fields_fit dp d p ver nb :
  deref_struct descs dp = Ok d → struct_version m p = Ok ver → struct_num_bytes m p = Ok nb →
  is_valid_size_for_version m p (sd_versions d) = Ok true →
  8 <= nb ∧ ∀ e, e ∈ sd_entries d → se_min_version e <= ver →
    0 <= se_offset e ∧ 8 + se_offset e + elem_size (se_elem_type e) <= nb ∧
    wf_elem descs (se_elem_type e) (se_elem_descriptor e) = true ∧ se_elem_type e ≠ POD.
Proof.
  intros Hd Hver Hnb (ver' & nb' & i & v & Hver' & Hnb' & Hseek & Hvi & Hle)%is_valid_size_inv.
  rewrite Hver in Hver'. injection Hver' as <-. rewrite Hnb in Hnb'. injection Hnb' as <-.
  pose proof (deref_struct_wf descs Hwf _ _ Hd) as Hds.
  unfold wf_struct in Hds. apply andb_true_iff in Hds as [Hwvs Hes].
  rewrite forallb_forall in Hes. split.
  - unfold wf_versions in Hwvs. rewrite !andb_true_iff, forallb_forall in Hwvs.
    destruct Hwvs as [_ Hvs]. specialize (Hvs v).
    assert (8 <= sv_num_bytes v); [|lia]. rewrite <- Z.leb_le.
    apply Hvs, list_elem_of_In, list_elem_of_lookup; eauto.
  - intros e He Ha. apply list_elem_of_In in He. specialize (Hes e He).
    assert (Hfit := wf_entry_fits _ _ _ _ _ _ Hwvs Hes Hseek Hvi Ha).
    unfold wf_entry in Hes. rewrite !andb_true_iff, negb_true_iff, bool_decide_eq_false in Hes.
    unfold sizeof_MojomStructHeader in *. destruct Hes as [[[[? ?] ?] _] _].
    split_and!; first [done|lia].
Qed.

(** The bodies of the field loops of the decoder and of the encoder. *)
Definition decode_field (dd : ddispatch) (p : Z) (e : MojomTypeDescriptorStructEntry) : DM unit :=
  version ← read (λ m, struct_version m p);
  if version <? se_min_version e then mret tt
  else
  c_assert (sizeof_MojomStructHeader + se_offset e <? endp - p);;
  dd (se_elem_type e) (se_elem_descriptor e) (se_nullable e)
    (p + sizeof_MojomStructHeader + se_offset e)
    (u32 (endp - p - (p + sizeof_MojomStructHeader + se_offset e - p))) nh.

Definition encode_field (ed : edispatch) (p : Z) (e : MojomTypeDescriptorStructEntry) : EM unit :=
  version ← read (λ m, struct_version m p);
  if version <? se_min_version e then mret tt
  else
  c_assert (sizeof_MojomStructHeader + se_offset e <? endp - p);;
  ed (se_elem_type e) (se_elem_descriptor e) (se_nullable e)
    (p + sizeof_MojomStructHeader + se_offset e)
    (u32 (endp - p - (p + sizeof_MojomStructHeader + se_offset e - p))).

Lemma struct_field_restores vd dd ed `{!RestoringDispatch vd dd ed} p ver nb e c1 c2 :
  base <= p → struct_version m p = Ok ver → p + nb <= endp → p + nb <= next_pointer c1 →
  8 <= nb → 0 <= next_handle_index c1 →
  (se_min_version e <= ver → 0 <= se_offset e ∧
    8 + se_offset e + elem_size (se_elem_type e) <= nb ∧
    wf_elem descs (se_elem_type e) (se_elem_descriptor e) = true ∧ se_elem_type e ≠ POD) →
  (version ← lift (struct_version m p);
   if version <? se_min_version e then mret ok_code
   else vd (se_elem_type e) (se_elem_descriptor e) (se_nullable e)
     (p + sizeof_MojomStructHeader + se_offset e)
     (u32 (endp - p - (p + sizeof_MojomStructHeader + se_offset e - p))) nh) c1
    = Ok (ok_code, c2) →
  next_pointer c1 <= next_pointer c2 ∧
  ∃ k, restores (range p (p + 8))
    (union (active_slot ver p e) (range (next_pointer c1) (next_pointer c2))) m
    (next_handle_index c1) (next_handle_index c2) k
    (decode_field dd p e) (encode_field ed p e).
Proof.
  unfold decode_field, encode_field.
  intros Hp Hver Hend' Hlim Hnb8 Hi1 Hfits Hve. rewrite (bind_lift_Ok _ ver) in Hve by done.
  assert (∀ m', agree_on (range p (p + 8)) m m' → struct_version m' p = Ok ver) as Hver2.
  { intros m' Hm'. unfold struct_version. rewrite <- Hver. symmetry.
    apply load32_agree. eapply agree_on_sub; [done|]. unfold range. lia. }
  destruct (ver <? se_min_version e) eqn:Eact.
  - injection Hve as <-. split; [lia|]. exists 0.
    apply (restores_read _ _ _ _ _ _ _ _ ver); [|intros x Hx [[Ha _]|Hy]|done].
    + rewrite Eact. by apply restores_ret.
    + lia.
    + unfold range in *; lia.
  - destruct (Hfits ltac:(lia)) as (Hoff & Hfit & Hwe & Hpod).
    unfold sizeof_MojomStructHeader in *. pose proof (elem_size_pos _ Hpod).
    rewrite u32_small in Hve |- * by lia.
    replace (endp - p - (p + 8 + se_offset e - p)) with (endp - (p + 8 + se_offset e))
      in Hve |- * by lia.
    apply restoring_dispatch in Hve as (Hmono & k & Hr); [|done|done|lia|lia|lia|done].
    split; [done|]. exists k.
    apply (restores_read _ _ _ _ _ _ _ _ ver);
      [|intros x Hx [[_ Hy]|Hy]; unfold range in *; lia|done].
    rewrite Eact. apply restores_assert; [|lia|lia].
    apply (restores_weaken _ _ _ _ _ _ _ _ _ _ _ Hr); [by intros x []|].
    intros x [Hx|Hx]; [left; split; [lia|done]|by right].
Qed.

Lemma MojomStruct_restores vd dd ed `{!RestoringDispatch vd dd ed} dp d p c c' :
  deref_struct descs dp = Ok d → base <= p <= endp → 0 <= next_handle_index c →
  MojomStruct_Validate m descs vd dp p (endp - p) nh c = Ok (ok_code, c') →
  object_restores p c c'
    (MojomStruct_DecodePointersAndHandles descs dd dp p (endp - p) nh)
    (MojomStruct_EncodePointersAndHandles descs ed dp p (endp - p)).
Proof.
  intros Hd Hp Hi Hv.
  apply MojomStruct_Validate_inv in Hv
    as (d' & nb & Hp0 & Hsz & Hnb & Hnbs & Hd' & Hvs & Hloop).
  rewrite Hd in Hd'. injection Hd' as <-.
  assert (∃ ver, struct_version m p = Ok ver) as [ver Hver]
    by (apply is_valid_size_inv in Hvs as (? & ? & ? & ? & ? & _); eauto).
  destruct (struct_fields_fit dp d p ver nb) as [Hnb8 Hfits]; [done..|].
  assert (∀ x, range p (p + 8) x → x < p + nb) as Hhd by (unfold range; lia).
  destruct (restores_for_each H _ (active_slot ver p) m (p + nb) _
    (decode_field dd p) (encode_field ed p) Hhd _ _ _ Hloop) as (Hmono & k & Hr).
  - intros e c1 c2 He Hlim Hi1 Hve.
    apply (struct_field_restores vd dd ed p ver nb); (lia || auto).
  - cbn. lia.
  - done.
  - intros e He. split; [intros x Hx [Ha Hy]|intros x [Ha Hy]];
      apply Z.leb_le in Ha; destruct (Hfits e He Ha) as (? & ? & _); unfold range in *; lia.
  - by apply (disjoint_entries_pairs _ (p + 8) (λ e, se_min_version e <=? ver)),
      (deref_struct_layout descs Hlay dp).
  - cbn [next_pointer next_handle_index] in *. unfold object_restores.
    split_and!; [lia|lia|]. exists k.
    eapply restores_weaken with (K' := empty) (FP' := range p (next_pointer c')) in Hr.
    + assert (desc_nonnull dp = true) as Hdp by (by destruct dp).
      assert (negb (p =? 0) = true) as Hp' by lia.
      assert ((sizeof_MojomStructHeader <=? endp - p) = true) as Hhs
        by (unfold sizeof_MojomStructHeader; lia).
      eapply restores_ext; [exact Hr| |].
      * intros m2 hs. unfold MojomStruct_DecodePointersAndHandles.
        rewrite Hdp, Hp'. cbn. by rewrite Hd.
      * intros m2 hb. unfold MojomStruct_EncodePointersAndHandles.
        rewrite Hdp, Hp', Hhs. cbn. by rewrite Hd.
    + apply _.
    + intros x Hx. right. unfold range in *. lia.
    + intros x [(e & He & Ha & Hx)%Exists_exists|Hx]; [|unfold range in *; lia].
      apply Z.leb_le in Ha. destruct (Hfits e He Ha) as (? & ? & _). unfold range in *. lia.
Qed.

(** The element loop of an array, with its bound re-read from the header. *)
Lemma restores_for_each_element K FP p n i j k dbody ebody :
  restores K FP m i j k
    (for_each (seqZ 0 n) (λ i, num ← read (λ m, array_num_elements m p);
       if num <=? i then mret tt else dbody i))
    (for_each (seqZ 0 n) (λ i, num ← read (λ m, array_num_elements m p);
       if num <=? i then mret tt else ebody i)) →
  DecRegion FP → disjoint K FP →
  (∀ m', agree_on K m m' → array_num_elements m' p = Ok n) →
  restores K FP m i j k (for_each_element p n dbody) (for_each_element p n ebody).
Proof.
  intros Hr HFP Hdis Hn. unfold for_each_element.
  assert (0 <= j) as Hj by (destruct Hr as (? & ? & _); lia).
  assert (restores K empty m j j 0
    (num ← read (λ m, array_num_elements m p);
     if n <? num then crash OutOfFuel else mret tt)
    (num ← read (λ m, array_num_elements m p);
     if n <? num then crash OutOfFuel else mret tt)) as Hr2.
  { apply (restores_read H _ _ _ _ _ _ _ n); [|by intros x _ []|done].
    rewrite Z.ltb_irrefl. by apply restores_ret. }
  replace k with (k + 0) by lia.
  eapply restores_weaken;
    [|exact (restores_seq H _ _ _ _ _ _ _ _ _ _ _ _ _ Hr Hr2 ltac:(by intros x _ [])
        Hdis ltac:(by intros x _ []))|by left|by intros x [Hx|[]]].
  apply _.
Qed.

(** The bodies of the element loops of the decoder and of the encoder. *)
Definition decode_elem (dd : ddispatch) (d : MojomTypeDescriptorArray) (p i : Z) : DM unit :=
  elem_data ← lift (array_index_by_type p (ad_elem_type d) i);
  c_assert (elem_data <? p + (endp - p));;
  dd (ad_elem_type d) (ad_elem_descriptor d) (ad_nullable d)
    elem_data (u32 (endp - p - u32 (elem_data - p))) nh.

Definition encode_elem (ed : edispatch) (d : MojomTypeDescriptorArray) (p i : Z) : EM unit :=
  elem_data ← lift (array_index_by_type p (ad_elem_type d) i);
  c_assert (elem_data <? p + (endp - p));;
  ed (ad_elem_type d) (ad_elem_descriptor d) (ad_nullable d)
    elem_data (u32 (endp - p - u32 (elem_data - p))).

(** The bytes of the [i]th element. *)
Abbreviation elem_range d p i :=
  (range (p + 8 + elem_size (ad_elem_type d) * i)
    (p + 8 + elem_size (ad_elem_type d) * i + elem_size (ad_elem_type d))).

Lemma array_elem_restores vd dd ed `{!RestoringDispatch vd dd ed} d p nb n i c1 c2 :
  wf_elem descs (ad_elem_type d) (ad_elem_descriptor d) = true → ad_elem_type d ≠ POD →
  base <= p → p + nb <= endp → p + nb <= next_pointer c1 → 0 <= next_handle_index c1 →
  8 + elem_size (ad_elem_type d) * n <= nb → 0 <= i < n →
  (∀ m', agree_on (range p (p + 8)) m m' → array_num_elements m' p = Ok n) →
  (elem_data ← lift (array_index_by_type p (ad_elem_type d) i);
   vd (ad_elem_type d) (ad_elem_descriptor d) (ad_nullable d)
     elem_data (u32 (endp - p - u32 (elem_data - p))) nh) c1 = Ok (ok_code, c2) →
  next_pointer c1 <= next_pointer c2 ∧
  ∃ k, restores (range p (p + 8))
    (union (elem_range d p i) (range (next_pointer c1) (next_pointer c2))) m
    (next_handle_index c1) (next_handle_index c2) k
    (num ← read (λ m, array_num_elements m p); if num <=? i then mret tt else decode_elem dd d p i)
    (num ← read (λ m, array_num_elements m p); if num <=? i then mret tt else encode_elem ed d p i).
Proof.
  intros Hwe Hpod Hp Hpe Hlim Hi1 Hfit Hi Hn Hve. unfold decode_elem, encode_elem.
  pose proof (elem_size_pos _ Hpod) as Hes.
  assert (ad_elem_type d ≠ UNION_PTR) as Hup by (intros E; by rewrite E in Hwe).
  rewrite (array_index_safe p) in Hve |- * by done.
  set (es := elem_size (ad_elem_type d)) in *.
  rewrite (bind_lift_Ok _ (p + 8 + es * i)) in Hve by done.
  rewrite (u32_small (_ - p)) in Hve by nia. rewrite u32_small in Hve by nia.
  replace (endp - p - (p + 8 + es * i - p)) with (endp - (p + 8 + es * i)) in Hve by lia.
  apply restoring_dispatch in Hve as (Hmono & k & Hr); [|done|done|nia|fold es; nia..|done].
  split; [done|]. exists k.
  apply (restores_read _ _ _ _ _ _ _ _ n); [|intros x Hx [Hy|Hy]; unfold range in *; nia|done].
  replace (n <=? i) with false by lia. apply restores_lift.
  rewrite (u32_small (_ - p)) by nia. rewrite u32_small by nia.
  replace (endp - p - (p + 8 + es * i - p)) with (endp - (p + 8 + es * i)) by lia.
  apply restores_assert; [|nia|nia].
  apply (restores_weaken _ _ _ _ _ _ _ _ _ _ _ Hr); [by intros x []|done].
Qed.

(** The loop over the elements, or nothing for plain data. *)
Lemma array_loop_restores vd dd ed `{!RestoringDispatch vd dd ed} dp d p nb n c c' :
  deref_array descs dp = Ok d → base <= p → p + nb <= endp → 0 <= next_handle_index c →
  8 <= nb → 0 <= n →
  8 + elem_size (ad_elem_type d) * n <= nb →
  (∀ m', agree_on (range p (p + 8)) m m' → array_num_elements m' p = Ok n) →
  (if bool_decide (ad_elem_type d = POD) then c' = mkContext (next_handle_index c) (p + nb)
   else validate_each (seqZ 0 n) (λ i,
        elem_data ← lift (array_index_by_type p (ad_elem_type d) i);
        vd (ad_elem_type d) (ad_elem_descriptor d) (ad_nullable d)
          elem_data (u32 (endp - p - u32 (elem_data - p))) nh)
      (mkContext (next_handle_index c) (p + nb)) = Ok (ok_code, c')) →
  p + nb <= next_pointer c' ∧ ∃ k, restores (range p (p + 8))
    (range (p + 8) (next_pointer c')) m (next_handle_index c) (next_handle_index c') k
    (if bool_decide (ad_elem_type d = POD) then mret tt
     else for_each_element p n (decode_elem dd d p))
    (if bool_decide (ad_elem_type d = POD) then mret tt
     else for_each_element p n (encode_elem ed d p)).
Proof.
  intros Hd Hp Hpe Hi Hnb8 Hn0 Hfit Hn Hloop.
  destruct (bool_decide (ad_elem_type d = POD)) eqn:Epod.
  { subst c'. cbn. split; [lia|]. exists 0. by apply restores_ret. }
  apply bool_decide_eq_false in Epod.
  pose proof (deref_array_wf descs Hwf _ _ Hd) as Hda.
  unfold wf_array in Hda. rewrite !andb_true_iff in Hda. destruct Hda as [[Hwe _] _].
  pose proof (elem_size_pos _ Epod) as Hes.
  assert (∀ x, range p (p + 8) x → x < p + nb) as Hhd by (unfold range; lia).
  destruct (restores_for_each H _ (λ i, elem_range d p i) m (p + nb) _
    (λ i, num ← read (λ m, array_num_elements m p);
       if num <=? i then mret tt else decode_elem dd d p i)
    (λ i, num ← read (λ m, array_num_elements m p);
       if num <=? i then mret tt else encode_elem ed d p i)
    Hhd _ _ _ Hloop) as (Hmono & k & Hr).
  - intros i c1 c2 [Hi0 Hin]%elem_of_seqZ Hlim Hi1 Hve.
    apply (array_elem_restores vd dd ed d p nb n); (done || lia).
  - cbn. lia.
  - done.
  - intros i [Hi0 Hin]%elem_of_seqZ. split; intros x Hx; unfold range in *; nia.
  - apply seqZ_pairs. intros a b Ha Hb x Hx Hy. unfold range in *. nia.
  - cbn [next_pointer next_handle_index] in *. split; [lia|]. exists k.
    assert (∀ x, union (λ x, Exists (λ i, elem_range d p i x) (seqZ 0 n))
      (range (p + nb) (next_pointer c')) x → range (p + 8) (next_pointer c') x) as Hsub.
    { intros x [(i & Hi'%elem_of_seqZ & Hx)%Exists_exists|Hx]; unfold range in *; nia. }
    eapply restores_weaken;
      [|eapply restores_for_each_element; [exact Hr| | |done]|by left|exact Hsub]; try apply _.
    intros x Hx Hy%Hsub. unfold range in *. lia.
Qed.

Lemma MojomArray_restores vd dd ed `{!RestoringDispatch vd dd ed} dp d p c c' :
  deref_array descs dp = Ok d → base <= p <= endp → 0 <= next_handle_index c →
  MojomArray_Validate m descs vd dp p (endp - p) nh c = Ok (ok_code, c') →
  object_restores p c c'
    (MojomArray_DecodePointersAndHandles descs dd dp p (endp - p) nh)
    (MojomArray_EncodePointersAndHandles descs ed dp p (endp - p)).
Proof.
  intros Hd Hp Hi Hv.
  apply MojomArray_Validate_inv in Hv as (d' & nb & n & Hp0 & Hd' & Hhdr & Hnb & Hn & Hloop).
  rewrite Hd in Hd'. injection Hd' as <-.
  apply validate_array_header_inv in Hhdr as (nb' & n' & Hsz & Hnb' & Hn' & Hnbs & Hfit).
  rewrite Hnb in Hnb'. injection Hnb' as <-. rewrite Hn in Hn'. injection Hn' as <-.
  pose proof (load32_range _ _ _ Hn) as Hnr.
  apply (array_elements_fit descs) in Hfit; [|by eapply deref_array_wf|done].
  assert (∀ m', agree_on (range p (p + 8)) m m' →
    array_num_bytes m' p = Ok nb ∧ array_num_elements m' p = Ok n) as Hhd2.
  { intros m' Hm. rewrite <- Hnb, <- Hn. split; symmetry; apply load32_agree;
      (eapply agree_on_sub; [done|]; unfold range; lia). }
  apply (array_loop_restores vd dd ed dp d) in Hloop as (Hge & k & Hr);
    [|done|lia|lia|done|lia|lia|done|by intros; apply Hhd2].
  unfold object_restores. split_and!; [lia|lia|]. exists k.
  apply (restores_weaken _ (range p (p + 8)) (range (p + 8) (next_pointer c')));
    [|intros x Hx; right; unfold range in *; lia|intros x Hx; unfold range in *; lia].
  assert (disjoint (range p (p + 8)) (range (p + 8) (next_pointer c'))) as Hdisj.
  { intros x Hx Hy. unfold range in *. lia. }
  set (loop S (body : Z → stateR (mem * S) unit) :=
    if bool_decide (ad_elem_type d = POD) then mret tt else
    n ← read (λ m, array_num_elements m p); for_each_element p n body).
  assert (restores (range p (p + 8)) (range (p + 8) (next_pointer c')) m
    (next_handle_index c) (next_handle_index c') k (loop _ (decode_elem dd d p))
    (nb ← read (λ m, array_num_bytes m p); c_assert (nb <=? endp - p);;
     loop _ (encode_elem ed d p))) as Hr'.
  { apply (restores_enc_read _ _ _ _ _ _ _ _ nb); [|done|by intros; apply Hhd2].
    assert ((nb <=? endp - p) = true) as -> by lia. unfold loop.
    destruct (bool_decide (ad_elem_type d = POD)); [exact Hr|].
    apply (restores_read _ _ _ _ _ _ _ _ n); [done|done|by intros; apply Hhd2]. }
  assert (desc_nonnull dp = true) as Hdp by (by destruct dp).
  assert (negb (p =? 0) = true) as Hp' by lia.
  eapply restores_ext; [exact Hr'| |].
  - intros m2 hs. unfold MojomArray_DecodePointersAndHandles. by rewrite Hp', Hdp, Hd.
  - intros m2 hb. unfold MojomArray_EncodePointersAndHandles.
    assert ((sizeof_MojomArrayHeader <=? endp - p) = true) as ->
      by (unfold sizeof_MojomArrayHeader; lia).
    by rewrite Hp', Hdp, Hd.
Qed.

(** The member the tag of a union at [p] selects, decoded and encoded. *)
Definition decode_member (dd : ddispatch) (p : Z) (o : option MojomTypeDescriptorUnionEntry)
    : DM unit :=
  match o with
  | None => mret tt
  | Some entry =>
      if bool_decide (ue_elem_type entry = POD) then mret tt
      else dd (ue_elem_type entry) (ue_elem_descriptor entry) (ue_nullable entry)
        (union_data p) (u32 (endp - p - (union_data p - p))) nh
  end.

Definition encode_member (ed : edispatch) (p : Z) (o : option MojomTypeDescriptorUnionEntry)
    : EM unit :=
  match o with
  | None => mret tt
  | Some entry =>
      if bool_decide (ue_elem_type entry = POD) then mret tt
      else ed (ue_elem_type entry) (ue_elem_descriptor entry) (ue_nullable entry)
        (union_data p) (u32 (endp - p - (union_data p - p)))
  end.

Lemma union_member_restores vd dd ed `{!RestoringDispatch vd dd ed} dp d p o c c' :
  deref_union descs dp = Ok d → base <= p → p + 16 <= endp →
  p + 16 <= next_pointer c → 0 <= next_handle_index c →
  select_union_entry (union_tag m p) (ud_entries d) = Ok o →
  match o with
  | Some e => if bool_decide (ue_elem_type e = POD) then c' = c
              else vd (ue_elem_type e) (ue_elem_descriptor e) (ue_nullable e)
                (union_data p) (u32 (endp - p - (union_data p - p))) nh c = Ok (ok_code, c')
  | None => c' = c
  end →
  next_pointer c <= next_pointer c' ∧
  ∃ k, restores (range p (p + 8))
    (union (range (p + 8) (p + 16)) (range (next_pointer c) (next_pointer c'))) m
    (next_handle_index c) (next_handle_index c') k (decode_member dd p o) (encode_member ed p o).
Proof.
  intros Hd Hp Hpe Hc Hi Ho Hv. unfold decode_member, encode_member.
  destruct o as [e|]; [|subst c'; split; [lia|exists 0; by apply restores_ret]].
  destruct (bool_decide (ue_elem_type e = POD)) eqn:Epod.
  { subst c'. split; [lia|]. exists 0. by apply restores_ret. }
  apply bool_decide_eq_false in Epod.
  pose proof (select_union_entry_In _ _ _ Ho) as He.
  pose proof (deref_union_wf descs Hwf _ _ Hd) as Hdu.
  unfold wf_union in Hdu. rewrite forallb_forall in Hdu.
  apply list_elem_of_In, Hdu in He. apply andb_true_iff in He as [Hwe Hnu].
  apply negb_true_iff, bool_decide_eq_false in Hnu.
  assert (elem_size (ue_elem_type e) <= 8) as Hes
    by (unfold elem_size; destruct (ue_elem_type e); first [done|lia]).
  unfold union_data in *. rewrite u32_small in Hv |- * by lia.
  replace (endp - p - (p + 8 - p)) with (endp - (p + 8)) in * by lia.
  apply restoring_dispatch in Hv as (Hmono & k & Hr); [|done|done|lia|lia|lia|done].
  split; [done|]. exists k.
  apply (restores_weaken _ _ _ _ _ _ _ _ _ _ _ Hr); [by intros x []|].
  intros x [Hx|Hx]; [left; unfold range in *; lia|by right].
Qed.

Lemma MojomUnion_restores vd dd ed `{!RestoringDispatch vd dd ed} dp d nullable p c c' :
  deref_union descs dp = Ok d → base <= p → p + 16 <= endp →
  p + 16 <= next_pointer c → 0 <= next_handle_index c →
  MojomUnion_Validate m descs vd dp nullable p (endp - p) nh c = Ok (ok_code, c') →
  next_pointer c <= next_pointer c' ∧
  ∃ k, restores (range p (p + 8))
    (union (range (p + 8) (p + 16)) (range (next_pointer c) (next_pointer c'))) m
    (next_handle_index c) (next_handle_index c') k
    (MojomUnion_DecodePointersAndHandles descs dd dp p (endp - p) nh)
    (MojomUnion_EncodePointersAndHandles descs ed dp p (endp - p)).
Proof.
  intros Hd Hp Hpe Hc Hi Hv.
  apply MojomUnion_Validate_inv in Hv as (d' & o & Hd' & Ho & Hv).
  rewrite Hd in Hd'. injection Hd' as <-.
  assert (∀ m', agree_on (range p (p + 8)) m m' →
    select_union_entry (union_tag m' p) (ud_entries d) = Ok o) as Ho2.
  { intros m' Hm. rewrite <- Ho. f_equal. symmetry. apply load32_agree.
    eapply agree_on_sub; [done|]. unfold range. lia. }
  destruct (union_member_restores vd dd ed dp d p o c c') as (Hmono & k & Hr); [done..|].
  split; [done|]. exists k.
  apply (restores_read _ _ _ _ _ _ _ (λ m, select_union_entry (union_tag m p) (ud_entries d))
    o (decode_member dd p) (encode_member ed p)) in Hr; [| |done].
  2: { intros x Hx [Hy|Hy]; unfold range in *; lia. }
  assert ((sizeof_MojomUnionLayout <=? endp - p) = true) as Hsz
    by (unfold sizeof_MojomUnionLayout; lia).
  eapply restores_ext; [exact Hr| |].
  - intros m2 hs. unfold MojomUnion_DecodePointersAndHandles. by rewrite Hsz, Hd.
  - intros m2 hb. unfold MojomUnion_EncodePointersAndHandles. by rewrite Hsz, Hd.
Qed.

(** *** The dispatchers discharge the interface *)

(** A pointer slot that validated, whatever object is behind it. *)
Lemma slot_restores p nullable c c' (k : Z → VM Z) dobj eobj :
  base <= p → p + 8 <= endp → p + 8 <= next_pointer c → 0 <= next_handle_index c →
  (result ← validate_pointer m p (endp - p) nullable;
   offset ← lift (load64 m p);
   if negb (result =? MOJOM_VALIDATION_ERROR_NONE) || (offset =? 0)
   then mret result else k offset) c = Ok (ok_code, c') →
  (∀ off c1, load64 m p = Ok off → base <= p + off <= endp →
     next_handle_index c1 = next_handle_index c →
     k off c1 = Ok (ok_code, c') →
     object_restores (p + off) c1 c' (dobj (p + off)) (eobj (p + off))) →
  next_pointer c <= next_pointer c' ∧
  ∃ k, restores empty
    (union (range p (p + 8)) (range (next_pointer c) (next_pointer c'))) m
    (next_handle_index c) (next_handle_index c') k
    (decode_slot p (endp - p) nullable dobj) (encode_slot p (endp - p) nullable eobj).
Proof.
  intros Hp Hpe Hc Hi Hv Hobj.
  apply bindS_Ok_inv in Hv as (r & c1 & Hvp & Hv).
  apply bindS_Ok_inv in Hv as (off & ? & [Hoff ->]%lift_Ok_inv & Hv).
  pose proof (load64_range _ _ _ Hoff).
  destruct (negb (r =? ok_code)) eqn:Er; [injection Hv as -> ->; done|].
  assert (r = ok_code) as -> by lia. cbn [orb] in Hv.
  apply validate_pointer_inv in Hvp as (off' & Hoff' & Hmx & _ & Hc1).
  rewrite Hoff in Hoff'. injection Hoff' as <-.
  destruct (off =? 0) eqn:E0.
  - destruct Hc1 as [-> ->]. injection Hv as <-. split; [lia|]. exists 0.
    assert (off = 0) as -> by lia.
    eapply (restores_weaken _ empty (range p (p + 8)));
      [apply restores_null_slot; [lia|done|done]|by intros x []|by left].
  - destruct Hc1 as [Hnp ->].
    apply Hobj in Hv as (Ho1 & Ho2 & j & Hr); [|done|lia|done].
    split; [lia|]. exists j.
    eapply (restores_weaken _ empty (union (range p (p + 8)) (range (p + off) (next_pointer c'))));
      [eapply restores_full_slot; [lia|lia|done|lia|exact Hr]|by intros x []|].
    intros x [Hx|Hx]; [by left|right]. unfold range in *. lia.
Qed.

(** The [UNION] case: a null union, or its data slot. *)
Lemma inline_union_restores vd dd ed `{!RestoringDispatch vd dd ed} dp d (nullable : bool) p c c' :
  deref_union descs dp = Ok d → base <= p → p + 16 <= endp →
  p + 16 <= next_pointer c → 0 <= next_handle_index c →
  ((size ← lift (union_size m p);
   if size =? 0 then
     mret (if nullable then MOJOM_VALIDATION_ERROR_NONE
           else MOJOM_VALIDATION_UNEXPECTED_NULL_UNION)
   else MojomUnion_Validate m descs vd dp nullable p (u32 (endp - p - (p - p))) nh) : VM Z) c
    = Ok (ok_code, c') →
  next_pointer c <= next_pointer c' ∧
  ∃ k, restores empty
    (union (range p (p + 16)) (range (next_pointer c) (next_pointer c'))) m
    (next_handle_index c) (next_handle_index c') k
    (size ← (if nullable then
               (if negb (p =? 0) then read (λ m, union_size m p) else mret 0)
             else mret 0);
     if negb nullable || (negb (p =? 0) && negb (size =? 0)) then
       MojomUnion_DecodePointersAndHandles descs dd dp p (endp - p) nh
     else mret tt)
    (size ← (if nullable then
               (if negb (p =? 0) then read (λ m, union_size m p) else mret 0)
             else mret 0);
     if negb nullable || (negb (p =? 0) && negb (size =? 0)) then
       MojomUnion_EncodePointersAndHandles descs ed dp p (endp - p)
     else mret tt).
Proof.
  intros Hd Hp Hpe Hc Hi Hv.
  apply bindS_Ok_inv in Hv as (sz & ? & [Hsz ->]%lift_Ok_inv & Hv).
  replace (p - p) with 0 in Hv by lia. rewrite Z.sub_0_r, u32_small in Hv by lia.
  assert (∀ m', agree_on (range p (p + 8)) m m' → union_size m' p = Ok sz) as Hsz2.
  { intros m' Hm. rewrite <- Hsz. symmetry. apply load32_agree.
    eapply agree_on_sub; [done|]. unfold range. lia. }
  set (FP := union (range (p + 8) (p + 16)) (range (next_pointer c) (next_pointer c'))).
  assert (disjoint (range p (p + 8)) FP) as Hdisj.
  { intros x Hx [Hy|Hy]; unfold range in *; lia. }
  assert (negb (p =? 0) = true) as Hp0 by lia. rewrite Hp0.
  assert (next_pointer c <= next_pointer c' ∧ ∃ k, restores (range p (p + 8)) FP m
    (next_handle_index c) (next_handle_index c') k
    (if negb nullable || (true && negb (sz =? 0)) then
       MojomUnion_DecodePointersAndHandles descs dd dp p (endp - p) nh else mret tt)
    (if negb nullable || (true && negb (sz =? 0)) then
       MojomUnion_EncodePointersAndHandles descs ed dp p (endp - p) else mret tt))
    as (Hmono & k & Hr).
  { destruct (sz =? 0) eqn:Esz.
    - destruct nullable; [|done]. injection Hv as <-. split; [lia|]. exists 0.
      by apply restores_ret.
    - replace (negb nullable || (true && negb false)) with true by (by destruct nullable).
      by eapply MojomUnion_restores. }
  split; [done|]. exists k.
  eapply (restores_weaken _ (range p (p + 8)) FP);
    [|intros x Hx; right; left; unfold range in *; lia
     |intros x [Hx|Hx]; [left; unfold range in *; lia|by right]].
  destruct nullable; [|exact Hr].
  apply (restores_read H _ _ _ _ _ _ (λ m, union_size m p) sz
    (λ size, if negb true || (true && negb (size =? 0)) then
       MojomUnion_DecodePointersAndHandles descs dd dp p (endp - p) nh else mret tt)
    (λ size, if negb true || (true && negb (size =? 0)) then
       MojomUnion_EncodePointersAndHandles descs ed dp p (endp - p) else mret tt));
    [exact Hr|done|done].
Qed.

(** The [HANDLE] and [INTERFACE] cases. *)
Lemma claimed_handle_restores p w h nullable c c' :
  0 < p → 4 <= w → load32 m p = Ok h → 0 <= next_handle_index c →
  validate_handle h nh nullable c = Ok (ok_code, c') →
  next_pointer c <= next_pointer c' ∧
  ∃ k, restores empty (union (range p (p + w)) (range (next_pointer c) (next_pointer c'))) m
    (next_handle_index c) (next_handle_index c') k
    (decode_handle p nh) (encode_handle nullable p).
Proof.
  intros Hp Hw Hh Hi Hv. pose proof (validate_handle_inv _ _ _ _ _ Hv) as [Hnp _].
  split; [lia|]. destruct (restores_handle p nullable h c c') as [k Hr]; [done..|].
  exists k. apply (restores_weaken _ _ _ _ _ _ _ _ _ _ _ Hr); [by intros x []|].
  intros x Hx. left. unfold range in *. lia.
Qed.

(** From a validated slot [Hv] to the object at its offset, with the sizes both
    dispatchers compute for it in a common form. *)
Ltac enter_object Hv Hi :=
  eapply slot_restores; [done|done|done|done|exact Hv|];
  intros off c1 Hoff Hrange Hc1 Hk; cbn beta in Hk; rewrite <- Hc1 in Hi;
  pose proof (load64_range _ _ _ Hoff); rewrite u32_small in Hk |- * by lia;
  match type of Hoff with load64 _ ?p = _ =>
    replace (endp - p - off) with (endp - (p + off)) in Hk by lia;
    replace (endp - p - (p + off - p)) with (endp - (p + off)) by lia
  end.

#[export] Instance Dispatch_restoring fuel :
  RestoringDispatch (MojomType_DispatchValidate m descs fuel)
    (MojomType_DispatchDecodePointersAndHandles descs fuel)
    (MojomType_DispatchEncodePointersAndHandles descs fuel).
Proof.
  induction fuel as [|fuel IH]; intros t dp nullable p c c' Hwe Hpod Hp Hpe Hc Hi Hv; [done|].
  cbn [MojomType_DispatchValidate] in Hv. apply c_assert_inv in Hv as [Hp0 Hv].
  cbn [MojomType_DispatchDecodePointersAndHandles MojomType_DispatchEncodePointersAndHandles].
  rewrite Hp0. unfold wf_elem in Hwe. destruct t; try done.
  - (* STRUCT_PTR *)
    destruct (deref_struct descs dp) as [d|] eqn:Hd; [|done].
    enter_object Hv Hi.
    apply bindS_Ok_inv in Hk as (r & c2 & Hk & Hr). rewrite andb_false_r in Hr.
    injection Hr as -> ->. exact (MojomStruct_restores _ _ _ _ d _ _ _ Hd Hrange Hi Hk).
  - (* MAP_PTR *)
    destruct (deref_struct descs dp) as [d|] eqn:Hd; [|done].
    enter_object Hv Hi.
    apply bindS_Ok_inv in Hk as (r & c2 & Hk & Hr). rewrite bool_decide_true in Hr by done.
    destruct (r =? ok_code) eqn:Er; [|injection Hr as -> ->; done].
    assert (r = ok_code) as -> by lia.
    cbn [andb] in Hr. apply MojomMap_Validate_inv in Hr as [-> _].
    exact (MojomStruct_restores _ _ _ _ d _ _ _ Hd Hrange Hi Hk).
  - (* ARRAY_PTR *)
    destruct (deref_array descs dp) as [d|] eqn:Hd; [|done].
    enter_object Hv Hi.
    exact (MojomArray_restores _ _ _ _ d _ _ _ Hd Hrange Hi Hk).
  - (* UNION *)
    destruct (deref_union descs dp) as [d|] eqn:Hd; [|done].
    cbn [elem_size] in *. unfold sizeof_MojomUnionLayout in *.
    eapply inline_union_restores in Hv; [|done..]. rewrite Hp0 in Hv. exact Hv.
  - (* HANDLE *)
    apply bindS_Ok_inv in Hv as (h & ? & [Hh ->]%lift_Ok_inv & Hv).
    by apply (claimed_handle_restores p (elem_size HANDLE) h nullable); [lia|done..].
  - (* INTERFACE *)
    apply bindS_Ok_inv in Hv as (h & ? & [Hh ->]%lift_Ok_inv & Hv).
    by apply (claimed_handle_restores p (elem_size INTERFACE) h nullable); [lia|done..].
Qed.
End roundtrip.

(** ** The properties of the whole *)

Lemma validated_struct_restores m H descs dp d base size fuel c c' :
  wf_descs descs = true → wf_layout descs = true → deref_struct descs dp = Ok d →
  Forall (λ h, 0 < h < 2 ^ 32) H → Z.of_nat (length H) < 2 ^ 32 →
  0 < base → 0 <= size < 2 ^ 32 → base + size <= 2 ^ 64 → 0 <= next_handle_index c →
  MojomStruct_Validate m descs (MojomType_DispatchValidate m descs fuel)
    dp base size (Z.of_nat (length H)) c = Ok (MOJOM_VALIDATION_ERROR_NONE, c') →
  ∃ k, restores H empty (range base (next_pointer c')) m
    (next_handle_index c) (next_handle_index c') k
    (MojomStruct_DecodePointersAndHandles descs
      (MojomType_DispatchDecodePointersAndHandles descs fuel)
      dp base size (Z.of_nat (length H)))
    (MojomStruct_EncodePointersAndHandles descs
      (MojomType_DispatchEncodePointersAndHandles descs fuel) dp base size).
Proof.
  intros Hwf Hlay Hd HH Hnh Hb Hs H64 Hi Hv.
  replace size with (base + size - base) in Hv |- * by lia.
  pose proof (Dispatch_restoring m H HH Hnh descs Hwf Hlay base (base + size) Hb
    ltac:(lia) ltac:(lia) fuel) as Hdisp.
  destruct (MojomStruct_restores m H descs Hwf Hlay base (base + size) Hb ltac:(lia) _ _ _
    dp d base c c' Hd ltac:(lia) Hi Hv) as (_ & _ & k & Hr). eauto.
Qed.

(** C2: a struct that [MojomStruct_Validate] accepted is decoded without a crash.  For
    descriptor tables as they are generated, without unions nested in unions ([wf_descs],
    [wf_layout]), and an array of handles that is there (the decoder asserts one even where
    no handle is sent: [NestedUnion.decode_handle_rejects_null_array]): on a buffer that
    validated against the [length H] handles of the array,
    [MojomStruct_DecodePointersAndHandles] meets no failed assertion and no bad access,
    whatever the message; it changes no byte outside the claimed part of the buffer, and
    takes no handle but those whose index the validation claimed. *)
Theorem MojomStruct_Decode_validated m H descs dp d base size fuel c c' :
  wf_descs descs = true → wf_layout descs = true → deref_struct descs dp = Ok d →
  Forall (λ h, 0 < h < 2 ^ 32) H → Z.of_nat (length H) < 2 ^ 32 →
  0 < base → 0 <= size < 2 ^ 32 → base + size <= 2 ^ 64 → 0 <= next_handle_index c →
  MojomStruct_Validate m descs (MojomType_DispatchValidate m descs fuel)
    dp base size (Z.of_nat (length H)) c = Ok (MOJOM_VALIDATION_ERROR_NONE, c') →
  ∃ m' H', MojomStruct_DecodePointersAndHandles descs
      (MojomType_DispatchDecodePointersAndHandles descs fuel)
      dp base size (Z.of_nat (length H)) (m, Some H) = Ok (tt, (m', Some H')) ∧
    agree_on (outside (range base (next_pointer c'))) m m' ∧
    length H' = length H ∧
    ∀ i, 0 <= i → ¬ (next_handle_index c <= i < next_handle_index c') →
      H' !! Z.to_nat i = H !! Z.to_nat i.
Proof.
  intros Hwf Hlay Hd HH Hnh Hb Hs H64 Hi Hv.
  destruct (validated_struct_restores m H descs dp d base size fuel c c')
    as (k & _ & _ & Hr); [done..|].
  destruct (Hr m H) as (m' & H' & Hdec & Hout & Hlen & Hho & _); [done..|]. eauto 10.
Qed.

(** C3: encoding undoes decoding.  Under the assumptions on tables and handles of the
    decoder, take a validated message, decode it in place, then encode it again into a
    handle buffer with room for the claimed handles: encoding does not crash, writes only
    the claimed part of the buffer and appends at most as many handles as the validation
    claimed.  If it appended that many, that is, if the message skipped no handle index,
    from the index where the message's handles started, then memory is byte for byte the
    message that was received and the handles are back in their places.  (A peer may skip
    indices; then the encoded handles are numbered anew, without gaps.) *)
Theorem MojomStruct_Encode_Decode_roundtrip m H descs dp d base size fuel c c' m' H' :
  wf_descs descs = true → wf_layout descs = true → deref_struct descs dp = Ok d →
  Forall (λ h, 0 < h < 2 ^ 32) H → Z.of_nat (length H) < 2 ^ 32 →
  0 < base → 0 <= size < 2 ^ 32 → base + size <= 2 ^ 64 → 0 <= next_handle_index c →
  MojomStruct_Validate m descs (MojomType_DispatchValidate m descs fuel)
    dp base size (Z.of_nat (length H)) c = Ok (MOJOM_VALIDATION_ERROR_NONE, c') →
  MojomStruct_DecodePointersAndHandles descs
    (MojomType_DispatchDecodePointersAndHandles descs fuel)
    dp base size (Z.of_nat (length H)) (m, Some H) = Ok (tt, (m', Some H')) →
  ∀ arr used, Z.of_nat (length arr) < 2 ^ 32 → 0 <= used →
    used + (next_handle_index c' - next_handle_index c) <= Z.of_nat (length arr) →
  ∃ m'' arr' used', MojomStruct_EncodePointersAndHandles descs
      (MojomType_DispatchEncodePointersAndHandles descs fuel) dp base size
      (m', Some (mkHandleBuffer (Some arr) (Z.of_nat (length arr)) used)) =
      Ok (tt, (m'', Some (mkHandleBuffer (Some arr') (Z.of_nat (length arr)) used'))) ∧
    used <= used' <= used + (next_handle_index c' - next_handle_index c) ∧
    agree_on (outside (range base (next_pointer c'))) m m'' ∧
    (used = next_handle_index c → used' = next_handle_index c' →
       m'' = m ∧ handles_agree (next_handle_index c) (next_handle_index c') H arr').
Proof.
  intros Hwf Hlay Hd HH Hnh Hb Hs H64 Hi Hv Hdec arr used Hnum Hused Hroom.
  destruct (validated_struct_restores m H descs dp d base size fuel c c')
    as (k & _ & Hk & Hr); [done..|].
  destruct (Hr m H) as (m1 & H1 & Hdec1 & Hout & Hlen & Hho & Henc); [done..|].
  rewrite Hdec in Hdec1. injection Hdec1 as <- <-.
  destruct (Henc m' arr (Z.of_nat (length arr)) used)
    as (m'' & arr' & Hen & Hout3 & Hla & Hpre & Hres); [done|done|done|done|lia|].
  exists m'', arr', (used + k). split_and!; [done|lia|lia| |].
  - intros x Hx. rewrite Hout by done. by apply Hout3.
  - intros Hu Hu'. destruct Hres as [Hm Ha]; [done|lia|]. split; [|done].
    apply map_eq. intros x. symmetry.
    destruct (decide (range base (next_pointer c') x)) as [Hx|Hx]; [by apply Hm|].
    rewrite Hout by done. by apply Hout3.
Qed.

Definition sample_decode :=
  MojomStruct_DecodePointersAndHandles sample_descs
    (MojomType_DispatchDecodePointersAndHandles sample_descs sample_fuel)
    (Some 0%nat) sample_base sample_size (Z.of_nat (length sample_handles))
    (sample_mem, Some sample_handles).

(** What the sample decodes to, computed. *)
Definition sample_decoded : mem * list Z :=
  match sample_decode with Ok (_, (m', Some hs')) => (m', hs') | _ => (∅, []) end.

Lemma sample_decodes :
  sample_decode = Ok (tt, (fst sample_decoded, Some (snd sample_decoded))).
Proof.
  assert (match sample_decode with Ok (_, (_, Some _)) => true | _ => false end = true) as Hs
    by by vm_compute.
  unfold sample_decoded. by destruct sample_decode as [[[] [? []]]|].
Qed.

Lemma MojomStruct_Decode_validated_witness : ∃ m' H', 
  MojomStruct_DecodePointersAndHandles sample_descs
    (MojomType_DispatchDecodePointersAndHandles sample_descs sample_fuel)
    (Some 0%nat) sample_base sample_size (Z.of_nat (length sample_handles))
    (sample_mem, Some sample_handles) = Ok (tt, (m', Some H')) ∧
  agree_on (outside (range sample_base (sample_base + 240))) sample_mem m' ∧
  length H' = length sample_handles ∧
  ∀ i, 0 <= i → ¬ (0 <= i < 6) → H' !! Z.to_nat i = sample_handles !! Z.to_nat i.
Proof.
  apply (MojomStruct_Decode_validated sample_mem sample_handles sample_descs (Some 0%nat)
    sample_node sample_base sample_size sample_fuel (mkContext 0 sample_base)
    (mkContext 6 (sample_base + 240))).
  - exact sample_descs_wf.
  - exact sample_descs_layout.
  - done.
  - repeat constructor.
  - done.
  - done.
  - done.
  - done.
  - done.
  - exact sample_validates.
Defined.

Lemma MojomStruct_Encode_Decode_roundtrip_witness : ∃ m'' arr' used',
  MojomStruct_EncodePointersAndHandles sample_descs
    (MojomType_DispatchEncodePointersAndHandles sample_descs sample_fuel)
    (Some 0%nat) sample_base sample_size
    (fst sample_decoded, Some (mkHandleBuffer (Some [0; 0; 0; 0; 0; 0]) 6 0)) =
    Ok (tt, (m'', Some (mkHandleBuffer (Some arr') 6 used'))) ∧
  0 <= used' <= 6 ∧
  agree_on (outside (range sample_base (sample_base + 240))) sample_mem m'' ∧
  (0 = 0 → used' = 6 → m'' = sample_mem ∧ handles_agree 0 6 sample_handles arr').
Proof.
  apply (MojomStruct_Encode_Decode_roundtrip sample_mem sample_handles sample_descs
    (Some 0%nat) sample_node sample_base sample_size sample_fuel (mkContext 0 sample_base)
    (mkContext 6 (sample_base + 240)) (fst sample_decoded) (snd sample_decoded)).
  - exact sample_descs_wf.
  - exact sample_descs_layout.
  - done.
  - repeat constructor.
  - done.
  - done.
  - done.
  - done.
  - done.
  - exact sample_validates.
  - exact sample_decodes.
  - done.
  - done.
  - done.
Defined.
