(* ===== verification/NestedUnion.v ===== *)
(** * Unions inside unions

    A union field of union type is a pointer to an out-of-line union
    ([UNION_PTR]).  The development's well-formedness leaves these out; this
    file shows why: the dispatchers of type_descriptor.c treat the pointer slot
    as if it were the union, and validation does not check that the union behind
    the pointer lies in the buffer. *)
From stdpp Require Import base list numbers option gmap.
From S2P Require Import Prelude Memory TypeDescriptor Validate Codec Sample ValidateSafe Restores RoundTrip.

Lemma select_union_entry_none t l :
  (∀ e, e ∈ l → ue_tag e ≠ t) → select_union_entry (Ok t) l = Ok None.
Proof.
  induction l as [|e l IH]; intros Hl; cbn [select_union_entry]; [done|].
  cbn. assert ((t =? ue_tag e) = false) as ->.
  { apply Z.eqb_neq. intros ->. by eapply Hl; [left|]. }
  apply IH. intros e' He'. apply Hl. by right.
Qed.

(** encoding a nested union leaves everything behind the pointer
    unencoded.  The slot's pointer becomes an offset, but the walk then reads
    the slot itself, not the union it led to: the high half of the offset,
    always zero, is taken for the tag.  So in a union type without a pointer or
    handle field of tag 0, no pointer or handle of the nested union is ever
    rewritten: it would cross the pipe as a raw address or handle value. *)
Theorem UNION_PTR_encode_misses_union m hb descs fuel dp d slot size q :
  deref_union descs dp = Ok d → (∀ e, e ∈ ud_entries d → ue_tag e ≠ 0) →
  0 < slot → 16 <= size < 2 ^ 32 → load64 m slot = Ok q → slot < q < slot + size →
  ∃ m', MojomType_DispatchEncodePointersAndHandles descs (S fuel) UNION_PTR dp false
      slot size (m, hb) = Ok (tt, (m', hb)) ∧
    load64 m' slot = Ok (q - slot) ∧
    agree_on (outside (range slot (slot + 8))) m m'.
Proof.
  intros Hd Htags Hslot Hsize Hq Hrange.
  cbn [MojomType_DispatchEncodePointersAndHandles].
  assert (negb (slot =? 0) = true) as -> by lia. cbn [c_assert].
  assert (returns (encode_pointer slot size (m, hb)) (λ '(_, (m', hb')),
    hb' = hb ∧ wrote64 slot (q - slot) m m')) as He.
  { eapply returns_mono; [apply encode_pointer_spec; [exact Hq|lia]|].
    intros [[] [m' hb']]. replace (q =? 0) with false by lia. done. }
  apply returns_Ok_inv in He as ([[] [m' hb']] & He & -> & Hw & Hout).
  exists m'. split_and!; [|done|done].
  unfold read, get_mem. unfold mbind, stateR_bind, lift, mret, stateR_ret.
  cbn [fst snd]. rewrite Hq, He. cbn [negb orb].
  unfold MojomUnion_EncodePointersAndHandles, read, get_mem, mbind, stateR_bind, lift.
  assert ((sizeof_MojomUnionLayout <=? size) = true) as ->
    by (unfold sizeof_MojomUnionLayout; lia).
  cbn [c_assert mret stateR_ret fst snd]. rewrite Hd. cbn [fst snd].
  unfold union_tag. rewrite (load64_high _ _ _ Hw). rewrite Z.div_small by lia.
  by rewrite select_union_entry_none.
Qed.

Definition nested_descs : desc_table := [
  DescUnion {| ud_num_fields := 2; ud_entries := [
    mkUnionEntry HANDLE None 1 false] |};
  DescUnion {| ud_num_fields := 2; ud_entries := [
    mkUnionEntry UNION_PTR (Some 0%nat) 1 false] |};
  DescUnion {| ud_num_fields := 2; ud_entries := [
    mkUnionEntry ARRAY_PTR (Some 3%nat) 1 false] |};
  DescArray g_mojom_string_type_description;
  DescStruct {| sd_versions := [mkStructVersion 0 24];
    sd_entries := [mkStructEntry UNION (Some 5%nat) 0 0 false] |};
  DescUnion {| ud_num_fields := 2; ud_entries := [
    mkUnionEntry UNION_PTR (Some 2%nat) 1 false] |}].

(** A slot at 4096 pointing to a union with handle 77 at 4104. *)
Definition nested_mem : mem := words 4096 [4104; 0; 16; 1; 77; 0].

Lemma UNION_PTR_encode_misses_union_witness : ∃ m',
  MojomType_DispatchEncodePointersAndHandles nested_descs 1 UNION_PTR (Some 0%nat) false
    4096 24 (nested_mem, Some (mkHandleBuffer (Some [0]) 1 0)) =
    Ok (tt, (m', Some (mkHandleBuffer (Some [0]) 1 0))) ∧
  load64 m' 4096 = Ok 8 ∧ agree_on (outside (range 4096 4104)) nested_mem m'.
Proof.
  eapply (UNION_PTR_encode_misses_union nested_mem _ nested_descs 0 (Some 0%nat) _ 4096 24 4104).
  - reflexivity.
  - intros e. cbn. rewrite list_elem_of_singleton. by intros ->.
  - lia.
  - lia.
  - by vm_compute.
  - lia.
Defined.

(** validation reads outside the buffer on a nested union.  The pointer
    check admits an offset that leads to the very end of the buffer, and the
    union's size is read there without another check: when nothing is mapped
    past the buffer, validating such a message is an access violation. *)
Theorem UNION_PTR_validate_reads_past_end m descs fuel dp nullable slot size nh c :
  0 < slot → 0 < size < 2 ^ 32 → size mod 8 = 0 → load64 m slot = Ok size →
  next_pointer c <= slot + size → m !! (slot + size) = None →
  MojomType_DispatchValidate m descs (S fuel) UNION_PTR dp nullable slot size nh c =
    Crash BadAccess.
Proof.
  intros Hslot Hsize Hmod Hl Hc Hnone. cbn [MojomType_DispatchValidate].
  assert (negb (slot =? 0) = true) as -> by lia. cbn [c_assert].
  unfold validate_pointer, mbind, stateR_bind, mret, stateR_ret, lift, get_state.
  rewrite Hl. assert ((size <? size) || (UINT32_MAX <? size) = false) as ->
    by (unfold UINT32_MAX; lia).
  assert ((size =? 0) = false) as Hs0 by lia. rewrite Hs0. cbn [negb andb].
  assert ((slot + size <? next_pointer c) = false) as -> by lia.
  assert (Z.land size 7 = 0) as Hal.
  { change 7 with (Z.ones 3). rewrite Z.land_ones by lia. exact Hmod. }
  cbn [set_next_pointer]. rewrite Hal. cbn [Z.eqb negb]. rewrite andb_false_r. cbn.
  unfold union_size. by rewrite load32_unmapped.
Qed.

Lemma UNION_PTR_validate_reads_past_end_witness :
  MojomType_DispatchValidate (words 4096 [8; 0]) nested_descs 1 UNION_PTR (Some 0%nat) false
    4096 8 0 (mkContext 0 4104) = Crash BadAccess.
Proof.
  apply UNION_PTR_validate_reads_past_end; first [lia|done|by vm_compute].
Defined.

(** A 24-byte struct holding a union, whose nested union would start right at
    the end of the buffer; the memory behind the buffer is not the message's. *)
Definition overrun_mem : mem :=
  words 4096 ([24; 0; 16; 1; 8; 0] ++ [16; 1; 40; 0] ++ repeat 0 8 ++ [8; 0]).

(** validation accepts a message that points outside its buffer.  With
    memory mapped past the end, the remaining size [in_union_size - 8] of a
    nested union that starts at the end of the buffer wraps around to almost
    4 GiB, so that a pointer found there leads wherever it likes: this 24-byte
    message is declared valid although the part claimed extends 56 bytes past
    its end. *)
Theorem UNION_PTR_validates_outside_buffer :
  ∃ c', MojomStruct_Validate overrun_mem nested_descs
      (MojomType_DispatchValidate overrun_mem nested_descs 4)
      (Some 4%nat) 4096 24 0 (mkContext 0 4096) = Ok (MOJOM_VALIDATION_ERROR_NONE, c') ∧
    next_pointer c' = 4096 + 24 + 56.
Proof. by eexists; vm_compute. Qed.

(** A struct with one nullable handle field, holding no handle. *)
Definition no_handle_descs : desc_table := [
  DescStruct {| sd_versions := [mkStructVersion 0 16];
    sd_entries := [mkStructEntry HANDLE None 0 0 true] |}].
Definition no_handle_mem : mem := words 4096 [16; 0; 4294967295; 0].

(** a message without handles cannot be decoded with a null handle array.
    [MojomStruct_DecodePointersAndHandles] asserts [inout_handles != NULL ||
    in_num_handles == 0], that is, a null array is fine when there are no
    handles; but [decode_handle] asserts a non-null array before it looks
    whether the field holds a handle at all.  This message validates against
    zero handles, decodes with an empty array, and aborts with a null one. *)
Theorem decode_handle_rejects_null_array :
  let dispatch := MojomType_DispatchDecodePointersAndHandles no_handle_descs 1 in
  (∃ c', MojomStruct_Validate no_handle_mem no_handle_descs
     (MojomType_DispatchValidate no_handle_mem no_handle_descs 1)
     (Some 0%nat) 4096 16 0 (mkContext 0 4096) = Ok (MOJOM_VALIDATION_ERROR_NONE, c')) ∧
  (∃ m', MojomStruct_DecodePointersAndHandles no_handle_descs dispatch (Some 0%nat)
     4096 16 0 (no_handle_mem, Some []) = Ok (tt, (m', Some []))) ∧
  handles_usable None 0 = true ∧
  MojomStruct_DecodePointersAndHandles no_handle_descs dispatch (Some 0%nat)
    4096 16 0 (no_handle_mem, None) = Crash AssertFailed.
Proof. split_and!; try (eexists; by vm_compute); by vm_compute. Qed.
