(* ===== verification/Buffer.v ===== *)
(** * Serialization buffers

    [MojomBuffer_Allocate] (public/c/lib/bindings/buffer.c) and
    [MojomArray_New] (array.c): a bump allocator over a caller's buffer, and
    the one function that builds a fresh object with it. *)
From stdpp Require Import base list numbers option gmap.
From S2P Require Import Prelude Memory TypeDescriptor Validate Sample Codec.

(** [struct MojomBuffer] *)
Record MojomBuffer : Set := mkBuffer {
  buf : Z;
  buf_size : Z;
  num_bytes_used : Z;
}.

(** State of the functions that allocate: the memory and the buffer's record
    ([None]: the pointer to it is null). *)
Abbreviation BM := (stateR (mem * option MojomBuffer)).

(** [buf->field] *)
Definition get_buffer : BM MojomBuffer := λ s,
  match snd s with Some b => Ok (b, s) | None => Crash BadAccess end.
Definition put_buffer (b : MojomBuffer) : BM unit := λ s, Ok (tt, (fst s, Some b)).
(** [assert(buf)] *)
Definition assert_buffer : BM unit := λ s,
  match snd s with Some b => Ok (tt, s) | None => Crash AssertFailed end.

Definition MojomBuffer_Allocate (num_bytes : Z) : BM Z :=
  assert_buffer;;
  b ← get_buffer;
  let bytes_used := num_bytes_used b in
  let size := MOJOM_INTERNAL_ROUND_TO_8 64 num_bytes in
  if buf_size b <? u64 (bytes_used + size) then mret 0
  else
  put_buffer (mkBuffer (buf b) (buf_size b) (u32 (num_bytes_used b + size)));;
  mret (buf b + bytes_used).

Definition MojomArray_New (num_elements element_byte_size : Z) : BM Z :=
  assert_buffer;;
  let num_bytes := u64 (sizeof_MojomArrayHeader + u64 (num_elements * element_byte_size)) in
  if UINT32_MAX <? num_bytes then mret 0
  else
  arr ← MojomBuffer_Allocate (u32 num_bytes);
  if arr =? 0 then mret 0
  else
  b ← get_buffer;
  c_assert (u64 (arr + MOJOM_INTERNAL_ROUND_TO_8 64 num_bytes) =?
            u64 (buf b + num_bytes_used b));;
  write (λ m, store32 m (arr + 4) num_elements);;
  write (λ m, store32 m arr (MOJOM_INTERNAL_ROUND_TO_8 32 (u32 num_bytes)));;
  mret arr.

(** ** The allocator's contract *)

(** [num] rounded up to a multiple of 8. *)
Definition round8 (num : Z) : Z := (num + 7) / 8 * 8.

Lemma round8_bounds n : n <= round8 n < n + 8.
Proof. unfold round8. pose proof (Z.div_mod (n + 7) 8). pose proof (Z.mod_pos_bound (n + 7) 8). lia. Qed.
Lemma round8_aligned n : round8 n mod 8 = 0.
Proof. unfold round8. apply Z.mod_mul. lia. Qed.
Lemma round8_nonneg n : 0 <= n → 0 <= round8 n.
Proof. pose proof (round8_bounds n). lia. Qed.
Lemma round8_mult n : n mod 8 = 0 → round8 n = n.
Proof.
  intros Hn. unfold round8. rewrite (Z.div_mod n 8) at 1 by lia. rewrite Hn.
  replace (8 * (n / 8) + 0 + 7) with (7 + n / 8 * 8) by lia.
  rewrite Z.div_add by lia. change (7 / 8) with 0. rewrite (Z.div_mod n 8) at 2 by lia. lia.
Qed.

Lemma round64 n : 0 <= n < 2 ^ 32 → MOJOM_INTERNAL_ROUND_TO_8 64 n = round8 n.
Proof. intros Hn. by apply round_to_8_spec; lia. Qed.

(** A buffer a caller may hand over: not at address 0, inside the address
    space, no more used than there is. *)
Definition buffer_ok (b : MojomBuffer) : Prop :=
  0 < buf b ∧ 0 <= num_bytes_used b <= buf_size b ∧ buf_size b < 2 ^ 32 ∧
  buf b + buf_size b <= 2 ^ 64.

(** The buffer after [n] more bytes (rounded) are taken. *)
Definition take_bytes (b : MojomBuffer) (n : Z) : MojomBuffer :=
  mkBuffer (buf b) (buf_size b) (num_bytes_used b + round8 n).

Definition room (b : MojomBuffer) (n : Z) : bool :=
  num_bytes_used b + round8 n <=? buf_size b.

Lemma take_bytes_ok b n : buffer_ok b → 0 <= n → room b n = true → buffer_ok (take_bytes b n).
Proof.
  unfold buffer_ok, room, take_bytes. cbn. pose proof (round8_bounds n). lia.
Qed.

Lemma Allocate_eq m b n :
  buffer_ok b → 0 <= n < 2 ^ 32 →
  MojomBuffer_Allocate n (m, Some b) =
    if room b n then Ok (buf b + num_bytes_used b, (m, Some (take_bytes b n)))
    else Ok (0, (m, Some b)).
Proof.
  intros Hb Hn. unfold buffer_ok in Hb. unfold MojomBuffer_Allocate, room, take_bytes.
  unfold assert_buffer, get_buffer, put_buffer, mbind, stateR_bind, mret, stateR_ret.
  cbn [snd fst]. pose proof (round8_bounds n). rewrite round64 by done.
  rewrite u64_small by lia.
  destruct (buf_size b <? num_bytes_used b + round8 n) eqn:E.
  - by replace (num_bytes_used b + round8 n <=? buf_size b) with false by lia.
  - replace (num_bytes_used b + round8 n <=? buf_size b) with true by lia.
    by rewrite u32_small by lia.
Qed.

(** ** The properties *)

(** A sequence of allocations, with the addresses they returned. *)
Fixpoint allocate_all (sizes : list Z) : BM (list Z) :=
  match sizes with
  | [] => mret []
  | n :: sizes' =>
      p ← MojomBuffer_Allocate n;
      ps ← allocate_all sizes';
      mret (p :: ps)
  end.

(** Two allocated objects, address and requested size, do not overlap. *)
Definition separate (o1 o2 : Z * Z) : Prop :=
  o1.1 = 0 ∨ o2.1 = 0 ∨ o1.1 + o1.2 <= o2.1 ∨ o2.1 + o2.2 <= o1.1.

(** An allocated object is null, or inside the part of the buffer that was
    free, at a multiple of 8 from its start if the part used was one. *)
Definition inside (b : MojomBuffer) (o : Z * Z) : Prop :=
  o.1 = 0 ∨ buf b + num_bytes_used b <= o.1 ∧ o.1 + o.2 <= buf b + buf_size b ∧
    (num_bytes_used b mod 8 = 0 → (o.1 - buf b) mod 8 = 0).

Lemma allocate_all_spec m b sizes :
  buffer_ok b → Forall (λ n, 0 <= n < 2 ^ 32) sizes →
  returns (allocate_all sizes (m, Some b)) (λ '(ps, (m', b')),
    m' = m ∧ (∃ b2, b' = Some b2 ∧ buffer_ok b2 ∧ buf b2 = buf b ∧ buf_size b2 = buf_size b ∧
      num_bytes_used b <= num_bytes_used b2) ∧
    length ps = length sizes ∧
    Forall (inside b) (zip ps sizes) ∧ ForallOrdPairs separate (zip ps sizes)).
Proof.
  intros Hb Hs. revert b Hb. induction Hs as [|n sizes Hn Hs IH]; intros b Hb.
  { cbn. split_and!; [done|eauto 10 with lia|done|constructor|constructor]. }
  cbn [allocate_all]. run. rewrite Allocate_eq by done.
  pose proof (round8_bounds n). pose proof (round8_aligned n).
  destruct (room b n) eqn:Er; cbn [returns]; run.
  - assert (buffer_ok (take_bytes b n)) as Hb' by (apply take_bytes_ok; [done|lia|done]).
    eapply returns_mono; [by apply IH|].
    intros [ps [m' b']] (-> & (b2 & -> & Hb2 & ? & ? & ?) & Hlen & Hin & Hpair). run.
    unfold take_bytes in *. cbn [buf buf_size num_bytes_used] in *. unfold room in Er.
    assert (num_bytes_used b + n <= buf_size b) by lia.
    split_and!; [done|eauto 10 with lia|cbn; lia| |].
    + cbn. constructor.
      * right. cbn. split_and!; [lia|lia|]. intros Hz.
        by replace (buf b + num_bytes_used b - buf b) with (num_bytes_used b) by lia.
      * eapply Forall_impl; [exact Hin|]. intros [q k] [Hq|(Hlo & Hhi & Hal)]; [by left|right].
        cbn in *. split_and!; [lia|lia|]. intros Hz. apply Hal.
        rewrite Z.add_mod, Hz by lia. by replace (round8 n mod 8) with 0 by lia.
    + cbn. constructor; [|done]. eapply Forall_impl; [exact Hin|].
      intros [q k] [Hq|(Hlo & _ & _)]; unfold separate; cbn in *; lia.
  - eapply returns_mono; [by apply IH|].
    intros [ps [m' b']] (-> & Hb2 & Hlen & Hin & Hpair). run.
    split_and!; [done|done|cbn; lia| |].
    + cbn. constructor; [by left|done].
    + cbn. constructor; [|done]. apply Forall_forall. intros o _. by left.
Qed.

(** C10: the allocator hands out pairwise disjoint memory.  For any sequence of
    requests on a buffer, including failed ones, every object returned lies in
    the part of the buffer that was free, 8-byte aligned relative to its start
    when the used part is, and no two objects overlap.  Nothing wraps around,
    and memory itself is not touched. *)
Theorem MojomBuffer_Allocate_disjoint m b sizes :
  buffer_ok b → Forall (λ n, 0 <= n < 2 ^ 32) sizes →
  ∃ ps b', allocate_all sizes (m, Some b) = Ok (ps, (m, Some b')) ∧
    buffer_ok b' ∧ buf b' = buf b ∧ length ps = length sizes ∧
    Forall (inside b) (zip ps sizes) ∧ ForallOrdPairs separate (zip ps sizes).
Proof.
  intros Hb Hs. destruct (returns_Ok_inv _ _ (allocate_all_spec m b sizes Hb Hs))
    as ([ps [m' b']] & Heq & -> & (b2 & -> & Hb2 & Hbuf & _) & Hlen & Hin & Hpair).
  eauto 10.
Qed.

Definition sample_buffer : MojomBuffer := mkBuffer 8192 64 0.

Lemma MojomBuffer_Allocate_disjoint_witness : ∃ ps b',
  allocate_all [12; 100; 8; 40] (∅, Some sample_buffer) = Ok (ps, (∅, Some b')) ∧
  buffer_ok b' ∧ buf b' = 8192 ∧ length ps = 4%nat ∧
  Forall (inside sample_buffer) (zip ps [12; 100; 8; 40]) ∧
  ForallOrdPairs separate (zip ps [12; 100; 8; 40]).
Proof.
  apply (MojomBuffer_Allocate_disjoint ∅ sample_buffer [12; 100; 8; 40]).
  - unfold buffer_ok. cbn. lia.
  - repeat (apply Forall_cons_2; [lia|]). apply Forall_nil_2.
Defined.

(** [MojomBuffer_Allocate], branch by branch: when the request, rounded up
    to 8 bytes, fits, it returns the first free byte and advances the used count
    by the rounded size; otherwise it returns NULL and leaves the buffer as it
    was.  The buffer's invariant is preserved. *)
Theorem MojomBuffer_Allocate_spec m b n :
  buffer_ok b → 0 <= n < 2 ^ 32 →
  (num_bytes_used b + round8 n <= buf_size b →
     MojomBuffer_Allocate n (m, Some b) =
       Ok (buf b + num_bytes_used b, (m, Some (take_bytes b n))) ∧
     buffer_ok (take_bytes b n)) ∧
  (buf_size b < num_bytes_used b + round8 n →
     MojomBuffer_Allocate n (m, Some b) = Ok (0, (m, Some b))).
Proof.
  intros Hb Hn. rewrite Allocate_eq by done. unfold room. split; intros Hfit.
  - replace (num_bytes_used b + round8 n <=? buf_size b) with true by lia.
    split; [done|]. apply take_bytes_ok; [done|lia|unfold room; lia].
  - by replace (num_bytes_used b + round8 n <=? buf_size b) with false by lia.
Qed.

Lemma MojomBuffer_Allocate_spec_witness :
  (0 + round8 12 <= 64 →
     MojomBuffer_Allocate 12 (∅, Some sample_buffer) =
       Ok (8192 + 0, (∅, Some (take_bytes sample_buffer 12))) ∧
     buffer_ok (take_bytes sample_buffer 12)) ∧
  (64 < 0 + round8 12 →
     MojomBuffer_Allocate 12 (∅, Some sample_buffer) = Ok (0, (∅, Some sample_buffer))).
Proof.
  apply (MojomBuffer_Allocate_spec ∅ sample_buffer 12); [unfold buffer_ok; cbn; lia|lia].
Defined.

(** The size [MojomArray_New] asks for. *)
Definition array_bytes (num_elements element_byte_size : Z) : Z :=
  8 + num_elements * element_byte_size.

Lemma array_bytes_u64 n k :
  0 <= n < 2 ^ 32 → 0 <= k < 2 ^ 32 →
  u64 (sizeof_MojomArrayHeader + u64 (n * k)) = array_bytes n k ∧ 8 <= array_bytes n k.
Proof.
  intros Hn Hk. unfold sizeof_MojomArrayHeader, array_bytes.
  assert (0 <= n * k <= (2 ^ 32 - 1) * (2 ^ 32 - 1)) by nia.
  rewrite (u64_small (n * k)) by lia. rewrite u64_small by lia. lia.
Qed.

Lemma array_header_accepted m d arr size n k nb :
  array_num_bytes m arr = Ok nb → array_num_elements m arr = Ok n →
  0 <= n < 2 ^ 32 → 0 <= k → 8 * k < 2 ^ 32 → array_bytes n k <= nb <= size →
  ad_elem_num_bits d = 8 * k → ad_num_elements d = 0 →
  validate_array_header m d arr size = Ok MOJOM_VALIDATION_ERROR_NONE.
Proof.
  intros Hnb Hn Hnr Hk Hk8 Hfit Hbits Hne.
  assert (0 <= 8 * k * n <= (2 ^ 32 - 8) * (2 ^ 32 - 1)) by nia.
  assert (8 <= array_bytes n k) by (unfold array_bytes; nia).
  unfold validate_array_header, bits_to_bytes, sizeof_MojomArrayHeader.
  rewrite Hnb, Hn, Hbits, Hne. cbn [mbind result_bind].
  replace (size <? 8) with false by lia. replace (nb <? 8) with false by lia.
  replace (size <? nb) with false by lia. cbn [Z.eqb negb andb].
  rewrite (u64_small (8 * k * n)) by lia. rewrite (u64_small (_ + 7)) by lia.
  replace (8 * k * n + 7) with (7 + k * n * 8) by lia.
  rewrite Z.div_add by lia. change (7 / 8) with 0.
  rewrite u64_small by (unfold array_bytes in *; lia).
  unfold array_bytes in *. by replace (nb <? 8 + (0 + k * n)) with false by lia.
Qed.

Lemma MojomArray_New_fits m b n k :
  buffer_ok b → mapped m (buf b) (buf b + buf_size b) →
  0 <= n < 2 ^ 32 → 0 <= k < 2 ^ 32 →
  array_bytes n k <= UINT32_MAX → room b (array_bytes n k) = true →
  let arr := buf b + num_bytes_used b in
  returns (MojomArray_New n k (m, Some b)) (λ '(p, (m', b')),
    p = arr ∧ b' = Some (take_bytes b (array_bytes n k)) ∧
    array_num_elements m' arr = Ok n ∧
    array_num_bytes m' arr = Ok (round8 (array_bytes n k)) ∧
    agree_on (outside (range arr (arr + 8))) m m').
Proof.
  intros Hb Hmap Hn Hk Hmax Hroom arr.
  destruct (array_bytes_u64 n k Hn Hk) as [Hu Hge].
  unfold MojomArray_New. rewrite Hu. unfold UINT32_MAX in *. cbn [assert_buffer snd].
  pose proof (round8_bounds (array_bytes n k)). pose proof Hb as (Hb1 & Hb2 & Hb3 & Hb4).
  run. cbn [assert_buffer snd returns]. run_mem.
  rewrite u32_small by lia. rewrite Allocate_eq, Hroom by (done || lia). cbn [returns].
  fold arr. replace (arr =? 0) with false by lia. run.
  cbn [get_buffer snd returns]. rewrite round64 by lia.
  unfold room in Hroom. unfold round8 in Hroom.
  unfold take_bytes at 1 2. cbn [buf num_bytes_used].
  replace (buf b + (num_bytes_used b + round8 (array_bytes n k)))
    with (arr + round8 (array_bytes n k)) by lia. rewrite Z.eqb_refl. run_mem.
  eapply returns_mono; [apply store32_ok; [eapply mapped_sub; [exact Hmap|lia|]|lia]|].
  { unfold round8 in *. lia. }
  intros m1 (Hl1 & Hf1 & Hd1). run_mem.
  rewrite (round_to_8_spec 32) by (unfold round8 in *; lia).
  fold (round8 (array_bytes n k)).
  eapply returns_mono; [apply store32_ok; [|unfold round8 in *; lia]|].
  { intros x Hx. apply Hd1, Hmap. unfold range, round8 in *. lia. }
  intros m2 (Hl2 & Hf2 & Hd2). run_mem. split_and!; [done|done| |done|].
  - unfold array_num_elements. rewrite <- Hl1. symmetry. apply load32_agree.
    intros x Hx. apply Hf2. unfold range in *. lia.
  - intros x Hx. rewrite Hf1, Hf2; [done| |]; unfold outside, range in *; lia.
Qed.

(** C11: [MojomArray_New] never overflows and never trips its assertion.  It
    returns NULL, with nothing changed, exactly when the array's size exceeds
    [UINT32_MAX] or does not fit in the buffer.  Otherwise it returns the first
    free byte with the header filled in: [num_elements] as asked, [num_bytes]
    the size rounded up to 8, nothing else written; and the header is one
    [validate_array_header] accepts for elements of that size. *)
Theorem MojomArray_New_spec m b n k :
  buffer_ok b → mapped m (buf b) (buf b + buf_size b) →
  0 <= n < 2 ^ 32 → 0 <= k < 2 ^ 32 →
  let fits := (array_bytes n k <=? UINT32_MAX) && room b (array_bytes n k) in
  (fits = false → MojomArray_New n k (m, Some b) = Ok (0, (m, Some b))) ∧
  (fits = true → ∃ m', let arr := buf b + num_bytes_used b in
     MojomArray_New n k (m, Some b) = Ok (arr, (m', Some (take_bytes b (array_bytes n k)))) ∧
     array_num_elements m' arr = Ok n ∧
     array_num_bytes m' arr = Ok (round8 (array_bytes n k)) ∧
     agree_on (outside (range arr (arr + 8))) m m' ∧
     ∀ d size, ad_elem_num_bits d = 8 * k → ad_num_elements d = 0 → 8 * k < 2 ^ 32 →
       round8 (array_bytes n k) <= size →
       validate_array_header m' d arr size = Ok MOJOM_VALIDATION_ERROR_NONE).
Proof.
  intros Hb Hmap Hn Hk fits. destruct (array_bytes_u64 n k Hn Hk) as [Hu Hge].
  split; intros Hfits; unfold fits in Hfits.
  - unfold MojomArray_New. rewrite Hu.
    unfold assert_buffer, mbind, stateR_bind, mret, stateR_ret. cbn [snd].
    destruct (UINT32_MAX <? array_bytes n k) eqn:E; [done|]. unfold UINT32_MAX in *.
    rewrite u32_small by lia. rewrite Allocate_eq by (done || lia).
    replace (array_bytes n k <=? 4294967295) with true in Hfits by lia.
    cbn [andb] in Hfits. by rewrite Hfits.
  - apply andb_true_iff in Hfits as [Hmax Hroom].
    destruct (returns_Ok_inv _ _ (MojomArray_New_fits m b n k Hb Hmap Hn Hk ltac:(lia) Hroom))
      as ([p [m' b']] & Heq & -> & -> & Hne & Hnb & Hf).
    exists m'. split_and!; [done|done|done|done|].
    intros d size Hbits Hzero Hk8 Hsize. pose proof (round8_bounds (array_bytes n k)).
    eapply array_header_accepted; [done|done|done| | |split; [|exact Hsize]|done|done]; lia.
Qed.

Definition sample_buffer_mem : mem := words 8192 (repeat 0 16).

Lemma MojomArray_New_spec_witness :
  let arr := 8192 + 0 in
  ∃ m', MojomArray_New 3 4 (sample_buffer_mem, Some sample_buffer) =
      Ok (arr, (m', Some (take_bytes sample_buffer 20))) ∧
    array_num_elements m' arr = Ok 3 ∧ array_num_bytes m' arr = Ok (round8 20) ∧
    agree_on (outside (range arr (arr + 8))) sample_buffer_mem m' ∧
    ∀ d size, ad_elem_num_bits d = 8 * 4 → ad_num_elements d = 0 → 8 * 4 < 2 ^ 32 →
      round8 20 <= size → validate_array_header m' d arr size = Ok MOJOM_VALIDATION_ERROR_NONE.
Proof.
  refine (proj2 (MojomArray_New_spec sample_buffer_mem sample_buffer 3 4 _ _ _ _) _).
  - unfold buffer_ok. cbn. lia.
  - apply mapped_check_sound. by vm_compute.
  - lia.
  - lia.
  - by vm_compute.
Defined.
