(* ===== verification/SizeCopy.v ===== *)
(** * Serialized size and deep copy of unencoded objects

    [public/c/lib/bindings]: the [ComputeSerializedSize] and [DeepCopy]
    functions of struct.c, array.c, union.c and type_descriptor.c.  The size
    functions read memory; copying reads it, allocates from a [MojomBuffer] and
    writes the copy there. *)
From stdpp Require Import base list numbers option gmap.
From S2P Require Import Prelude Memory TypeDescriptor Validate Codec Buffer.

Definition UNION_TAG_UNKNOWN : Z := 0xFFFFFFFF.

(** [for (x : l) size += body(x);] in [size_t] arithmetic *)
Fixpoint sum_each {A} (l : list A) (body : A → result Z) (size : Z) : result Z :=
  match l with
  | [] => Ok size
  | x :: l' => s ← body x; sum_each l' body (u64 (size + s))
  end.

(** [for (x : l) { if (!body(x)) return false; } return true;] *)
Fixpoint copy_each {S A} (l : list A) (body : A → stateR S bool) : stateR S bool :=
  match l with
  | [] => mret true
  | x :: l' =>
      ok ← body x;
      if (negb ok : bool) then mret false else copy_each l' body
  end.

Section size_copy.
Context (descs : desc_table).

Section size_objects.
Context (m : mem).
Context (dispatch : MojomTypeDescriptorType → desc_ptr → bool → Z → result Z).

Definition MojomStruct_ComputeSerializedSize (in_type_desc : desc_ptr) (in_struct : Z)
    : result Z :=
  c_assertR (negb (in_struct =? 0));;
  c_assertR (desc_nonnull in_type_desc);;
  num_bytes ← struct_num_bytes m in_struct;
  desc ← deref_struct descs in_type_desc;
  sum_each (sd_entries desc) (λ entry,
    if negb (MojomType_IsPointer (se_elem_type entry)) &&
       negb (bool_decide (se_elem_type entry = UNION)) then Ok 0
    else
    version ← struct_version m in_struct;
    if version <? se_min_version entry then Ok 0
    else
    dispatch (se_elem_type entry) (se_elem_descriptor entry) (se_nullable entry)
      (in_struct + sizeof_MojomStructHeader + se_offset entry)) num_bytes.

Definition MojomArray_ComputeSerializedSize (in_type_desc : desc_ptr) (in_array : Z)
    : result Z :=
  c_assertR (negb (in_array =? 0));;
  c_assertR (desc_nonnull in_type_desc);;
  size ← array_num_bytes m in_array;
  desc ← deref_array descs in_type_desc;
  if negb (MojomType_IsPointer (ad_elem_type desc)) &&
     negb (bool_decide (ad_elem_type desc = UNION)) then Ok size
  else
  num_elements ← array_num_elements m in_array;
  sum_each (seqZ 0 num_elements) (λ i,
    elem_data ← array_index_by_type in_array (ad_elem_type desc) i;
    dispatch (ad_elem_type desc) (ad_elem_descriptor desc) (ad_nullable desc)
      elem_data) size.

Definition MojomUnion_ComputeSerializedSize (in_type_desc : desc_ptr) (in_union_data : Z)
    : result Z :=
  c_assertR (desc_nonnull in_type_desc);;
  c_assertR (negb (in_union_data =? 0));;
  desc ← deref_union descs in_type_desc;
  entry ← select_union_entry (union_tag m in_union_data) (ud_entries desc);
  match entry with
  | None => Ok 0
  | Some entry =>
      if negb (MojomType_IsPointer (ue_elem_type entry)) then Ok 0
      else
      dispatch (ue_elem_type entry) (ue_elem_descriptor entry) (ue_nullable entry)
        (union_data in_union_data)
  end.
End size_objects.

(** For [UNION_PTR] the source passes [data], the pointer slot, and not the
    union it points to. *)
Fixpoint MojomType_DispatchComputeSerializedSize (m : mem) (fuel : nat)
    (type : MojomTypeDescriptorType) (type_desc : desc_ptr) (nullable : bool) (data : Z)
    : result Z :=
  match fuel with
  | O => Crash OutOfFuel
  | S fuel' =>
    let dispatch := MojomType_DispatchComputeSerializedSize m fuel' in
    let size_union (udata size : Z) : result Z :=
      usize ← (if nullable then (if negb (udata =? 0) then union_size m udata else Ok 0)
               else Ok 0);
      if negb nullable || (negb (udata =? 0) && negb (usize =? 0)) then
        s ← MojomUnion_ComputeSerializedSize m dispatch type_desc data;
        Ok (u64 (size + s))
      else Ok size in
    match type with
    | MAP_PTR | STRUCT_PTR =>
        data_ptr ← load64 m data;
        if negb nullable || negb (data_ptr =? 0) then
          MojomStruct_ComputeSerializedSize m dispatch type_desc data_ptr
        else Ok 0
    | ARRAY_PTR =>
        data_ptr ← load64 m data;
        if negb nullable || negb (data_ptr =? 0) then
          MojomArray_ComputeSerializedSize m dispatch type_desc data_ptr
        else Ok 0
    | UNION_PTR =>
        data_ptr ← load64 m data;
        size_union data_ptr (if negb (data_ptr =? 0) then sizeof_MojomUnionLayout else 0)
    | UNION => size_union data 0
    | HANDLE | INTERFACE | POD => Crash AssertFailed
    end
  end.

Section copy_objects.
Context (dispatch : MojomTypeDescriptorType → desc_ptr → Z → Z → BM bool).

(** [out_struct] is the address of the pointer to set; [*out_struct] is
    read again for every field. *)
Definition MojomStruct_DeepCopy (in_type_desc : desc_ptr) (in_struct out_struct : Z)
    : BM bool :=
  c_assert (desc_nonnull in_type_desc);;
  c_assert (negb (in_struct =? 0));;
  c_assert (negb (out_struct =? 0));;
  num_bytes ← read (λ m, struct_num_bytes m in_struct);
  copy ← MojomBuffer_Allocate num_bytes;
  write (λ m, store64 m out_struct copy);;
  copy ← read (λ m, load64 m out_struct);
  if copy =? 0 then mret false
  else
  num_bytes ← read (λ m, struct_num_bytes m in_struct);
  write (λ m, memcpy (Z.to_nat num_bytes) m copy in_struct);;
  desc ← lift (deref_struct descs in_type_desc);
  copy_each (sd_entries desc) (λ entry,
    version ← read (λ m, struct_version m in_struct);
    if version <? se_min_version entry then mret true
    else
    copy ← read (λ m, load64 m out_struct);
    dispatch (se_elem_type entry) (se_elem_descriptor entry)
      (in_struct + sizeof_MojomStructHeader + se_offset entry)
      (copy + sizeof_MojomStructHeader + se_offset entry)).

(** As in [for_each_element], the element count is read again before each
    iteration and must not grow. *)
Definition MojomArray_DeepCopy (in_type_desc : desc_ptr) (in_array out_array : Z)
    : BM bool :=
  c_assert (desc_nonnull in_type_desc);;
  c_assert (negb (in_array =? 0));;
  c_assert (negb (out_array =? 0));;
  num_bytes ← read (λ m, array_num_bytes m in_array);
  copy ← MojomBuffer_Allocate num_bytes;
  write (λ m, store64 m out_array copy);;
  copy ← read (λ m, load64 m out_array);
  if copy =? 0 then mret false
  else
  num_bytes ← read (λ m, array_num_bytes m in_array);
  write (λ m, memcpy (Z.to_nat num_bytes) m copy in_array);;
  desc ← lift (deref_array descs in_type_desc);
  if bool_decide (ad_elem_type desc = POD) then mret true
  else
  num_elements ← read (λ m, array_num_elements m in_array);
  ok ← copy_each (seqZ 0 num_elements) (λ i,
    num ← read (λ m, array_num_elements m in_array);
    if num <=? i then mret true
    else
    in_elem_data ← lift (array_index_by_type in_array (ad_elem_type desc) i);
    copy ← read (λ m, load64 m out_array);
    out_elem_data ← lift (array_index_by_type copy (ad_elem_type desc) i);
    dispatch (ad_elem_type desc) (ad_elem_descriptor desc) in_elem_data out_elem_data);
  num ← read (λ m, array_num_elements m in_array);
  if (ok : bool) && (num_elements <? num) then crash OutOfFuel else mret ok.

Definition MojomUnion_DeepCopy (in_type_desc : desc_ptr) (in_union_data out_union_data : Z)
    : BM bool :=
  write (λ m, memcpy (Z.to_nat sizeof_MojomUnionLayout) m out_union_data in_union_data);;
  size ← read (λ m, union_size m in_union_data);
  if size =? 0 then mret true
  else
  desc ← lift (deref_union descs in_type_desc);
  entry ← read (λ m, select_union_entry (union_tag m in_union_data) (ud_entries desc));
  match entry with
  | Some entry =>
      if bool_decide (ue_elem_type entry = POD) then mret true
      else
      dispatch (ue_elem_type entry) (ue_elem_descriptor entry)
        (union_data in_union_data) (union_data out_union_data)
  | None =>
      tag ← read (λ m, union_tag m in_union_data);
      mret ((tag <? ud_num_fields desc) || (tag =? UNION_TAG_UNKNOWN))
  end.
End copy_objects.

Fixpoint MojomType_DispatchDeepCopy (fuel : nat) (in_elem_type : MojomTypeDescriptorType)
    (in_type_desc : desc_ptr) (in_data out_data : Z) : BM bool :=
  match fuel with
  | O => crash OutOfFuel
  | S fuel' =>
    let dispatch := MojomType_DispatchDeepCopy fuel' in
    c_assert (negb (in_data =? 0));;
    match in_elem_type with
    | MAP_PTR | STRUCT_PTR =>
        ptr ← read (λ m, load64 m in_data);
        if ptr =? 0 then write (λ m, store64 m out_data 0);; mret true
        else MojomStruct_DeepCopy dispatch in_type_desc ptr out_data
    | ARRAY_PTR =>
        ptr ← read (λ m, load64 m in_data);
        if ptr =? 0 then write (λ m, store64 m out_data 0);; mret true
        else MojomArray_DeepCopy dispatch in_type_desc ptr out_data
    | UNION_PTR =>
        ptr ← read (λ m, load64 m in_data);
        if ptr =? 0 then write (λ m, store64 m out_data 0);; mret true
        else
        copy ← MojomBuffer_Allocate sizeof_MojomUnionLayout;
        if copy =? 0 then mret false
        else
        write (λ m, store64 m out_data copy);;
        MojomUnion_DeepCopy dispatch in_type_desc ptr copy
    | UNION => MojomUnion_DeepCopy dispatch in_type_desc in_data out_data
    | HANDLE | INTERFACE | POD => mret true
    end
  end.
End size_copy.
