(* ===== verification/Objects.v ===== *)
(** * Well-formed objects in memory, and what a copy of one is

    [objects] describes the unencoded object graphs the bindings work on: every
    pointer null where that is allowed or leading to an object that is all
    there.  [copy_of] relates such a graph to another one that holds the same
    data at other addresses. *)
From stdpp Require Import base list numbers option gmap.
From S2P Require Import Prelude Memory TypeDescriptor Validate Codec Buffer SizeCopy.

(** Bytes the objects of a list occupy: as they are, and each rounded up to 8. *)
Definition total (sizes : list Z) : Z := foldr Z.add 0 sizes.
Definition space (sizes : list Z) : Z := foldr (λ s acc, round8 s + acc) 0 sizes.

Lemma total_app l1 l2 : total (l1 ++ l2) = total l1 + total l2.
Proof. induction l1 as [|s l1 IH]; cbn; [done|]. unfold total in *. lia. Qed.
Lemma space_app l1 l2 : space (l1 ++ l2) = space l1 + space l2.
Proof. induction l1 as [|s l1 IH]; cbn; [done|]. unfold space in *. lia. Qed.

Lemma space_nonneg l : Forall (λ s, 0 <= s) l → 0 <= space l.
Proof.
  induction 1 as [|s l Hs Hl IH]; [done|].
  change (space (s :: l)) with (round8 s + space l). pose proof (round8_nonneg s Hs). lia.
Qed.

Lemma total_nonneg l : Forall (λ s, 0 <= s) l → 0 <= total l.
Proof.
  induction 1 as [|s l Hs Hl IH]; [done|]. change (0 <= s + total l). lia.
Qed.

(** Objects whose sizes are multiples of 8 leave no gaps. *)
Lemma space_total l : Forall (λ s, s mod 8 = 0) l → space l = total l.
Proof.
  induction 1 as [|s l Hs Hl IH]; [done|].
  change (round8 s + space l = s + total l). rewrite round8_mult by done. lia.
Qed.

Lemma total_le_space l : total l <= space l.
Proof.
  induction l as [|s l IH]; [done|].
  change (s + total l <= round8 s + space l). pose proof (round8_bounds s). lia.
Qed.

(** The types whose slots copying rewrites; handles are copied as they are. *)
Definition rewritten (t : MojomTypeDescriptorType) : bool :=
  match t with HANDLE | INTERFACE | POD => false | _ => true end.
Definition out_slot (t : MojomTypeDescriptorType) (p : Z) (x : Z) : Prop :=
  rewritten t = true ∧ range p (p + elem_size t) x.

#[global] Instance out_slot_dec t p : DecRegion (out_slot t p).
Proof. intros x. unfold out_slot. apply _. Defined.

Section objects.
Context (descs : desc_table) (m : mem).
(** Where the objects are; and whether unions may be nested in unions. *)
Context (src : Z → Prop) (nested : bool).

(** The [n] bytes at [p] are mapped and part of [src]. *)
Definition held (p n : Z) : Prop := ∀ x, range p (p + n) x → src x ∧ is_Some (m !! x).

Section levels.
(** [slots t dp nullable p sizes]: the slot at [p], of type [t], holds
    well-formed data; the objects reached from it have the given sizes, in
    the order of the traversal. *)
Context (slots : MojomTypeDescriptorType → desc_ptr → bool → Z → list Z → Prop).

Definition struct_objects (dp : desc_ptr) (q : Z) (sizes : list Z) : Prop :=
  ∃ d nb ver sizess,
    deref_struct descs dp = Ok d ∧ struct_num_bytes m q = Ok nb ∧
    struct_version m q = Ok ver ∧ 8 <= nb ∧ held q nb ∧
    Forall2 (λ e s,
      if ver <? se_min_version e then s = []
      else 0 <= se_offset e ∧ 8 + se_offset e + elem_size (se_elem_type e) <= nb ∧
        slots (se_elem_type e) (se_elem_descriptor e) (se_nullable e)
          (q + 8 + se_offset e) s) (sd_entries d) sizess ∧
    sizes = nb :: concat sizess.

Definition array_objects (dp : desc_ptr) (q : Z) (sizes : list Z) : Prop :=
  ∃ d nb k sizess,
    deref_array descs dp = Ok d ∧ array_num_bytes m q = Ok nb ∧
    array_num_elements m q = Ok k ∧ 8 <= nb ∧ held q nb ∧
    ad_elem_type d ≠ UNION_PTR ∧
    (if bool_decide (ad_elem_type d = POD) then sizess = []
     else 8 + elem_size (ad_elem_type d) * k <= nb ∧
       Forall2 (λ i s, slots (ad_elem_type d) (ad_elem_descriptor d) (ad_nullable d)
         (q + 8 + elem_size (ad_elem_type d) * i) s) (seqZ 0 k) sizess) ∧
    sizes = nb :: concat sizess.

(** A union that is not null: a field it has an entry for, another field of
    the type, or an unknown one. *)
Definition union_objects (dp : desc_ptr) (p : Z) (sizes : list Z) : Prop :=
  ∃ d tag o,
    deref_union descs dp = Ok d ∧ union_tag m p = Ok tag ∧
    select_union_entry (Ok tag) (ud_entries d) = Ok o ∧
    match o with
    | None => (tag <? ud_num_fields d) || (tag =? UNION_TAG_UNKNOWN) = true ∧ sizes = []
    | Some e =>
        if bool_decide (ue_elem_type e = POD) then sizes = []
        else ue_elem_type e ≠ UNION ∧
          slots (ue_elem_type e) (ue_elem_descriptor e) (ue_nullable e) (p + 8) sizes
    end.
End levels.

Fixpoint objects (n : nat) (t : MojomTypeDescriptorType) (dp : desc_ptr)
    (nullable : bool) (p : Z) (sizes : list Z) : Prop :=
  match n with
  | O => False
  | S n' =>
    held p (elem_size t) ∧
    match t with
    | STRUCT_PTR | MAP_PTR =>
        ∃ q, load64 m p = Ok q ∧
          if q =? 0 then nullable = true ∧ sizes = []
          else struct_objects (objects n') dp q sizes
    | ARRAY_PTR =>
        ∃ q, load64 m p = Ok q ∧
          if q =? 0 then nullable = true ∧ sizes = []
          else array_objects (objects n') dp q sizes
    | UNION_PTR =>
        nested = true ∧ ∃ q, load64 m p = Ok q ∧
          if q =? 0 then nullable = true ∧ sizes = []
          else held q 16 ∧ ∃ sz rest, union_size m q = Ok sz ∧ sizes = 16 :: rest ∧
            if sz =? 0 then rest = [] else union_objects (objects n') dp q rest
    | UNION =>
        ∃ sz, union_size m p = Ok sz ∧
          if sz =? 0 then nullable = true ∧ sizes = []
          else union_objects (objects n') dp p sizes
    | HANDLE | INTERFACE | POD => sizes = []
    end
  end.

(** The [n] bytes at [p2] in [m2] are those at [p] in [m], except at the
    offsets [skip]. *)
Definition same_bytes (p : Z) (m2 : mem) (p2 n : Z) (skip : Z → Prop) : Prop :=
  ∀ o, 0 <= o < n → ¬ skip o → m2 !! (p2 + o) = m !! (p + o).

Section copies.
(** [slot_copy t dp p m2 p2 lo hi]: the slot at [p2] in [m2] holds a copy of
    the data at [p] in [m], its objects within [lo, hi). *)
Context (slot_copy : MojomTypeDescriptorType → desc_ptr → Z → mem → Z → Z → Z → Prop).

Definition struct_copy (dp : desc_ptr) (q : Z) (m2 : mem) (q2 lo hi : Z) : Prop :=
  ∃ d nb ver,
    deref_struct descs dp = Ok d ∧ struct_num_bytes m q = Ok nb ∧
    struct_version m q = Ok ver ∧ lo <= q2 ∧ q2 + nb <= hi ∧
    same_bytes q m2 q2 nb (λ o, ∃ e, e ∈ sd_entries d ∧ se_min_version e <= ver ∧
      out_slot (se_elem_type e) (8 + se_offset e) o) ∧
    ∀ e, e ∈ sd_entries d → se_min_version e <= ver →
      0 <= se_offset e ∧ 8 + se_offset e + elem_size (se_elem_type e) <= nb ∧
      slot_copy (se_elem_type e) (se_elem_descriptor e) (q + 8 + se_offset e)
        m2 (q2 + 8 + se_offset e) lo hi.

Definition array_copy (dp : desc_ptr) (q : Z) (m2 : mem) (q2 lo hi : Z) : Prop :=
  ∃ d nb k,
    deref_array descs dp = Ok d ∧ array_num_bytes m q = Ok nb ∧
    array_num_elements m q = Ok k ∧ lo <= q2 ∧ q2 + nb <= hi ∧
    same_bytes q m2 q2 nb (λ o, ∃ i, 0 <= i < k ∧
      out_slot (ad_elem_type d) (8 + elem_size (ad_elem_type d) * i) o) ∧
    (ad_elem_type d ≠ POD → ∀ i, 0 <= i < k →
      8 + elem_size (ad_elem_type d) * i + elem_size (ad_elem_type d) <= nb ∧
      slot_copy (ad_elem_type d) (ad_elem_descriptor d)
        (q + 8 + elem_size (ad_elem_type d) * i)
        m2 (q2 + 8 + elem_size (ad_elem_type d) * i) lo hi).

Definition union_copy (dp : desc_ptr) (p : Z) (m2 : mem) (p2 lo hi : Z) : Prop :=
  ∃ sz, union_size m p = Ok sz ∧
    if sz =? 0 then same_bytes p m2 p2 16 (λ _, False)
    else ∃ d o, deref_union descs dp = Ok d ∧
      select_union_entry (union_tag m p) (ud_entries d) = Ok o ∧
      match o with
      | None => same_bytes p m2 p2 16 (λ _, False)
      | Some e =>
          same_bytes p m2 p2 16 (out_slot (ue_elem_type e) 8) ∧
          (ue_elem_type e ≠ POD → ue_elem_type e ≠ UNION ∧
            slot_copy (ue_elem_type e) (ue_elem_descriptor e) (p + 8) m2 (p2 + 8) lo hi)
      end.
End copies.

Fixpoint copy_of (n : nat) (t : MojomTypeDescriptorType) (dp : desc_ptr) (p : Z)
    (m2 : mem) (p2 lo hi : Z) : Prop :=
  match n with
  | O => False
  | S n' =>
    match t with
    | STRUCT_PTR | MAP_PTR =>
        ∃ q q2, load64 m p = Ok q ∧ load64 m2 p2 = Ok q2 ∧
          if q =? 0 then q2 = 0 else struct_copy (copy_of n') dp q m2 q2 lo hi
    | ARRAY_PTR =>
        ∃ q q2, load64 m p = Ok q ∧ load64 m2 p2 = Ok q2 ∧
          if q =? 0 then q2 = 0 else array_copy (copy_of n') dp q m2 q2 lo hi
    | UNION_PTR =>
        ∃ q q2, load64 m p = Ok q ∧ load64 m2 p2 = Ok q2 ∧
          if q =? 0 then q2 = 0
          else lo <= q2 ∧ q2 + 16 <= hi ∧ union_copy (copy_of n') dp q m2 q2 lo hi
    | UNION => union_copy (copy_of n') dp p m2 p2 lo hi
    | HANDLE | INTERFACE | POD => True
    end
  end.
End objects.
