(* ===== verification/Graph.v ===== *)
(** * Checking that a graph of objects is well formed

    An executable version of [Objects.objects], for graphs whose objects lie in
    one area of memory, with its soundness; and a sample graph for the theorems
    on copying. *)
From stdpp Require Import base list numbers option gmap.
From S2P Require Import Prelude Memory TypeDescriptor Validate Codec Sample SizeCopy Objects.

Definition of_result {A} (r : result A) : option A :=
  match r with Ok a => Some a | Crash _ => None end.

Lemma of_result_Some {A} (r : result A) a : of_result r = Some a → r = Ok a.
Proof. destruct r; naive_solver. Qed.

Definition check (b : bool) : option unit := if b then Some tt else None.

Lemma check_Some b u : check b = Some u → b = true.
Proof. by destruct b. Qed.

Section graph.
Context (descs : desc_table) (m : mem) (lo hi : Z) (nested : bool).

Definition held_check (p n : Z) : bool := (lo <=? p) && (p + n <=? hi).

Section levels.
Context (slots : MojomTypeDescriptorType → desc_ptr → bool → Z → option (list Z)).

Definition struct_graph (dp : desc_ptr) (q : Z) : option (list Z) :=
  d ← of_result (deref_struct descs dp);
  nb ← of_result (struct_num_bytes m q);
  ver ← of_result (struct_version m q);
  _ ← check ((8 <=? nb) && held_check q nb);
  sizess ← mapM (λ e,
    if ver <? se_min_version e then Some []
    else
    _ ← check ((0 <=? se_offset e) && (8 + se_offset e + elem_size (se_elem_type e) <=? nb));
    slots (se_elem_type e) (se_elem_descriptor e) (se_nullable e) (q + 8 + se_offset e))
    (sd_entries d);
  Some (nb :: concat sizess).

Definition array_graph (dp : desc_ptr) (q : Z) : option (list Z) :=
  d ← of_result (deref_array descs dp);
  nb ← of_result (array_num_bytes m q);
  k ← of_result (array_num_elements m q);
  _ ← check ((8 <=? nb) && held_check q nb && negb (bool_decide (ad_elem_type d = UNION_PTR)));
  if bool_decide (ad_elem_type d = POD) then Some [nb]
  else
  _ ← check (8 + elem_size (ad_elem_type d) * k <=? nb);
  sizess ← mapM (λ i, slots (ad_elem_type d) (ad_elem_descriptor d) (ad_nullable d)
    (q + 8 + elem_size (ad_elem_type d) * i)) (seqZ 0 k);
  Some (nb :: concat sizess).

Definition union_graph (dp : desc_ptr) (p : Z) : option (list Z) :=
  d ← of_result (deref_union descs dp);
  tag ← of_result (union_tag m p);
  o ← of_result (select_union_entry (Ok tag) (ud_entries d));
  match o with
  | None => _ ← check ((tag <? ud_num_fields d) || (tag =? UNION_TAG_UNKNOWN)); Some []
  | Some e =>
      if bool_decide (ue_elem_type e = POD) then Some []
      else
      _ ← check (negb (bool_decide (ue_elem_type e = UNION)));
      slots (ue_elem_type e) (ue_elem_descriptor e) (ue_nullable e) (p + 8)
  end.
End levels.

Fixpoint graph (n : nat) (t : MojomTypeDescriptorType) (dp : desc_ptr) (nullable : bool)
    (p : Z) : option (list Z) :=
  match n with
  | O => None
  | S n' =>
    let pointer (object : Z → option (list Z)) :=
      q ← of_result (load64 m p);
      if q =? 0 then (_ ← check nullable; Some []) else object q in
    _ ← check (held_check p (elem_size t));
    match t with
    | STRUCT_PTR | MAP_PTR => pointer (struct_graph (graph n') dp)
    | ARRAY_PTR => pointer (array_graph (graph n') dp)
    | UNION_PTR =>
        _ ← check nested;
        pointer (λ q,
          _ ← check (held_check q 16);
          sz ← of_result (union_size m q);
          rest ← (if sz =? 0 then Some [] else union_graph (graph n') dp q);
          Some (16 :: rest))
    | UNION =>
        sz ← of_result (union_size m p);
        if sz =? 0 then (_ ← check nullable; Some []) else union_graph (graph n') dp p
    | HANDLE | INTERFACE | POD => Some []
    end
  end.

(** *** Soundness *)

Context (Hm : mapped m lo hi).
Abbreviation src := (range lo hi).

Lemma held_check_sound p n : held_check p n = true → held m src p n.
Proof.
  unfold held_check. intros Hc x Hx. unfold range in *. split; [lia|]. apply Hm.
  unfold range. lia.
Qed.

(** Inverts the binds of a successful check. *)
Ltac inv_graph :=
  repeat match goal with
  | H : _ ≫= _ = Some _ |- _ => apply bind_Some in H as (? & ? & ?)
  | H : of_result _ = Some _ |- _ => apply of_result_Some in H
  | H : check _ = Some _ |- _ => apply check_Some in H
  | H : _ && _ = true |- _ => apply andb_true_iff in H as [? ?]
  | H : Some _ = Some _ |- _ => injection H as H
  | H : held_check _ _ = true |- _ => apply held_check_sound in H
  end.

Section level_sound.
Context (n : nat) (slots : MojomTypeDescriptorType → desc_ptr → bool → Z → option (list Z)).
Context (Hslots : ∀ t dp nullable p sizes, slots t dp nullable p = Some sizes →
  objects descs m src nested n t dp nullable p sizes).

Lemma struct_graph_sound dp q sizes :
  struct_graph slots dp q = Some sizes →
  struct_objects descs m src (objects descs m src nested n) dp q sizes.
Proof.
  unfold struct_graph. intros Hg. inv_graph.
  do 4 eexists. split_and!; [done|done|done|lia|done| |by subst].
  eapply Forall2_impl; [by apply mapM_Some|]. cbn. intros e s Hs.
  destruct (_ <? _); [by injection Hs|]. inv_graph. split_and!; [lia|lia|auto].
Qed.

Lemma array_graph_sound dp q sizes :
  array_graph slots dp q = Some sizes →
  array_objects descs m src (objects descs m src nested n) dp q sizes.
Proof.
  unfold array_graph. intros Hg. inv_graph.
  assert (ad_elem_type x ≠ UNION_PTR) by (by destruct (bool_decide_reflect (ad_elem_type x = UNION_PTR))).
  destruct (bool_decide (ad_elem_type x = POD)) eqn:Hpod; inv_graph.
  - exists x, x0, x1, []. rewrite Hpod. split_and!; [done|done|done|lia|done|done|done|by subst].
  - exists x, x0, x1, x4. rewrite Hpod.
    split_and!; [done|done|done|lia|done|done|lia| |by subst].
    eapply Forall2_impl; [by apply mapM_Some|]. cbn. intros i s Hs. auto.
Qed.

Lemma union_graph_sound dp p sizes :
  union_graph slots dp p = Some sizes →
  union_objects descs m (objects descs m src nested n) dp p sizes.
Proof.
  unfold union_graph. intros Hg. inv_graph. exists x, x0, x1.
  split_and!; [done|done|done|]. destruct x1 as [e|]; [|by inv_graph; subst].
  destruct (bool_decide (ue_elem_type e = POD)); inv_graph; [done|].
  split; [|auto]. by destruct (bool_decide_reflect (ue_elem_type e = UNION)).
Qed.
End level_sound.

(** A graph that passes the check is well formed, with the sizes computed. *)
Lemma graph_sound n t dp nullable p sizes :
  graph n t dp nullable p = Some sizes → objects descs m src nested n t dp nullable p sizes.
Proof.
  revert t dp nullable p sizes. induction n as [|n IH]; [done|].
  intros t dp nullable p sizes Hg. cbn [graph] in Hg. inv_graph. split; [done|].
  destruct t; inv_graph.
  - exists x0. split; [done|]. destruct (x0 =? 0); inv_graph; [by subst|by eapply struct_graph_sound].
  - exists x0. split; [done|]. destruct (x0 =? 0); inv_graph; [by subst|by eapply struct_graph_sound].
  - exists x0. split; [done|]. destruct (x0 =? 0); inv_graph; [by subst|by eapply array_graph_sound].
  - split; [done|]. exists x1. split; [done|]. destruct (x1 =? 0); inv_graph; [by subst|].
    split; [done|]. exists x3, x4. split_and!; [done|done|].
    destruct (x3 =? 0); inv_graph; [done|by eapply union_graph_sound].
  - exists x0. split; [done|]. destruct (x0 =? 0); inv_graph; [by subst|by eapply union_graph_sound].
  - done.
  - done.
  - done.
Qed.
End graph.

(** ** A sample graph

    Unencoded, as a program would have built it: a struct at 4096 with a string
    of four characters, a further struct, and a union that holds a string.  The
    strings do not fill their last word. *)
Definition graph_descs : desc_table := [
  DescStruct {| sd_versions := [mkStructVersion 0 40];
    sd_entries := [
      mkStructEntry ARRAY_PTR (Some 1%nat) 0 0 false;
      mkStructEntry STRUCT_PTR (Some 0%nat) 8 0 true;
      mkStructEntry UNION (Some 2%nat) 16 0 true] |};
  DescArray g_mojom_string_type_description;
  DescUnion {| ud_num_fields := 2; ud_entries := [mkUnionEntry ARRAY_PTR (Some 1%nat) 1 false] |}].

Definition graph_words : list Z := [
  (* 4096 *) 40; 0; 4136; 0; 4152; 0; 16; 1; 4208; 0;
  (* 4136 *) 12; 4; 1684234849; 0;
  (* 4152 *) 40; 0; 4192; 0; 0; 0; 0; 0; 0; 0;
  (* 4192 *) 10; 2; 26984; 0;
  (* 4208 *) 9; 1; 120; 0].

(** The graph, a buffer of 136 bytes at 8192 and a result slot at 8000. *)
Definition graph_mem : mem :=
  words 4096 graph_words ∪ words 8192 (repeat 0 34) ∪ words 8000 [0; 0].

Definition graph_sizes : list Z := [40; 12; 40; 10; 9].

Lemma graph_mapped : mapped graph_mem 4096 4224.
Proof. apply mapped_check_sound. by vm_compute. Qed.

Lemma graph_objects :
  struct_objects graph_descs graph_mem (range 4096 4224)
    (objects graph_descs graph_mem (range 4096 4224) false 3) (Some 0%nat) 4096 graph_sizes.
Proof.
  eapply struct_graph_sound; [apply graph_mapped|apply graph_sound, graph_mapped|].
  by vm_compute.
Qed.
