(* ===== verification/CopySteps.v ===== *)
(** * Steps of a deep copy

    A rule per construct of the copying code: sequencing, reads, stores,
    allocation, loops.  The rules compose the total correctness of a copy:
    success, the exact use of the buffer, what is written and what is kept; and
    failure without a crash when the buffer is too small. *)
From stdpp Require Import base list numbers option gmap.
From S2P Require Import Prelude Memory TypeDescriptor Codec Buffer SizeCopy Objects.

(** ** Copying steps

    [copies base keep slot sizes Q f]: started from a memory that agrees with
    [base] on [keep] and a buffer with room for objects of the given sizes, away
    from [keep] and [slot], the step [f] succeeds; it allocates exactly the
    objects, writes only them and [slot], and establishes [Q] of the place in
    the buffer and the memory.  With a buffer that has too little room, [f]
    returns false ([refuses]); it may have written [slot] and what was free in
    the buffer, and allocated some of it. *)
Definition same_dom (m1 m2 : mem) : Prop := ∀ x, is_Some (m1 !! x) ↔ is_Some (m2 !! x).

Definition advance (b : MojomBuffer) (n : Z) : MojomBuffer :=
  mkBuffer (buf b) (buf_size b) (num_bytes_used b + n).

(** The next [n] free bytes of a buffer. *)
Definition free (b : MojomBuffer) (n : Z) : Z → Prop :=
  range (buf b + num_bytes_used b) (buf b + num_bytes_used b + n).

(** All that is free in a buffer. *)
Definition rest (b : MojomBuffer) : Z → Prop :=
  range (buf b + num_bytes_used b) (buf b + buf_size b).

(** What a step that failed may have done. *)
Definition gave_up (slot : Z → Prop) (m1 : mem) (b : MojomBuffer) (m2 : mem) (b2 : MojomBuffer)
    : Prop :=
  agree_on (outside (union slot (rest b))) m1 m2 ∧ same_dom m1 m2 ∧
  buf b2 = buf b ∧ buf_size b2 = buf_size b ∧
  num_bytes_used b <= num_bytes_used b2 <= buf_size b.

Definition refuses (base : mem) (keep slot : Z → Prop) (sizes : list Z) (f : BM bool) : Prop :=
  ∀ m1 b, agree_on keep base m1 → buffer_ok b →
    buf_size b < num_bytes_used b + space sizes →
    (∀ x, rest b x → is_Some (m1 !! x)) → (∀ x, slot x → is_Some (m1 !! x)) →
    disjoint slot (rest b) → disjoint keep (rest b) →
    ∃ m2 b2, f (m1, Some b) = Ok (false, (m2, Some b2)) ∧ gave_up slot m1 b m2 b2.

Definition copies (base : mem) (keep slot : Z → Prop) (sizes : list Z)
    (Q : Z → Z → mem → Prop) (f : BM bool) : Prop :=
  Forall (λ s, 0 <= s) sizes ∧
  (∀ m1 b, agree_on keep base m1 → buffer_ok b →
    num_bytes_used b + space sizes <= buf_size b →
    (∀ x, free b (space sizes) x → is_Some (m1 !! x)) → (∀ x, slot x → is_Some (m1 !! x)) →
    disjoint slot (free b (space sizes)) → disjoint keep (free b (space sizes)) →
    ∃ m2, f (m1, Some b) = Ok (true, (m2, Some (advance b (space sizes)))) ∧
      agree_on (outside (union slot (free b (space sizes)))) m1 m2 ∧ same_dom m1 m2 ∧
      Q (buf b + num_bytes_used b) (buf b + num_bytes_used b + space sizes) m2) ∧
  refuses base keep slot sizes f.

Section copies_rules.
Implicit Types (Q : Z → Z → mem → Prop) (f : BM bool).

Lemma advance_0 b : advance b 0 = b.
Proof. destruct b. unfold advance; cbn. by rewrite Z.add_0_r. Qed.

Lemma refuses_nil base keep slot f : refuses base keep slot [] f.
Proof.
  intros m1 b _ Hb Hroom. change (space []) with 0 in Hroom. unfold buffer_ok in Hb. lia.
Qed.

(** A step that changes nothing. *)
Lemma copies_ret base keep slot Q :
  (∀ lo m1, agree_on keep base m1 → Q lo lo m1) →
  copies base keep slot [] Q (mret true).
Proof.
  intros HQ. split_and!; [constructor| |by apply refuses_nil].
  intros m1 b Hk Hb Hroom Hf Hs Hd1 Hd2. exists m1.
  change (space []) with 0. rewrite advance_0. split_and!; [done|done|done|].
  rewrite Z.add_0_r. by apply HQ.
Qed.

(** The same, started and ended in any way. *)
Lemma unchanged_copies base keep slot (Q : Z → Z → mem → Prop) :
  (∀ lo m1, Q lo lo m1) → copies base keep slot [] Q (mret true).
Proof. intros HQ. by apply copies_ret. Qed.

Lemma refuses_weaken base keep slot sizes f base' keep' slot' :
  refuses base keep slot sizes f →
  (∀ x, keep x → keep' x) → agree_on keep base base' → (∀ x, slot x → slot' x) →
  refuses base' keep' slot' sizes f.
Proof.
  intros Hr Hk Hb Hsl m1 b Ha Hbuf Hroom Hf Hslot Hd1 Hd2.
  destruct (Hr m1 b) as (m2 & b2 & Hf2 & Hout & Hg); [|done|done|done| | | |].
  - intros x Hx. rewrite (Hb x Hx). apply Ha. auto.
  - auto.
  - intros x Hx. apply Hd1. auto.
  - intros x Hx. apply Hd2. auto.
  - exists m2, b2. split; [done|]. split; [|done].
    intros x Hx. apply Hout. intros [Hy|Hy]; apply Hx; [left; auto|by right].
Qed.

Lemma copies_weaken base keep slot sizes Q f base' keep' slot' Q' :
  copies base keep slot sizes Q f →
  (∀ x, keep x → keep' x) → agree_on keep base base' → (∀ x, slot x → slot' x) →
  (∀ lo hi m2, Q lo hi m2 → Q' lo hi m2) →
  copies base' keep' slot' sizes Q' f.
Proof.
  intros (Hs & Hc & Hr) Hk Hb Hsl HQ. split_and!; [done| |by eapply refuses_weaken].
  intros m1 b Ha Hbuf Hroom Hf Hslot Hd1 Hd2.
  destruct (Hc m1 b) as (m2 & Hf2 & Hout & Hdom & HQ2); [|done|done|done| | | |].
  - intros x Hx. rewrite (Hb x Hx). apply Ha. auto.
  - auto.
  - intros x Hx. apply Hd1. auto.
  - intros x Hx. apply Hd2. auto.
  - exists m2. split_and!; [done| |done|by apply HQ].
    intros x Hx. apply Hout. intros [Hy|Hy]; apply Hx; [left; auto|by right].
Qed.

(** Reading what is kept. *)
Lemma copies_read {A} base keep slot sizes Q (g : mem → result A) a (f : A → BM bool) :
  copies base keep slot sizes Q (f a) →
  (∀ m1, agree_on keep base m1 → g m1 = Ok a) →
  copies base keep slot sizes Q (x ← read g; f x).
Proof.
  intros (Hs & Hc & Hr) Hg. split_and!; [done|..];
    intros m1 b Hk; unfold read, get_mem, mbind, stateR_bind, lift; cbn [fst];
    rewrite Hg by done; [by apply Hc|by apply Hr].
Qed.

Lemma free_app b s1 s2 x :
  0 <= space s1 → 0 <= space s2 →
  free b (space (s1 ++ s2)) x ↔
    free b (space s1) x ∨ free (advance b (space s1)) (space s2) x.
Proof. intros H1 H2. rewrite space_app. unfold free, advance, range; cbn. lia. Qed.

Lemma advance_ok b n :
  buffer_ok b → 0 <= n → num_bytes_used b + n <= buf_size b → buffer_ok (advance b n).
Proof. unfold buffer_ok, advance; cbn. lia. Qed.

(** What is kept survives the step. *)
Lemma copies_kept base keep slot sizes Q f :
  disjoint keep slot → copies base keep slot sizes Q f →
  copies base keep slot sizes (λ lo hi m2, agree_on keep base m2 ∧ Q lo hi m2) f.
Proof.
  intros Hd (Hs & Hc & Href). split_and!; [done| |done].
  intros m1 b Hk Hb Hr Hf Hsl H1 H2.
  destruct (Hc m1 b Hk Hb Hr Hf Hsl H1 H2) as (m2 & Hf2 & Hout & Hdom & HQ).
  exists m2. split_and!; [done|done|done| |done].
  intros x Hx. rewrite (Hk x Hx). apply Hout. intros [Hy|Hy]; [by apply (Hd x)|by apply (H2 x)].
Qed.

(** Two steps on disjoint slots, the second one only if the first succeeded.
    What the first one establishes must survive changes elsewhere. *)
Section seq.
Context (base : mem) (keep slot1 slot2 : Z → Prop) (s1 s2 : list Z) (f1 f2 : BM bool).
Context (H12 : disjoint slot1 slot2) (Hkeep : disjoint keep slot1).

(** The first step as the second one sees it. *)
Lemma first_step Q1 m1 b :
  copies base keep slot1 s1 Q1 f1 → agree_on keep base m1 → buffer_ok b →
  num_bytes_used b + space s1 <= buf_size b →
  (∀ x, free b (space s1) x → is_Some (m1 !! x)) → (∀ x, slot1 x → is_Some (m1 !! x)) →
  disjoint slot1 (free b (space s1)) → disjoint keep (free b (space s1)) →
  ∃ m2, (ok ← f1; if negb ok then mret false else f2) (m1, Some b) =
      f2 (m2, Some (advance b (space s1))) ∧
    agree_on (outside (union slot1 (free b (space s1)))) m1 m2 ∧ same_dom m1 m2 ∧
    agree_on keep base m2 ∧ buffer_ok (advance b (space s1)) ∧
    Q1 (buf b + num_bytes_used b) (buf b + num_bytes_used b + space s1) m2.
Proof.
  intros Hc Hk Hb Hroom Hf Hslot Hd1 Hd2.
  apply copies_kept in Hc as (Hs & Hc & _); [|done]. pose proof (space_nonneg _ Hs).
  destruct (Hc m1 b) as (m2 & Hf2 & Hout & Hdom & Hk2 & HQ); [done..|].
  exists m2. split_and!; [|done|done|done|by apply advance_ok|done].
  by rewrite (bindS_Ok _ _ _ _ _ Hf2).
Qed.

Lemma refuses_seq Q1 :
  copies base keep slot1 s1 Q1 f1 → Forall (λ s, 0 <= s) s2 → refuses base keep slot2 s2 f2 →
  refuses base keep (union slot1 slot2) (s1 ++ s2)
    (ok ← f1; if negb ok then mret false else f2).
Proof.
  intros Hc1 Hs2 Hr2 m1 b Hk Hb Hroom Hf Hslot Hd1 Hd2.
  pose proof (space_nonneg _ (proj1 Hc1)) as Hn1. pose proof (space_nonneg _ Hs2) as Hn2.
  rewrite space_app in Hroom.
  destruct (decide (num_bytes_used b + space s1 <= buf_size b)) as [Hfit|Hfull].
  - assert (∀ x, free b (space s1) x → rest b x) as Hfree
      by (unfold free, rest, range; lia).
    assert (∀ x, rest (advance b (space s1)) x → rest b x) as Hrest
      by (unfold rest, advance, range; cbn; lia).
    destruct (first_step Q1 m1 b) as (m2 & -> & Hout & Hdom & Hk2 & Hb2 & _); try done.
    { auto. }
    { intros x Hx. apply Hslot. by left. }
    { intros x Hx Hx'. apply (Hd1 x); [by left|auto]. }
    { intros x Hx Hx'. apply (Hd2 x); [done|auto]. }
    destruct (Hr2 m2 (advance b (space s1))) as (m3 & b3 & Hf3 & Hout3 & Hdom3 & Hbuf & Hsz & Hu).
    { done. }
    { done. }
    { cbn. lia. }
    { intros x Hx. apply Hdom. auto. }
    { intros x Hx. apply Hdom, Hslot. by right. }
    { intros x Hx Hx'. apply (Hd1 x); [by right|auto]. }
    { intros x Hx Hx'. apply (Hd2 x); [done|auto]. }
    exists m3, b3. cbn in Hbuf, Hsz, Hu. unfold gave_up.
    split_and!; [done| |intros x; by rewrite (Hdom x)|done|done|lia|lia].
    intros x Hx. rewrite Hout, Hout3; [done|..]; intros [Hy|Hy]; apply Hx;
      [left; by right|right; auto|left; by left|right; auto].
  - destruct (proj2 (proj2 Hc1) m1 b) as (m2 & b2 & Hf2 & Hout & Hg); try done.
    { lia. }
    { intros x Hx. apply Hslot. by left. }
    { intros x Hx. apply Hd1. by left. }
    exists m2, b2. split; [by rewrite (bindS_Ok _ _ _ _ _ Hf2)|]. split; [|done].
    intros x Hx. apply Hout. intros [Hy|Hy]; apply Hx; [left; by left|by right].
Qed.

Lemma copies_seq (Q1 Q2 : Z → Z → mem → Prop) :
  copies base keep slot1 s1 Q1 f1 → copies base keep slot2 s2 Q2 f2 →
  (∀ lo hi lo' hi' m2 m2', Q1 lo hi m2 → agree_on (union slot1 (range lo hi)) m2 m2' →
     lo' <= lo → hi <= hi' → Q1 lo' hi' m2') →
  copies base keep (union slot1 slot2) (s1 ++ s2)
    (λ lo hi m2, Q1 lo hi m2 ∧ ∃ lo2, lo <= lo2 ∧ Q2 lo2 hi m2)
    (ok ← f1; if negb ok then mret false else f2).
Proof.
  intros Hc1 (Hs2 & Hc2 & Hr2) HQ. pose proof (proj1 Hc1) as Hs1.
  split_and!; [by apply Forall_app_2| |by eapply refuses_seq].
  pose proof (space_nonneg _ Hs1) as Hn1. pose proof (space_nonneg _ Hs2) as Hn2.
  intros m1 b Hk Hb Hroom Hf Hslot Hd1 Hd2.
  assert (∀ x, free b (space (s1 ++ s2)) x ↔ free b (space s1) x ∨
    free (advance b (space s1)) (space s2) x) as Hfree by (intros x; by apply free_app).
  rewrite space_app in Hroom |- *.
  destruct (first_step Q1 m1 b) as (m2 & -> & Hout2 & Hdom2 & Hk2 & Hb2 & HQ1); try done.
  { lia. }
  { intros x Hx. apply Hf, Hfree. by left. }
  { intros x Hx. apply Hslot. by left. }
  { intros x Hx Hx'. apply (Hd1 x); [by left|]. apply Hfree. by left. }
  { intros x Hx Hx'. apply (Hd2 x); [done|]. apply Hfree. by left. }
  destruct (Hc2 m2 (advance b (space s1))) as (m3 & Hf3 & Hout3 & Hdom3 & HQ2).
  { done. }
  { done. }
  { cbn. lia. }
  { intros x Hx. apply Hdom2, Hf, Hfree. by right. }
  { intros x Hx. apply Hdom2, Hslot. by right. }
  { intros x Hx Hx'. apply (Hd1 x); [by right|]. apply Hfree. by right. }
  { intros x Hx Hx'. apply (Hd2 x); [done|]. apply Hfree. by right. }
  exists m3. unfold advance in HQ2; cbn in HQ2. rewrite Z.add_assoc in HQ2. split_and!.
  - rewrite Hf3. unfold advance; cbn. by rewrite Z.add_assoc.
  - rewrite <- space_app. intros x Hx.
    rewrite Hout2, Hout3; [done|..]; intros [Hy|Hy]; apply Hx;
      [left; by right|right; apply Hfree; by right|left; by left|right; apply Hfree; by left].
  - intros x. by rewrite (Hdom2 x).
  - eapply HQ; [exact HQ1| |lia|lia]. intros x Hx. apply Hout3. intros Hy.
    destruct Hx as [Hx|Hx], Hy as [Hy|Hy]; [by apply (H12 x)| | |].
    + apply (Hd1 x); [by left|]. apply Hfree. by right.
    + apply (Hd1 x); [by right|]. apply Hfree. by left.
    + unfold free, advance, range in *; cbn in *. lia.
  - exists (buf b + num_bytes_used b + space s1). split; [lia|].
    by rewrite Z.add_assoc.
Qed.
End seq.

(** A loop of steps on disjoint slots. *)
Lemma copies_each {A} (l : list A) sizess (slot : A → Z → Prop) (Q : A → Z → Z → mem → Prop)
    (body : A → BM bool) base keep :
  Forall2 (λ a s, copies base keep (slot a) s (Q a) (body a)) l sizess →
  ForallOrdPairs (λ a b, disjoint (slot a) (slot b)) l →
  (∀ a, a ∈ l → disjoint keep (slot a)) →
  (∀ a lo hi lo' hi' m2 m2', a ∈ l → Q a lo hi m2 →
     agree_on (union (slot a) (range lo hi)) m2 m2' → lo' <= lo → hi <= hi' →
     Q a lo' hi' m2') →
  copies base keep (λ x, Exists (λ a, slot a x) l) (concat sizess)
    (λ lo hi m2, ∀ a, a ∈ l → Q a lo hi m2) (copy_each l body).
Proof.
  intros Hl Hpairs. revert sizess Hl.
  induction Hpairs as [|a l Ha Hpairs IH]; intros sizess Hl Hkeep HQ;
    inversion Hl as [|? s ? sizess' Hca Hcl]; subst.
  { apply copies_ret. intros lo m1 _ a Hin. by apply elem_of_nil in Hin. }
  clear Hl. apply IH in Hcl; [|intros; apply Hkeep; by right
    |intros; eapply HQ; eauto; by right].
  assert (disjoint (slot a) (λ x, Exists (λ b, slot b x) l)) as Hdis.
  { intros x Hx (b & Hb & Hy)%Exists_exists. rewrite Forall_forall in Ha. by apply (Ha b Hb x). }
  assert (disjoint keep (slot a)) as Hka by (apply Hkeep; by left).
  eapply copies_weaken; [eapply (copies_seq _ _ _ _ _ _ _ _ Hdis Hka _ _ Hca Hcl)|..].
  - intros. eapply HQ; eauto. by left.
  - done.
  - done.
  - intros x [Hx|Hx]; [by left|by right].
  - intros lo hi m2 [Hqa (lo2 & Hlo & Hql)] b [->|Hb]%elem_of_cons; [done|].
    eapply HQ; [by right|by apply Hql|done|lia|lia].
Qed.

(** A part of the step that neither reads nor writes. *)
Lemma copies_ext base keep slot sizes Q (f g : BM bool) :
  (∀ s, g s = f s) → copies base keep slot sizes Q f → copies base keep slot sizes Q g.
Proof.
  intros Hfg (Hs & Hc & Hr). split_and!; [done|..]; intros m1 b; rewrite Hfg; auto.
Qed.

Lemma copies_lift {A} base keep slot sizes Q (e : result A) a (f : A → BM bool) :
  e = Ok a → copies base keep slot sizes Q (f a) →
  copies base keep slot sizes Q (x ← lift e; f x).
Proof. intros ->. by apply copies_ext. Qed.

(** A check after the step, of what is kept. *)
Lemma copies_check base keep slot sizes Q f (g : bool → BM bool) :
  disjoint keep slot → copies base keep slot sizes Q f →
  (∀ ok m2 b, agree_on keep base m2 → g ok (m2, b) = Ok (ok, (m2, b))) →
  copies base keep slot sizes Q (ok ← f; g ok).
Proof.
  intros Hd Hc Hg. apply copies_kept in Hc as (Hs & Hc & Href); [|done].
  split_and!; [done|..]; intros m1 b Hk Hb Hr Hf Hsl H1 H2.
  - destruct (Hc m1 b Hk Hb Hr Hf Hsl H1 H2) as (m2 & Hf2 & Hout & Hdom & Hk2 & HQ).
    exists m2. rewrite (bindS_Ok _ _ _ _ _ Hf2), Hg by done. done.
  - destruct (Href m1 b Hk Hb Hr Hf Hsl H1 H2) as (m2 & b2 & Hf2 & Hout & Hrest).
    exists m2, b2. rewrite (bindS_Ok _ _ _ _ _ Hf2), Hg; [done|].
    intros x Hx. rewrite (Hk x Hx). apply Hout.
    intros [Hy|Hy]; [by apply (Hd x)|by apply (H2 x)].
Qed.

(** Writing the slot, and going on with part of it kept. *)
Lemma write_Ok {S} (g : mem → result mem) (f : stateR (mem * S) bool) m1 m1' (t : S) :
  g m1 = Ok m1' → (write g;; f) (m1, t) = f (m1', t).
Proof.
  intros Hg. unfold write, get_mem, put_mem, lift, mbind, stateR_bind. cbn [fst snd].
  by rewrite Hg.
Qed.

Lemma copies_write base keep slot sizes Q (g : mem → result mem) (f : BM bool) :
  Forall (λ s, 0 <= s) sizes →
  (∀ m1, agree_on keep base m1 → (∀ x, slot x → is_Some (m1 !! x)) →
     ∃ m1' keep' slot', g m1 = Ok m1' ∧ agree_on (outside slot) m1 m1' ∧ same_dom m1 m1' ∧
       (∀ x, keep' x → keep x ∨ slot x) ∧ (∀ x, slot' x → slot x) ∧
       copies m1' keep' slot' sizes Q f) →
  copies base keep slot sizes Q (write g;; f).
Proof.
  intros Hs Hg. split_and!; [done|..]; intros m1 b Hk Hb Hr Hf Hsl H1 H2;
    destruct (Hg m1 Hk Hsl) as (m1' & keep' & slot' & Hm1 & Hout & Hdom & Hkeep & Hslot & _ &
      Hc & Href); rewrite (write_Ok _ _ _ _ _ Hm1).
  - destruct (Hc m1' b) as (m2 & Hf2 & Hout2 & Hdom2 & HQ); [done|done|done|..].
    { intros x Hx. apply Hdom. auto. }
    { intros x Hx. apply Hdom. auto. }
    { intros x Hx. apply H1. auto. }
    { intros x Hx Hx'. destruct (Hkeep x Hx); [by apply (H2 x)|by apply (H1 x)]. }
    exists m2. split_and!; [done| |intros x; by rewrite (Hdom x)|done].
    intros x Hx. rewrite Hout, Hout2; [done|..].
    + intros [Hy|Hy]; apply Hx; [left; auto|by right].
    + intros Hy. apply Hx. by left.
  - destruct (Href m1' b) as (m2 & b2 & Hf2 & Hout2 & Hdom2 & Hg2); [done|done|done|..].
    { intros x Hx. apply Hdom. auto. }
    { intros x Hx. apply Hdom. auto. }
    { intros x Hx. apply H1. auto. }
    { intros x Hx Hx'. destruct (Hkeep x Hx); [by apply (H2 x)|by apply (H1 x)]. }
    exists m2, b2. unfold gave_up. split; [done|].
    split_and!; [|intros x; by rewrite (Hdom x)|by apply Hg2..].
    intros x Hx. rewrite Hout, Hout2; [done|..].
    + intros [Hy|Hy]; apply Hx; [left; auto|by right].
    + intros Hy. apply Hx. by left.
Qed.

(** Allocating an object, which the rest of the step fills in.  When the
    allocation fails, the rest must fail. *)
Section alloc.
Context (base : mem) (keep slot : Z → Prop) (nb : Z) (sizes : list Z).
Context (Q : Z → Z → mem → Prop) (f : Z → BM bool).
Context (Hnb : 0 < nb < 2 ^ 32) (Hs : Forall (λ s, 0 <= s) sizes).
Context (Hf : ∀ q2 m1, 0 < q2 → q2 + round8 nb <= 2 ^ 64 → agree_on keep base m1 →
     disjoint keep (range q2 (q2 + round8 nb)) → disjoint slot (range q2 (q2 + round8 nb)) →
     copies m1 keep (union slot (range q2 (q2 + nb))) sizes
       (λ lo hi m2, lo = q2 + round8 nb → q2 + nb <= hi → Q q2 hi m2) (f q2)).

Lemma allocate_fits m1 b :
  buffer_ok b → num_bytes_used b + round8 nb <= buf_size b →
  (copy ← MojomBuffer_Allocate nb; f copy) (m1, Some b) =
    f (buf b + num_bytes_used b) (m1, Some (advance b (round8 nb))).
Proof.
  intros Hb Hroom. erewrite bindS_Ok; [done|].
  rewrite Allocate_eq by (done || lia). unfold room.
  by replace (num_bytes_used b + round8 nb <=? buf_size b) with true by lia.
Qed.

Lemma allocates :
  ∀ m1 b, agree_on keep base m1 → buffer_ok b →
    num_bytes_used b + space (nb :: sizes) <= buf_size b →
    (∀ x, free b (space (nb :: sizes)) x → is_Some (m1 !! x)) →
    (∀ x, slot x → is_Some (m1 !! x)) →
    disjoint slot (free b (space (nb :: sizes))) → disjoint keep (free b (space (nb :: sizes))) →
    ∃ m2, (copy ← MojomBuffer_Allocate nb; f copy) (m1, Some b) =
        Ok (true, (m2, Some (advance b (space (nb :: sizes))))) ∧
      agree_on (outside (union slot (free b (space (nb :: sizes))))) m1 m2 ∧ same_dom m1 m2 ∧
      Q (buf b + num_bytes_used b) (buf b + num_bytes_used b + space (nb :: sizes)) m2.
Proof.
  change (space (nb :: sizes)) with (round8 nb + space sizes).
  pose proof (round8_bounds nb). pose proof (space_nonneg _ Hs).
  intros m1 b Hk Hb Hroom Hfree Hslot H1 H2. set (q2 := buf b + num_bytes_used b).
  assert (∀ x, free b (round8 nb + space sizes) x ↔ range q2 (q2 + round8 nb) x ∨
    free (advance b (round8 nb)) (space sizes) x) as Hsplit
    by (intros x; unfold free, advance, range, q2; cbn; lia).
  assert (buffer_ok b) as Hb' by done. unfold buffer_ok in Hb'.
  destruct (Hf q2 m1) as (_ & Hc & _); [unfold q2; lia..|done| | |].
  { intros x Hx Hx'. apply (H2 x); [done|]. apply Hsplit. by left. }
  { intros x Hx Hx'. apply (H1 x); [done|]. apply Hsplit. by left. }
  destruct (Hc m1 (advance b (round8 nb))) as (m2 & Hf2 & Hout & Hdom & HQ).
  { done. }
  { apply advance_ok; [done|lia|lia]. }
  { cbn. lia. }
  { intros x Hx. apply Hfree, Hsplit. by right. }
  { intros x [Hx|Hx]; [auto|]. apply Hfree, Hsplit. left. unfold range in *. lia. }
  { intros x [Hx|Hx] Hx'; [apply (H1 x); [done|]; apply Hsplit; by right|].
    unfold free, advance, range, q2 in *; cbn in *. lia. }
  { intros x Hx Hx'. apply (H2 x); [done|]. apply Hsplit. by right. }
  exists m2. rewrite allocate_fits by (done || lia). split_and!; [| |done|].
  - fold q2. rewrite Hf2. unfold advance; cbn. by rewrite Z.add_assoc.
  - intros x Hx. apply Hout. intros [[Hy|Hy]|Hy]; apply Hx; [by left|right|right];
      apply Hsplit; [left; unfold range in *; lia|by right].
  - unfold advance in HQ; cbn in HQ. rewrite !Z.add_assoc in HQ |- *.
    apply HQ; unfold q2; lia.
Qed.

Lemma refuses_alloc :
  (∀ m1 t, agree_on keep base m1 → (∀ x, slot x → is_Some (m1 !! x)) →
     ∃ m2, f 0 (m1, t) = Ok (false, (m2, t)) ∧ agree_on (outside slot) m1 m2 ∧
       same_dom m1 m2) →
  refuses base keep slot (nb :: sizes) (copy ← MojomBuffer_Allocate nb; f copy).
Proof.
  intros Hnull m1 b Hk Hb Hroom Hfree Hslot H1 H2.
  change (space (nb :: sizes)) with (round8 nb + space sizes) in Hroom.
  pose proof (round8_bounds nb). assert (buffer_ok b) as Hb' by done. unfold buffer_ok in Hb'.
  destruct (decide (num_bytes_used b + round8 nb <= buf_size b)) as [Hfit|Hfull].
  - set (q2 := buf b + num_bytes_used b).
    assert (∀ x, range q2 (q2 + round8 nb) x → rest b x) as Hobj
      by (unfold rest, range, q2; lia).
    assert (∀ x, rest (advance b (round8 nb)) x → rest b x) as Hrest
      by (unfold rest, advance, range; cbn; lia).
    destruct (Hf q2 m1) as (_ & _ & Hr); [unfold q2; lia..|done| | |].
    { intros x Hx Hx'. apply (H2 x); auto. }
    { intros x Hx Hx'. apply (H1 x); auto. }
    destruct (Hr m1 (advance b (round8 nb))) as (m2 & b2 & Hf2 & Hout & Hdom & Hg1 & Hg2 & Hg3).
    { done. }
    { apply advance_ok; [done|lia|lia]. }
    { cbn. lia. }
    { auto. }
    { intros x [Hx|Hx]; [auto|]. apply Hfree, Hobj. unfold range in *. lia. }
    { intros x [Hx|Hx] Hx'; [apply (H1 x); auto|].
      unfold rest, advance, range, q2 in *; cbn in *. lia. }
    { intros x Hx Hx'. apply (H2 x); auto. }
    exists m2, b2. rewrite allocate_fits by done. split; [done|]. cbn in Hg3.
    unfold gave_up. split_and!; [|done|done|done|lia|lia]. intros x Hx. apply Hout.
    intros [[Hy|Hy]|Hy]; apply Hx; [by left|right; apply Hobj; unfold range in *; lia|right; auto].
  - destruct (Hnull m1 (Some b) Hk Hslot) as (m2 & Hf2 & Hout & Hdom). exists m2, b.
    unfold gave_up. split_and!; [| |done|done|done|lia|lia].
    + rewrite (bindS_Ok _ _ _ 0 (m1, Some b)); [done|].
      rewrite Allocate_eq by (done || lia). unfold room.
      by replace (num_bytes_used b + round8 nb <=? buf_size b) with false by lia.
    + intros x Hx. apply Hout. intros Hy. apply Hx. by left.
Qed.

Lemma copies_alloc :
  (∀ m1 t, agree_on keep base m1 → (∀ x, slot x → is_Some (m1 !! x)) →
     ∃ m2, f 0 (m1, t) = Ok (false, (m2, t)) ∧ agree_on (outside slot) m1 m2 ∧
       same_dom m1 m2) →
  copies base keep slot (nb :: sizes) Q (copy ← MojomBuffer_Allocate nb; f copy).
Proof.
  intros Hnull. split_and!; [constructor; [lia|done]|exact allocates|by apply refuses_alloc].
Qed.
End alloc.

(** Storing a 64-bit value in the slot, and keeping it. *)
Lemma copies_store64 base keep p2 v obj sizes Q (f : BM bool) :
  0 <= v < 2 ^ 64 → Forall (λ s, 0 <= s) sizes → disjoint keep (range p2 (p2 + 8)) →
  (∀ m1, load64 m1 p2 = Ok v → agree_on keep base m1 →
     copies m1 (union keep (range p2 (p2 + 8))) obj sizes Q f) →
  copies base keep (union (range p2 (p2 + 8)) obj) sizes Q
    (write (λ m, store64 m p2 v);; f).
Proof.
  intros Hv Hs Hkp Hf. apply copies_write; [done|]. intros m1 Hk1 Hmap.
  pose proof (store64_ok m1 p2 v) as Hst.
  apply returns_Ok_inv in Hst as (m2 & Hm2 & Hload & Hout & Hdom); [|intros x Hx; apply Hmap; by left|lia].
  exists m2, (union keep (range p2 (p2 + 8))), obj. split_and!; [done| | | | |].
  - intros x Hx. apply Hout. intros Hx'. apply Hx. by left.
  - intros x. by rewrite Hdom.
  - intros x [Hx|Hx]; [by left|by right; left].
  - intros x Hx. by right.
  - apply Hf; [done|]. intros x Hx. rewrite (Hk1 x Hx). apply Hout. intros Hx'. by apply (Hkp x).
Qed.

(** Copying the bytes of an object, and keeping all but those at the offsets
    [skip], which the rest of the step rewrites. *)
Lemma copies_memcpy base keep n q2 q (skip : Z → Prop) sizes Q (f : BM bool) :
  0 <= n → Forall (λ s, 0 <= s) sizes →
  (∀ x, range q (q + n) x → keep x ∧ is_Some (base !! x)) →
  disjoint keep (range q2 (q2 + n)) →
  (∀ m1, agree_on keep base m1 →
     copies m1 keep (λ x, range q2 (q2 + n) x ∧ skip (x - q2)) sizes
       (λ lo hi m2, agree_on keep base m2 → same_bytes base q m2 q2 n skip → Q lo hi m2) f) →
  copies base keep (range q2 (q2 + n)) sizes Q
    (write (λ m, memcpy (Z.to_nat n) m q2 q);; f).
Proof.
  intros Hn Hs Hq Hd Hf. apply copies_write; [done|]. intros m1 Hk1 Hmap.
  pose proof (memcpy_ok (Z.to_nat n) m1 q2 q) as Hcp. rewrite Z2Nat.id in Hcp by lia.
  apply returns_Ok_inv in Hcp as (m2 & Hm2 & Hcopy & Hout & Hdom).
  2: { intros x Hx. by apply Hmap. }
  2: { intros x Hx. destruct (Hq x Hx) as [Hkx Hbx]. by rewrite <- Hk1. }
  2: { intros x Hx Hx'. apply (Hd x); [by apply Hq|done]. }
  assert (agree_on keep base m2) as Hk2.
  { intros x Hx. rewrite (Hk1 x Hx). apply Hout. intros Hx'. by apply (Hd x). }
  set (keep' := union keep (λ x, range q2 (q2 + n) x ∧ ¬ skip (x - q2))).
  set (slot' := λ x, range q2 (q2 + n) x ∧ skip (x - q2)).
  exists m2, keep', slot'. split_and!; [done| | | | |].
  { intros x Hx. by apply Hout. }
  { intros x. by rewrite Hdom. }
  { intros x [Hx|Hx]; [by left|right; by destruct Hx]. }
  { by intros x []. }
  pose proof (Hf m2 Hk2) as Hc.
  eapply copies_weaken with (keep' := keep') (base' := m2) in Hc;
    [|intros x Hx; by left|done|intros x Hx; exact Hx|intros lo hi m3 HQ; exact HQ].
  apply copies_kept in Hc; [|intros x [Hx|[Hx Hns]] [Hx' Hsk]; [by apply (Hd x)|done]].
  eapply copies_weaken; [exact Hc|done|done|done|]. intros lo hi m3 (Hk3 & HQ). apply HQ.
  - intros x Hx. rewrite (Hk2 x Hx). apply Hk3. by left.
  - intros o Ho Hsk. rewrite <- Hk3.
    + rewrite Hcopy by lia. symmetry. apply Hk1, Hq. unfold range. lia.
    + right. unfold range. split; [lia|]. by replace (q2 + o - q2) with o by lia.
Qed.

(** An object: allocated, its address stored in the slot at [p2], its bytes
    copied; the rest of the step rewrites the bytes at the offsets [skip]. *)
Lemma copies_object base keep p2 q nb (hdr : mem → result Z) sizes (skip : Z → Prop)
    Rest (rest : BM bool) :
  0 < nb < 2 ^ 32 → Forall (λ s, 0 <= s) sizes →
  (∀ m1, agree_on keep base m1 → hdr m1 = Ok nb) →
  (∀ x, range q (q + nb) x → keep x ∧ is_Some (base !! x)) →
  disjoint keep (range p2 (p2 + 8)) →
  (∀ q2 m1, 0 < q2 → load64 m1 p2 = Ok q2 → agree_on keep base m1 →
     disjoint (union keep (range p2 (p2 + 8))) (range q2 (q2 + nb)) →
     copies m1 (union keep (range p2 (p2 + 8))) (λ x, range q2 (q2 + nb) x ∧ skip (x - q2))
       sizes (λ lo hi m2, lo = q2 + round8 nb → Rest q2 hi m2) rest) →
  copies base keep (range p2 (p2 + 8)) (nb :: sizes)
    (λ lo hi m2, load64 m2 p2 = Ok lo ∧ lo + nb <= hi ∧ same_bytes base q m2 lo nb skip ∧
       Rest lo hi m2)
    (num_bytes ← read hdr;
     copy ← MojomBuffer_Allocate num_bytes;
     write (λ m, store64 m p2 copy);;
     copy ← read (λ m, load64 m p2);
     if copy =? 0 then mret false
     else
     num_bytes ← read hdr;
     write (λ m, memcpy (Z.to_nat num_bytes) m copy q);;
     rest).
Proof.
  intros Hnb Hs Hhdr Hq Hkp Hrest. pose proof (round8_bounds nb) as Hr8.
  eapply copies_read; [|exact Hhdr].
  apply copies_alloc; [done|done| |].
  2: { intros m1 t _ Hslot.
       destruct (returns_Ok_inv _ _ (store64_ok m1 p2 0 Hslot ltac:(lia)))
         as (m2 & Hm2 & Hload & Hout & Hdom).
       exists m2. rewrite (write_Ok _ _ _ _ _ Hm2). unfold read, get_mem, lift, mbind, stateR_bind.
       cbn [fst]. rewrite Hload. split_and!; [done|done|]. intros x. by rewrite Hdom. }
  intros q2 m1 Hq2 Hend Hk1 Hd1 Hd2.
  assert (disjoint (union keep (range p2 (p2 + 8))) (range q2 (q2 + nb))) as Hd.
  { intros x [Hx|Hx] Hx'; [apply (Hd1 x)|apply (Hd2 x)]; try done; unfold range in *; lia. }
  apply copies_store64; [lia|done|done|]. intros m2 Hload Hk2.
  assert (agree_on keep base m2) as Hk by (by transitivity m1).
  eapply copies_read with (a := q2).
  2: { intros m3 Ha. rewrite <- Hload. symmetry. apply load64_agree. intros x Hx.
       apply Ha. by right. }
  replace (q2 =? 0) with false by lia.
  eapply copies_read with (a := nb).
  2: { intros m3 Ha. apply Hhdr. intros x Hx. rewrite (Hk x Hx). apply Ha. by left. }
  apply copies_memcpy with (skip := skip); [lia|done| |done|].
  { intros x Hx. destruct (Hq x Hx) as [Hkx Hbx]. split; [by left|]. by rewrite <- (Hk x Hkx). }
  intros m3 Hk3.
  eapply copies_weaken; [apply (Hrest q2 m3)|..]; try done.
  - rewrite <- Hload. symmetry. apply load64_agree. intros x Hx. apply Hk3. by right.
  - intros x Hx. rewrite (Hk x Hx). apply Hk3. by left.
  - intros lo hi m4 HR Hk4 Hsame Hlo Hhi. split_and!; [|done| |by apply HR].
    + rewrite <- Hload. symmetry. apply load64_agree. intros x Hx. apply Hk4. by right.
    + intros o Ho Hsk. rewrite Hsame by done. symmetry. apply Hk, Hq. unfold range. lia.
Qed.
End copies_rules.

Lemma copies_assert base keep slot sizes Q c (f : BM bool) :
  c = true → copies base keep slot sizes Q f →
  copies base keep slot sizes Q (c_assert c;; f).
Proof. intros ->. by apply copies_ext. Qed.
