(* ===== verification/CopyCorrect.v ===== *)
(** * Deep copy makes a faithful copy

    [public/c/lib/bindings], the [DeepCopy] functions: on a well-formed graph of
    unencoded objects ([Objects.objects]) with enough room in the buffer, they
    succeed, use exactly the rounded sizes of the objects, leave the source
    alone and build a copy ([Objects.copy_of]). *)
From stdpp Require Import base list numbers option gmap.
From S2P Require Import Prelude Memory TypeDescriptor Validate ValidateSafe Codec Restores Buffer SizeCopy Objects CopySteps Sample Graph.

(** ** A copy stays one *)
Section copy_stable.
Context (descs : desc_table) (m : mem).

Lemma same_bytes_agree p m2 m2' p2 n skip :
  agree_on (range p2 (p2 + n)) m2 m2' →
  same_bytes m p m2 p2 n skip → same_bytes m p m2' p2 n skip.
Proof. intros Ha Hs o Ho Hsk. rewrite <- Ha; [by apply Hs|]. unfold range. lia. Qed.

(** ... when nothing is written to it, and seen from a larger buffer. *)
(** A description of copied slots that does not see changes elsewhere. *)
Definition stable_slots (R : MojomTypeDescriptorType → desc_ptr → Z → mem → Z → Z → Z → Prop)
    (m2 m2' : mem) (lo hi lo' hi' : Z) : Prop :=
  ∀ t dp p p2, R t dp p m2 p2 lo hi →
    agree_on (union (out_slot t p2) (range lo hi)) m2 m2' → R t dp p m2' p2 lo' hi'.

Section stable.
Context (R : MojomTypeDescriptorType → desc_ptr → Z → mem → Z → Z → Z → Prop).
Context (m2 m2' : mem) (lo hi lo' hi' : Z) (Hlo : lo' <= lo) (Hhi : hi <= hi').
Context (HR : stable_slots R m2 m2' lo hi lo' hi') (Ha : agree_on (range lo hi) m2 m2').

Lemma stable_within a b : lo <= a → b <= hi → agree_on (range a b) m2 m2'.
Proof. intros Hlo' Hhi' x Hx. apply Ha. unfold range in *. lia. Qed.

Lemma stable_slot t dp p p2 :
  agree_on (out_slot t p2) m2 m2' → R t dp p m2 p2 lo hi → R t dp p m2' p2 lo' hi'.
Proof. intros Hs Hr. apply HR; [done|]. by apply agree_on_union. Qed.

Lemma struct_copy_stable dp q q2 :
  struct_copy descs m R dp q m2 q2 lo hi → struct_copy descs m R dp q m2' q2 lo' hi'.
Proof.
  intros (d & nb & ver & Hd & Hnb & Hver & H1 & H2 & Hsame & Hf).
  exists d, nb, ver. split_and!; [done|done|done|lia|lia| |].
  - eapply same_bytes_agree; [apply stable_within; lia|done].
  - intros e He Hact. destruct (Hf e He Hact) as (Hoff & Hfit & Hce).
    split_and!; [done|done|]. eapply stable_slot; [|exact Hce].
    intros x [_ Hx]. apply (stable_within q2 (q2 + nb)); unfold range in *; lia.
Qed.

Lemma array_copy_stable dp q q2 :
  array_copy descs m R dp q m2 q2 lo hi → array_copy descs m R dp q m2' q2 lo' hi'.
Proof.
  intros (d & nb & k & Hd & Hnb & Hk & H1 & H2 & Hsame & Hf).
  exists d, nb, k. split_and!; [done|done|done|lia|lia| |].
  - eapply same_bytes_agree; [apply stable_within; lia|done].
  - intros Hpod i Hi. destruct (Hf Hpod i Hi) as (Hfit & Hce). split; [done|].
    pose proof (elem_size_nonneg (ad_elem_type d)). eapply stable_slot; [|exact Hce].
    intros x [_ Hx]. apply (stable_within q2 (q2 + nb)); unfold range in *; nia.
Qed.

Lemma union_copy_stable dp q q2 : agree_on (range q2 (q2 + 16)) m2 m2' →
  union_copy descs m R dp q m2 q2 lo hi → union_copy descs m R dp q m2' q2 lo' hi'.
Proof.
  intros Hq (sz & Hsz & Hu). exists sz. split; [done|].
  destruct (sz =? 0); [by eapply same_bytes_agree|].
  destruct Hu as (d & o & Hd & Ho & Hu). exists d, o. split_and!; [done|done|].
  destruct o as [e|]; [|by eapply same_bytes_agree]. destruct Hu as [Hs Hu].
  split; [by eapply same_bytes_agree|]. intros Hpod. destruct (Hu Hpod) as [Hnu Hce].
  split; [done|]. eapply stable_slot; [|exact Hce]. intros x [_ Hx]. apply Hq.
  assert (elem_size (ue_elem_type e) <= 8)
    by (unfold elem_size; destruct (ue_elem_type e); done).
  unfold range in *. lia.
Qed.
End stable.

Lemma copy_of_stable n t dp p m2 m2' p2 lo hi lo' hi' :
  copy_of descs m n t dp p m2 p2 lo hi →
  agree_on (union (out_slot t p2) (range lo hi)) m2 m2' → lo' <= lo → hi <= hi' →
  copy_of descs m n t dp p m2' p2 lo' hi'.
Proof.
  revert t dp p p2. induction n as [|n IH]; intros t dp p p2 Hc Ha Hlo Hhi; [done|].
  apply agree_on_union in Ha as [Hslot Ha].
  assert (stable_slots (copy_of descs m n) m2 m2' lo hi lo' hi') as HR.
  { intros t' dp' p' p2' ??. by apply IH. }
  assert (rewritten t = true → ∀ q, load64 m2 p2 = Ok q → 8 <= elem_size t →
    load64 m2' p2 = Ok q) as Hload.
  { intros Hrw q Hq H8. rewrite <- Hq. symmetry. apply load64_agree. intros x Hx.
    apply Hslot. split; [done|]. unfold range in *. lia. }
  cbn [copy_of] in *. destruct t; try done.
  1,2,3,4: destruct Hc as (q & q2 & Hq & Hq2 & Hc); exists q, q2;
    (split_and!; [done|by apply Hload|]); destruct (q =? 0); [done|].
  - by eapply struct_copy_stable.
  - by eapply struct_copy_stable.
  - by eapply array_copy_stable.
  - destruct Hc as (H1 & H2 & Hc). split_and!; [lia|lia|].
    by eapply union_copy_stable; [..|by eapply stable_within|].
  - eapply union_copy_stable; [done..| |done]. intros x Hx. apply Hslot. by split.
Qed.
End copy_stable.

(** ** Copying well-formed objects *)
Section copy_objects.
Context (descs : desc_table) (Hlay : wf_layout descs = true).
Context (m : mem) (src : Z → Prop) (nested : bool) (Hsrc : ∀ x, src x → 0 < x).

Lemma struct_sizes (slots : MojomTypeDescriptorType → desc_ptr → bool → Z → list Z → Prop) dp q sizes :
  (∀ t dp nullable p s, slots t dp nullable p s → Forall (λ s, 0 <= s) s) →
  struct_objects descs m src slots dp q sizes → Forall (λ s, 0 <= s) sizes.
Proof.
  intros Hsl (d & nb & ver & sizess & _ & Hnb & _ & _ & _ & Hf & ->).
  pose proof (load32_range _ _ _ Hnb). constructor; [lia|]. apply Forall_concat.
  clear -Hsl Hf. induction Hf as [|e s l ss Hes Hf IH]; constructor; [|done].
  destruct (ver <? se_min_version e); [by subst s|]. eapply Hsl, Hes.
Qed.

Lemma array_sizes (slots : MojomTypeDescriptorType → desc_ptr → bool → Z → list Z → Prop) dp q sizes :
  (∀ t dp nullable p s, slots t dp nullable p s → Forall (λ s, 0 <= s) s) →
  array_objects descs m src slots dp q sizes → Forall (λ s, 0 <= s) sizes.
Proof.
  intros Hsl (d & nb & k & sizess & _ & Hnb & _ & _ & _ & _ & Hf & ->).
  pose proof (load32_range _ _ _ Hnb). constructor; [lia|]. apply Forall_concat.
  destruct (bool_decide _); [by subst sizess|]. destruct Hf as [_ Hf].
  clear -Hsl Hf. induction Hf as [|i s l ss Hes Hf IH]; constructor; [|done].
  eapply Hsl, Hes.
Qed.

Lemma union_sizes (slots : MojomTypeDescriptorType → desc_ptr → bool → Z → list Z → Prop) dp p sizes :
  (∀ t dp nullable p s, slots t dp nullable p s → Forall (λ s, 0 <= s) s) →
  union_objects descs m slots dp p sizes → Forall (λ s, 0 <= s) sizes.
Proof.
  intros Hsl (d & tag & o & _ & _ & _ & Hu). destruct o as [e|].
  - destruct (bool_decide _); [by subst|]. destruct Hu as [_ Hu]. by eapply Hsl.
  - destruct Hu as [_ ->]. constructor.
Qed.

Lemma objects_sizes n t dp nullable p sizes :
  objects descs m src nested n t dp nullable p sizes → Forall (λ s, 0 <= s) sizes.
Proof.
  revert t dp nullable p sizes. induction n as [|n IH]; [done|].
  intros t dp nullable p sizes [_ Ho].
  destruct t.
  1,2: destruct Ho as (q & _ & Ho); destruct (q =? 0);
    [by destruct Ho as [_ ->]|by eapply struct_sizes].
  - destruct Ho as (q & _ & Ho). destruct (q =? 0);
    [by destruct Ho as [_ ->]|by eapply array_sizes].
  - destruct Ho as (_ & q & _ & Ho). destruct (q =? 0); [by destruct Ho as [_ ->]|].
    destruct Ho as (_ & sz & rest & _ & -> & Ho). constructor; [lia|].
    destruct (sz =? 0); [by subst|]. by eapply union_sizes.
  - destruct Ho as (sz & _ & Ho). destruct (sz =? 0); [by destruct Ho as [_ ->]|].
    by eapply union_sizes.
  - by subst.
  - by subst.
  - by subst.
Qed.

(** What the object copiers rely on: copying a slot. *)
Class CopyDispatch (n : nat)
    (dispatch : MojomTypeDescriptorType → desc_ptr → Z → Z → BM bool) : Prop :=
  copy_dispatch t dp nullable p p2 sizes base keep :
    objects descs m src nested n t dp nullable p sizes → 0 < p → 0 < p2 →
    (∀ x, src x → keep x) → agree_on src m base → disjoint keep (out_slot t p2) →
    copies base keep (out_slot t p2) sizes
      (λ lo hi m2, copy_of descs m n t dp p m2 p2 lo hi) (dispatch t dp p p2).

Lemma held_read {A} keep base (g : mem → result A) p n a :
  held m src p n → (∀ x, src x → keep x) → agree_on src m base →
  (∀ m1 m2, agree_on (range p (p + n)) m1 m2 → g m1 = g m2) → g m = Ok a →
  ∀ m1, agree_on keep base m1 → g m1 = Ok a.
Proof.
  intros Hh Hk Hb Hg Ha m1 H1. rewrite <- Ha. symmetry. apply Hg. intros x Hx.
  destruct (Hh x Hx) as [Hs _]. rewrite (Hb x Hs). apply H1. auto.
Qed.

Lemma held_kept keep base p n :
  held m src p n → (∀ x, src x → keep x) → agree_on src m base →
  ∀ x, range p (p + n) x → keep x ∧ is_Some (base !! x).
Proof.
  intros Hh Hk Hb x Hx. destruct (Hh x Hx) as [Hs Hm]. split; [auto|]. by rewrite <- (Hb x Hs).
Qed.

(** The bytes of a struct that copying rewrites: the slots of its active fields. *)
Definition copied_field (ver : Z) (e : MojomTypeDescriptorStructEntry) : bool :=
  negb (ver <? se_min_version e) && rewritten (se_elem_type e).

Definition field_slot (ver q2 : Z) (e : MojomTypeDescriptorStructEntry) (x : Z) : Prop :=
  copied_field ver e = true ∧
  range (q2 + 8 + se_offset e) (q2 + 8 + se_offset e + elem_size (se_elem_type e)) x.

Lemma struct_field_copies n dispatch `{!CopyDispatch n dispatch} ver q q2 p2 nb base keep e s :
  (if ver <? se_min_version e then s = []
   else 0 <= se_offset e ∧ 8 + se_offset e + elem_size (se_elem_type e) <= nb ∧
     objects descs m src nested n (se_elem_type e) (se_elem_descriptor e) (se_nullable e)
       (q + 8 + se_offset e) s) →
  struct_version m q = Ok ver → held m src q nb → 8 <= nb → 0 < q2 →
  load64 base p2 = Ok q2 → (∀ x, range p2 (p2 + 8) x → keep x) →
  (∀ x, src x → keep x) → agree_on src m base → disjoint keep (field_slot ver q2 e) →
  copies base keep (field_slot ver q2 e) s
    (λ lo hi m2, se_min_version e <= ver →
      copy_of descs m n (se_elem_type e) (se_elem_descriptor e) (q + 8 + se_offset e)
        m2 (q2 + 8 + se_offset e) lo hi)
    (version ← read (λ m, struct_version m q);
     if version <? se_min_version e then mret true
     else
     copy ← read (λ m, load64 m p2);
     dispatch (se_elem_type e) (se_elem_descriptor e)
       (q + sizeof_MojomStructHeader + se_offset e)
       (copy + sizeof_MojomStructHeader + se_offset e)).
Proof.
  intros He Hver Hheld Hnb8 Hq2 Hload Hp2 Hk Hb Hd.
  assert (0 < q) as Hq by (apply Hsrc, Hheld; unfold range; lia).
  eapply copies_read with (a := ver).
  2: { eapply held_read; [exact Hheld|done|done| |done].
       intros m1 m2 Ha. apply load32_agree. intros x Hx. apply Ha. unfold range in *. lia. }
  destruct (ver <? se_min_version e) eqn:Hact.
  { subst s. apply copies_ret. intros lo m1 _ Hle. lia. }
  destruct He as (Hoff & Hfit & Hobj).
  eapply copies_read with (a := q2).
  2: { intros m1 Ha. rewrite <- Hload. symmetry. apply load64_agree. intros x Hx. auto. }
  eapply copies_weaken; [eapply (copy_dispatch _ _ _ _ _ _ base keep Hobj)|..];
    [unfold sizeof_MojomStructHeader; lia..|done|done| |done|done| |done].
  - intros x Hx [Hrw Hx']. apply (Hd x Hx). unfold field_slot, copied_field. by rewrite Hact, Hrw.
  - intros x [Hrw Hx]. unfold field_slot, copied_field. by rewrite Hact, Hrw.
Qed.

Lemma field_slot_inside n ver q q2 nb (l : list MojomTypeDescriptorStructEntry) sizess e :
  Forall2 (λ e s, if ver <? se_min_version e then s = []
    else 0 <= se_offset e ∧ 8 + se_offset e + elem_size (se_elem_type e) <= nb ∧
      objects descs m src nested n (se_elem_type e) (se_elem_descriptor e) (se_nullable e)
        (q + 8 + se_offset e) s) l sizess →
  e ∈ l → ∀ x, field_slot ver q2 e x → range q2 (q2 + nb) x.
Proof.
  intros Hf He x [Hact Hx]. destruct (Forall2_elem_l _ _ _ _ Hf He) as [s Hs].
  unfold copied_field in Hact. destruct (ver <? se_min_version e); [done|].
  unfold range in *. lia.
Qed.

(** The loop over the fields of a struct. *)
Lemma struct_fields_copies n dispatch `{!CopyDispatch n dispatch} d ver q q2 p2 nb base keep
    sizess :
  Forall2 (λ e s, if ver <? se_min_version e then s = []
    else 0 <= se_offset e ∧ 8 + se_offset e + elem_size (se_elem_type e) <= nb ∧
      objects descs m src nested n (se_elem_type e) (se_elem_descriptor e) (se_nullable e)
        (q + 8 + se_offset e) s) (sd_entries d) sizess →
  struct_version m q = Ok ver → held m src q nb → 8 <= nb → 0 < q2 →
  load64 base p2 = Ok q2 → (∀ x, range p2 (p2 + 8) x → keep x) →
  (∀ x, src x → keep x) → agree_on src m base → disjoint keep (range q2 (q2 + nb)) →
  disjoint_entries (sd_entries d) = true →
  copies base keep (λ x, Exists (λ e, field_slot ver q2 e x) (sd_entries d)) (concat sizess)
    (λ lo hi m2, ∀ e, e ∈ sd_entries d → se_min_version e <= ver →
      copy_of descs m n (se_elem_type e) (se_elem_descriptor e) (q + 8 + se_offset e)
        m2 (q2 + 8 + se_offset e) lo hi)
    (copy_each (sd_entries d) (λ entry,
      version ← read (λ m, struct_version m q);
      if version <? se_min_version entry then mret true
      else
      copy ← read (λ m, load64 m p2);
      dispatch (se_elem_type entry) (se_elem_descriptor entry)
        (q + sizeof_MojomStructHeader + se_offset entry)
        (copy + sizeof_MojomStructHeader + se_offset entry))).
Proof.
  intros Hf Hver Hheld Hnb8 Hq2 Hload Hp2 Hk Hb Hd Hlay'.
  assert (∀ e, e ∈ sd_entries d → disjoint keep (field_slot ver q2 e)) as Hdis.
  { intros e He x Hx Hx'. apply (Hd x Hx). by eapply field_slot_inside. }
  apply (copies_each _ _ (field_slot ver q2) (λ e lo hi m2, se_min_version e <= ver →
    copy_of descs m n (se_elem_type e) (se_elem_descriptor e) (q + 8 + se_offset e)
      m2 (q2 + 8 + se_offset e) lo hi)).
  - eapply Forall2_impl_elem; [exact Hf|]. intros e s He Hs.
    by eapply struct_field_copies; eauto.
  - by apply disjoint_entries_pairs.
  - done.
  - intros e lo hi lo' hi' m2 m2' He Hc Ha Hlo Hhi Hact.
    eapply copy_of_stable; [by apply Hc| |done|done].
    apply agree_on_union in Ha as [Ha1 Ha2]. apply agree_on_union. split; [|done].
    intros x [Hrw Hx]. apply Ha1. split; [|done]. unfold copied_field. rewrite Hrw. lia.
Qed.

Lemma MojomStruct_copies n dispatch `{!CopyDispatch n dispatch} dp q p2 sizes base keep :
  struct_objects descs m src (objects descs m src nested n) dp q sizes → 0 < p2 →
  (∀ x, src x → keep x) → agree_on src m base → disjoint keep (range p2 (p2 + 8)) →
  copies base keep (range p2 (p2 + 8)) sizes
    (λ lo hi m2, load64 m2 p2 = Ok lo ∧ struct_copy descs m (copy_of descs m n) dp q m2 lo lo hi)
    (MojomStruct_DeepCopy descs dispatch dp q p2).
Proof.
  intros Hobj Hp2 Hk Hb Hd.
  pose proof (struct_sizes _ _ _ _ (objects_sizes n) Hobj) as Hsizes.
  destruct Hobj as (d & nb & ver & sizess & Hdp & Hnb & Hver & Hnb8 & Hheld & Hf & ->).
  apply Forall_cons in Hsizes as [_ Hsizes]. pose proof (load32_range _ _ _ Hnb) as Hnb32.
  assert (0 < q) as Hq by (apply Hsrc, Hheld; unfold range; lia).
  unfold MojomStruct_DeepCopy. do 3 (apply copies_assert; [first [lia|by destruct dp]|]).
  set (skip := λ o, ∃ e, e ∈ sd_entries d ∧ se_min_version e <= ver ∧
    out_slot (se_elem_type e) (8 + se_offset e) o).
  eapply copies_weaken; [eapply (copies_object base keep p2 q nb _ _ skip (λ q2 hi m2,
    ∀ e, e ∈ sd_entries d → se_min_version e <= ver →
      copy_of descs m n (se_elem_type e) (se_elem_descriptor e) (q + 8 + se_offset e)
        m2 (q2 + 8 + se_offset e) q2 hi))|done|done|done|].
  - lia.
  - exact Hsizes.
  - eapply held_read; [exact Hheld|done|done| |done].
    intros m1 m2 Ha. apply load32_agree. intros x Hx. apply Ha. unfold range in *. lia.
  - by apply held_kept.
  - done.
  - intros q2 m1 Hq2 Hload Hk1 Hdis. apply copies_lift with (a := d); [done|].
    assert (agree_on src m m1) as Hb1.
    { intros x Hx. rewrite (Hb x Hx). by apply Hk1, Hk. }
    eapply copies_weaken; [eapply (struct_fields_copies n dispatch d ver q q2 p2 nb m1
      (union keep (range p2 (p2 + 8))))|done|done|..]; try done.
    + intros x Hx. by right.
    + intros x Hx. by left; apply Hk.
    + by apply (deref_struct_layout descs Hlay dp).
    + intros x (e & He & Hx)%Exists_exists. split; [by eapply field_slot_inside|].
      exists e. unfold field_slot, copied_field, out_slot, range in *.
      split_and!; [done|lia|lia|lia|lia].
    + intros lo hi m2 Hfields -> e He Hact.
      eapply copy_of_stable; [by apply Hfields|done| |done]. pose proof (round8_bounds nb). lia.
  - intros lo hi m2 (Hload & Hhi & Hsame & Hfields). split; [done|].
    exists d, nb, ver. split_and!; [done|done|done|lia|done| |].
    + intros o Ho Hs. rewrite Hsame by done. symmetry. apply Hb, Hheld. unfold range. lia.
    + intros e He Hact. destruct (Forall2_elem_l _ _ _ _ Hf He) as [s Hs].
      replace (ver <? se_min_version e) with false in Hs by lia.
      destruct Hs as (? & ? & _). split_and!; [done|done|]. by apply Hfields.
Qed.

(** *** Arrays *)

Definition elem_slot (t : MojomTypeDescriptorType) (q2 i : Z) : Z → Prop :=
  out_slot t (q2 + 8 + elem_size t * i).

Lemma elem_slot_inside t q2 nb k i x :
  8 + elem_size t * k <= nb → 0 <= i < k → elem_slot t q2 i x → range q2 (q2 + nb) x.
Proof. pose proof (elem_size_nonneg t). unfold elem_slot, out_slot, range. nia. Qed.

Lemma array_elem_copies n dispatch `{!CopyDispatch n dispatch} t td nullable q q2 p2 nb k base
    keep i s :
  objects descs m src nested n t td nullable (q + 8 + elem_size t * i) s →
  t ≠ UNION_PTR → t ≠ POD → 0 <= i < k →
  array_num_elements m q = Ok k → held m src q nb → 8 <= nb → 0 < q2 →
  load64 base p2 = Ok q2 → (∀ x, range p2 (p2 + 8) x → keep x) →
  (∀ x, src x → keep x) → agree_on src m base → disjoint keep (elem_slot t q2 i) →
  copies base keep (elem_slot t q2 i) s
    (λ lo hi m2, copy_of descs m n t td (q + 8 + elem_size t * i)
      m2 (q2 + 8 + elem_size t * i) lo hi)
    (num ← read (λ m, array_num_elements m q);
     if num <=? i then mret true
     else
     in_elem_data ← lift (array_index_by_type q t i);
     copy ← read (λ m, load64 m p2);
     out_elem_data ← lift (array_index_by_type copy t i);
     dispatch t td in_elem_data out_elem_data).
Proof.
  intros Hobj Ht1 Ht2 Hi Hnum Hheld Hnb8 Hq2 Hload Hp2 Hk Hb Hd.
  assert (0 < q) as Hq by (apply Hsrc, Hheld; unfold range; lia).
  pose proof (elem_size_nonneg t).
  eapply copies_read with (a := k).
  2: { eapply held_read; [exact Hheld|done|done| |done].
       intros m1 m2 Ha. apply load32_agree. intros x Hx. apply Ha. unfold range in *. lia. }
  replace (k <=? i) with false by lia.
  eapply copies_lift; [by apply array_index_safe|].
  eapply copies_read with (a := q2).
  2: { intros m1 Ha. rewrite <- Hload. symmetry. apply load64_agree. intros x Hx. auto. }
  eapply copies_lift; [by apply array_index_safe|].
  eapply (copy_dispatch _ _ _ _ _ _ base keep Hobj); [nia|nia|done|done|done].
Qed.

(** The loop over the elements, with the count read again after it. *)
Lemma array_elems_copies n dispatch `{!CopyDispatch n dispatch} t td nullable q q2 p2 nb k base
    keep sizess :
  Forall2 (λ i s, objects descs m src nested n t td nullable (q + 8 + elem_size t * i) s)
    (seqZ 0 k) sizess →
  t ≠ UNION_PTR → t ≠ POD → 8 + elem_size t * k <= nb →
  array_num_elements m q = Ok k → held m src q nb → 8 <= nb → 0 < q2 →
  load64 base p2 = Ok q2 → (∀ x, range p2 (p2 + 8) x → keep x) →
  (∀ x, src x → keep x) → agree_on src m base → disjoint keep (range q2 (q2 + nb)) →
  copies base keep (λ x, Exists (λ i, elem_slot t q2 i x) (seqZ 0 k)) (concat sizess)
    (λ lo hi m2, ∀ i, i ∈ seqZ 0 k → copy_of descs m n t td (q + 8 + elem_size t * i)
      m2 (q2 + 8 + elem_size t * i) lo hi)
    (num_elements ← read (λ m, array_num_elements m q);
     ok ← copy_each (seqZ 0 num_elements) (λ i,
       num ← read (λ m, array_num_elements m q);
       if num <=? i then mret true
       else
       in_elem_data ← lift (array_index_by_type q t i);
       copy ← read (λ m, load64 m p2);
       out_elem_data ← lift (array_index_by_type copy t i);
       dispatch t td in_elem_data out_elem_data);
     num ← read (λ m, array_num_elements m q);
     if (ok : bool) && (num_elements <? num) then crash OutOfFuel else mret ok).
Proof.
  intros Hf Ht1 Ht2 Hfit Hnum Hheld Hnb8 Hq2 Hload Hp2 Hk Hb Hd.
  assert (∀ m1, agree_on keep base m1 → array_num_elements m1 q = Ok k) as Hread.
  { eapply held_read; [exact Hheld|done|done| |done].
    intros m1 m2 Ha. apply load32_agree. intros x Hx. apply Ha. unfold range in *. lia. }
  assert (∀ i, i ∈ seqZ 0 k → disjoint keep (elem_slot t q2 i)) as Hdis.
  { intros i Hi%elem_of_seqZ x Hx Hx'. apply (Hd x Hx). eapply elem_slot_inside; [done| |done]. lia. }
  eapply copies_read; [|exact Hread]. apply copies_check.
  { intros x Hx (i & Hi & Hx')%Exists_exists. by apply (Hdis i Hi x). }
  2: { intros ok m2 b Ha. unfold read, get_mem, mbind, stateR_bind, lift. cbn [fst snd].
       by rewrite (Hread m2 Ha), Z.ltb_irrefl, andb_false_r. }
  apply (copies_each _ _ (elem_slot t q2) (λ i lo hi m2, copy_of descs m n t td
    (q + 8 + elem_size t * i) m2 (q2 + 8 + elem_size t * i) lo hi)).
  - eapply Forall2_impl_elem; [exact Hf|]. intros i s Hi Hs.
    pose proof (Hdis i Hi). apply elem_of_seqZ in Hi.
    apply (array_elem_copies n dispatch t td nullable q q2 p2 nb k); by (done || lia).
  - apply seqZ_pairs. intros i j Hi Hj x [_ Hx] [_ Hx']. pose proof (elem_size_nonneg t).
    unfold range in *. nia.
  - done.
  - intros i lo hi lo' hi' m2 m2' _ Hc Ha Hlo Hhi. by eapply copy_of_stable.
Qed.

Lemma MojomArray_copies n dispatch `{!CopyDispatch n dispatch} dp q p2 sizes base keep :
  array_objects descs m src (objects descs m src nested n) dp q sizes → 0 < p2 →
  (∀ x, src x → keep x) → agree_on src m base → disjoint keep (range p2 (p2 + 8)) →
  copies base keep (range p2 (p2 + 8)) sizes
    (λ lo hi m2, load64 m2 p2 = Ok lo ∧ array_copy descs m (copy_of descs m n) dp q m2 lo lo hi)
    (MojomArray_DeepCopy descs dispatch dp q p2).
Proof.
  intros Hobj Hp2 Hk Hb Hd.
  pose proof (array_sizes _ _ _ _ (objects_sizes n) Hobj) as Hsizes.
  destruct Hobj as (d & nb & k & sizess & Hdp & Hnb & Hnum & Hnb8 & Hheld & Hnu & Hf & ->).
  apply Forall_cons in Hsizes as [_ Hsizes]. pose proof (load32_range _ _ _ Hnb) as Hnb32.
  assert (0 < q) as Hq by (apply Hsrc, Hheld; unfold range; lia).
  set (t := ad_elem_type d) in *.
  unfold MojomArray_DeepCopy. do 3 (apply copies_assert; [first [lia|by destruct dp]|]).
  set (skip := λ o, ∃ i, 0 <= i < k ∧ out_slot t (8 + elem_size t * i) o).
  eapply copies_weaken; [eapply (copies_object base keep p2 q nb _ _ skip (λ q2 hi m2,
    t ≠ POD → ∀ i, 0 <= i < k → copy_of descs m n t (ad_elem_descriptor d)
      (q + 8 + elem_size t * i) m2 (q2 + 8 + elem_size t * i) q2 hi))|done|done|done|].
  - lia.
  - exact Hsizes.
  - eapply held_read; [exact Hheld|done|done| |done].
    intros m1 m2 Ha. apply load32_agree. intros x Hx. apply Ha. unfold range in *. lia.
  - by apply held_kept.
  - done.
  - intros q2 m1 Hq2 Hload Hk1 Hdis. apply copies_lift with (a := d); [done|].
    assert (agree_on src m m1) as Hb1.
    { intros x Hx. rewrite (Hb x Hx). by apply Hk1, Hk. }
    fold t. destruct (decide (t = POD)) as [Ht|Ht].
    { rewrite bool_decide_true in Hf |- * by done. subst sizess.
      by apply unchanged_copies. }
    rewrite bool_decide_false in Hf |- * by done. destruct Hf as [Hfit Hf].
    eapply copies_weaken; [eapply (array_elems_copies n dispatch t _ _ q q2 p2 nb k m1
      (union keep (range p2 (p2 + 8))))|done|done|..]; try done.
    + intros x Hx. by right.
    + intros x Hx. by left; apply Hk.
    + intros x (i & Hi%elem_of_seqZ & Hx)%Exists_exists.
      split; [eapply elem_slot_inside; [done| |done]; lia|]. exists i. split; [lia|].
      unfold elem_slot, out_slot, range in *. split; [apply Hx|lia].
    + intros lo hi m2 Helems -> _ i Hi.
      eapply copy_of_stable; [apply Helems, elem_of_seqZ; lia|done| |done].
      pose proof (round8_bounds nb). lia.
  - intros lo hi m2 (Hload & Hhi & Hsame & Helems). split; [done|].
    exists d, nb, k. split_and!; [done|done|done|lia|done| |].
    + intros o Ho Hs. rewrite Hsame by done. symmetry. apply Hb, Hheld. unfold range. lia.
    + intros Ht i Hi. rewrite bool_decide_false in Hf by done. destruct Hf as [Hfit _].
      pose proof (elem_size_nonneg t). split; [fold t; nia|]. by apply Helems.
Qed.

(** *** Unions *)

(** The part of a union's data that copying rewrites. *)
Definition union_skip (o : option MojomTypeDescriptorUnionEntry) (x : Z) : Prop :=
  match o with Some e => out_slot (ue_elem_type e) 8 x | None => False end.

Lemma union_data_copies n dispatch `{!CopyDispatch n dispatch} dp p p2 sizes base keep sz :
  held m src p 16 → union_size m p = Ok sz → sz ≠ 0 →
  union_objects descs m (objects descs m src nested n) dp p sizes → 0 < p2 →
  (∀ x, src x → keep x) → agree_on src m base → disjoint keep (range p2 (p2 + 16)) →
  ∃ d o, deref_union descs dp = Ok d ∧
    select_union_entry (union_tag m p) (ud_entries d) = Ok o ∧
    copies base keep (λ x, range p2 (p2 + 16) x ∧ union_skip o (x - p2)) sizes
      (λ lo hi m2, match o with
         | Some e => ue_elem_type e ≠ POD → ue_elem_type e ≠ UNION ∧
             copy_of descs m n (ue_elem_type e) (ue_elem_descriptor e) (p + 8) m2 (p2 + 8) lo hi
         | None => True
         end)
      (size ← read (λ m, union_size m p);
       if size =? 0 then mret true
       else
       desc ← lift (deref_union descs dp);
       entry ← read (λ m, select_union_entry (union_tag m p) (ud_entries desc));
       match entry with
       | Some entry =>
           if bool_decide (ue_elem_type entry = POD) then mret true
           else
           dispatch (ue_elem_type entry) (ue_elem_descriptor entry)
             (union_data p) (union_data p2)
       | None =>
           tag ← read (λ m, union_tag m p);
           mret ((tag <? ud_num_fields desc) || (tag =? UNION_TAG_UNKNOWN))
       end).
Proof.
  intros Hheld Hsz Hsz0 (d & tag & o & Hdp & Htag & Ho & Hobj) Hp2 Hk Hb Hd.
  assert (0 < p) as Hp by (apply Hsrc, Hheld; unfold range; lia).
  exists d, o. rewrite Htag. split_and!; [done|done|].
  assert (∀ m1 m2, agree_on (range p (p + 16)) m1 m2 → union_tag m1 p = union_tag m2 p) as Hta.
  { intros m1 m2 Ha. apply load32_agree. intros x Hx. apply Ha. unfold range in *. lia. }
  eapply copies_read with (a := sz).
  2: { eapply held_read; [exact Hheld|done|done| |done].
       intros m1 m2 Ha. apply load32_agree. intros x Hx. apply Ha. unfold range in *. lia. }
  replace (sz =? 0) with false by lia.
  apply copies_lift with (a := d); [done|].
  eapply copies_read with (a := o).
  2: { eapply held_read; [exact Hheld|done|done| |by rewrite Htag].
       intros m1 m2 Ha. by rewrite (Hta m1 m2 Ha). }
  destruct o as [e|].
  - destruct (decide (ue_elem_type e = POD)) as [Ht|Ht].
    { rewrite bool_decide_true in Hobj |- * by done. subst sizes.
      by apply unchanged_copies. }
    rewrite bool_decide_false in Hobj |- * by done. destruct Hobj as [Hnu Hobj].
    assert (∀ x, out_slot (ue_elem_type e) (p2 + 8) x →
      range p2 (p2 + 16) x ∧ union_skip (Some e) (x - p2)) as Hin.
    { intros x [Hrw Hx]. assert (elem_size (ue_elem_type e) <= 8)
        by (unfold elem_size; destruct (ue_elem_type e); done).
      unfold union_skip, out_slot, range in *. split_and!; [lia|lia|done|lia|lia]. }
    eapply copies_weaken; [eapply (copy_dispatch _ _ _ _ _ _ base keep Hobj)|..];
      [unfold union_data; lia|unfold union_data; lia|done|done| |done|done| |].
    + intros x Hx Hx'. apply (Hd x Hx). by apply Hin.
    + exact Hin.
    + by intros lo hi m2 Hc _.
  - destruct Hobj as [Hok ->]. eapply copies_read with (a := tag).
    2: { eapply held_read; [exact Hheld|done|done|exact Hta|done]. }
    rewrite Hok. by apply unchanged_copies.
Qed.

Lemma MojomUnion_copies n dispatch `{!CopyDispatch n dispatch} dp p p2 sizes base keep sz :
  held m src p 16 → union_size m p = Ok sz →
  (if sz =? 0 then sizes = []
   else union_objects descs m (objects descs m src nested n) dp p sizes) → 0 < p2 →
  (∀ x, src x → keep x) → agree_on src m base → disjoint keep (range p2 (p2 + 16)) →
  copies base keep (range p2 (p2 + 16)) sizes
    (λ lo hi m2, union_copy descs m (copy_of descs m n) dp p m2 p2 lo hi)
    (MojomUnion_DeepCopy descs dispatch dp p p2).
Proof.
  intros Hheld Hsz Hobj Hp2 Hk Hb Hd.
  assert (Forall (λ s, 0 <= s) sizes) as Hsizes.
  { destruct (sz =? 0); [by subst|]. eapply union_sizes; [apply objects_sizes|done]. }
  assert (∀ m2 skip, same_bytes base p m2 p2 16 skip → same_bytes m p m2 p2 16 skip) as Hsame.
  { intros m2 skip Hs o Ho Hsk. rewrite Hs by done. symmetry. apply Hb, Hheld. unfold range. lia. }
  assert (∀ m1, agree_on keep base m1 → agree_on src m m1) as Hm1.
  { intros m1 H1 x Hx. rewrite (Hb x Hx). by apply H1, Hk. }
  pose proof (held_kept keep base _ _ Hheld Hk Hb) as Hkept.
  unfold MojomUnion_DeepCopy, union_copy. destruct (sz =? 0) eqn:Hz.
  - subst sizes. apply (copies_memcpy _ _ 16 _ _ (λ _, False)); [lia|done|done|done|].
    intros m1 H1. eapply copies_read with (a := sz).
    2: { eapply held_read; [exact Hheld|done|by apply Hm1| |done].
         intros m2 m3 Ha. apply load32_agree. intros x Hx. apply Ha. unfold range in *. lia. }
    rewrite Hz. eapply copies_weaken; [by apply (copies_ret m1 keep empty (λ _ _ _, True))|..];
      [done|done|done|].
    intros lo hi m2 _ _ Hs. exists sz. rewrite Hz. auto.
  - destruct (union_data_copies n dispatch dp p p2 sizes base keep sz) as (d & o & Hdp & Ho & _);
      try done; [lia|].
    apply (copies_memcpy _ _ 16 _ _ (union_skip o)); [lia|done|done|done|].
    intros m1 H1.
    destruct (union_data_copies n dispatch dp p p2 sizes m1 keep sz)
      as (d' & o' & Hdp' & Ho' & Hc); try done; [lia|by apply Hm1|]. rewrite Hdp in Hdp'. injection Hdp' as <-. rewrite Ho in Ho'. injection Ho' as <-.
    eapply copies_weaken; [exact Hc|done|done|done|].
    intros lo hi m2 HQ _ Hs%Hsame. exists sz. rewrite Hz. split; [done|].
    exists d, o. split_and!; [done|done|]. by destruct o.
Qed.

(** *** Slots *)

(** Copying a null pointer. *)
Lemma null_copies base keep p2 :
  disjoint keep (range p2 (p2 + 8)) →
  copies base keep (range p2 (p2 + 8)) [] (λ lo hi m2, load64 m2 p2 = Ok 0)
    (write (λ m, store64 m p2 0);; mret true).
Proof.
  intros Hd. eapply copies_weaken; [apply (copies_store64 base keep p2 0 empty [])|..].
  - lia.
  - constructor.
  - done.
  - intros m1 Hload Hk1. apply (copies_ret _ _ _ (λ lo hi m2, load64 m2 p2 = Ok 0)).
    intros lo m2 Ha. rewrite <- Hload. symmetry. apply load64_agree.
    intros x Hx. apply Ha. by right.
  - done.
  - done.
  - by intros x [Hx|[]].
  - done.
Qed.

(** A union behind a pointer is an object of its own. *)
Lemma union_ptr_copies n dispatch `{!CopyDispatch n dispatch} dp q p2 sz rest base keep :
  held m src q 16 → union_size m q = Ok sz →
  (if sz =? 0 then rest = []
   else union_objects descs m (objects descs m src nested n) dp q rest) → 0 < p2 →
  (∀ x, src x → keep x) → agree_on src m base → disjoint keep (range p2 (p2 + 8)) →
  copies base keep (range p2 (p2 + 8)) (16 :: rest)
    (λ lo hi m2, load64 m2 p2 = Ok lo ∧ lo + 16 <= hi ∧
       union_copy descs m (copy_of descs m n) dp q m2 lo lo hi)
    (copy ← MojomBuffer_Allocate sizeof_MojomUnionLayout;
     if copy =? 0 then mret false
     else
     write (λ m, store64 m p2 copy);;
     MojomUnion_DeepCopy descs dispatch dp q copy).
Proof.
  intros Hheld Hsz Hobj Hp2 Hk Hb Hd.
  assert (Forall (λ s, 0 <= s) rest) as Hrest.
  { destruct (sz =? 0); [by subst|]. eapply union_sizes; [apply objects_sizes|done]. }
  change sizeof_MojomUnionLayout with 16.
  apply copies_alloc; [lia|done| |intros m1 t _ _; exists m1; by split_and!]. intros q2 m1 Hq2 Hend Hk1 Hd1 Hd2.
  change (round8 16) with 16 in *. replace (q2 =? 0) with false by lia.
  apply copies_store64; [lia|done|done|]. intros m2 Hload Hk2.
  assert (agree_on src m m2) as Hb2.
  { intros x Hx. rewrite (Hb x Hx), (Hk1 x), (Hk2 x) by auto. done. }
  assert (∀ x, src x → union keep (range p2 (p2 + 8)) x) as Hk' by (intros x Hx; left; auto).
  assert (disjoint (union keep (range p2 (p2 + 8))) (range q2 (q2 + 16))) as Hd'.
  { intros x [Hx|Hx] Hx'; [by apply (Hd1 x)|by apply (Hd2 x)]. }
  pose proof (MojomUnion_copies n dispatch dp q q2 rest m2 _ sz Hheld Hsz Hobj Hq2 Hk' Hb2 Hd')
    as Hc.
  apply copies_kept in Hc; [|done].
  eapply copies_weaken; [exact Hc|done|done|done|].
  intros lo hi m3 (Hk3 & Hu) -> Hhi. split_and!; [|done|].
  - rewrite <- Hload. symmetry. apply load64_agree. intros x Hx. apply Hk3. by right.
  - eapply (copy_of_stable descs m (S n) UNION); [exact Hu|done|lia|done].
Qed.

(** A slot that holds a pointer: null, or to an object that [f] copies. *)
Lemma pointer_copies p p2 q sizes base keep (Obj : Z → Z → Z → Z → mem → Prop)
    (f : Z → BM bool) :
  held m src p 8 → load64 m p = Ok q →
  (∀ x, src x → keep x) → agree_on src m base → disjoint keep (range p2 (p2 + 8)) →
  (q = 0 → sizes = []) →
  (q ≠ 0 → copies base keep (range p2 (p2 + 8)) sizes
    (λ lo hi m2, ∃ q2, load64 m2 p2 = Ok q2 ∧ Obj q q2 lo hi m2) (f q)) →
  copies base keep (range p2 (p2 + 8)) sizes
    (λ lo hi m2, ∃ q' q2, load64 m p = Ok q' ∧ load64 m2 p2 = Ok q2 ∧
       if q' =? 0 then q2 = 0 else Obj q' q2 lo hi m2)
    (ptr ← read (λ m, load64 m p);
     if ptr =? 0 then write (λ m, store64 m p2 0);; mret true else f ptr).
Proof.
  intros Hheld Hq Hk Hb Hd Hnull Hf. eapply copies_read with (a := q).
  2: { eapply (held_read keep base (λ m, load64 m p)); [exact Hheld|done|done| |done].
       intros m1 m2 Ha. by apply load64_agree. }
  destruct (q =? 0) eqn:Hq0.
  - rewrite Hnull by lia. eapply copies_weaken; [by apply null_copies|done|done|done|].
    intros lo hi m2 Hload. exists q, 0. by rewrite Hq0, Hload.
  - eapply copies_weaken; [apply Hf; lia|done|done|done|].
    intros lo hi m2 (q2 & Hload & Hobj). exists q, q2. by rewrite Hq0.
Qed.

Lemma out_slot_range t p2 :
  rewritten t = true → ∀ x, out_slot t p2 x ↔ range p2 (p2 + elem_size t) x.
Proof. intros Hrw x. split; [by intros []|done]. Qed.

(** Copies of slots of the types that are rewritten, in terms of their range. *)
Lemma copies_slot t base keep p2 sizes Q Q' (f : BM bool) :
  rewritten t = true → disjoint keep (out_slot t p2) →
  (disjoint keep (range p2 (p2 + elem_size t)) →
   copies base keep (range p2 (p2 + elem_size t)) sizes Q f) →
  (∀ lo hi m2, Q lo hi m2 → Q' lo hi m2) →
  copies base keep (out_slot t p2) sizes Q' f.
Proof.
  intros Hrw Hd Hf HQ. eapply copies_weaken; [apply Hf|done|done| |done].
  - intros x Hx Hx'. apply (Hd x Hx). by apply out_slot_range.
  - intros x Hx. by apply out_slot_range.
Qed.

Lemma DispatchDeepCopy_copies n fuel :
  (n <= fuel)%nat → CopyDispatch n (MojomType_DispatchDeepCopy descs fuel).
Proof.
  revert fuel. induction n as [|n IH]; intros fuel Hfuel;
    intros t dp nullable p p2 sizes base keep Hobj Hp Hp2 Hk Hb Hd; [done|].
  destruct fuel as [|fuel]; [lia|].
  assert (CopyDispatch n (MojomType_DispatchDeepCopy descs fuel)) by (apply IH; lia).
  destruct Hobj as [Hheld Hobj]. cbn [MojomType_DispatchDeepCopy copy_of].
  apply copies_assert; [lia|].
  destruct t.
  1,2: destruct Hobj as (q & Hq & Hobj);
    (eapply copies_slot; [done|done| |intros lo hi m2 HQ; exact HQ]); intros Hdis;
    (apply (pointer_copies p p2 q sizes base keep
      (λ q q2 lo hi m2, struct_copy descs m (copy_of descs m n) dp q m2 q2 lo hi)); try done;
    [by intros ->; destruct Hobj|]); intros Hq0; rewrite (proj2 (Z.eqb_neq q 0) Hq0) in Hobj;
    (eapply copies_weaken; [by apply (MojomStruct_copies n)|done|done|done|]);
    intros lo hi m2 [Hload Hc]; by exists lo.
  - destruct Hobj as (q & Hq & Hobj).
    eapply copies_slot; [done|done| |intros lo hi m2 HQ; exact HQ]. intros Hdis.
    apply (pointer_copies p p2 q sizes base keep
      (λ q q2 lo hi m2, array_copy descs m (copy_of descs m n) dp q m2 q2 lo hi)); try done;
      [by intros ->; destruct Hobj|].
    intros Hq0. rewrite (proj2 (Z.eqb_neq q 0) Hq0) in Hobj.
    eapply copies_weaken; [by apply (MojomArray_copies n)|done|done|done|].
    intros lo hi m2 [Hload Hc]. by exists lo.
  - destruct Hobj as (_ & q & Hq & Hobj).
    eapply copies_slot; [done|done| |intros lo hi m2 HQ; exact HQ]. intros Hdis.
    apply (pointer_copies p p2 q sizes base keep (λ q q2 lo hi m2, lo <= q2 ∧ q2 + 16 <= hi ∧
      union_copy descs m (copy_of descs m n) dp q m2 q2 lo hi)); try done;
      [by intros ->; destruct Hobj|].
    intros Hq0. rewrite (proj2 (Z.eqb_neq q 0) Hq0) in Hobj.
    destruct Hobj as (Hheldq & sz & rest & Hsz & -> & Hobj).
    eapply copies_weaken; [by eapply (union_ptr_copies n)|done|done|done|].
    intros lo hi m2 (Hload & Hhi & Hc). exists lo. split_and!; [done|lia|done|done].
  - destruct Hobj as (sz & Hsz & Hobj).
    eapply copies_slot; [done|done| |intros lo hi m2 HQ; exact HQ]. intros Hdis.
    eapply (MojomUnion_copies n); try done. by destruct (sz =? 0); [destruct Hobj|].
  - subst sizes. by apply unchanged_copies.
  - subst sizes. by apply unchanged_copies.
  - subst sizes. by apply unchanged_copies.
Qed.
End copy_objects.

(** ** The properties *)

(** C7: deep copy is correct.  Given a well-formed graph of unencoded objects
    (maps, arrays, unions, unions nested in unions, null pointers where they
    are allowed) and a buffer with room for the objects, each rounded up to 8
    bytes, [MojomStruct_DeepCopy] returns true; [*out_struct] is the first free
    byte of the buffer, the bytes consumed are exactly the rounded sizes, and
    what is built there is a copy of the graph that shares nothing with it:
    every pointer of the copy leads into the bytes just allocated.  Nothing
    else is written, the source least of all. *)
Theorem MojomStruct_DeepCopy_correct descs m src nested n fuel dp q out b sizes :
  wf_layout descs = true → (n <= fuel)%nat →
  struct_objects descs m src (objects descs m src nested n) dp q sizes →
  (∀ x, src x → 0 < x) → 0 < out → mapped m out (out + 8) →
  buffer_ok b → num_bytes_used b + space sizes <= buf_size b →
  (∀ x, free b (space sizes) x → is_Some (m !! x)) →
  disjoint src (range out (out + 8)) → disjoint src (free b (space sizes)) →
  disjoint (range out (out + 8)) (free b (space sizes)) →
  let copy := buf b + num_bytes_used b in
  ∃ m', MojomStruct_DeepCopy descs (MojomType_DispatchDeepCopy descs fuel) dp q out
      (m, Some b) = Ok (true, (m', Some (advance b (space sizes)))) ∧
    load64 m' out = Ok copy ∧
    struct_copy descs m (copy_of descs m n) dp q m' copy copy (copy + space sizes) ∧
    agree_on (outside (union (range out (out + 8)) (free b (space sizes)))) m m' ∧
    buffer_ok (advance b (space sizes)).
Proof.
  intros Hlay Hfuel Hobj Hsrc Hout Hmap Hb Hroom Hfree H1 H2 H3 copy.
  pose proof (DispatchDeepCopy_copies descs Hlay m src nested Hsrc n fuel Hfuel) as Hdisp.
  destruct (MojomStruct_copies descs Hlay m src nested Hsrc n _ dp q out sizes m src)
    as (Hs & Hc & _); try done.
  destruct (Hc m b) as (m' & Hrun & Hframe & _ & Hload & Hcopy); try done.
  pose proof (space_nonneg sizes Hs).
  exists m'. split_and!; [done|done|done|done|by apply advance_ok].
Qed.

(** C8: deep copy fails cleanly.  When the buffer has less room than the objects
    of the graph take, [MojomStruct_DeepCopy] returns false, however far it
    got: no assertion fails and nothing is accessed outside the source, the
    result slot and the buffer.  The buffer stays well-formed at its place,
    with no less used than before, and the source is unchanged. *)
Theorem MojomStruct_DeepCopy_no_room descs m src nested n fuel dp q out b sizes :
  wf_layout descs = true → (n <= fuel)%nat →
  struct_objects descs m src (objects descs m src nested n) dp q sizes →
  (∀ x, src x → 0 < x) → 0 < out → mapped m out (out + 8) →
  buffer_ok b → buf_size b < num_bytes_used b + space sizes →
  (∀ x, rest b x → is_Some (m !! x)) →
  disjoint src (range out (out + 8)) → disjoint src (rest b) →
  disjoint (range out (out + 8)) (rest b) →
  ∃ m' b', MojomStruct_DeepCopy descs (MojomType_DispatchDeepCopy descs fuel) dp q out
      (m, Some b) = Ok (false, (m', Some b')) ∧
    agree_on (outside (union (range out (out + 8)) (rest b))) m m' ∧ agree_on src m m' ∧
    buffer_ok b' ∧ buf b' = buf b ∧ buf_size b' = buf_size b ∧
    num_bytes_used b <= num_bytes_used b'.
Proof.
  intros Hlay Hfuel Hobj Hsrc Hout Hmap Hb Hroom Hfree H1 H2 H3.
  pose proof (DispatchDeepCopy_copies descs Hlay m src nested Hsrc n fuel Hfuel) as Hdisp.
  destruct (MojomStruct_copies descs Hlay m src nested Hsrc n _ dp q out sizes m src)
    as (_ & _ & Hr); try done.
  destruct (Hr m b) as (m' & b' & Hrun & Hframe & _ & Hbuf & Hsize & Hused); try done.
  exists m', b'. split_and!; [done|done| | |done|done|lia].
  - intros x Hx. apply Hframe. intros [Hy|Hy]; [by apply (H1 x)|by apply (H2 x)].
  - unfold buffer_ok in *. rewrite Hbuf, Hsize. lia.
Qed.

Definition graph_buffer : MojomBuffer := mkBuffer 8192 136 0.

Lemma MojomStruct_DeepCopy_correct_witness :
  ∃ m', MojomStruct_DeepCopy graph_descs (MojomType_DispatchDeepCopy graph_descs 3)
      (Some 0%nat) 4096 8000 (graph_mem, Some graph_buffer) =
      Ok (true, (m', Some (advance graph_buffer 128))) ∧
    load64 m' 8000 = Ok 8192 ∧
    struct_copy graph_descs graph_mem (copy_of graph_descs graph_mem 3)
      (Some 0%nat) 4096 m' 8192 8192 (8192 + 128) ∧
    agree_on (outside (union (range 8000 8008) (free graph_buffer 128))) graph_mem m' ∧
    buffer_ok (advance graph_buffer 128).
Proof.
  refine (MojomStruct_DeepCopy_correct graph_descs graph_mem (range 4096 4224) false 3 3
    (Some 0%nat) 4096 8000 graph_buffer graph_sizes _ _ graph_objects _ _ _ _ _ _ _ _ _).
  - by vm_compute.
  - lia.
  - intros x Hx. unfold range in Hx. lia.
  - lia.
  - apply mapped_check_sound. by vm_compute.
  - unfold buffer_ok. cbn. lia.
  - by vm_compute.
  - apply (mapped_check_sound _ 8192 (8192 + 128)). by vm_compute.
  - intros x Hx Hx'. unfold range in *. lia.
  - intros x Hx Hx'. unfold free, range in *. cbn in *. lia.
  - intros x Hx Hx'. unfold free, range in *. cbn in *. lia.
Defined.

(** A buffer with room for some of the objects only. *)
Definition small_buffer : MojomBuffer := mkBuffer 8192 120 0.

Lemma MojomStruct_DeepCopy_no_room_witness :
  ∃ m' b', MojomStruct_DeepCopy graph_descs (MojomType_DispatchDeepCopy graph_descs 3)
      (Some 0%nat) 4096 8000 (graph_mem, Some small_buffer) = Ok (false, (m', Some b')) ∧
    agree_on (outside (union (range 8000 8008) (rest small_buffer))) graph_mem m' ∧
    agree_on (range 4096 4224) graph_mem m' ∧
    buffer_ok b' ∧ buf b' = 8192 ∧ buf_size b' = 120 ∧ 0 <= num_bytes_used b'.
Proof.
  refine (MojomStruct_DeepCopy_no_room graph_descs graph_mem (range 4096 4224) false 3 3
    (Some 0%nat) 4096 8000 small_buffer graph_sizes _ _ graph_objects _ _ _ _ _ _ _ _ _).
  - by vm_compute.
  - lia.
  - intros x Hx. unfold range in Hx. lia.
  - lia.
  - apply mapped_check_sound. by vm_compute.
  - unfold buffer_ok. cbn. lia.
  - by vm_compute.
  - apply (mapped_check_sound _ 8192 (8192 + 120)). by vm_compute.
  - intros x Hx Hx'. unfold range in *. lia.
  - intros x Hx Hx'. unfold rest, range in *. cbn in *. lia.
  - intros x Hx Hx'. unfold rest, range in *. cbn in *. lia.
Defined.
