(* ===== verification/SizeCorrect.v ===== *)
(** * The serialized size of well-formed objects

    [public/c/lib/bindings], the [ComputeSerializedSize] functions: on a
    well-formed graph without unions nested in unions they add up the sizes in
    the headers of the objects.  That is what a copy of the graph occupies when
    the sizes are multiples of 8, and too little when they are not. *)
From stdpp Require Import base list numbers option gmap.
From S2P Require Import Prelude Memory TypeDescriptor Validate ValidateSafe Codec Buffer SizeCopy Objects CopySteps CopyCorrect Sample Graph NestedUnion.

Lemma u64_add_l a b : u64 (u64 a + b) = u64 (a + b).
Proof. unfold u64. apply Z.add_mod_idemp_l. lia. Qed.
Lemma u64_add_r a b : u64 (a + u64 b) = u64 (a + b).
Proof. unfold u64. apply Z.add_mod_idemp_r. lia. Qed.

(** A loop that adds up sizes, in [size_t]. *)
Lemma sum_each_total {A} (l : list A) sizess (body : A → result Z) acc :
  Forall2 (λ a s, body a = Ok (u64 (total s))) l sizess →
  sum_each l body (u64 acc) = Ok (u64 (acc + total (concat sizess))).
Proof.
  intros Hl. revert acc. induction Hl as [|a s l ss Ha Hl IH]; intros acc; cbn.
  - by rewrite Z.add_0_r.
  - rewrite Ha. cbn [mbind result_bind]. rewrite u64_add_l, u64_add_r, IH.
    by rewrite total_app, Z.add_assoc.
Qed.

Section sizes.
Context (descs : desc_table) (m : mem) (src : Z → Prop) (Hsrc : ∀ x, src x → 0 < x).

(** The types the size functions look into. *)
Definition sized (t : MojomTypeDescriptorType) : bool :=
  MojomType_IsPointer t || bool_decide (t = UNION).

Class SizeDispatch (n : nat)
    (dispatch : MojomTypeDescriptorType → desc_ptr → bool → Z → result Z) : Prop :=
  size_dispatch t dp nullable p sizes :
    objects descs m src false n t dp nullable p sizes → sized t = true →
    dispatch t dp nullable p = Ok (u64 (total sizes)).

(** The slots it does not look into hold no objects. *)
Lemma unsized_slot n t dp nullable p sizes :
  objects descs m src false n t dp nullable p sizes → sized t = false → sizes = [].
Proof. destruct n; [done|]. destruct t; intros [_ Ho] Ht; done. Qed.

Lemma not_sized t :
  negb (MojomType_IsPointer t) && negb (bool_decide (t = UNION)) = negb (sized t).
Proof. by rewrite <- negb_orb. Qed.

Lemma MojomStruct_size n dispatch `{!SizeDispatch n dispatch} dp q sizes :
  struct_objects descs m src (objects descs m src false n) dp q sizes →
  MojomStruct_ComputeSerializedSize descs m dispatch dp q = Ok (u64 (total sizes)).
Proof.
  intros (d & nb & ver & sizess & Hdp & Hnb & Hver & Hnb8 & Hheld & Hf & ->).
  assert (0 < q) as Hq by (apply Hsrc, Hheld; unfold range; lia).
  pose proof (load32_range _ _ _ Hnb).
  unfold MojomStruct_ComputeSerializedSize.
  replace (negb (q =? 0)) with true by lia.
  replace (desc_nonnull dp) with true by (by destruct dp). cbn [c_assertR mbind result_bind].
  rewrite Hnb. cbn [mbind result_bind]. rewrite Hdp. cbn [mbind result_bind].
  rewrite <- (u64_small nb) at 1 by lia. change (total (nb :: concat sizess)) with (nb + total (concat sizess)).
  apply sum_each_total. eapply Forall2_impl; [exact Hf|]. cbn. intros e s Hs.
  rewrite not_sized, Hver. cbn [mbind result_bind].
  destruct (ver <? se_min_version e); [subst s; by destruct (sized _)|].
  destruct Hs as (_ & _ & Hs). destruct (sized (se_elem_type e)) eqn:Ht; cbn.
  - by apply (size_dispatch _ _ _ _ _ Hs).
  - by rewrite (unsized_slot _ _ _ _ _ _ Hs Ht).
Qed.

Lemma MojomArray_size n dispatch `{!SizeDispatch n dispatch} dp q sizes :
  array_objects descs m src (objects descs m src false n) dp q sizes →
  MojomArray_ComputeSerializedSize descs m dispatch dp q = Ok (u64 (total sizes)).
Proof.
  intros (d & nb & k & sizess & Hdp & Hnb & Hk & Hnb8 & Hheld & Hnu & Hf & ->).
  assert (0 < q) as Hq by (apply Hsrc, Hheld; unfold range; lia).
  pose proof (load32_range _ _ _ Hnb).
  unfold MojomArray_ComputeSerializedSize.
  replace (negb (q =? 0)) with true by lia.
  replace (desc_nonnull dp) with true by (by destruct dp). cbn [c_assertR mbind result_bind].
  rewrite Hnb. cbn [mbind result_bind]. rewrite Hdp. cbn [mbind result_bind].
  rewrite not_sized, Hk. cbn [mbind result_bind].
  change (total (nb :: concat sizess)) with (nb + total (concat sizess)).
  destruct (sized (ad_elem_type d)) eqn:Ht; cbn [negb].
  - rewrite bool_decide_false in Hf by (intros Hp; by rewrite Hp in Ht). destruct Hf as [_ Hf].
    rewrite <- (u64_small nb) at 1 by lia.
    apply sum_each_total. eapply Forall2_impl; [exact Hf|]. cbn. intros i s Hs.
    rewrite array_index_safe by (done || intros Hp; by rewrite Hp in Ht).
    by apply (size_dispatch _ _ _ _ _ Hs).
  - replace (concat sizess) with (@nil Z); [by rewrite Z.add_0_r, u64_small by lia|].
    destruct (bool_decide _); [by subst|]. destruct Hf as [_ Hf].
    clear -Hf Ht. induction Hf as [|i s l ss Hs Hf IH]; [done|].
    cbn. by rewrite (unsized_slot _ _ _ _ _ _ Hs Ht), <- IH.
Qed.

Lemma MojomUnion_size n dispatch `{!SizeDispatch n dispatch} dp p sizes :
  union_objects descs m (objects descs m src false n) dp p sizes → 0 < p →
  MojomUnion_ComputeSerializedSize descs m dispatch dp p = Ok (u64 (total sizes)).
Proof.
  intros (d & tag & o & Hdp & Htag & Ho & Hobj) Hp.
  unfold MojomUnion_ComputeSerializedSize.
  replace (negb (p =? 0)) with true by lia.
  replace (desc_nonnull dp) with true by (by destruct dp). cbn [c_assertR mbind result_bind].
  rewrite Hdp. cbn [mbind result_bind]. rewrite Htag, Ho. cbn [mbind result_bind].
  destruct o as [e|]; [|by destruct Hobj as [_ ->]].
  destruct (bool_decide_reflect (ue_elem_type e = POD)) as [Hpod|]; [by rewrite Hpod; subst|].
  destruct Hobj as [Hnu Hobj]. destruct (MojomType_IsPointer (ue_elem_type e)) eqn:Ht; cbn [negb].
  - apply (size_dispatch _ _ _ _ _ Hobj). unfold sized. by rewrite Ht.
  - rewrite (unsized_slot _ _ _ _ _ _ Hobj); [done|]. unfold sized. rewrite Ht.
    by apply bool_decide_eq_false.
Qed.

Lemma DispatchComputeSerializedSize_size n fuel :
  (n <= fuel)%nat → SizeDispatch n (MojomType_DispatchComputeSerializedSize descs m fuel).
Proof.
  revert fuel. induction n as [|n IH]; intros fuel Hfuel t dp nullable p sizes Hobj Ht; [done|].
  destruct fuel as [|fuel]; [lia|].
  assert (SizeDispatch n (MojomType_DispatchComputeSerializedSize descs m fuel)) by (apply IH; lia).
  destruct Hobj as [Hheld Hobj]. cbn [MojomType_DispatchComputeSerializedSize].
  destruct t; try done.
  1,2: destruct Hobj as (q & Hq & Hobj); rewrite Hq; cbn [mbind result_bind];
    destruct (q =? 0) eqn:Hq0; [destruct Hobj as [-> ->]; done|]; rewrite orb_true_r;
    by apply (MojomStruct_size n).
  - destruct Hobj as (q & Hq & Hobj). rewrite Hq. cbn [mbind result_bind].
    destruct (q =? 0) eqn:Hq0; [destruct Hobj as [-> ->]; done|]. rewrite orb_true_r.
    by apply (MojomArray_size n).
  - destruct Hobj as (Hfalse & _). done.
  - destruct Hobj as (sz & Hsz & Hobj).
    assert (0 < p) as Hp by (apply Hsrc, Hheld; unfold range, elem_size, sizeof_MojomUnionLayout; lia).
    replace (negb (p =? 0)) with true by lia. rewrite Hsz.
    destruct (sz =? 0) eqn:Hz.
    + destruct Hobj as [-> ->]. cbn. by rewrite Hz.
    + rewrite (MojomUnion_size n _ dp p sizes Hobj Hp).
      destruct nullable; cbn; [rewrite Hz; cbn|]; by rewrite u64_add_r.
Qed.
End sizes.

(** ** The properties *)

(** A copy succeeds exactly when the buffer has room for the objects, each rounded up to
    8 bytes, and consumes these. *)
Lemma DeepCopy_room descs m src nested n fuel dp q out b sizes :
  wf_layout descs = true → (n <= fuel)%nat →
  struct_objects descs m src (objects descs m src nested n) dp q sizes →
  (∀ x, src x → 0 < x) → 0 < out → mapped m out (out + 8) →
  buffer_ok b → (∀ x, rest b x → is_Some (m !! x)) →
  disjoint src (range out (out + 8)) → disjoint src (rest b) →
  disjoint (range out (out + 8)) (rest b) →
  ∃ m' b', MojomStruct_DeepCopy descs (MojomType_DispatchDeepCopy descs fuel) dp q out (m, Some b) =
      Ok (bool_decide (num_bytes_used b + space sizes <= buf_size b), (m', Some b')) ∧
    (num_bytes_used b + space sizes <= buf_size b → b' = advance b (space sizes)).
Proof.
  intros Hlay Hfuel Hobj Hsrc Hout Hmap Hb Hfree H1 H2 H3.
  pose proof (DispatchDeepCopy_copies descs Hlay m src nested Hsrc n fuel Hfuel) as Hdisp.
  destruct (MojomStruct_copies descs Hlay m src nested Hsrc n _ dp q out sizes m src)
    as (Hs & Hc & Hr); try done.
  case_bool_decide as Hroom.
  - assert (Hsub : ∀ x, free b (space sizes) x → rest b x) by (unfold free, rest, range; lia).
    destruct (Hc m b) as (m' & Hrun & _); try done; [by intros x Hx; apply Hfree, Hsub|..].
    + intros x Hx Hx'. by apply (H3 x Hx), Hsub.
    + intros x Hx Hx'. by apply (H2 x Hx), Hsub.
    + by exists m', (advance b (space sizes)).
  - destruct (Hr m b) as (m' & b' & Hrun & _); try done; [lia|]. by exists m', b'.
Qed.

(** C9: the serialized size is the size of the objects.  On a well-formed graph without
    unions nested in unions [MojomStruct_ComputeSerializedSize] does not crash and returns
    the sum of the [num_bytes] of all objects reached; and when these are multiples of 8,
    as [MojomArray_New] makes them, that is to the byte what [MojomStruct_DeepCopy] takes:
    given any buffer apart from the graph it returns whether that many bytes are left,
    and if so it consumes exactly these. *)
Theorem MojomStruct_ComputeSerializedSize_exact descs m src n fuel dp q sizes :
  (n <= fuel)%nat → struct_objects descs m src (objects descs m src false n) dp q sizes →
  (∀ x, src x → 0 < x) → 0 <= total sizes < 2 ^ 64 →
  ∃ size, MojomStruct_ComputeSerializedSize descs m
      (MojomType_DispatchComputeSerializedSize descs m fuel) dp q = Ok size ∧
    size = total sizes ∧
    (wf_layout descs = true → Forall (λ s, s mod 8 = 0) sizes → ∀ out b,
      0 < out → mapped m out (out + 8) → buffer_ok b → (∀ x, rest b x → is_Some (m !! x)) →
      disjoint src (range out (out + 8)) → disjoint src (rest b) →
      disjoint (range out (out + 8)) (rest b) →
      ∃ m' b', MojomStruct_DeepCopy descs (MojomType_DispatchDeepCopy descs fuel) dp q out (m, Some b) =
          Ok (bool_decide (num_bytes_used b + size <= buf_size b), (m', Some b')) ∧
        (num_bytes_used b + size <= buf_size b → b' = advance b size)).
Proof.
  intros Hfuel Hobj Hsrc Hsize. exists (total sizes).
  pose proof (DispatchComputeSerializedSize_size descs m src Hsrc n fuel Hfuel).
  rewrite (MojomStruct_size descs m src Hsrc n _ dp q sizes Hobj), u64_small by done.
  split_and!; [done|done|]. intros Hlay Hmod out b. rewrite <- (space_total _ Hmod).
  intros. by eapply (DeepCopy_room descs m src false n).
Qed.

(** The graph of Graph.v with strings of eight characters. *)
Definition even_words : list Z := [
  (* 4096 *) 40; 0; 4136; 0; 4152; 0; 16; 1; 4208; 0;
  (* 4136 *) 16; 8; 1684234849; 1751606885;
  (* 4152 *) 40; 0; 4192; 0; 0; 0; 0; 0; 0; 0;
  (* 4192 *) 16; 8; 1684234849; 1751606885;
  (* 4208 *) 16; 8; 1684234849; 1751606885].
Definition even_mem : mem := words 4096 even_words ∪ words 8192 (repeat 0 34) ∪ words 8000 [0; 0].
Definition even_sizes : list Z := [40; 16; 40; 16; 16].

Lemma even_objects :
  struct_objects graph_descs even_mem (range 4096 4224)
    (objects graph_descs even_mem (range 4096 4224) false 3) (Some 0%nat) 4096 even_sizes.
Proof.
  assert (Hmap : mapped even_mem 4096 4224) by (apply mapped_check_sound; by vm_compute).
  eapply struct_graph_sound; [apply Hmap|apply graph_sound, Hmap|]. by vm_compute.
Qed.

(** The size is 128; a buffer of 136 bytes has room, one of 127 has not. *)
Lemma MojomStruct_ComputeSerializedSize_exact_witness :
  ∃ size, MojomStruct_ComputeSerializedSize graph_descs even_mem
      (MojomType_DispatchComputeSerializedSize graph_descs even_mem 3) (Some 0%nat) 4096 = Ok size ∧
    size = 128 ∧
    ∀ room, room = 136 ∨ room = 127 → ∃ m' b',
      MojomStruct_DeepCopy graph_descs (MojomType_DispatchDeepCopy graph_descs 3) (Some 0%nat) 4096 8000
        (even_mem, Some (mkBuffer 8192 room 0)) = Ok (bool_decide (size <= room), (m', Some b')).
Proof.
  destruct (MojomStruct_ComputeSerializedSize_exact graph_descs even_mem (range 4096 4224) 3 3
    (Some 0%nat) 4096 even_sizes) as (size & Hsize & Htotal & Hcopy).
  - lia.
  - apply even_objects.
  - intros x Hx. unfold range in Hx. lia.
  - by vm_compute.
  - exists size. split; [exact Hsize|]. split; [exact Htotal|]. intros room Hroom.
    destruct (Hcopy ltac:(by vm_compute) ltac:(by repeat constructor) 8000 (mkBuffer 8192 room 0))
      as (m' & b' & Hrun & _); [lia| | | | | | |exists m', b'; exact Hrun].
    + apply mapped_check_sound. by vm_compute.
    + unfold buffer_ok. cbn. lia.
    + intros x Hx. apply (mapped_check_sound even_mem 8192 8328); [by vm_compute|].
      clear -Hx Hroom. unfold rest, range in *. cbn in *. lia.
    + intros x Hx Hx'. clear -Hx Hx' Hroom. unfold range in *. lia.
    + intros x Hx Hx'. clear -Hx Hx' Hroom. unfold rest, range in *. cbn in *. lia.
    + intros x Hx Hx'. clear -Hx Hx' Hroom. unfold rest, range in *. cbn in *. lia.
Defined.

(** a buffer of the serialized size can be too small for the copy.  The
    string fields of this graph do not fill their last word (their headers say
    12, 10 and 9 bytes, as the C++ bindings write them).
    The size computed is 111 bytes, but the copy rounds every object up to 8
    bytes: in a buffer of 111 bytes, even in one of 120,
    [MojomStruct_DeepCopy] fails, and it takes one of 128. *)
Theorem ComputeSerializedSize_too_small_for_DeepCopy :
  let copies size := match MojomStruct_DeepCopy graph_descs
      (MojomType_DispatchDeepCopy graph_descs 3) (Some 0%nat) 4096 8000
      (graph_mem, Some (mkBuffer 8192 size 0)) with
    | Ok (ok, _) => Some ok
    | Crash _ => None
    end in
  MojomStruct_ComputeSerializedSize graph_descs graph_mem
    (MojomType_DispatchComputeSerializedSize graph_descs graph_mem 3) (Some 0%nat) 4096 =
    Ok 111 ∧
  copies 111 = Some false ∧ copies 120 = Some false ∧ copies 128 = Some true.
Proof. by vm_compute. Qed.

(** the contents of a nested union are left out of the serialized size.
    For a pointer to a union the size function looks at the slot that holds the
    pointer instead of the union it leads to, so that the upper half of the
    address is taken for the tag.  Unless that happens to be the tag of a field
    the result is 16, the size of the union itself, although the objects the
    union refers to need space as well. *)
Theorem UNION_PTR_size_misses_contents descs m src n fuel dp d p q sizes :
  objects descs m src true n UNION_PTR dp false p sizes → 0 < p →
  deref_union descs dp = Ok d → load64 m p = Ok q →
  (∀ e, e ∈ ud_entries d → ue_tag e ≠ q / 2 ^ 32) →
  MojomType_DispatchComputeSerializedSize descs m (S fuel) UNION_PTR dp false p = Ok 16 ∧
  ∃ rest, sizes = 16 :: rest.
Proof.
  intros Hobj Hp Hd Hq Hne. destruct n; [done|]. destruct Hobj as (_ & _ & q' & Hq' & Hobj).
  rewrite Hq in Hq'. injection Hq' as <-.
  destruct (q =? 0) eqn:Hq0; [by destruct Hobj|].
  destruct Hobj as (_ & sz & rest & _ & -> & _). split; [|by exists rest].
  cbn [MojomType_DispatchComputeSerializedSize]. rewrite Hq. cbn [mbind result_bind].
  rewrite Hq0. cbn [negb orb mbind result_bind]. unfold MojomUnion_ComputeSerializedSize.
  replace (negb (p =? 0)) with true by lia.
  replace (desc_nonnull dp) with true by (by destruct dp). cbn [c_assertR mbind result_bind].
  rewrite Hd. cbn [mbind result_bind].
  unfold union_tag. rewrite (load64_high _ _ _ Hq), select_union_entry_none by done. done.
Qed.

(** A slot at 4096 pointing to a union at 4104 that holds a string at 4120. *)
Definition nested_union_mem : mem :=
  words 4096 [4104; 0; 16; 1; 4120; 0; 12; 4; 1684234849; 0].

Lemma UNION_PTR_size_misses_contents_witness :
  MojomType_DispatchComputeSerializedSize nested_descs nested_union_mem 3 UNION_PTR
    (Some 2%nat) false 4096 = Ok 16 ∧ ∃ rest, [16; 12] = 16 :: rest.
Proof.
  eapply (UNION_PTR_size_misses_contents nested_descs nested_union_mem (range 4096 4136) 2 2
    (Some 2%nat) _ 4096 4104).
  - eapply graph_sound; [apply mapped_check_sound|]; by vm_compute.
  - lia.
  - reflexivity.
  - by vm_compute.
  - intros e. cbn. rewrite list_elem_of_singleton. by intros ->.
Defined.
