(* ===== verification/Message.v ===== *)
(** * Message headers (public/c/lib/bindings/message.c, bindings/message.h)

    Every message on a pipe starts with a [struct MojomMessage]: a struct
    header, an ordinal and flags, followed from version 1 on by a request id. *)
From stdpp Require Import base list numbers option gmap.
From S2P Require Import Prelude Memory TypeDescriptor Validate Sample.

Definition MOJOM_MESSAGE_FLAGS_EXPECTS_RESPONSE : Z := Z.shiftl 1 0.
Definition MOJOM_MESSAGE_FLAGS_IS_RESPONSE : Z := Z.shiftl 1 1.

Definition sizeof_MojomMessage : Z := 16.
Definition sizeof_MojomMessageWithRequestId : Z := 24.

(** [struct MojomMessage]: header (8 bytes), ordinal, flags;
    [struct MojomMessageWithRequestId]: the same and a [uint64_t]. *)
Definition message_ordinal (m : mem) (p : Z) : result Z := load32 m (p + 8).
Definition message_flags (m : mem) (p : Z) : result Z := load32 m (p + 12).
Definition message_request_id (m : mem) (p : Z) : result Z := load64 m (p + 16).

(** [flags & flag] as a condition *)
Definition has_flag (flags flag : Z) : bool := negb (Z.land flags flag =? 0).

Section message.
Context (m : mem).

(** The checks that depend on the version; [Some code]: return it. *)
Definition check_version (in_buf : Z) : result (option Z) :=
  version ← struct_version m in_buf;
  num_bytes ← struct_num_bytes m in_buf;
  if version =? 0 then
    if negb (num_bytes =? sizeof_MojomMessage) then
      Ok (Some MOJOM_VALIDATION_UNEXPECTED_STRUCT_HEADER)
    else
    flags ← message_flags m in_buf;
    if has_flag flags MOJOM_MESSAGE_FLAGS_EXPECTS_RESPONSE ||
       has_flag flags MOJOM_MESSAGE_FLAGS_IS_RESPONSE then
      Ok (Some MOJOM_VALIDATION_MESSAGE_HEADER_MISSING_REQUEST_ID)
    else Ok None
  else if version =? 1 then
    if negb (num_bytes =? sizeof_MojomMessageWithRequestId) then
      Ok (Some MOJOM_VALIDATION_UNEXPECTED_STRUCT_HEADER)
    else Ok None
  else if 1 <? version then
    if num_bytes <? sizeof_MojomMessageWithRequestId then
      Ok (Some MOJOM_VALIDATION_UNEXPECTED_STRUCT_HEADER)
    else Ok None
  else Ok None.

Definition MojomMessage_ValidateHeader (in_buf in_buf_size : Z) : result Z :=
  out_of_range ←
    (if in_buf_size <? sizeof_MojomStructHeader then Ok true
     else num_bytes ← struct_num_bytes m in_buf; Ok (in_buf_size <? num_bytes));
  if (out_of_range : bool) then Ok MOJOM_VALIDATION_ILLEGAL_MEMORY_RANGE
  else
  early ← check_version in_buf;
  match early with
  | Some r => Ok r
  | None =>
      flags ← message_flags m in_buf;
      if has_flag flags MOJOM_MESSAGE_FLAGS_EXPECTS_RESPONSE &&
         has_flag flags MOJOM_MESSAGE_FLAGS_IS_RESPONSE then
        Ok MOJOM_VALIDATION_MESSAGE_HEADER_INVALID_FLAGS
      else Ok MOJOM_VALIDATION_ERROR_NONE
  end.

Definition MojomMessage_ValidateRequestExpectingResponse (in_buf : Z) : result Z :=
  flags ← message_flags m in_buf;
  Ok (if has_flag flags MOJOM_MESSAGE_FLAGS_EXPECTS_RESPONSE
      then MOJOM_VALIDATION_ERROR_NONE
      else MOJOM_VALIDATION_MESSAGE_HEADER_INVALID_FLAGS).

Definition MojomMessage_ValidateRequestWithoutResponse (in_buf : Z) : result Z :=
  flags ← message_flags m in_buf;
  Ok (if negb (has_flag flags MOJOM_MESSAGE_FLAGS_EXPECTS_RESPONSE) &&
         negb (has_flag flags MOJOM_MESSAGE_FLAGS_IS_RESPONSE)
      then MOJOM_VALIDATION_ERROR_NONE
      else MOJOM_VALIDATION_MESSAGE_HEADER_INVALID_FLAGS).

Definition MojomMessage_ValidateResponse (in_buf : Z) : result Z :=
  flags ← message_flags m in_buf;
  Ok (if has_flag flags MOJOM_MESSAGE_FLAGS_IS_RESPONSE
      then MOJOM_VALIDATION_ERROR_NONE
      else MOJOM_VALIDATION_MESSAGE_HEADER_INVALID_FLAGS).
End message.

(** ** What a well-formed header is

    The declarative reading of message.h: the header fits in the buffer; its
    size is the one of its version; only versions with a request id expect or
    carry a response, and no message does both. *)
Record header_ok (size version num_bytes flags : Z) : Prop := {
  header_fits : sizeof_MojomStructHeader <= size ∧ num_bytes <= size;
  header_size : (version = 0 → num_bytes = sizeof_MojomMessage) ∧
    (version = 1 → num_bytes = sizeof_MojomMessageWithRequestId) ∧
    (1 < version → sizeof_MojomMessageWithRequestId <= num_bytes);
  header_request_id : version = 0 →
    Z.testbit flags 0 = false ∧ Z.testbit flags 1 = false;
  header_exclusive : Z.testbit flags 0 && Z.testbit flags 1 = false;
}.

Lemma has_flag_testbit flags k :
  0 <= k → has_flag flags (Z.shiftl 1 k) = Z.testbit flags k.
Proof.
  intros Hk. unfold has_flag. rewrite Z.shiftl_1_l.
  assert (Z.land flags (2 ^ k) = if Z.testbit flags k then 2 ^ k else 0) as ->.
  { apply Z.bits_inj'. intros i Hi. rewrite Z.land_spec, Z.pow2_bits_eqb by done.
    destruct (Z.eqb_spec k i) as [->|Hne].
    - rewrite andb_true_r. destruct (Z.testbit flags i) eqn:E.
      + by rewrite Z.pow2_bits_true.
      + by rewrite Z.bits_0.
    - rewrite andb_false_r. destruct (Z.testbit flags k).
      + by rewrite Z.pow2_bits_false.
      + by rewrite Z.bits_0. }
  pose proof (Z.pow_pos_nonneg 2 k). destruct (Z.testbit flags k); lia.
Qed.

Definition header_at (m : mem) (p size : Z) : Prop :=
  ∃ version num_bytes flags, struct_version m p = Ok version ∧
    struct_num_bytes m p = Ok num_bytes ∧ message_flags m p = Ok flags ∧
    header_ok size version num_bytes flags.

Section header.
Context (m : mem) (p size : Z).

Ltac flags_to_bits :=
  unfold MOJOM_MESSAGE_FLAGS_EXPECTS_RESPONSE, MOJOM_MESSAGE_FLAGS_IS_RESPONSE in *;
  rewrite ?has_flag_testbit in * by lia.

Lemma check_version_safe :
  mapped m p (p + 8) →
  (∀ nb, struct_num_bytes m p = Ok nb → mapped m p (p + nb)) →
  returns (check_version m p) (λ early, ∃ version nb,
    struct_version m p = Ok version ∧ struct_num_bytes m p = Ok nb ∧ 0 <= version ∧
    match early with
    | Some r => r ≠ MOJOM_VALIDATION_ERROR_NONE ∧
        ∀ flags, message_flags m p = Ok flags → ¬ header_ok size version nb flags
    | None => 16 <= nb ∧
        (version = 0 → nb = sizeof_MojomMessage) ∧
        (version = 1 → nb = sizeof_MojomMessageWithRequestId) ∧
        (1 < version → sizeof_MojomMessageWithRequestId <= nb) ∧
        ∀ flags, message_flags m p = Ok flags → version = 0 →
          Z.testbit flags 0 = false ∧ Z.testbit flags 1 = false
    end).
Proof.
  intros Hm Hnb. unfold check_version, sizeof_MojomMessage, sizeof_MojomMessageWithRequestId.
  destruct (load_le_mapped 4 m p) as [nb Hn]; [eapply mapped_sub; [exact Hm|lia|lia]|].
  destruct (load_le_mapped 4 m (p + 4)) as [v Hv]; [eapply mapped_sub; [exact Hm|lia|lia]|].
  change (struct_version m p = Ok v) in Hv. change (struct_num_bytes m p = Ok nb) in Hn.
  specialize (Hnb nb Hn). rewrite Hv, Hn. cbn [mbind result_bind].
  pose proof (load32_range _ _ _ Hv).
  destruct (v =? 0) eqn:E0; [destruct (negb (nb =? 16)) eqn:En|
    destruct (v =? 1) eqn:E1; [destruct (negb (nb =? 24)) eqn:En|
      replace (1 <? v) with true by lia; destruct (nb <? 24) eqn:En]];
    cbn [returns].
  1,3,5: exists v, nb; (split_and!; [done|done|lia|done|]);
    intros flags _ Hok; destruct (header_size _ _ _ _ Hok) as (H1 & H2 & H3);
    unfold sizeof_MojomMessage, sizeof_MojomMessageWithRequestId in *; lia.
  2,3: exists v, nb; (split_and!; [done|done|lia|lia|lia|lia|lia|]); intros; lia.
  destruct (load_le_mapped 4 m (p + 12)) as [f Hf]; [eapply mapped_sub; [exact Hnb|lia|lia]|].
  change (message_flags m p = Ok f) in Hf. rewrite Hf. cbn [mbind result_bind].
  destruct (_ || _) eqn:Ef; cbn [returns]; exists v, nb; flags_to_bits.
  - split_and!; [done|done|lia|done|]. intros flags [= <-] Hok.
    destruct (header_request_id _ _ _ _ Hok) as [H1 H2]; [lia|]. by rewrite H1, H2 in Ef.
  - split_and!; [done|done|lia|lia|lia|lia|lia|]. intros flags [= <-] _.
    by apply orb_false_iff.
Qed.

Lemma ValidateHeader_spec :
  mapped m p (p + size) →
  returns (MojomMessage_ValidateHeader m p size) (λ r,
    r = MOJOM_VALIDATION_ERROR_NONE ↔ header_at m p size).
Proof.
  intros Hm. unfold MojomMessage_ValidateHeader, sizeof_MojomStructHeader.
  destruct (size <? 8) eqn:Esz.
  { cbn. split; [done|]. intros (v & nb & f & _ & _ & _ & Hok).
    destruct (header_fits _ _ _ _ Hok). unfold sizeof_MojomStructHeader in *. lia. }
  destruct (load_le_mapped 4 m p) as [nb Hn]; [eapply mapped_sub; [exact Hm|lia|lia]|].
  change (struct_num_bytes m p = Ok nb) in Hn. rewrite Hn. cbn [mbind result_bind].
  destruct (size <? nb) eqn:Enb.
  { cbn. split; [done|]. intros (v & nb' & f & _ & Hn' & _ & Hok). same_result.
    destruct (header_fits _ _ _ _ Hok). lia. }
  apply returns_bind. eapply returns_mono; [apply check_version_safe|].
  { eapply mapped_sub; [exact Hm|lia|lia]. }
  { intros nb' [= <-]%(transitivity (eq_sym Hn)). eapply mapped_sub; [exact Hm|lia|lia]. }
  intros early (v & nb' & Hv & Hn' & Hv0 & Hearly). same_result.
  destruct early as [r|]; cbn [returns].
  { destruct Hearly as [Hr Hno]. split; [done|].
    intros (v' & nb' & f & Hv' & Hn'' & Hf & Hok). same_result. by eapply Hno in Hok. }
  destruct Hearly as (H16 & Hz & Ho & Hgt & Hfl).
  destruct (load_le_mapped 4 m (p + 12)) as [f Hf]; [eapply mapped_sub; [exact Hm|lia|lia]|].
  change (message_flags m p = Ok f) in Hf. rewrite Hf. cbn [mbind result_bind].
  destruct (_ && _) eqn:Ef; cbn [returns]; flags_to_bits; (split; [try done|]).
  - intros (v' & nb' & f' & Hv' & Hn'' & Hf' & Hok). same_result.
    pose proof (header_exclusive _ _ _ _ Hok). congruence.
  - intros _. exists v, nb, f. split_and!; [done|done|done|]. constructor.
    + unfold sizeof_MojomStructHeader. lia.
    + done.
    + by apply Hfl.
    + done.
  - done.
Qed.
End header.

(** ** The properties *)

(** C12: [MojomMessage_ValidateHeader] is total and exact.  On any buffer of
    [size] mapped bytes, truncated or hostile, it reads inside the buffer only
    and returns a code; the code is NONE for precisely the headers that
    message.h describes, of the known versions and of all later ones. *)
Theorem MojomMessage_ValidateHeader_exact m p size :
  mapped m p (p + size) →
  ∃ r, MojomMessage_ValidateHeader m p size = Ok r ∧
    (r = MOJOM_VALIDATION_ERROR_NONE ↔ header_at m p size).
Proof. intros Hm. apply returns_Ok_inv, ValidateHeader_spec, Hm. Qed.

(** A response of version 1 to request 7. *)
Definition sample_header : mem := words 4096 [24; 1; 3; 2; 7; 0].

Lemma MojomMessage_ValidateHeader_exact_witness :
  ∃ r, MojomMessage_ValidateHeader sample_header 4096 24 = Ok r ∧
    (r = MOJOM_VALIDATION_ERROR_NONE ↔ header_at sample_header 4096 24).
Proof.
  apply (MojomMessage_ValidateHeader_exact sample_header 4096 24).
  apply mapped_check_sound. by vm_compute.
Defined.

(** The three kinds of message a receiver distinguishes. *)
Definition message_kinds (m : mem) (p : Z) : list (result Z) :=
  [MojomMessage_ValidateRequestWithoutResponse m p;
   MojomMessage_ValidateRequestExpectingResponse m p;
   MojomMessage_ValidateResponse m p].

(** a message with a valid header is of exactly one kind.  Of the three
    kind checks (request without response, request expecting a response,
    response), one accepts it and the other two return INVALID_FLAGS, so that a
    dispatcher that tries them in any order classifies it the same way. *)
Theorem MojomMessage_one_kind m p size :
  mapped m p (p + size) →
  MojomMessage_ValidateHeader m p size = Ok MOJOM_VALIDATION_ERROR_NONE →
  ∃ i, (i < 3)%nat ∧ ∀ j, (j < 3)%nat →
    message_kinds m p !! j = Some (Ok (if (i =? j)%nat then MOJOM_VALIDATION_ERROR_NONE
                                 else MOJOM_VALIDATION_MESSAGE_HEADER_INVALID_FLAGS)).
Proof.
  intros Hm Hv. pose proof (ValidateHeader_spec m p size Hm) as Hs. rewrite Hv in Hs.
  destruct (proj1 Hs eq_refl) as (v & nb & f & _ & _ & Hf & Hok).
  pose proof (header_exclusive _ _ _ _ Hok) as Hex.
  unfold message_kinds, MojomMessage_ValidateRequestWithoutResponse,
    MojomMessage_ValidateRequestExpectingResponse, MojomMessage_ValidateResponse,
    MOJOM_MESSAGE_FLAGS_EXPECTS_RESPONSE, MOJOM_MESSAGE_FLAGS_IS_RESPONSE.
  rewrite Hf. cbn [mbind result_bind]. rewrite !has_flag_testbit by lia.
  exists (if Z.testbit f 1 then 2 else if Z.testbit f 0 then 1 else 0)%nat.
  destruct (Z.testbit f 0), (Z.testbit f 1); try done;
    (split; [lia|]); intros [|[|[|j]]] Hj; first [done|lia].
Qed.

Lemma MojomMessage_one_kind_witness :
  ∃ i, (i < 3)%nat ∧ ∀ j, (j < 3)%nat →
    message_kinds sample_header 4096 !! j =
      Some (Ok (if (i =? j)%nat then MOJOM_VALIDATION_ERROR_NONE
            else MOJOM_VALIDATION_MESSAGE_HEADER_INVALID_FLAGS)).
Proof.
  apply (MojomMessage_one_kind sample_header 4096 24).
  - apply mapped_check_sound. by vm_compute.
  - by vm_compute.
Defined.

(** the request id of a validated message that is a response, or expects
    one, can be read: the 8 bytes of [request_id] lie within the header, which
    lies within the buffer. *)
Theorem MojomMessage_request_id_readable m p size :
  mapped m p (p + size) →
  MojomMessage_ValidateHeader m p size = Ok MOJOM_VALIDATION_ERROR_NONE →
  MojomMessage_ValidateRequestExpectingResponse m p = Ok MOJOM_VALIDATION_ERROR_NONE ∨
  MojomMessage_ValidateResponse m p = Ok MOJOM_VALIDATION_ERROR_NONE →
  ∃ nb id, struct_num_bytes m p = Ok nb ∧ 24 <= nb <= size ∧
    message_request_id m p = Ok id ∧ 0 <= id < 2 ^ 64.
Proof.
  intros Hm Hv Hkind. pose proof (ValidateHeader_spec m p size Hm) as Hs. rewrite Hv in Hs.
  destruct (proj1 Hs eq_refl) as (v & nb & f & Hver & Hnb & Hf & Hok).
  pose proof (load32_range _ _ _ Hver). destruct (header_fits _ _ _ _ Hok) as [_ Hfit].
  destruct (header_size _ _ _ _ Hok) as (_ & H1 & H2).
  unfold sizeof_MojomMessageWithRequestId in *.
  assert (v ≠ 0) as Hv0.
  { intros Hz. destruct (header_request_id _ _ _ _ Hok Hz) as [Hb0 Hb1].
    unfold MojomMessage_ValidateRequestExpectingResponse, MojomMessage_ValidateResponse,
      MOJOM_MESSAGE_FLAGS_EXPECTS_RESPONSE, MOJOM_MESSAGE_FLAGS_IS_RESPONSE in Hkind.
    rewrite Hf in Hkind. cbn [mbind result_bind] in Hkind.
    rewrite !has_flag_testbit, Hb0, Hb1 in Hkind by lia. by destruct Hkind. }
  destruct (load_le_mapped 8 m (p + 16)) as [id Hid].
  { eapply mapped_sub; [exact Hm|lia|lia]. }
  pose proof (load64_range m (p + 16) id Hid). exists nb, id. split_and!; first [done|lia].
Qed.

Lemma MojomMessage_request_id_readable_witness :
  ∃ nb id, struct_num_bytes sample_header 4096 = Ok nb ∧ 24 <= nb <= 24 ∧
    message_request_id sample_header 4096 = Ok id ∧ 0 <= id < 2 ^ 64.
Proof.
  apply (MojomMessage_request_id_readable sample_header 4096 24).
  - apply mapped_check_sound. by vm_compute.
  - by vm_compute.
  - right. by vm_compute.
Defined.
