(* ===== verification/MojoResult.v ===== *)
(** * Result codes (public/c/include/mojo/result.h)

    A [MojoResult] packs a base error code (4 bits), an error subcode (12
    bits) and an error space (16 bits) into 32 bits. *)
From stdpp Require Import base list numbers option.
From S2P Require Import Prelude.

Definition MOJO_RESULT_MAKE (base_error_code error_space error_subcode : Z) : Z :=
  Z.lor (Z.lor base_error_code (u32 (Z.shiftl error_space 16)))
        (u32 (Z.shiftl error_subcode 4)).

Definition MOJO_RESULT_GET_CODE (result : Z) : Z := Z.land result 0xf.
Definition MOJO_RESULT_GET_SPACE (result : Z) : Z :=
  Z.shiftr (Z.land result 0xffff0000) 16.
Definition MOJO_RESULT_GET_SUBCODE (result : Z) : Z :=
  Z.shiftr (Z.land result 0xfff0) 4.

Definition MOJO_ERROR_CODE_OK : Z := 0x0.
Definition MOJO_ERROR_CODE_CANCELLED : Z := 0x1.
Definition MOJO_ERROR_CODE_UNKNOWN : Z := 0x2.
Definition MOJO_ERROR_CODE_INVALID_ARGUMENT : Z := 0x3.
Definition MOJO_ERROR_CODE_DEADLINE_EXCEEDED : Z := 0x4.
Definition MOJO_ERROR_CODE_NOT_FOUND : Z := 0x5.
Definition MOJO_ERROR_CODE_ALREADY_EXISTS : Z := 0x6.
Definition MOJO_ERROR_CODE_PERMISSION_DENIED : Z := 0x7.
Definition MOJO_ERROR_CODE_RESOURCE_EXHAUSTED : Z := 0x8.
Definition MOJO_ERROR_CODE_FAILED_PRECONDITION : Z := 0x9.
Definition MOJO_ERROR_CODE_ABORTED : Z := 0xa.
Definition MOJO_ERROR_CODE_OUT_OF_RANGE : Z := 0xb.
Definition MOJO_ERROR_CODE_UNIMPLEMENTED : Z := 0xc.
Definition MOJO_ERROR_CODE_INTERNAL : Z := 0xd.
Definition MOJO_ERROR_CODE_UNAVAILABLE : Z := 0xe.
Definition MOJO_ERROR_CODE_DATA_LOSS : Z := 0xf.

Definition MOJO_ERROR_SPACE_SYSTEM : Z := 0x0000.
Definition MOJO_ERROR_SUBCODE_GENERIC : Z := 0x000.
Definition MOJO_ERROR_CODE_FAILED_PRECONDITION_SUBCODE_BUSY : Z := 0x001.
Definition MOJO_ERROR_CODE_UNAVAILABLE_SUBCODE_SHOULD_WAIT : Z := 0x001.

(** [MOJO_RESULT_MAKE(code, MOJO_ERROR_SPACE_SYSTEM, MOJO_ERROR_SUBCODE_GENERIC)] *)
Definition system_result (code : Z) : Z :=
  MOJO_RESULT_MAKE code MOJO_ERROR_SPACE_SYSTEM MOJO_ERROR_SUBCODE_GENERIC.

Definition MOJO_RESULT_OK : Z := system_result MOJO_ERROR_CODE_OK.
Definition MOJO_RESULT_CANCELLED : Z := system_result MOJO_ERROR_CODE_CANCELLED.
Definition MOJO_RESULT_UNKNOWN : Z := system_result MOJO_ERROR_CODE_UNKNOWN.
Definition MOJO_RESULT_INVALID_ARGUMENT : Z := system_result MOJO_ERROR_CODE_INVALID_ARGUMENT.
Definition MOJO_RESULT_DEADLINE_EXCEEDED : Z := system_result MOJO_ERROR_CODE_DEADLINE_EXCEEDED.
Definition MOJO_RESULT_NOT_FOUND : Z := system_result MOJO_ERROR_CODE_NOT_FOUND.
Definition MOJO_RESULT_ALREADY_EXISTS : Z := system_result MOJO_ERROR_CODE_ALREADY_EXISTS.
Definition MOJO_RESULT_PERMISSION_DENIED : Z := system_result MOJO_ERROR_CODE_PERMISSION_DENIED.
Definition MOJO_RESULT_RESOURCE_EXHAUSTED : Z := system_result MOJO_ERROR_CODE_RESOURCE_EXHAUSTED.
Definition MOJO_RESULT_FAILED_PRECONDITION : Z := system_result MOJO_ERROR_CODE_FAILED_PRECONDITION.
Definition MOJO_RESULT_ABORTED : Z := system_result MOJO_ERROR_CODE_ABORTED.
Definition MOJO_RESULT_OUT_OF_RANGE : Z := system_result MOJO_ERROR_CODE_OUT_OF_RANGE.
Definition MOJO_RESULT_UNIMPLEMENTED : Z := system_result MOJO_ERROR_CODE_UNIMPLEMENTED.
Definition MOJO_RESULT_INTERNAL : Z := system_result MOJO_ERROR_CODE_INTERNAL.
Definition MOJO_RESULT_UNAVAILABLE : Z := system_result MOJO_ERROR_CODE_UNAVAILABLE.
Definition MOJO_RESULT_DATA_LOSS : Z := system_result MOJO_ERROR_CODE_DATA_LOSS.
Definition MOJO_RESULT_BUSY : Z :=
  MOJO_RESULT_MAKE MOJO_ERROR_CODE_FAILED_PRECONDITION MOJO_ERROR_SPACE_SYSTEM
    MOJO_ERROR_CODE_FAILED_PRECONDITION_SUBCODE_BUSY.
Definition MOJO_RESULT_SHOULD_WAIT : Z :=
  MOJO_RESULT_MAKE MOJO_ERROR_CODE_UNAVAILABLE MOJO_ERROR_SPACE_SYSTEM
    MOJO_ERROR_CODE_UNAVAILABLE_SUBCODE_SHOULD_WAIT.

(** All complete results result.h defines. *)
Definition mojo_results : list Z := [
  MOJO_RESULT_OK; MOJO_RESULT_CANCELLED; MOJO_RESULT_UNKNOWN; MOJO_RESULT_INVALID_ARGUMENT;
  MOJO_RESULT_DEADLINE_EXCEEDED; MOJO_RESULT_NOT_FOUND; MOJO_RESULT_ALREADY_EXISTS;
  MOJO_RESULT_PERMISSION_DENIED; MOJO_RESULT_RESOURCE_EXHAUSTED;
  MOJO_RESULT_FAILED_PRECONDITION; MOJO_RESULT_ABORTED; MOJO_RESULT_OUT_OF_RANGE;
  MOJO_RESULT_UNIMPLEMENTED; MOJO_RESULT_INTERNAL; MOJO_RESULT_UNAVAILABLE;
  MOJO_RESULT_DATA_LOSS; MOJO_RESULT_BUSY; MOJO_RESULT_SHOULD_WAIT].

(** ** Fields as arithmetic *)

Lemma land_field r lo w :
  0 <= lo → 0 <= w →
  Z.shiftr (Z.land r (Z.shiftl (Z.ones w) lo)) lo = r / 2 ^ lo mod 2 ^ w.
Proof.
  intros Hlo Hw. rewrite Z.shiftr_land, Z.shiftr_shiftl_l, Z.sub_diag, Z.shiftl_0_r by lia.
  by rewrite Z.land_ones, Z.shiftr_div_pow2.
Qed.

Lemma get_code_eq r : MOJO_RESULT_GET_CODE r = r mod 2 ^ 4.
Proof. apply (Z.land_ones r 4). lia. Qed.
Lemma get_space_eq r : MOJO_RESULT_GET_SPACE r = r / 2 ^ 16 mod 2 ^ 16.
Proof. apply (land_field r 16 16); lia. Qed.
Lemma get_subcode_eq r : MOJO_RESULT_GET_SUBCODE r = r / 2 ^ 4 mod 2 ^ 12.
Proof. apply (land_field r 4 12); lia. Qed.

(** Disjoint fields are combined by addition. *)
Lemma lor_shifted a b w : 0 <= w → 0 <= a < 2 ^ w → Z.lor a (Z.shiftl b w) = a + b * 2 ^ w.
Proof.
  intros Hw Ha. rewrite <- Z.shiftl_mul_pow2 by done. symmetry. apply Z.add_nocarry_lor.
  apply Z.bits_inj'. intros i Hi. rewrite Z.land_spec, Z.bits_0.
  destruct (Z.lt_ge_cases i w).
  - by rewrite Z.shiftl_spec_low, andb_false_r.
  - destruct (decide (a = 0)) as [->|]; [by rewrite Z.bits_0|].
    rewrite (Z.bits_above_log2 a i); [done|lia|].
    apply Z.lt_le_trans with w; [|lia]. apply Z.log2_lt_pow2; lia.
Qed.

Lemma make_eq code space subcode :
  0 <= code < 2 ^ 4 → 0 <= space < 2 ^ 16 → 0 <= subcode < 2 ^ 12 →
  MOJO_RESULT_MAKE code space subcode = code + subcode * 2 ^ 4 + space * 2 ^ 16.
Proof.
  intros Hc Hs Hu. unfold MOJO_RESULT_MAKE.
  rewrite !u32_small by (rewrite Z.shiftl_mul_pow2; lia).
  rewrite <- Z.lor_assoc, (Z.lor_comm (Z.shiftl space 16)), Z.lor_assoc.
  rewrite (lor_shifted code subcode 4) by lia. by rewrite lor_shifted by lia.
Qed.

(** ** The properties *)

(** Packing and unpacking a result are inverse.  The three fields of a
    [MojoResult] made from fields of their widths are those fields, and any
    32-bit result is the one made from its three fields. *)
Theorem MOJO_RESULT_roundtrip code space subcode r :
  0 <= code < 2 ^ 4 → 0 <= space < 2 ^ 16 → 0 <= subcode < 2 ^ 12 → 0 <= r < 2 ^ 32 →
  MOJO_RESULT_GET_CODE (MOJO_RESULT_MAKE code space subcode) = code ∧
  MOJO_RESULT_GET_SPACE (MOJO_RESULT_MAKE code space subcode) = space ∧
  MOJO_RESULT_GET_SUBCODE (MOJO_RESULT_MAKE code space subcode) = subcode ∧
  MOJO_RESULT_MAKE (MOJO_RESULT_GET_CODE r) (MOJO_RESULT_GET_SPACE r)
    (MOJO_RESULT_GET_SUBCODE r) = r.
Proof.
  intros Hc Hs Hu Hr.
  rewrite (make_eq code space subcode) by done.
  rewrite !get_code_eq, !get_space_eq, !get_subcode_eq.
  rewrite make_eq by (apply Z.mod_pos_bound; lia).
  change (2 ^ 4) with 16 in *. change (2 ^ 12) with 4096 in *. change (2 ^ 16) with 65536 in *.
  change (2 ^ 32) with 4294967296 in *.
  Z.to_euclidean_division_equations. lia.
Qed.

Lemma MOJO_RESULT_roundtrip_witness :
  MOJO_RESULT_GET_CODE (MOJO_RESULT_MAKE 9 0x8001 0x123) = 9 ∧
  MOJO_RESULT_GET_SPACE (MOJO_RESULT_MAKE 9 0x8001 0x123) = 0x8001 ∧
  MOJO_RESULT_GET_SUBCODE (MOJO_RESULT_MAKE 9 0x8001 0x123) = 0x123 ∧
  MOJO_RESULT_MAKE (MOJO_RESULT_GET_CODE 0xffffffff) (MOJO_RESULT_GET_SPACE 0xffffffff)
    (MOJO_RESULT_GET_SUBCODE 0xffffffff) = 0xffffffff.
Proof. apply (MOJO_RESULT_roundtrip 9 0x8001 0x123 0xffffffff); lia. Defined.

(** the complete results are pairwise distinct, so that a caller that
    compares codes never confuses two outcomes; and every result but
    [MOJO_RESULT_OK] has a base error code other than OK. *)
Theorem mojo_results_distinct :
  NoDup mojo_results ∧
  ∀ r, r ∈ mojo_results → MOJO_RESULT_GET_CODE r = MOJO_ERROR_CODE_OK → r = MOJO_RESULT_OK.
Proof.
  split; [by apply (bool_decide_unpack _); vm_compute|].
  intros r Hr. unfold mojo_results in Hr.
  repeat (apply elem_of_cons in Hr as [->|Hr]; [by vm_compute|]). by apply elem_of_nil in Hr.
Qed.
