(* ===== verification/System.v ===== *)
(** * The Mojo system calls on Magenta (src/system/mojo.c)

    Each [Mojo*] function converts its arguments, makes one or two Magenta
    system calls and translates the status.  The kernel is not part of the
    program: its calls, its constants and its state are the class
    [MxSyscalls], a parameter of every definition here.

    Conventions.  [SM K A] is a computation over the kernel state [K] (which
    includes the memory a user pointer passed to the kernel designates).  A
    pointer handed on to the kernel is an address.  An out parameter the
    function itself assigns is returned beside the result: [Some v] when the
    function executes [*p = v], [None] when it returns without assigning. *)
From stdpp Require Import base list numbers option.
From S2P Require Import Prelude MojoResult.

Definition SM (K A : Type) : Type := K → A * K.
#[global] Instance SM_ret {K} : MRet (SM K) := λ A a k, (a, k).
#[global] Instance SM_bind {K} : MBind (SM K) := λ A B f e k,
  let '(a, k') := e k in f a k'.

(** ** The kernel's interface (magenta/syscalls.h, magenta/errors.h) *)
Class MxSyscalls (K : Type) := {
  NO_ERROR : Z;
  ERR_INVALID_ARGS : Z;
  ERR_BAD_HANDLE : Z;
  ERR_ACCESS_DENIED : Z;
  ERR_NO_MEMORY : Z;
  ERR_BUSY : Z;
  ERR_CANCELLED : Z;
  ERR_TIMED_OUT : Z;
  ERR_BAD_STATE : Z;
  ERR_TOO_BIG : Z;
  ERR_CHANNEL_CLOSED : Z;
  ERR_NOT_ENOUGH_BUFFER : Z;
  ERR_NOT_READY : Z;
  ERR_NOT_SUPPORTED : Z;
  ERR_ALREADY_EXISTS : Z;
  ERR_NOT_FOUND : Z;
  MX_RIGHT_SAME_RIGHTS : Z;
  MX_TIME_INFINITE : Z;
  MX_VM_FLAG_PERM_READ : Z;
  MX_VM_FLAG_PERM_WRITE : Z;
  mx_current_time : SM K Z;
  mx_handle_close : Z → SM K Z;
  mx_handle_duplicate : Z → Z → SM K Z;
  (** result and the [rights] field of the info struct *)
  mx_handle_get_info_basic : Z → SM K (Z * Z);
  mx_handle_wait_one : Z → Z → Z → Z → SM K Z;
  mx_handle_wait_many : Z → Z → Z → Z → Z → Z → SM K Z;
  (** status and the two handles *)
  mx_message_pipe_create : Z → SM K (Z * (Z * Z));
  mx_message_write : Z → Z → Z → Z → Z → Z → SM K Z;
  mx_message_read : Z → Z → Z → Z → Z → Z → SM K Z;
  (** producer handle or error, and the consumer handle *)
  mx_data_pipe_create : Z → Z → Z → SM K (Z * Z);
  mx_data_pipe_write : Z → Z → Z → Z → SM K Z;
  mx_data_pipe_begin_write : Z → Z → Z → Z → SM K Z;
  mx_data_pipe_end_write : Z → Z → SM K Z;
  mx_data_pipe_read : Z → Z → Z → Z → SM K Z;
  mx_data_pipe_begin_read : Z → Z → Z → Z → SM K Z;
  mx_data_pipe_end_read : Z → Z → SM K Z;
  mx_vm_object_create : Z → SM K Z;
  (** status and the size *)
  mx_vm_object_get_size : Z → SM K (Z * Z);
  mx_process_vm_map : Z → Z → Z → Z → Z → Z → SM K Z;
  mx_process_vm_unmap : Z → Z → Z → SM K Z;
  mx_wait_set_create : SM K Z;
  mx_wait_set_add : Z → Z → Z → Z → SM K Z;
  mx_wait_set_remove : Z → Z → SM K Z;
  mx_wait_set_wait : Z → Z → Z → Z → Z → SM K Z;
}.

(** [switch (status) { case c: return r; ... default: return d; }] *)
Fixpoint switch (status : Z) (cases : list (Z * Z)) (d : Z) : Z :=
  match cases with
  | [] => d
  | (c, r) :: cases' => if status =? c then r else switch status cases' d
  end.

(** ** The structures passed by pointer ([None]: a null pointer) *)

Record MojoCreateMessagePipeOptions : Set := { cmp_flags : Z }.
Record MojoCreateDataPipeOptions : Set := {
  cdp_flags : Z;
  cdp_element_num_bytes : Z;
  cdp_capacity_num_bytes : Z;
}.
Record MojoCreateSharedBufferOptions : Set := { csb_flags : Z }.
Record MojoDuplicateBufferHandleOptions : Set := { dbh_flags : Z }.
Record MojoBufferInformation : Set := mkBufferInformation {
  bi_struct_size : Z;
  bi_flags : Z;
  bi_num_bytes : Z;
}.
Record MojoCreateWaitSetOptions : Set := {
  cws_struct_size : Z;
  cws_flags : Z;
}.
Record MojoWaitSetAddOptions : Set := {
  wsa_struct_size : Z;
  wsa_flags : Z;
}.

Definition MOJO_CREATE_MESSAGE_PIPE_OPTIONS_FLAG_NONE : Z := 0.
Definition MOJO_CREATE_SHARED_BUFFER_OPTIONS_FLAG_NONE : Z := 0.
Definition MOJO_DUPLICATE_BUFFER_HANDLE_OPTIONS_FLAG_NONE : Z := 0.
Definition MOJO_BUFFER_INFORMATION_FLAG_NONE : Z := 0.
Definition MOJO_MAP_BUFFER_FLAG_NONE : Z := 0.
Definition MOJO_DEADLINE_INDEFINITE : Z := u64 (-1).
Definition UINTPTR_MAX : Z := 18446744073709551615.

(** [EXTENT_OF(struct, struct_size)] and [EXTENT_OF(struct, flags)] *)
Definition EXTENT_OF_struct_size : Z := 4.
Definition EXTENT_OF_flags : Z := 8.
Definition sizeof_MojoBufferInformation : Z := 16.

(** ** time.h *)

(** [(MojoTimeTicks)t / 1000u]: signed division, truncating. *)
Definition TimeToMojoTicks (t : Z) : Z := Z.quot (s64 t) 1000.

Section mojo.
Context {K : Type} `{!MxSyscalls K}.
Implicit Types (handle flags : Z).

Definition MojoDeadlineToTime (deadline : Z) : Z :=
  if deadline =? MOJO_DEADLINE_INDEFINITE then MX_TIME_INFINITE
  else u64 (deadline * 1000).

(** *** handle.h *)

Definition MojoClose handle : SM K Z :=
  status ← mx_handle_close (s32 handle);
  mret (switch status
    [(NO_ERROR, MOJO_RESULT_OK);
     (ERR_INVALID_ARGS, MOJO_RESULT_INVALID_ARGUMENT)]
    MOJO_RESULT_UNKNOWN).

Definition MojoDuplicateHandle handle : SM K (Z * option Z) :=
  result ← mx_handle_duplicate (s32 handle) MX_RIGHT_SAME_RIGHTS;
  if result <? 0 then
    mret (switch result
      [(ERR_BAD_HANDLE, MOJO_RESULT_INVALID_ARGUMENT);
       (ERR_INVALID_ARGS, MOJO_RESULT_INVALID_ARGUMENT);
       (ERR_ACCESS_DENIED, MOJO_RESULT_PERMISSION_DENIED);
       (ERR_NO_MEMORY, MOJO_RESULT_RESOURCE_EXHAUSTED)]
      MOJO_RESULT_UNKNOWN, None)
  else mret (MOJO_RESULT_OK, Some (u32 result)).

Definition MojoGetRights handle : SM K (Z * option Z) :=
  '(result, rights) ← mx_handle_get_info_basic (s32 handle);
  if result <? 0 then
    mret (switch result
      [(ERR_BUSY, MOJO_RESULT_BUSY);
       (ERR_BAD_HANDLE, MOJO_RESULT_INVALID_ARGUMENT);
       (ERR_INVALID_ARGS, MOJO_RESULT_INVALID_ARGUMENT);
       (ERR_ACCESS_DENIED, MOJO_RESULT_PERMISSION_DENIED);
       (ERR_NO_MEMORY, MOJO_RESULT_RESOURCE_EXHAUSTED)]
      MOJO_RESULT_UNKNOWN, None)
  else mret (MOJO_RESULT_OK, Some rights).

Definition MojoDuplicateHandleWithReducedRights handle (rights_to_remove : Z)
    : SM K (Z * option Z) :=
  '(result, original_rights) ← MojoGetRights handle;
  if negb (result =? MOJO_RESULT_OK) then mret (result, None)
  else
  let new_rights := Z.land (default 0 original_rights) (u32 (Z.lnot rights_to_remove)) in
  new_mx_handle ← mx_handle_duplicate (s32 handle) new_rights;
  if new_mx_handle <? 0 then
    mret (switch new_mx_handle
      [(ERR_BUSY, MOJO_RESULT_BUSY);
       (ERR_BAD_HANDLE, MOJO_RESULT_INVALID_ARGUMENT);
       (ERR_INVALID_ARGS, MOJO_RESULT_INVALID_ARGUMENT);
       (ERR_ACCESS_DENIED, MOJO_RESULT_PERMISSION_DENIED);
       (ERR_NO_MEMORY, MOJO_RESULT_RESOURCE_EXHAUSTED)]
      MOJO_RESULT_UNKNOWN, None)
  else mret (MOJO_RESULT_OK, Some (u32 new_mx_handle)).

Definition MojoReplaceHandleWithReducedRights handle (rights_to_remove : Z)
    : SM K (Z * option Z) :=
  '(result, new_handle) ← MojoDuplicateHandleWithReducedRights handle rights_to_remove;
  if negb (result =? MOJO_RESULT_OK) then mret (result, None)
  else
  result ← MojoClose handle;
  if negb (result =? MOJO_RESULT_OK) then mret (result, None)
  else mret (MOJO_RESULT_OK, new_handle).

Definition MojoGetTimeTicksNow : SM K Z :=
  t ← mx_current_time; mret (TimeToMojoTicks t).

(** *** wait.h *)

Definition wait_result (status : Z) : Z :=
  switch status
    [(NO_ERROR, MOJO_RESULT_OK);
     (ERR_CANCELLED, MOJO_RESULT_CANCELLED);
     (ERR_NO_MEMORY, MOJO_RESULT_RESOURCE_EXHAUSTED);
     (ERR_INVALID_ARGS, MOJO_RESULT_INVALID_ARGUMENT);
     (ERR_TIMED_OUT, MOJO_RESULT_DEADLINE_EXCEEDED);
     (ERR_BAD_STATE, MOJO_RESULT_FAILED_PRECONDITION);
     (ERR_BUSY, MOJO_RESULT_BUSY);
     (ERR_ACCESS_DENIED, MOJO_RESULT_PERMISSION_DENIED)]
    MOJO_RESULT_UNKNOWN.

Definition MojoWait handle (signals deadline signals_state : Z) : SM K Z :=
  status ← mx_handle_wait_one (s32 handle) signals (MojoDeadlineToTime deadline)
             signals_state;
  mret (wait_result status).

Definition MojoWaitMany (handles signals num_handles deadline result_index
    signals_states : Z) : SM K Z :=
  status ← mx_handle_wait_many num_handles handles signals (MojoDeadlineToTime deadline)
             result_index signals_states;
  mret (wait_result status).

(** *** message_pipe.h *)

Definition MojoCreateMessagePipe (options : option MojoCreateMessagePipeOptions)
    : SM K (Z * option (Z * Z)) :=
  if (match options with
      | Some o => negb (cmp_flags o =? MOJO_CREATE_MESSAGE_PIPE_OPTIONS_FLAG_NONE)
      | None => false
      end) then mret (MOJO_RESULT_INVALID_ARGUMENT, None)
  else
  '(status, (h0, h1)) ← mx_message_pipe_create 0;
  if negb (status =? NO_ERROR) then
    mret (switch status
      [(ERR_INVALID_ARGS, MOJO_RESULT_INVALID_ARGUMENT);
       (ERR_NO_MEMORY, MOJO_RESULT_RESOURCE_EXHAUSTED)]
      MOJO_RESULT_UNKNOWN, None)
  else mret (MOJO_RESULT_OK, Some (u32 h0, u32 h1)).

Definition MojoWriteMessage (message_pipe_handle bytes num_bytes handles num_handles
    flags : Z) : SM K Z :=
  status ← mx_message_write (s32 message_pipe_handle) bytes num_bytes handles
             num_handles flags;
  mret (switch status
    [(NO_ERROR, MOJO_RESULT_OK);
     (ERR_INVALID_ARGS, MOJO_RESULT_INVALID_ARGUMENT);
     (ERR_ACCESS_DENIED, MOJO_RESULT_PERMISSION_DENIED);
     (ERR_BAD_STATE, MOJO_RESULT_FAILED_PRECONDITION);
     (ERR_NO_MEMORY, MOJO_RESULT_RESOURCE_EXHAUSTED);
     (ERR_TOO_BIG, MOJO_RESULT_UNKNOWN)]
    MOJO_RESULT_UNKNOWN).

Definition MojoReadMessage (message_pipe_handle bytes num_bytes handles num_handles
    flags : Z) : SM K Z :=
  status ← mx_message_read (s32 message_pipe_handle) bytes num_bytes handles
             num_handles flags;
  mret (switch status
    [(NO_ERROR, MOJO_RESULT_OK);
     (ERR_INVALID_ARGS, MOJO_RESULT_INVALID_ARGUMENT);
     (ERR_ACCESS_DENIED, MOJO_RESULT_PERMISSION_DENIED);
     (ERR_BAD_STATE, MOJO_RESULT_SHOULD_WAIT);
     (ERR_CHANNEL_CLOSED, MOJO_RESULT_FAILED_PRECONDITION);
     (ERR_NO_MEMORY, MOJO_RESULT_RESOURCE_EXHAUSTED);
     (ERR_NOT_ENOUGH_BUFFER, MOJO_RESULT_RESOURCE_EXHAUSTED)]
    MOJO_RESULT_UNKNOWN).

(** *** data_pipe.h *)

Definition MojoCreateDataPipe (options : option MojoCreateDataPipeOptions)
    : SM K (Z * option (Z * Z)) :=
  let create (element_num_bytes capacity_num_bytes : Z) :=
    '(producer, consumer) ← mx_data_pipe_create 0 element_num_bytes capacity_num_bytes;
    if producer <? 0 then
      mret (switch producer
        [(ERR_INVALID_ARGS, MOJO_RESULT_INVALID_ARGUMENT);
         (ERR_NO_MEMORY, MOJO_RESULT_RESOURCE_EXHAUSTED)]
        MOJO_RESULT_UNKNOWN, None)
    else mret (MOJO_RESULT_OK, Some (u32 producer, u32 consumer)) in
  match options with
  | None => create 1 0
  | Some o =>
      if negb (cdp_flags o =? 0) then mret (MOJO_RESULT_UNIMPLEMENTED, None)
      else
      create (cdp_element_num_bytes o)
        (if negb (cdp_capacity_num_bytes o =? 0) then cdp_capacity_num_bytes o else 0)
  end.

(** The four functions on data pipe options do nothing yet. *)
Definition MojoSetDataPipeProducerOptions handle (options : Z) : SM K Z :=
  mret MOJO_RESULT_UNIMPLEMENTED.
Definition MojoGetDataPipeProducerOptions handle (options options_num_bytes : Z) : SM K Z :=
  mret MOJO_RESULT_UNIMPLEMENTED.
Definition MojoSetDataPipeConsumerOptions handle (options : Z) : SM K Z :=
  mret MOJO_RESULT_UNIMPLEMENTED.
Definition MojoGetDataPipeConsumerOptions handle (options options_num_bytes : Z) : SM K Z :=
  mret MOJO_RESULT_UNIMPLEMENTED.

(** [num_bytes] is the value of [*num_bytes] on entry. *)
Definition MojoWriteData handle (elements num_bytes flags : Z) : SM K (Z * option Z) :=
  if negb (flags =? 0) then mret (MOJO_RESULT_UNIMPLEMENTED, None)
  else
  written ← mx_data_pipe_write (s32 handle) 0 num_bytes elements;
  if written <? 0 then
    mret (switch written
      [(ERR_BAD_HANDLE, MOJO_RESULT_INVALID_ARGUMENT);
       (ERR_INVALID_ARGS, MOJO_RESULT_INVALID_ARGUMENT);
       (ERR_ACCESS_DENIED, MOJO_RESULT_PERMISSION_DENIED);
       (ERR_BAD_STATE, MOJO_RESULT_FAILED_PRECONDITION);
       (ERR_NOT_READY, MOJO_RESULT_SHOULD_WAIT)]
      MOJO_RESULT_UNKNOWN, None)
  else mret (MOJO_RESULT_OK, Some (u32 written)).

Definition MojoBeginWriteData handle (buffer flags : Z) : SM K (Z * option Z) :=
  if negb (flags =? 0) then mret (MOJO_RESULT_UNIMPLEMENTED, None)
  else
  result ← mx_data_pipe_begin_write (s32 handle) 0 UINTPTR_MAX buffer;
  if result <? 0 then
    mret (switch result
      [(ERR_BAD_HANDLE, MOJO_RESULT_INVALID_ARGUMENT);
       (ERR_INVALID_ARGS, MOJO_RESULT_INVALID_ARGUMENT);
       (ERR_ACCESS_DENIED, MOJO_RESULT_PERMISSION_DENIED);
       (ERR_BAD_STATE, MOJO_RESULT_FAILED_PRECONDITION);
       (ERR_NOT_READY, MOJO_RESULT_SHOULD_WAIT)]
      MOJO_RESULT_UNKNOWN, None)
  else mret (MOJO_RESULT_OK, Some (u32 result)).

Definition MojoEndWriteData handle (num_bytes_written : Z) : SM K Z :=
  result ← mx_data_pipe_end_write (s32 handle) num_bytes_written;
  mret (switch result
    [(NO_ERROR, MOJO_RESULT_OK);
     (ERR_BAD_HANDLE, MOJO_RESULT_INVALID_ARGUMENT);
     (ERR_INVALID_ARGS, MOJO_RESULT_INVALID_ARGUMENT);
     (ERR_ACCESS_DENIED, MOJO_RESULT_PERMISSION_DENIED);
     (ERR_BAD_STATE, MOJO_RESULT_FAILED_PRECONDITION);
     (ERR_NOT_READY, MOJO_RESULT_SHOULD_WAIT)]
    MOJO_RESULT_INTERNAL).

Definition MojoReadData handle (elements num_bytes flags : Z) : SM K (Z * option Z) :=
  if negb (flags =? 0) then mret (MOJO_RESULT_UNIMPLEMENTED, None)
  else
  bytes_read ← mx_data_pipe_read (s32 handle) 0 num_bytes elements;
  if bytes_read <? 0 then
    mret (switch bytes_read
      [(ERR_INVALID_ARGS, MOJO_RESULT_INVALID_ARGUMENT);
       (ERR_BAD_HANDLE, MOJO_RESULT_INVALID_ARGUMENT);
       (ERR_ACCESS_DENIED, MOJO_RESULT_PERMISSION_DENIED);
       (ERR_BAD_STATE, MOJO_RESULT_FAILED_PRECONDITION);
       (ERR_NOT_READY, MOJO_RESULT_SHOULD_WAIT)]
      MOJO_RESULT_INTERNAL, None)
  else if bytes_read <? 0 then mret (MOJO_RESULT_UNKNOWN, None)
  else mret (MOJO_RESULT_OK, Some (u32 bytes_read)).

Definition MojoBeginReadData handle (buffer flags : Z) : SM K (Z * option Z) :=
  if negb (flags =? 0) then mret (MOJO_RESULT_UNIMPLEMENTED, None)
  else
  result ← mx_data_pipe_begin_read (s32 handle) 0 UINTPTR_MAX buffer;
  if result <? 0 then
    mret (switch result
      [(ERR_INVALID_ARGS, MOJO_RESULT_INVALID_ARGUMENT);
       (ERR_BAD_HANDLE, MOJO_RESULT_INVALID_ARGUMENT);
       (ERR_ACCESS_DENIED, MOJO_RESULT_PERMISSION_DENIED);
       (ERR_BAD_STATE, MOJO_RESULT_FAILED_PRECONDITION);
       (ERR_NOT_READY, MOJO_RESULT_SHOULD_WAIT)]
      MOJO_RESULT_INTERNAL, None)
  else mret (MOJO_RESULT_OK, Some (u32 result)).

Definition MojoEndReadData handle (num_bytes_read : Z) : SM K Z :=
  result ← mx_data_pipe_end_read (s32 handle) num_bytes_read;
  mret (switch result
    [(NO_ERROR, MOJO_RESULT_OK);
     (ERR_BAD_HANDLE, MOJO_RESULT_INVALID_ARGUMENT);
     (ERR_INVALID_ARGS, MOJO_RESULT_INVALID_ARGUMENT);
     (ERR_ACCESS_DENIED, MOJO_RESULT_PERMISSION_DENIED);
     (ERR_BAD_STATE, MOJO_RESULT_FAILED_PRECONDITION)]
    MOJO_RESULT_INTERNAL).

(** *** buffer.h *)

Definition MojoCreateSharedBuffer (options : option MojoCreateSharedBufferOptions)
    (num_bytes : Z) : SM K (Z * option Z) :=
  if (match options with
      | Some o => negb (csb_flags o =? MOJO_CREATE_SHARED_BUFFER_OPTIONS_FLAG_NONE)
      | None => false
      end) then mret (MOJO_RESULT_UNIMPLEMENTED, None)
  else
  result ← mx_vm_object_create num_bytes;
  if result <? 0 then
    mret (switch result
      [(ERR_INVALID_ARGS, MOJO_RESULT_INVALID_ARGUMENT);
       (ERR_NO_MEMORY, MOJO_RESULT_RESOURCE_EXHAUSTED)]
      MOJO_RESULT_UNKNOWN, None)
  else mret (MOJO_RESULT_OK, Some (u32 result)).

Definition MojoDuplicateBufferHandle (buffer_handle : Z)
    (options : option MojoDuplicateBufferHandleOptions) : SM K (Z * option Z) :=
  if (match options with
      | Some o => negb (dbh_flags o =? MOJO_DUPLICATE_BUFFER_HANDLE_OPTIONS_FLAG_NONE)
      | None => false
      end) then mret (MOJO_RESULT_UNIMPLEMENTED, None)
  else MojoDuplicateHandle buffer_handle.

Definition MojoGetBufferInformation (buffer_handle info info_num_bytes : Z)
    : SM K (Z * option MojoBufferInformation) :=
  if (info =? 0) || (info_num_bytes <? 16) then
    mret (MOJO_RESULT_INVALID_ARGUMENT, None)
  else
  '(status, num_bytes) ← mx_vm_object_get_size (s32 buffer_handle);
  if status =? NO_ERROR then
    mret (MOJO_RESULT_OK, Some (mkBufferInformation sizeof_MojoBufferInformation
      MOJO_BUFFER_INFORMATION_FLAG_NONE num_bytes))
  else
    mret (switch status
      [(ERR_INVALID_ARGS, MOJO_RESULT_INVALID_ARGUMENT);
       (ERR_ACCESS_DENIED, MOJO_RESULT_PERMISSION_DENIED)]
      MOJO_RESULT_UNKNOWN, None).

Definition MojoMapBuffer (buffer_handle offset num_bytes buffer flags : Z) : SM K Z :=
  if negb (flags =? MOJO_MAP_BUFFER_FLAG_NONE) then mret MOJO_RESULT_INVALID_ARGUMENT
  else
  status ← mx_process_vm_map 0 (s32 buffer_handle) offset num_bytes buffer
             (Z.lor MX_VM_FLAG_PERM_READ MX_VM_FLAG_PERM_WRITE);
  mret (switch status
    [(NO_ERROR, MOJO_RESULT_OK);
     (ERR_INVALID_ARGS, MOJO_RESULT_INVALID_ARGUMENT);
     (ERR_ACCESS_DENIED, MOJO_RESULT_PERMISSION_DENIED);
     (ERR_NO_MEMORY, MOJO_RESULT_RESOURCE_EXHAUSTED)]
    MOJO_RESULT_UNKNOWN).

Definition MojoUnmapBuffer (buffer : Z) : SM K Z :=
  status ← mx_process_vm_unmap 0 buffer 0;
  mret (switch status
    [(NO_ERROR, MOJO_RESULT_OK);
     (ERR_INVALID_ARGS, MOJO_RESULT_INVALID_ARGUMENT)]
    MOJO_RESULT_UNKNOWN).

(** *** wait_set.h *)

(** The check of [options->struct_size] and [options->flags] that
    [MojoCreateWaitSet] and [MojoWaitSetAdd] share: [Some r]: return [r]. *)
Definition check_options (struct_size : Z) flags : option Z :=
  if struct_size <? EXTENT_OF_struct_size then Some MOJO_RESULT_INVALID_ARGUMENT
  else if EXTENT_OF_flags <=? struct_size then
    (if negb (flags =? 0) then Some MOJO_RESULT_UNIMPLEMENTED else None)
  else None.

Definition MojoCreateWaitSet (options : option MojoCreateWaitSetOptions)
    : SM K (Z * option Z) :=
  match options ≫= λ o, check_options (cws_struct_size o) (cws_flags o) with
  | Some r => mret (r, None)
  | None =>
      result ← mx_wait_set_create;
      if result <? 0 then
        mret (switch result
          [(ERR_NO_MEMORY, MOJO_RESULT_RESOURCE_EXHAUSTED)] MOJO_RESULT_UNKNOWN, None)
      else mret (MOJO_RESULT_OK, Some (u32 result))
  end.

Definition MojoWaitSetAdd (wait_set_handle handle signals cookie : Z)
    (options : option MojoWaitSetAddOptions) : SM K Z :=
  match options ≫= λ o, check_options (wsa_struct_size o) (wsa_flags o) with
  | Some r => mret r
  | None =>
      status ← mx_wait_set_add (s32 wait_set_handle) (s32 handle) signals cookie;
      mret (switch status
        [(NO_ERROR, MOJO_RESULT_OK);
         (ERR_NO_MEMORY, MOJO_RESULT_RESOURCE_EXHAUSTED);
         (ERR_BAD_HANDLE, MOJO_RESULT_INVALID_ARGUMENT);
         (ERR_INVALID_ARGS, MOJO_RESULT_INVALID_ARGUMENT);
         (ERR_ACCESS_DENIED, MOJO_RESULT_PERMISSION_DENIED);
         (ERR_NOT_SUPPORTED, MOJO_RESULT_INVALID_ARGUMENT);
         (ERR_ALREADY_EXISTS, MOJO_RESULT_ALREADY_EXISTS)]
        MOJO_RESULT_UNKNOWN)
  end.

Definition MojoWaitSetRemove (wait_set_handle cookie : Z) : SM K Z :=
  status ← mx_wait_set_remove (s32 wait_set_handle) cookie;
  mret (switch status
    [(NO_ERROR, MOJO_RESULT_OK);
     (ERR_BAD_HANDLE, MOJO_RESULT_INVALID_ARGUMENT);
     (ERR_INVALID_ARGS, MOJO_RESULT_INVALID_ARGUMENT);
     (ERR_ACCESS_DENIED, MOJO_RESULT_PERMISSION_DENIED);
     (ERR_NOT_FOUND, MOJO_RESULT_NOT_FOUND)]
    MOJO_RESULT_UNKNOWN).

Definition MojoWaitSetWait (wait_set_handle deadline num_results results max_results : Z)
    : SM K Z :=
  status ← mx_wait_set_wait (s32 wait_set_handle) (MojoDeadlineToTime deadline)
             num_results results max_results;
  mret (switch status
    [(NO_ERROR, MOJO_RESULT_OK);
     (ERR_NO_MEMORY, MOJO_RESULT_RESOURCE_EXHAUSTED);
     (ERR_BAD_HANDLE, MOJO_RESULT_INVALID_ARGUMENT);
     (ERR_INVALID_ARGS, MOJO_RESULT_INVALID_ARGUMENT);
     (ERR_ACCESS_DENIED, MOJO_RESULT_PERMISSION_DENIED);
     (ERR_TIMED_OUT, MOJO_RESULT_DEADLINE_EXCEEDED)]
    MOJO_RESULT_UNKNOWN).
End mojo.

(** ** Translating statuses *)

Lemma switch_cases status cases d :
  switch status cases d = d ∨ ∃ c, c ∈ cases ∧ switch status cases d = c.2.
Proof.
  induction cases as [|[c r] cases IH]; cbn [switch]; [by left|].
  destruct (status =? c).
  - right. exists (c, r). split; [by left|done].
  - destruct IH as [IH|(c' & Hc' & IH)]; [by left|right].
    exists c'. split; [by right|done].
Qed.

(** A table none of whose results is OK. *)
Definition all_errors (cases : list (Z * Z)) (d : Z) : bool :=
  forallb (λ c, negb (c.2 =? MOJO_RESULT_OK)) cases && negb (d =? MOJO_RESULT_OK).

Lemma switch_error status cases d :
  all_errors cases d = true → switch status cases d ≠ MOJO_RESULT_OK.
Proof.
  unfold all_errors. rewrite andb_true_iff, forallb_forall. intros [Hc Hd].
  destruct (switch_cases status cases d) as [->|(c & Hin & ->)]; [lia|].
  apply list_elem_of_In, Hc in Hin. lia.
Qed.

(** A table whose first line, and no other, says OK. *)
Lemma switch_status status ok cases d :
  all_errors cases d = true →
  switch status ((ok, MOJO_RESULT_OK) :: cases) d = MOJO_RESULT_OK ↔ status = ok.
Proof.
  intros He. cbn [switch]. destruct (Z.eqb_spec status ok) as [->|Hne]; [done|].
  pose proof (switch_error status cases d He). naive_solver.
Qed.

Section facts.
Context {K : Type} `{!MxSyscalls K}.

(** The out parameter is assigned exactly when the result is OK. *)
Definition assigns_iff_ok {A} (f : SM K (Z * option A)) : Prop :=
  ∀ k, is_Some (f k).1.2 ↔ (f k).1.1 = MOJO_RESULT_OK.

(** The function is the system call with its status translated: the same
    effect on the kernel, and OK exactly for [NO_ERROR]. *)
Definition translates_status (f syscall : SM K Z) : Prop :=
  ∀ k, snd (f k) = snd (syscall k) ∧
    (fst (f k) = MOJO_RESULT_OK ↔ fst (syscall k) = NO_ERROR).

(** The function returns [r] and does not call the kernel. *)
Definition refuses {A} (f : SM K A) (r : A) : Prop := ∀ k, f k = (r, k).

Lemma ok_out {A} (a : A) : is_Some (Some a) ↔ MOJO_RESULT_OK = MOJO_RESULT_OK.
Proof. split; [done|eauto]. Qed.

(** A result that is not OK, nothing assigned. *)
Lemma refused_out {A} r : r ≠ MOJO_RESULT_OK → is_Some (None (A := A)) ↔ r = MOJO_RESULT_OK.
Proof. intros Hr. split; [by intros []|done]. Qed.
End facts.

(** Runs a function of this file through its branches, down to translation
    tables. *)
Ltac run_branches :=
  unfold mbind, SM_bind, mret, SM_ret; repeat (case_match; simplify_eq/=).

(** ** The properties *)
Section properties.
Context {K : Type} `{!MxSyscalls K}.

Ltac settle_out :=
  first [ by apply ok_out | by apply refused_out | apply refused_out; lia ].
Ltac out_params := intros k; run_branches; settle_out.

Lemma MojoDuplicateHandle_out h : assigns_iff_ok (MojoDuplicateHandle h).
Proof. unfold MojoDuplicateHandle. out_params. Qed.

Lemma MojoDuplicateReduced_out h r :
  assigns_iff_ok (MojoDuplicateHandleWithReducedRights h r).
Proof.
  unfold MojoDuplicateHandleWithReducedRights. out_params.
Qed.

Lemma check_options_error size flags r :
  check_options size flags = Some r → r ≠ MOJO_RESULT_OK.
Proof. unfold check_options. repeat case_match; naive_solver. Qed.

(** C35: every function of the API that assigns an out parameter does so
    exactly when it returns [MOJO_RESULT_OK], whatever the kernel answers: on
    an error nothing the caller passed is written, and after OK nothing the
    caller reads is left unset. *)
Theorem out_parameters_iff_ok h (x y z : Z) cmp cdp csb dbh cws :
  assigns_iff_ok (MojoDuplicateHandle h) ∧
  assigns_iff_ok (MojoGetRights h) ∧
  assigns_iff_ok (MojoDuplicateHandleWithReducedRights h x) ∧
  assigns_iff_ok (MojoReplaceHandleWithReducedRights h x) ∧
  assigns_iff_ok (MojoCreateMessagePipe cmp) ∧
  assigns_iff_ok (MojoCreateDataPipe cdp) ∧
  assigns_iff_ok (MojoWriteData h x y z) ∧
  assigns_iff_ok (MojoBeginWriteData h x y) ∧
  assigns_iff_ok (MojoReadData h x y z) ∧
  assigns_iff_ok (MojoBeginReadData h x y) ∧
  assigns_iff_ok (MojoCreateSharedBuffer csb x) ∧
  assigns_iff_ok (MojoDuplicateBufferHandle h dbh) ∧
  assigns_iff_ok (MojoGetBufferInformation h x y) ∧
  assigns_iff_ok (MojoCreateWaitSet cws).
Proof.
  split_and!.
  - apply MojoDuplicateHandle_out.
  - unfold MojoGetRights. out_params.
  - apply MojoDuplicateReduced_out.
  - intros k. pose proof (MojoDuplicateReduced_out h x k) as Hd.
    unfold MojoReplaceHandleWithReducedRights, mbind, SM_bind, mret, SM_ret.
    destruct (MojoDuplicateHandleWithReducedRights h x k) as [[r out] k1].
    repeat case_match; simplify_eq/=; first [apply refused_out; lia|idtac].
    rewrite Hd. split; [done|lia].
  - unfold MojoCreateMessagePipe. out_params.
  - unfold MojoCreateDataPipe. out_params.
  - unfold MojoWriteData. out_params.
  - unfold MojoBeginWriteData. out_params.
  - unfold MojoReadData. out_params.
  - unfold MojoBeginReadData. out_params.
  - unfold MojoCreateSharedBuffer. out_params.
  - intros k. unfold MojoDuplicateBufferHandle.
    destruct dbh as [o|]; [destruct (negb _)|]; first [apply MojoDuplicateHandle_out|idtac].
    by apply refused_out.
  - unfold MojoGetBufferInformation. out_params.
  - intros k. unfold MojoCreateWaitSet. destruct (cws ≫= _) as [r|] eqn:E.
    + apply refused_out. destruct cws as [o|]; [|done]. by eapply check_options_error.
    + run_branches; settle_out.
Qed.

#[local] Arguments switch : simpl never.
Ltac status :=
  intros k; unfold mbind, SM_bind, mret, SM_ret; simpl;
  lazymatch goal with |- context [let '(_, _) := ?e in _] => destruct e end; simpl;
  (split; [done|]); by apply switch_status.

(** the functions that only report a status do to the kernel what their
    system call does, once, and return [MOJO_RESULT_OK] exactly when the
    system call returned [NO_ERROR]; no error is ever reported as success. *)
Theorem statuses_translated h h' (a b c d e : Z) :
  translates_status (MojoClose h) (mx_handle_close (s32 h)) ∧
  translates_status (MojoWait h a b c)
    (mx_handle_wait_one (s32 h) a (MojoDeadlineToTime b) c) ∧
  translates_status (MojoWaitMany a b c d e h')
    (mx_handle_wait_many c a b (MojoDeadlineToTime d) e h') ∧
  translates_status (MojoWriteMessage h a b c d e) (mx_message_write (s32 h) a b c d e) ∧
  translates_status (MojoReadMessage h a b c d e) (mx_message_read (s32 h) a b c d e) ∧
  translates_status (MojoEndWriteData h a) (mx_data_pipe_end_write (s32 h) a) ∧
  translates_status (MojoEndReadData h a) (mx_data_pipe_end_read (s32 h) a) ∧
  translates_status (MojoMapBuffer h a b c MOJO_MAP_BUFFER_FLAG_NONE)
    (mx_process_vm_map 0 (s32 h) a b c (Z.lor MX_VM_FLAG_PERM_READ MX_VM_FLAG_PERM_WRITE)) ∧
  translates_status (MojoUnmapBuffer a) (mx_process_vm_unmap 0 a 0) ∧
  translates_status (MojoWaitSetAdd h h' a b None)
    (mx_wait_set_add (s32 h) (s32 h') a b) ∧
  translates_status (MojoWaitSetRemove h a) (mx_wait_set_remove (s32 h) a) ∧
  translates_status (MojoWaitSetWait h a b c d)
    (mx_wait_set_wait (s32 h) (MojoDeadlineToTime a) b c d).
Proof.
  split_and!.
  - unfold MojoClose. status.
  - unfold MojoWait, wait_result. status.
  - unfold MojoWaitMany, wait_result. status.
  - unfold MojoWriteMessage. status.
  - unfold MojoReadMessage. status.
  - unfold MojoEndWriteData. status.
  - unfold MojoEndReadData. status.
  - unfold MojoMapBuffer. status.
  - unfold MojoUnmapBuffer. status.
  - unfold MojoWaitSetAdd. status.
  - unfold MojoWaitSetRemove. status.
  - unfold MojoWaitSetWait. status.
Qed.

(** What the implementation does not support is refused before the kernel
    is asked: nonzero flags or options of the data pipe, shared buffer and
    wait set functions leave the kernel untouched and return UNIMPLEMENTED
    (INVALID_ARGUMENT for the flags of [MojoMapBuffer] and for an information
    structure too small to fill), with nothing assigned. *)
Theorem unsupported_refused h (a b c flags : Z) cdp csb dbh cws wsa :
  flags ≠ 0 → cdp_flags cdp ≠ 0 → csb_flags csb ≠ 0 → dbh_flags dbh ≠ 0 →
  8 <= cws_struct_size cws → cws_flags cws ≠ 0 →
  8 <= wsa_struct_size wsa → wsa_flags wsa ≠ 0 →
  refuses (MojoWriteData h a b flags) (MOJO_RESULT_UNIMPLEMENTED, None) ∧
  refuses (MojoBeginWriteData h a flags) (MOJO_RESULT_UNIMPLEMENTED, None) ∧
  refuses (MojoReadData h a b flags) (MOJO_RESULT_UNIMPLEMENTED, None) ∧
  refuses (MojoBeginReadData h a flags) (MOJO_RESULT_UNIMPLEMENTED, None) ∧
  refuses (MojoCreateDataPipe (Some cdp)) (MOJO_RESULT_UNIMPLEMENTED, None) ∧
  refuses (MojoCreateSharedBuffer (Some csb) a) (MOJO_RESULT_UNIMPLEMENTED, None) ∧
  refuses (MojoDuplicateBufferHandle h (Some dbh)) (MOJO_RESULT_UNIMPLEMENTED, None) ∧
  refuses (MojoCreateWaitSet (Some cws)) (MOJO_RESULT_UNIMPLEMENTED, None) ∧
  refuses (MojoWaitSetAdd h a b c (Some wsa)) MOJO_RESULT_UNIMPLEMENTED ∧
  refuses (MojoMapBuffer h a b c flags) MOJO_RESULT_INVALID_ARGUMENT ∧
  refuses (MojoGetBufferInformation h a 15) (MOJO_RESULT_INVALID_ARGUMENT, None).
Proof.
  intros Hf Hcdp Hcsb Hdbh Hs1 Hcws Hs2 Hwsa.
  unfold MojoWriteData, MojoBeginWriteData, MojoReadData, MojoBeginReadData,
    MojoCreateDataPipe, MojoCreateSharedBuffer, MojoDuplicateBufferHandle,
    MojoCreateWaitSet, MojoWaitSetAdd, MojoMapBuffer, MojoGetBufferInformation,
    MOJO_CREATE_SHARED_BUFFER_OPTIONS_FLAG_NONE, MOJO_MAP_BUFFER_FLAG_NONE,
    MOJO_DUPLICATE_BUFFER_HANDLE_OPTIONS_FLAG_NONE.
  assert (∀ size fl, 8 <= size → fl ≠ 0 →
    check_options size fl = Some MOJO_RESULT_UNIMPLEMENTED) as Hopt.
  { intros size fl Hsize Hfl. unfold check_options, EXTENT_OF_struct_size, EXTENT_OF_flags.
    repeat case_match; first [done|lia]. }
  simpl. rewrite !Hopt by done.
  assert ((flags =? 0) = false) as -> by lia. assert ((cdp_flags cdp =? 0) = false) as -> by lia.
  assert ((csb_flags csb =? 0) = false) as -> by lia.
  assert ((dbh_flags dbh =? 0) = false) as -> by lia. by rewrite orb_true_r.
Qed.

(** an options structure of an older size is accepted whatever lies where
    [flags] would be: for [struct_size] from 4 to 7 the flags are not read,
    and both wait set functions behave as with no options at all; a
    [struct_size] that does not even cover itself is refused. *)
Theorem options_struct_size h h' (a b : Z) cws wsa :
  (4 <= cws_struct_size cws < 8 →
     ∀ k, MojoCreateWaitSet (Some cws) k = MojoCreateWaitSet None k) ∧
  (4 <= wsa_struct_size wsa < 8 →
     ∀ k, MojoWaitSetAdd h h' a b (Some wsa) k = MojoWaitSetAdd h h' a b None k) ∧
  (cws_struct_size cws < 4 →
     refuses (MojoCreateWaitSet (Some cws)) (MOJO_RESULT_INVALID_ARGUMENT, None)) ∧
  (wsa_struct_size wsa < 4 →
     refuses (MojoWaitSetAdd h h' a b (Some wsa)) MOJO_RESULT_INVALID_ARGUMENT).
Proof.
  assert (∀ size fl, 4 <= size < 8 → check_options size fl = None) as Hold.
  { intros size fl Hs. unfold check_options, EXTENT_OF_struct_size, EXTENT_OF_flags.
    repeat case_match; first [done|lia]. }
  assert (∀ size fl, size < 4 → check_options size fl = Some MOJO_RESULT_INVALID_ARGUMENT)
    as Hbad.
  { intros size fl Hs. unfold check_options, EXTENT_OF_struct_size.
    by replace (size <? 4) with true by lia. }
  unfold MojoCreateWaitSet, MojoWaitSetAdd. simpl.
  split_and!; intros Hs; rewrite ?Hold, ?Hbad by done; done.
Qed.

(** a bad handle is reported as an unknown error.  handle.h, wait.h,
    message_pipe.h and buffer.h promise INVALID_ARGUMENT for a handle that is
    not valid, which is what [MojoDuplicateHandle], [MojoGetRights] and the
    data pipe functions return when the kernel answers ERR_BAD_HANDLE; but
    [MojoClose], [MojoWait], [MojoWriteMessage], [MojoReadMessage] and
    [MojoMapBuffer] do not know that status and return UNKNOWN. *)
Theorem bad_handle_unknown h (a b c d e : Z) k :
  NO_ERROR ≠ ERR_BAD_HANDLE → ERR_BAD_HANDLE < 0 →
  ERR_BAD_HANDLE ∉ [ERR_INVALID_ARGS; ERR_ACCESS_DENIED; ERR_NO_MEMORY; ERR_BUSY;
    ERR_CANCELLED; ERR_TIMED_OUT; ERR_BAD_STATE; ERR_TOO_BIG; ERR_CHANNEL_CLOSED;
    ERR_NOT_ENOUGH_BUFFER] →
  let bad (f : SM K Z) := fst (f k) = ERR_BAD_HANDLE in
  (bad (mx_handle_close (s32 h)) → fst (MojoClose h k) = MOJO_RESULT_UNKNOWN) ∧
  (bad (mx_handle_wait_one (s32 h) a (MojoDeadlineToTime b) c) →
     fst (MojoWait h a b c k) = MOJO_RESULT_UNKNOWN) ∧
  (bad (mx_message_write (s32 h) a b c d e) →
     fst (MojoWriteMessage h a b c d e k) = MOJO_RESULT_UNKNOWN) ∧
  (bad (mx_message_read (s32 h) a b c d e) →
     fst (MojoReadMessage h a b c d e k) = MOJO_RESULT_UNKNOWN) ∧
  (bad (mx_process_vm_map 0 (s32 h) a b c
          (Z.lor MX_VM_FLAG_PERM_READ MX_VM_FLAG_PERM_WRITE)) →
     fst (MojoMapBuffer h a b c 0 k) = MOJO_RESULT_UNKNOWN) ∧
  (bad (mx_handle_duplicate (s32 h) MX_RIGHT_SAME_RIGHTS) →
     fst (MojoDuplicateHandle h k) = (MOJO_RESULT_INVALID_ARGUMENT, None)).
Proof.
  intros Hok Hneg Hnin bad.
  assert (∀ cases d, Forall (λ c, c.1 ≠ ERR_BAD_HANDLE) cases →
    switch ERR_BAD_HANDLE cases d = d) as Hsw.
  { induction 1 as [|[c1 r] cases Hc Hcs IH]; [done|].
    unfold switch; fold switch. by rewrite (proj2 (Z.eqb_neq _ _)) by (cbn in Hc; congruence). }
  rewrite !not_elem_of_cons in Hnin. destruct_and! Hnin.
  unfold bad, MojoClose, MojoWait, MojoWriteMessage, MojoReadMessage, MojoMapBuffer,
    MojoDuplicateHandle, wait_result, mbind, SM_bind, mret, SM_ret. simpl.
  split_and!;
    lazymatch goal with |- context [let '(_, _) := ?f in _] => destruct f as [s k1] end;
    simpl; intros ->; try (apply Hsw; repeat constructor; simpl; congruence).
  replace (ERR_BAD_HANDLE <? 0) with true by lia. simpl.
  unfold switch. by rewrite Z.eqb_refl.
Qed.
End properties.
