(* ===== verification/Handles.v ===== *)
(** * Handles and deadlines against a kernel that keeps a handle table

    What [MojoDuplicateHandleWithReducedRights] and
    [MojoReplaceHandleWithReducedRights] (src/system/mojo.c) do to the process's
    handles, proved against an interface that states what the Magenta handle
    calls do; a small kernel that implements the interface, on which the
    theorems about system calls are instantiated. *)
From stdpp Require Import base list numbers option gmap.
From S2P Require Import Prelude MojoResult System.

(** ** The documented behaviour of the handle calls *)
Class HandleTable (K : Type) `{!MxSyscalls K} := {
  live : K → gset Z;           (** the handles of the process *)
  rights_of : K → Z → Z;       (** the rights of a live handle *)
  same_rights_flag : MX_RIGHT_SAME_RIGHTS ≠ 0;
  rights_plain : ∀ k h, h ∈ live k → Z.land (rights_of k h) MX_RIGHT_SAME_RIGHTS = 0;
  (** duplication fails, changing nothing, or adds a fresh handle *)
  duplicate_law : ∀ h r k n k', mx_handle_duplicate h r k = (n, k') →
    (n < 0 ∧ live k' = live k ∧ ∀ x, rights_of k' x = rights_of k x) ∨
    (0 < n < 2 ^ 31 ∧ (h ∈ live k) ∧ (n ∉ live k) ∧ live k' = {[n]} ∪ live k ∧
      (∀ x, x ∈ live k → rights_of k' x = rights_of k x) ∧
      rights_of k' n = (if r =? MX_RIGHT_SAME_RIGHTS then rights_of k h else r));
  (** closing removes exactly the handle, or fails and changes nothing *)
  close_law : ∀ h k s k', mx_handle_close h k = (s, k') →
    ((s = NO_ERROR ∧ h ∈ live k ∧ live k' = live k ∖ {[h]}) ∨
     (s ≠ NO_ERROR ∧ live k' = live k)) ∧
    ∀ x, x ∈ live k' → rights_of k' x = rights_of k x;
  (** looking up a handle's information reports its rights *)
  info_law : ∀ h k r rights k', mx_handle_get_info_basic h k = ((r, rights), k') →
    k' = k ∧ (0 <= r → h ∈ live k ∧ rights = rights_of k h);
}.

#[local] Arguments switch : simpl never.

Section handles.
Context {K : Type} `{!MxSyscalls K, !HandleTable K}.
Implicit Types (k : K).

Lemma s32_small h : 0 < h < 2 ^ 31 → s32 h = h.
Proof. intros Hh. unfold s32. rewrite Z.mod_small by lia. lia. Qed.

(** The rights the new handle gets: some of the old ones. *)
Definition reduced (rights rights_to_remove : Z) : Z :=
  Z.land rights (u32 (Z.lnot rights_to_remove)).

Lemma reduced_plain k h r :
  h ∈ live k → (reduced (rights_of k h) r =? MX_RIGHT_SAME_RIGHTS) = false.
Proof.
  intros Hh. apply Z.eqb_neq. intros Heq. pose proof (rights_plain k h Hh) as Hp.
  apply same_rights_flag. rewrite <- Heq. unfold reduced in *.
  rewrite <- Heq in Hp. rewrite Z.land_assoc, Z.land_diag in Hp. done.
Qed.

Lemma MojoClose_law h k r k' :
  0 < h < 2 ^ 31 → MojoClose h k = (r, k') →
  ((r = MOJO_RESULT_OK ∧ h ∈ live k ∧ live k' = live k ∖ {[h]}) ∨
   (r ≠ MOJO_RESULT_OK ∧ live k' = live k)) ∧
  ∀ x, x ∈ live k' → rights_of k' x = rights_of k x.
Proof.
  intros Hh. unfold MojoClose, mbind, SM_bind, mret, SM_ret. rewrite s32_small by done.
  destruct (mx_handle_close h k) as [s k1] eqn:E. intros [= <- <-].
  apply close_law in E as [E Hr]. split; [|done].
  destruct E as [(-> & ? & ?)|(Hs & ?)]; [left|right]; (split; [|done]).
  - by apply switch_status.
  - by intros ?%switch_status.
Qed.

Lemma MojoDuplicateReduced_law h remove k r out k' :
  0 < h < 2 ^ 31 → MojoDuplicateHandleWithReducedRights h remove k = ((r, out), k') →
  (r ≠ MOJO_RESULT_OK ∧ out = None ∧ live k' = live k ∧
     ∀ x, rights_of k' x = rights_of k x) ∨
  ∃ n, r = MOJO_RESULT_OK ∧ out = Some n ∧ h ∈ live k ∧ (n ∉ live k) ∧
    live k' = {[n]} ∪ live k ∧ (∀ x, x ∈ live k → rights_of k' x = rights_of k x) ∧
    rights_of k' n = reduced (rights_of k h) remove.
Proof.
  intros Hh.
  unfold MojoDuplicateHandleWithReducedRights, MojoGetRights, mbind, SM_bind, mret, SM_ret.
  rewrite s32_small by done.
  destruct (mx_handle_get_info_basic h k) as [[i rights] k1] eqn:Ei.
  apply info_law in Ei as [-> Hi]. destruct (i <? 0) eqn:Eneg.
  { set (e := switch i _ _). assert (e ≠ MOJO_RESULT_OK) as He by (by apply switch_error).
    replace (e =? MOJO_RESULT_OK) with false by lia. intros [= <- <- <-]. left. done. }
  destruct Hi as [Hlive ->]; [lia|]. rewrite Z.eqb_refl. cbn [negb default from_option id].
  change (Z.land (rights_of k h) _) with (reduced (rights_of k h) remove).
  destruct (mx_handle_duplicate h _ k) as [n k2] eqn:Ed.
  apply duplicate_law in Ed as [(Hn & Hl & Hr)|(Hn & _ & Hfresh & Hl & Hr & Hnew)].
  - replace (n <? 0) with true by lia. intros [= <- <- <-]. left.
    split_and!; [by apply switch_error|done|done|done].
  - replace (n <? 0) with false by lia. intros [= <- <- <-]. right. exists n.
    rewrite reduced_plain in Hnew by done. rewrite u32_small by lia. done.
Qed.

(** Replacing a handle keeps the process's handles accounted for.  On
    success the old handle is gone and exactly one fresh handle has taken its
    place, with the old rights minus those to remove, all other handles and
    rights untouched.  On failure the old handle and its rights are as they
    were and nothing is assigned; the handles are the same, or, when it was
    closing the old handle that failed, one more than before: the duplicate,
    whose value nobody holds. *)
Theorem MojoReplaceHandle_accounts h remove k r out k' :
  0 < h < 2 ^ 31 →
  MojoReplaceHandleWithReducedRights h remove k = ((r, out), k') →
  (∀ x, x ∈ live k → x ∈ live k' → rights_of k' x = rights_of k x) ∧
  match out with
  | Some n => r = MOJO_RESULT_OK ∧ h ∈ live k ∧ (n ∉ live k) ∧
      live k' = {[n]} ∪ (live k ∖ {[h]}) ∧
      rights_of k' n = Z.land (rights_of k h) (u32 (Z.lnot remove))
  | None => r ≠ MOJO_RESULT_OK ∧
      (live k' = live k ∨ ∃ n, (n ∉ live k) ∧ live k' = {[n]} ∪ live k)
  end.
Proof.
  intros Hh. unfold MojoReplaceHandleWithReducedRights, mbind, SM_bind, mret, SM_ret.
  destruct (MojoDuplicateHandleWithReducedRights h remove k) as [[r1 out1] k1] eqn:Ed.
  apply MojoDuplicateReduced_law in Ed
    as [(Hr & -> & Hl & Hrights)|(n & -> & -> & Hlive & Hfresh & Hl & Hrights & Hnew)]; [| |done..].
  - replace (r1 =? MOJO_RESULT_OK) with false by lia. intros [= <- <- <-]. auto.
  - rewrite Z.eqb_refl. cbn [negb].
    destruct (MojoClose h k1) as [r2 k2] eqn:Ec.
    apply MojoClose_law in Ec as [[(-> & _ & Hl2)|(Hr2 & Hl2)] Hrights2]; [| |done].
    + rewrite Z.eqb_refl. intros [= <- <- <-]. split.
      { intros x Hx Hx'. rewrite Hrights2 by done. auto. }
      assert (n ≠ h) as Hnh by (by intros ->).
      split_and!; [done|done|done| |rewrite Hrights2; [done|rewrite Hl2, Hl; apply elem_of_difference; rewrite elem_of_union, !elem_of_singleton; auto]].
      rewrite Hl2, Hl. apply set_eq. intros x.
      rewrite elem_of_difference, !elem_of_union, !elem_of_singleton, elem_of_difference,
        elem_of_singleton. split; [tauto|intros [->|?]; [|tauto]].
      split; [by left|]. by intros ->.
    + replace (r2 =? MOJO_RESULT_OK) with false by lia. intros [= <- <- <-]. split.
      { intros x Hx Hx'. rewrite Hrights2 by done. auto. }
      split; [done|]. right. exists n. rewrite Hl2. done.
Qed.
End handles.

(** ** A kernel with a handle table

    The state maps each live handle to its rights, 31 bits.  Duplicating fails
    when the rights asked for are no such mask or the handle space is used up; the calls that are about other objects
    answer ERR_NOT_SUPPORTED. *)
Abbreviation toy := (gmap Z Z).

(** The new handle number: above every live one. *)
Definition toy_fresh (k : toy) : Z := map_fold (λ h _ acc, Z.max (h + 1) acc) 1 k.

Definition unsupported {A} (a : A) : SM toy A := λ k, (a, k).

#[export] Instance toy_syscalls : MxSyscalls toy := {|
  NO_ERROR := 0;
  ERR_INVALID_ARGS := -10;
  ERR_BAD_HANDLE := -11;
  ERR_ACCESS_DENIED := -30;
  ERR_NO_MEMORY := -4;
  ERR_BUSY := -20;
  ERR_CANCELLED := -21;
  ERR_TIMED_OUT := -22;
  ERR_BAD_STATE := -23;
  ERR_TOO_BIG := -24;
  ERR_CHANNEL_CLOSED := -25;
  ERR_NOT_ENOUGH_BUFFER := -26;
  ERR_NOT_READY := -27;
  ERR_NOT_SUPPORTED := -2;
  ERR_ALREADY_EXISTS := -28;
  ERR_NOT_FOUND := -3;
  MX_RIGHT_SAME_RIGHTS := 2 ^ 31;
  MX_TIME_INFINITE := 2 ^ 64 - 1;
  MX_VM_FLAG_PERM_READ := 1;
  MX_VM_FLAG_PERM_WRITE := 2;
  mx_current_time := unsupported 0;
  mx_handle_close := λ h k, match k !! h with
    | Some _ => (0, delete h k)
    | None => (-11, k)
    end;
  mx_handle_duplicate := λ h r k, match k !! h with
    | Some rights =>
        let n := toy_fresh k in
        if (r <? 0) || (2 ^ 31 <? r) then (-10, k)
        else if n <? 2 ^ 31 then (n, <[n := if r =? 2 ^ 31 then rights else r]> k) else (-4, k)
    | None => (-11, k)
    end;
  mx_handle_get_info_basic := λ h k, match k !! h with
    | Some rights => ((0, Z.land rights (2 ^ 31 - 1)), k)
    | None => ((-11, 0), k)
    end;
  mx_handle_wait_one := λ _ _ _ _, unsupported (-11);
  mx_handle_wait_many := λ _ _ _ _ _ _, unsupported (-11);
  mx_message_pipe_create := λ _, unsupported (-2, (0, 0));
  mx_message_write := λ _ _ _ _ _ _, unsupported (-11);
  mx_message_read := λ _ _ _ _ _ _, unsupported (-11);
  mx_data_pipe_create := λ _ _ _, unsupported (-2, 0);
  mx_data_pipe_write := λ _ _ _ _, unsupported (-2);
  mx_data_pipe_begin_write := λ _ _ _ _, unsupported (-2);
  mx_data_pipe_end_write := λ _ _, unsupported (-2);
  mx_data_pipe_read := λ _ _ _ _, unsupported (-2);
  mx_data_pipe_begin_read := λ _ _ _ _, unsupported (-2);
  mx_data_pipe_end_read := λ _ _, unsupported (-2);
  mx_vm_object_create := λ _, unsupported (-2);
  mx_vm_object_get_size := λ _, unsupported (-2, 0);
  mx_process_vm_map := λ _ _ _ _ _ _, unsupported (-11);
  mx_process_vm_unmap := λ _ _ _, unsupported (-2);
  mx_wait_set_create := unsupported (-2);
  mx_wait_set_add := λ _ _ _ _, unsupported (-2);
  mx_wait_set_remove := λ _ _, unsupported (-2);
  mx_wait_set_wait := λ _ _ _ _ _, unsupported (-2);
|}.

Lemma toy_fresh_spec k : 1 <= toy_fresh k ∧ ∀ h r, k !! h = Some r → h < toy_fresh k.
Proof.
  unfold toy_fresh.
  apply (map_fold_weak_ind (λ n (k : toy), 1 <= n ∧ ∀ h r, k !! h = Some r → h < n)).
  - split; [lia|]. intros h r Hh. by rewrite lookup_empty in Hh.
  - intros h r k' n Hnew [Hn IH]. split; [lia|]. intros h' r' Hh'.
    destruct (decide (h = h')) as [->|Hne]; [lia|].
    rewrite lookup_insert_ne in Hh' by done. apply IH in Hh'. lia.
Qed.

(** Rights are 31 bits; what a live handle maps to is read through that mask. *)
Definition toy_rights (k : toy) (h : Z) : Z :=
  Z.land (default 0 (k !! h)) (2 ^ 31 - 1).

Lemma toy_rights_plain k h : Z.land (toy_rights k h) (2 ^ 31) = 0.
Proof. unfold toy_rights. rewrite <- Z.land_assoc. change (Z.land (2 ^ 31 - 1) (2 ^ 31)) with 0. apply Z.land_0_r. Qed.

#[export] Instance toy_handles : HandleTable toy.
Proof.
  refine {| live := λ k, dom k; rights_of := toy_rights |}.
  - done.
  - intros k h _. apply toy_rights_plain.
  - intros h r k n k'. unfold mx_handle_duplicate, MX_RIGHT_SAME_RIGHTS, toy_syscalls.
    destruct (k !! h) as [rights|] eqn:Eh; [|intros [= <- <-]; left; done].
    destruct ((r <? 0) || (2 ^ 31 <? r)) eqn:Er; [intros [= <- <-]; left; done|].
    destruct (toy_fresh k <? 2 ^ 31) eqn:En; [|intros [= <- <-]; left; done].
    intros [= <- <-]. right. destruct (toy_fresh_spec k) as [Hpos Hfresh].
    assert (k !! toy_fresh k = None) as Hnone.
    { destruct (k !! toy_fresh k) eqn:E; [|done]. apply Hfresh in E. lia. }
    split_and!; [lia|lia|by apply elem_of_dom_2 in Eh|by apply not_elem_of_dom| | |].
    + apply dom_insert_L.
    + intros x Hx. unfold toy_rights. rewrite lookup_insert_ne; [done|].
      intros <-. by apply not_elem_of_dom in Hnone.
    + unfold toy_rights. rewrite lookup_insert_eq, Eh. cbn [default from_option id].
      destruct (Z.eqb_spec r (2 ^ 31)) as [->|Hne]; [done|].
      change (2 ^ 31 - 1) with (Z.ones 31). rewrite Z.land_ones by lia.
      apply Z.mod_small. lia.
  - intros h k s k'. unfold mx_handle_close, NO_ERROR, toy_syscalls.
    destruct (k !! h) as [rights|] eqn:Eh; intros [= <- <-].
    + split; [left; split_and!; [done|by apply elem_of_dom_2 in Eh|apply dom_delete_L]|].
      intros x Hx. unfold toy_rights. rewrite lookup_delete_ne; [done|].
      intros <-. rewrite dom_delete_L in Hx. set_solver.
    + split; [by right|done].
  - intros h k r rights k'. unfold mx_handle_get_info_basic, toy_syscalls.
    destruct (k !! h) as [x|] eqn:Eh; intros [= <- <- <-]; (split; [done|]); [|done].
    intros _. split; [by apply elem_of_dom_2 in Eh|]. unfold toy_rights. by rewrite Eh.
Defined.

(** A process with a handle 5 that may be duplicated, transferred, read and
    written, and a handle 9. *)
Definition toy_state : toy := {[5 := 15; 9 := 4]}.

Lemma MojoReplaceHandle_accounts_witness :
  MojoReplaceHandleWithReducedRights 5 8 toy_state =
    ((MOJO_RESULT_OK, Some 10), <[10 := 7]> (delete 5 toy_state)) ∧
  let k' := <[10 := 7]> (delete 5 toy_state) in
  (∀ x, x ∈ live toy_state → x ∈ live k' → rights_of k' x = rights_of toy_state x) ∧
  MOJO_RESULT_OK = MOJO_RESULT_OK ∧ 5 ∈ live toy_state ∧ (10 ∉ live toy_state) ∧
  live k' = {[10]} ∪ (live toy_state ∖ {[5]}) ∧
  rights_of k' 10 = Z.land (rights_of toy_state 5) (u32 (Z.lnot 8)).
Proof.
  split; [by vm_compute|].
  apply (MojoReplaceHandle_accounts 5 8 toy_state MOJO_RESULT_OK (Some 10)
    (<[10 := 7]> (delete 5 toy_state))); [lia|by vm_compute].
Defined.

Lemma bad_handle_unknown_witness :
  let k := toy_state in
  let bad (f : SM toy Z) := fst (f k) = ERR_BAD_HANDLE in
  (bad (mx_handle_close (s32 77)) → fst (MojoClose 77 k) = MOJO_RESULT_UNKNOWN) ∧
  (bad (mx_handle_wait_one (s32 77) 1 (MojoDeadlineToTime 0) 0) →
     fst (MojoWait 77 1 0 0 k) = MOJO_RESULT_UNKNOWN) ∧
  (bad (mx_message_write (s32 77) 1 0 0 0 0) →
     fst (MojoWriteMessage 77 1 0 0 0 0 k) = MOJO_RESULT_UNKNOWN) ∧
  (bad (mx_message_read (s32 77) 1 0 0 0 0) →
     fst (MojoReadMessage 77 1 0 0 0 0 k) = MOJO_RESULT_UNKNOWN) ∧
  (bad (mx_process_vm_map 0 (s32 77) 1 0 0
          (Z.lor MX_VM_FLAG_PERM_READ MX_VM_FLAG_PERM_WRITE)) →
     fst (MojoMapBuffer 77 1 0 0 0 k) = MOJO_RESULT_UNKNOWN) ∧
  (bad (mx_handle_duplicate (s32 77) MX_RIGHT_SAME_RIGHTS) →
     fst (MojoDuplicateHandle 77 k) = (MOJO_RESULT_INVALID_ARGUMENT, None)).
Proof.
  apply (bad_handle_unknown 77 1 0 0 0 0 toy_state).
  - done.
  - done.
  - by apply (bool_decide_unpack _); vm_compute.
Defined.

Lemma unsupported_refused_witness :
  refuses (MojoWriteData (K := toy) 5 1 0 2) (MOJO_RESULT_UNIMPLEMENTED, None) ∧
  refuses (MojoBeginWriteData (K := toy) 5 1 2) (MOJO_RESULT_UNIMPLEMENTED, None) ∧
  refuses (MojoReadData (K := toy) 5 1 0 2) (MOJO_RESULT_UNIMPLEMENTED, None) ∧
  refuses (MojoBeginReadData (K := toy) 5 1 2) (MOJO_RESULT_UNIMPLEMENTED, None) ∧
  refuses (MojoCreateDataPipe (K := toy) (Some (Build_MojoCreateDataPipeOptions 1 0 0)))
    (MOJO_RESULT_UNIMPLEMENTED, None) ∧
  refuses (MojoCreateSharedBuffer (K := toy) (Some (Build_MojoCreateSharedBufferOptions 1)) 1)
    (MOJO_RESULT_UNIMPLEMENTED, None) ∧
  refuses (MojoDuplicateBufferHandle (K := toy) 5
    (Some (Build_MojoDuplicateBufferHandleOptions 1))) (MOJO_RESULT_UNIMPLEMENTED, None) ∧
  refuses (MojoCreateWaitSet (K := toy) (Some (Build_MojoCreateWaitSetOptions 8 1)))
    (MOJO_RESULT_UNIMPLEMENTED, None) ∧
  refuses (MojoWaitSetAdd (K := toy) 5 1 0 0 (Some (Build_MojoWaitSetAddOptions 8 1)))
    MOJO_RESULT_UNIMPLEMENTED ∧
  refuses (MojoMapBuffer (K := toy) 5 1 0 0 2) MOJO_RESULT_INVALID_ARGUMENT ∧
  refuses (MojoGetBufferInformation (K := toy) 5 1 15) (MOJO_RESULT_INVALID_ARGUMENT, None).
Proof. apply (unsupported_refused 5 1 0 0 2); done. Defined.

(** ** Deadlines *)

(** microseconds become nanoseconds without loss up to about 292 years: for
    a deadline whose thousandfold is below [2^63] the conversion is exact and
    [TimeToMojoTicks] undoes it, and INDEFINITE becomes the kernel's infinite
    time.  Beyond [2^64] nanoseconds the product wraps around, so that a
    deadline of 18446744073709552 microseconds (about 584 years) becomes 384
    nanoseconds. *)
Theorem MojoDeadlineToTime_exact {K} `{!MxSyscalls K} d :
  0 <= d → d * 1000 < 2 ^ 63 →
  MojoDeadlineToTime d = d * 1000 ∧
  TimeToMojoTicks (MojoDeadlineToTime d) = d ∧
  MojoDeadlineToTime MOJO_DEADLINE_INDEFINITE = MX_TIME_INFINITE ∧
  MojoDeadlineToTime 18446744073709552 = 384.
Proof.
  intros Hd Hlt. unfold MojoDeadlineToTime.
  assert (MOJO_DEADLINE_INDEFINITE = 18446744073709551615) as Hinf by done. rewrite Hinf.
  assert ((d =? 18446744073709551615) = false) as -> by lia.
  rewrite u64_small by lia. split_and!; [done| |done|done].
  unfold TimeToMojoTicks, s64. rewrite Z.mod_small by lia.
  replace (d * 1000 + 2 ^ 63 - 2 ^ 63) with (d * 1000) by lia. apply Z.quot_mul. lia.
Qed.

Lemma MojoDeadlineToTime_exact_witness :
  MojoDeadlineToTime (K := toy) 1500 = 1500 * 1000 ∧
  TimeToMojoTicks (MojoDeadlineToTime (K := toy) 1500) = 1500 ∧
  MojoDeadlineToTime (K := toy) MOJO_DEADLINE_INDEFINITE = MX_TIME_INFINITE ∧
  MojoDeadlineToTime (K := toy) 18446744073709552 = 384.
Proof. apply (MojoDeadlineToTime_exact 1500); lia. Defined.
