(* ===== verification/Contract.v ===== *)
(** * The documented results of the system API

    The headers of the system API list, for every function, the results it may
    return.  The lists, as the headers have them, and what src/system/mojo.c
    returns beyond them or never returns of them. *)
From stdpp Require Import base list numbers option.
From S2P Require Import Prelude MojoResult System.

(** ** handle.h *)

Definition MojoClose_results : list Z := [MOJO_RESULT_OK; MOJO_RESULT_INVALID_ARGUMENT;
  MOJO_RESULT_BUSY].
Definition MojoGetRights_results : list Z := [MOJO_RESULT_OK; MOJO_RESULT_INVALID_ARGUMENT;
  MOJO_RESULT_BUSY].
Definition MojoReplaceHandleWithReducedRights_results : list Z := [MOJO_RESULT_OK;
  MOJO_RESULT_INVALID_ARGUMENT; MOJO_RESULT_RESOURCE_EXHAUSTED; MOJO_RESULT_BUSY].
Definition MojoDuplicateHandleWithReducedRights_results : list Z := [MOJO_RESULT_OK;
  MOJO_RESULT_INVALID_ARGUMENT; MOJO_RESULT_PERMISSION_DENIED; MOJO_RESULT_RESOURCE_EXHAUSTED;
  MOJO_RESULT_BUSY].
Definition MojoDuplicateHandle_results : list Z := [MOJO_RESULT_OK;
  MOJO_RESULT_INVALID_ARGUMENT; MOJO_RESULT_PERMISSION_DENIED; MOJO_RESULT_RESOURCE_EXHAUSTED;
  MOJO_RESULT_BUSY].

(** ** wait.h *)

Definition MojoWait_results : list Z := [MOJO_RESULT_OK; MOJO_RESULT_CANCELLED;
  MOJO_RESULT_INVALID_ARGUMENT; MOJO_RESULT_DEADLINE_EXCEEDED; MOJO_RESULT_FAILED_PRECONDITION;
  MOJO_RESULT_BUSY].
(** Success is that of [MojoWait]: it 'behaves as if MojoWait() were called'. *)
Definition MojoWaitMany_results : list Z := [MOJO_RESULT_OK; MOJO_RESULT_CANCELLED;
  MOJO_RESULT_RESOURCE_EXHAUSTED; MOJO_RESULT_INVALID_ARGUMENT; MOJO_RESULT_DEADLINE_EXCEEDED;
  MOJO_RESULT_FAILED_PRECONDITION; MOJO_RESULT_BUSY].

(** ** wait_set.h *)

Definition MojoCreateWaitSet_results : list Z := [MOJO_RESULT_OK; MOJO_RESULT_INVALID_ARGUMENT;
  MOJO_RESULT_RESOURCE_EXHAUSTED; MOJO_RESULT_UNIMPLEMENTED].
Definition MojoWaitSetAdd_results : list Z := [MOJO_RESULT_OK; MOJO_RESULT_INVALID_ARGUMENT;
  MOJO_RESULT_ALREADY_EXISTS; MOJO_RESULT_BUSY; MOJO_RESULT_RESOURCE_EXHAUSTED;
  MOJO_RESULT_UNIMPLEMENTED].
Definition MojoWaitSetRemove_results : list Z := [MOJO_RESULT_OK; MOJO_RESULT_INVALID_ARGUMENT;
  MOJO_RESULT_NOT_FOUND].
Definition MojoWaitSetWait_results : list Z := [MOJO_RESULT_OK; MOJO_RESULT_INVALID_ARGUMENT;
  MOJO_RESULT_CANCELLED; MOJO_RESULT_RESOURCE_EXHAUSTED; MOJO_RESULT_BUSY;
  MOJO_RESULT_DEADLINE_EXCEEDED].

(** ** message_pipe.h *)

Definition MojoCreateMessagePipe_results : list Z := [MOJO_RESULT_OK;
  MOJO_RESULT_INVALID_ARGUMENT; MOJO_RESULT_RESOURCE_EXHAUSTED; MOJO_RESULT_UNIMPLEMENTED].
Definition MojoWriteMessage_results : list Z := [MOJO_RESULT_OK; MOJO_RESULT_INVALID_ARGUMENT;
  MOJO_RESULT_PERMISSION_DENIED; MOJO_RESULT_RESOURCE_EXHAUSTED;
  MOJO_RESULT_FAILED_PRECONDITION; MOJO_RESULT_UNIMPLEMENTED; MOJO_RESULT_BUSY].
Definition MojoReadMessage_results : list Z := [MOJO_RESULT_OK; MOJO_RESULT_INVALID_ARGUMENT;
  MOJO_RESULT_FAILED_PRECONDITION; MOJO_RESULT_PERMISSION_DENIED;
  MOJO_RESULT_RESOURCE_EXHAUSTED; MOJO_RESULT_SHOULD_WAIT; MOJO_RESULT_BUSY].

(** ** data_pipe.h *)

Definition MojoCreateDataPipe_results : list Z := [MOJO_RESULT_OK; MOJO_RESULT_INVALID_ARGUMENT;
  MOJO_RESULT_RESOURCE_EXHAUSTED; MOJO_RESULT_UNIMPLEMENTED].
Definition MojoSetDataPipeProducerOptions_results : list Z := [MOJO_RESULT_OK;
  MOJO_RESULT_INVALID_ARGUMENT; MOJO_RESULT_PERMISSION_DENIED; MOJO_RESULT_BUSY].
Definition MojoGetDataPipeProducerOptions_results : list Z := [MOJO_RESULT_OK;
  MOJO_RESULT_INVALID_ARGUMENT; MOJO_RESULT_PERMISSION_DENIED; MOJO_RESULT_BUSY].
Definition MojoWriteData_results : list Z := [MOJO_RESULT_OK; MOJO_RESULT_INVALID_ARGUMENT;
  MOJO_RESULT_PERMISSION_DENIED; MOJO_RESULT_FAILED_PRECONDITION; MOJO_RESULT_OUT_OF_RANGE;
  MOJO_RESULT_BUSY; MOJO_RESULT_SHOULD_WAIT].
Definition MojoBeginWriteData_results : list Z := [MOJO_RESULT_OK; MOJO_RESULT_INVALID_ARGUMENT;
  MOJO_RESULT_PERMISSION_DENIED; MOJO_RESULT_FAILED_PRECONDITION; MOJO_RESULT_BUSY;
  MOJO_RESULT_SHOULD_WAIT].
Definition MojoEndWriteData_results : list Z := [MOJO_RESULT_OK; MOJO_RESULT_INVALID_ARGUMENT;
  MOJO_RESULT_PERMISSION_DENIED; MOJO_RESULT_FAILED_PRECONDITION; MOJO_RESULT_BUSY].
Definition MojoSetDataPipeConsumerOptions_results : list Z := [MOJO_RESULT_OK;
  MOJO_RESULT_INVALID_ARGUMENT; MOJO_RESULT_PERMISSION_DENIED; MOJO_RESULT_BUSY].
Definition MojoGetDataPipeConsumerOptions_results : list Z := [MOJO_RESULT_OK;
  MOJO_RESULT_INVALID_ARGUMENT; MOJO_RESULT_PERMISSION_DENIED; MOJO_RESULT_BUSY].
Definition MojoReadData_results : list Z := [MOJO_RESULT_OK; MOJO_RESULT_INVALID_ARGUMENT;
  MOJO_RESULT_PERMISSION_DENIED; MOJO_RESULT_FAILED_PRECONDITION; MOJO_RESULT_OUT_OF_RANGE;
  MOJO_RESULT_BUSY; MOJO_RESULT_SHOULD_WAIT].
Definition MojoBeginReadData_results : list Z := [MOJO_RESULT_OK; MOJO_RESULT_INVALID_ARGUMENT;
  MOJO_RESULT_PERMISSION_DENIED; MOJO_RESULT_FAILED_PRECONDITION; MOJO_RESULT_BUSY;
  MOJO_RESULT_SHOULD_WAIT].
Definition MojoEndReadData_results : list Z := [MOJO_RESULT_OK; MOJO_RESULT_INVALID_ARGUMENT;
  MOJO_RESULT_PERMISSION_DENIED; MOJO_RESULT_FAILED_PRECONDITION; MOJO_RESULT_BUSY].

(** ** buffer.h *)

Definition MojoCreateSharedBuffer_results : list Z := [MOJO_RESULT_OK;
  MOJO_RESULT_INVALID_ARGUMENT; MOJO_RESULT_RESOURCE_EXHAUSTED; MOJO_RESULT_UNIMPLEMENTED].
Definition MojoDuplicateBufferHandle_results : list Z := [MOJO_RESULT_OK;
  MOJO_RESULT_INVALID_ARGUMENT; MOJO_RESULT_PERMISSION_DENIED; MOJO_RESULT_UNIMPLEMENTED;
  MOJO_RESULT_BUSY].
Definition MojoGetBufferInformation_results : list Z := [MOJO_RESULT_OK;
  MOJO_RESULT_INVALID_ARGUMENT; MOJO_RESULT_PERMISSION_DENIED; MOJO_RESULT_BUSY].
Definition MojoMapBuffer_results : list Z := [MOJO_RESULT_OK; MOJO_RESULT_INVALID_ARGUMENT;
  MOJO_RESULT_PERMISSION_DENIED; MOJO_RESULT_RESOURCE_EXHAUSTED; MOJO_RESULT_BUSY].
Definition MojoUnmapBuffer_results : list Z := [MOJO_RESULT_OK; MOJO_RESULT_INVALID_ARGUMENT].

(** ** Keeping to a contract

    [keeps_to code f documented undocumented never]: whatever the kernel does,
    the result of [f] is a documented one, but none of [never], or one of
    [undocumented]. *)

Definition listed (l : list Z) (r : Z) : bool := existsb (Z.eqb r) l.

Definition allowed (documented undocumented never : list Z) (r : Z) : bool :=
  (listed documented r && negb (listed never r)) || listed undocumented r.

#[local] Arguments allowed : simpl never.
#[local] Arguments switch : simpl never.

Section contracts.
Context {K : Type} `{!MxSyscalls K}.

Definition keeps_to {A} (code : A → Z) (f : SM K A) (documented undocumented never : list Z)
    : Prop :=
  ∀ k, allowed documented undocumented never (code (f k).1) = true.

Lemma switch_allowed documented undocumented never status cases d :
  forallb (λ c, allowed documented undocumented never c.2) cases &&
    allowed documented undocumented never d = true →
  allowed documented undocumented never (switch status cases d) = true.
Proof.
  rewrite andb_true_iff, forallb_forall. intros [Hc Hd].
  destruct (switch_cases status cases d) as [->|(c & Hin & ->)]; [done|].
  by apply Hc, list_elem_of_In.
Qed.

Lemma check_options_results {A} (o : option A) (size flags : A → Z) r :
  o ≫= (λ o, check_options (size o) (flags o)) = Some r →
  r = MOJO_RESULT_INVALID_ARGUMENT ∨ r = MOJO_RESULT_UNIMPLEMENTED.
Proof. destruct o as [o|]; [|done]. cbn. unfold check_options. intros Hc. repeat case_match; naive_solver. Qed.

(** Unfolds the functions of mojo.c. *)
Ltac unfold_calls :=
  try unfold MojoDuplicateBufferHandle; unfold MojoReplaceHandleWithReducedRights, MojoDuplicateHandleWithReducedRights,
    MojoClose, MojoGetRights, MojoReplaceHandleWithReducedRights,
    MojoDuplicateHandle, MojoWait, MojoWaitMany,
    MojoCreateWaitSet, MojoWaitSetAdd, MojoWaitSetRemove, MojoWaitSetWait,
    MojoCreateMessagePipe, MojoWriteMessage, MojoReadMessage, MojoCreateDataPipe,
    MojoSetDataPipeProducerOptions, MojoGetDataPipeProducerOptions, MojoWriteData,
    MojoBeginWriteData, MojoEndWriteData, MojoSetDataPipeConsumerOptions,
    MojoGetDataPipeConsumerOptions, MojoReadData, MojoBeginReadData, MojoEndReadData,
    MojoCreateSharedBuffer, MojoGetBufferInformation, MojoMapBuffer, MojoUnmapBuffer,
    wait_result, id.

(** The results of a function, down to its tables. *)
Ltac results :=
  intros k; unfold_calls; run_branches;
  first [ by vm_compute | apply switch_allowed; by vm_compute
        | match goal with
          | H : option_bind _ _ _ _ = Some _ |- _ => apply check_options_results in H as [->| ->]; by vm_compute
          end ].

(** ** The properties *)

(** C36: what the handle, wait and wait set functions return, against handle.h,
    wait.h and wait_set.h: for any kernel the result is one of those the header
    lists for the function, with the exceptions spelled out here, the results
    returned beyond the list (UNKNOWN for every function) and those listed but
    never returned (BUSY for many). *)
Theorem handle_results_documented h (a b c d e f : Z) cws wsa :
  keeps_to id (MojoClose h) MojoClose_results
    [MOJO_RESULT_UNKNOWN]
    [MOJO_RESULT_BUSY] ∧
  keeps_to fst (MojoGetRights h) MojoGetRights_results
    [MOJO_RESULT_PERMISSION_DENIED; MOJO_RESULT_RESOURCE_EXHAUSTED; MOJO_RESULT_UNKNOWN]
    [] ∧
  keeps_to fst (MojoReplaceHandleWithReducedRights h a)
     MojoReplaceHandleWithReducedRights_results
    [MOJO_RESULT_PERMISSION_DENIED; MOJO_RESULT_UNKNOWN]
    [] ∧
  keeps_to fst (MojoDuplicateHandleWithReducedRights h a)
     MojoDuplicateHandleWithReducedRights_results
    [MOJO_RESULT_UNKNOWN]
    [] ∧
  keeps_to fst (MojoDuplicateHandle h) MojoDuplicateHandle_results
    [MOJO_RESULT_UNKNOWN]
    [MOJO_RESULT_BUSY] ∧
  keeps_to id (MojoWait h a b c) MojoWait_results
    [MOJO_RESULT_RESOURCE_EXHAUSTED; MOJO_RESULT_PERMISSION_DENIED; MOJO_RESULT_UNKNOWN]
    [] ∧
  keeps_to id (MojoWaitMany a b c d e f) MojoWaitMany_results
    [MOJO_RESULT_PERMISSION_DENIED; MOJO_RESULT_UNKNOWN]
    [] ∧
  keeps_to fst (MojoCreateWaitSet cws) MojoCreateWaitSet_results
    [MOJO_RESULT_UNKNOWN]
    [] ∧
  keeps_to id (MojoWaitSetAdd h a b c wsa) MojoWaitSetAdd_results
    [MOJO_RESULT_PERMISSION_DENIED; MOJO_RESULT_UNKNOWN]
    [MOJO_RESULT_BUSY] ∧
  keeps_to id (MojoWaitSetRemove h a) MojoWaitSetRemove_results
    [MOJO_RESULT_PERMISSION_DENIED; MOJO_RESULT_UNKNOWN]
    [] ∧
  keeps_to id (MojoWaitSetWait h a b c d) MojoWaitSetWait_results
    [MOJO_RESULT_PERMISSION_DENIED; MOJO_RESULT_UNKNOWN]
    [MOJO_RESULT_CANCELLED; MOJO_RESULT_BUSY].
Proof. split_and!; results. Qed.

(** C37: the same for the functions of message_pipe.h and data_pipe.h.  The
    options of data pipes are not implemented at all, the ALL_OR_NONE modes are
    refused, and reading data reports INTERNAL where writing reports UNKNOWN. *)
Theorem pipe_results_documented h (a b c d e : Z) cmp cdp :
  keeps_to fst (MojoCreateMessagePipe cmp) MojoCreateMessagePipe_results
    [MOJO_RESULT_UNKNOWN]
    [MOJO_RESULT_UNIMPLEMENTED] ∧
  keeps_to id (MojoWriteMessage h a b c d e) MojoWriteMessage_results
    [MOJO_RESULT_UNKNOWN]
    [MOJO_RESULT_UNIMPLEMENTED; MOJO_RESULT_BUSY] ∧
  keeps_to id (MojoReadMessage h a b c d e) MojoReadMessage_results
    [MOJO_RESULT_UNKNOWN]
    [MOJO_RESULT_BUSY] ∧
  keeps_to fst (MojoCreateDataPipe cdp) MojoCreateDataPipe_results
    [MOJO_RESULT_UNKNOWN]
    [] ∧
  keeps_to id (MojoSetDataPipeProducerOptions h a) MojoSetDataPipeProducerOptions_results
    [MOJO_RESULT_UNIMPLEMENTED]
    [MOJO_RESULT_OK; MOJO_RESULT_INVALID_ARGUMENT; MOJO_RESULT_PERMISSION_DENIED;
     MOJO_RESULT_BUSY] ∧
  keeps_to id (MojoGetDataPipeProducerOptions h a b) MojoGetDataPipeProducerOptions_results
    [MOJO_RESULT_UNIMPLEMENTED]
    [MOJO_RESULT_OK; MOJO_RESULT_INVALID_ARGUMENT; MOJO_RESULT_PERMISSION_DENIED;
     MOJO_RESULT_BUSY] ∧
  keeps_to fst (MojoWriteData h a b c) MojoWriteData_results
    [MOJO_RESULT_UNIMPLEMENTED; MOJO_RESULT_UNKNOWN]
    [MOJO_RESULT_OUT_OF_RANGE; MOJO_RESULT_BUSY] ∧
  keeps_to fst (MojoBeginWriteData h a b) MojoBeginWriteData_results
    [MOJO_RESULT_UNIMPLEMENTED; MOJO_RESULT_UNKNOWN]
    [MOJO_RESULT_BUSY] ∧
  keeps_to id (MojoEndWriteData h a) MojoEndWriteData_results
    [MOJO_RESULT_SHOULD_WAIT; MOJO_RESULT_INTERNAL]
    [MOJO_RESULT_BUSY] ∧
  keeps_to id (MojoSetDataPipeConsumerOptions h a) MojoSetDataPipeConsumerOptions_results
    [MOJO_RESULT_UNIMPLEMENTED]
    [MOJO_RESULT_OK; MOJO_RESULT_INVALID_ARGUMENT; MOJO_RESULT_PERMISSION_DENIED;
     MOJO_RESULT_BUSY] ∧
  keeps_to id (MojoGetDataPipeConsumerOptions h a b) MojoGetDataPipeConsumerOptions_results
    [MOJO_RESULT_UNIMPLEMENTED]
    [MOJO_RESULT_OK; MOJO_RESULT_INVALID_ARGUMENT; MOJO_RESULT_PERMISSION_DENIED;
     MOJO_RESULT_BUSY] ∧
  keeps_to fst (MojoReadData h a b c) MojoReadData_results
    [MOJO_RESULT_UNIMPLEMENTED; MOJO_RESULT_INTERNAL]
    [MOJO_RESULT_OUT_OF_RANGE; MOJO_RESULT_BUSY] ∧
  keeps_to fst (MojoBeginReadData h a b) MojoBeginReadData_results
    [MOJO_RESULT_UNIMPLEMENTED; MOJO_RESULT_INTERNAL]
    [MOJO_RESULT_BUSY] ∧
  keeps_to id (MojoEndReadData h a) MojoEndReadData_results
    [MOJO_RESULT_INTERNAL]
    [MOJO_RESULT_BUSY].
Proof. split_and!; results. Qed.

(** The same for the functions of buffer.h. *)
Theorem buffer_results_documented h (a b c d : Z) csb dbh :
  keeps_to fst (MojoCreateSharedBuffer csb a) MojoCreateSharedBuffer_results
    [MOJO_RESULT_UNKNOWN]
    [] ∧
  keeps_to fst (MojoDuplicateBufferHandle h dbh) MojoDuplicateBufferHandle_results
    [MOJO_RESULT_RESOURCE_EXHAUSTED; MOJO_RESULT_UNKNOWN]
    [MOJO_RESULT_BUSY] ∧
  keeps_to fst (MojoGetBufferInformation h a b) MojoGetBufferInformation_results
    [MOJO_RESULT_UNKNOWN]
    [MOJO_RESULT_BUSY] ∧
  keeps_to id (MojoMapBuffer h a b c d) MojoMapBuffer_results
    [MOJO_RESULT_UNKNOWN]
    [MOJO_RESULT_BUSY] ∧
  keeps_to id (MojoUnmapBuffer a) MojoUnmapBuffer_results
    [MOJO_RESULT_UNKNOWN]
    [].
Proof. split_and!; results. Qed.
End contracts.
