(* ===== verification/Thunks.v ===== *)
(** * The system thunks of a dynamically loaded application

    [public/platform/native/system_thunks.c] and [system_thunks.h].  A DSO
    links against functions that forward to a table of function pointers,
    [g_thunks]; the embedder fills the table once, through
    [MojoSetSystemThunks], from its own implementation of the system API.

    [MojoSystem] is the interface between the two: what an embedder provides
    and an application may call.  src/system/mojo.c is one instance. *)
From stdpp Require Import base list numbers option.
From S2P Require Import Prelude MojoResult System.

(** ** The system API as an interface *)
Class MojoSystem (K : Type) := {
  sys_GetTimeTicksNow : SM K Z;
  sys_Close : Z → SM K Z;
  sys_Wait : Z → Z → Z → Z → SM K Z;
  sys_WaitMany : Z → Z → Z → Z → Z → Z → SM K Z;
  sys_CreateMessagePipe : option MojoCreateMessagePipeOptions → SM K (Z * option (Z * Z));
  sys_WriteMessage : Z → Z → Z → Z → Z → Z → SM K Z;
  sys_ReadMessage : Z → Z → Z → Z → Z → Z → SM K Z;
  sys_CreateDataPipe : option MojoCreateDataPipeOptions → SM K (Z * option (Z * Z));
  sys_WriteData : Z → Z → Z → Z → SM K (Z * option Z);
  sys_BeginWriteData : Z → Z → Z → SM K (Z * option Z);
  sys_EndWriteData : Z → Z → SM K Z;
  sys_ReadData : Z → Z → Z → Z → SM K (Z * option Z);
  sys_BeginReadData : Z → Z → Z → SM K (Z * option Z);
  sys_EndReadData : Z → Z → SM K Z;
  sys_CreateSharedBuffer : option MojoCreateSharedBufferOptions → Z → SM K (Z * option Z);
  sys_DuplicateBufferHandle : Z → option MojoDuplicateBufferHandleOptions → SM K (Z * option Z);
  sys_MapBuffer : Z → Z → Z → Z → Z → SM K Z;
  sys_UnmapBuffer : Z → SM K Z;
  sys_GetBufferInformation : Z → Z → Z → SM K (Z * option MojoBufferInformation);
  sys_SetDataPipeConsumerOptions : Z → Z → SM K Z;
  sys_GetDataPipeConsumerOptions : Z → Z → Z → SM K Z;
  sys_SetDataPipeProducerOptions : Z → Z → SM K Z;
  sys_GetDataPipeProducerOptions : Z → Z → Z → SM K Z;
  sys_GetRights : Z → SM K (Z * option Z);
  sys_DuplicateHandleWithReducedRights : Z → Z → SM K (Z * option Z);
  sys_DuplicateHandle : Z → SM K (Z * option Z);
  sys_ReplaceHandleWithReducedRights : Z → Z → SM K (Z * option Z);
  sys_CreateWaitSet : option MojoCreateWaitSetOptions → SM K (Z * option Z);
  sys_WaitSetAdd : Z → Z → Z → Z → option MojoWaitSetAddOptions → SM K Z;
  sys_WaitSetRemove : Z → Z → SM K Z;
  sys_WaitSetWait : Z → Z → Z → Z → Z → SM K Z;
}.

(** src/system/mojo.c implements the interface on any kernel. *)
#[export] Instance mojo_system {K} `{!MxSyscalls K} : MojoSystem K := {|
  sys_GetTimeTicksNow := System.MojoGetTimeTicksNow;
  sys_Close := System.MojoClose;
  sys_Wait := System.MojoWait;
  sys_WaitMany := System.MojoWaitMany;
  sys_CreateMessagePipe := System.MojoCreateMessagePipe;
  sys_WriteMessage := System.MojoWriteMessage;
  sys_ReadMessage := System.MojoReadMessage;
  sys_CreateDataPipe := System.MojoCreateDataPipe;
  sys_WriteData := System.MojoWriteData;
  sys_BeginWriteData := System.MojoBeginWriteData;
  sys_EndWriteData := System.MojoEndWriteData;
  sys_ReadData := System.MojoReadData;
  sys_BeginReadData := System.MojoBeginReadData;
  sys_EndReadData := System.MojoEndReadData;
  sys_CreateSharedBuffer := System.MojoCreateSharedBuffer;
  sys_DuplicateBufferHandle := System.MojoDuplicateBufferHandle;
  sys_MapBuffer := System.MojoMapBuffer;
  sys_UnmapBuffer := System.MojoUnmapBuffer;
  sys_GetBufferInformation := System.MojoGetBufferInformation;
  sys_SetDataPipeConsumerOptions := System.MojoSetDataPipeConsumerOptions;
  sys_GetDataPipeConsumerOptions := System.MojoGetDataPipeConsumerOptions;
  sys_SetDataPipeProducerOptions := System.MojoSetDataPipeProducerOptions;
  sys_GetDataPipeProducerOptions := System.MojoGetDataPipeProducerOptions;
  sys_GetRights := System.MojoGetRights;
  sys_DuplicateHandleWithReducedRights := System.MojoDuplicateHandleWithReducedRights;
  sys_DuplicateHandle := System.MojoDuplicateHandle;
  sys_ReplaceHandleWithReducedRights := System.MojoReplaceHandleWithReducedRights;
  sys_CreateWaitSet := System.MojoCreateWaitSet;
  sys_WaitSetAdd := System.MojoWaitSetAdd;
  sys_WaitSetRemove := System.MojoWaitSetRemove;
  sys_WaitSetWait := System.MojoWaitSetWait;
|}.

(** ** The table

    [struct MojoSystemThunks]; [None] is a null function pointer. *)
Record MojoSystemThunks (K : Type) := mkThunks {
  thunks_size : Z;
  GetTimeTicksNow : option (SM K Z);
  Close : option (Z → SM K Z);
  Wait : option (Z → Z → Z → Z → SM K Z);
  WaitMany : option (Z → Z → Z → Z → Z → Z → SM K Z);
  CreateMessagePipe : option (option MojoCreateMessagePipeOptions → SM K (Z * option (Z * Z)));
  WriteMessage : option (Z → Z → Z → Z → Z → Z → SM K Z);
  ReadMessage : option (Z → Z → Z → Z → Z → Z → SM K Z);
  CreateDataPipe : option (option MojoCreateDataPipeOptions → SM K (Z * option (Z * Z)));
  WriteData : option (Z → Z → Z → Z → SM K (Z * option Z));
  BeginWriteData : option (Z → Z → Z → SM K (Z * option Z));
  EndWriteData : option (Z → Z → SM K Z);
  ReadData : option (Z → Z → Z → Z → SM K (Z * option Z));
  BeginReadData : option (Z → Z → Z → SM K (Z * option Z));
  EndReadData : option (Z → Z → SM K Z);
  CreateSharedBuffer : option (option MojoCreateSharedBufferOptions → Z → SM K (Z * option Z));
  DuplicateBufferHandle : option (Z → option MojoDuplicateBufferHandleOptions → SM K (Z * option Z));
  MapBuffer : option (Z → Z → Z → Z → Z → SM K Z);
  UnmapBuffer : option (Z → SM K Z);
  GetBufferInformation : option (Z → Z → Z → SM K (Z * option MojoBufferInformation));
  SetDataPipeConsumerOptions : option (Z → Z → SM K Z);
  GetDataPipeConsumerOptions : option (Z → Z → Z → SM K Z);
  SetDataPipeProducerOptions : option (Z → Z → SM K Z);
  GetDataPipeProducerOptions : option (Z → Z → Z → SM K Z);
  GetRights : option (Z → SM K (Z * option Z));
  DuplicateHandleWithReducedRights : option (Z → Z → SM K (Z * option Z));
  DuplicateHandle : option (Z → SM K (Z * option Z));
  ReplaceHandleWithReducedRights : option (Z → Z → SM K (Z * option Z));
  CreateWaitSet : option (option MojoCreateWaitSetOptions → SM K (Z * option Z));
  WaitSetAdd : option (Z → Z → Z → Z → option MojoWaitSetAddOptions → SM K Z);
  WaitSetRemove : option (Z → Z → SM K Z);
  WaitSetWait : option (Z → Z → Z → Z → Z → SM K Z);
}.
Arguments thunks_size {_}.
Arguments GetTimeTicksNow {_}.
Arguments Close {_}.
Arguments Wait {_}.
Arguments WaitMany {_}.
Arguments CreateMessagePipe {_}.
Arguments WriteMessage {_}.
Arguments ReadMessage {_}.
Arguments CreateDataPipe {_}.
Arguments WriteData {_}.
Arguments BeginWriteData {_}.
Arguments EndWriteData {_}.
Arguments ReadData {_}.
Arguments BeginReadData {_}.
Arguments EndReadData {_}.
Arguments CreateSharedBuffer {_}.
Arguments DuplicateBufferHandle {_}.
Arguments MapBuffer {_}.
Arguments UnmapBuffer {_}.
Arguments GetBufferInformation {_}.
Arguments SetDataPipeConsumerOptions {_}.
Arguments GetDataPipeConsumerOptions {_}.
Arguments SetDataPipeProducerOptions {_}.
Arguments GetDataPipeProducerOptions {_}.
Arguments GetRights {_}.
Arguments DuplicateHandleWithReducedRights {_}.
Arguments DuplicateHandle {_}.
Arguments ReplaceHandleWithReducedRights {_}.
Arguments CreateWaitSet {_}.
Arguments WaitSetAdd {_}.
Arguments WaitSetRemove {_}.
Arguments WaitSetWait {_}.

(** A size and 31 function pointers, 8 bytes each. *)
Definition sizeof_MojoSystemThunks : Z := 32 * 8.

(** [static struct MojoSystemThunks g_thunks = {0};] *)
Definition g_thunks_init (K : Type) : MojoSystemThunks K :=
  mkThunks K 0 None None None None None None None None None None None None None None None None None None None None None None None None None None None None None None None.

(** [MojoMakeSystemThunks]: the embedder's table of its own functions. *)
Definition MojoMakeSystemThunks (K : Type) `{!MojoSystem K} : MojoSystemThunks K := {|
  thunks_size := sizeof_MojoSystemThunks;
  GetTimeTicksNow := Some sys_GetTimeTicksNow;
  Close := Some sys_Close;
  Wait := Some sys_Wait;
  WaitMany := Some sys_WaitMany;
  CreateMessagePipe := Some sys_CreateMessagePipe;
  WriteMessage := Some sys_WriteMessage;
  ReadMessage := Some sys_ReadMessage;
  CreateDataPipe := Some sys_CreateDataPipe;
  WriteData := Some sys_WriteData;
  BeginWriteData := Some sys_BeginWriteData;
  EndWriteData := Some sys_EndWriteData;
  ReadData := Some sys_ReadData;
  BeginReadData := Some sys_BeginReadData;
  EndReadData := Some sys_EndReadData;
  CreateSharedBuffer := Some sys_CreateSharedBuffer;
  DuplicateBufferHandle := Some sys_DuplicateBufferHandle;
  MapBuffer := Some sys_MapBuffer;
  UnmapBuffer := Some sys_UnmapBuffer;
  GetBufferInformation := Some sys_GetBufferInformation;
  SetDataPipeConsumerOptions := Some sys_SetDataPipeConsumerOptions;
  GetDataPipeConsumerOptions := Some sys_GetDataPipeConsumerOptions;
  SetDataPipeProducerOptions := Some sys_SetDataPipeProducerOptions;
  GetDataPipeProducerOptions := Some sys_GetDataPipeProducerOptions;
  GetRights := Some sys_GetRights;
  DuplicateHandleWithReducedRights := Some sys_DuplicateHandleWithReducedRights;
  DuplicateHandle := Some sys_DuplicateHandle;
  ReplaceHandleWithReducedRights := Some sys_ReplaceHandleWithReducedRights;
  CreateWaitSet := Some sys_CreateWaitSet;
  WaitSetAdd := Some sys_WaitSetAdd;
  WaitSetRemove := Some sys_WaitSetRemove;
  WaitSetWait := Some sys_WaitSetWait;
|}.

(** [MojoSetSystemThunks]: the size it returns and the new [g_thunks]. *)
Definition MojoSetSystemThunks {K} (system_thunks g_thunks : MojoSystemThunks K)
    : Z * MojoSystemThunks K :=
  (sizeof_MojoSystemThunks,
   if sizeof_MojoSystemThunks <=? thunks_size system_thunks then system_thunks else g_thunks).

(** [assert(g_thunks.F); return g_thunks.F(...)], on the kernel state. *)
Definition call_thunk {K F A} (thunk : option F) (call : F → SM K A) : stateR K A := λ k,
  match thunk with
  | None => Crash AssertFailed
  | Some f => Ok (call f k)
  end.

(** ** The functions the application calls *)
Section thunks.
Context {K : Type} (g_thunks : MojoSystemThunks K).

Definition MojoGetTimeTicksNow : stateR K Z :=
  call_thunk (GetTimeTicksNow g_thunks) (λ f, f).

Definition MojoClose (handle : Z)
    : stateR K Z :=
  call_thunk (Close g_thunks) (λ f, f handle).

Definition MojoGetRights (handle : Z)
    : stateR K (Z * option Z) :=
  call_thunk (GetRights g_thunks) (λ f, f handle).

Definition MojoReplaceHandleWithReducedRights (handle rights_to_remove : Z)
    : stateR K (Z * option Z) :=
  call_thunk (ReplaceHandleWithReducedRights g_thunks) (λ f, f handle rights_to_remove).

Definition MojoDuplicateHandleWithReducedRights (handle rights_to_remove : Z)
    : stateR K (Z * option Z) :=
  call_thunk (DuplicateHandleWithReducedRights g_thunks) (λ f, f handle rights_to_remove).

Definition MojoDuplicateHandle (handle : Z)
    : stateR K (Z * option Z) :=
  call_thunk (DuplicateHandle g_thunks) (λ f, f handle).

Definition MojoWait (handle signals deadline signals_state : Z)
    : stateR K Z :=
  call_thunk (Wait g_thunks) (λ f, f handle signals deadline signals_state).

Definition MojoWaitMany (handles signals num_handles deadline result_index signals_states : Z)
    : stateR K Z :=
  call_thunk (WaitMany g_thunks) (λ f, f handles signals num_handles deadline result_index signals_states).

Definition MojoCreateMessagePipe (options : option MojoCreateMessagePipeOptions)
    : stateR K (Z * option (Z * Z)) :=
  call_thunk (CreateMessagePipe g_thunks) (λ f, f options).

Definition MojoWriteMessage (message_pipe_handle bytes num_bytes handles num_handles flags : Z)
    : stateR K Z :=
  call_thunk (WriteMessage g_thunks) (λ f, f message_pipe_handle bytes num_bytes handles num_handles flags).

Definition MojoReadMessage (message_pipe_handle bytes num_bytes handles num_handles flags : Z)
    : stateR K Z :=
  call_thunk (ReadMessage g_thunks) (λ f, f message_pipe_handle bytes num_bytes handles num_handles flags).

Definition MojoCreateDataPipe (options : option MojoCreateDataPipeOptions)
    : stateR K (Z * option (Z * Z)) :=
  call_thunk (CreateDataPipe g_thunks) (λ f, f options).

Definition MojoSetDataPipeProducerOptions (handle options : Z)
    : stateR K Z :=
  call_thunk (SetDataPipeProducerOptions g_thunks) (λ f, f handle options).

Definition MojoGetDataPipeProducerOptions (handle options options_num_bytes : Z)
    : stateR K Z :=
  call_thunk (GetDataPipeProducerOptions g_thunks) (λ f, f handle options options_num_bytes).

Definition MojoWriteData (handle elements num_elements flags : Z)
    : stateR K (Z * option Z) :=
  call_thunk (WriteData g_thunks) (λ f, f handle elements num_elements flags).

Definition MojoBeginWriteData (handle buffer flags : Z)
    : stateR K (Z * option Z) :=
  call_thunk (BeginWriteData g_thunks) (λ f, f handle buffer flags).

Definition MojoEndWriteData (handle num_elements_written : Z)
    : stateR K Z :=
  call_thunk (EndWriteData g_thunks) (λ f, f handle num_elements_written).

Definition MojoSetDataPipeConsumerOptions (handle options : Z)
    : stateR K Z :=
  call_thunk (SetDataPipeConsumerOptions g_thunks) (λ f, f handle options).

Definition MojoGetDataPipeConsumerOptions (handle options options_num_bytes : Z)
    : stateR K Z :=
  call_thunk (GetDataPipeConsumerOptions g_thunks) (λ f, f handle options options_num_bytes).

Definition MojoReadData (handle elements num_elements flags : Z)
    : stateR K (Z * option Z) :=
  call_thunk (ReadData g_thunks) (λ f, f handle elements num_elements flags).

Definition MojoBeginReadData (handle buffer flags : Z)
    : stateR K (Z * option Z) :=
  call_thunk (BeginReadData g_thunks) (λ f, f handle buffer flags).

Definition MojoEndReadData (handle num_elements_read : Z)
    : stateR K Z :=
  call_thunk (EndReadData g_thunks) (λ f, f handle num_elements_read).

Definition MojoCreateSharedBuffer (options : option MojoCreateSharedBufferOptions) (num_bytes : Z)
    : stateR K (Z * option Z) :=
  call_thunk (CreateSharedBuffer g_thunks) (λ f, f options num_bytes).

Definition MojoDuplicateBufferHandle (buffer_handle : Z) (options : option MojoDuplicateBufferHandleOptions)
    : stateR K (Z * option Z) :=
  call_thunk (DuplicateBufferHandle g_thunks) (λ f, f buffer_handle options).

Definition MojoGetBufferInformation (buffer_handle info info_num_bytes : Z)
    : stateR K (Z * option MojoBufferInformation) :=
  call_thunk (GetBufferInformation g_thunks) (λ f, f buffer_handle info info_num_bytes).

Definition MojoMapBuffer (buffer_handle offset num_bytes buffer flags : Z)
    : stateR K Z :=
  call_thunk (MapBuffer g_thunks) (λ f, f buffer_handle offset num_bytes buffer flags).

Definition MojoUnmapBuffer (buffer : Z)
    : stateR K Z :=
  call_thunk (UnmapBuffer g_thunks) (λ f, f buffer).

Definition MojoCreateWaitSet (options : option MojoCreateWaitSetOptions)
    : stateR K (Z * option Z) :=
  call_thunk (CreateWaitSet g_thunks) (λ f, f options).

Definition MojoWaitSetAdd (wait_set_handle handle signals cookie : Z) (options : option MojoWaitSetAddOptions)
    : stateR K Z :=
  call_thunk (WaitSetAdd g_thunks) (λ f, f wait_set_handle handle signals cookie options).

Definition MojoWaitSetRemove (wait_set_handle cookie : Z)
    : stateR K Z :=
  call_thunk (WaitSetRemove g_thunks) (λ f, f wait_set_handle cookie).

Definition MojoWaitSetWait (wait_set_handle deadline num_results results max_results : Z)
    : stateR K Z :=
  call_thunk (WaitSetWait g_thunks) (λ f, f wait_set_handle deadline num_results results max_results).

End thunks.

(** ** The properties *)

(** C37: once the embedder's table is installed, every system function of the
    application is the embedder's: each of the 31 thunks calls the function of
    its own name with the arguments in their order and returns its result, and
    no assertion fails, for any implementation of the interface and whatever
    table was there before. *)
Theorem thunks_refine_embedder {K} `{!MojoSystem K} (g0 : MojoSystemThunks K)
    (a b c d e f : Z) cmp cdp csb dbh cws wsa :
  let g := (MojoSetSystemThunks (MojoMakeSystemThunks K) g0).2 in
  (∀ k, MojoGetTimeTicksNow g k = Ok (sys_GetTimeTicksNow k)) ∧
  (∀ k, MojoClose g a k = Ok (sys_Close a k)) ∧
  (∀ k, MojoGetRights g a k = Ok (sys_GetRights a k)) ∧
  (∀ k, MojoReplaceHandleWithReducedRights g a b k = Ok (sys_ReplaceHandleWithReducedRights a b k)) ∧
  (∀ k, MojoDuplicateHandleWithReducedRights g a b k = Ok (sys_DuplicateHandleWithReducedRights a b k)) ∧
  (∀ k, MojoDuplicateHandle g a k = Ok (sys_DuplicateHandle a k)) ∧
  (∀ k, MojoWait g a b c d k = Ok (sys_Wait a b c d k)) ∧
  (∀ k, MojoWaitMany g a b c d e f k = Ok (sys_WaitMany a b c d e f k)) ∧
  (∀ k, MojoCreateMessagePipe g cmp k = Ok (sys_CreateMessagePipe cmp k)) ∧
  (∀ k, MojoWriteMessage g a b c d e f k = Ok (sys_WriteMessage a b c d e f k)) ∧
  (∀ k, MojoReadMessage g a b c d e f k = Ok (sys_ReadMessage a b c d e f k)) ∧
  (∀ k, MojoCreateDataPipe g cdp k = Ok (sys_CreateDataPipe cdp k)) ∧
  (∀ k, MojoSetDataPipeProducerOptions g a b k = Ok (sys_SetDataPipeProducerOptions a b k)) ∧
  (∀ k, MojoGetDataPipeProducerOptions g a b c k = Ok (sys_GetDataPipeProducerOptions a b c k)) ∧
  (∀ k, MojoWriteData g a b c d k = Ok (sys_WriteData a b c d k)) ∧
  (∀ k, MojoBeginWriteData g a b c k = Ok (sys_BeginWriteData a b c k)) ∧
  (∀ k, MojoEndWriteData g a b k = Ok (sys_EndWriteData a b k)) ∧
  (∀ k, MojoSetDataPipeConsumerOptions g a b k = Ok (sys_SetDataPipeConsumerOptions a b k)) ∧
  (∀ k, MojoGetDataPipeConsumerOptions g a b c k = Ok (sys_GetDataPipeConsumerOptions a b c k)) ∧
  (∀ k, MojoReadData g a b c d k = Ok (sys_ReadData a b c d k)) ∧
  (∀ k, MojoBeginReadData g a b c k = Ok (sys_BeginReadData a b c k)) ∧
  (∀ k, MojoEndReadData g a b k = Ok (sys_EndReadData a b k)) ∧
  (∀ k, MojoCreateSharedBuffer g csb a k = Ok (sys_CreateSharedBuffer csb a k)) ∧
  (∀ k, MojoDuplicateBufferHandle g a dbh k = Ok (sys_DuplicateBufferHandle a dbh k)) ∧
  (∀ k, MojoGetBufferInformation g a b c k = Ok (sys_GetBufferInformation a b c k)) ∧
  (∀ k, MojoMapBuffer g a b c d e k = Ok (sys_MapBuffer a b c d e k)) ∧
  (∀ k, MojoUnmapBuffer g a k = Ok (sys_UnmapBuffer a k)) ∧
  (∀ k, MojoCreateWaitSet g cws k = Ok (sys_CreateWaitSet cws k)) ∧
  (∀ k, MojoWaitSetAdd g a b c d wsa k = Ok (sys_WaitSetAdd a b c d wsa k)) ∧
  (∀ k, MojoWaitSetRemove g a b k = Ok (sys_WaitSetRemove a b k)) ∧
  (∀ k, MojoWaitSetWait g a b c d e k = Ok (sys_WaitSetWait a b c d e k)).
Proof. cbn. split_and!; reflexivity. Qed.

(** the size handshake is sound.  [MojoSetSystemThunks] returns the size the
    application expects; the embedder's documented check, that it is no larger
    than the size of the table offered, succeeds exactly when the table was
    installed.  Otherwise the previous table stays in force: in a fresh
    application every call then stops at an assertion instead of jumping
    through a null pointer. *)
Theorem thunks_size_handshake {K} (t g : MojoSystemThunks K) :
  let '(expected, g') := MojoSetSystemThunks t g in
  expected = sizeof_MojoSystemThunks ∧
  (expected <= thunks_size t → g' = t) ∧
  (thunks_size t < expected → g' = g ∧
    (g = g_thunks_init K → ∀ h k,
       MojoClose g' h k = Crash AssertFailed ∧ MojoGetTimeTicksNow g' k = Crash AssertFailed)).
Proof.
  unfold MojoSetSystemThunks. split_and!; [done|intros Hs|intros Hs].
  - by replace (sizeof_MojoSystemThunks <=? thunks_size t) with true by lia.
  - replace (sizeof_MojoSystemThunks <=? thunks_size t) with false by lia.
    split; [done|]. by intros ->.
Qed.
