(* ===== verification/PlatformThunks.v ===== *)
(** * The other thunk tables of a dynamically loaded application

    [public/platform/native/mgl_thunks], [mgl_onscreen_thunks],
    [mgl_echo_thunks], [mgl_signal_sync_point_thunks] and
    [platform_handle_private_thunks] (a [.c] and a [.h] each): the tables
    through which a DSO reaches the embedder's MGL and platform-handle
    functions.  Each table is a global of its own with a setter of its own,
    which the embedder calls when it has the table to offer; an embedder built
    against another version of a header offers a table of another size.

    Pointers, callbacks and contexts are opaque words that the thunks pass on;
    what the embedder's functions write through them is part of its state
    [K]. *)
From stdpp Require Import base list numbers option.
From S2P Require Import Prelude MojoResult System Thunks.

(** ** The embedder's functions as an interface *)
Class MojoPlatform (K : Type) := {
  env_MGLCreateContext : Z → Z → Z → Z → Z → Z → SM K Z;
  env_MGLDestroyContext : Z → SM K unit;
  env_MGLMakeCurrent : Z → SM K unit;
  env_MGLGetCurrentContext : SM K Z;
  env_MGLGetProcAddress : Z → SM K Z;
  env_MGLResizeSurface : Z → Z → SM K unit;
  env_MGLSwapBuffers : SM K unit;
  env_MGLEcho : Z → Z → SM K unit;
  env_MGLSignalSyncPoint : Z → Z → Z → SM K unit;
  env_CreatePlatformHandleWrapper : Z → Z → SM K Z;
  env_ExtractPlatformHandle : Z → Z → SM K Z;
}.

(** ** The tables, with [None] for a null function pointer *)
Record MGLThunks (K : Type) := mkMGLThunks {
  mgl_size : Z;
  p_MGLCreateContext : option (Z → Z → Z → Z → Z → Z → SM K Z);
  p_MGLDestroyContext : option (Z → SM K unit);
  p_MGLMakeCurrent : option (Z → SM K unit);
  p_MGLGetCurrentContext : option (SM K Z);
  p_MGLGetProcAddress : option (Z → SM K Z);
}.
Arguments mgl_size {_}.
Arguments p_MGLCreateContext {_}.
Arguments p_MGLDestroyContext {_}.
Arguments p_MGLMakeCurrent {_}.
Arguments p_MGLGetCurrentContext {_}.
Arguments p_MGLGetProcAddress {_}.

Record MGLOnscreenThunks (K : Type) := mkMGLOnscreenThunks {
  onscreen_size : Z;
  p_MGLResizeSurface : option (Z → Z → SM K unit);
  p_MGLSwapBuffers : option (SM K unit);
}.
Arguments onscreen_size {_}.
Arguments p_MGLResizeSurface {_}.
Arguments p_MGLSwapBuffers {_}.

Record MGLEchoThunks (K : Type) := mkMGLEchoThunks {
  echo_size : Z;
  p_MGLEcho : option (Z → Z → SM K unit);
}.
Arguments echo_size {_}.
Arguments p_MGLEcho {_}.

Record MGLSignalSyncPointThunks (K : Type) := mkMGLSignalSyncPointThunks {
  sync_point_size : Z;
  p_MGLSignalSyncPoint : option (Z → Z → Z → SM K unit);
}.
Arguments sync_point_size {_}.
Arguments p_MGLSignalSyncPoint {_}.

Record MojoPlatformHandlePrivateThunks (K : Type) := mkMojoPlatformHandlePrivateThunks {
  platform_size : Z;
  CreatePlatformHandleWrapper : option (Z → Z → SM K Z);
  ExtractPlatformHandle : option (Z → Z → SM K Z);
}.
Arguments platform_size {_}.
Arguments CreatePlatformHandleWrapper {_}.
Arguments ExtractPlatformHandle {_}.

(** A size and the function pointers, 8 bytes each. *)
Definition sizeof_MGLThunks : Z := 6 * 8.
Definition sizeof_MGLOnscreenThunks : Z := 3 * 8.
Definition sizeof_MGLEchoThunks : Z := 2 * 8.
Definition sizeof_MGLSignalSyncPointThunks : Z := 2 * 8.
Definition sizeof_MojoPlatformHandlePrivateThunks : Z := 3 * 8.

(** ** The embedder's side: the tables of its own functions *)
Section embedder.
Context (K : Type) `{!MojoPlatform K}.

Definition MojoMakeMGLThunks : MGLThunks K := {|
  mgl_size := sizeof_MGLThunks;
  p_MGLCreateContext := Some env_MGLCreateContext;
  p_MGLDestroyContext := Some env_MGLDestroyContext;
  p_MGLMakeCurrent := Some env_MGLMakeCurrent;
  p_MGLGetCurrentContext := Some env_MGLGetCurrentContext;
  p_MGLGetProcAddress := Some env_MGLGetProcAddress;
|}.

Definition MojoMakeMGLOnscreenThunks : MGLOnscreenThunks K := {|
  onscreen_size := sizeof_MGLOnscreenThunks;
  p_MGLResizeSurface := Some env_MGLResizeSurface;
  p_MGLSwapBuffers := Some env_MGLSwapBuffers;
|}.

Definition MojoMakeMGLEchoThunks : MGLEchoThunks K := {|
  echo_size := sizeof_MGLEchoThunks;
  p_MGLEcho := Some env_MGLEcho;
|}.

Definition MojoMakeMGLSignalSyncPointThunks : MGLSignalSyncPointThunks K := {|
  sync_point_size := sizeof_MGLSignalSyncPointThunks;
  p_MGLSignalSyncPoint := Some env_MGLSignalSyncPoint;
|}.

Definition MojoMakePlatformHandlePrivateThunks : MojoPlatformHandlePrivateThunks K := {|
  platform_size := sizeof_MojoPlatformHandlePrivateThunks;
  CreatePlatformHandleWrapper := Some env_CreatePlatformHandleWrapper;
  ExtractPlatformHandle := Some env_ExtractPlatformHandle;
|}.
End embedder.

(** ** The application's side *)
Section application.
Context {K : Type}.

Definition MGLCreateContext (g_thunks : MGLThunks K)
    (version command_buffer_handle share_group lost_callback lost_callback_closure
      async_waiter : Z) : stateR K Z :=
  call_thunk (p_MGLCreateContext g_thunks) (λ f,
    f version command_buffer_handle share_group lost_callback lost_callback_closure
      async_waiter).

Definition MGLDestroyContext (g_thunks : MGLThunks K) (context : Z) : stateR K unit :=
  call_thunk (p_MGLDestroyContext g_thunks) (λ f, f context).

Definition MGLMakeCurrent (g_thunks : MGLThunks K) (context : Z) : stateR K unit :=
  call_thunk (p_MGLMakeCurrent g_thunks) (λ f, f context).

Definition MGLGetCurrentContext (g_thunks : MGLThunks K) : stateR K Z :=
  call_thunk (p_MGLGetCurrentContext g_thunks) (λ f, f).

Definition MGLGetProcAddress (g_thunks : MGLThunks K) (name : Z) : stateR K Z :=
  call_thunk (p_MGLGetProcAddress g_thunks) (λ f, f name).

Definition MGLResizeSurface (g_onscreen_thunks : MGLOnscreenThunks K) (width height : Z)
    : stateR K unit :=
  call_thunk (p_MGLResizeSurface g_onscreen_thunks) (λ f, f width height).

Definition MGLSwapBuffers (g_onscreen_thunks : MGLOnscreenThunks K) : stateR K unit :=
  call_thunk (p_MGLSwapBuffers g_onscreen_thunks) (λ f, f).

Definition MGLEcho (g_echo_thunks : MGLEchoThunks K) (callback closure : Z) : stateR K unit :=
  call_thunk (p_MGLEcho g_echo_thunks) (λ f, f callback closure).

Definition MGLSignalSyncPoint (g_signal_sync_point_thunks : MGLSignalSyncPointThunks K)
    (sync_point callback closure : Z) : stateR K unit :=
  call_thunk (p_MGLSignalSyncPoint g_signal_sync_point_thunks) (λ f,
    f sync_point callback closure).

Definition MojoCreatePlatformHandleWrapper (g_thunks : MojoPlatformHandlePrivateThunks K)
    (platform_handle platform_handle_wrapper_handle : Z) : stateR K Z :=
  call_thunk (CreatePlatformHandleWrapper g_thunks) (λ f,
    f platform_handle platform_handle_wrapper_handle).

Definition MojoExtractPlatformHandle (g_thunks : MojoPlatformHandlePrivateThunks K)
    (platform_handle_wrapper_handle platform_handle : Z) : stateR K Z :=
  call_thunk (ExtractPlatformHandle g_thunks) (λ f,
    f platform_handle_wrapper_handle platform_handle).

(** The setters: the size returned and the new value of the global. *)
Definition MojoSetMGLThunks (mgl_thunks g_thunks : MGLThunks K) : Z * MGLThunks K :=
  (sizeof_MGLThunks,
   if sizeof_MGLThunks <=? mgl_size mgl_thunks then mgl_thunks else g_thunks).

Definition MojoSetMGLOnscreenThunks (mgl_onscreen_thunks g_onscreen_thunks : MGLOnscreenThunks K)
    : Z * MGLOnscreenThunks K :=
  (sizeof_MGLOnscreenThunks,
   if sizeof_MGLOnscreenThunks <=? onscreen_size mgl_onscreen_thunks
   then mgl_onscreen_thunks else g_onscreen_thunks).

Definition MojoSetMGLEchoThunks (mgl_echo_thunks g_echo_thunks : MGLEchoThunks K)
    : Z * MGLEchoThunks K :=
  (sizeof_MGLEchoThunks,
   if sizeof_MGLEchoThunks <=? echo_size mgl_echo_thunks
   then mgl_echo_thunks else g_echo_thunks).

Definition MojoSetMGLSignalSyncPointThunks
    (mgl_signal_sync_point_thunks g_signal_sync_point_thunks : MGLSignalSyncPointThunks K)
    : Z * MGLSignalSyncPointThunks K :=
  (sizeof_MGLSignalSyncPointThunks,
   if sizeof_MGLSignalSyncPointThunks <=? sync_point_size mgl_signal_sync_point_thunks
   then mgl_signal_sync_point_thunks else g_signal_sync_point_thunks).

Definition MojoSetPlatformHandlePrivateThunks
    (thunks g_thunks : MojoPlatformHandlePrivateThunks K)
    : Z * MojoPlatformHandlePrivateThunks K :=
  (sizeof_MojoPlatformHandlePrivateThunks,
   if sizeof_MojoPlatformHandlePrivateThunks <=? platform_size thunks
   then thunks else g_thunks).

(** ** Runs of the setters

    The five globals of a DSO, zero at first, and the offers an embedder makes
    in whatever order. *)
Record dso_thunks := mkDso {
  g_mgl : MGLThunks K;
  g_onscreen : MGLOnscreenThunks K;
  g_echo : MGLEchoThunks K;
  g_sync_point : MGLSignalSyncPointThunks K;
  g_platform : MojoPlatformHandlePrivateThunks K;
}.

Definition dso_init : dso_thunks := {|
  g_mgl := mkMGLThunks K 0 None None None None None;
  g_onscreen := mkMGLOnscreenThunks K 0 None None;
  g_echo := mkMGLEchoThunks K 0 None;
  g_sync_point := mkMGLSignalSyncPointThunks K 0 None;
  g_platform := mkMojoPlatformHandlePrivateThunks K 0 None None;
|}.

Inductive offer :=
| OfferMGL (t : MGLThunks K)
| OfferMGLOnscreen (t : MGLOnscreenThunks K)
| OfferMGLEcho (t : MGLEchoThunks K)
| OfferMGLSignalSyncPoint (t : MGLSignalSyncPointThunks K)
| OfferPlatformHandlePrivate (t : MojoPlatformHandlePrivateThunks K).

(** One call of a setter: its result and the globals it leaves. *)
Definition make_offer (d : dso_thunks) (o : offer) : Z * dso_thunks :=
  let '(mkDso mgl onscreen echo sync_point platform) := d in
  match o with
  | OfferMGL t => let '(r, g) := MojoSetMGLThunks t mgl in
      (r, mkDso g onscreen echo sync_point platform)
  | OfferMGLOnscreen t => let '(r, g) := MojoSetMGLOnscreenThunks t onscreen in
      (r, mkDso mgl g echo sync_point platform)
  | OfferMGLEcho t => let '(r, g) := MojoSetMGLEchoThunks t echo in
      (r, mkDso mgl onscreen g sync_point platform)
  | OfferMGLSignalSyncPoint t =>
      let '(r, g) := MojoSetMGLSignalSyncPointThunks t sync_point in
      (r, mkDso mgl onscreen echo g platform)
  | OfferPlatformHandlePrivate t =>
      let '(r, g) := MojoSetPlatformHandlePrivateThunks t platform in
      (r, mkDso mgl onscreen echo sync_point g)
  end.

Definition make_offers (d : dso_thunks) (l : list offer) : dso_thunks :=
  foldl (λ d o, (make_offer d o).2) d l.

(** The size of the table an offer brings. *)
Definition offer_size (o : offer) : Z :=
  match o with
  | OfferMGL t => mgl_size t
  | OfferMGLOnscreen t => onscreen_size t
  | OfferMGLEcho t => echo_size t
  | OfferMGLSignalSyncPoint t => sync_point_size t
  | OfferPlatformHandlePrivate t => platform_size t
  end.
End application.
Arguments dso_thunks : clear implicits.
Arguments offer : clear implicits.

(** ** Which table is in force *)
Section in_force.
Context {K : Type}.

(** The table of one kind that an offer brings, if it is large enough. *)
Definition offered_mgl (o : offer K) : option (MGLThunks K) :=
  match o with
  | OfferMGL t => if sizeof_MGLThunks <=? mgl_size t then Some t else None
  | _ => None
  end.
Definition offered_onscreen (o : offer K) : option (MGLOnscreenThunks K) :=
  match o with
  | OfferMGLOnscreen t => if sizeof_MGLOnscreenThunks <=? onscreen_size t then Some t else None
  | _ => None
  end.
Definition offered_echo (o : offer K) : option (MGLEchoThunks K) :=
  match o with
  | OfferMGLEcho t => if sizeof_MGLEchoThunks <=? echo_size t then Some t else None
  | _ => None
  end.
Definition offered_sync_point (o : offer K) : option (MGLSignalSyncPointThunks K) :=
  match o with
  | OfferMGLSignalSyncPoint t =>
      if sizeof_MGLSignalSyncPointThunks <=? sync_point_size t then Some t else None
  | _ => None
  end.
Definition offered_platform (o : offer K) : option (MojoPlatformHandlePrivateThunks K) :=
  match o with
  | OfferPlatformHandlePrivate t =>
      if sizeof_MojoPlatformHandlePrivateThunks <=? platform_size t then Some t else None
  | _ => None
  end.

(** A global that every offer of its kind replaces, and no other offer does,
    holds the last of them. *)
Lemma make_offers_last {T} (get : dso_thunks K → T) (pick : offer K → option T) l d :
  (∀ d o, get (make_offer d o).2 = default (get d) (pick o)) →
  get (make_offers d l) = default (get d) (list.last (omap pick l)).
Proof.
  intros Hget. revert d. induction l as [|o l IH]; intros d; [done|].
  unfold make_offers in *. cbn [foldl]. rewrite IH, Hget. cbn.
  destruct (pick o) as [t|]; [|done]. rewrite last_cons. by destruct (list.last _).
Qed.

(** The five globals are those cases. *)
Lemma make_offer_globals d (o : offer K) :
  g_mgl (make_offer d o).2 = default (g_mgl d) (offered_mgl o) ∧
  g_onscreen (make_offer d o).2 = default (g_onscreen d) (offered_onscreen o) ∧
  g_echo (make_offer d o).2 = default (g_echo d) (offered_echo o) ∧
  g_sync_point (make_offer d o).2 = default (g_sync_point d) (offered_sync_point o) ∧
  g_platform (make_offer d o).2 = default (g_platform d) (offered_platform o).
Proof. destruct d, o; cbn; split_and!; first [done|by case_match]. Qed.

(** An offer is refused when its size is below the one the setter returns. *)
Lemma refused_offer_ignored d (o : offer K) :
  offer_size o < (make_offer d o).1 → (make_offer d o).2 = d.
Proof.
  destruct d, o; cbn; intros Hs; case_match; first [done|lia].
Qed.

Lemma refused_offers_ignored d (l : list (offer K)) :
  Forall (λ o, offer_size o < (make_offer dso_init o).1) l → make_offers d l = d.
Proof.
  intros Hl. revert d. induction Hl as [|o l Ho _ IH]; intros d; [done|].
  unfold make_offers in *. cbn [foldl]. rewrite refused_offer_ignored; [by apply IH|].
  revert Ho. by destruct d, o.
Qed.

(** In a permutation, the only element of a kind is the last of its kind. *)
Lemma last_offered_perm {T} (pick : offer K → option T) before order five t :
  order ≡ₚ five → omap pick five = [t] → list.last (omap pick (before ++ order)) = Some t.
Proof.
  intros Hp Hfive. rewrite omap_app.
  assert (omap pick order = [t]) as ->.
  { apply Permutation_singleton_r. rewrite <- Hfive. by apply omap_Permutation. }
  apply last_snoc.
Qed.
End in_force.

(** ** The properties *)

(** at any time, the table each global holds is the last one offered to its
    setter that was at least as large as the application expects, or the one it
    started with: setters of different tables do not disturb each other, in
    whatever order the embedder calls them, and a table from an embedder built
    against an older header never takes the place of a usable one. *)
Theorem dso_tables_in_force {K} (l : list (offer K)) d :
  let g := make_offers d l in
  g_mgl g = default (g_mgl d) (list.last (omap offered_mgl l)) ∧
  g_onscreen g = default (g_onscreen d) (list.last (omap offered_onscreen l)) ∧
  g_echo g = default (g_echo d) (list.last (omap offered_echo l)) ∧
  g_sync_point g = default (g_sync_point d) (list.last (omap offered_sync_point l)) ∧
  g_platform g = default (g_platform d) (list.last (omap offered_platform l)).
Proof. split_and!; apply make_offers_last; intros; apply make_offer_globals. Qed.

(** The embedder's own offers. *)
Definition embedder_offers (K : Type) `{!MojoPlatform K} : list (offer K) :=
  [OfferMGL (MojoMakeMGLThunks K); OfferMGLOnscreen (MojoMakeMGLOnscreenThunks K);
   OfferMGLEcho (MojoMakeMGLEchoThunks K);
   OfferMGLSignalSyncPoint (MojoMakeMGLSignalSyncPointThunks K);
   OfferPlatformHandlePrivate (MojoMakePlatformHandlePrivateThunks K)].

(** an embedder that offers its five tables, in any order and after any
    earlier offers, has every MGL and platform-handle function of the
    application forwarded to its own function of that name, with the arguments
    in their order; offers that are too small, made later, change nothing. *)
Theorem embedder_offers_refine {K} `{!MojoPlatform K} before order refused
    (a b c d e f : Z) :
  order ≡ₚ embedder_offers K →
  Forall (λ o, offer_size o < (make_offer dso_init o).1) refused →
  let g := make_offers dso_init (before ++ order ++ refused) in
  (∀ k, MGLCreateContext (g_mgl g) a b c d e f k = Ok (env_MGLCreateContext a b c d e f k)) ∧
  (∀ k, MGLDestroyContext (g_mgl g) a k = Ok (env_MGLDestroyContext a k)) ∧
  (∀ k, MGLMakeCurrent (g_mgl g) a k = Ok (env_MGLMakeCurrent a k)) ∧
  (∀ k, MGLGetCurrentContext (g_mgl g) k = Ok (env_MGLGetCurrentContext k)) ∧
  (∀ k, MGLGetProcAddress (g_mgl g) a k = Ok (env_MGLGetProcAddress a k)) ∧
  (∀ k, MGLResizeSurface (g_onscreen g) a b k = Ok (env_MGLResizeSurface a b k)) ∧
  (∀ k, MGLSwapBuffers (g_onscreen g) k = Ok (env_MGLSwapBuffers k)) ∧
  (∀ k, MGLEcho (g_echo g) a b k = Ok (env_MGLEcho a b k)) ∧
  (∀ k, MGLSignalSyncPoint (g_sync_point g) a b c k = Ok (env_MGLSignalSyncPoint a b c k)) ∧
  (∀ k, MojoCreatePlatformHandleWrapper (g_platform g) a b k =
          Ok (env_CreatePlatformHandleWrapper a b k)) ∧
  (∀ k, MojoExtractPlatformHandle (g_platform g) a b k =
          Ok (env_ExtractPlatformHandle a b k)).
Proof.
  intros Hperm Href g.
  assert (g = make_offers dso_init (before ++ order)) as ->.
  { unfold g. rewrite app_assoc. unfold make_offers at 1. rewrite foldl_app.
    by apply refused_offers_ignored. }
  rewrite (make_offers_last g_mgl offered_mgl), (make_offers_last g_onscreen offered_onscreen),
    (make_offers_last g_echo offered_echo), (make_offers_last g_sync_point offered_sync_point),
    (make_offers_last g_platform offered_platform) by (intros; apply make_offer_globals).
  by erewrite !last_offered_perm by done.
Qed.

(** An embedder that keeps the list of the calls made to it: the number of the
    function, then the arguments. *)
Definition record {A} (call : list Z) (result : A) : SM (list (list Z)) A :=
  λ calls, (result, call :: calls).

#[export] Instance recording_platform : MojoPlatform (list (list Z)) := {|
  env_MGLCreateContext := λ a b c d e f, record [0; a; b; c; d; e; f] 17;
  env_MGLDestroyContext := λ a, record [1; a] tt;
  env_MGLMakeCurrent := λ a, record [2; a] tt;
  env_MGLGetCurrentContext := record [3] 17;
  env_MGLGetProcAddress := λ a, record [4; a] 0;
  env_MGLResizeSurface := λ a b, record [5; a; b] tt;
  env_MGLSwapBuffers := record [6] tt;
  env_MGLEcho := λ a b, record [7; a; b] tt;
  env_MGLSignalSyncPoint := λ a b c, record [8; a; b; c] tt;
  env_CreatePlatformHandleWrapper := λ a b, record [9; a; b] MOJO_RESULT_OK;
  env_ExtractPlatformHandle := λ a b, record [10; a; b] MOJO_RESULT_OK;
|}.

(** Its tables last to first, between an empty table and one that is too small. *)
Definition recording_dso : dso_thunks (list (list Z)) :=
  make_offers dso_init
    ([OfferMGLEcho (mkMGLEchoThunks _ 16 None)] ++ rev (embedder_offers _) ++
     [OfferMGL (mkMGLThunks _ 40 None None None None None)]).

Lemma embedder_offers_refine_witness :
  MGLCreateContext (g_mgl recording_dso) 1 2 3 4 5 6 [] = Ok (17, [[0; 1; 2; 3; 4; 5; 6]]) ∧
  MGLEcho (g_echo recording_dso) 1 2 [] = Ok (tt, [[7; 1; 2]]).
Proof.
  destruct (embedder_offers_refine [OfferMGLEcho (mkMGLEchoThunks _ 16 None)]
    (rev (embedder_offers (list (list Z))))
    [OfferMGL (mkMGLThunks _ 40 None None None None None)] 1 2 3 4 5 6)
    as (Hcreate & _ & _ & _ & _ & _ & _ & Hecho & _).
  - symmetry. apply Permutation_rev.
  - repeat constructor.
  - split; [apply Hcreate|apply Hecho].
Defined.
