(* ===== verification/NaclThunks.v ===== *)
(** * The functions of an application in Native Client (public/platform/nacl)

    libmojo.cc and mgl_irt.cc forward each function to a table that
    [nacl_interface_query] fills in, one for the system, three for MGL; a table that was
    obtained is kept.  Without a table of the right size a system function aborts, while
    an MGL function does nothing.  Native Client's pointers take 4 bytes.

    [NaclIrt] is [nacl_interface_query] for each interface: its result, what it leaves in
    the table, and the state [K] of the rest of the system. *)
From stdpp Require Import base list numbers option.
From S2P Require Import Prelude MojoResult System Handles Thunks PlatformThunks.

(** ** The tables, with [None] for a null function pointer *)
Record nacl_irt_mojo (K : Type) := mkIrtMojo {
  i_MojoGetInitialHandle : option (SM K (Z * option Z));
  i_MojoGetTimeTicksNow : option (SM K Z);
  i_MojoClose : option (Z → SM K Z);
  i_MojoGetRights : option (Z → SM K (Z * option Z));
  i_MojoReplaceHandleWithReducedRights : option (Z → Z → SM K (Z * option Z));
  i_MojoDuplicateHandleWithReducedRights : option (Z → Z → SM K (Z * option Z));
  i_MojoDuplicateHandle : option (Z → SM K (Z * option Z));
  i_MojoWait : option (Z → Z → Z → Z → SM K Z);
  i_MojoWaitMany : option (Z → Z → Z → Z → Z → Z → SM K Z);
  i_MojoCreateMessagePipe : option (option MojoCreateMessagePipeOptions → SM K (Z * option (Z * Z)));
  i_MojoWriteMessage : option (Z → Z → Z → Z → Z → Z → SM K Z);
  i_MojoReadMessage : option (Z → Z → Z → Z → Z → Z → SM K Z);
  i_MojoCreateDataPipe : option (option MojoCreateDataPipeOptions → SM K (Z * option (Z * Z)));
  i_MojoSetDataPipeProducerOptions : option (Z → Z → SM K Z);
  i_MojoGetDataPipeProducerOptions : option (Z → Z → Z → SM K Z);
  i_MojoWriteData : option (Z → Z → Z → Z → SM K (Z * option Z));
  i_MojoBeginWriteData : option (Z → Z → Z → SM K (Z * option Z));
  i_MojoEndWriteData : option (Z → Z → SM K Z);
  i_MojoSetDataPipeConsumerOptions : option (Z → Z → SM K Z);
  i_MojoGetDataPipeConsumerOptions : option (Z → Z → Z → SM K Z);
  i_MojoReadData : option (Z → Z → Z → Z → SM K (Z * option Z));
  i_MojoBeginReadData : option (Z → Z → Z → SM K (Z * option Z));
  i_MojoEndReadData : option (Z → Z → SM K Z);
  i_MojoCreateSharedBuffer : option (option MojoCreateSharedBufferOptions → Z → SM K (Z * option Z));
  i_MojoDuplicateBufferHandle : option (Z → option MojoDuplicateBufferHandleOptions → SM K (Z * option Z));
  i_MojoGetBufferInformation : option (Z → Z → Z → SM K (Z * option MojoBufferInformation));
  i_MojoMapBuffer : option (Z → Z → Z → Z → Z → SM K Z);
  i_MojoUnmapBuffer : option (Z → SM K Z);
  i_MojoCreateWaitSet : option (option MojoCreateWaitSetOptions → SM K (Z * option Z));
  i_MojoWaitSetAdd : option (Z → Z → Z → Z → option MojoWaitSetAddOptions → SM K Z);
  i_MojoWaitSetRemove : option (Z → Z → SM K Z);
  i_MojoWaitSetWait : option (Z → Z → Z → Z → Z → SM K Z);
}.
Arguments i_MojoGetInitialHandle {_}.
Arguments i_MojoGetTimeTicksNow {_}.
Arguments i_MojoClose {_}.
Arguments i_MojoGetRights {_}.
Arguments i_MojoReplaceHandleWithReducedRights {_}.
Arguments i_MojoDuplicateHandleWithReducedRights {_}.
Arguments i_MojoDuplicateHandle {_}.
Arguments i_MojoWait {_}.
Arguments i_MojoWaitMany {_}.
Arguments i_MojoCreateMessagePipe {_}.
Arguments i_MojoWriteMessage {_}.
Arguments i_MojoReadMessage {_}.
Arguments i_MojoCreateDataPipe {_}.
Arguments i_MojoSetDataPipeProducerOptions {_}.
Arguments i_MojoGetDataPipeProducerOptions {_}.
Arguments i_MojoWriteData {_}.
Arguments i_MojoBeginWriteData {_}.
Arguments i_MojoEndWriteData {_}.
Arguments i_MojoSetDataPipeConsumerOptions {_}.
Arguments i_MojoGetDataPipeConsumerOptions {_}.
Arguments i_MojoReadData {_}.
Arguments i_MojoBeginReadData {_}.
Arguments i_MojoEndReadData {_}.
Arguments i_MojoCreateSharedBuffer {_}.
Arguments i_MojoDuplicateBufferHandle {_}.
Arguments i_MojoGetBufferInformation {_}.
Arguments i_MojoMapBuffer {_}.
Arguments i_MojoUnmapBuffer {_}.
Arguments i_MojoCreateWaitSet {_}.
Arguments i_MojoWaitSetAdd {_}.
Arguments i_MojoWaitSetRemove {_}.
Arguments i_MojoWaitSetWait {_}.

Record nacl_irt_mgl (K : Type) := mkIrtMGL {
  i_MGLCreateContext : option (Z → Z → Z → Z → Z → Z → SM K Z);
  i_MGLDestroyContext : option (Z → SM K unit);
  i_MGLMakeCurrent : option (Z → SM K unit);
  i_MGLGetCurrentContext : option (SM K Z);
  i_MGLGetProcAddress : option (Z → SM K Z);
}.
Arguments i_MGLCreateContext {_}.
Arguments i_MGLDestroyContext {_}.
Arguments i_MGLMakeCurrent {_}.
Arguments i_MGLGetCurrentContext {_}.
Arguments i_MGLGetProcAddress {_}.

Record nacl_irt_mgl_onscreen (K : Type) := mkIrtMGLOnscreen {
  i_MGLResizeSurface : option (Z → Z → SM K unit);
  i_MGLSwapBuffers : option (SM K unit);
}.
Arguments i_MGLResizeSurface {_}.
Arguments i_MGLSwapBuffers {_}.

Record nacl_irt_mgl_signal_sync_point (K : Type) := mkIrtMGLSignalSyncPoint {
  i_MGLSignalSyncPoint : option (Z → Z → Z → SM K unit);
}.
Arguments i_MGLSignalSyncPoint {_}.

Definition sizeof_nacl_irt_mojo : Z := 32 * 4.
Definition sizeof_nacl_irt_mgl : Z := 5 * 4.
Definition sizeof_nacl_irt_mgl_onscreen : Z := 2 * 4.
Definition sizeof_nacl_irt_mgl_signal_sync_point : Z := 4.

Class NaclIrt (K : Type) := {
  query_mojo : nacl_irt_mojo K → K → Z * nacl_irt_mojo K * K;
  query_mgl : nacl_irt_mgl K → K → Z * nacl_irt_mgl K * K;
  query_mgl_onscreen : nacl_irt_mgl_onscreen K → K → Z * nacl_irt_mgl_onscreen K * K;
  query_mgl_signal_sync_point :
    nacl_irt_mgl_signal_sync_point K → K → Z * nacl_irt_mgl_signal_sync_point K * K;
}.

(** ** The globals *)
Record Cached (T : Type) := mkCached { valid : bool; table : T }.
Arguments mkCached {_}.
Arguments valid {_}.
Arguments table {_}.

Record NaclState (K : Type) := mkNaclState {
  rest : K;
  g_irt_mojo : Cached (nacl_irt_mojo K);
  g_irt_mgl : Cached (nacl_irt_mgl K);
  g_irt_mgl_onscreen : Cached (nacl_irt_mgl_onscreen K);
  g_irt_mgl_signal_sync_point : Cached (nacl_irt_mgl_signal_sync_point K);
}.
Arguments mkNaclState {_}.
Arguments rest {_}.
Arguments g_irt_mojo {_}.
Arguments g_irt_mgl {_}.
Arguments g_irt_mgl_onscreen {_}.
Arguments g_irt_mgl_signal_sync_point {_}.

Definition irt_mojo_null (K : Type) : nacl_irt_mojo K :=
  mkIrtMojo K None None None None None None None None None None None None None None None None None None None None None None None None None None None None None None None None.
Definition nacl_init {K} (k : K) : NaclState K :=
  mkNaclState k (mkCached false (irt_mojo_null K)) (mkCached false (mkIrtMGL K None None None None None))
    (mkCached false (mkIrtMGLOnscreen K None None)) (mkCached false (mkIrtMGLSignalSyncPoint K None)).

Section nacl.
Context {K : Type} `{!NaclIrt K}.

(** ** Obtaining a table; [None] is a null pointer. *)
Definition get_irt_mojo : stateR (NaclState K) (option (nacl_irt_mojo K)) := λ s,
  if negb (valid (g_irt_mojo s)) then
    let '(rc, irt, k) := query_mojo (table (g_irt_mojo s)) (rest s) in
    let set b := mkNaclState k (mkCached b irt) (g_irt_mgl s) (g_irt_mgl_onscreen s) (g_irt_mgl_signal_sync_point s) in
    if negb (rc =? sizeof_nacl_irt_mojo) then Ok (None, set false) else Ok (Some irt, set true)
  else Ok (Some (table (g_irt_mojo s)), s).

Definition GetIrtMGL : stateR (NaclState K) (option (nacl_irt_mgl K)) := λ s,
  if negb (valid (g_irt_mgl s)) then
    let '(rc, irt, k) := query_mgl (table (g_irt_mgl s)) (rest s) in
    let set b := mkNaclState k (g_irt_mojo s) (mkCached b irt) (g_irt_mgl_onscreen s) (g_irt_mgl_signal_sync_point s) in
    if negb (rc =? sizeof_nacl_irt_mgl) then Ok (None, set false) else Ok (Some irt, set true)
  else Ok (Some (table (g_irt_mgl s)), s).

Definition GetIrtMGLOnScreen : stateR (NaclState K) (option (nacl_irt_mgl_onscreen K)) := λ s,
  if negb (valid (g_irt_mgl_onscreen s)) then
    let '(rc, irt, k) := query_mgl_onscreen (table (g_irt_mgl_onscreen s)) (rest s) in
    let set b := mkNaclState k (g_irt_mojo s) (g_irt_mgl s) (mkCached b irt) (g_irt_mgl_signal_sync_point s) in
    if negb (rc =? sizeof_nacl_irt_mgl_onscreen) then Ok (None, set false) else Ok (Some irt, set true)
  else Ok (Some (table (g_irt_mgl_onscreen s)), s).

Definition GetIrtMGLSignalSyncPoint : stateR (NaclState K) (option (nacl_irt_mgl_signal_sync_point K)) := λ s,
  if negb (valid (g_irt_mgl_signal_sync_point s)) then
    let '(rc, irt, k) := query_mgl_signal_sync_point (table (g_irt_mgl_signal_sync_point s)) (rest s) in
    let set b := mkNaclState k (g_irt_mojo s) (g_irt_mgl s) (g_irt_mgl_onscreen s) (mkCached b irt) in
    if negb (rc =? sizeof_nacl_irt_mgl_signal_sync_point) then Ok (None, set false) else Ok (Some irt, set true)
  else Ok (Some (table (g_irt_mgl_signal_sync_point s)), s).

(** A call through a function pointer of a table *)
Definition call_pointer {F A} (pointer : option F) (call : F → SM K A) : stateR (NaclState K) A := λ s,
  match pointer with
  | None => Crash BadAccess
  | Some f =>
      let '(a, k) := call f (rest s) in
      Ok (a, mkNaclState k (g_irt_mojo s) (g_irt_mgl s) (g_irt_mgl_onscreen s) (g_irt_mgl_signal_sync_point s))
  end.

(** [if (!irt_mojo) abort(); return irt_mojo->F(...)] *)
Definition call_irt_mojo {F A} (pointer : nacl_irt_mojo K → option F) (call : F → SM K A) : stateR (NaclState K) A :=
  irt_mojo ← get_irt_mojo;
  match irt_mojo with
  | None => crash AssertFailed
  | Some irt_mojo => call_pointer (pointer irt_mojo) call
  end.
(** The MGL functions, with what they return without a table *)
Definition call_irt {T F A} (get : stateR (NaclState K) (option T)) (otherwise : A)
    (pointer : T → option F) (call : F → SM K A) : stateR (NaclState K) A :=
  irt ← get;
  match irt with
  | None => mret otherwise
  | Some irt => call_pointer (pointer irt) call
  end.

(** ** The system functions (libmojo.cc) *)
Definition _MojoGetInitialHandle : stateR (NaclState K) (Z * option Z) :=
  call_irt_mojo i_MojoGetInitialHandle (λ f, f).

Definition MojoGetTimeTicksNow
    : stateR (NaclState K) Z :=
  call_irt_mojo i_MojoGetTimeTicksNow (λ f, f).

Definition MojoClose (handle : Z)
    : stateR (NaclState K) Z :=
  call_irt_mojo i_MojoClose (λ f, f handle).

Definition MojoGetRights (handle : Z)
    : stateR (NaclState K) (Z * option Z) :=
  call_irt_mojo i_MojoGetRights (λ f, f handle).

Definition MojoReplaceHandleWithReducedRights (handle rights_to_remove : Z)
    : stateR (NaclState K) (Z * option Z) :=
  call_irt_mojo i_MojoReplaceHandleWithReducedRights (λ f, f handle rights_to_remove).

Definition MojoDuplicateHandleWithReducedRights (handle rights_to_remove : Z)
    : stateR (NaclState K) (Z * option Z) :=
  call_irt_mojo i_MojoDuplicateHandleWithReducedRights (λ f, f handle rights_to_remove).

Definition MojoDuplicateHandle (handle : Z)
    : stateR (NaclState K) (Z * option Z) :=
  call_irt_mojo i_MojoDuplicateHandle (λ f, f handle).

Definition MojoWait (handle signals deadline signals_state : Z)
    : stateR (NaclState K) Z :=
  call_irt_mojo i_MojoWait (λ f, f handle signals deadline signals_state).

Definition MojoWaitMany (handles signals num_handles deadline result_index signals_states : Z)
    : stateR (NaclState K) Z :=
  call_irt_mojo i_MojoWaitMany (λ f, f handles signals num_handles deadline result_index signals_states).

Definition MojoCreateMessagePipe (options : option MojoCreateMessagePipeOptions)
    : stateR (NaclState K) (Z * option (Z * Z)) :=
  call_irt_mojo i_MojoCreateMessagePipe (λ f, f options).

Definition MojoWriteMessage (message_pipe_handle bytes num_bytes handles num_handles flags : Z)
    : stateR (NaclState K) Z :=
  call_irt_mojo i_MojoWriteMessage (λ f, f message_pipe_handle bytes num_bytes handles num_handles flags).

Definition MojoReadMessage (message_pipe_handle bytes num_bytes handles num_handles flags : Z)
    : stateR (NaclState K) Z :=
  call_irt_mojo i_MojoReadMessage (λ f, f message_pipe_handle bytes num_bytes handles num_handles flags).

Definition MojoCreateDataPipe (options : option MojoCreateDataPipeOptions)
    : stateR (NaclState K) (Z * option (Z * Z)) :=
  call_irt_mojo i_MojoCreateDataPipe (λ f, f options).

Definition MojoSetDataPipeProducerOptions (handle options : Z)
    : stateR (NaclState K) Z :=
  call_irt_mojo i_MojoSetDataPipeProducerOptions (λ f, f handle options).

Definition MojoGetDataPipeProducerOptions (handle options options_num_bytes : Z)
    : stateR (NaclState K) Z :=
  call_irt_mojo i_MojoGetDataPipeProducerOptions (λ f, f handle options options_num_bytes).

Definition MojoWriteData (handle elements num_elements flags : Z)
    : stateR (NaclState K) (Z * option Z) :=
  call_irt_mojo i_MojoWriteData (λ f, f handle elements num_elements flags).

Definition MojoBeginWriteData (handle buffer flags : Z)
    : stateR (NaclState K) (Z * option Z) :=
  call_irt_mojo i_MojoBeginWriteData (λ f, f handle buffer flags).

Definition MojoEndWriteData (handle num_elements_written : Z)
    : stateR (NaclState K) Z :=
  call_irt_mojo i_MojoEndWriteData (λ f, f handle num_elements_written).

Definition MojoSetDataPipeConsumerOptions (handle options : Z)
    : stateR (NaclState K) Z :=
  call_irt_mojo i_MojoSetDataPipeConsumerOptions (λ f, f handle options).

Definition MojoGetDataPipeConsumerOptions (handle options options_num_bytes : Z)
    : stateR (NaclState K) Z :=
  call_irt_mojo i_MojoGetDataPipeConsumerOptions (λ f, f handle options options_num_bytes).

Definition MojoReadData (handle elements num_elements flags : Z)
    : stateR (NaclState K) (Z * option Z) :=
  call_irt_mojo i_MojoReadData (λ f, f handle elements num_elements flags).

Definition MojoBeginReadData (handle buffer flags : Z)
    : stateR (NaclState K) (Z * option Z) :=
  call_irt_mojo i_MojoBeginReadData (λ f, f handle buffer flags).

Definition MojoEndReadData (handle num_elements_read : Z)
    : stateR (NaclState K) Z :=
  call_irt_mojo i_MojoEndReadData (λ f, f handle num_elements_read).

Definition MojoCreateSharedBuffer (options : option MojoCreateSharedBufferOptions) (num_bytes : Z)
    : stateR (NaclState K) (Z * option Z) :=
  call_irt_mojo i_MojoCreateSharedBuffer (λ f, f options num_bytes).

Definition MojoDuplicateBufferHandle (buffer_handle : Z) (options : option MojoDuplicateBufferHandleOptions)
    : stateR (NaclState K) (Z * option Z) :=
  call_irt_mojo i_MojoDuplicateBufferHandle (λ f, f buffer_handle options).

Definition MojoGetBufferInformation (buffer_handle info info_num_bytes : Z)
    : stateR (NaclState K) (Z * option MojoBufferInformation) :=
  call_irt_mojo i_MojoGetBufferInformation (λ f, f buffer_handle info info_num_bytes).

Definition MojoMapBuffer (buffer_handle offset num_bytes buffer flags : Z)
    : stateR (NaclState K) Z :=
  call_irt_mojo i_MojoMapBuffer (λ f, f buffer_handle offset num_bytes buffer flags).

Definition MojoUnmapBuffer (buffer : Z)
    : stateR (NaclState K) Z :=
  call_irt_mojo i_MojoUnmapBuffer (λ f, f buffer).

Definition MojoCreateWaitSet (options : option MojoCreateWaitSetOptions)
    : stateR (NaclState K) (Z * option Z) :=
  call_irt_mojo i_MojoCreateWaitSet (λ f, f options).

Definition MojoWaitSetAdd (wait_set_handle handle signals cookie : Z) (options : option MojoWaitSetAddOptions)
    : stateR (NaclState K) Z :=
  call_irt_mojo i_MojoWaitSetAdd (λ f, f wait_set_handle handle signals cookie options).

Definition MojoWaitSetRemove (wait_set_handle cookie : Z)
    : stateR (NaclState K) Z :=
  call_irt_mojo i_MojoWaitSetRemove (λ f, f wait_set_handle cookie).

Definition MojoWaitSetWait (wait_set_handle deadline num_results results max_results : Z)
    : stateR (NaclState K) Z :=
  call_irt_mojo i_MojoWaitSetWait (λ f, f wait_set_handle deadline num_results results max_results).

(** [main] (mojo_main_thunk.cc): a handle that was not assigned is read. *)
Definition main (MojoMain : Z → stateR (NaclState K) Z) : stateR (NaclState K) Z :=
  '(_, handle) ← _MojoGetInitialHandle;
  match handle with
  | None => crash BadAccess
  | Some handle => MojoMain handle
  end.

(** ** The MGL functions (mgl_irt.cc) *)
Definition MGL_NO_CONTEXT : Z := 0.

Definition MGLCreateContext (version command_buffer_handle share_group lost_callback lost_callback_closure
    async_waiter : Z) : stateR (NaclState K) Z :=
  call_irt GetIrtMGL MGL_NO_CONTEXT i_MGLCreateContext (λ f,
    f version command_buffer_handle share_group lost_callback lost_callback_closure async_waiter).

Definition MGLDestroyContext (context : Z) : stateR (NaclState K) unit :=
  call_irt GetIrtMGL tt i_MGLDestroyContext (λ f, f context).

Definition MGLMakeCurrent (context : Z) : stateR (NaclState K) unit :=
  call_irt GetIrtMGL tt i_MGLMakeCurrent (λ f, f context).

Definition MGLGetCurrentContext : stateR (NaclState K) Z :=
  call_irt GetIrtMGL MGL_NO_CONTEXT i_MGLGetCurrentContext (λ f, f).

Definition MGLGetProcAddress (name : Z) : stateR (NaclState K) Z :=
  call_irt GetIrtMGL 0 i_MGLGetProcAddress (λ f, f name).

Definition MGLResizeSurface (width height : Z) : stateR (NaclState K) unit :=
  call_irt GetIrtMGLOnScreen tt i_MGLResizeSurface (λ f, f width height).

Definition MGLSwapBuffers : stateR (NaclState K) unit :=
  call_irt GetIrtMGLOnScreen tt i_MGLSwapBuffers (λ f, f).

Definition MGLSignalSyncPoint (sync_point callback closure : Z) : stateR (NaclState K) unit :=
  call_irt GetIrtMGLSignalSyncPoint tt i_MGLSignalSyncPoint (λ f, f sync_point callback closure).
End nacl.

(** ** An embedder's tables *)
Section embedder.
Context (K : Type) `{!MojoSystem K} `{!MojoPlatform K} (initial_handle : SM K (Z * option Z)).

Definition embedder_irt_mojo : nacl_irt_mojo K := {|
  i_MojoGetInitialHandle := Some initial_handle;
  i_MojoGetTimeTicksNow := Some sys_GetTimeTicksNow;
  i_MojoClose := Some sys_Close;
  i_MojoGetRights := Some sys_GetRights;
  i_MojoReplaceHandleWithReducedRights := Some sys_ReplaceHandleWithReducedRights;
  i_MojoDuplicateHandleWithReducedRights := Some sys_DuplicateHandleWithReducedRights;
  i_MojoDuplicateHandle := Some sys_DuplicateHandle;
  i_MojoWait := Some sys_Wait;
  i_MojoWaitMany := Some sys_WaitMany;
  i_MojoCreateMessagePipe := Some sys_CreateMessagePipe;
  i_MojoWriteMessage := Some sys_WriteMessage;
  i_MojoReadMessage := Some sys_ReadMessage;
  i_MojoCreateDataPipe := Some sys_CreateDataPipe;
  i_MojoSetDataPipeProducerOptions := Some sys_SetDataPipeProducerOptions;
  i_MojoGetDataPipeProducerOptions := Some sys_GetDataPipeProducerOptions;
  i_MojoWriteData := Some sys_WriteData;
  i_MojoBeginWriteData := Some sys_BeginWriteData;
  i_MojoEndWriteData := Some sys_EndWriteData;
  i_MojoSetDataPipeConsumerOptions := Some sys_SetDataPipeConsumerOptions;
  i_MojoGetDataPipeConsumerOptions := Some sys_GetDataPipeConsumerOptions;
  i_MojoReadData := Some sys_ReadData;
  i_MojoBeginReadData := Some sys_BeginReadData;
  i_MojoEndReadData := Some sys_EndReadData;
  i_MojoCreateSharedBuffer := Some sys_CreateSharedBuffer;
  i_MojoDuplicateBufferHandle := Some sys_DuplicateBufferHandle;
  i_MojoGetBufferInformation := Some sys_GetBufferInformation;
  i_MojoMapBuffer := Some sys_MapBuffer;
  i_MojoUnmapBuffer := Some sys_UnmapBuffer;
  i_MojoCreateWaitSet := Some sys_CreateWaitSet;
  i_MojoWaitSetAdd := Some sys_WaitSetAdd;
  i_MojoWaitSetRemove := Some sys_WaitSetRemove;
  i_MojoWaitSetWait := Some sys_WaitSetWait;
|}.
Definition embedder_irt_mgl : nacl_irt_mgl K := {|
  i_MGLCreateContext := Some env_MGLCreateContext;
  i_MGLDestroyContext := Some env_MGLDestroyContext;
  i_MGLMakeCurrent := Some env_MGLMakeCurrent;
  i_MGLGetCurrentContext := Some env_MGLGetCurrentContext;
  i_MGLGetProcAddress := Some env_MGLGetProcAddress;
|}.
Definition embedder_irt_mgl_onscreen : nacl_irt_mgl_onscreen K := {|
  i_MGLResizeSurface := Some env_MGLResizeSurface;
  i_MGLSwapBuffers := Some env_MGLSwapBuffers;
|}.
Definition embedder_irt_mgl_signal_sync_point : nacl_irt_mgl_signal_sync_point K := {|
  i_MGLSignalSyncPoint := Some env_MGLSignalSyncPoint;
|}.
End embedder.

(** ** What the functions do *)
Section laws.
Context {K : Type} `{!NaclIrt K} `{!MojoSystem K} `{!MojoPlatform K} (initial_handle : SM K (Z * option Z)).

(** The function of the embedder, on its part of the state; the system table is, or has
    become, the application's. *)
Definition served {A} (f : SM K A) (s : NaclState K) : result (A * NaclState K) :=
  let k := if valid (g_irt_mojo s) then rest s else (query_mojo (table (g_irt_mojo s)) (rest s)).2 in
  let '(a, k') := f k in
  Ok (a, mkNaclState k' (mkCached true (embedder_irt_mojo K initial_handle)) (g_irt_mgl s) (g_irt_mgl_onscreen s)
    (g_irt_mgl_signal_sync_point s)).

(** The table is obtained, or the next query gives it. *)
Definition mojo_offered (s : NaclState K) : Prop :=
  if valid (g_irt_mojo s) then table (g_irt_mojo s) = embedder_irt_mojo K initial_handle
  else ∃ k, query_mojo (table (g_irt_mojo s)) (rest s) = (sizeof_nacl_irt_mojo, embedder_irt_mojo K initial_handle, k).

Lemma call_irt_mojo_served {F A} (pointer : nacl_irt_mojo K → option F) (call : F → SM K A) f (s : NaclState K) :
  mojo_offered s → pointer (embedder_irt_mojo K initial_handle) = Some f → call_irt_mojo pointer call s = served (call f) s.
Proof.
  unfold mojo_offered, call_irt_mojo, served, mbind, stateR_bind, get_irt_mojo. intros Hs Hp.
  destruct s as [k [[] irt] ? ? ?]; cbn [g_irt_mojo valid table rest negb] in *.
  - rewrite <- Hs in Hp. rewrite Hp. unfold call_pointer. cbn. rewrite Hs. reflexivity.
  - destruct Hs as [k' ->]. rewrite Z.eqb_refl. cbn [negb]. rewrite Hp. reflexivity.
Qed.

(** C38: Once Native Client offers the embedder's table, each system function of the
    application is the embedder's of its name, with its arguments in their order; the
    table is kept, so that no later call asks for it. *)
Theorem nacl_system_served (s : NaclState K) (a b c d e f : Z) cmp cdp csb dbh cws wsa : mojo_offered s →
  (∀ A (g : SM K A) r s', served g s = Ok (r, s') → mojo_offered s' ∧ valid (g_irt_mojo s') = true) ∧
  _MojoGetInitialHandle s = served initial_handle s ∧
  MojoGetTimeTicksNow s = served (sys_GetTimeTicksNow) s ∧
  MojoClose a s = served (sys_Close a) s ∧
  MojoGetRights a s = served (sys_GetRights a) s ∧
  MojoReplaceHandleWithReducedRights a b s = served (sys_ReplaceHandleWithReducedRights a b) s ∧
  MojoDuplicateHandleWithReducedRights a b s = served (sys_DuplicateHandleWithReducedRights a b) s ∧
  MojoDuplicateHandle a s = served (sys_DuplicateHandle a) s ∧
  MojoWait a b c d s = served (sys_Wait a b c d) s ∧
  MojoWaitMany a b c d e f s = served (sys_WaitMany a b c d e f) s ∧
  MojoCreateMessagePipe cmp s = served (sys_CreateMessagePipe cmp) s ∧
  MojoWriteMessage a b c d e f s = served (sys_WriteMessage a b c d e f) s ∧
  MojoReadMessage a b c d e f s = served (sys_ReadMessage a b c d e f) s ∧
  MojoCreateDataPipe cdp s = served (sys_CreateDataPipe cdp) s ∧
  MojoSetDataPipeProducerOptions a b s = served (sys_SetDataPipeProducerOptions a b) s ∧
  MojoGetDataPipeProducerOptions a b c s = served (sys_GetDataPipeProducerOptions a b c) s ∧
  MojoWriteData a b c d s = served (sys_WriteData a b c d) s ∧
  MojoBeginWriteData a b c s = served (sys_BeginWriteData a b c) s ∧
  MojoEndWriteData a b s = served (sys_EndWriteData a b) s ∧
  MojoSetDataPipeConsumerOptions a b s = served (sys_SetDataPipeConsumerOptions a b) s ∧
  MojoGetDataPipeConsumerOptions a b c s = served (sys_GetDataPipeConsumerOptions a b c) s ∧
  MojoReadData a b c d s = served (sys_ReadData a b c d) s ∧
  MojoBeginReadData a b c s = served (sys_BeginReadData a b c) s ∧
  MojoEndReadData a b s = served (sys_EndReadData a b) s ∧
  MojoCreateSharedBuffer csb a s = served (sys_CreateSharedBuffer csb a) s ∧
  MojoDuplicateBufferHandle a dbh s = served (sys_DuplicateBufferHandle a dbh) s ∧
  MojoGetBufferInformation a b c s = served (sys_GetBufferInformation a b c) s ∧
  MojoMapBuffer a b c d e s = served (sys_MapBuffer a b c d e) s ∧
  MojoUnmapBuffer a s = served (sys_UnmapBuffer a) s ∧
  MojoCreateWaitSet cws s = served (sys_CreateWaitSet cws) s ∧
  MojoWaitSetAdd a b c d wsa s = served (sys_WaitSetAdd a b c d wsa) s ∧
  MojoWaitSetRemove a b s = served (sys_WaitSetRemove a b) s ∧
  MojoWaitSetWait a b c d e s = served (sys_WaitSetWait a b c d e) s.
Proof.
  intros Hs. split; [|split_and!; (etransitivity; [by apply call_irt_mojo_served|reflexivity])].
  intros A g r s'. unfold served. destruct (g _) as [x k']. by intros [= _ <-].
Qed.

(** Without the table every system function aborts; MGL functions do nothing and ask
    again at the next call. *)
Definition refused (s : NaclState K) : Prop :=
  valid (g_irt_mojo s) = false ∧ (query_mojo (table (g_irt_mojo s)) (rest s)).1.1 ≠ sizeof_nacl_irt_mojo.
Lemma call_irt_mojo_refused {F A} (pointer : nacl_irt_mojo K → option F) (call : F → SM K A) (s : NaclState K) :
  refused s → call_irt_mojo pointer call s = Crash AssertFailed.
Proof.
  intros [Hv Hq]. unfold call_irt_mojo, mbind, stateR_bind, get_irt_mojo. rewrite Hv. cbn.
  destruct (query_mojo _ _) as [[rc irt] k]. cbn in *. by rewrite (proj2 (Z.eqb_neq _ _) Hq).
Qed.

Lemma nacl_system_refused (s : NaclState K) (a b c d e f : Z) cmp cdp csb dbh cws wsa : refused s →
  _MojoGetInitialHandle s = Crash AssertFailed ∧
  MojoGetTimeTicksNow s = Crash AssertFailed ∧
  MojoClose a s = Crash AssertFailed ∧
  MojoGetRights a s = Crash AssertFailed ∧
  MojoReplaceHandleWithReducedRights a b s = Crash AssertFailed ∧
  MojoDuplicateHandleWithReducedRights a b s = Crash AssertFailed ∧
  MojoDuplicateHandle a s = Crash AssertFailed ∧
  MojoWait a b c d s = Crash AssertFailed ∧
  MojoWaitMany a b c d e f s = Crash AssertFailed ∧
  MojoCreateMessagePipe cmp s = Crash AssertFailed ∧
  MojoWriteMessage a b c d e f s = Crash AssertFailed ∧
  MojoReadMessage a b c d e f s = Crash AssertFailed ∧
  MojoCreateDataPipe cdp s = Crash AssertFailed ∧
  MojoSetDataPipeProducerOptions a b s = Crash AssertFailed ∧
  MojoGetDataPipeProducerOptions a b c s = Crash AssertFailed ∧
  MojoWriteData a b c d s = Crash AssertFailed ∧
  MojoBeginWriteData a b c s = Crash AssertFailed ∧
  MojoEndWriteData a b s = Crash AssertFailed ∧
  MojoSetDataPipeConsumerOptions a b s = Crash AssertFailed ∧
  MojoGetDataPipeConsumerOptions a b c s = Crash AssertFailed ∧
  MojoReadData a b c d s = Crash AssertFailed ∧
  MojoBeginReadData a b c s = Crash AssertFailed ∧
  MojoEndReadData a b s = Crash AssertFailed ∧
  MojoCreateSharedBuffer csb a s = Crash AssertFailed ∧
  MojoDuplicateBufferHandle a dbh s = Crash AssertFailed ∧
  MojoGetBufferInformation a b c s = Crash AssertFailed ∧
  MojoMapBuffer a b c d e s = Crash AssertFailed ∧
  MojoUnmapBuffer a s = Crash AssertFailed ∧
  MojoCreateWaitSet cws s = Crash AssertFailed ∧
  MojoWaitSetAdd a b c d wsa s = Crash AssertFailed ∧
  MojoWaitSetRemove a b s = Crash AssertFailed ∧
  MojoWaitSetWait a b c d e s = Crash AssertFailed.
Proof. intros Hs. split_and!; by apply call_irt_mojo_refused. Qed.

(** *** MGL: the same for each of the three tables *)
Record mgl_offered (s : NaclState K) : Prop := {
  offered_mgl : if valid (g_irt_mgl s) then table (g_irt_mgl s) = embedder_irt_mgl K
    else query_mgl (table (g_irt_mgl s)) (rest s) = (sizeof_nacl_irt_mgl, embedder_irt_mgl K, rest s);
  offered_onscreen : if valid (g_irt_mgl_onscreen s) then table (g_irt_mgl_onscreen s) = embedder_irt_mgl_onscreen K
    else query_mgl_onscreen (table (g_irt_mgl_onscreen s)) (rest s)
      = (sizeof_nacl_irt_mgl_onscreen, embedder_irt_mgl_onscreen K, rest s);
  offered_sync : if valid (g_irt_mgl_signal_sync_point s)
    then table (g_irt_mgl_signal_sync_point s) = embedder_irt_mgl_signal_sync_point K
    else query_mgl_signal_sync_point (table (g_irt_mgl_signal_sync_point s)) (rest s)
      = (sizeof_nacl_irt_mgl_signal_sync_point, embedder_irt_mgl_signal_sync_point K, rest s);
}.
(** The call's result, and the state of the embedder after it *)
Definition outcome {A} (r : result (A * NaclState K)) : option (A * K) :=
  match r with Ok (a, s) => Some (a, rest s) | Crash _ => None end.

Lemma call_irt_served {T F A} get otherwise (pointer : T → option F) (call : F → SM K A) irt f (s : NaclState K) :
  (∃ s', get s = Ok (Some irt, s') ∧ rest s' = rest s) → pointer irt = Some f →
  outcome (call_irt get otherwise pointer call s) = Some (call f (rest s)).
Proof.
  intros (s' & Hget & Hr) Hp. unfold call_irt, mbind, stateR_bind. rewrite Hget, Hp. unfold call_pointer. rewrite Hr.
  by destruct (call f (rest s)).
Qed.
Lemma mgl_get (s : NaclState K) : mgl_offered s →
  (∃ s', GetIrtMGL s = Ok (Some (embedder_irt_mgl K), s') ∧ rest s' = rest s) ∧
  (∃ s', GetIrtMGLOnScreen s = Ok (Some (embedder_irt_mgl_onscreen K), s') ∧ rest s' = rest s) ∧
  (∃ s', GetIrtMGLSignalSyncPoint s = Ok (Some (embedder_irt_mgl_signal_sync_point K), s') ∧ rest s' = rest s).
Proof.
  intros [H1 H2 H3]. unfold GetIrtMGL, GetIrtMGLOnScreen, GetIrtMGLSignalSyncPoint.
  destruct (valid (g_irt_mgl s)), (valid (g_irt_mgl_onscreen s)), (valid (g_irt_mgl_signal_sync_point s));
    rewrite ?H1, ?H2, ?H3; cbn; split_and!; by eexists.
Qed.

Theorem nacl_mgl_served (s : NaclState K) (a b c d e f : Z) : mgl_offered s →
  outcome (MGLCreateContext a b c d e f s) = Some (env_MGLCreateContext a b c d e f (rest s)) ∧
  outcome (MGLDestroyContext a s) = Some (env_MGLDestroyContext a (rest s)) ∧
  outcome (MGLMakeCurrent a s) = Some (env_MGLMakeCurrent a (rest s)) ∧
  outcome (MGLGetCurrentContext s) = Some (env_MGLGetCurrentContext (rest s)) ∧
  outcome (MGLGetProcAddress a s) = Some (env_MGLGetProcAddress a (rest s)) ∧
  outcome (MGLResizeSurface a b s) = Some (env_MGLResizeSurface a b (rest s)) ∧
  outcome (MGLSwapBuffers s) = Some (env_MGLSwapBuffers (rest s)) ∧
  outcome (MGLSignalSyncPoint a b c s) = Some (env_MGLSignalSyncPoint a b c (rest s)).
Proof.
  intros (H1 & H2 & H3)%mgl_get.
  unfold MGLCreateContext, MGLDestroyContext, MGLMakeCurrent, MGLGetCurrentContext, MGLGetProcAddress,
    MGLResizeSurface, MGLSwapBuffers, MGLSignalSyncPoint.
  split_and!; (etransitivity; [eapply call_irt_served; [eassumption|reflexivity]|reflexivity]).
Qed.

(** Without its table an MGL function returns nothing and leaves the embedder as the
    query left it. *)
Lemma call_irt_absent {T F A} get otherwise (pointer : T → option F) (call : F → SM K A) (s s' : NaclState K) :
  get s = Ok (None, s') → call_irt get otherwise pointer call s = Ok (otherwise, s').
Proof. intros Hget. unfold call_irt, mbind, stateR_bind. by rewrite Hget. Qed.
End laws.

(** *** An embedder over the kernel of Handles.v, without MGL *)
Definition toy_initial_handle : SM toy (Z * option Z) := λ k, ((MOJO_RESULT_OK, Some 5), k).
#[export] Instance toy_irt : NaclIrt toy := {|
  query_mojo _ k := (sizeof_nacl_irt_mojo, embedder_irt_mojo toy toy_initial_handle, k);
  query_mgl irt k := (0, irt, k);
  query_mgl_onscreen irt k := (0, irt, k);
  query_mgl_signal_sync_point irt k := (0, irt, k);
|}.
Lemma nacl_system_served_witness : mojo_offered toy_initial_handle (nacl_init toy_state) ∧
  MojoClose 5 (nacl_init toy_state) = served toy_initial_handle (sys_Close 5) (nacl_init toy_state).
Proof.
  assert (mojo_offered toy_initial_handle (nacl_init toy_state)) as Hs by (by exists toy_state).
  split; [exact Hs|].
  apply (nacl_system_served toy_initial_handle (nacl_init toy_state) 5 0 0 0 0 0 None None None None None None Hs).
Defined.
