(* ===== verification/CppHandles.v ===== *)
(** * Handles and their owners in C++ (public/cpp/system)

    handle.h, buffer.h, message_pipe.h, data_pipe.h and [CreateWaitSet] of wait_set.h, over the system's C functions
    ([MojoSystem] of Thunks.v).  A [Handle] is its value.  A [ScopedHandleBase] is an
    object with a handle that it closes when it dies: the scopers that are alive have
    numbers, [scopers] maps them to their handles.  An argument that is passed by value
    is such an object, which dies when the function returns.

    [debug] says whether [assert]s are compiled in. *)
From stdpp Require Import base list numbers option gmap.
From S2P Require Import Prelude MojoResult System Codec Thunks.

Record Scopers (K : Type) := mkScopers {
  system : K;
  scopers : gmap nat Z;
  next_scoper : nat;  (** no scoper has had this number, or a later one *)
}.
Arguments mkScopers {_}.
Arguments system {_}.
Arguments scopers {_}.
Arguments next_scoper {_}.

(** What the wrappers of data pipe options read and write of the memory of the process *)
Class OptionsMemory (K : Type) := {
  store32_at : Z → Z → SM K unit;
  load32_at : Z → SM K Z;
}.

Section handles.
Context {K : Type} `{!MojoSystem K} `{!OptionsMemory K} (debug : bool).
Abbreviation M := (stateR (Scopers K)).

Definition sys {A} (f : SM K A) : M A := λ w,
  let '(a, k) := f (system w) in Ok (a, mkScopers k (scopers w) (next_scoper w)).
Definition assert (b : bool) : M unit := if debug then c_assert b else mret tt.

(** ** Handle *)
Definition kInvalidHandleValue : Z := MOJO_HANDLE_INVALID.
Definition is_valid (handle : Z) : bool := negb (handle =? kInvalidHandleValue).
Definition less (a b : Z) : bool := a <? b.

(** ** ScopedHandleBase *)
Definition handle_of (s : nat) : M Z := λ w,
  match scopers w !! s with None => Crash BadAccess | Some h => Ok (h, w) end.
Definition set_handle (s : nat) (handle : Z) : M unit := λ w,
  match scopers w !! s with
  | None => Crash BadAccess
  | Some _ => Ok (tt, mkScopers (system w) (<[s := handle]> (scopers w)) (next_scoper w))
  end.

Definition forget (s : nat) : M unit := λ w,
  Ok (tt, mkScopers (system w) (delete s (scopers w)) (next_scoper w)).

(** The constructors without an argument and from a handle *)
Definition ScopedHandleBase_of (handle : Z) : M nat := λ w,
  Ok (next_scoper w, mkScopers (system w) (<[next_scoper w := handle]> (scopers w)) (S (next_scoper w))).
Definition ScopedHandleBase : M nat := ScopedHandleBase_of kInvalidHandleValue.

Definition CloseIfNecessary (s : nat) : M unit :=
  handle ← handle_of s;
  if negb (is_valid handle) then mret tt
  else result ← sys (sys_Close handle); assert (result =? MOJO_RESULT_OK).

Definition ScopedHandleBase_destroy (s : nat) : M unit :=
  CloseIfNecessary s;; forget s.

Definition swap (s other : nat) : M unit :=
  handle ← handle_of s; other_handle ← handle_of other;
  set_handle s other_handle;; set_handle other handle.

Definition release (s : nat) : M Z :=
  rv ← handle_of s; set_handle s kInvalidHandleValue;; mret rv.

Definition reset (s : nat) (handle : Z) : M unit := CloseIfNecessary s;; set_handle s handle.

Definition get (s : nat) : M Z := handle_of s.
Definition scoper_is_valid (s : nat) : M bool := handle ← handle_of s; mret (is_valid handle).

(** The move constructor and assignment *)
Definition ScopedHandleBase_move (other : nat) : M nat :=
  handle ← release other; ScopedHandleBase_of handle.
Definition move_assign (s other : nat) : M unit :=
  if negb (bool_decide (other = s)) then
    CloseIfNecessary s;;
    handle ← release other;
    set_handle s handle
  else mret tt.

(** A scoper that is moved into an argument *)
Definition by_value {A} (other : nat) (f : nat → M A) : M A :=
  argument ← ScopedHandleBase_move other;
  a ← f argument;
  ScopedHandleBase_destroy argument;;
  mret a.

(** The constructor from a scoper of a compatible type, and [From] *)
Definition ScopedHandleBase_compatible (other : nat) : M nat :=
  by_value other (λ other, handle ← release other; ScopedHandleBase_of handle).
Definition From_ (other : nat) : M nat :=
  by_value other (λ other, handle ← release other; ScopedHandleBase_of handle).

Definition MakeScopedHandle (handle : Z) : M nat := ScopedHandleBase_of handle.

Definition Close (handle : nat) : M unit := by_value handle (λ _, mret tt).
Definition CloseRaw (handle : Z) : M Z := sys (sys_Close handle).

(** ** Rights, duplication and replacement *)
Definition GetRights (handle : Z) : M Z :=
  assert (is_valid handle);;
  '(result, rights) ← sys (sys_GetRights handle);
  assert (result =? MOJO_RESULT_OK);;
  mret (default 0 rights).

Definition ReplaceHandleWithReducedRights (handle : nat) (rights_to_remove : Z) : M bool :=
  valid ← scoper_is_valid handle;
  assert valid;;
  raw_handle ← release handle;
  '(result, new_raw_handle) ← sys (sys_ReplaceHandleWithReducedRights raw_handle rights_to_remove);
  if negb (result =? MOJO_RESULT_OK) then
    assert false;;
    CloseRaw raw_handle;;
    mret false
  else
  reset handle (default kInvalidHandleValue new_raw_handle);;
  mret true.

Definition DuplicateHandleWithReducedRights (handle rights_to_remove : Z) : M nat :=
  assert (is_valid handle);;
  '(result, new_handle) ← sys (sys_DuplicateHandleWithReducedRights handle rights_to_remove);
  assert (result =? MOJO_RESULT_OK);;
  MakeScopedHandle (default kInvalidHandleValue new_handle).

Definition DuplicateHandle (handle : Z) : M nat :=
  '(result, new_handle) ← sys (sys_DuplicateHandle handle);
  assert (result =? MOJO_RESULT_OK);;
  MakeScopedHandle (default kInvalidHandleValue new_handle).

(** ** Shared buffers (buffer.h) *)
Definition CreateSharedBuffer (options : option MojoCreateSharedBufferOptions) (num_bytes : Z) (shared_buffer : nat) : M Z :=
  '(rv, handle) ← sys (sys_CreateSharedBuffer options num_bytes);
  reset shared_buffer (default kInvalidHandleValue handle);;
  mret rv.

Definition MapBuffer (buffer offset num_bytes pointer flags : Z) : M Z :=
  assert (is_valid buffer);; sys (sys_MapBuffer buffer offset num_bytes pointer flags).
Definition UnmapBuffer (pointer : Z) : M Z :=
  assert (negb (pointer =? 0));; sys (sys_UnmapBuffer pointer).

(** The constructors of [SharedBuffer], [MessagePipe] and [DataPipe], with and without
    options *)
Definition SharedBuffer (num_bytes : Z) (options : option MojoCreateSharedBufferOptions) : M nat :=
  handle ← ScopedHandleBase;
  result ← CreateSharedBuffer options num_bytes handle;
  assert (result =? MOJO_RESULT_OK);;
  mret handle.

(** ** Wait sets (wait_set.h) *)
Definition CreateWaitSet (options : option MojoCreateWaitSetOptions) (wait_set : nat) : M Z :=
  '(rv, wait_set_handle) ← sys (sys_CreateWaitSet options);
  reset wait_set (default kInvalidHandleValue wait_set_handle);;
  mret rv.

(** ** Message pipes (message_pipe.h) *)
Definition CreateMessagePipe (options : option MojoCreateMessagePipeOptions) (message_pipe0 message_pipe1 : nat) : M Z :=
  '(rv, handles) ← sys (sys_CreateMessagePipe options);
  let '(handle0, handle1) := default (kInvalidHandleValue, kInvalidHandleValue) handles in
  reset message_pipe0 handle0;;
  reset message_pipe1 handle1;;
  mret rv.

Definition WriteMessageRaw (message_pipe bytes num_bytes handles num_handles flags : Z) : M Z :=
  sys (sys_WriteMessage message_pipe bytes num_bytes handles num_handles flags).
Definition ReadMessageRaw (message_pipe bytes num_bytes handles num_handles flags : Z) : M Z :=
  sys (sys_ReadMessage message_pipe bytes num_bytes handles num_handles flags).

Definition MessagePipe (options : option MojoCreateMessagePipeOptions) : M (nat * nat) :=
  handle0 ← ScopedHandleBase; handle1 ← ScopedHandleBase;
  result ← CreateMessagePipe options handle0 handle1;
  assert (result =? MOJO_RESULT_OK);;
  mret (handle0, handle1).

(** ** Data pipes (data_pipe.h) *)
Definition CreateDataPipe (options : option MojoCreateDataPipeOptions) (data_pipe_producer data_pipe_consumer : nat) : M Z :=
  '(rv, handles) ← sys (sys_CreateDataPipe options);
  let '(producer_handle, consumer_handle) := default (kInvalidHandleValue, kInvalidHandleValue) handles in
  reset data_pipe_producer producer_handle;;
  reset data_pipe_consumer consumer_handle;;
  mret rv.

Definition WriteDataRaw (data_pipe_producer elements num_bytes flags : Z) : M (Z * option Z) :=
  sys (sys_WriteData data_pipe_producer elements num_bytes flags).
Definition BeginWriteDataRaw (data_pipe_producer buffer flags : Z) : M (Z * option Z) :=
  sys (sys_BeginWriteData data_pipe_producer buffer flags).
Definition EndWriteDataRaw (data_pipe_producer num_bytes_written : Z) : M Z :=
  sys (sys_EndWriteData data_pipe_producer num_bytes_written).
Definition ReadDataRaw (data_pipe_consumer elements num_bytes flags : Z) : M (Z * option Z) :=
  sys (sys_ReadData data_pipe_consumer elements num_bytes flags).
Definition BeginReadDataRaw (data_pipe_consumer buffer flags : Z) : M (Z * option Z) :=
  sys (sys_BeginReadData data_pipe_consumer buffer flags).
Definition EndReadDataRaw (data_pipe_consumer num_bytes_read : Z) : M Z :=
  sys (sys_EndReadData data_pipe_consumer num_bytes_read).

(** The options are a local variable of 8 bytes at [options]: the size, then the
    threshold. *)
Definition sizeof_MojoDataPipeConsumerOptions : Z := 8.
Definition SetDataPipeConsumerOptionsToDefault (data_pipe_consumer : Z) : M Z :=
  sys (sys_SetDataPipeConsumerOptions data_pipe_consumer 0).
Definition SetDataPipeConsumerOptions (options data_pipe_consumer read_threshold_num_bytes : Z) : M Z :=
  sys (store32_at options sizeof_MojoDataPipeConsumerOptions);;
  sys (store32_at (options + 4) read_threshold_num_bytes);;
  sys (sys_SetDataPipeConsumerOptions data_pipe_consumer options).
Definition GetDataPipeConsumerOptions (options data_pipe_consumer : Z) : M (Z * option Z) :=
  sys (store32_at options 0);;
  sys (store32_at (options + 4) 0);;
  rv ← sys (sys_GetDataPipeConsumerOptions data_pipe_consumer options sizeof_MojoDataPipeConsumerOptions);
  if rv =? MOJO_RESULT_OK then
    read_threshold_num_bytes ← sys (load32_at (options + 4));
    mret (rv, Some read_threshold_num_bytes)
  else mret (rv, None).

Definition DataPipe (options : option MojoCreateDataPipeOptions) : M (nat * nat) :=
  producer_handle ← ScopedHandleBase; consumer_handle ← ScopedHandleBase;
  result ← CreateDataPipe options producer_handle consumer_handle;
  assert (result =? MOJO_RESULT_OK);;
  mret (producer_handle, consumer_handle).
End handles.
