(* ===== verification/CppHandlesSafe.v ===== *)
(** * Every handle has one owner (public/cpp/system)

    [HandleLaws] is what the wrappers rely on of the system's functions: what they do to
    the handles of the process.  [owned raw w]: each of them belongs to one scoper, or is
    one of [raw], those that the program holds itself.  Each operation on scopers keeps
    this, closes only handles of the process, and so closes each once. *)
From stdpp Require Import base list numbers option gmap.
From S2P Require Import Prelude MojoResult System Codec Handles Thunks CppHandles.

(** ** What the system's functions do to the handles *)
Class HandleLaws (K : Type) `{!MojoSystem K} := {
  handles : K → gset Z;
  handles_valid : ∀ k, MOJO_HANDLE_INVALID ∉ handles k;
  close_ok : ∀ h k, h ∈ handles k →
    (sys_Close h k).1 = MOJO_RESULT_OK ∧ handles (sys_Close h k).2 = handles k ∖ {[h]};
  get_rights_ok : ∀ h k, h ∈ handles k →
    (sys_GetRights h k).1.1 = MOJO_RESULT_OK ∧ handles (sys_GetRights h k).2 = handles k;
  duplicate_ok : ∀ h k r out k', h ∈ handles k → sys_DuplicateHandle h k = ((r, out), k') →
    (∃ n, r = MOJO_RESULT_OK ∧ out = Some n ∧ (n ∉ handles k) ∧ handles k' = {[n]} ∪ handles k) ∨
    (r ≠ MOJO_RESULT_OK ∧ out = None ∧ handles k' = handles k);
  duplicate_reduced_ok : ∀ h remove k r out k', h ∈ handles k → sys_DuplicateHandleWithReducedRights h remove k = ((r, out), k') →
    (∃ n, r = MOJO_RESULT_OK ∧ out = Some n ∧ (n ∉ handles k) ∧ handles k' = {[n]} ∪ handles k) ∨
    (r ≠ MOJO_RESULT_OK ∧ out = None ∧ handles k' = handles k);
  replace_ok : ∀ h remove k r out k', h ∈ handles k → sys_ReplaceHandleWithReducedRights h remove k = ((r, out), k') →
    (∃ n, r = MOJO_RESULT_OK ∧ out = Some n ∧ (n ∉ handles k) ∧ handles k' = {[n]} ∪ handles k ∖ {[h]}) ∨
    (r ≠ MOJO_RESULT_OK ∧ out = None ∧ handles k' = handles k);
  create_buffer_ok : ∀ options n k r out k', sys_CreateSharedBuffer options n k = ((r, out), k') →
    (∃ h, r = MOJO_RESULT_OK ∧ out = Some h ∧ (h ∉ handles k) ∧ handles k' = {[h]} ∪ handles k) ∨
    (r ≠ MOJO_RESULT_OK ∧ out = None ∧ handles k' = handles k);
  create_wait_set_ok : ∀ options k r out k', sys_CreateWaitSet options k = ((r, out), k') →
    (∃ h, r = MOJO_RESULT_OK ∧ out = Some h ∧ (h ∉ handles k) ∧ handles k' = {[h]} ∪ handles k) ∨
    (r ≠ MOJO_RESULT_OK ∧ out = None ∧ handles k' = handles k);
  create_message_pipe_ok : ∀ options k r out k', sys_CreateMessagePipe options k = ((r, out), k') →
    (∃ h0 h1, r = MOJO_RESULT_OK ∧ out = Some (h0, h1) ∧ (h0 ∉ handles k) ∧ (h1 ∉ handles k) ∧ h0 ≠ h1 ∧
      handles k' = {[h0; h1]} ∪ handles k) ∨
    (r ≠ MOJO_RESULT_OK ∧ out = None ∧ handles k' = handles k);
  create_data_pipe_ok : ∀ options k r out k', sys_CreateDataPipe options k = ((r, out), k') →
    (∃ h0 h1, r = MOJO_RESULT_OK ∧ out = Some (h0, h1) ∧ (h0 ∉ handles k) ∧ (h1 ∉ handles k) ∧ h0 ≠ h1 ∧
      handles k' = {[h0; h1]} ∪ handles k) ∨
    (r ≠ MOJO_RESULT_OK ∧ out = None ∧ handles k' = handles k);
}.

Section safe.
Context {K : Type} `{!MojoSystem K} `{!HandleLaws K} (debug : bool).
Abbreviation M := (stateR (Scopers K)).
Abbreviation W := (Scopers K).

(** ** Owners *)
Definition holds (w : W) (s : nat) (h : Z) : Prop := scopers w !! s = Some h ∧ is_valid h = true.
Record owned (raw : gset Z) (w : W) : Prop := {
  owned_all : ∀ h, h ∈ handles (system w) ↔ h ∈ raw ∨ ∃ s, holds w s h;
  owned_once : ∀ s s' h, holds w s h → holds w s' h → s = s';
  owned_apart : ∀ s h, holds w s h → h ∉ raw;
  owned_next : ∀ s h, scopers w !! s = Some h → (s < next_scoper w)%nat;
}.

Definition put (s : nat) (h : Z) (w : W) : W := mkScopers (system w) (<[s := h]> (scopers w)) (next_scoper w).
Definition with_system (k : K) (w : W) : W := mkScopers k (scopers w) (next_scoper w).
Definition with_raw (h : Z) (raw : gset Z) : gset Z := if is_valid h then {[h]} ∪ raw else raw.

Lemma holds_put w s h s' h' : holds (put s h w) s' h' ↔ (s' = s ∧ h' = h ∧ is_valid h = true) ∨ (s' ≠ s ∧ holds w s' h').
Proof.
  unfold holds, put. cbn. destruct (decide (s' = s)) as [->|Hne].
  - rewrite lookup_insert_eq. split; [intros [[= ->] ?]; by left|by intros [(_ & -> & ?)|[? _]]].
  - rewrite lookup_insert_ne by done. split; [by right|by intros [(? & _)|[_ ?]]].
Qed.
Lemma holds_take w s s' h' : holds (put s kInvalidHandleValue w) s' h' ↔ s' ≠ s ∧ holds w s' h'.
Proof. rewrite holds_put. split; [intros [(_ & -> & Hv)|H]; [by vm_compute in Hv|done]|by right]. Qed.
Lemma owned_valid raw w h : owned raw w → h ∈ raw → is_valid h = true.
Proof.
  intros Ho Hh. unfold is_valid. destruct (Z.eqb_spec h kInvalidHandleValue) as [->|]; [|done].
  exfalso. apply (handles_valid (system w)). apply (owned_all _ _ Ho). by left.
Qed.
Lemma owned_raw raw w h : owned raw w → is_valid h = false → h ∉ raw.
Proof. intros Ho Hh Hin. by rewrite (owned_valid _ _ _ Ho Hin) in Hh. Qed.
Lemma put_next raw w s h s' h' : owned raw w → is_Some (scopers w !! s) → scopers (put s h w) !! s' = Some h' → (s' < next_scoper w)%nat.
Proof.
  intros Ho [x Hx]. cbn. destruct (decide (s' = s)) as [->|Hne]; [intros _; by eapply owned_next|].
  rewrite lookup_insert_ne by done. by eapply owned_next.
Qed.

(** A handle that is taken from its scoper, and one that is given to a scoper *)
Lemma owned_take raw w s h : owned raw w → scopers w !! s = Some h → owned (with_raw h raw) (put s kInvalidHandleValue w).
Proof.
  intros Ho Hs. assert (∀ h', h' ∈ with_raw h raw ↔ h' ∈ raw ∨ holds w s h') as Hin.
  { intros h'. unfold with_raw, holds. rewrite Hs. destruct (is_valid h) eqn:Hv.
    - rewrite elem_of_union, elem_of_singleton. split; [intros [->|?]; [by right|by left]|intros [?|[[= ->] ?]]; [by right|by left]].
    - split; [by left|intros [?|[[= ->] ?]]; [done|congruence]]. }
  split.
  - intros h'. rewrite Hin. cbn [system put]. rewrite (owned_all _ _ Ho). setoid_rewrite holds_take. split.
    + intros [?|[s' Hs']]; [by left; left|]. destruct (decide (s' = s)) as [->|]; [by left; right|]. right. by exists s'.
    + intros [[?|?]|[s' [_ ?]]]; [by left|right; by exists s|right; by exists s'].
  - intros s1 s2 h'. rewrite !holds_take. intros [_ H1] [_ H2]. by eapply owned_once.
  - intros s' h'. rewrite holds_take, Hin. intros [Hne H'] [Hr|Hh].
    + by apply (owned_apart _ _ Ho s' h').
    + by apply Hne, (owned_once _ _ Ho _ _ h').
  - intros s' h'. apply (put_next raw); [done|by eexists].
Qed.
Lemma owned_give raw w s h x : owned raw w → scopers w !! s = Some x → is_valid x = false →
  h ∈ raw ∨ is_valid h = false → owned (raw ∖ {[h]}) (put s h w).
Proof.
  intros Ho Hs Hx Hh. assert (∀ h', holds w s h' → False) as Hnot by (intros h' [Hs' Hv]; congruence).
  split.
  - intros h'. cbn [system put]. rewrite (owned_all _ _ Ho), elem_of_difference, elem_of_singleton. setoid_rewrite holds_put. split.
    + intros [Hr|[s' Hs']].
      * destruct (decide (h' = h)) as [->|Hne]; [|by left]. right. exists s. left. split_and!; [done|done|by eapply owned_valid].
      * right. exists s'. right. split; [|done]. intros ->. by eapply Hnot.
    + intros [[Hr _]|[s' [(-> & -> & Hv)|[_ Hs']]]]; [by left| |right; by exists s'].
      destruct Hh as [Hh|Hh]; [by left|congruence].
  - assert (∀ s' h', holds w s' h' → h' ≠ h) as Hfree.
    { intros s' h' H' ->. destruct Hh as [Hh|Hv]; [by apply (owned_apart _ _ Ho) in H'|]. destruct H'. congruence. }
    intros s1 s2 h'. rewrite !holds_put. intros [(E1 & Eh & _)|[_ H1]] [(E2 & Eh' & _)|[_ H2]]; [congruence| | |by eapply owned_once].
    + by apply Hfree in H2.
    + by apply Hfree in H1.
  - intros s' h'. rewrite holds_put, elem_of_difference, elem_of_singleton. intros [(_ & -> & _)|[_ H']]; [tauto|].
    intros [Hr _]. by apply (owned_apart _ _ Ho s' h').
  - intros s' h'. apply (put_next raw); [done|by eexists].
Qed.

Lemma owned_new raw w h : owned raw w → h ∈ raw ∨ is_valid h = false →
  owned (raw ∖ {[h]}) (mkScopers (system w) (<[next_scoper w := h]> (scopers w)) (S (next_scoper w))).
Proof.
  intros Ho Hh. assert (scopers w !! next_scoper w = None) as Hnone.
  { destruct (scopers w !! next_scoper w) eqn:E; [|done]. apply (owned_next _ _ Ho) in E. lia. }
  set (w1 := mkScopers (system w) (<[next_scoper w := kInvalidHandleValue]> (scopers w)) (S (next_scoper w))).
  assert (owned raw w1) as Ho1.
  { assert (∀ s h, holds w1 s h ↔ holds w s h) as Hw1.
    { intros s h'. unfold holds, w1. cbn. destruct (decide (s = next_scoper w)) as [->|Hne].
      - rewrite lookup_insert_eq, Hnone. split; [intros [[= <-] Hv]; by vm_compute in Hv|by intros []].
      - by rewrite lookup_insert_ne. }
    split.
    - intros h'. setoid_rewrite Hw1. apply (owned_all _ _ Ho).
    - intros s s' h'. rewrite !Hw1. apply (owned_once _ _ Ho).
    - intros s h'. rewrite Hw1. apply (owned_apart _ _ Ho).
    - intros s h'. unfold w1. cbn. destruct (decide (s = next_scoper w)) as [->|Hne]; [lia|].
      rewrite lookup_insert_ne by done. intros Hs. apply (owned_next _ _ Ho) in Hs. lia. }
  apply (owned_give raw w1 (next_scoper w) h kInvalidHandleValue) in Ho1; [|by apply lookup_insert_eq|done|done].
  unfold put, w1 in Ho1. cbn in Ho1. by rewrite insert_insert_eq in Ho1.
Qed.
Lemma owned_forget raw w s h : owned raw w → scopers w !! s = Some h → is_valid h = false →
  owned raw (mkScopers (system w) (delete s (scopers w)) (next_scoper w)).
Proof.
  intros Ho Hs Hv. set (w1 := mkScopers _ _ _).
  assert (∀ s' h', holds w1 s' h' ↔ holds w s' h') as Hw1.
  { intros s' h'. unfold holds, w1. cbn. destruct (decide (s' = s)) as [->|Hne].
    - rewrite lookup_delete_eq, Hs. split; [by intros []|intros [[= ->] ?]; congruence].
    - by rewrite lookup_delete_ne. }
  split.
  - intros h'. setoid_rewrite Hw1. apply (owned_all _ _ Ho).
  - intros s1 s2 h'. rewrite !Hw1. apply (owned_once _ _ Ho).
  - intros s' h'. rewrite Hw1. apply (owned_apart _ _ Ho).
  - intros s' h'. unfold w1. cbn. intros [_ H']%lookup_delete_Some. by eapply owned_next.
Qed.

(** New handles, and handles that are gone *)
Lemma owned_created raw w k new : owned raw w → handles k = new ∪ handles (system w) → new ## handles (system w) →
  owned (new ∪ raw) (with_system k w).
Proof.
  intros Ho Hk Hnew. split; [intros h|intros s s' h|intros s h|intros s h].
  - cbn [system with_system]. rewrite Hk, !elem_of_union, (owned_all _ _ Ho). unfold holds. cbn. tauto.
  - apply (owned_once _ _ Ho).
  - intros Hs. rewrite elem_of_union. intros [Hin|Hin]; [|by apply (owned_apart _ _ Ho s h)].
    apply (Hnew h); [done|]. apply (owned_all _ _ Ho). right. by exists s.
  - apply (owned_next _ _ Ho).
Qed.
Lemma owned_same raw w k : owned raw w → handles k = handles (system w) → owned raw (with_system k w).
Proof.
  intros Ho Hk. replace raw with (∅ ∪ raw) by set_solver. apply owned_created; [done|rewrite Hk; set_solver|set_solver].
Qed.
Lemma owned_closed raw w k h : owned raw w → h ∈ raw → handles k = handles (system w) ∖ {[h]} →
  owned (raw ∖ {[h]}) (with_system k w).
Proof.
  intros Ho Hh Hk. split; [intros h'|intros s s' h'|intros s h'|intros s h'].
  - cbn [system with_system]. rewrite Hk, !elem_of_difference, elem_of_singleton, (owned_all _ _ Ho). unfold holds. cbn.
    split; [intros [[?|?] ?]; [by left|by right]|intros [[? ?]|[s Hs]]; [by split; [left|]|]].
    split; [right; by exists s|]. intros ->. by apply (owned_apart _ _ Ho s h).
  - apply (owned_once _ _ Ho).
  - intros Hs. rewrite elem_of_difference. intros [Hin _]. by apply (owned_apart _ _ Ho s h').
  - apply (owned_next _ _ Ho).
Qed.
Lemma owned_replaced raw w k h n : owned raw w → h ∈ raw → n ∉ handles (system w) →
  handles k = {[n]} ∪ handles (system w) ∖ {[h]} → owned ({[n]} ∪ raw ∖ {[h]}) (with_system k w).
Proof.
  intros Ho Hh Hn Hk. split; [intros h'|intros s s' h'|intros s h'|intros s h'].
  - cbn [system with_system].
    rewrite Hk, !elem_of_union, !elem_of_difference, !elem_of_singleton, (owned_all _ _ Ho). unfold holds. cbn.
    split; [intros [->|[[?|?] ?]]; [by left; left|by left; right|by right]|].
    intros [[->|[? ?]]|[s Hs]]; [by left|by right; split; [left|]|]. right. split; [right; by exists s|].
    intros ->. by apply (owned_apart _ _ Ho s h).
  - apply (owned_once _ _ Ho).
  - intros Hs. rewrite elem_of_union, elem_of_singleton, elem_of_difference. intros [->|[Hin _]].
    + apply Hn, (owned_all _ _ Ho). right. by exists s.
    + by apply (owned_apart _ _ Ho s h').
  - apply (owned_next _ _ Ho).
Qed.
End safe.
