(* ===== verification/CppHandlesOps.v ===== *)
(** * The operations on scopers keep each handle owned once (public/cpp/system)

    What each operation of CppHandles.v does to the scopers, to the handles that the
    program holds itself, and to those of the process. *)
From stdpp Require Import base list numbers option gmap.
From S2P Require Import Prelude MojoResult System Codec Handles Thunks CppHandles CppHandlesSafe.

Section ops.
Context {K : Type} `{!MojoSystem K} `{!HandleLaws K} (debug : bool).
Abbreviation M := (stateR (Scopers K)).
Abbreviation W := (Scopers K).

Definition fresh_scoper (h : Z) (w : W) : W := mkScopers (system w) (<[next_scoper w := h]> (scopers w)) (S (next_scoper w)).

Lemma with_raw_without h raw : h ∉ raw → with_raw h raw ∖ {[h]} = raw.
Proof. unfold with_raw. destruct (is_valid h); set_solver. Qed.
Lemma with_raw_has h raw : h ∈ with_raw h raw ∨ is_valid h = false.
Proof. unfold with_raw. destruct (is_valid h); [left; set_solver|by right]. Qed.
Lemma owned_without raw w s h : owned raw w → scopers w !! s = Some h → h ∉ raw.
Proof.
  intros Ho Hs. destruct (is_valid h) eqn:Hv; [|by eapply owned_raw]. by apply (owned_apart _ _ Ho s h).
Qed.
Lemma assert_true {A} (k : M A) (w : W) : (assert debug true;; k) w = k w.
Proof. by destruct debug. Qed.
Lemma handle_of_runs (w : W) s h : scopers w !! s = Some h → handle_of s w = Ok (h, w).
Proof. unfold handle_of. by intros ->. Qed.
Lemma set_handle_runs (w : W) s h : is_Some (scopers w !! s) → set_handle s h w = Ok (tt, put s h w).
Proof. unfold set_handle. by intros [x ->]. Qed.

(** ** Closing *)
Lemma CloseIfNecessary_runs raw w s h : owned raw w → scopers w !! s = Some h →
  ∃ k, CloseIfNecessary debug s w = Ok (tt, with_system k w) ∧ owned raw (put s kInvalidHandleValue (with_system k w)).
Proof.
  intros Ho Hs. pose proof (owned_take _ _ _ _ Ho Hs) as Ht. pose proof (owned_without _ _ _ _ Ho Hs) as Hnot.
  unfold CloseIfNecessary. rewrite (bindS_Ok _ _ _ _ _ (handle_of_runs _ _ _ Hs)). unfold with_raw in Ht.
  destruct (is_valid h) eqn:Hv; cbn [negb]; [|by exists (system w); destruct w].
  assert (h ∈ handles (system w)) as Hlive by (apply (owned_all _ _ Ho); right; by exists s).
  destruct (close_ok h (system w) Hlive) as [Hr Hk]. exists (sys_Close h (system w)).2. split.
  - unfold sys, mbind, stateR_bind. destruct (sys_Close h (system w)) as [r k]. cbn in Hr |- *. rewrite Hr. by destruct debug.
  - apply (owned_closed _ _ (sys_Close h (system w)).2 h) in Ht; [|set_solver|done].
    replace (({[h]} ∪ raw) ∖ {[h]}) with raw in Ht by set_solver. exact Ht.
Qed.

Lemma destroy_runs raw w s h : owned raw w → scopers w !! s = Some h →
  ∃ w', ScopedHandleBase_destroy debug s w = Ok (tt, w') ∧ owned raw w' ∧ scopers w' = delete s (scopers w).
Proof.
  intros Ho Hs. destruct (CloseIfNecessary_runs raw w s h Ho Hs) as (k & He & Hk).
  unfold ScopedHandleBase_destroy. rewrite (bindS_Ok _ _ _ _ _ He). eexists. split; [done|]. split; [|done].
  apply (owned_forget _ _ s kInvalidHandleValue) in Hk; [|by apply lookup_insert_eq|done].
  unfold put in Hk. cbn in Hk. by rewrite delete_insert_eq in Hk.
Qed.

Lemma reset_runs raw w s h x : owned raw w → scopers w !! s = Some x → h ∈ raw ∨ is_valid h = false →
  ∃ k, reset debug s h w = Ok (tt, put s h (with_system k w)) ∧ owned (raw ∖ {[h]}) (put s h (with_system k w)).
Proof.
  intros Ho Hs Hh. destruct (CloseIfNecessary_runs raw w s x Ho Hs) as (k & He & Hk). exists k. split.
  - unfold reset. rewrite (bindS_Ok _ _ _ _ _ He). apply set_handle_runs. by exists x.
  - apply (owned_give _ _ s h kInvalidHandleValue) in Hk; [|by apply lookup_insert_eq|done|done].
    unfold put in Hk |- *. cbn in Hk |- *. by rewrite insert_insert_eq in Hk.
Qed.

(** ** Giving and taking *)
Lemma release_runs (w : W) s h : scopers w !! s = Some h → release s w = Ok (h, put s kInvalidHandleValue w).
Proof.
  intros Hs. unfold release. rewrite (bindS_Ok _ _ _ _ _ (handle_of_runs _ _ _ Hs)).
  by rewrite (bindS_Ok _ _ _ _ _ (set_handle_runs w s kInvalidHandleValue ltac:(by eexists))).
Qed.
Lemma move_runs raw w other h : owned raw w → scopers w !! other = Some h →
  ScopedHandleBase_move other w = Ok (next_scoper w, fresh_scoper h (put other kInvalidHandleValue w)) ∧
  owned raw (fresh_scoper h (put other kInvalidHandleValue w)).
Proof.
  intros Ho Hs. split.
  - unfold ScopedHandleBase_move. by rewrite (bindS_Ok _ _ _ _ _ (release_runs _ _ _ Hs)).
  - pose proof (owned_take _ _ _ _ Ho Hs) as Ht. apply (owned_new _ _ h) in Ht; [|apply with_raw_has].
    rewrite with_raw_without in Ht; [exact Ht|by eapply owned_without].
Qed.
Lemma next_fresh raw (w : W) : owned raw w → scopers w !! next_scoper w = None.
Proof. intros Ho. destruct (scopers w !! next_scoper w) eqn:E; [|done]. apply (owned_next _ _ Ho) in E. lia. Qed.

Lemma Close_runs raw w s h : owned raw w → scopers w !! s = Some h →
  ∃ w', Close debug s w = Ok (tt, w') ∧ owned raw w'.
Proof.
  intros Ho Hs. destruct (move_runs raw w s h Ho Hs) as [He Hw].
  destruct (destroy_runs raw _ (next_scoper w) h Hw (lookup_insert_eq _ _ _)) as (w' & He' & Hw' & _).
  exists w'. split; [|done]. unfold Close, by_value. rewrite (bindS_Ok _ _ _ _ _ He). cbn [mret].
  unfold mbind at 1, stateR_bind at 1. cbn [mret stateR_ret]. by rewrite (bindS_Ok _ _ _ _ _ He').
Qed.
Lemma compatible_runs raw w s h : owned raw w → scopers w !! s = Some h →
  ∃ w', ScopedHandleBase_compatible debug s w = Ok (S (next_scoper w), w') ∧ owned raw w'.
Proof.
  intros Ho Hs. destruct (move_runs raw w s h Ho Hs) as [He Hw]. set (w1 := fresh_scoper h _) in *.
  assert (scopers w1 !! next_scoper w = Some h) as H1 by apply lookup_insert_eq.
  destruct (move_runs raw w1 (next_scoper w) h Hw H1) as [He2 Hw2].
  destruct (destroy_runs raw _ (next_scoper w) kInvalidHandleValue Hw2) as (w' & He' & Hw' & _).
  { cbn. rewrite lookup_insert_ne by lia. by rewrite lookup_insert_eq. }
  exists w'. split; [|done]. unfold ScopedHandleBase_compatible, by_value. rewrite (bindS_Ok _ _ _ _ _ He).
  unfold ScopedHandleBase_move in He2. rewrite (bindS_Ok _ _ _ _ _ He2). by rewrite (bindS_Ok _ _ _ _ _ He').
Qed.

Lemma move_assign_runs raw w s other x h : owned raw w → scopers w !! s = Some x → scopers w !! other = Some h →
  ∃ w', move_assign debug s other w = Ok (tt, w') ∧ owned raw w'.
Proof.
  intros Ho Hs Hother. unfold move_assign. case_bool_decide as Hne; cbn [negb]; [by exists w|].
  destruct (CloseIfNecessary_runs raw w s x Ho Hs) as (k & He & Hk). rewrite (bindS_Ok _ _ _ _ _ He).
  rewrite (bindS_Ok _ _ _ _ _ (release_runs (with_system k w) other h Hother)). rewrite set_handle_runs.
  2:{ cbn. rewrite lookup_insert_ne by done. by exists x. }
  eexists. split; [done|].
  assert (scopers (put s kInvalidHandleValue (with_system k w)) !! other = Some h) as Hother2 by (cbn; by rewrite lookup_insert_ne).
  pose proof (owned_take _ _ _ _ Hk Hother2) as Ht.
  apply (owned_give _ _ s h kInvalidHandleValue) in Ht; [| |done|apply with_raw_has].
  - rewrite with_raw_without in Ht by (by eapply owned_without). unfold put in Ht |- *. cbn in Ht |- *.
    rewrite (insert_insert_ne _ other s) in Ht by done. by rewrite insert_insert_eq in Ht.
  - cbn. rewrite lookup_insert_ne by done. by rewrite lookup_insert_eq.
Qed.

Lemma lookup_put_ne (w : W) s s' h : s ≠ s' → scopers (put s h w) !! s' = scopers w !! s'.
Proof. intros Hne. by apply lookup_insert_ne. Qed.
Lemma lookup_put (w : W) s h : scopers (put s h w) !! s = Some h.
Proof. apply lookup_insert_eq. Qed.

Lemma swap_runs raw w s other x y : owned raw w → scopers w !! s = Some x → scopers w !! other = Some y →
  ∃ w', swap s other w = Ok (tt, w') ∧ owned raw w'.
Proof.
  intros Ho Hs Hother. unfold swap. rewrite (bindS_Ok _ _ _ _ _ (handle_of_runs _ _ _ Hs)), (bindS_Ok _ _ _ _ _ (handle_of_runs _ _ _ Hother)).
  rewrite (bindS_Ok _ _ _ _ _ (set_handle_runs w s y ltac:(by eexists))). rewrite set_handle_runs.
  2:{ destruct (decide (s = other)) as [->|Hne]; [by rewrite lookup_put; eexists|rewrite lookup_put_ne by done; by eexists]. }
  eexists. split; [done|]. pose proof (owned_take _ _ _ _ Ho Hs) as Ht1.
  destruct (decide (s = other)) as [->|Hne].
  - assert (x = y) as -> by congruence. unfold put. cbn. rewrite insert_insert_eq. by rewrite insert_id; [destruct w|].
  - rewrite <- (lookup_put_ne w s other kInvalidHandleValue) in Hother by done.
    pose proof (owned_take _ _ _ _ Ht1 Hother) as Ht2.
    apply (owned_give _ _ s y kInvalidHandleValue) in Ht2;
      [|by rewrite lookup_put_ne by done; apply lookup_put|done|apply with_raw_has].
    rewrite with_raw_without in Ht2 by (by eapply owned_without).
    apply (owned_give _ _ other x kInvalidHandleValue) in Ht2;
      [|by rewrite lookup_put_ne by done; apply lookup_put|done|apply with_raw_has].
    rewrite with_raw_without in Ht2 by (by eapply owned_without). unfold put in Ht2 |- *. cbn in Ht2 |- *.
    rewrite (insert_insert_ne _ other s), insert_insert_eq, (insert_insert_ne _ other s), insert_insert_eq in Ht2 by done.
    by rewrite (insert_insert_ne _ other s) by done.
Qed.

(** ** New handles *)
Lemma sys_runs {A} (f : SM K A) (w : W) : sys f w = Ok ((f (system w)).1, with_system (f (system w)).2 w).
Proof. unfold sys. by destruct (f (system w)). Qed.
(** A new handle, or none, and what it becomes in a scoper that is reset to it *)
Definition made (new : option Z) (k k' : K) : Prop :=
  match new with
  | Some h => (h ∉ handles k) ∧ handles k' = {[h]} ∪ handles k
  | None => handles k' = handles k
  end.
Lemma owned_made raw w new k : owned raw w → made new (system w) k →
  owned (default raw ((λ h, {[h]} ∪ raw) <$> new)) (with_system k w) ∧
  (default kInvalidHandleValue new ∈ default raw ((λ h, {[h]} ∪ raw) <$> new) ∨ is_valid (default kInvalidHandleValue new) = false) ∧
  default raw ((λ h, {[h]} ∪ raw) <$> new) ∖ {[default kInvalidHandleValue new]} = raw.
Proof.
  intros Ho. destruct new as [h|]; cbn.
  - intros [Hnew Hk]. split; [apply owned_created; [done|done|set_solver]|]. split; [left; set_solver|].
    assert (h ∉ raw) by (intros Hin; apply Hnew, (owned_all _ _ Ho); by left). set_solver.
  - intros Hk. split; [by apply owned_same|]. split; [by right|]. assert (kInvalidHandleValue ∉ raw) by (by eapply owned_raw). set_solver.
Qed.
Lemma reset_made raw w s x new k : owned raw w → scopers w !! s = Some x → made new (system w) k →
  ∃ k', reset debug s (default kInvalidHandleValue new) (with_system k w) = Ok (tt, put s (default kInvalidHandleValue new) (with_system k' w)) ∧
    owned raw (put s (default kInvalidHandleValue new) (with_system k' w)).
Proof.
  intros Ho Hs Hm. destruct (owned_made _ _ _ _ Ho Hm) as (Ho2 & Hin & Heq).
  destruct (reset_runs _ (with_system k w) s _ x Ho2 Hs Hin) as (k' & He & Hk'). exists k'. rewrite Heq in Hk'. done.
Qed.

Lemma make_scoped raw w new k : owned raw w → made new (system w) k →
  ∃ w', MakeScopedHandle (default kInvalidHandleValue new) (with_system k w) = Ok (next_scoper w, w') ∧ owned raw w'.
Proof.
  intros Ho Hm. destruct (owned_made _ _ _ _ Ho Hm) as (Ho2 & Hin & Heq). eexists. split; [done|].
  apply (owned_new _ _ (default kInvalidHandleValue new)) in Ho2; [|done]. by rewrite Heq in Ho2.
Qed.
End ops.
