(* ===== verification/CppHandlesOwners.v ===== *)
(** * Programs over scopers (public/cpp/system)

    [Op]: what a program may do with scopers and with the handles it holds itself,
    [raw_after]: which handles it holds then.  [op_ok] is what it owes the operations: it
    uses scopers that are alive, and gives and closes only handles that it holds itself.
    With [assert]s compiled in, the system must not fail where the code asserts that it
    does not. *)
From stdpp Require Import base list numbers option gmap.
From S2P Require Import Prelude MojoResult System Codec Handles Thunks CppHandles CppHandlesSafe CppHandlesOps.

Inductive Op :=
| ODefault
| OMake (handle : Z)
| ODestroy (s : nat)
| OMove (s : nat)
| OConvert (s : nat)
| OFrom (s : nat)
| OAssign (s other : nat)
| OSwap (s other : nat)
| ORelease (s : nat)
| OReset (s : nat) (handle : Z)
| OClose (s : nat)
| OCloseRaw (handle : Z)
| OGetRights (handle : Z)
| OReplace (s : nat) (rights_to_remove : Z)
| ODuplicateReduced (handle rights_to_remove : Z)
| ODuplicate (handle : Z)
| OCreateSharedBuffer (options : option MojoCreateSharedBufferOptions) (num_bytes : Z) (s : nat)
| OCreateWaitSet (options : option MojoCreateWaitSetOptions) (s : nat)
| OCreateMessagePipe (options : option MojoCreateMessagePipeOptions) (s0 s1 : nat)
| OCreateDataPipe (options : option MojoCreateDataPipeOptions) (s0 s1 : nat).

Section owners.
Context {K : Type} `{!MojoSystem K} (debug : bool).
Abbreviation M := (stateR (Scopers K)).
Abbreviation W := (Scopers K).

Definition run_op (op : Op) : M unit :=
  match op with
  | ODefault => ScopedHandleBase;; mret tt
  | OMake h => MakeScopedHandle h;; mret tt
  | ODestroy s => ScopedHandleBase_destroy debug s
  | OMove s => ScopedHandleBase_move s;; mret tt
  | OConvert s => ScopedHandleBase_compatible debug s;; mret tt
  | OFrom s => From_ debug s;; mret tt
  | OAssign s other => move_assign debug s other
  | OSwap s other => swap s other
  | ORelease s => release s;; mret tt
  | OReset s h => reset debug s h
  | OClose s => Close debug s
  | OCloseRaw h => CloseRaw h;; mret tt
  | OGetRights h => GetRights debug h;; mret tt
  | OReplace s r => ReplaceHandleWithReducedRights debug s r;; mret tt
  | ODuplicateReduced h r => DuplicateHandleWithReducedRights debug h r;; mret tt
  | ODuplicate h => DuplicateHandle debug h;; mret tt
  | OCreateSharedBuffer o n s => CreateSharedBuffer debug o n s;; mret tt
  | OCreateWaitSet o s => CreateWaitSet debug o s;; mret tt
  | OCreateMessagePipe o s0 s1 => CreateMessagePipe debug o s0 s1;; mret tt
  | OCreateDataPipe o s0 s1 => CreateDataPipe debug o s0 s1;; mret tt
  end.

Context `{!HandleLaws K}.

Definition raw_after (op : Op) (raw : gset Z) (w : W) : gset Z :=
  match op with
  | OMake h | OReset _ h | OCloseRaw h => raw ∖ {[h]}
  | ORelease s => match scopers w !! s with Some h => with_raw h raw | None => raw end
  | _ => raw
  end.

Definition alive (w : W) (s : nat) : Prop := is_Some (scopers w !! s).
Definition op_ok (op : Op) (raw : gset Z) (w : W) : Prop :=
  match op with
  | ODefault => True
  | OMake h => h ∈ raw ∨ h = kInvalidHandleValue
  | ODestroy s | OMove s | OConvert s | OFrom s | ORelease s | OClose s => alive w s
  | OAssign s other | OSwap s other => alive w s ∧ alive w other
  | OReset s h => alive w s ∧ (h ∈ raw ∨ h = kInvalidHandleValue)
  | OCloseRaw h => h ∈ raw
  | OGetRights h => h ∈ handles (system w)
  | OReplace s r => ∃ h, holds w s h ∧
      (debug = true → (sys_ReplaceHandleWithReducedRights h r (system w)).1.1 = MOJO_RESULT_OK)
  | ODuplicateReduced h r => h ∈ handles (system w) ∧
      (debug = true → (sys_DuplicateHandleWithReducedRights h r (system w)).1.1 = MOJO_RESULT_OK)
  | ODuplicate h => h ∈ handles (system w) ∧ (debug = true → (sys_DuplicateHandle h (system w)).1.1 = MOJO_RESULT_OK)
  | OCreateSharedBuffer _ _ s | OCreateWaitSet _ s => alive w s
  | OCreateMessagePipe _ s0 s1 | OCreateDataPipe _ s0 s1 => alive w s0 ∧ alive w s1
  end.

Lemma assert_ok {A} (b : bool) (k : M A) (w : W) : (debug = true → b = true) → (assert debug b;; k) w = k w.
Proof. unfold assert. destruct debug; [|done]. by intros ->. Qed.
Lemma handles_valid_ok k h : h ∈ handles k → is_valid h = true.
Proof.
  intros Hh. unfold is_valid. destruct (Z.eqb_spec h kInvalidHandleValue) as [->|]; [|done]. by destruct (handles_valid k).
Qed.

(** *** Rights, duplication and replacement *)
Lemma GetRights_runs raw (w : W) h : owned raw w → h ∈ handles (system w) →
  ∃ r w', GetRights debug h w = Ok (r, w') ∧ owned raw w'.
Proof.
  intros Ho Hh. destruct (get_rights_ok h (system w) Hh) as [Hr Hk]. unfold GetRights.
  rewrite (handles_valid_ok _ _ Hh), assert_true, (bindS_Ok _ _ _ _ _ (sys_runs _ _)).
  destruct (sys_GetRights h (system w)) as [[r rights] k] eqn:E. cbn in Hr, Hk |- *. rewrite Hr, assert_true.
  do 2 eexists. split; [done|]. by apply owned_same.
Qed.

Definition made_by (r : Z) (out : option Z) (k k' : K) : Prop := (r = MOJO_RESULT_OK ↔ is_Some out) ∧ made out k k'.
Lemma duplicate_made (k k' : K) r out :
  (∃ n, r = MOJO_RESULT_OK ∧ out = Some n ∧ (n ∉ handles k) ∧ handles k' = {[n]} ∪ handles k) ∨
    (r ≠ MOJO_RESULT_OK ∧ out = None ∧ handles k' = handles k) → made out k k'.
Proof. by intros [(n & _ & -> & Hn & Hk)|(_ & -> & Hk)]. Qed.

Lemma DuplicateReduced_runs raw (w : W) h remove : owned raw w → h ∈ handles (system w) →
  (debug = true → (sys_DuplicateHandleWithReducedRights h remove (system w)).1.1 = MOJO_RESULT_OK) →
  ∃ s w', DuplicateHandleWithReducedRights debug h remove w = Ok (s, w') ∧ owned raw w'.
Proof.
  intros Ho Hh Hok. unfold DuplicateHandleWithReducedRights.
  rewrite (handles_valid_ok _ _ Hh), assert_true, (bindS_Ok _ _ _ _ _ (sys_runs _ _)).
  destruct (sys_DuplicateHandleWithReducedRights h remove (system w)) as [[r out] k] eqn:E. cbn in Hok |- *.
  rewrite assert_ok by (intros Hd; by rewrite Hok).
  destruct (make_scoped raw w out k Ho) as (w' & He & Hw'); [by eapply duplicate_made, duplicate_reduced_ok|]. eauto.
Qed.
Lemma Duplicate_runs raw (w : W) h : owned raw w → h ∈ handles (system w) →
  (debug = true → (sys_DuplicateHandle h (system w)).1.1 = MOJO_RESULT_OK) →
  ∃ s w', DuplicateHandle debug h w = Ok (s, w') ∧ owned raw w'.
Proof.
  intros Ho Hh Hok. unfold DuplicateHandle. rewrite (bindS_Ok _ _ _ _ _ (sys_runs _ _)).
  destruct (sys_DuplicateHandle h (system w)) as [[r out] k] eqn:E. cbn in Hok |- *.
  rewrite assert_ok by (intros Hd; by rewrite Hok).
  destruct (make_scoped raw w out k Ho) as (w' & He & Hw'); [by eapply duplicate_made, duplicate_ok|]. eauto.
Qed.

(** On failure the old handle is closed. *)
Lemma Replace_runs raw (w : W) s h remove : owned raw w → holds w s h →
  (debug = true → (sys_ReplaceHandleWithReducedRights h remove (system w)).1.1 = MOJO_RESULT_OK) →
  ∃ b w', ReplaceHandleWithReducedRights debug s remove w = Ok (b, w') ∧ owned raw w'.
Proof.
  intros Ho [Hs Hv] Hok. pose proof (owned_take _ _ _ _ Ho Hs) as Ht. pose proof (owned_without _ _ _ _ Ho Hs) as Hnot.
  assert (h ∈ handles (system w)) as Hlive by (apply (owned_all _ _ Ho); right; by exists s).
  unfold ReplaceHandleWithReducedRights, scoper_is_valid.
  rewrite (bindS_Ok _ _ _ true w) by (rewrite (bindS_Ok _ _ _ _ _ (handle_of_runs _ _ _ Hs)), Hv; done).
  rewrite assert_true, (bindS_Ok _ _ _ _ _ (release_runs _ _ _ Hs)), (bindS_Ok _ _ _ _ _ (sys_runs _ _)). cbn [system put].
  unfold with_raw in Ht. rewrite Hv in Ht.
  destruct (sys_ReplaceHandleWithReducedRights h remove (system w)) as [[r out] k] eqn:E. cbn in Hok |- *.
  destruct (replace_ok h remove (system w) r out k Hlive E) as [(n & -> & -> & Hn & Hk)|(Hr & -> & Hk)].
  - rewrite Z.eqb_refl. cbn [negb].
    apply (owned_replaced _ _ k h n) in Ht; [|set_solver|done|done].
    replace ({[n]} ∪ ({[h]} ∪ raw) ∖ {[h]}) with ({[n]} ∪ raw) in Ht by set_solver.
    destruct (reset_runs debug _ (with_system k (put s kInvalidHandleValue w)) s n kInvalidHandleValue Ht) as (k' & He & Hk').
    { apply lookup_insert_eq. }
    { left. set_solver. }
    replace (({[n]} ∪ raw) ∖ {[n]}) with raw in Hk'.
    2:{ assert (n ∉ raw) by (intros Hin; apply Hn, (owned_all _ _ Ho); by left). set_solver. }
    cbn [default]. rewrite (bindS_Ok _ _ _ _ _ He). do 2 eexists. done.
  - destruct (Z.eqb_spec r MOJO_RESULT_OK) as [->|_]; [done|]. cbn [negb].
    rewrite assert_ok by (intros Hd; exfalso; by apply Hr, Hok).
    assert (h ∈ handles k) as Hlive2 by (by rewrite Hk). destruct (close_ok h k Hlive2) as [_ Hk2].
    unfold CloseRaw. rewrite (bindS_Ok _ _ _ _ _ (sys_runs _ _)). do 2 eexists. split; [done|].
    apply (owned_closed _ _ (sys_Close h k).2 h) in Ht; [|set_solver|cbn; by rewrite Hk2, Hk].
    by replace (({[h]} ∪ raw) ∖ {[h]}) with raw in Ht by set_solver.
Qed.

(** *** Creation *)
Lemma CreateSharedBuffer_runs raw (w : W) o n s x : owned raw w → scopers w !! s = Some x →
  ∃ r w', CreateSharedBuffer debug o n s w = Ok (r, w') ∧ owned raw w'.
Proof.
  intros Ho Hs. unfold CreateSharedBuffer. rewrite (bindS_Ok _ _ _ _ _ (sys_runs _ _)).
  destruct (sys_CreateSharedBuffer o n (system w)) as [[r out] k] eqn:E. cbn.
  destruct (reset_made debug raw w s x out k Ho Hs) as (k' & He & Hk'); [by eapply duplicate_made, create_buffer_ok|].
  rewrite (bindS_Ok _ _ _ _ _ He). do 2 eexists. done.
Qed.

Lemma CreateWaitSet_runs raw (w : W) o s x : owned raw w → scopers w !! s = Some x →
  ∃ r w', CreateWaitSet debug o s w = Ok (r, w') ∧ owned raw w'.
Proof.
  intros Ho Hs. unfold CreateWaitSet. rewrite (bindS_Ok _ _ _ _ _ (sys_runs _ _)).
  destruct (sys_CreateWaitSet o (system w)) as [[r out] k] eqn:E. cbn.
  destruct (reset_made debug raw w s x out k Ho Hs) as (k' & He & Hk'); [by eapply duplicate_made, create_wait_set_ok|].
  rewrite (bindS_Ok _ _ _ _ _ He). do 2 eexists. done.
Qed.

(** Two scopers that are reset to the two ends of a pipe, or to none *)
Lemma reset_two raw (w : W) s0 s1 r out k : owned raw w → alive w s0 → alive w s1 →
  (∃ h0 h1, r = MOJO_RESULT_OK ∧ out = Some (h0, h1) ∧ (h0 ∉ handles (system w)) ∧ (h1 ∉ handles (system w)) ∧ h0 ≠ h1 ∧
      handles k = {[h0; h1]} ∪ handles (system w)) ∨
    (r ≠ MOJO_RESULT_OK ∧ out = None ∧ handles k = handles (system w)) →
  ∃ w', (let '(h0, h1) := default (kInvalidHandleValue, kInvalidHandleValue) out in
    reset debug s0 h0;; reset debug s1 h1;; mret r) (with_system k w) = Ok (r, w') ∧ owned raw w'.
Proof.
  intros Ho [x0 H0] [x1 H1] Hout.
  assert (∃ h0 h1 raw', default (kInvalidHandleValue, kInvalidHandleValue) out = (h0, h1) ∧ owned raw' (with_system k w) ∧
    (h0 ∈ raw' ∨ is_valid h0 = false) ∧ (h1 ∈ raw' ∖ {[h0]} ∨ is_valid h1 = false) ∧ raw' ∖ {[h0]} ∖ {[h1]} = raw)
    as (h0 & h1 & raw' & -> & Ho' & Hh0 & Hh1 & Hraw).
  { destruct Hout as [(h0 & h1 & _ & -> & Hn0 & Hn1 & Hne & Hk)|(_ & -> & Hk)].
    - assert (h0 ∉ raw) by (intros Hin; apply Hn0, (owned_all _ _ Ho); by left).
      assert (h1 ∉ raw) by (intros Hin; apply Hn1, (owned_all _ _ Ho); by left).
      exists h0, h1, ({[h0; h1]} ∪ raw). split; [done|]. split; [apply owned_created; [done|done|set_solver]|].
      split; [left; set_solver|]. split; [left; set_solver|set_solver].
    - assert (kInvalidHandleValue ∉ raw) by (by eapply owned_raw).
      exists kInvalidHandleValue, kInvalidHandleValue, raw. split; [done|]. split; [by apply owned_same|].
      split; [by right|]. split; [by right|set_solver]. }
  destruct (reset_runs debug _ (with_system k w) s0 h0 x0 Ho' H0 Hh0) as (k1 & He1 & Hw1). rewrite (bindS_Ok _ _ _ _ _ He1).
  assert (∃ y, scopers (put s0 h0 (with_system k1 (with_system k w))) !! s1 = Some y) as [y Hy].
  { destruct (decide (s0 = s1)) as [->|Hne]; [exists h0; apply lookup_put|exists x1; by rewrite lookup_put_ne]. }
  destruct (reset_runs debug _ _ s1 h1 y Hw1 Hy Hh1) as (k2 & He2 & Hw2). rewrite (bindS_Ok _ _ _ _ _ He2).
  eexists. split; [done|]. by rewrite Hraw in Hw2.
Qed.

Lemma CreateMessagePipe_runs raw (w : W) o s0 s1 : owned raw w → alive w s0 → alive w s1 →
  ∃ r w', CreateMessagePipe debug o s0 s1 w = Ok (r, w') ∧ owned raw w'.
Proof.
  intros Ho H0 H1. unfold CreateMessagePipe. rewrite (bindS_Ok _ _ _ _ _ (sys_runs _ _)).
  destruct (sys_CreateMessagePipe o (system w)) as [[r out] k] eqn:E. cbn [fst snd].
  exists r. by eapply (reset_two _ _ _ _ _ _ _ Ho H0 H1), create_message_pipe_ok.
Qed.
Lemma CreateDataPipe_runs raw (w : W) o s0 s1 : owned raw w → alive w s0 → alive w s1 →
  ∃ r w', CreateDataPipe debug o s0 s1 w = Ok (r, w') ∧ owned raw w'.
Proof.
  intros Ho H0 H1. unfold CreateDataPipe. rewrite (bindS_Ok _ _ _ _ _ (sys_runs _ _)).
  destruct (sys_CreateDataPipe o (system w)) as [[r out] k] eqn:E. cbn [fst snd].
  exists r. by eapply (reset_two _ _ _ _ _ _ _ Ho H0 H1), create_data_pipe_ok.
Qed.

Lemma op_runs op raw (w : W) : owned raw w → op_ok op raw w →
  ∃ w', run_op op w = Ok (tt, w') ∧ owned (raw_after op raw w) w'.
Proof.
  intros Ho Hok. destruct op; cbn [run_op op_ok raw_after] in *; unfold alive in *.
  - assert (kInvalidHandleValue ∉ raw) as Hnot by (by eapply owned_raw). eexists. split; [reflexivity|].
    apply (owned_new _ _ kInvalidHandleValue) in Ho; [|by right].
    by replace (raw ∖ {[kInvalidHandleValue]}) with raw in Ho by set_solver.
  - eexists. split; [reflexivity|]. apply owned_new; [done|]. destruct Hok as [?| ->]; [by left|by right].
  - destruct Hok as [h Hs]. destruct (destroy_runs debug _ _ _ _ Ho Hs) as (w' & ? & ? & _). eauto.
  - destruct Hok as [h Hs]. destruct (move_runs _ _ _ _ Ho Hs) as (He & Hw). rewrite (bindS_Ok _ _ _ _ _ He). by eexists.
  - destruct Hok as [h Hs]. destruct (compatible_runs debug _ _ _ _ Ho Hs) as (w' & He & Hw).
    rewrite (bindS_Ok _ _ _ _ _ He). by eexists.
  - destruct Hok as [h Hs]. destruct (compatible_runs debug _ _ _ _ Ho Hs) as (w' & He & Hw).
    rewrite (bindS_Ok _ _ _ _ _ He). by eexists.
  - destruct Hok as [[x Hs] [h Hother]]. eauto using move_assign_runs.
  - destruct Hok as [[x Hs] [h Hother]]. eauto using swap_runs.
  - destruct Hok as [h Hs]. rewrite Hs, (bindS_Ok _ _ _ _ _ (release_runs _ _ _ Hs)). eexists. split; [done|]. by apply owned_take.
  - destruct Hok as [[x Hs] Hh]. destruct (reset_runs debug raw w s handle x Ho Hs) as (k & He & Hw); [|by eexists].
    destruct Hh as [?| ->]; [by left|by right].
  - destruct Hok as [h Hs]. eauto using Close_runs.
  - assert (handle ∈ handles (system w)) as Hh by (apply (owned_all _ _ Ho); by left).
    unfold CloseRaw. rewrite (bindS_Ok _ _ _ _ _ (sys_runs _ _)). eexists. split; [reflexivity|].
    apply owned_closed; [done|done|by apply close_ok].
  - destruct (GetRights_runs _ _ _ Ho Hok) as (r & w' & He & Hw). rewrite (bindS_Ok _ _ _ _ _ He). by eexists.
  - destruct Hok as (h & Hs & Hr). destruct (Replace_runs _ _ _ _ _ Ho Hs Hr) as (b & w' & He & Hw).
    rewrite (bindS_Ok _ _ _ _ _ He). by eexists.
  - destruct Hok as (Hh & Hr). destruct (DuplicateReduced_runs _ _ _ _ Ho Hh Hr) as (b & w' & He & Hw).
    rewrite (bindS_Ok _ _ _ _ _ He). by eexists.
  - destruct Hok as (Hh & Hr). destruct (Duplicate_runs _ _ _ Ho Hh Hr) as (b & w' & He & Hw).
    rewrite (bindS_Ok _ _ _ _ _ He). by eexists.
  - destruct Hok as [x Hs]. destruct (CreateSharedBuffer_runs _ _ options num_bytes _ _ Ho Hs) as (r & w' & He & Hw).
    rewrite (bindS_Ok _ _ _ _ _ He). by eexists.
  - destruct Hok as [x Hs]. destruct (CreateWaitSet_runs _ _ options _ _ Ho Hs) as (r & w' & He & Hw).
    rewrite (bindS_Ok _ _ _ _ _ He). by eexists.
  - destruct Hok as [H0 H1]. destruct (CreateMessagePipe_runs _ _ options _ _ Ho H0 H1) as (r & w' & He & Hw).
    rewrite (bindS_Ok _ _ _ _ _ He). by eexists.
  - destruct Hok as [H0 H1]. destruct (CreateDataPipe_runs _ _ options _ _ Ho H0 H1) as (r & w' & He & Hw).
    rewrite (bindS_Ok _ _ _ _ _ He). by eexists.
Qed.
(** C31: A program over scopers that gives and closes only handles that it holds itself:
    every operation returns (no assertion about closing fails), and after it each handle
    of the process still has exactly one owner, a scoper or the program.  So the scopers
    close each handle that they are given once, and none that is another's. *)
Theorem handles_have_one_owner op raw (w : W) : owned raw w → op_ok op raw w →
  ∃ w', run_op op w = Ok (tt, w') ∧
    (∀ h, h ∈ handles (system w') ↔ h ∈ raw_after op raw w ∨ ∃ s, holds w' s h) ∧
    (∀ s s' h, holds w' s h → holds w' s' h → s = s') ∧
    (∀ s h, holds w' s h → h ∉ raw_after op raw w).
Proof. intros Ho Hok. destruct (op_runs op raw w Ho Hok) as (w' & He & [H1 H2 H3 _]). by exists w'. Qed.

(** *** Whole programs *)
Inductive program : gset Z → W → gset Z → W → Prop :=
| program_nil raw w : program raw w raw w
| program_op raw0 w0 raw w op w' : program raw0 w0 raw w → op_ok op raw w → run_op op w = Ok (tt, w') →
    program raw0 w0 (raw_after op raw w) w'.
Lemma program_owned raw0 w0 raw w : program raw0 w0 raw w → owned raw0 w0 → owned raw w.
Proof.
  induction 1 as [|raw0 w0 raw w op w' _ IH Hok He]; [done|]. intros Ho.
  destruct (op_runs op raw w (IH Ho) Hok) as (w2 & He2 & Hw2). by rewrite He in He2; injection He2 as ->.
Qed.

Lemma owned_start raw (w : W) : scopers w = ∅ → handles (system w) = raw → owned raw w.
Proof.
  intros Hs Hr. assert (∀ s h, holds w s h → False) as Hnot by (intros s h [H _]; by rewrite Hs in H).
  split.
  - intros h. rewrite Hr. split; [by left|]. intros [?|[s H]]; [done|by apply Hnot in H].
  - intros s s' h H. by apply Hnot in H.
  - intros s h H. by apply Hnot in H.
  - intros s h. by rewrite Hs.
Qed.

Fixpoint destroy_all (l : list nat) : M unit :=
  match l with
  | [] => mret tt
  | s :: l => ScopedHandleBase_destroy debug s;; destroy_all l
  end.
Lemma destroy_all_runs l : ∀ raw (w : W), owned raw w → NoDup l → (∀ s, s ∈ l ↔ alive w s) →
  ∃ w', destroy_all l w = Ok (tt, w') ∧ scopers w' = ∅ ∧ handles (system w') = raw.
Proof.
  induction l as [|s l IH]; intros raw w Ho Hl Hw; cbn [destroy_all].
  - assert (∀ s, scopers w !! s = None) as Hnone.
    { intros s. destruct (scopers w !! s) eqn:E; [|done]. assert (alive w s) as Ha by (by eexists). apply Hw in Ha. by apply elem_of_nil in Ha. }
    exists w. split; [done|]. split; [apply map_eq; intros s; by rewrite Hnone|]. apply set_eq. intros h.
    rewrite (owned_all _ _ Ho). split; [intros [?|[s [Hs _]]]; [done|congruence]|by left].
  - apply NoDup_cons in Hl as [Hs Hl]. destruct (proj1 (Hw s)) as [h Hh]; [by left|].
    destruct (destroy_runs debug _ _ _ _ Ho Hh) as (w1 & He & Ho1 & Hsc). rewrite (bindS_Ok _ _ _ _ _ He).
    apply (IH raw w1 Ho1 Hl). intros s'. unfold alive. rewrite Hsc. split.
    + intros Hin. rewrite lookup_delete_ne by (by intros ->). apply Hw. by right.
    + intros [h' [Hne H']%lookup_delete_Some]. assert (s' ∈ s :: l) as Hin by (apply Hw; by eexists).
      apply elem_of_cons in Hin as [->|]; done.
Qed.

(** C32: When a program that started without scopers has destroyed them all, the handles of
    the process are exactly those that it holds itself: none is left open, none of its
    own was closed. *)
Theorem scopers_leave_nothing raw0 (w0 : W) raw w l : scopers w0 = ∅ → handles (system w0) = raw0 →
  program raw0 w0 raw w → NoDup l → (∀ s, s ∈ l ↔ alive w s) →
  ∃ w', destroy_all l w = Ok (tt, w') ∧ scopers w' = ∅ ∧ handles (system w') = raw.
Proof.
  intros Hs Hr Hp. apply destroy_all_runs, (program_owned _ _ _ _ Hp). by apply owned_start.
Qed.
End owners.
