(* ===== verification/CppHandlesMojo.v ===== *)
(** * The C++ wrappers over src/system/mojo.c

    [CreateLaws] completes what [HandleTable] (Handles.v) says of the kernel: a live handle
    can be closed and looked up, and new objects come with new handles.  Then mojo.c
    does to the handles what the C++ wrappers rely on, so that the theorems of
    CppHandlesOwners.v hold of C++, C and kernel together. *)
From stdpp Require Import base list numbers option gmap fin_sets.
From S2P Require Import Prelude MojoResult Codec Thunks CppHandles CppHandlesSafe CppHandlesOps CppHandlesOwners System Handles.

Definition new_handle (n : Z) (old : gset Z) : Prop := 0 < n < 2 ^ 31 ∧ n ∉ old.
Class CreateLaws (K : Type) `{!MxSyscalls K} `{!HandleTable K} := {
  close_live : ∀ h k, h ∈ live k → (mx_handle_close h k).1 = NO_ERROR;
  info_live : ∀ h k, h ∈ live k → 0 <= (mx_handle_get_info_basic h k).1.1;
  vm_object_law : ∀ n k r k', mx_vm_object_create n k = (r, k') →
    (r < 0 ∧ live k' = live k) ∨ (new_handle r (live k) ∧ live k' = {[r]} ∪ live k);
  wait_set_law : ∀ k r k', mx_wait_set_create k = (r, k') →
    (r < 0 ∧ live k' = live k) ∨ (new_handle r (live k) ∧ live k' = {[r]} ∪ live k);
  message_pipe_law : ∀ k r h0 h1 k', mx_message_pipe_create 0 k = ((r, (h0, h1)), k') →
    (r ≠ NO_ERROR ∧ live k' = live k) ∨
    (r = NO_ERROR ∧ new_handle h0 (live k) ∧ new_handle h1 (live k) ∧ h0 ≠ h1 ∧ live k' = {[h0; h1]} ∪ live k);
  data_pipe_law : ∀ n c k h0 h1 k', mx_data_pipe_create 0 n c k = ((h0, h1), k') →
    (h0 < 0 ∧ live k' = live k) ∨
    (new_handle h0 (live k) ∧ new_handle h1 (live k) ∧ h0 ≠ h1 ∧ live k' = {[h0; h1]} ∪ live k);
}.

#[local] Arguments switch : simpl never.

Section mojo.
Context {K : Type} `{!MxSyscalls K} `{!HandleTable K} `{!CreateLaws K}.

(** The handles that fit in the kernel's type *)
Definition in_range (h : Z) : Prop := 0 < h < 2 ^ 31.
#[global] Instance in_range_dec h : Decision (in_range h).
Proof. unfold in_range. apply _. Defined.
Definition process_handles (k : K) : gset Z := filter in_range (live k).
Lemma process_handles_spec k h : h ∈ process_handles k ↔ in_range h ∧ h ∈ live k.
Proof. unfold process_handles. by rewrite elem_of_filter. Qed.

Lemma process_handles_add k k' n : in_range n → live k' = {[n]} ∪ live k → process_handles k' = {[n]} ∪ process_handles k.
Proof.
  intros Hn Hk. apply set_eq. intros h. rewrite elem_of_union, elem_of_singleton, !process_handles_spec, Hk, elem_of_union, elem_of_singleton.
  split; [intros [? [->|?]]; [by left|by right]|intros [->|[? ?]]; [by split; [|left]|by split; [|right]]].
Qed.
Lemma process_handles_add2 k k' n m : in_range n → in_range m → live k' = {[n; m]} ∪ live k →
  process_handles k' = {[n; m]} ∪ process_handles k.
Proof.
  intros Hn Hm Hk. apply set_eq. intros h.
  rewrite !elem_of_union, !elem_of_singleton, !process_handles_spec, Hk, !elem_of_union, !elem_of_singleton.
  split; [intros [? [[->| ->]|?]]; [by left; left|by left; right|by right]|].
  intros [[->| ->]|[? ?]]; (split; [done|]); [by left; left|by left; right|by right].
Qed.
Lemma process_handles_remove k k' h : live k' = live k ∖ {[h]} → process_handles k' = process_handles k ∖ {[h]}.
Proof.
  intros Hk. apply set_eq. intros x. rewrite elem_of_difference, !process_handles_spec, Hk, elem_of_difference. tauto.
Qed.
Lemma process_handles_same k k' : live k' = live k → process_handles k' = process_handles k.
Proof. unfold process_handles. by intros ->. Qed.
Lemma process_handles_not k n : n ∉ live k → n ∉ process_handles k.
Proof. rewrite process_handles_spec. tauto. Qed.

(** *** Closing and rights *)
Lemma MojoClose_live h k : h ∈ process_handles k →
  (MojoClose h k).1 = MOJO_RESULT_OK ∧ process_handles (MojoClose h k).2 = process_handles k ∖ {[h]}.
Proof.
  rewrite process_handles_spec. intros [Hr Hl]. destruct (MojoClose h k) as [r k'] eqn:E.
  assert (r = MOJO_RESULT_OK) as ->.
  { revert E. unfold MojoClose, mbind, SM_bind, mret, SM_ret. rewrite s32_small by done. pose proof (close_live h k Hl) as Hc.
    destruct (mx_handle_close h k) as [s k1]. cbn in Hc. subst s. intros [= <- _]. by apply switch_status. }
  split; [done|]. apply MojoClose_law in E as [[(_ & _ & Hk)|[? _]] _]; [|done..]. by apply process_handles_remove.
Qed.
Lemma MojoGetRights_live h k : h ∈ process_handles k →
  (MojoGetRights h k).1.1 = MOJO_RESULT_OK ∧ process_handles (MojoGetRights h k).2 = process_handles k.
Proof.
  rewrite process_handles_spec. intros [Hr Hl]. unfold MojoGetRights, mbind, SM_bind, mret, SM_ret. rewrite s32_small by done.
  pose proof (info_live h k Hl) as Hi. destruct (mx_handle_get_info_basic h k) as [[r rights] k1] eqn:E. cbn in Hi.
  apply info_law in E as [-> _]. destruct (Z.ltb_spec r 0); [lia|]. done.
Qed.

(** *** Duplication and replacement *)
Lemma MojoDuplicate_live h k r out k' : h ∈ process_handles k → MojoDuplicateHandle h k = ((r, out), k') →
  (∃ n, r = MOJO_RESULT_OK ∧ out = Some n ∧ (n ∉ process_handles k) ∧ process_handles k' = {[n]} ∪ process_handles k) ∨
  (r ≠ MOJO_RESULT_OK ∧ out = None ∧ process_handles k' = process_handles k).
Proof.
  rewrite process_handles_spec. intros [Hr Hl]. unfold MojoDuplicateHandle, mbind, SM_bind, mret, SM_ret.
  rewrite s32_small by done. destruct (mx_handle_duplicate h MX_RIGHT_SAME_RIGHTS k) as [n k1] eqn:E.
  apply duplicate_law in E as [(Hn & Hk & _)|(Hn & _ & Hfresh & Hk & _)].
  - destruct (Z.ltb_spec n 0); [|lia]. intros [= <- <- <-]. right. split; [by apply switch_error|]. split; [done|].
    by apply process_handles_same.
  - destruct (Z.ltb_spec n 0); [lia|]. intros [= <- <- <-]. left. exists n. rewrite u32_small by lia.
    split; [done|]. split; [done|]. split; [by apply process_handles_not|by apply process_handles_add].
Qed.
Lemma MojoDuplicateReduced_live h remove k r out k' : h ∈ process_handles k →
  MojoDuplicateHandleWithReducedRights h remove k = ((r, out), k') →
  (∃ n, r = MOJO_RESULT_OK ∧ out = Some n ∧ in_range n ∧ (n ∉ live k) ∧ live k' = {[n]} ∪ live k) ∨
  (r ≠ MOJO_RESULT_OK ∧ out = None ∧ live k' = live k).
Proof.
  intros Hh E. apply process_handles_spec in Hh as [Hr Hl]. pose proof E as E0.
  apply MojoDuplicateReduced_law in E as [(? & -> & ? & _)|(n & -> & -> & _ & Hn & Hk & _)]; [by right| |done].
  left. exists n. split; [done|]. split; [done|]. split; [|done]. revert E0.
  unfold MojoDuplicateHandleWithReducedRights, MojoGetRights, mbind, SM_bind, mret, SM_ret. rewrite s32_small by done.
  destruct (mx_handle_get_info_basic h k) as [[i rights] k1] eqn:Ei. apply info_law in Ei as [-> Hi].
  destruct (i <? 0) eqn:Eneg; [|rewrite Z.eqb_refl; cbn [negb]].
  { destruct (negb _); [done|]. destruct (mx_handle_duplicate _ _ _) as [m k2] eqn:Ed.
    apply duplicate_law in Ed as [(Hm & _)|(Hm & _)]; destruct (Z.ltb_spec m 0); try lia; [done|].
    rewrite u32_small by lia. by intros [= <- _]. }
  destruct (mx_handle_duplicate _ _ _) as [m k2] eqn:Ed.
  apply duplicate_law in Ed as [(Hm & _)|(Hm & _)]; destruct (Z.ltb_spec m 0); try lia; [done|].
  rewrite u32_small by lia. by intros [= <- _].
Qed.
Lemma MojoReplace_live h remove k r out k' : h ∈ process_handles k →
  MojoReplaceHandleWithReducedRights h remove k = ((r, out), k') →
  (∃ n, r = MOJO_RESULT_OK ∧ out = Some n ∧ (n ∉ process_handles k) ∧ process_handles k' = {[n]} ∪ process_handles k ∖ {[h]}) ∨
  (r ≠ MOJO_RESULT_OK ∧ out = None ∧ process_handles k' = process_handles k).
Proof.
  intros Hh. unfold MojoReplaceHandleWithReducedRights, mbind, SM_bind, mret, SM_ret.
  destruct (MojoDuplicateHandleWithReducedRights h remove k) as [[r1 out1] k1] eqn:E.
  destruct (MojoDuplicateReduced_live _ _ _ _ _ _ Hh E) as [(n & -> & -> & Hn & Hnew & Hk)|(Hr & -> & Hk)].
  - rewrite Z.eqb_refl. cbn [negb]. pose proof (process_handles_add k k1 n Hn Hk) as Hk1.
    destruct (MojoClose_live h k1) as [Hc Hk2]; [rewrite Hk1; set_solver|]. destruct (MojoClose h k1) as [r2 k2].
    cbn in Hc, Hk2. subst r2. rewrite Z.eqb_refl. intros [= <- <- <-]. left. exists n. split; [done|]. split; [done|].
    split; [by apply process_handles_not|]. rewrite Hk2, Hk1. assert (n ≠ h); [|set_solver].
    intros ->. apply Hnew. by apply process_handles_spec in Hh as [_ Hh].
  - destruct (Z.eqb_spec r1 MOJO_RESULT_OK); [done|]. intros [= <- <- <-]. right. split; [done|]. split; [done|].
    by apply process_handles_same.
Qed.

(** *** Creation *)
Lemma MojoCreateSharedBuffer_new o n k r out k' : MojoCreateSharedBuffer o n k = ((r, out), k') →
  (∃ h, r = MOJO_RESULT_OK ∧ out = Some h ∧ (h ∉ process_handles k) ∧ process_handles k' = {[h]} ∪ process_handles k) ∨
  (r ≠ MOJO_RESULT_OK ∧ out = None ∧ process_handles k' = process_handles k).
Proof.
  unfold MojoCreateSharedBuffer. destruct (match o with Some _ => _ | None => _ end).
  { intros [= <- <- <-]. by right. }
  unfold mbind, SM_bind, mret, SM_ret. destruct (mx_vm_object_create n k) as [h k1] eqn:E.
  apply vm_object_law in E as [[Hh Hk]|[[Hh Hnew] Hk]].
  - destruct (Z.ltb_spec h 0); [|lia]. intros [= <- <- <-]. right. split; [by apply switch_error|]. split; [done|].
    by apply process_handles_same.
  - destruct (Z.ltb_spec h 0); [lia|]. intros [= <- <- <-]. left. exists h. rewrite u32_small by lia.
    split; [done|]. split; [done|]. split; [by apply process_handles_not|by apply process_handles_add].
Qed.
Lemma MojoCreateWaitSet_new o k r out k' : MojoCreateWaitSet o k = ((r, out), k') →
  (∃ h, r = MOJO_RESULT_OK ∧ out = Some h ∧ (h ∉ process_handles k) ∧ process_handles k' = {[h]} ∪ process_handles k) ∨
  (r ≠ MOJO_RESULT_OK ∧ out = None ∧ process_handles k' = process_handles k).
Proof.
  unfold MojoCreateWaitSet. destruct (o ≫= _) as [e|] eqn:Eo.
  { intros [= <- <- <-]. right. split; [|done]. destruct o as [o|]; [|done]. cbn in Eo. by apply check_options_error in Eo. }
  unfold mbind, SM_bind, mret, SM_ret. destruct (mx_wait_set_create k) as [h k1] eqn:E.
  apply wait_set_law in E as [[Hh Hk]|[[Hh Hnew] Hk]].
  - destruct (Z.ltb_spec h 0); [|lia]. intros [= <- <- <-]. right. split; [by apply switch_error|]. split; [done|].
    by apply process_handles_same.
  - destruct (Z.ltb_spec h 0); [lia|]. intros [= <- <- <-]. left. exists h. rewrite u32_small by lia.
    split; [done|]. split; [done|]. split; [by apply process_handles_not|by apply process_handles_add].
Qed.
Lemma MojoCreateMessagePipe_new o k r out k' : MojoCreateMessagePipe o k = ((r, out), k') →
  (∃ h0 h1, r = MOJO_RESULT_OK ∧ out = Some (h0, h1) ∧ (h0 ∉ process_handles k) ∧ (h1 ∉ process_handles k) ∧ h0 ≠ h1 ∧
    process_handles k' = {[h0; h1]} ∪ process_handles k) ∨
  (r ≠ MOJO_RESULT_OK ∧ out = None ∧ process_handles k' = process_handles k).
Proof.
  unfold MojoCreateMessagePipe. destruct (match o with Some _ => _ | None => _ end).
  { intros [= <- <- <-]. by right. }
  unfold mbind, SM_bind, mret, SM_ret. destruct (mx_message_pipe_create 0 k) as [[s [h0 h1]] k1] eqn:E.
  apply message_pipe_law in E as [[Hs Hk]|(-> & [H0 Hn0] & [H1 Hn1] & Hne & Hk)].
  - destruct (Z.eqb_spec s NO_ERROR); [done|]. intros [= <- <- <-]. right. split; [by apply switch_error|]. split; [done|].
    by apply process_handles_same.
  - rewrite Z.eqb_refl. intros [= <- <- <-]. left. exists h0, h1. rewrite !u32_small by lia.
    split; [done|]. split; [done|]. split; [by apply process_handles_not|]. split; [by apply process_handles_not|].
    split; [done|by apply process_handles_add2].
Qed.
Lemma MojoCreateDataPipe_new o k r out k' : MojoCreateDataPipe o k = ((r, out), k') →
  (∃ h0 h1, r = MOJO_RESULT_OK ∧ out = Some (h0, h1) ∧ (h0 ∉ process_handles k) ∧ (h1 ∉ process_handles k) ∧ h0 ≠ h1 ∧
    process_handles k' = {[h0; h1]} ∪ process_handles k) ∨
  (r ≠ MOJO_RESULT_OK ∧ out = None ∧ process_handles k' = process_handles k).
Proof.
  assert (∀ n c, (let '((h0, h1), k1) := mx_data_pipe_create 0 n c k in
      (if h0 <? 0 then ((switch h0 [(ERR_INVALID_ARGS, MOJO_RESULT_INVALID_ARGUMENT);
         (ERR_NO_MEMORY, MOJO_RESULT_RESOURCE_EXHAUSTED)] MOJO_RESULT_UNKNOWN, None), k1)
       else ((MOJO_RESULT_OK, Some (u32 h0, u32 h1)), k1)) = ((r, out), k')) →
    (∃ h0 h1, r = MOJO_RESULT_OK ∧ out = Some (h0, h1) ∧ (h0 ∉ process_handles k) ∧ (h1 ∉ process_handles k) ∧ h0 ≠ h1 ∧
      process_handles k' = {[h0; h1]} ∪ process_handles k) ∨
    (r ≠ MOJO_RESULT_OK ∧ out = None ∧ process_handles k' = process_handles k)) as Hcreate.
  { intros n c. destruct (mx_data_pipe_create 0 n c k) as [[h0 h1] k1] eqn:E.
    apply data_pipe_law in E as [[Hh Hk]|([H0 Hn0] & [H1 Hn1] & Hne & Hk)].
    - destruct (Z.ltb_spec h0 0); [|lia]. intros [= <- <- <-]. right. split; [by apply switch_error|]. split; [done|].
      by apply process_handles_same.
    - destruct (Z.ltb_spec h0 0); [lia|]. intros [= <- <- <-]. left. exists h0, h1. rewrite !u32_small by lia.
      split; [done|]. split; [done|]. split; [by apply process_handles_not|]. split; [by apply process_handles_not|].
      split; [done|by apply process_handles_add2]. }
  unfold MojoCreateDataPipe, mbind, SM_bind, mret, SM_ret. intros E. destruct o as [o|].
  - destruct (negb (cdp_flags o =? 0)); [injection E as <- <- <-; by right|].
    apply (Hcreate (cdp_element_num_bytes o) (if negb (cdp_capacity_num_bytes o =? 0) then cdp_capacity_num_bytes o else 0)).
    revert E. destruct (mx_data_pipe_create _ _ _ _) as [[h0 h1] k1]. by destruct (h0 <? 0).
  - apply (Hcreate 1 0). revert E. destruct (mx_data_pipe_create _ _ _ _) as [[h0 h1] k1]. by destruct (h0 <? 0).
Qed.

#[export] Instance mojo_handle_laws : HandleLaws K.
Proof.
  refine {| handles := process_handles |}.
  - intros k. rewrite process_handles_spec. unfold in_range, MOJO_HANDLE_INVALID. intros [? _]. lia.
  - exact MojoClose_live.
  - exact MojoGetRights_live.
  - exact MojoDuplicate_live.
  - intros h remove k r out k' Hh E. destruct (MojoDuplicateReduced_live _ _ _ _ _ _ Hh E) as [(n & -> & -> & Hn & Hnew & Hk)|(? & -> & ?)].
    + left. exists n. split; [done|]. split; [done|]. split; [by apply process_handles_not|by apply process_handles_add].
    + right. split; [done|]. split; [done|by apply process_handles_same].
  - exact MojoReplace_live.
  - exact MojoCreateSharedBuffer_new.
  - exact MojoCreateWaitSet_new.
  - exact MojoCreateMessagePipe_new.
  - exact MojoCreateDataPipe_new.
Defined.
End mojo.

(** ** The kernel of Handles.v, which creates nothing *)
#[export] Instance toy_create_laws : CreateLaws toy.
Proof.
  split.
  - intros h k Hh. change (h ∈ dom (k : gmap Z Z)) in Hh. apply elem_of_dom in Hh as [x Hx]. cbn. by rewrite Hx.
  - intros h k Hh. change (h ∈ dom (k : gmap Z Z)) in Hh. apply elem_of_dom in Hh as [x Hx]. cbn. by rewrite Hx.
  - intros n k r k' [= <- <-]. left. done.
  - intros k r k' [= <- <-]. left. done.
  - intros k r h0 h1 k' [= <- <- <- <-]. left. done.
  - intros n c k h0 h1 k' [= <- <- <-]. left. done.
Defined.

(** A program that holds the two handles of [toy_state], makes a scoper of one of them and
    moves it to another scoper *)
Definition toy_world : Scopers toy := mkScopers toy_state ∅ 0.
Definition toy_scopers (m : gmap nat Z) (n : nat) : Scopers toy := mkScopers toy_state m n.

Lemma toy_owned : owned (handles toy_state) toy_world.
Proof. by apply owned_start. Qed.
Lemma toy_5 : 5 ∈ handles toy_state.
Proof. apply process_handles_spec. split; [unfold in_range; lia|]. by apply (bool_decide_unpack _); vm_compute. Qed.

Lemma handles_have_one_owner_witness : op_ok true (OMake 5) (handles toy_state) toy_world ∧
  ∃ w', run_op true (OMake 5) toy_world = Ok (tt, w') ∧
    (∀ h, h ∈ handles (system w') ↔ h ∈ raw_after (OMake 5) (handles toy_state) toy_world ∨ ∃ s, holds w' s h) ∧
    (∀ s s' h, holds w' s h → holds w' s' h → s = s') ∧
    (∀ s h, holds w' s h → h ∉ raw_after (OMake 5) (handles toy_state) toy_world).
Proof.
  assert (op_ok true (OMake 5) (handles toy_state) toy_world) as Hok by (left; exact toy_5).
  split; [exact Hok|]. exact (handles_have_one_owner true (OMake 5) _ toy_world toy_owned Hok).
Defined.

Lemma toy_program : program true (handles toy_state) toy_world (handles toy_state ∖ {[5]}) (toy_scopers {[0%nat := 0; 1%nat := 5]} 2).
Proof.
  set (w1 := toy_scopers {[0%nat := 5]} 1). set (w2 := toy_scopers {[0%nat := 0; 1%nat := 5]} 2).
  assert (program true (handles toy_state) toy_world (handles toy_state ∖ {[5]}) w1) as H1.
  { refine (program_op true (handles toy_state) toy_world (handles toy_state) toy_world (OMake 5) w1 _ _ _);
      [constructor|left; exact toy_5|reflexivity]. }
  refine (program_op true (handles toy_state) toy_world (handles toy_state ∖ {[5]}) w1 (OMove 0) w2 H1 _ _);
    [by exists 5|reflexivity].
Qed.
Lemma scopers_leave_nothing_witness : ∃ w',
  destroy_all true [0%nat; 1%nat] (toy_scopers {[0%nat := 0; 1%nat := 5]} 2) = Ok (tt, w') ∧ scopers w' = ∅ ∧
  handles (system w') = handles toy_state ∖ {[5]}.
Proof.
  apply (scopers_leave_nothing true (handles toy_state) toy_world _ _ [0%nat; 1%nat] eq_refl eq_refl toy_program).
  - by apply (bool_decide_unpack _); vm_compute.
  - intros s. rewrite !elem_of_cons, elem_of_nil. unfold alive, toy_scopers. cbn. split.
    + by intros [->|[->|[]]]; eexists.
    + intros [h Hh]. destruct s as [|[|s]]; [by left|by right; left|]. exfalso. by rewrite lookup_insert_ne, lookup_singleton_ne in Hh by lia.
Defined.
