(* ===== verification/RunLoop.v ===== *)
(** * The run loop (public/cpp/utility/run_loop.{h,cc})

    [RunLoop] watches handles and runs delayed tasks on one thread.  It calls
    handlers and tasks of the application, which may call it back: register and
    remove handlers, post tasks, quit, and run the loop again inside.

    - [prog] is the application's code in one callback, as the calls it makes;
      [Client] gives the code of every callback.
    - [LoopEnv] is the system below: the clock and the wait set.
    - [World] is the whole state, [RunLoop] the fields of the class.  Its field
      [current_run_state_] points to the innermost of the [RunState]s on the
      stack: here, the head of the list [run_states].
    - [trace] is a history of the calls made to the application, which no code
      reads.

    The thread-local pointer to the current run loop is not modelled: there is
    one loop.  A run loop that has issued 2^64 - 1 identifiers is out of scope
    ([OutOfIds]). *)
From stdpp Require Import base list numbers option gmap.
From S2P Require Import Prelude MojoResult System Codec.

(** ** The application *)
Inductive prog (C : Type) : Type :=
| Finish
| CallAddHandler (handler handle handle_signals deadline : Z) (k : Z → prog C)
| CallRemoveHandler (id : Z) (k : prog C)
| CallPostDelayedTask (task delay : Z) (k : prog C)
| CallQuit (k : prog C)
| CallRun (quit_when_idle : bool) (k : prog C)    (** [Run()] or [RunUntilIdle()] *)
| CallSystem (call : Z) (k : Z → prog C)          (** any other system call *)
| GetMemory (k : C → prog C)                      (** the application's own state *)
| PutMemory (c : C) (k : prog C).
Arguments Finish {_}.
Arguments CallAddHandler {_}.
Arguments CallRemoveHandler {_}.
Arguments CallPostDelayedTask {_}.
Arguments CallQuit {_}.
Arguments CallRun {_}.
Arguments CallSystem {_}.
Arguments GetMemory {_}.
Arguments PutMemory {_}.

(** The virtual functions of [RunLoopHandler] and the closures of tasks. *)
Record Client (C : Type) := mkClient {
  OnHandleReady : Z → Z → prog C;
  OnHandleError : Z → Z → Z → prog C;
  RunTask : Z → prog C;
}.
Arguments OnHandleReady {_}.
Arguments OnHandleError {_}.
Arguments RunTask {_}.

(** ** The system below *)

(** The fields of [MojoWaitSetResult] that the loop reads. *)
Record MojoWaitSetResult := mkWaitSetResult { cookie : Z; wait_result : Z }.

Class LoopEnv (E : Type) := {
  env_now : E → Z * E;
  env_add : Z → Z → Z → E → Z * E;
  env_remove : Z → E → Z * E;
  (** deadline and number of results wanted; [None]: it never returns *)
  env_wait : Z → Z → E → option (Z * list MojoWaitSetResult * Z * E);
  env_other : Z → E → Z * E;
}.

(** ** Data *)
Definition kInvalidTimeTicks : Z := 0.
Definition kMaxMojoTimeTicks : Z := 2 ^ 63 - 1.
Definition kInitialWaitSetNumResults : Z := 16.
Definition kMaximumWaitSetNumResults : Z := 256.

Record HandlerInfo := mkHandlerInfo {
  hi_handler : Z;
  hi_handle_signals : Z;
  hi_absolute_deadline : Z;
}.

Record HandlerDeadlineInfo := mkHandlerDeadlineInfo {
  hd_id : Z;
  hd_absolute_deadline : Z;
}.

(** [HandlerDeadlineInfo::operator<] *)
Definition HandlerDeadlineInfo_lt (a b : HandlerDeadlineInfo) : bool :=
  if hd_absolute_deadline a =? hd_absolute_deadline b then hd_id a <? hd_id b
  else hd_absolute_deadline b <? hd_absolute_deadline a.

Record DelayedTaskInfo := mkDelayedTaskInfo {
  dt_id : Z;
  dt_task : Z;
  dt_absolute_run_time : Z;
}.

(** [DelayedTaskInfo::operator<] *)
Definition DelayedTaskInfo_lt (a b : DelayedTaskInfo) : bool :=
  if dt_absolute_run_time a =? dt_absolute_run_time b then dt_id b <? dt_id a
  else dt_absolute_run_time b <? dt_absolute_run_time a.

(** [std::priority_queue::push], on the list of the elements from the greatest
    to the least: [top()] is the head and [pop()] drops it. *)
Fixpoint pq_push {T} (lt : T → T → bool) (x : T) (l : list T) : list T :=
  match l with
  | [] => [x]
  | y :: l' => if lt y x then x :: l else y :: pq_push lt x l'
  end.

Record RunState := mkRunState {
  should_quit : bool;
  results_size : Z;
}.

Record RunLoop := mkRunLoop {
  next_id : Z;
  handlers : gmap Z HandlerInfo;
  handler_deadlines : list HandlerDeadlineInfo;
  delayed_tasks : list DelayedTaskInfo;
  run_states : list RunState;
}.

(** What the loop called. *)
Inductive Event :=
| Ready (id : Z)
| Error (id : Z) (result : Z)
| Ran (id : Z).

Record World (E C : Type) := mkWorld {
  loop : RunLoop;
  env : E;
  memory : C;
  trace : list Event;   (** latest first *)
}.
Arguments mkWorld {_ _}.
Arguments loop {_ _}.
Arguments env {_ _}.
Arguments memory {_ _}.
Arguments trace {_ _}.

(** The constructor: an empty loop. *)
Definition RunLoop_init : RunLoop := mkRunLoop 1 ∅ [] [] [].

Section run_loop.
Context {E C : Type} `{!LoopEnv E} (client : Client C).
Abbreviation M := (stateR (World E C)).

Definition get_loop : M RunLoop := λ w, Ok (loop w, w).
Definition modify_loop (f : RunLoop → RunLoop) : M unit := λ w,
  Ok (tt, mkWorld (f (loop w)) (env w) (memory w) (trace w)).
Definition call_env {A} (f : E → A * E) : M A := λ w,
  let '(a, e) := f (env w) in Ok (a, mkWorld (loop w) e (memory w) (trace w)).
Definition log (ev : Event) : M unit := λ w,
  Ok (tt, mkWorld (loop w) (env w) (memory w) (ev :: trace w)).

Definition set_handlers (h : gmap Z HandlerInfo) (l : RunLoop) : RunLoop :=
  mkRunLoop (next_id l) h (handler_deadlines l) (delayed_tasks l) (run_states l).
Definition set_handler_deadlines (d : list HandlerDeadlineInfo) (l : RunLoop) : RunLoop :=
  mkRunLoop (next_id l) (handlers l) d (delayed_tasks l) (run_states l).
Definition set_delayed_tasks (t : list DelayedTaskInfo) (l : RunLoop) : RunLoop :=
  mkRunLoop (next_id l) (handlers l) (handler_deadlines l) t (run_states l).
Definition set_run_states (r : list RunState) (l : RunLoop) : RunLoop :=
  mkRunLoop (next_id l) (handlers l) (handler_deadlines l) (delayed_tasks l) r.

(** [*current_run_state_] *)
Definition current_run_state : M RunState :=
  l ← get_loop;
  match run_states l with
  | r :: _ => mret r
  | [] => crash BadAccess
  end.
Definition set_current_run_state (r : RunState) : M unit :=
  modify_loop (λ l, set_run_states (r :: tail (run_states l)) l).

(** The system calls. *)
Definition GetTimeTicksNow : M Z := call_env env_now.
Definition WaitSetAdd (handle handle_signals id : Z) : M Z :=
  call_env (env_add handle handle_signals id).
Definition WaitSetRemove (id : Z) : M Z := call_env (env_remove id).
(** The vector of results has the capacity it was resized to; it comes back
    empty unless the call succeeds. *)
Definition WaitSetWait (deadline num_results : Z)
    : M (Z * list MojoWaitSetResult * Z) := λ w,
  match env_wait deadline num_results (env w) with
  | Some (rv, results, max_results, e) =>
      let out := if rv =? MOJO_RESULT_OK then (rv, results, max_results)
                 else (rv, [], num_results) in
      Ok (out, mkWorld (loop w) e (memory w) (trace w))
  | None => Crash Blocked
  end.

(** [next_id_++] *)
Definition new_id : M Z :=
  l ← get_loop;
  if u64 (next_id l + 1) =? 0 then crash OutOfIds
  else
  modify_loop (λ l, mkRunLoop (u64 (next_id l + 1)) (handlers l) (handler_deadlines l)
    (delayed_tasks l) (run_states l));;
  mret (next_id l).

(** ** The operations of the application *)
Definition AddHandler (handler handle handle_signals deadline : Z) : M Z :=
  c_assert (negb (handler =? 0));;
  c_assert (negb (handle =? MOJO_HANDLE_INVALID));;
  id ← new_id;
  absolute_deadline ←
    (if deadline <=? kMaxMojoTimeTicks then
       now ← GetTimeTicksNow;
       if deadline <=? u64 (kMaxMojoTimeTicks - now) then
         modify_loop (λ l, set_handler_deadlines
           (pq_push HandlerDeadlineInfo_lt (mkHandlerDeadlineInfo id (now + deadline))
             (handler_deadlines l)) l);;
         mret (now + deadline)
       else mret kInvalidTimeTicks
     else mret kInvalidTimeTicks);
  modify_loop (λ l, set_handlers
    (match handlers l !! id with
     | Some _ => handlers l
     | None => <[id := mkHandlerInfo handler handle_signals absolute_deadline]> (handlers l)
     end) l);;
  result ← WaitSetAdd handle handle_signals id;
  c_assert (result =? MOJO_RESULT_OK);;
  mret id.

Definition RemoveHandler (id : Z) : M unit :=
  l ← get_loop;
  match handlers l !! id with
  | None => mret tt
  | Some _ =>
      modify_loop (λ l, set_handlers (delete id (handlers l)) l);;
      result ← WaitSetRemove id;
      c_assert (result =? MOJO_RESULT_OK)
  end.

Definition PostDelayedTask (task delay : Z) : M unit :=
  id ← new_id;
  now ← GetTimeTicksNow;
  c_assert (delay <=? kMaxMojoTimeTicks - now);;
  modify_loop (λ l, set_delayed_tasks
    (pq_push DelayedTaskInfo_lt (mkDelayedTaskInfo id task (now + delay)) (delayed_tasks l)) l).

Definition Quit : M unit :=
  modify_loop (λ l, match run_states l with
    | r :: rs => set_run_states (mkRunState true (results_size r) :: rs) l
    | [] => l
    end).

(** ** Running *)
Section iteration.
Context (RunInternal : bool → M unit).

(** The code of a callback. *)
Fixpoint exec (p : prog C) : M unit :=
  match p with
  | Finish => mret tt
  | CallAddHandler handler handle handle_signals deadline k =>
      id ← AddHandler handler handle handle_signals deadline; exec (k id)
  | CallRemoveHandler id k => RemoveHandler id;; exec k
  | CallPostDelayedTask task delay k => PostDelayedTask task delay;; exec k
  | CallQuit k => Quit;; exec k
  | CallRun quit_when_idle k => RunInternal quit_when_idle;; exec k
  | CallSystem call k => r ← call_env (env_other call); exec (k r)
  | GetMemory k => λ w, exec (k (memory w)) w
  | PutMemory c k => λ w, exec k (mkWorld (loop w) (env w) c (trace w))
  end.

Definition call_ready (handler id : Z) : M unit :=
  log (Ready id);; exec (OnHandleReady client handler id).
Definition call_error (handler id result : Z) : M unit :=
  log (Error id result);; exec (OnHandleError client handler id result).
Definition call_task (t : DelayedTaskInfo) : M unit :=
  log (Ran (dt_id t));; exec (RunTask client (dt_task t)).

(** The loop over the ready tasks: whether to quit, and whether work was done. *)
Fixpoint run_ready_tasks (fuel : nat) (now_task : DelayedTaskInfo) (should_continue : bool)
    : M (bool * bool) :=
  match fuel with
  | O => crash OutOfFuel
  | S fuel =>
      l ← get_loop;
      match delayed_tasks l with
      | [] => mret (false, should_continue)
      | t :: rest =>
          if DelayedTaskInfo_lt now_task t then
            modify_loop (set_delayed_tasks rest);;
            call_task t;;
            r ← current_run_state;
            if should_quit r then mret (true, true)
            else run_ready_tasks fuel now_task true
          else mret (false, should_continue)
      end
  end.

(** The top of the queue of deadlines once the stale ones are dropped. *)
Fixpoint drop_stale (h : gmap Z HandlerInfo) (q : list HandlerDeadlineInfo)
    : list HandlerDeadlineInfo :=
  match q with
  | [] => []
  | info :: q' =>
      match h !! hd_id info with
      | None => drop_stale h q'
      | Some _ => q
      end
  end.

(** The deadline and [*is_delayed_task]. *)
Definition CalculateAbsoluteDeadline : M (Z * bool) :=
  l ← get_loop;
  c_assert (negb (bool_decide (handlers l = ∅)));;
  let '(absolute_deadline, is_delayed_task) :=
    match delayed_tasks l with
    | [] => (kInvalidTimeTicks, false)
    | t :: _ => (dt_absolute_run_time t, true)
    end in
  modify_loop (λ l, set_handler_deadlines (drop_stale (handlers l) (handler_deadlines l)) l);;
  l ← get_loop;
  match handler_deadlines l with
  | [] => mret (absolute_deadline, is_delayed_task)
  | info :: _ =>
      if (absolute_deadline =? kInvalidTimeTicks) ||
         (hd_absolute_deadline info <? absolute_deadline)
      then mret (hd_absolute_deadline info, false)
      else mret (absolute_deadline, is_delayed_task)
  end.

Fixpoint notify_results (results : list MojoWaitSetResult) (did_work : bool) : M bool :=
  match results with
  | [] => mret did_work
  | result :: results' =>
      let id := cookie result in
      l ← get_loop;
      match handlers l !! id with
      | None => notify_results results' did_work
      | Some info =>
          modify_loop (λ l, set_handlers (delete id (handlers l)) l);;
          r ← WaitSetRemove id;
          c_assert (r =? MOJO_RESULT_OK);;
          (if wait_result result =? MOJO_RESULT_OK then call_ready (hi_handler info) id
           else call_error (hi_handler info) id (wait_result result));;
          r ← current_run_state;
          if should_quit r then mret true else notify_results results' true
      end
  end.

Definition NotifyResults (results : list MojoWaitSetResult) : M bool :=
  c_assert (negb (bool_decide (results = [])));;
  notify_results results false.

Fixpoint notify_deadlines (fuel : nat) (absolute_deadline : Z) (did_work : bool) : M bool :=
  match fuel with
  | O => crash OutOfFuel
  | S fuel =>
      l ← get_loop;
      match handler_deadlines l with
      | [] => mret did_work
      | info :: rest =>
          if absolute_deadline <? hd_absolute_deadline info then mret did_work
          else
          match handlers l !! hd_id info with
          | None =>
              modify_loop (set_handler_deadlines rest);;
              notify_deadlines fuel absolute_deadline did_work
          | Some h =>
              modify_loop (λ l, set_handlers (delete (hd_id info) (handlers l)) l);;
              modify_loop (set_handler_deadlines rest);;
              call_error (hi_handler h) (hd_id info) MOJO_RESULT_DEADLINE_EXCEEDED;;
              r ← current_run_state;
              if should_quit r then mret true
              else notify_deadlines fuel absolute_deadline true
          end
      end
  end.

Definition NotifyHandlersDeadlineExceeded (fuel : nat) (absolute_deadline : Z) : M bool :=
  l ← get_loop;
  c_assert (negb (bool_decide (handlers l = ∅)));;
  c_assert (negb (absolute_deadline =? kInvalidTimeTicks));;
  notify_deadlines fuel absolute_deadline false.

(** The second part of an iteration: wait, and call the handlers. *)
Definition wait_and_notify (fuel : nat) (quit_when_idle : bool) (now : Z)
    (should_continue : bool) : M bool :=
  '(absolute_deadline, absolute_deadline_is_for_delayed_task) ←
    (if quit_when_idle then mret (now, false) else CalculateAbsoluteDeadline);
  let relative_deadline :=
    if absolute_deadline =? kInvalidTimeTicks then MOJO_DEADLINE_INDEFINITE
    else u64 (Z.max now absolute_deadline - now) in
  r ← current_run_state;
  '(rv, results, max_results) ← WaitSetWait relative_deadline (results_size r);
  should_continue ←
    (if rv =? MOJO_RESULT_OK then
       (if results_size r <? max_results then
          set_current_run_state (mkRunState (should_quit r)
            (Z.min kMaximumWaitSetNumResults (u32 (results_size r * 2))))
        else mret tt);;
       did_work ← NotifyResults results; mret (should_continue || did_work)
     else if rv =? MOJO_RESULT_DEADLINE_EXCEEDED then
       did_work ← NotifyHandlersDeadlineExceeded fuel absolute_deadline;
       mret (should_continue || did_work || absolute_deadline_is_for_delayed_task)
     else crash AssertFailed);
  r ← current_run_state;
  l ← get_loop;
  mret (if should_quit r then false
        else if quit_when_idle then should_continue
        else negb (bool_decide (handlers l = ∅))).

Definition DoIteration (fuel : nat) (quit_when_idle : bool) : M bool :=
  r ← current_run_state;
  c_assert (negb (should_quit r));;
  now ← GetTimeTicksNow;
  l ← get_loop;
  let now_task := mkDelayedTaskInfo (next_id l) 0 now in
  '(quit, should_continue) ← run_ready_tasks fuel now_task false;
  if (quit : bool) then mret false
  else
  l ← get_loop;
  if bool_decide (handlers l = ∅) then mret should_continue
  else wait_and_notify fuel quit_when_idle now should_continue.

Fixpoint iterate (iterations fuel : nat) (quit_when_idle : bool) : M unit :=
  match iterations with
  | O => crash OutOfFuel
  | S iterations =>
      continue ← DoIteration fuel quit_when_idle;
      if (continue : bool) then iterate iterations fuel quit_when_idle else mret tt
  end.
End iteration.

(** [RunInternal]; the fuel bounds the nesting and every loop inside. *)
Fixpoint RunInternal (fuel : nat) (quit_when_idle : bool) : M unit :=
  match fuel with
  | O => crash OutOfFuel
  | S fuel =>
      modify_loop (λ l, set_run_states
        (mkRunState false kInitialWaitSetNumResults :: run_states l) l);;
      iterate (RunInternal fuel) fuel fuel quit_when_idle;;
      modify_loop (λ l, set_run_states (tail (run_states l)) l)
  end.

Definition Run (fuel : nat) : M unit := RunInternal fuel false.
Definition RunUntilIdle (fuel : nat) : M unit := RunInternal fuel true.

(** The least identifier in the map: [handlers_.begin()]. *)
Definition first_handler (h : gmap Z HandlerInfo) : option (Z * HandlerInfo) :=
  foldr (λ p acc, match acc with
    | Some q => if p.1 <? q.1 then Some p else Some q
    | None => Some p
    end) None (map_to_list h).

(** [~RunLoop] *)
Fixpoint RunLoop_destroy (fuel : nat) : M unit :=
  match fuel with
  | O => crash OutOfFuel
  | S fuel =>
      l ← get_loop;
      match first_handler (handlers l) with
      | None => mret tt
      | Some (id, info) =>
          modify_loop (λ l, set_handlers (delete id (handlers l)) l);;
          call_error (RunInternal fuel) (hi_handler info) id MOJO_RESULT_ABORTED;;
          RunLoop_destroy fuel
      end
  end.
End run_loop.
