(* ===== verification/RunLoopSafe.v ===== *)
(** * The run loop commits no fault

    Against any system that behaves as documented ([LoopEnvLaws]) and any
    application that passes valid arguments ([prog_ok]), however it calls back
    and nests runs: the invariant of the loop's tables is preserved, no
    assertion fails and no null pointer is followed. *)
From stdpp Require Import base list numbers option gmap sorting.
From S2P Require Import Prelude MojoResult System Codec RunLoop.

(** ** What the documentation says of the system

    The wait set is a map from cookies to entries (wait_set.h); a valid handle
    under a fresh cookie is accepted (handles already closed and exhausted
    quotas are out of scope).  The clock does not run backwards (time.h), is past 0
    ([kInvalidTimeTicks]) and is [max_delay] away from overflow. *)
Class LoopEnvLaws (E : Type) `{!LoopEnv E} := {
  entries : E → gmap Z (Z * Z);
  clock : E → Z;
  max_delay : Z;
  now_spec e : let '(t, e') := env_now e in
    clock e <= t <= clock e' ∧ 0 < t <= kMaxMojoTimeTicks - max_delay ∧ entries e' = entries e;
  add_spec h s c e : let '(r, e') := env_add h s c e in
    clock e <= clock e' ∧
    (entries e !! c = None → r = MOJO_RESULT_OK ∧ entries e' = <[c := (h, s)]> (entries e));
  remove_spec c e : let '(r, e') := env_remove c e in
    clock e <= clock e' ∧
    (is_Some (entries e !! c) → r = MOJO_RESULT_OK ∧ entries e' = delete c (entries e));
  wait_spec d n e : match env_wait d n e with
    | None => True
    | Some (rv, results, max_results, e') =>
        clock e <= clock e' ∧ entries e' = entries e ∧
        (rv = MOJO_RESULT_OK ∧ results ≠ [] ∨
         rv = MOJO_RESULT_DEADLINE_EXCEEDED ∧ d ≠ MOJO_DEADLINE_INDEFINITE)
    end;
  other_spec call e : let '(r, e') := env_other call e in
    clock e <= clock e' ∧ entries e' = entries e;
}.

(** ** Priority queues *)
Section priority_queue.
Context {T : Type} (lt : T → T → bool).

Lemma pq_push_Permutation x l : pq_push lt x l ≡ₚ x :: l.
Proof.
  induction l as [|y l IH]; cbn; [done|]. destruct (lt y x); [done|].
  rewrite IH. constructor.
Qed.

(** Greatest first: no element is less than one after it. *)
Definition pq_sorted (l : list T) : Prop := StronglySorted (λ a b, lt a b = false) l.

Lemma pq_push_sorted x l :
  (∀ a b, lt a b = true → lt b a = false) →
  (∀ a b c, lt a b = false → lt b c = false → lt a c = false) →
  pq_sorted l → pq_sorted (pq_push lt x l).
Proof.
  intros Hasym Hneg. induction 1 as [|y l Hl IH Hy]; cbn; [repeat constructor|].
  destruct (lt y x) eqn:Hyx.
  - constructor; [by constructor|]. constructor; [by apply Hasym|].
    eapply Forall_impl; [exact Hy|]. intros z Hz. eapply Hneg; [by apply Hasym|done].
  - constructor; [done|]. apply Forall_forall. intros z.
    rewrite pq_push_Permutation. intros [->|Hz]%elem_of_cons; [done|].
    by eapply Forall_forall in Hy.
Qed.
End priority_queue.

Lemma HandlerDeadlineInfo_lt_asym a b :
  HandlerDeadlineInfo_lt a b = true → HandlerDeadlineInfo_lt b a = false.
Proof. unfold HandlerDeadlineInfo_lt. repeat case_match; lia. Qed.
Lemma HandlerDeadlineInfo_lt_neg a b c :
  HandlerDeadlineInfo_lt a b = false → HandlerDeadlineInfo_lt b c = false →
  HandlerDeadlineInfo_lt a c = false.
Proof. unfold HandlerDeadlineInfo_lt. repeat case_match; lia. Qed.
Lemma DelayedTaskInfo_lt_asym a b :
  DelayedTaskInfo_lt a b = true → DelayedTaskInfo_lt b a = false.
Proof. unfold DelayedTaskInfo_lt. repeat case_match; lia. Qed.
Lemma DelayedTaskInfo_lt_neg a b c :
  DelayedTaskInfo_lt a b = false → DelayedTaskInfo_lt b c = false →
  DelayedTaskInfo_lt a c = false.
Proof. unfold DelayedTaskInfo_lt. repeat case_match; lia. Qed.

(** ** The invariant *)

(** The registrations an event notifies. *)
Definition notified_id (ev : Event) : option Z :=
  match ev with Ready id | Error id _ => Some id | Ran _ => None end.
Definition notified (t : list Event) : list Z := omap notified_id t.

Section invariant.
Context {E C : Type} `{!LoopEnv E, !LoopEnvLaws E}.
Implicit Types (w : World E C) (p : prog C).

(** Identifiers in the tables have been issued; every registered handler has an
    entry in the wait set and, unless it waits forever, in the queue of
    deadlines; the queues are in order; no registration is notified twice or
    kept once it is notified. *)
Record loop_ok w : Prop := {
  ok_next : 0 < next_id (loop w) < 2 ^ 64;
  ok_handlers id h : handlers (loop w) !! id = Some h →
    0 < id < next_id (loop w) ∧ is_Some (entries (env w) !! id);
  ok_entries id : is_Some (entries (env w) !! id) → id < next_id (loop w);
  ok_deadlines id h : handlers (loop w) !! id = Some h →
    hi_absolute_deadline h ≠ kInvalidTimeTicks →
    mkHandlerDeadlineInfo id (hi_absolute_deadline h) ∈ handler_deadlines (loop w);
  ok_deadline_ids d : d ∈ handler_deadlines (loop w) →
    hd_id d < next_id (loop w) ∧ 0 < hd_absolute_deadline d;
  ok_deadlines_agree d h : d ∈ handler_deadlines (loop w) →
    handlers (loop w) !! hd_id d = Some h → hi_absolute_deadline h = hd_absolute_deadline d;
  ok_deadlines_sorted : pq_sorted HandlerDeadlineInfo_lt (handler_deadlines (loop w));
  ok_task_ids t : t ∈ delayed_tasks (loop w) →
    dt_id t < next_id (loop w) ∧ 0 < dt_absolute_run_time t;
  ok_tasks_sorted : pq_sorted DelayedTaskInfo_lt (delayed_tasks (loop w));
  ok_notified_once : NoDup (notified (trace w));
  ok_notified id : id ∈ notified (trace w) →
    id < next_id (loop w) ∧ handlers (loop w) !! id = None;
}.

(** What may change while a callback runs. *)
Record later w w' : Prop := {
  later_next : next_id (loop w) <= next_id (loop w');
  later_clock : clock (env w) <= clock (env w');
  later_depth : length (run_states (loop w')) = length (run_states (loop w));
  later_tasks : ∃ new, delayed_tasks (loop w') ⊆+ new ++ delayed_tasks (loop w) ∧
    Forall (λ t, next_id (loop w) <= dt_id t ∧ clock (env w) <= dt_absolute_run_time t) new;
  later_trace : ∃ evs, trace w' = evs ++ trace w;
}.

#[global] Instance later_preorder : PreOrder later.
Proof.
  split.
  - intros w. split; [done|done|done|by exists []|by exists []].
  - intros w1 w2 w3 [Hn1 Hc1 Hd1 (new1 & Hs1 & Hf1) (ev1 & Ht1)]
      [Hn2 Hc2 Hd2 (new2 & Hs2 & Hf2) (ev2 & Ht2)]. split; [lia|lia|congruence| |].
    + exists (new2 ++ new1). split.
      * rewrite <- app_assoc. etransitivity; [exact Hs2|]. by apply submseteq_app.
      * apply Forall_app. split; [|done]. eapply Forall_impl; [exact Hf2|].
        cbn. intros t. lia.
    + exists (ev2 ++ ev1). by rewrite Ht2, Ht1, app_assoc.
Qed.

Definition keeps w w' : Prop := loop_ok w' ∧ later w w'.

Lemma keeps_ok w w' : keeps w w' → loop_ok w'.
Proof. by intros []. Qed.
Lemma keeps_trans w1 w2 w3 : keeps w1 w2 → keeps w2 w3 → keeps w1 w3.
Proof. intros [_ H1] [? H2]. split; [done|]. by etransitivity. Qed.
Lemma keeps_refl w : loop_ok w → keeps w w.
Proof. by split. Qed.

(** Arguments an application must respect. *)
Fixpoint prog_ok p : Prop :=
  match p with
  | Finish => True
  | CallAddHandler handler handle _ deadline k =>
      handler ≠ 0 ∧ handle ≠ MOJO_HANDLE_INVALID ∧ 0 <= deadline < 2 ^ 64 ∧
      ∀ id, prog_ok (k id)
  | CallRemoveHandler _ k | CallQuit k | CallRun _ k | PutMemory _ k => prog_ok k
  | CallPostDelayedTask _ delay k => 0 <= delay <= max_delay ∧ prog_ok k
  | CallSystem _ k => ∀ r, prog_ok (k r)
  | GetMemory k => ∀ c, prog_ok (k c)
  end.

Definition client_ok (client : Client C) : Prop :=
  (∀ handler id, prog_ok (OnHandleReady client handler id)) ∧
  (∀ handler id r, prog_ok (OnHandleError client handler id r)) ∧
  (∀ task, prog_ok (RunTask client task)).

(** ** Primitive steps *)
Lemma safely_get_loop w (Q : RunLoop → World E C → Prop) :
  Q (loop w) w → safely get_loop w Q.
Proof. done. Qed.

Lemma safely_modify_loop f w (Q : unit → World E C → Prop) :
  Q tt (mkWorld (f (loop w)) (env w) (memory w) (trace w)) → safely (modify_loop f) w Q.
Proof. done. Qed.

Lemma safely_call_env {A} (f : E → A * E) w (Q : A → World E C → Prop) :
  (let '(a, e) := f (env w) in Q a (mkWorld (loop w) e (memory w) (trace w))) →
  safely (call_env f) w Q.
Proof. unfold safely, call_env. by destruct (f (env w)). Qed.

Lemma safely_log ev w (Q : unit → World E C → Prop) :
  Q tt (mkWorld (loop w) (env w) (memory w) (ev :: trace w)) → safely (log ev) w Q.
Proof. done. Qed.

(** The system's part of the world changes, its entries do not. *)
Lemma env_keeps w e :
  loop_ok w → clock (env w) <= clock e → entries e = entries (env w) →
  keeps w (mkWorld (loop w) e (memory w) (trace w)).
Proof.
  intros [] Hc He. split; [|split; [done|done|done|by exists []|by exists []]].
  split; cbn; try rewrite He; eauto.
Qed.

Lemma now_keeps w :
  loop_ok w →
  safely GetTimeTicksNow w (λ t w', keeps w w' ∧ loop w' = loop w ∧
    clock (env w) <= t <= clock (env w') ∧ 0 < t <= kMaxMojoTimeTicks - max_delay).
Proof.
  intros Hok. apply safely_call_env. pose proof (now_spec (env w)) as Hnow.
  destruct (env_now (env w)) as [t e]. destruct Hnow as (Hc & Ht & He).
  split_and!; [apply env_keeps; [done|lia|done]|done|cbn; lia..].
Qed.

Lemma memory_keeps w c :
  loop_ok w → keeps w (mkWorld (loop w) (env w) c (trace w)).
Proof.
  intros []. split; [split; eauto|split; [done|done|done|by exists []|by exists []]].
Qed.

(** A new identifier. *)
Lemma new_id_keeps w :
  loop_ok w →
  safely new_id w (λ id w', keeps w w' ∧ id = next_id (loop w) ∧ next_id (loop w') = id + 1 ∧
    handlers (loop w') = handlers (loop w) ∧ env w' = env w ∧
    handler_deadlines (loop w') = handler_deadlines (loop w) ∧
    delayed_tasks (loop w') = delayed_tasks (loop w) ∧ trace w' = trace w).
Proof.
  intros Hok. pose proof (ok_next _ Hok) as Hn. unfold new_id.
  apply safely_bind, safely_get_loop.
  destruct (u64 (next_id (loop w) + 1) =? 0) eqn:Hz; [apply safely_limit; unfold limit; auto|].
  assert (u64 (next_id (loop w) + 1) = next_id (loop w) + 1) as Hu.
  { destruct (decide (next_id (loop w) + 1 = 2 ^ 64)) as [He|]; [by rewrite He in Hz|].
    apply u64_small. lia. }
  apply safely_bind, safely_modify_loop, safely_ret. cbn. rewrite Hu. destruct Hok.
  split_and!; [|done..]. split.
  - assert (next_id (loop w) + 1 < 2 ^ 64) by (pose proof (u64_range (next_id (loop w) + 1)); lia).
    split; cbn in *; try done; [lia|..].
    + intros id h Hh. destruct (ok_handlers0 id h Hh). split; [lia|done].
    + intros id Hid. specialize (ok_entries0 id Hid). lia.
    + intros d Hd. destruct (ok_deadline_ids0 d Hd). split; [lia|done].
    + intros t Ht. destruct (ok_task_ids0 t Ht). split; [lia|done].
    + intros id Hid. specialize (ok_notified0 id Hid) as [??]. split; [lia|done].
  - split; cbn; [lia|done|done|by exists []|by exists []].
Qed.

(** ** The operations of the application *)

(** An unregistered handler leaves the loop as it should be. *)
Lemma erase_keeps w id :
  loop_ok w →
  keeps w (mkWorld (set_handlers (delete id (handlers (loop w))) (loop w)) (env w) (memory w)
    (trace w)).
Proof.
  intros []. split; [|split; [done|done|done|by exists []|by exists []]].
  split; cbn; try done.
  - intros i h [_ Hh]%lookup_delete_Some. eauto.
  - intros i h [_ Hh]%lookup_delete_Some. eauto.
  - intros d h Hd [_ Hh]%lookup_delete_Some. eauto.
  - intros i Hi. split; [by apply ok_notified0|].
    apply lookup_delete_None. right. by apply ok_notified0.
Qed.

(** The entry of a handler that is no longer registered goes. *)
Lemma wait_set_remove_keeps w id :
  loop_ok w → handlers (loop w) !! id = None → is_Some (entries (env w) !! id) →
  safely (WaitSetRemove id) w (λ r w', keeps w w' ∧ loop w' = loop w ∧ trace w' = trace w ∧
    r = MOJO_RESULT_OK).
Proof.
  intros Hok Hh He. apply safely_call_env. pose proof (remove_spec id (env w)) as Hrm.
  destruct (env_remove id (env w)) as [r e]. destruct Hrm as (Hc & Hrm).
  destruct (Hrm He) as [-> Hes]. destruct Hok. split_and!; [|done..].
  split; [split; cbn; try rewrite Hes; try done|split; [done|done|done|by exists []|by exists []]].
  - intros i h Hi. destruct (ok_handlers0 i h Hi). split; [done|].
    rewrite lookup_delete_ne; [done|]. by intros ->; rewrite Hh in Hi.
  - intros i [[??] [_ Hi]%lookup_delete_Some]. eauto.
Qed.

(** Taking a handler out of both tables. *)
Lemma unregister_keeps w id h {A} (k : Z → stateR (World E C) A) Q :
  loop_ok w → handlers (loop w) !! id = Some h →
  (∀ w', keeps w w' → run_states (loop w') = run_states (loop w) →
     handlers (loop w') !! id = None → id < next_id (loop w') →
     notified (trace w') = notified (trace w) → id ∉ notified (trace w) →
     safely (k MOJO_RESULT_OK) w' Q) →
  safely (modify_loop (λ l, set_handlers (delete id (handlers l)) l);;
          r ← WaitSetRemove id; k r) w Q.
Proof.
  intros Hok Hh Hk. apply safely_bind, safely_modify_loop.
  destruct (erase_keeps w id Hok) as [Hok1 Hl1].
  destruct (ok_handlers _ Hok id h Hh) as [Hid He].
  apply safely_bind. eapply safely_mono.
  { apply wait_set_remove_keeps; [exact Hok1|cbn; by rewrite lookup_delete_eq|exact He]. }
  intros r w' ([Hok2 Hl2] & Hloop & Htr & ->).
  apply Hk; try (rewrite Hloop || rewrite Htr); cbn; [|done| |lia|done|].
  - split; [done|]. by etransitivity.
  - by rewrite lookup_delete_eq.
  - intros Hn. by destruct (ok_notified _ Hok id Hn); congruence.
Qed.

Lemma RemoveHandler_keeps w id : loop_ok w → safely (RemoveHandler id) w (λ _, keeps w).
Proof.
  intros Hok. unfold RemoveHandler. apply safely_bind, safely_get_loop.
  destruct (handlers (loop w) !! id) as [h|] eqn:Hh; [|by apply safely_ret].
  eapply unregister_keeps; [done|done|]. intros w' Hk _ _ _ _ _. by apply safely_assert.
Qed.

Lemma PostDelayedTask_keeps w task delay :
  loop_ok w → 0 <= delay <= max_delay → safely (PostDelayedTask task delay) w (λ _, keeps w).
Proof.
  intros Hok Hd. unfold PostDelayedTask. apply safely_bind.
  eapply safely_mono; [by apply new_id_keeps|].
  intros id w1 ([Hok1 Hl1] & -> & Hn & _ & He & _ & Htasks & _).
  apply safely_bind. eapply safely_mono; [by apply now_keeps|].
  intros t w2 ([Hok2 Hl2] & Hloop & Hc & Ht).
  apply safely_bind, safely_assert; [lia|]. apply safely_modify_loop.
  assert (later w w2) as Hl by (by etransitivity).
  set (t0 := mkDelayedTaskInfo (next_id (loop w)) task (t + delay)).
  split.
  - destruct Hok2. split; cbn; try done.
    + intros t'. rewrite pq_push_Permutation. intros [->|Ht']%elem_of_cons; [|eauto].
      cbn. rewrite Hloop. lia.
    + apply pq_push_sorted; [apply DelayedTaskInfo_lt_asym|apply DelayedTaskInfo_lt_neg|done].
  - destruct Hl. split; cbn; try done. exists [t0]. split.
    + rewrite pq_push_Permutation, Hloop, Htasks. done.
    + repeat constructor; cbn; [lia|]. rewrite <- He. lia.
Qed.

(** A handler registered under a fresh identifier. *)
Lemma register_ok w id h handle deadlines e :
  loop_ok w → 0 < id < next_id (loop w) → handlers (loop w) !! id = None →
  id ∉ notified (trace w) → clock (env w) <= clock e →
  entries e = <[id := (handle, hi_handle_signals h)]> (entries (env w)) →
  (∀ d, d ∈ handler_deadlines (loop w) → hd_id d ≠ id) →
  (deadlines = handler_deadlines (loop w) ∧ hi_absolute_deadline h = kInvalidTimeTicks ∨
   0 < hi_absolute_deadline h ∧ deadlines = pq_push HandlerDeadlineInfo_lt
     (mkHandlerDeadlineInfo id (hi_absolute_deadline h)) (handler_deadlines (loop w))) →
  keeps w (mkWorld (set_handlers (<[id := h]> (handlers (loop w)))
    (set_handler_deadlines deadlines (loop w))) e (memory w) (trace w)).
Proof.
  intros [] Hid Hnone Hnot Hc He Hfree Hd.
  assert (∀ d, d ∈ handler_deadlines (loop w) → d ∈ deadlines) as Hsub.
  { intros d Hin. destruct Hd as [[-> _]|[_ ->]]; [done|]. rewrite pq_push_Permutation. by right. }
  split; [|split; [done|done|done|by exists []|by exists []]].
  split; cbn; try rewrite He; try done.
  - intros i h' [[<- <-]|[Hne Hi]]%lookup_insert_Some.
    + split; [lia|]. by rewrite lookup_insert_eq.
    + destruct (ok_handlers0 i h' Hi) as [? ?]. split; [lia|]. by rewrite lookup_insert_ne.
  - intros i [x [[<- _]|[_ Hi]]%lookup_insert_Some]; [lia|]. eauto.
  - intros i h' [[<- <-]|[Hne Hi]]%lookup_insert_Some Hinv.
    + destruct Hd as [[_ Hd]|[_ ->]]; [done|]. rewrite pq_push_Permutation. by left.
    + auto.
  - intros d Hin. destruct Hd as [[-> _]|[? ->]]; [eauto|].
    rewrite pq_push_Permutation in Hin. apply elem_of_cons in Hin as [->|Hin]; [cbn; lia|eauto].
  - assert (∀ d, d ∈ deadlines → d ∈ handler_deadlines (loop w) ∨
      d = mkHandlerDeadlineInfo id (hi_absolute_deadline h)) as Hsup.
    { intros d Hin. destruct Hd as [[-> _]|[_ ->]]; [by left|].
      rewrite pq_push_Permutation in Hin. apply elem_of_cons in Hin as [->|]; auto. }
    intros d h' [Hin| ->]%Hsup Hl; cbn in Hl |- *.
    + rewrite lookup_insert_ne in Hl; [eauto|]. by apply not_eq_sym, Hfree.
    + rewrite lookup_insert_eq in Hl. by injection Hl as ->.
  - destruct Hd as [[-> _]|[_ ->]]; [done|].
    apply pq_push_sorted; [apply HandlerDeadlineInfo_lt_asym|apply HandlerDeadlineInfo_lt_neg|done].
  - intros i Hi. destruct (ok_notified0 i Hi). split; [done|].
    rewrite lookup_insert_ne; [done|]. by intros ->.
Qed.

Lemma Quit_keeps w : loop_ok w → safely Quit w (λ _, keeps w).
Proof.
  intros []. apply safely_modify_loop. destruct (run_states (loop w)) as [|r rs] eqn:Hr.
  - destruct w. cbn in *. split; [by split|done].
  - split; [split; cbn; eauto|split; cbn; [done|done|by rewrite Hr|by exists []|by exists []]].
Qed.

(** The deadline of a new handler: forever, or in the queue. *)
Definition deadline_queued w id (a : Z) w' : Prop :=
  ∃ deadlines e, w' = mkWorld (set_handler_deadlines deadlines (loop w)) e (memory w) (trace w) ∧
    clock (env w) <= clock e ∧ entries e = entries (env w) ∧
    (deadlines = handler_deadlines (loop w) ∧ a = kInvalidTimeTicks ∨
     0 < a ∧ deadlines = pq_push HandlerDeadlineInfo_lt (mkHandlerDeadlineInfo id a)
       (handler_deadlines (loop w))).

Lemma absolute_deadline_keeps w id deadline :
  loop_ok w → 0 <= deadline →
  safely (if deadline <=? kMaxMojoTimeTicks then
       now ← GetTimeTicksNow;
       if deadline <=? u64 (kMaxMojoTimeTicks - now) then
         modify_loop (λ l, set_handler_deadlines
           (pq_push HandlerDeadlineInfo_lt (mkHandlerDeadlineInfo id (now + deadline))
             (handler_deadlines l)) l);;
         mret (now + deadline)
       else mret kInvalidTimeTicks
     else mret kInvalidTimeTicks) w (deadline_queued w id).
Proof.
  intros Hok Hdeadline.
  assert (∀ e, clock (env w) <= clock e → entries e = entries (env w) →
    deadline_queued w id kInvalidTimeTicks (mkWorld (loop w) e (memory w) (trace w))) as Hforever.
  { intros e Hc He. exists (handler_deadlines (loop w)), e. split_and!; [|done|done|by left].
    by destruct (loop w). }
  destruct (deadline <=? kMaxMojoTimeTicks).
  2: { destruct w. by apply safely_ret, Hforever. }
  apply safely_bind, safely_call_env. pose proof (now_spec (env w)) as Hnow.
  destruct (env_now (env w)) as [t e]. destruct Hnow as (Hc & Ht & He).
  destruct (_ <=? _).
  - apply safely_bind, safely_modify_loop, safely_ret. eexists _, e. cbn.
    split_and!; [reflexivity|lia|done|right; split; [lia|done]].
  - apply safely_ret, Hforever; [lia|done].
Qed.

Lemma AddHandler_keeps w handler handle handle_signals deadline :
  loop_ok w → handler ≠ 0 → handle ≠ MOJO_HANDLE_INVALID → 0 <= deadline →
  safely (AddHandler handler handle handle_signals deadline) w (λ _, keeps w).
Proof.
  intros Hok Hr Hh Hdl. unfold AddHandler. do 2 (apply safely_bind, safely_assert; [lia|]).
  apply safely_bind. eapply safely_mono; [by apply new_id_keeps|].
  intros id w1 ([Hok1 Hl1] & -> & Hn & Hhs & He1 & Hds & _ & Htr).
  apply safely_bind. eapply safely_mono; [by apply absolute_deadline_keeps|].
  intros a w2 (deadlines & e & -> & Hc & He & Hd).
  apply safely_bind, safely_modify_loop. cbn [loop env memory trace].
  assert (handlers (loop w) !! next_id (loop w) = None) as Hfresh.
  { apply eq_None_not_Some. intros [h Hx%(ok_handlers _ Hok)]. lia. }
  apply safely_bind, safely_call_env. cbn [loop env].
  pose proof (add_spec handle handle_signals (next_id (loop w)) e) as Hadd.
  destruct (env_add _ _ _ e) as [r e']. destruct Hadd as (Hc' & Hadd).
  destruct Hadd as [-> He'].
  { rewrite He, He1. apply eq_None_not_Some. intros Hx%(ok_entries _ Hok). lia. }
  apply safely_bind, safely_assert; [done|]. apply safely_ret. cbn [handlers set_handler_deadlines].
  rewrite Hhs, Hfresh, <- Hhs.
  assert (next_id (loop w) ∉ notified (trace w1)) as Hnot.
  { rewrite Htr. intros Hid%(ok_notified _ Hok). lia. }
  pose proof (ok_next _ Hok).
  destruct (register_ok w1 (next_id (loop w)) (mkHandlerInfo handler handle_signals a) handle
    deadlines e') as [Hok2 Hl2]; try done.
  - lia.
  - by rewrite Hhs.
  - lia.
  - by rewrite He', He.
  - intros d Hd0. rewrite Hds in Hd0. apply (ok_deadline_ids _ Hok) in Hd0. lia.
  - split; [exact Hok2|]. etransitivity; [exact Hl1|exact Hl2].
Qed.

(** ** Callbacks *)

(** What a nested run guarantees to the callback that started it. *)
Class RunSafe (run : bool → stateR (World E C) unit) : Prop :=
  run_safe quit_when_idle w : loop_ok w → safely (run quit_when_idle) w (λ _, keeps w).

Lemma keeps_bind {A} (e : stateR (World E C) A) (k : A → stateR (World E C) unit) w :
  safely e w (λ _, keeps w) → (∀ a w', loop_ok w' → safely (k a) w' (λ _, keeps w')) →
  safely (e ≫= k) w (λ _, keeps w).
Proof.
  intros He Hk. apply safely_bind. eapply safely_mono; [exact He|].
  intros a w1 [Hok1 Hl1]. eapply safely_mono; [by apply Hk|].
  intros _ w2 [Hok2 Hl2]. split; [done|]. by etransitivity.
Qed.

Context (client : Client C) (Hclient : client_ok client).
Context (run : bool → stateR (World E C) unit) `{!RunSafe run}.

Lemma exec_keeps p w : prog_ok p → loop_ok w → safely (exec run p) w (λ _, keeps w).
Proof.
  revert w. induction p as [|handler handle sigs deadline k IH|id k IH|task delay k IH|k IH
    |q k IH|call k IH|k IH|c k IH]; intros w Hp Hok; cbn [exec].
  - by apply safely_ret.
  - destruct Hp as (? & ? & ? & Hk). apply keeps_bind; [apply AddHandler_keeps; tauto|auto].
  - apply keeps_bind; [by apply RemoveHandler_keeps|auto].
  - destruct Hp as [? Hk]. apply keeps_bind; [by apply PostDelayedTask_keeps|auto].
  - apply keeps_bind; [by apply Quit_keeps|auto].
  - apply keeps_bind; [by apply run_safe|auto].
  - apply keeps_bind; [|auto]. apply safely_call_env. pose proof (other_spec call (env w)) as Ho.
    destruct (env_other call (env w)). destruct Ho as [??]. by apply env_keeps.
  - by apply IH.
  - destruct (memory_keeps w c Hok) as [Hok' Hl]. eapply safely_mono; [by apply IH|].
    intros _ w' [??]. split; [done|]. by etransitivity.
Qed.

(** A call to the application is recorded, then made. *)
Lemma log_keeps w ev :
  loop_ok w →
  (∀ id, notified_id ev = Some id →
     id < next_id (loop w) ∧ handlers (loop w) !! id = None ∧ id ∉ notified (trace w)) →
  safely (log ev) w (λ _, keeps w).
Proof.
  intros [] Hev. apply safely_log.
  split; [|split; [done|done|done|by exists []|by exists [ev]]].
  assert (notified (ev :: trace w) = option_list (notified_id ev) ++ notified (trace w)) as Heq
    by (unfold notified; cbn; by destruct (notified_id ev)).
  split; cbn [loop env memory trace]; try done; rewrite Heq;
    destruct (notified_id ev) as [id|]; cbn; try done;
    destruct (Hev id eq_refl) as (? & ? & ?).
  - by constructor.
  - intros i [->|Hi]%elem_of_cons; [done|by apply ok_notified0].
Qed.

Lemma call_task_keeps w t : loop_ok w → safely (call_task client run t) w (λ _, keeps w).
Proof.
  intros Hok. apply keeps_bind; [by apply log_keeps|].
  intros _ w' Hok'. apply exec_keeps; [apply Hclient|done].
Qed.

Lemma call_handler_keeps w handler id r :
  loop_ok w → id < next_id (loop w) → handlers (loop w) !! id = None →
  id ∉ notified (trace w) →
  safely (if r =? MOJO_RESULT_OK then call_ready client run handler id
          else call_error client run handler id r) w (λ _, keeps w).
Proof.
  intros Hok H1 H2 H3. destruct (r =? MOJO_RESULT_OK); (apply keeps_bind;
    [apply log_keeps; [done|]; by intros ? [= <-]|]);
    intros _ w' Hok'; (apply exec_keeps; [apply Hclient|done]).
Qed.

Lemma call_error_keeps w handler id r :
  loop_ok w → id < next_id (loop w) → handlers (loop w) !! id = None →
  id ∉ notified (trace w) → safely (call_error client run handler id r) w (λ _, keeps w).
Proof.
  intros Hok H1 H2 H3. apply keeps_bind; [apply log_keeps; [done|]; by intros ? [= <-]|].
  intros _ w' Hok'. apply exec_keeps; [apply Hclient|done].
Qed.

(** ** The parts of an iteration *)
Definition running w : Prop := run_states (loop w) ≠ [].
Definition quitting w : bool :=
  match run_states (loop w) with r :: _ => should_quit r | [] => false end.

Lemma keeps_running w w' : keeps w w' → running w → running w'.
Proof.
  intros [_ Hl] Hr Hnil. apply Hr. apply nil_length_inv. by rewrite <- (later_depth _ _ Hl), Hnil.
Qed.

Lemma safely_current w (Q : RunState → World E C → Prop) :
  running w →
  (∀ r rs, run_states (loop w) = r :: rs → should_quit r = quitting w → Q r w) →
  safely current_run_state w Q.
Proof.
  unfold running, quitting, safely, current_run_state, mbind, stateR_bind, get_loop.
  destruct (run_states (loop w)) as [|r rs]; [done|]. intros _ HQ. by apply (HQ r rs).
Qed.

(** Tasks taken off the queue. *)
Lemma pop_task_keeps w t rest :
  loop_ok w → delayed_tasks (loop w) = t :: rest →
  keeps w (mkWorld (set_delayed_tasks rest (loop w)) (env w) (memory w) (trace w)).
Proof.
  intros [] Ht. rewrite Ht in *.
  split; [split; cbn; try done|split; [done|done|done| |by exists []]].
  - intros t' Ht'. apply ok_task_ids0. by right.
  - by apply StronglySorted_inv in ok_tasks_sorted0 as [? _].
  - exists []. split; [|done]. cbn. rewrite Ht. apply submseteq_cons. done.
Qed.

(** Deadlines of which no handler is left taken off the queue. *)
Lemma pop_deadlines_keeps w gone rest :
  loop_ok w → handler_deadlines (loop w) = gone ++ rest →
  (∀ d, d ∈ gone → handlers (loop w) !! hd_id d = None) →
  keeps w (mkWorld (set_handler_deadlines rest (loop w)) (env w) (memory w) (trace w)).
Proof.
  intros [] Hd Hgone. rewrite Hd in *.
  split; [split; cbn; try done|split; [done|done|done|by exists []|by exists []]].
  - intros i h Hh Hinv. specialize (ok_deadlines0 i h Hh Hinv).
    apply elem_of_app in ok_deadlines0 as [Hg|]; [|done].
    apply Hgone in Hg. cbn in Hg. congruence.
  - intros d Hin. apply ok_deadline_ids0, elem_of_app. by right.
  - intros d h Hin. apply ok_deadlines_agree0, elem_of_app. by right.
  - clear -ok_deadlines_sorted0. induction gone as [|g gone IH]; [done|].
    apply IH. by apply StronglySorted_inv in ok_deadlines_sorted0 as [? _].
Qed.

Lemma run_ready_tasks_keeps fuel now_task sc w :
  loop_ok w → running w → quitting w = false →
  safely (run_ready_tasks client run fuel now_task sc) w (λ out w', keeps w w' ∧
    (out.1 = false → quitting w' = false)).
Proof.
  revert sc w. induction fuel as [|fuel IH]; intros sc w Hok Hr Hq; cbn [run_ready_tasks].
  { apply safely_limit. unfold limit; auto. }
  apply safely_bind, safely_get_loop.
  destruct (delayed_tasks (loop w)) as [|t rest] eqn:Ht; [by apply safely_ret|].
  destruct (DelayedTaskInfo_lt now_task t); [|by apply safely_ret].
  apply safely_bind, safely_modify_loop. destruct (pop_task_keeps w t rest) as [Hok1 Hl1]; [done..|].
  apply safely_bind. eapply safely_mono; [by apply call_task_keeps|].
  intros _ w2 [Hok2 Hl2]. assert (keeps w w2) as Hk by (split; [done|by etransitivity]).
  apply safely_bind, safely_current; [by eapply keeps_running|]. intros r rs _ Hrq.
  destruct (should_quit r); [by apply safely_ret|].
  eapply safely_mono; [apply IH; [done|by eapply keeps_running|done]|].
  intros out w3 [[Hok3 Hl3] Hout]. split; [|done]. split; [done|].
  etransitivity; [apply Hk|done].
Qed.

Lemma notify_results_keeps results did w :
  loop_ok w → running w →
  safely (notify_results client run results did) w (λ _, keeps w).
Proof.
  revert did w. induction results as [|res results IH]; intros did w Hok Hr; cbn [notify_results].
  { by apply safely_ret. }
  apply safely_bind, safely_get_loop.
  destruct (handlers (loop w) !! cookie res) as [info|] eqn:Hh; [|by apply IH].
  eapply unregister_keeps; [done|done|]. intros w1 Hk1 Hrs1 Hn1 Hid Htr Hnot.
  apply safely_bind, safely_assert; [done|]. apply safely_bind.
  eapply safely_mono; [apply call_handler_keeps; [apply Hk1|done|done|by rewrite Htr]|].
  intros _ w2 [Hok2 Hl2].
  assert (keeps w w2) as Hk by (split; [done|etransitivity; [apply Hk1|done]]).
  apply safely_bind, safely_current; [by eapply keeps_running|]. intros r rs _ _.
  destruct (should_quit r); [by apply safely_ret|].
  eapply safely_mono; [apply IH; [done|by eapply keeps_running]|].
  intros b w3 [Hok3 Hl3]. split; [done|]. etransitivity; [apply Hk|done].
Qed.

(** No handler whose deadline is [a] or earlier is left. *)
Definition none_due w (a : Z) : Prop :=
  ∀ id h, handlers (loop w) !! id = Some h → hi_absolute_deadline h ≠ kInvalidTimeTicks →
    a < hi_absolute_deadline h.

Lemma none_due_queue w a :
  loop_ok w → (∀ d rest, handler_deadlines (loop w) = d :: rest → a < hd_absolute_deadline d) →
  none_due w a.
Proof.
  intros Hok Htop id h Hh Hinv. pose proof (ok_deadlines _ Hok id h Hh Hinv) as Hin.
  pose proof (ok_deadlines_sorted _ Hok) as Hs.
  destruct (handler_deadlines (loop w)) as [|d rest] eqn:Hd; [by apply elem_of_nil in Hin|].
  specialize (Htop d rest eq_refl). apply StronglySorted_inv in Hs as [_ Hs].
  apply elem_of_cons in Hin as [<-|Hin]; [done|].
  eapply Forall_forall in Hs; [|exact Hin]. unfold HandlerDeadlineInfo_lt in Hs. cbn in Hs.
  case_match; lia.
Qed.

(** The handler of the first deadline, called. *)
Lemma call_expired_keeps w d rest info :
  loop_ok w → handler_deadlines (loop w) = d :: rest →
  handlers (loop w) !! hd_id d = Some info →
  safely (modify_loop (λ l, set_handlers (delete (hd_id d) (handlers l)) l);;
          modify_loop (set_handler_deadlines rest);;
          call_error client run (hi_handler info) (hd_id d) MOJO_RESULT_DEADLINE_EXCEEDED)
    w (λ _, keeps w).
Proof.
  intros Hok Hd Hh.
  apply safely_bind, safely_modify_loop, safely_bind, safely_modify_loop.
  cbn [loop env memory trace].
  destruct (erase_keeps w (hd_id d) Hok) as [Hok1 Hl1].
  eassert (keeps _ _) as [Hok2 Hl2].
  { apply (pop_deadlines_keeps _ [d] rest Hok1 Hd).
    intros d' ->%list_elem_of_singleton. cbn. by rewrite lookup_delete_eq. }
  eapply safely_mono.
  { apply call_error_keeps; [exact Hok2|cbn; by apply (ok_handlers _ Hok) in Hh as [? _]; lia
      |cbn; by rewrite lookup_delete_eq|cbn].
    intros Hn. by destruct (ok_notified _ Hok _ Hn); congruence. }
  intros [] w3 [Hok3 Hl3]. split; [done|]. etransitivity; [exact Hl1|]. by etransitivity.
Qed.

Lemma notify_deadlines_keeps fuel a did w :
  loop_ok w → running w →
  safely (notify_deadlines client run fuel a did) w (λ _ w', keeps w w' ∧
    (quitting w' = false → none_due w' a)).
Proof.
  revert did w. induction fuel as [|fuel IH]; intros did w Hok Hr; cbn [notify_deadlines].
  { apply safely_limit. unfold limit; auto. }
  assert (∀ w1 did', keeps w w1 → safely (notify_deadlines client run fuel a did') w1 (λ _ w',
    keeps w w' ∧ (quitting w' = false → none_due w' a))) as Hnext.
  { intros w1 did' Hk. eapply safely_mono; [apply IH; [apply Hk|by eapply keeps_running]|].
    intros b w2 [??]. split; [by eapply keeps_trans|done]. }
  apply safely_bind, safely_get_loop.
  destruct (handler_deadlines (loop w)) as [|d rest] eqn:Hd.
  { apply safely_ret. split; [by apply keeps_refl|]. intros _. apply none_due_queue; [done|].
    by rewrite Hd. }
  destruct (a <? hd_absolute_deadline d) eqn:Hlt.
  { apply safely_ret. split; [by apply keeps_refl|]. intros _. apply none_due_queue; [done|].
    rewrite Hd. intros ?? [= <- <-]. lia. }
  destruct (handlers (loop w) !! hd_id d) as [info|] eqn:Hh.
  - pose proof (call_expired_keeps w d rest info Hok Hd Hh) as Hcall.
    unfold safely, mbind, stateR_bind, modify_loop in Hcall |- *.
    cbn [loop env memory trace] in Hcall |- *.
    destruct (call_error _ _ _ _ _ _) as [[[] w1]|]; [|done].
    apply safely_bind, safely_current; [by eapply keeps_running|]. intros r rs _ Hq.
    destruct (should_quit r); [|by apply Hnext]. apply safely_ret. split; [done|].
    by rewrite <- Hq.
  - apply safely_bind, safely_modify_loop, Hnext.
    apply (pop_deadlines_keeps _ [d]); [done|done|]. by intros d' ->%list_elem_of_singleton.
Qed.

(** ** An iteration *)
Lemma drop_stale_prefix (h : gmap Z HandlerInfo) q :
  ∃ gone, q = gone ++ drop_stale h q ∧ ∀ d, d ∈ gone → h !! hd_id d = None.
Proof.
  induction q as [|d q (gone & Hq & Hgone)]; cbn.
  { exists []. split; [done|]. by intros ? ?%elem_of_nil. }
  destruct (h !! hd_id d) eqn:Hd; [exists []|exists (d :: gone)].
  - split; [done|]. by intros ? ?%elem_of_nil.
  - split; [cbn; by rewrite <- Hq|]. intros d' [->|Hd']%elem_of_cons; auto.
Qed.

Lemma CalculateAbsoluteDeadline_keeps w :
  loop_ok w → handlers (loop w) ≠ ∅ →
  safely CalculateAbsoluteDeadline w (λ _ w', keeps w w' ∧
    handlers (loop w') = handlers (loop w) ∧ run_states (loop w') = run_states (loop w)).
Proof.
  intros Hok Hne. unfold CalculateAbsoluteDeadline.
  apply safely_bind, safely_get_loop, safely_bind, safely_assert.
  { by rewrite bool_decide_false. }
  destruct (drop_stale_prefix (handlers (loop w)) (handler_deadlines (loop w)))
    as (gone & Hq & Hgone).
  destruct (match delayed_tasks (loop w) with [] => _ | _ => _ end) as [a is_task].
  apply safely_bind, safely_modify_loop, safely_bind, safely_get_loop.
  pose proof (pop_deadlines_keeps w gone _ Hok Hq Hgone) as Hk.
  repeat case_match; by apply safely_ret.
Qed.

Lemma frame_keeps w r :
  loop_ok w → running w →
  keeps w (mkWorld (set_run_states (r :: tail (run_states (loop w))) (loop w)) (env w) (memory w)
    (trace w)).
Proof.
  unfold running. intros [] Hr. split; [by split|]. split; [done|done| |by exists []|by exists []].
  cbn. by destruct (run_states (loop w)).
Qed.

Lemma WaitSetWait_keeps w deadline n :
  loop_ok w →
  safely (WaitSetWait deadline n) w (λ out w', keeps w w' ∧ loop w' = loop w ∧
    (out.1.1 = MOJO_RESULT_OK ∧ out.1.2 ≠ [] ∨
     out.1.1 = MOJO_RESULT_DEADLINE_EXCEEDED ∧ deadline ≠ MOJO_DEADLINE_INDEFINITE)).
Proof.
  intros Hok. unfold safely, WaitSetWait. pose proof (wait_spec deadline n (env w)) as Hw.
  destruct (env_wait deadline n (env w)) as [[[[rv results] mx] e]|]; [|by right; right].
  destruct Hw as (Hc & He & Hrv). split_and!; [by apply env_keeps|done|].
  destruct Hrv as [[-> Hres]|[-> Hd]]; cbn; auto.
Qed.

(** What is checked at the end of an iteration. *)
Lemma wait_and_notify_keeps fuel q now sc w :
  loop_ok w → running w → handlers (loop w) ≠ ∅ →
  safely (wait_and_notify client run fuel q now sc) w (λ continue w', keeps w w' ∧
    (continue = true → quitting w' = false)).
Proof.
  intros Hok Hr Hne. unfold wait_and_notify. apply safely_bind.
  eapply safely_mono with (P := λ _ w', keeps w w' ∧ handlers (loop w') = handlers (loop w) ∧
    run_states (loop w') = run_states (loop w)).
  { destruct q; [by apply safely_ret|by apply CalculateAbsoluteDeadline_keeps]. }
  intros [a is_task] w1 (Hk1 & Hh1 & Hrs1).
  apply safely_bind, safely_current; [by eapply keeps_running|]. intros r rs Hrs Hrq.
  apply safely_bind. eapply safely_mono; [apply WaitSetWait_keeps, Hk1|].
  intros [[rv results] mx] w2 (Hk2 & Hloop2 & Hrv). cbn [fst snd] in Hrv.
  assert (running w2) as Hr2 by (eapply keeps_running; [exact Hk2|by eapply keeps_running]).
  apply safely_bind. eapply safely_mono with (P := λ _, keeps w2).
  { destruct (rv =? MOJO_RESULT_OK) eqn:Erv.
    - assert (results ≠ []) as Hres by (destruct Hrv as [[_ ?]|[-> _]]; done).
      apply safely_bind. eapply safely_mono with (P := λ _, keeps w2).
      { destruct (_ <? mx); [|apply safely_ret, keeps_refl, Hk2].
        apply safely_modify_loop, frame_keeps; [apply Hk2|done]. }
      intros _ w3 Hk3. unfold NotifyResults. apply safely_bind, safely_bind, safely_assert.
      { by rewrite bool_decide_false. }
      eapply safely_mono; [apply notify_results_keeps; [apply Hk3|by eapply keeps_running]|].
      intros b w4 Hk4. apply safely_ret. by eapply keeps_trans.
    - destruct Hrv as [[-> _]|[-> Hd]]; [done|]. cbn [Z.eqb]. rewrite Z.eqb_refl.
      apply safely_bind. unfold NotifyHandlersDeadlineExceeded.
      apply safely_bind, safely_get_loop, safely_bind, safely_assert.
      { by rewrite Hloop2, Hh1, bool_decide_false. }
      apply safely_bind, safely_assert.
      { by destruct (a =? kInvalidTimeTicks). }
      eapply safely_mono; [apply notify_deadlines_keeps; [apply Hk2|done]|].
      intros b w4 [Hk4 _]. by apply safely_ret. }
  intros sc' w3 Hk3.
  assert (keeps w w3) as Hk.
  { eapply keeps_trans; [exact Hk1|]. by eapply keeps_trans. }
  apply safely_bind, safely_current; [by eapply keeps_running|]. intros r' rs' _ Hq'.
  apply safely_bind, safely_get_loop, safely_ret. split; [done|].
  rewrite <- Hq'. by destruct (should_quit r').
Qed.

Lemma DoIteration_keeps fuel q w :
  loop_ok w → running w → quitting w = false →
  safely (DoIteration client run fuel q) w (λ continue w', keeps w w' ∧
    (continue = true → quitting w' = false)).
Proof.
  intros Hok Hr Hq. unfold DoIteration.
  apply safely_bind, safely_current; [done|]. intros r rs _ Hrq.
  apply safely_bind, safely_assert; [by rewrite Hrq, Hq|].
  apply safely_bind. eapply safely_mono; [by apply now_keeps|].
  intros now w1 (Hk1 & Hloop1 & _ & _). apply safely_bind, safely_get_loop.
  apply safely_bind. eapply safely_mono.
  { apply run_ready_tasks_keeps; [apply Hk1|by eapply keeps_running|].
    unfold quitting. by rewrite Hloop1. }
  intros [quit sc] w2 [Hk2 Hq2]. cbn [fst] in Hq2.
  assert (keeps w w2) as Hk by (split; [apply Hk2|etransitivity; [apply Hk1|apply Hk2]]).
  destruct quit; [by apply safely_ret|]. apply safely_bind, safely_get_loop.
  case_bool_decide as Hh; [apply safely_ret; auto|].
  eapply safely_mono; [apply wait_and_notify_keeps; [apply Hk|by eapply keeps_running|done]|].
  intros b w3 [Hk3 Hb]. split; [|done]. split; [apply Hk3|].
  etransitivity; [apply Hk|apply Hk3].
Qed.

Lemma iterate_keeps iterations fuel q w :
  loop_ok w → running w → quitting w = false →
  safely (iterate client run iterations fuel q) w (λ _, keeps w).
Proof.
  revert w. induction iterations as [|n IH]; intros w Hok Hr Hq; cbn [iterate].
  { apply safely_limit. unfold limit; auto. }
  apply safely_bind. eapply safely_mono; [by apply DoIteration_keeps|].
  intros continue w1 [Hk1 Hq1]. destruct continue; [|by apply safely_ret].
  eapply safely_mono; [apply IH; [apply Hk1|by eapply keeps_running|auto]|].
  intros [] w2 Hk2. by eapply keeps_trans.
Qed.
End invariant.

(** ** The loop discharges what its callbacks rely on *)
Section runs.
Context {E C : Type} `{!LoopEnv E, !LoopEnvLaws E}.
Context (client : Client C) (Hclient : client_ok client).
Implicit Types (w : World E C).

#[export] Instance RunInternal_safe fuel : RunSafe (RunInternal client fuel).
Proof.
  induction fuel as [|fuel IH]; intros q w Hok; cbn [RunInternal].
  { apply safely_limit. unfold limit; auto. }
  apply safely_bind, safely_modify_loop.
  set (w1 := mkWorld _ _ _ _). assert (loop_ok w1) as Hok1 by (by destruct Hok; split).
  apply safely_bind. eapply safely_mono; [by apply iterate_keeps|].
  intros _ w2 [Hok2 Hl2]. apply safely_modify_loop. destruct Hok2, Hl2. split; [by split|].
  split; cbn in *; try done. destruct (run_states (loop w2)); cbn in *; lia.
Qed.

Lemma first_handler_Some (h : gmap Z HandlerInfo) id info :
  first_handler h = Some (id, info) → h !! id = Some info.
Proof.
  unfold first_handler. intros Hf. apply elem_of_map_to_list. revert Hf.
  induction (map_to_list h) as [|p l IH]; cbn; [done|].
  destruct (foldr _ None l) as [q|]; [|intros [= ->]; by left].
  destruct (p.1 <? q.1); intros [= ->]; [by left|right; by apply IH].
Qed.

Lemma first_handler_None (h : gmap Z HandlerInfo) : first_handler h = None → h = ∅.
Proof.
  unfold first_handler. intros Hf. apply map_to_list_empty_iff. revert Hf.
  destruct (map_to_list h) as [|p l]; cbn; [done|].
  destruct (foldr _ None l) as [q|]; [by destruct (p.1 <? q.1)|done].
Qed.

Lemma RunLoop_destroy_keeps fuel w :
  loop_ok w → safely (RunLoop_destroy client fuel) w (λ _ w', keeps w w' ∧
    handlers (loop w') = ∅).
Proof.
  revert w. induction fuel as [|fuel IH]; intros w Hok; cbn [RunLoop_destroy].
  { apply safely_limit. unfold limit; auto. }
  apply safely_bind, safely_get_loop.
  destruct (first_handler (handlers (loop w))) as [[id info]|] eqn:Hf.
  - assert (handlers (loop w) !! id = Some info) as Hh
      by by apply first_handler_Some.
    apply safely_bind, safely_modify_loop. destruct (erase_keeps w id Hok) as [Hok1 Hl1].
    apply safely_bind. eapply safely_mono.
    { apply call_error_keeps; [done|apply _|exact Hok1|cbn; by apply (ok_handlers _ Hok) in Hh as [? _]; lia
        |cbn; by rewrite lookup_delete_eq|cbn].
      intros Hn. by destruct (ok_notified _ Hok _ Hn); congruence. }
    intros _ w2 [Hok2 Hl2]. eapply safely_mono; [by apply IH|].
    intros _ w3 [[Hok3 Hl3] He]. split; [|done]. split; [done|].
    etransitivity; [exact Hl1|]. by etransitivity.
  - apply safely_ret. split; [done|]. by apply first_handler_None.
Qed.

(** C4: Running the loop, and destroying it, commits no fault, against any system
    that behaves as documented and any application that passes valid arguments:
    no assertion fails (in particular every entry the loop removes is in the wait
    set, and waits end as expected), no null run state is used, the tables agree
    again when it returns, no registration is notified twice, and nested runs
    leave the outer one in place.  After the destructor no handler is left. *)
Theorem run_loop_safe fuel quit_when_idle w :
  loop_ok w →
  safely (RunInternal client fuel quit_when_idle) w (λ _ w',
    loop_ok w' ∧ NoDup (notified (trace w')) ∧
    length (run_states (loop w')) = length (run_states (loop w)) ∧
    ∃ evs, trace w' = evs ++ trace w) ∧
  safely (RunLoop_destroy client fuel) w (λ _ w',
    loop_ok w' ∧ NoDup (notified (trace w')) ∧ handlers (loop w') = ∅).
Proof.
  intros Hok. split.
  - eapply safely_mono; [by apply RunInternal_safe|].
    intros [] w' [Hok' []]. by split_and!; [|apply Hok'|..].
  - eapply safely_mono; [by apply RunLoop_destroy_keeps|].
    intros [] w' [[Hok' _] He]. by split_and!; [|apply Hok'|].
Qed.
End runs.
