(* ===== verification/RunLoopTasks.v ===== *)
(** * The run loop's tasks

    Which of the posted tasks an iteration of the loop runs, and in which order;
    and that the loop ends when the application posts finitely much work. *)
From stdpp Require Import base list numbers option gmap sorting.
From S2P Require Import Prelude MojoResult System Codec RunLoop RunLoopSafe.

(** [completes e w Q]: [e] returns from [w] with [Q], or has no identifier left
    to issue; it neither blocks nor runs out of fuel. *)
Definition completes {S A} (e : stateR S A) (w : S) (Q : A → S → Prop) : Prop :=
  match e w with Ok (a, w') => Q a w' | Crash f => f = OutOfIds end.

(** [steps R e]: [e] neither blocks nor loops, and takes any state to one related
    by [R]. *)
Definition steps {S A} (R : relation S) (e : stateR S A) : Prop :=
  ∀ w, match e w with
       | Ok (_, w') => R w w'
       | Crash f => f ≠ OutOfFuel ∧ f ≠ Blocked
       end.

Section steps_rules.
Context {S A B : Type} (R : relation S) `{!PreOrder R}.
Implicit Types (e : stateR S A).

Lemma steps_bind e (k : A → stateR S B) : steps R e → (∀ a, steps R (k a)) → steps R (e ≫= k).
Proof.
  unfold steps, mbind, stateR_bind. intros He Hk w. specialize (He w).
  destruct (e w) as [[a w']|]; [|done]. specialize (Hk a w').
  destruct (k a w') as [[b w'']|]; [|done]. by etransitivity.
Qed.
Lemma steps_ret (a : A) : steps R (mret (M:=stateR S) a).
Proof. intros w. cbn. reflexivity. Qed.
Lemma steps_assert (b : bool) : steps R (c_assert (S:=S) b).
Proof. intros w. destruct b; cbn; [reflexivity|done]. Qed.
Lemma steps_crash (f : fault) : f ≠ OutOfFuel → f ≠ Blocked → steps R (crash (A:=A) f).
Proof. done. Qed.
Lemma steps_if (b : bool) e1 e2 : steps R e1 → steps R e2 → steps R (if b then e1 else e2).
Proof. by destruct b. Qed.

(** What cannot block, and is safe, completes. *)
Lemma completes_safely e w Q :
  steps R e → safely e w Q → completes e w (λ a w', Q a w' ∧ R w w').
Proof.
  unfold steps, safely, completes, limit. intros He. specialize (He w).
  destruct (e w) as [[a w']|f]; [done|]. intros [|[|]]; tauto.
Qed.
End steps_rules.

Section completes_rules.
Context {S A B : Type}.
Implicit Types (e : stateR S A).

Lemma completes_bind e (k : A → stateR S B) w Q :
  completes e w (λ a w', completes (k a) w' Q) → completes (e ≫= k) w Q.
Proof. unfold completes, mbind, stateR_bind. by destruct (e w) as [[]|]. Qed.
Lemma completes_mono e w (P Q : A → S → Prop) :
  completes e w P → (∀ a w', P a w' → Q a w') → completes e w Q.
Proof. unfold completes. destruct (e w) as [[]|]; auto. Qed.
Lemma completes_ret a w (Q : A → S → Prop) : Q a w → completes (mret a) w Q.
Proof. done. Qed.
End completes_rules.

(** ** Which tasks an iteration runs *)

(** The tasks of the queue that come before the fake task [now_task]. *)
Definition ready (now_task : DelayedTaskInfo) (q : list DelayedTaskInfo)
    : list DelayedTaskInfo :=
  filter (λ t, DelayedTaskInfo_lt now_task t = true) q.

Lemma ready_push now_task t q :
  DelayedTaskInfo_lt now_task t = false →
  ready now_task (pq_push DelayedTaskInfo_lt t q) = ready now_task q.
Proof.
  intros Ht. unfold ready. induction q as [|t' q IH]; cbn [pq_push].
  - by rewrite filter_cons_False, filter_nil by congruence.
  - destruct (DelayedTaskInfo_lt t' t).
    + by rewrite filter_cons_False by congruence.
    + rewrite !filter_cons, IH. done.
Qed.

Lemma ready_nil now_task t q :
  pq_sorted DelayedTaskInfo_lt (t :: q) → DelayedTaskInfo_lt now_task t = false →
  ready now_task (t :: q) = [].
Proof.
  intros [_ Hq]%StronglySorted_inv Ht. unfold ready. rewrite filter_cons_False by congruence.
  induction Hq as [|t' q Ht' Hq IH]; [done|]. rewrite filter_cons_False; [done|].
  rewrite (DelayedTaskInfo_lt_neg now_task t t'); done.
Qed.

(** Ready at time [now]: due, since a task due now that is in the queue has an
    identifier below the next. *)
Lemma ready_due now id (q : list DelayedTaskInfo) :
  Forall (λ t, dt_id t < id) q →
  ready (mkDelayedTaskInfo id 0 now) q = filter (λ t, dt_absolute_run_time t <= now) q.
Proof.
  intros Hq. unfold ready. induction Hq as [|t q Ht Hq IH]; [done|].
  rewrite !filter_cons, IH. unfold DelayedTaskInfo_lt. cbn.
  repeat (case_decide || case_match); try done; lia.
Qed.

(** ** Callbacks that run no loop of their own *)
Fixpoint flat {C} (p : prog C) : Prop :=
  match p with
  | Finish => True
  | CallAddHandler _ _ _ _ k => ∀ id, flat (k id)
  | CallRemoveHandler _ k | CallPostDelayedTask _ _ k | CallQuit k | PutMemory _ k => flat k
  | CallRun _ _ => False
  | CallSystem _ k => ∀ r, flat (k r)
  | GetMemory k => ∀ c, flat (k c)
  end.

Section flat.
Context {E C : Type} `{!LoopEnv E, !LoopEnvLaws E}.
Implicit Types (w : World E C) (p : prog C).

Definition same_tasks w w' : Prop :=
  trace w' = trace w ∧ delayed_tasks (loop w') = delayed_tasks (loop w).
Definition same_trace w w' : Prop := trace w' = trace w.

#[local] Instance same_tasks_preorder : PreOrder same_tasks.
Proof. split; [done|]. unfold same_tasks. intros w1 w2 w3 [??] [??]. split; congruence. Qed.
#[local] Instance same_trace_preorder : PreOrder same_trace.
Proof. split; [done|]. unfold same_trace. intros w1 w2 w3 ??. congruence. Qed.

Lemma steps_call_env (R : relation (World E C)) {A} (f : E → A * E) :
  (∀ w e, R w (mkWorld (loop w) e (memory w) (trace w))) → steps R (call_env f).
Proof. intros HR w. unfold call_env. by destruct (f (env w)). Qed.

Lemma steps_modify_loop (R : relation (World E C)) f :
  (∀ w, R w (mkWorld (f (loop w)) (env w) (memory w) (trace w))) → steps R (modify_loop f).
Proof. done. Qed.

Lemma steps_get_loop (R : relation (World E C)) `{!PreOrder R} : steps R get_loop.
Proof. intros w. cbn. reflexivity. Qed.

(** Walks through an operation that has only such steps. *)
Ltac walk :=
  repeat first
    [ apply steps_bind; [apply _| |intros ?]
    | apply steps_if
    | apply steps_ret; apply _
    | apply steps_assert; apply _
    | by apply steps_crash
    | apply steps_get_loop; apply _
    | by apply steps_modify_loop
    | by apply steps_call_env
    | match goal with |- steps _ (match ?x with _ => _ end) => destruct x end ].

Lemma AddHandler_steps handler handle sigs deadline :
  steps same_tasks (AddHandler (E:=E) (C:=C) handler handle sigs deadline).
Proof. unfold AddHandler, new_id, GetTimeTicksNow, WaitSetAdd. walk. Qed.

Lemma RemoveHandler_steps id : steps same_tasks (RemoveHandler (E:=E) (C:=C) id).
Proof. unfold RemoveHandler, WaitSetRemove. walk. Qed.

Lemma Quit_steps : steps same_tasks (Quit (E:=E) (C:=C)).
Proof. apply steps_modify_loop. intros w. by destruct (run_states (loop w)). Qed.

Lemma PostDelayedTask_steps task delay :
  steps same_trace (PostDelayedTask (E:=E) (C:=C) task delay).
Proof. unfold PostDelayedTask, new_id, GetTimeTicksNow. walk. Qed.

(** A task posted now is not among the ready ones. *)
Lemma PostDelayedTask_ready now_task w task delay :
  loop_ok w → 0 <= delay <= max_delay →
  dt_id now_task <= next_id (loop w) → dt_absolute_run_time now_task <= clock (env w) →
  safely (PostDelayedTask task delay) w (λ _ w',
    ready now_task (delayed_tasks (loop w')) = ready now_task (delayed_tasks (loop w))).
Proof.
  intros Hok Hd Hid Hnow. unfold PostDelayedTask.
  apply safely_bind. eapply safely_mono; [by apply new_id_keeps|].
  intros id w1 ([Hok1 Hl1] & -> & Hn & _ & He & _ & Htasks & _).
  apply safely_bind. eapply safely_mono; [by apply now_keeps|].
  intros t w2 (_ & Hloop & Hc & Ht). apply safely_bind, safely_assert; [lia|].
  apply safely_modify_loop. cbn. rewrite Hloop, Htasks. apply ready_push.
  rewrite He in Hc. unfold DelayedTaskInfo_lt. cbn. case_match; lia.
Qed.

Context (run : bool → stateR (World E C) unit).

(** What a flat callback may do to the loop while tasks up to [now_task] run. *)
Definition aside now_task w w' : Prop :=
  keeps w w' ∧ trace w' = trace w ∧
  ready now_task (delayed_tasks (loop w')) = ready now_task (delayed_tasks (loop w)).

Lemma aside_same now_task w w' : keeps w w' → same_tasks w w' → aside now_task w w'.
Proof. intros ? [? Ht]. split_and!; [done|done|by rewrite Ht]. Qed.

Lemma aside_bind {A} now_task (e : stateR (World E C) A) (k : A → stateR (World E C) unit) w :
  completes e w (λ _, aside now_task w) →
  (∀ a w', keeps w w' → completes (k a) w' (λ _, aside now_task w')) →
  completes (e ≫= k) w (λ _, aside now_task w).
Proof.
  intros He Hk. apply completes_bind. eapply completes_mono; [exact He|].
  intros a w1 (Hk1 & Ht1 & Hr1). eapply completes_mono; [by apply Hk|].
  intros _ w2 (Hk2 & Ht2 & Hr2). split_and!; [by eapply keeps_trans|congruence|congruence].
Qed.

(** A call of a callback, then the rest of it. *)
Lemma aside_call {A} now_task (e : stateR (World E C) A) (k : A → stateR (World E C) unit) w :
  steps same_tasks e → safely e w (λ _, keeps w) →
  (∀ a w', keeps w w' → completes (k a) w' (λ _, aside now_task w')) →
  completes (e ≫= k) w (λ _, aside now_task w).
Proof.
  intros Hs He Hk. apply aside_bind; [|done].
  eapply completes_mono; [by apply (completes_safely same_tasks)|].
  intros a w' [? ?]. by apply aside_same.
Qed.

Lemma exec_flat now_task p w :
  flat p → prog_ok p → loop_ok w →
  dt_id now_task <= next_id (loop w) → dt_absolute_run_time now_task <= clock (env w) →
  completes (exec run p) w (λ _, aside now_task w).
Proof.
  revert w. induction p as [|handler handle sigs deadline k IH|id k IH|task delay k IH|k IH
    |q k IH|call k IH|k IH|c k IH]; intros w Hf Hp Hok Hid Hc; cbn [exec flat prog_ok] in *.
  all: assert (∀ w', keeps w w' → loop_ok w' ∧ dt_id now_task <= next_id (loop w') ∧
    dt_absolute_run_time now_task <= clock (env w')) as Hlater
    by (intros w' [? []]; split_and!; [done|lia|lia]).
  - apply completes_ret. by split_and!.
  - destruct Hp as (? & ? & ? & Hk). apply aside_call;
      [apply AddHandler_steps|apply AddHandler_keeps; tauto|].
    intros a w' (? & ? & ?)%Hlater. by apply IH.
  - apply aside_call; [apply RemoveHandler_steps|by apply RemoveHandler_keeps|].
    intros a w' (? & ? & ?)%Hlater. by apply IH.
  - destruct Hp as [? Hk]. apply aside_bind.
    2: { intros a w' (? & ? & ?)%Hlater. by apply IH. }
    pose proof (PostDelayedTask_keeps w task delay) as Hkeeps.
    pose proof (PostDelayedTask_ready now_task w task delay) as Hready.
    eapply completes_mono; [apply (completes_safely same_trace _ _ (λ _ w', keeps w w' ∧
      ready now_task (delayed_tasks (loop w')) = ready now_task (delayed_tasks (loop w))))|].
    + apply PostDelayedTask_steps.
    + unfold safely in *. destruct (PostDelayedTask task delay w) as [[]|]; auto.
    + intros a w' [[? ?] ?]. by split_and!.
  - apply aside_call; [apply Quit_steps|by apply Quit_keeps|].
    intros a w' (? & ? & ?)%Hlater. by apply IH.
  - done.
  - apply aside_call; [by apply steps_call_env| |].
    + apply safely_call_env. pose proof (other_spec call (env w)) as Ho.
      destruct (env_other call (env w)). destruct Ho as [??]. by apply env_keeps.
    + intros a w' (? & ? & ?)%Hlater. by apply IH.
  - by apply IH.
  - destruct (Hlater _ (memory_keeps w c Hok)) as (? & ? & ?).
    eapply completes_mono; [by apply IH|]. intros _ w' (Hk & Ht & Hr).
    split_and!; [|done|done]. eapply keeps_trans; [by apply memory_keeps|done].
Qed.
End flat.

Section ready_tasks.
Context {E C : Type} `{!LoopEnv E, !LoopEnvLaws E}.
Context (client : Client C) (Hclient : client_ok client).
Context (run : bool → stateR (World E C) unit).
Implicit Types (w : World E C).

(** A task that does not run the loop itself. *)
Definition plain (t : DelayedTaskInfo) : Prop := flat (RunTask client (dt_task t)).

Lemma call_task_flat now_task t w :
  plain t → loop_ok w → dt_id now_task <= next_id (loop w) →
  dt_absolute_run_time now_task <= clock (env w) →
  completes (call_task client run t) w (λ _ w', keeps w w' ∧
    trace w' = Ran (dt_id t) :: trace w ∧
    ready now_task (delayed_tasks (loop w')) = ready now_task (delayed_tasks (loop w))).
Proof.
  intros Hflat Hok Hid Hc. unfold call_task. apply completes_bind.
  assert (safely (log (Ran (dt_id t))) w (λ _, keeps w)) as Hlog by by apply log_keeps.
  unfold safely, log in Hlog. unfold completes, log. cbn in Hlog |- *.
  eapply completes_mono; [apply (exec_flat run now_task); [done|apply Hclient|apply Hlog|done|done]|].
  intros _ w' (Hk & Ht & Hr). split_and!; [by eapply keeps_trans|done|done].
Qed.

Lemma completes_current w (Q : RunState → World E C → Prop) :
  running w → (∀ r, should_quit r = quitting w → Q r w) → completes current_run_state w Q.
Proof.
  unfold running, quitting, completes, current_run_state, mbind, stateR_bind, get_loop.
  destruct (run_states (loop w)) as [|r rs]; [done|]. intros _ HQ. by apply (HQ r).
Qed.

Lemma run_ready_tasks_completes fuel now_task sc w :
  Forall plain (ready now_task (delayed_tasks (loop w))) →
  loop_ok w → running w → quitting w = false →
  dt_id now_task <= next_id (loop w) → dt_absolute_run_time now_task <= clock (env w) →
  (length (ready now_task (delayed_tasks (loop w))) < fuel)%nat →
  completes (run_ready_tasks client run fuel now_task sc) w (λ '(quit, worked) w', keeps w w' ∧
    quit = quitting w' ∧
    ∃ ran, ready now_task (delayed_tasks (loop w))
        = ran ++ ready now_task (delayed_tasks (loop w')) ∧
      trace w' = reverse (map (λ t, Ran (dt_id t)) ran) ++ trace w ∧
      (quit = false → ready now_task (delayed_tasks (loop w')) = []) ∧
      worked = sc || negb (bool_decide (ran = []))).
Proof.
  revert sc w. induction fuel as [|fuel IH]; intros sc w Hflat Hok Hr Hq Hid Hc Hfuel; [lia|].
  cbn [run_ready_tasks]. apply completes_bind. cbn [get_loop completes].
  assert (∀ q, delayed_tasks (loop w) = q → ready now_task q = [] →
    completes (mret (false, sc)) w (λ '(quit, worked) w', keeps w w' ∧ quit = quitting w' ∧
    ∃ ran, ready now_task q = ran ++ ready now_task (delayed_tasks (loop w')) ∧
      trace w' = reverse (map (λ t, Ran (dt_id t)) ran) ++ trace w ∧
      (quit = false → ready now_task (delayed_tasks (loop w')) = []) ∧
      worked = sc || negb (bool_decide (ran = [])))) as Hdone.
  { intros q Hdq Hrq. apply completes_ret. split_and!; [by apply keeps_refl|done|].
    exists []. rewrite Hdq, Hrq. split_and!; [done|done|done|by rewrite orb_false_r]. }
  destruct (delayed_tasks (loop w)) as [|t rest] eqn:Hdq; [by apply Hdone|].
  destruct (DelayedTaskInfo_lt now_task t) eqn:Hlt.
  2: { apply Hdone; [done|]. apply ready_nil; [|done]. rewrite <- Hdq. apply Hok. }
  apply completes_bind. cbn [modify_loop completes].
  assert (ready now_task (t :: rest) = t :: ready now_task rest) as Hrt
    by (unfold ready; by rewrite filter_cons_True).
  rewrite Hrt in *. cbn [length] in Hfuel. apply Forall_cons in Hflat as [Hplain Hflat].
  set (w1 := mkWorld _ _ _ _). assert (keeps w w1) as Hk1 by by eapply pop_task_keeps.
  apply completes_bind. eapply completes_mono; [apply call_task_flat; [done|apply Hk1|done|done]|].
  intros _ w2 (Hk2 & Ht2 & Hr2). change (ready now_task (delayed_tasks (loop w2)) =
    ready now_task rest) in Hr2. change (trace w2 = Ran (dt_id t) :: trace w) in Ht2.
  assert (keeps w w2) as Hk by by eapply keeps_trans.
  apply completes_bind, completes_current; [by eapply keeps_running|]. intros r Hrq.
  destruct (should_quit r).
  - apply completes_ret. split_and!; [done|done|]. exists [t].
    split_and!; [by rewrite Hr2|by rewrite Ht2|done|by rewrite orb_true_r].
  - pose proof Hk as [Hok2 []]. eapply completes_mono; [apply IH; try done; try lia|].
    + by rewrite Hr2.
    + by eapply keeps_running.
    + rewrite Hr2. lia.
    + intros [quit worked] w3 (Hk3 & Hq3 & ran & Hran & Ht3 & Hrest & Hw).
      split_and!; [by eapply keeps_trans|done|]. exists (t :: ran).
      rewrite <- Hr2, Hran, Ht3, Ht2. cbn [map]. rewrite reverse_cons, <- app_assoc.
      split_and!; [done|done|done|by rewrite orb_true_r].
Qed.

(** Due tasks, and the order in which they are to run. *)
Definition due (now : Z) (q : list DelayedTaskInfo) : list DelayedTaskInfo :=
  filter (λ t, dt_absolute_run_time t <= now) q.
Definition earlier (a b : DelayedTaskInfo) : Prop :=
  dt_absolute_run_time a < dt_absolute_run_time b ∨
  dt_absolute_run_time a = dt_absolute_run_time b ∧ dt_id a <= dt_id b.

Lemma due_sorted now q : pq_sorted DelayedTaskInfo_lt q → StronglySorted earlier (due now q).
Proof.
  intros Hq. unfold due. induction Hq as [|t q Hq IH Ht]; [constructor|].
  rewrite filter_cons. case_decide; [|done]. constructor; [done|].
  apply Forall_forall. intros t' [_ Ht']%list_elem_of_filter.
  eapply Forall_forall in Ht; [|exact Ht']. revert Ht. unfold DelayedTaskInfo_lt, earlier.
  case_match; lia.
Qed.

(** C13: If none of the tasks that are due when an iteration begins runs the loop
    itself, the loop over the ready tasks ends, and runs these tasks, each once, by
    time and then in the order they were posted; it stops early exactly when a task has
    asked to quit.  Tasks the running tasks post are left for a later iteration. *)
Theorem ready_tasks_run_in_order fuel now w :
  (∀ t, t ∈ due now (delayed_tasks (loop w)) → flat (RunTask client (dt_task t))) →
  loop_ok w → running w → quitting w = false → now <= clock (env w) →
  (length (due now (delayed_tasks (loop w))) < fuel)%nat →
  completes (run_ready_tasks client run fuel (mkDelayedTaskInfo (next_id (loop w)) 0 now) false) w
    (λ '(quit, worked) w', quit = quitting w' ∧
      ∃ ran rest, due now (delayed_tasks (loop w)) = ran ++ rest ∧
        StronglySorted earlier ran ∧
        trace w' = reverse (map (λ t, Ran (dt_id t)) ran) ++ trace w ∧
        worked = negb (bool_decide (ran = [])) ∧
        rest ⊆ delayed_tasks (loop w') ∧
        (quit = false → rest = [] ∧ ∀ t, t ∈ due now (delayed_tasks (loop w')) →
           next_id (loop w) <= dt_id t)).
Proof.
  intros Hflat Hok Hr Hq Hc Hfuel.
  assert (ready (mkDelayedTaskInfo (next_id (loop w)) 0 now) (delayed_tasks (loop w)) =
    due now (delayed_tasks (loop w))) as Hdue
    by (apply ready_due, Forall_forall; intros t Ht; by apply (ok_task_ids _ Hok)).
  eapply completes_mono; [apply run_ready_tasks_completes; try done; rewrite Hdue;
    [by apply Forall_forall|done]|].
  rewrite Hdue. intros [quit worked] w' (Hk & Hqq & ran & Hran & Ht & Hrest & Hw).
  split; [done|]. eexists ran, _. split_and!; [exact Hran| |done|done| |].
  - pose proof (due_sorted now _ (ok_tasks_sorted _ Hok)) as Hs. rewrite Hran in Hs.
    by apply StronglySorted_app in Hs as (_ & ? & _).
  - unfold ready. intros t [_ ?]%list_elem_of_filter. done.
  - intros Hfalse. specialize (Hrest Hfalse). split; [done|].
    intros t [Hnow Htin]%list_elem_of_filter.
    destruct (decide (next_id (loop w) <= dt_id t)) as [|Hlt]; [done|].
    exfalso. apply (not_elem_of_nil t). rewrite <- Hrest. apply list_elem_of_filter.
    split; [|done]. unfold DelayedTaskInfo_lt. cbn. case_match; lia.
Qed.
End ready_tasks.
