(* ===== verification/RunLoopEnds.v ===== *)
(** * The run loop ends

    An application whose tasks cause finitely much work, with no handler
    registered: [Run] and [RunUntilIdle] return, however the tasks nest runs of
    the loop, and some explicit number of steps is enough. *)
From stdpp Require Import base list numbers option gmap sorting.
From S2P Require Import Prelude MojoResult System Codec RunLoop RunLoopSafe.

Section ends.
Context {E C : Type} `{!LoopEnv E, !LoopEnvLaws E}.
Context (client : Client C) (Hclient : client_ok client).
Implicit Types (w : World E C) (p : prog C) (n : nat).

(** [work task]: how many tasks are run and posted on account of [task], itself
    included. *)
Context (work : Z → nat).

(** [fits p n]: the code [p] registers no handler, and the tasks it posts, with
    the posting itself, cause work of at most [n]. *)
Fixpoint fits p n : Prop :=
  match p with
  | Finish => True
  | CallAddHandler _ _ _ _ _ => False
  | CallPostDelayedTask task _ k => (S (work task) <= n)%nat ∧ fits k (n - S (work task))
  | CallRemoveHandler _ k | CallQuit k | CallRun _ k | PutMemory _ k => fits k n
  | CallSystem _ k => ∀ r, fits (k r) n
  | GetMemory k => ∀ c, fits (k c) n
  end.

Definition client_works : Prop :=
  ∀ task, (0 < work task)%nat ∧ fits (RunTask client task) (work task - 1).

(** The work ahead. *)
Definition queue_load (q : list DelayedTaskInfo) : nat := sum_list_with (work ∘ dt_task) q.
Definition load w : nat := queue_load (delayed_tasks (loop w)).

#[local] Instance queue_load_Permutation : Proper ((≡ₚ) ==> eq) queue_load.
Proof. intros q q' Hq. unfold queue_load. induction Hq; cbn; lia. Qed.

(** [spends n w w']: from [w] to [w'] no more than [n] was added to the work. *)
Record spends n w w' : Prop := {
  sp_keeps : keeps w w';
  sp_handlers : handlers (loop w') = ∅;
  sp_load : (load w' <= load w + n)%nat;
  sp_ids : next_id (loop w') + Z.of_nat (load w') <=
    next_id (loop w) + Z.of_nat (load w) + Z.of_nat n;
}.

(** A state from which work [n] can be added. *)
Record idle n w : Prop := {
  idle_ok : loop_ok w;
  idle_handlers : handlers (loop w) = ∅;
  idle_ids : next_id (loop w) + Z.of_nat (load w) + Z.of_nat n < 2 ^ 64;
}.

Lemma spends_idle n m w w' :
  idle (n + m) w → spends n w w' → idle m w'.
Proof. intros [] [[] ]. split; [done|done|lia]. Qed.

Lemma spends_trans n m w1 w2 w3 : spends n w1 w2 → spends m w2 w3 → spends (n + m) w1 w3.
Proof. intros [] []. split; [by eapply keeps_trans|done|lia|lia]. Qed.

Lemma spends_same w w' :
  idle 0 w → keeps w w' → handlers (loop w') = handlers (loop w) →
  next_id (loop w') = next_id (loop w) →
  delayed_tasks (loop w') = delayed_tasks (loop w) → spends 0 w w'.
Proof.
  intros [] ? Hh Hn Ht. unfold load in *. split; unfold load; [done|congruence|rewrite Ht; lia|].
  rewrite Ht, Hn. lia.
Qed.

Lemma idle_le n m w : (m <= n)%nat → idle n w → idle m w.
Proof. intros ? []. split; [done|done|lia]. Qed.

(** What returns, and is safe. *)
Lemma returns_safely {A} (e : stateR (World E C) A) w Q R :
  safely e w Q → returns (e w) R → returns (e w) (λ '(a, w'), Q a w' ∧ R (a, w')).
Proof. unfold safely. by destruct (e w) as [[]|]. Qed.

Lemma returns_spends_bind {A B} (e : stateR (World E C) A) (k : A → stateR (World E C) B)
    n w (Q : B * World E C → Prop) :
  returns (e w) (λ '(_, w'), spends n w w') →
  (∀ a w', spends n w w' → returns (k a w') Q) → returns ((e ≫= k) w) Q.
Proof.
  intros He Hk. apply returnsS_bind. eapply returns_mono; [exact He|].
  intros [a w']. apply Hk.
Qed.

Lemma PostDelayedTask_spends w task delay :
  idle (S (work task)) w → 0 <= delay <= max_delay →
  returns (PostDelayedTask task delay w) (λ '(_, w'), spends (S (work task)) w w').
Proof.
  intros [Hok Hh Hids] Hd.
  eapply returns_mono; [eapply returns_safely; [by apply PostDelayedTask_keeps|]|].
  - instantiate (1 := λ '(_, w'), handlers (loop w') = ∅ ∧
      next_id (loop w') = next_id (loop w) + 1 ∧ load w' = (work task + load w)%nat).
    pose proof (ok_next _ Hok) as Hn. unfold PostDelayedTask, new_id. apply returnsS_bind.
    apply returnsS_bind. cbn [get_loop returns].
    rewrite u64_small by lia. destruct (_ =? 0) eqn:Hz; [lia|].
    apply returnsS_bind. cbn [modify_loop returns mret stateR_ret].
    apply returnsS_bind. unfold GetTimeTicksNow, call_env. cbn [env loop].
    pose proof (now_spec (env w)) as Hnow. destruct (env_now (env w)) as [t e].
    cbn [returns]. apply returnsS_bind. unfold c_assert.
    destruct (delay <=? kMaxMojoTimeTicks - t) eqn:Ht; [|lia]. cbn.
    split_and!; [done|apply u64_small; lia|].
    change (queue_load (pq_push DelayedTaskInfo_lt (mkDelayedTaskInfo (next_id (loop w)) task
      (t + delay)) (delayed_tasks (loop w))) = work task + load w)%nat.
    by rewrite pq_push_Permutation.
  - intros [[] w'] (? & ? & Hn & Hl). split; [done|done|lia|lia].
Qed.

(** A run of the loop inside a callback, when the work ahead is below [B]. *)
Context (run : bool → stateR (World E C) unit) (B : nat).
Context (Hrun : ∀ q w, idle 0 w → (load w < B)%nat →
  returns (run q w) (λ '(_, w'), spends 0 w w')).

(** A call that adds work [m], then the rest. *)
Lemma call_spends {A} (e : stateR (World E C) A) (k : A → stateR (World E C) unit) m n w :
  returns (e w) (λ '(_, w'), spends m w w') →
  (∀ a w', idle n w' → (load w' + n < B)%nat → returns (k a w') (λ '(_, w''), spends n w' w'')) →
  idle (m + n) w → (load w + (m + n) < B)%nat →
  returns ((e ≫= k) w) (λ '(_, w'), spends (m + n) w w').
Proof.
  intros He Hk Hi Hb. eapply returns_spends_bind; [exact He|].
  intros a w1 Hs. eapply returns_mono; [apply Hk; [by eapply spends_idle|destruct Hs; lia]|].
  intros [[] w2] Hs2. by eapply spends_trans.
Qed.

Lemma exec_spends p n w :
  fits p n → prog_ok p → idle n w → (load w + n < B)%nat →
  returns (exec run p w) (λ '(_, w'), spends n w w').
Proof.
  revert n w. induction p as [|handler handle sigs deadline k IH|id k IH|task delay k IH|k IH
    |q k IH|call k IH|k IH|c k IH]; intros n w Hf Hp Hi Hb; cbn [exec fits prog_ok] in *.
  all: pose proof (idle_ok _ _ Hi) as Hok; pose proof (idle_handlers _ _ Hi) as Hnone.
  - split; [by apply keeps_refl|done|lia|lia].
  - done.
  - apply (call_spends _ _ 0 n); [|by auto..]. unfold RemoveHandler. apply returnsS_bind. cbn.
    rewrite Hnone, lookup_empty. apply spends_same; [by eapply (idle_le n); [lia|]|..]; [|done..].
    by apply keeps_refl.
  - destruct Hp as [? Hp], Hf as [? Hf].
    replace n with (S (work task) + (n - S (work task)))%nat by lia.
    apply call_spends; [|by auto| |lia].
    + apply PostDelayedTask_spends; [|done]. by eapply idle_le.
    + by replace (S (work task) + (n - S (work task)))%nat with n by lia.
  - apply (call_spends _ _ 0 n); [|by auto..].
    eapply returns_mono; [eapply returns_safely; [by apply Quit_keeps|]|].
    { instantiate (1 := λ '(_, w'), handlers (loop w') = handlers (loop w) ∧
        next_id (loop w') = next_id (loop w) ∧ delayed_tasks (loop w') = delayed_tasks (loop w)).
      cbn. by destruct (run_states (loop w)). }
    intros [[] w'] (? & ? & ? & ?). apply spends_same; try done. by eapply (idle_le n); [lia|].
  - apply (call_spends _ _ 0 n); [|by auto..]. apply Hrun; [by eapply (idle_le n); [lia|]|lia].
  - apply (call_spends _ _ 0 n); [|by auto..]. unfold call_env.
    pose proof (other_spec call (env w)) as Ho. destruct (env_other call (env w)) as [r e].
    destruct Ho as [??]. apply spends_same; [by eapply (idle_le n); [lia|]|..]; [|done..].
    by apply env_keeps.
  - by apply IH.
  - assert (spends 0 w (mkWorld (loop w) (env w) c (trace w))) as Hs.
    { apply spends_same; [by eapply (idle_le n); [lia|]|..]; [|done..]. by apply memory_keeps. }
    eapply returns_mono; [apply IH; [done|done|by eapply (spends_idle 0)|destruct Hs; lia]|].
    intros [[] w'] Hs'. by eapply (spends_trans 0).
Qed.

(** ** The parts of an iteration *)

Lemma returns_current w Q :
  running w → (∀ r, should_quit r = quitting w → Q (r, w)) → returns (current_run_state w) Q.
Proof.
  unfold running, quitting, current_run_state, mbind, stateR_bind, get_loop.
  destruct (run_states (loop w)) as [|r rs]; [done|]. intros _ HQ. by apply (HQ r).
Qed.

(** Taking a task off the queue takes its work off the load. *)
Lemma pop_task_idle w t rest :
  idle 0 w → delayed_tasks (loop w) = t :: rest → (0 < work (dt_task t))%nat →
  let w1 := mkWorld (set_delayed_tasks rest (loop w)) (env w) (memory w) (trace w) in
  idle (work (dt_task t) - 1) w1 ∧ keeps w w1 ∧ (load w = load w1 + work (dt_task t))%nat.
Proof.
  intros [Hok Hh Hids] Ht Hpos w1. assert (keeps w w1) as Hk by by eapply pop_task_keeps.
  assert (load w = load w1 + work (dt_task t))%nat as Hload.
  { unfold load, w1, queue_load. rewrite Ht. cbn. lia. }
  split_and!; [|done|done]. split; [apply Hk|done|]. change (next_id (loop w1)) with (next_id (loop w)). lia.
Qed.

Lemma call_task_spends t w :
  client_works → idle (work (dt_task t) - 1) w → (load w + (work (dt_task t) - 1) < B)%nat →
  returns (call_task client run t w) (λ '(_, w'), spends (work (dt_task t) - 1) w w').
Proof.
  intros Hw Hi Hb. apply (call_spends _ _ 0); [|intros _ w'; apply exec_spends|done|done].
  - cbn. assert (keeps w (mkWorld (loop w) (env w) (memory w) (Ran (dt_id t) :: trace w))) as Hk.
    { pose proof (log_keeps w (Ran (dt_id t)) (idle_ok _ _ Hi)) as Hl. by apply Hl. }
    apply spends_same; [by eapply idle_le; [|exact Hi]; lia|done..].
  - apply Hw.
  - apply Hclient.
Qed.

Lemma run_ready_tasks_spends fuel now_task sc w :
  client_works → idle 0 w → running w → quitting w = false → (load w <= B)%nat →
  (load w < fuel)%nat →
  returns (run_ready_tasks client run fuel now_task sc w) (λ '((quit, sc'), w'),
    spends 0 w w' ∧ (quit = false → quitting w' = false) ∧
    (sc' = true → sc = true ∨ (load w' < load w)%nat)).
Proof.
  intros Hw. revert sc w. induction fuel as [|fuel IH]; intros sc w Hi Hr Hq HB Hfuel; [lia|].
  cbn [run_ready_tasks]. apply returnsS_bind. cbn [get_loop returns].
  pose proof (spends_same w w Hi (keeps_refl _ (idle_ok _ _ Hi)) eq_refl eq_refl eq_refl) as H0.
  destruct (delayed_tasks (loop w)) as [|t rest] eqn:Ht; [cbn; by auto|].
  destruct (DelayedTaskInfo_lt now_task t); [|cbn; by auto].
  destruct (Hw (dt_task t)) as [Hpos Hfits].
  destruct (pop_task_idle w t rest) as (Hi1 & Hk1 & Hload); [done..|].
  apply returnsS_bind. cbn [modify_loop returns]. set (w1 := mkWorld _ _ _ _) in *.
  apply returnsS_bind. eapply returns_mono; [apply call_task_spends; [done|done|lia]|].
  intros [[] w2] Hs. pose proof (spends_idle _ 0 _ _ ltac:(by rewrite Nat.add_0_r) Hs) as Hi2.
  assert (spends 0 w w2 ∧ (load w2 < load w)%nat) as [Hs2 Hlt].
  { destruct Hs. split; [split|]; [by eapply keeps_trans|done|lia|cbn in *; lia|lia]. }
  apply returnsS_bind, returns_current; [eapply keeps_running; [apply Hs2|done]|].
  intros r Hrq. destruct (should_quit r); [cbn; split_and!; [done|done|by right]|].
  eapply returns_mono; [apply IH; [done| |done|lia|lia]|].
  { eapply keeps_running; [apply Hs2|done]. }
  intros [[quit sc'] w3] (Hs3 & Hq3 & Hsc). split_and!; [by eapply (spends_trans 0)|done|].
  intros _. right. destruct Hs3. lia.
Qed.

Lemma DoIteration_spends fuel q w :
  client_works → idle 0 w → running w → quitting w = false → (load w <= B)%nat →
  (load w < fuel)%nat →
  returns (DoIteration client run fuel q w) (λ '(continue, w'), spends 0 w w' ∧
    (continue = true → quitting w' = false ∧ (load w' < load w)%nat)).
Proof.
  intros Hw Hi Hr Hq HB Hfuel. unfold DoIteration.
  apply returnsS_bind, returns_current; [done|]. intros r Hrq. rewrite Hrq, Hq.
  apply returnsS_bind. cbn [negb c_assert returns mret stateR_ret].
  apply returnsS_bind. unfold GetTimeTicksNow, call_env.
  pose proof (now_spec (env w)) as Hnow. destruct (env_now (env w)) as [now e].
  cbn [returns]. set (w1 := mkWorld _ _ _ _).
  assert (spends 0 w w1) as Hs1.
  { apply spends_same; [done|apply env_keeps; [apply Hi|lia|apply Hnow]|done..]. }
  apply returnsS_bind. cbn [get_loop returns].
  apply returnsS_bind. eapply returns_mono.
  { apply run_ready_tasks_spends; [done|by eapply (spends_idle 0)|done|done|done|done]. }
  intros [[quit sc] w2] (Hs2 & Hq2 & Hsc).
  assert (spends 0 w w2) as Hs by by eapply (spends_trans 0).
  destruct quit; [by split|]. apply returnsS_bind. cbn [get_loop returns].
  rewrite bool_decide_true by apply Hs. cbn. split; [done|]. intros ->.
  split; [by apply Hq2|]. by destruct Hsc.
Qed.

Lemma iterate_spends iterations fuel q w :
  client_works → idle 0 w → running w → quitting w = false → (load w <= B)%nat →
  (load w < fuel)%nat → (load w < iterations)%nat →
  returns (iterate client run iterations fuel q w) (λ '(_, w'), spends 0 w w').
Proof.
  intros Hw. revert w. induction iterations as [|n IH]; intros w Hi Hr Hq HB Hf Hn; [lia|].
  cbn [iterate]. apply returnsS_bind.
  eapply returns_mono; [by apply DoIteration_spends|].
  intros [continue w1] [Hs1 Hc]. destruct continue; [|done].
  destruct (Hc eq_refl) as [Hq1 Hlt].
  eapply returns_mono; [apply IH; [by eapply (spends_idle 0)| |done|lia|lia|lia]|].
  { eapply keeps_running; [apply Hs1|done]. }
  intros [[] w2] Hs2. by eapply (spends_trans 0).
Qed.
End ends.

Section run_ends.
Context {E C : Type} `{!LoopEnv E, !LoopEnvLaws E}.
Context (client : Client C) (Hclient : client_ok client).
Context (work : Z → nat) (Hwork : client_works client work).
Implicit Types (w : World E C).

(** C14: [Run] and [RunUntilIdle] return when no handler is registered and the
    tasks cause finitely much work, nested runs included; fuel one above the work
    ahead is enough.  No work is created out of nothing, and the invariant of the
    loop holds again. *)
Theorem RunInternal_returns fuel quit_when_idle w :
  loop_ok w → handlers (loop w) = ∅ →
  next_id (loop w) + Z.of_nat (load work w) < 2 ^ 64 → (load work w + 1 < fuel)%nat →
  returns (RunInternal client fuel quit_when_idle w) (λ '(_, w'),
    loop_ok w' ∧ handlers (loop w') = ∅ ∧ (load work w' <= load work w)%nat ∧
    length (run_states (loop w')) = length (run_states (loop w))).
Proof.
  intros Hok Hh Hids Hfuel.
  assert (idle work 0 w) as Hi by (split; [done|done|lia]). clear Hok Hh Hids.
  apply (returns_mono _ (λ '(_, w'), spends work 0 w w')).
  2: { intros [[] w'] [[Hok' []] ? ? ?]. split_and!; try done. lia. }
  revert quit_when_idle w Hi Hfuel.
  induction fuel as [|fuel IH]; intros q w Hi Hfuel; [lia|]. cbn [RunInternal].
  apply returnsS_bind. cbn [modify_loop returns]. set (w1 := mkWorld _ _ _ _).
  assert (loop_ok w1) as Hok1 by (destruct (idle_ok _ _ _ Hi); by split).
  assert (idle work 0 w1) as Hi1 by (destruct Hi; by split).
  assert (load work w1 = load work w) as Hl1 by done.
  apply returnsS_bind. eapply returns_mono.
  { apply (iterate_spends client Hclient work _ (load work w)); try done; [|lia..].
    intros q' w' Hi' Hlt. apply IH; [done|lia]. }
  intros [[] w2] [[Hok2 Hl2] Hh2 Hload2 Hids2]. cbn [returns modify_loop].
  split; [|done|done|done]. split; [by destruct Hok2|].
  destruct Hl2. split; cbn in *; try done. destruct (run_states (loop w2)); cbn in *; lia.
Qed.
End run_ends.
