(* ===== verification/RunLoopDeadlines.v ===== *)
(** * Deadlines of the run loop

    How long an iteration waits, and that no deadline of a handler is missed. *)
From stdpp Require Import base list numbers option gmap sorting.
From S2P Require Import Prelude MojoResult System Codec RunLoop RunLoopSafe.

Section deadlines.
Context {E C : Type} `{!LoopEnv E, !LoopEnvLaws E}.
Implicit Types (w : World E C).

(** The greatest element of a queue comes first. *)
Lemma deadlines_head d rest d' :
  pq_sorted HandlerDeadlineInfo_lt (d :: rest) → d' ∈ d :: rest →
  hd_absolute_deadline d <= hd_absolute_deadline d'.
Proof.
  intros [_ Hd]%StronglySorted_inv [->|Hin]%elem_of_cons; [lia|].
  eapply Forall_forall in Hd; [|exact Hin]. unfold HandlerDeadlineInfo_lt in Hd.
  case_match; lia.
Qed.

Lemma tasks_head t rest t' :
  pq_sorted DelayedTaskInfo_lt (t :: rest) → t' ∈ t :: rest →
  dt_absolute_run_time t <= dt_absolute_run_time t'.
Proof.
  intros [_ Ht]%StronglySorted_inv [->|Hin]%elem_of_cons; [lia|].
  eapply Forall_forall in Ht; [|exact Hin]. unfold DelayedTaskInfo_lt in Ht. case_match; lia.
Qed.

(** The deadlines that count: of tasks, and of registered handlers. *)
Inductive pending w : Z → Prop :=
| pending_task t : t ∈ delayed_tasks (loop w) → pending w (dt_absolute_run_time t)
| pending_handler id h : handlers (loop w) !! id = Some h →
    hi_absolute_deadline h ≠ kInvalidTimeTicks → pending w (hi_absolute_deadline h).

Lemma drop_stale_head (h : gmap Z HandlerInfo) q d rest :
  drop_stale h q = d :: rest → is_Some (h !! hd_id d).
Proof.
  induction q as [|d' q IH]; cbn; [done|]. destruct (h !! hd_id d') eqn:Hd; [|done].
  intros [= -> _]. by rewrite Hd.
Qed.

Lemma pending_pos w a : loop_ok w → pending w a → 0 < a.
Proof.
  intros Hok [t Ht|id h Hh Hinv]; [by apply (ok_task_ids _ Hok)|].
  by destruct (ok_deadline_ids _ Hok _ (ok_deadlines _ Hok id h Hh Hinv)).
Qed.

(** What stays in the queue once the stale deadlines are dropped from its top. *)
Lemma drop_stale_spec w :
  loop_ok w →
  let q := drop_stale (handlers (loop w)) (handler_deadlines (loop w)) in
  pq_sorted HandlerDeadlineInfo_lt q ∧
  (∀ id h, handlers (loop w) !! id = Some h → hi_absolute_deadline h ≠ kInvalidTimeTicks →
     mkHandlerDeadlineInfo id (hi_absolute_deadline h) ∈ q) ∧
  (∀ d rest, q = d :: rest → pending w (hd_absolute_deadline d) ∧
     ∀ id h, handlers (loop w) !! id = Some h → hi_absolute_deadline h ≠ kInvalidTimeTicks →
     hd_absolute_deadline d <= hi_absolute_deadline h).
Proof.
  intros Hok q. destruct (drop_stale_prefix (handlers (loop w)) (handler_deadlines (loop w)))
    as (gone & Hq & Hgone).
  destruct (pop_deadlines_keeps w gone q Hok Hq Hgone) as [Hok' _].
  split_and!; [apply Hok'|apply Hok'|]. intros d rest Hdq.
  assert (d ∈ q) as Hdin by (rewrite Hdq; by left).
  destruct (drop_stale_head _ _ _ _ Hdq) as [h Hh].
  pose proof (ok_deadlines_agree _ Hok' d h Hdin Hh) as Ha. split.
  - rewrite <- Ha. econstructor; [exact Hh|]. rewrite Ha.
    destruct (ok_deadline_ids _ Hok' d Hdin). unfold kInvalidTimeTicks. lia.
  - intros id h' Hh' Hinv. apply (deadlines_head d rest (mkHandlerDeadlineInfo id _)).
    + rewrite <- Hdq. apply Hok'.
    + rewrite <- Hdq. by apply (ok_deadlines _ Hok').
Qed.

(** The answer: no deadline at all, or the least one. *)
Definition earliest w (a : Z) : Prop :=
  a = kInvalidTimeTicks ∧ (∀ a', ¬ pending w a') ∨
  pending w a ∧ ∀ a', pending w a' → a <= a'.

(** The deadline of a wait is the least of the deadlines of the registered
    handlers and the run times of the delayed tasks, or "forever" when there is
    none; stale deadlines do not count, and [*is_delayed_task] says truly that
    the deadline is a task's. *)
Theorem CalculateAbsoluteDeadline_earliest w :
  loop_ok w → handlers (loop w) ≠ ∅ →
  returns (CalculateAbsoluteDeadline w) (λ '((a, is_delayed_task), w'),
    earliest w a ∧ loop_ok w' ∧ (∀ a', pending w' a' ↔ pending w a') ∧
    (is_delayed_task = true → ∃ t, t ∈ delayed_tasks (loop w) ∧ dt_absolute_run_time t = a)).
Proof.
  intros Hok Hne. unfold CalculateAbsoluteDeadline.
  apply returnsS_bind. cbn [get_loop returns]. rewrite bool_decide_false by done.
  apply returnsS_bind. cbn [negb c_assert returns mret stateR_ret].
  destruct (drop_stale_spec w Hok) as (_ & Hcover & Hhead).
  set (w' := mkWorld (set_handler_deadlines (drop_stale (handlers (loop w))
    (handler_deadlines (loop w))) (loop w)) (env w) (memory w) (trace w)).
  assert (loop_ok w' ∧ ∀ a', pending w' a' ↔ pending w a') as [Hok' Hsame].
  { destruct (drop_stale_prefix (handlers (loop w)) (handler_deadlines (loop w)))
      as (gone & Hq & Hgone).
    split; [by apply (pop_deadlines_keeps w gone _ Hok Hq Hgone)|].
    by intros a'; split; intros [t Ht|id h Hh Hinv]; econstructor. }
  assert (∀ t rest t', delayed_tasks (loop w) = t :: rest → t' ∈ delayed_tasks (loop w) →
    dt_absolute_run_time t <= dt_absolute_run_time t') as Htasks.
  { intros t rest t' Ht Hin. apply (tasks_head t rest); rewrite <- Ht; [apply Hok|done]. }
  assert (∀ t rest, delayed_tasks (loop w) = t :: rest →
    pending w (dt_absolute_run_time t) ∧ 0 < dt_absolute_run_time t) as Hfirst.
  { intros t rest Ht. assert (t ∈ delayed_tasks (loop w)) by (rewrite Ht; by left).
    split; [by constructor|by apply (ok_task_ids _ Hok)]. }
  assert (∀ q, drop_stale (handlers (loop w)) (handler_deadlines (loop w)) = q → q = [] →
    ∀ a, pending w a → ∃ t, t ∈ delayed_tasks (loop w) ∧ a = dt_absolute_run_time t) as Hnone.
  { intros q Hq -> a [t Ht|id h Hh Hinv]; [by eauto|]. specialize (Hcover id h Hh Hinv).
    rewrite Hq in Hcover. by apply elem_of_nil in Hcover. }
  destruct (delayed_tasks (loop w)) as [|t rest] eqn:Ht;
    (apply returnsS_bind; cbn [modify_loop returns]; fold w';
     apply returnsS_bind; cbn [get_loop returns]);
    change (handler_deadlines (loop w'))
      with (drop_stale (handlers (loop w)) (handler_deadlines (loop w)));
    destruct (drop_stale _ _) as [|d q'] eqn:Hq.
  - cbn. split_and!; [|done|done|done]. left. split; [done|].
    intros a' (t & Hin & _)%(Hnone _ eq_refl eq_refl). by apply elem_of_nil in Hin.
  - cbn. destruct (Hhead d q' eq_refl) as [Hd Hmin].
    split_and!; [|done|done|done]. right. split; [done|].
    intros a' [t Hin|id h Hh Hinv]; [|by eapply Hmin]. rewrite Ht in Hin. by apply elem_of_nil in Hin.
  - cbn. split_and!; [|done|done|intros _; exists t; split; [by left|done]].
    right. split; [by eapply Hfirst|].
    intros a' (t' & Hin & ->)%(Hnone _ eq_refl eq_refl). by apply (Htasks t rest).
  - destruct (Hfirst t rest eq_refl) as [Htp Hpos], (Hhead d q' eq_refl) as [Hd Hmin].
    unfold kInvalidTimeTicks. destruct (_ || _) eqn:Hlt; cbn.
    + split_and!; [|done|done|done]. right. split; [done|].
      intros a' [t' Hin|id h Hh Hinv]; [|by eapply Hmin]. rewrite Ht in Hin.
      specialize (Htasks t rest t' eq_refl Hin). lia.
    + split_and!; [|done|done|intros _; exists t; split; [by left|done]].
      right. split; [done|]. intros a' [t' Hin|id h Hh Hinv].
      * rewrite Ht in Hin. by apply (Htasks t rest).
      * specialize (Hmin id h Hh Hinv). lia.
Qed.

Context (client : Client C) (Hclient : client_ok client).
Context (run : bool → stateR (World E C) unit) `{!RunSafe run}.

(** C40: When a wait has run into its deadline, every handler whose deadline it was,
    or had passed before, is unregistered (called, unless a callback removed it
    first), whatever the callbacks register or remove; the search ends early only
    when a callback quits the loop. *)
Theorem NotifyHandlersDeadlineExceeded_exhausts fuel a w :
  loop_ok w → running w → handlers (loop w) ≠ ∅ → a ≠ kInvalidTimeTicks →
  safely (NotifyHandlersDeadlineExceeded client run fuel a) w (λ _ w',
    loop_ok w' ∧ NoDup (notified (trace w')) ∧ (quitting w' = false → none_due w' a)).
Proof.
  intros Hok Hr Hne Ha. unfold NotifyHandlersDeadlineExceeded.
  apply safely_bind, safely_get_loop, safely_bind, safely_assert.
  { by rewrite bool_decide_false. }
  apply safely_bind, safely_assert; [lia|].
  eapply safely_mono; [by apply notify_deadlines_keeps|].
  intros b w' [[Hok' _] Hq]. split_and!; [done|apply Hok'|done].
Qed.
End deadlines.
