(* ===== verification/RunLoopSample.v ===== *)
(** * The run loop at work

    A simulated system that keeps the laws of [LoopEnvLaws], applications that run
    on it, the theorems about the loop at these inputs, and what happens to a
    handler whose deadline passes. *)
From stdpp Require Import base list numbers option gmap sorting.
From S2P Require Import Prelude MojoResult System Codec RunLoop RunLoopSafe RunLoopTasks RunLoopEnds RunLoopDeadlines.

(** ** A simulated system

    A clock, the wait set, and the handles that have been closed. *)
Record Sim := mkSim {
  sim_time : Z;
  sim_entries : gmap Z (Z * Z);
  sim_closed : list Z;
}.

Definition sim_max_delay : Z := 2 ^ 62.
Definition sim_clock (e : Sim) : Z :=
  Z.max 1 (Z.min (sim_time e) (kMaxMojoTimeTicks - sim_max_delay)).

(** The entries of closed handles are reported. *)
Definition sim_results (e : Sim) : list MojoWaitSetResult :=
  omap (λ '(c, (h, _)),
    if bool_decide (h ∈ sim_closed e) then Some (mkWaitSetResult c MOJO_RESULT_CANCELLED)
    else None) (map_to_list (sim_entries e)).

Definition sim_wait (d n : Z) (e : Sim) : option (Z * list MojoWaitSetResult * Z * Sim) :=
  match sim_results e with
  | [] => if d =? MOJO_DEADLINE_INDEFINITE then None
          else Some (MOJO_RESULT_DEADLINE_EXCEEDED, [], 0,
                 mkSim (sim_time e + Z.max 0 d) (sim_entries e) (sim_closed e))
  | r :: rs => Some (MOJO_RESULT_OK, r :: take (Z.to_nat n - 1) rs, Z.of_nat (length (r :: rs)),
                 mkSim (sim_time e + 1) (sim_entries e) (sim_closed e))
  end.

#[export] Instance Sim_LoopEnv : LoopEnv Sim := {|
  env_now e := (sim_clock e, e);
  env_add h s c e := match sim_entries e !! c with
    | Some _ => (MOJO_RESULT_ALREADY_EXISTS, e)
    | None => (MOJO_RESULT_OK, mkSim (sim_time e) (<[c := (h, s)]> (sim_entries e)) (sim_closed e))
    end;
  env_remove c e := match sim_entries e !! c with
    | Some _ => (MOJO_RESULT_OK, mkSim (sim_time e) (delete c (sim_entries e)) (sim_closed e))
    | None => (MOJO_RESULT_NOT_FOUND, e)
    end;
  env_wait := sim_wait;
  (** closing a handle *)
  env_other call e :=
    (MOJO_RESULT_OK, mkSim (sim_time e) (sim_entries e) (call :: sim_closed e));
|}.

#[export] Program Instance Sim_LoopEnvLaws : LoopEnvLaws Sim := {|
  entries := sim_entries;
  clock := sim_clock;
  max_delay := sim_max_delay;
|}.
Next Obligation. intros e. cbn. unfold sim_clock, sim_max_delay, kMaxMojoTimeTicks. split; [lia|]. split; [lia|done]. Qed.
Next Obligation.
  intros h s c e. cbn. destruct (sim_entries e !! c) eqn:Hc; (split; [unfold sim_clock; cbn; lia|]);
    intros Hn; [congruence|done].
Qed.
Next Obligation.
  intros c e. cbn. destruct (sim_entries e !! c) eqn:Hc; (split; [unfold sim_clock; cbn; lia|]).
  - done.
  - by intros [? ?].
Qed.
Next Obligation.
  intros d n e. cbn. unfold sim_wait. destruct (sim_results e) as [|r rs].
  - destruct (d =? MOJO_DEADLINE_INDEFINITE) eqn:Hd; [done|].
    split_and!; [unfold sim_clock; cbn; lia|done|right; split; [done|lia]].
  - split_and!; [unfold sim_clock; cbn; lia|done|by left].
Qed.
Next Obligation. intros call e. cbn. split; [unfold sim_clock; cbn; lia|done]. Qed.

(** A loop with nothing in it is as it should be. *)
Lemma init_ok {E C} `{!LoopEnv E, !LoopEnvLaws E} (e : E) (c : C) :
  entries e = ∅ → loop_ok (mkWorld RunLoop_init e c []).
Proof.
  intros He. split; cbn; try done; try (by intros ? ?%elem_of_nil).
  - rewrite He. intros id [x Hx]. by rewrite lookup_empty in Hx.
  - constructor.
  - constructor.
  - constructor.
Qed.

Definition sim_start : World Sim unit :=
  mkWorld RunLoop_init (mkSim 1000 ∅ []) tt [].

(** The state after the application has run [p] outside of the loop, and inside a
    call of [Run]. *)
Definition after (client : Client unit) (p : prog unit) : World Sim unit :=
  match exec (RunInternal client 0) p sim_start with
  | Ok (_, w) => w
  | Crash _ => sim_start
  end.
Definition inside (w : World Sim unit) : World Sim unit :=
  mkWorld (set_run_states [mkRunState false kInitialWaitSetNumResults] (loop w)) (env w)
    (memory w) (trace w).

Lemma after_ok client p : client_ok client → prog_ok p → loop_ok (after client p).
Proof.
  intros Hc Hp. assert (loop_ok sim_start) as Hok by by apply init_ok.
  pose proof (RunInternal_safe client Hc 0) as Hrun.
  unfold after. pose proof (exec_keeps (RunInternal client 0) p sim_start Hp Hok) as He.
  unfold safely in He. destruct (exec _ _ _) as [[[] w]|]; [apply He|done].
Qed.

Lemma inside_ok w : loop_ok w → loop_ok (inside w).
Proof. intros []. by split. Qed.

(** ** Tasks

    Task 1 posts task 2; [nested_client]'s also runs the loop until it is idle. *)
Definition tasks_client (nested : bool) : Client unit := {|
  OnHandleReady _ _ := Finish;
  OnHandleError _ _ _ := Finish;
  RunTask task := if task =? 1
    then CallPostDelayedTask 2 0 (if nested then CallRun true Finish else Finish) else Finish;
|}.
Definition post_tasks : prog unit :=
  CallPostDelayedTask 3 5 (CallPostDelayedTask 1 0 (CallPostDelayedTask 3 0 Finish)).

Lemma tasks_client_ok nested : client_ok (tasks_client nested).
Proof.
  split_and!; try done. intros task. cbn. destruct (task =? 1); [|done].
  split; [by split|by destruct nested].
Qed.
Lemma tasks_client_flat nested task :
  task ≠ 1 ∨ nested = false → flat (RunTask (tasks_client nested) task).
Proof. intros Ht. cbn. destruct (task =? 1) eqn:H1; [|done]. by destruct Ht as [?| ->]; [lia|]. Qed.

Definition task_work (task : Z) : nat := if task =? 1 then 3 else 1.
Lemma tasks_client_works nested : client_works (tasks_client nested) task_work.
Proof.
  intros task. unfold task_work. cbn. destruct (task =? 1); [|split; [lia|done]].
  split; [lia|]. split; [cbn; lia|by destruct nested].
Qed.

(** Both due tasks run, in the order of posting; the task they post and the one
    that is not due yet are left. *)
Example ready_tasks_run_in_order_witness :
  let w := inside (after (tasks_client false) post_tasks) in
  map dt_id (due 1000 (delayed_tasks (loop w))) = [2; 3] ∧
  completes (run_ready_tasks (tasks_client false) (RunInternal (tasks_client false) 0) 3
    (mkDelayedTaskInfo (next_id (loop w)) 0 1000) false) w
    (λ '(quit, worked) w', quit = quitting w' ∧
      ∃ ran rest, due 1000 (delayed_tasks (loop w)) = ran ++ rest ∧
        StronglySorted earlier ran ∧
        trace w' = reverse (map (λ t, Ran (dt_id t)) ran) ++ trace w ∧
        worked = negb (bool_decide (ran = [])) ∧
        rest ⊆ delayed_tasks (loop w') ∧
        (quit = false → rest = [] ∧ ∀ t, t ∈ due 1000 (delayed_tasks (loop w')) →
           next_id (loop w) <= dt_id t)).
Proof.
  split; [reflexivity|].
  apply (ready_tasks_run_in_order (tasks_client false) (tasks_client_ok false)).
  - intros t _. apply tasks_client_flat. by right.
  - apply inside_ok, after_ok; [apply tasks_client_ok|by repeat split].
  - done.
  - done.
  - vm_compute. discriminate.
  - vm_compute. lia.
Defined.

(** If the first task runs the loop, the second runs inside it with the task that the
    first has posted, which was not due when the iteration began. *)
Example nested_run_takes_tasks :
  let w := inside (after (tasks_client true) post_tasks) in
  returns (run_ready_tasks (tasks_client true) (RunInternal (tasks_client true) 7) 3
    (mkDelayedTaskInfo (next_id (loop w)) 0 1000) false w)
    (λ '(_, w'), trace w' = [Ran 4; Ran 3; Ran 2] ++ trace w).
Proof. vm_compute. reflexivity. Qed.

(** The same application, running the loop inside its first task. *)
Example RunInternal_returns_witness :
  let w := after (tasks_client true) post_tasks in
  load task_work w = 5%nat ∧
  returns (RunInternal (tasks_client true) 7 true w) (λ '(_, w'),
    loop_ok w' ∧ handlers (loop w') = ∅ ∧ (load task_work w' <= load task_work w)%nat ∧
    length (run_states (loop w')) = length (run_states (loop w))).
Proof.
  split; [reflexivity|].
  apply (RunInternal_returns (tasks_client true) (tasks_client_ok true) task_work
    (tasks_client_works true)).
  - apply after_ok; [apply tasks_client_ok|by repeat split].
  - reflexivity.
  - vm_compute. reflexivity.
  - vm_compute. lia.
Defined.

(** ** Handlers

    Two handlers with deadlines; the first closes its handle (11) when it is
    notified of an error, the second leaves its handle (12) alone. *)
Definition handlers_client : Client unit := {|
  OnHandleReady _ _ := Finish;
  OnHandleError handler _ _ := if handler =? 5 then CallSystem 11 (λ _, Finish) else Finish;
  RunTask _ := Finish;
|}.
Definition add_handlers (deadline1 deadline2 : Z) : prog unit :=
  CallAddHandler 5 11 1 deadline1 (λ _, CallAddHandler 6 12 1 deadline2 (λ _, Finish)).

Lemma handlers_client_ok : client_ok handlers_client.
Proof. split_and!; try done. intros handler id r. cbn. by destruct (handler =? 5). Qed.

Definition sample_handlers : World Sim unit := after handlers_client (add_handlers 10 100).

Lemma sample_handlers_ok : loop_ok sample_handlers.
Proof. apply after_ok; [apply handlers_client_ok|repeat split; done]. Qed.

Lemma sample_handlers_nonempty : handlers (loop sample_handlers) ≠ ∅.
Proof. intros Hh. apply (f_equal (lookup 1)) in Hh. vm_compute in Hh. discriminate. Qed.

Example CalculateAbsoluteDeadline_earliest_witness :
  returns (CalculateAbsoluteDeadline sample_handlers) (λ '((a, is_delayed_task), w'),
    earliest sample_handlers a ∧ loop_ok w' ∧
    (∀ a', pending w' a' ↔ pending sample_handlers a') ∧
    (is_delayed_task = true →
      ∃ t, t ∈ delayed_tasks (loop sample_handlers) ∧ dt_absolute_run_time t = a)).
Proof.
  apply (CalculateAbsoluteDeadline_earliest sample_handlers sample_handlers_ok).
  apply sample_handlers_nonempty.
Defined.

Example NotifyHandlersDeadlineExceeded_exhausts_witness :
  safely (NotifyHandlersDeadlineExceeded handlers_client (RunInternal handlers_client 0) 5 1010)
    (inside sample_handlers) (λ _ w',
    loop_ok w' ∧ NoDup (notified (trace w')) ∧ (quitting w' = false → none_due w' 1010)).
Proof.
  apply (NotifyHandlersDeadlineExceeded_exhausts handlers_client handlers_client_ok).
  - apply (RunInternal_safe handlers_client handlers_client_ok 0).
  - apply inside_ok, sample_handlers_ok.
  - done.
  - apply sample_handlers_nonempty.
  - done.
Defined.

(** ** A handler whose deadline passes *)

(** The world [k] iterations after the first handler was notified. *)
Definition spinning (k : Z) : World Sim unit :=
  mkWorld (mkRunLoop 3 {[2 := mkHandlerInfo 6 1 1100]} [mkHandlerDeadlineInfo 2 1100] []
      [mkRunState false kInitialWaitSetNumResults])
    (mkSim (1010 + k) {[1 := (11, 1); 2 := (12, 1)]} [11]) tt
    [Error 1 MOJO_RESULT_DEADLINE_EXCEEDED].

Lemma first_iteration run fuel :
  DoIteration handlers_client run (S (S fuel)) false (inside sample_handlers) =
    Ok (true, spinning 0).
Proof. vm_compute. reflexivity. Qed.

Lemma spinning_wait d k :
  WaitSetWait d kInitialWaitSetNumResults (spinning k) =
    Ok ((MOJO_RESULT_OK, [mkWaitSetResult 1 MOJO_RESULT_CANCELLED], 1), spinning (k + 1)).
Proof.
  unfold WaitSetWait, spinning. cbn [env env_wait Sim_LoopEnv]. unfold sim_wait.
  replace (sim_results _) with [mkWaitSetResult 1 MOJO_RESULT_CANCELLED]
    by (unfold sim_results; vm_compute; reflexivity).
  cbn -[Z.add]. by rewrite Z.add_assoc.
Qed.

Lemma spinning_deadline k :
  CalculateAbsoluteDeadline (spinning k) = Ok ((1100, false), spinning k).
Proof. unfold CalculateAbsoluteDeadline, spinning. vm_compute. reflexivity. Qed.

Lemma spinning_iteration run fuel k :
  DoIteration handlers_client run (S fuel) false (spinning k) = Ok (true, spinning (k + 1)).
Proof.
  unfold DoIteration. rewrite (bindS_Ok _ _ _ (mkRunState false kInitialWaitSetNumResults)
    (spinning k)) by done.
  rewrite (bindS_Ok _ _ _ tt (spinning k)) by done.
  rewrite (bindS_Ok _ _ _ (sim_clock (env (spinning k))) (spinning k)) by done.
  rewrite (bindS_Ok _ _ _ (loop (spinning k)) (spinning k)) by done.
  rewrite (bindS_Ok _ _ _ (false, false) (spinning k)) by done.
  rewrite (bindS_Ok _ _ _ (loop (spinning k)) (spinning k)) by done.
  replace (bool_decide (handlers (loop (spinning k)) = ∅)) with false by (vm_compute; reflexivity).
  unfold wait_and_notify. rewrite (bindS_Ok _ _ _ (1100, false) (spinning k))
    by apply spinning_deadline.
  rewrite (bindS_Ok _ _ _ (mkRunState false kInitialWaitSetNumResults) (spinning k)) by done.
  rewrite (bindS_Ok _ _ _ _ _ (spinning_wait _ k)).
  rewrite (bindS_Ok _ _ _ false (spinning (k + 1))) by done.
  rewrite (bindS_Ok _ _ _ (mkRunState false kInitialWaitSetNumResults) (spinning (k + 1))) by done.
  rewrite (bindS_Ok _ _ _ (loop (spinning (k + 1))) (spinning (k + 1))) by done.
  reflexivity.
Qed.

Lemma iterate_continue client run n fuel q (w w' : World Sim unit) :
  DoIteration client run fuel q w = Ok (true, w') →
  iterate client run (S n) fuel q w = iterate client run n fuel q w'.
Proof. intros Hw. cbn [iterate]. by rewrite (bindS_Ok _ _ _ _ _ Hw). Qed.

Lemma RunInternal_crash client fuel q (w : World Sim unit) f :
  run_states (loop w) = [] →
  iterate client (RunInternal client fuel) fuel fuel q (inside w) = Crash f →
  RunInternal client (S fuel) q w = Crash f.
Proof.
  intros Hr Hw. cbn [RunInternal]. rewrite (bindS_Ok _ _ _ tt (inside w)).
  - unfold mbind, stateR_bind. by rewrite Hw.
  - unfold modify_loop, inside. by rewrite Hr.
Qed.

Lemma spinning_iterate run n fuel k :
  iterate handlers_client run n fuel false (spinning k) = Crash OutOfFuel.
Proof.
  revert k. destruct fuel as [|fuel].
  - destruct n; [done|]. intros k. cbn [iterate]. unfold DoIteration. reflexivity.
  - induction n as [|n IH]; intros k; [done|].
    rewrite (iterate_continue _ _ _ _ _ _ _ (spinning_iteration run fuel k)). apply IH.
Qed.

(** A handler whose deadline passed is unregistered, but its entry stays in the
    wait set.  Once its handle is closed, every wait returns at once with that
    entry, for which there is no handler: [Run] never returns and never blocks,
    and no other handler's deadline is noticed, however long it has passed. *)
Theorem expired_handler_starves_loop :
  (∀ fuel k,
     let w := spinning k in let w' := spinning (k + 1) in
     DoIteration handlers_client (RunInternal handlers_client fuel) (S fuel) false w = Ok (true, w') ∧
     handlers (loop w') !! 2 = Some (mkHandlerInfo 6 1 1100) ∧
     sim_time (env w') = sim_time (env w) + 1 ∧
     trace w' = [Error 1 MOJO_RESULT_DEADLINE_EXCEEDED]) ∧
  (∀ fuel,
     DoIteration handlers_client (RunInternal handlers_client fuel) (S (S fuel)) false
       (inside sample_handlers) = Ok (true, spinning 0)) ∧
  (∀ fuel, Run handlers_client fuel sample_handlers = Crash OutOfFuel).
Proof.
  split_and!.
  - intros fuel k w w'. split_and!; [apply spinning_iteration|done|cbn; lia|done].
  - intros fuel. apply first_iteration.
  - intros fuel. unfold Run. destruct fuel as [|[|[|fuel]]]; [done|vm_compute; reflexivity..|].
    apply RunInternal_crash; [done|].
    rewrite (iterate_continue _ _ _ _ _ _ _ (first_iteration _ _)). apply spinning_iterate.
Qed.

(** Of two deadlines at the same time the one registered last comes first
    (compare [operator<] of [DelayedTaskInfo]). *)
Example same_deadline_newest_first :
  match Run handlers_client 5 (after handlers_client (add_handlers 10 10)) with
  | Ok (_, w) => trace w = [Error 1 MOJO_RESULT_DEADLINE_EXCEEDED;
                            Error 2 MOJO_RESULT_DEADLINE_EXCEEDED]
  | Crash _ => False
  end.
Proof. vm_compute. reflexivity. Qed.

(** Without handlers [Run] returns as soon as no task is due. *)
Example Run_leaves_delayed_tasks :
  match Run (tasks_client false) 5 (after (tasks_client false) post_tasks) with
  | Ok (_, w) => map dt_task (delayed_tasks (loop w)) = [3] ∧ handlers (loop w) = ∅
  | Crash _ => False
  end.
Proof. vm_compute. split; reflexivity. Qed.

Example run_loop_safe_witness :
  safely (RunInternal handlers_client 20 false) sample_handlers (λ _ w',
    loop_ok w' ∧ NoDup (notified (trace w')) ∧
    length (run_states (loop w')) = length (run_states (loop sample_handlers)) ∧
    ∃ evs, trace w' = evs ++ trace sample_handlers) ∧
  safely (RunLoop_destroy handlers_client 20) sample_handlers (λ _ w',
    loop_ok w' ∧ NoDup (notified (trace w')) ∧ handlers (loop w') = ∅).
Proof.
  apply (run_loop_safe handlers_client handlers_client_ok 20 false sample_handlers).
  apply sample_handlers_ok.
Defined.
