(* ===== verification/CppBindings.v ===== *)
(** * Primitives of the C++ bindings (public/cpp/bindings/lib)

    The C++ bindings are a second implementation of the wire format.  This file
    has what every generated type relies on: [bounds_checker.cc],
    [validation_util.cc], [bindings_serialization.cc] and [fixed_buffer.cc].

    [debug] says whether [MOJO_DCHECK]s are compiled in: in a release build they
    are not evaluated. *)
From stdpp Require Import base list numbers option gmap sorting.
From S2P Require Import Prelude Memory TypeDescriptor Validate Sample Codec Buffer.

(** [enum class ValidationError] (validation_errors.h) *)
Inductive ValidationError : Set :=
| NONE | MISALIGNED_OBJECT | ILLEGAL_MEMORY_RANGE | UNEXPECTED_STRUCT_HEADER
| UNEXPECTED_ARRAY_HEADER | ILLEGAL_HANDLE | UNEXPECTED_INVALID_HANDLE | ILLEGAL_POINTER
| UNEXPECTED_NULL_POINTER | MESSAGE_HEADER_INVALID_FLAGS | MESSAGE_HEADER_MISSING_REQUEST_ID
| MESSAGE_HEADER_UNKNOWN_METHOD | DIFFERENT_SIZED_ARRAYS_IN_MAP | UNEXPECTED_NULL_UNION.
#[global] Instance ValidationError_eq_dec : EqDecision ValidationError.
Proof. solve_decision. Defined.

(** [MOJO_CHECK] and [MOJO_DCHECK] (environment/logging.h) *)
Definition MOJO_CHECK {S} (b : bool) : stateR S unit := c_assert b.
Definition MOJO_DCHECK {S} (debug b : bool) : stateR S unit :=
  if debug then MOJO_CHECK b else mret tt.

(** ** Alignment *)
Definition kAlignment : Z := 8.
Definition Align (size : Z) : Z :=
  u64 (size + (kAlignment - size `mod` kAlignment) `mod` kAlignment).
Definition IsAligned (ptr : Z) : bool := ptr `mod` kAlignment =? 0.

(** ** [BoundsChecker] *)
Record BoundsChecker := mkBoundsChecker {
  data_begin_ : Z;
  data_end_ : Z;
  handle_begin_ : Z;
  handle_end_ : Z;
}.

(** [sizeof(StructHeader)] (bindings_internal.h) *)
Definition sizeof_StructHeader : Z := 8.
Definition kEncodedInvalidHandleValue : Z := u32 (-1).

Section bounds_checker.
Context (debug : bool).

(** The constructor.  Its conversions of sizes cannot overflow in practice. *)
Definition BoundsChecker_new {S} (data data_num_bytes num_handles : Z) : stateR S BoundsChecker :=
  let data_end := u64 (data + data_num_bytes) in
  (if data_end <? data then MOJO_DCHECK debug false else mret tt);;
  let data_end := if data_end <? data then data else data_end in
  let handle_end := u32 num_handles in
  (if handle_end <? num_handles then MOJO_DCHECK debug false else mret tt);;
  mret (mkBoundsChecker data data_end 0 (if handle_end <? num_handles then 0 else handle_end)).

Definition InternalIsValidRange (c : BoundsChecker) (begin end_ : Z) : bool :=
  (begin <? end_) && (data_begin_ c <=? begin) && (end_ <=? data_end_ c).

Definition IsValidRange (position num_bytes : Z) : stateR BoundsChecker bool :=
  c ← get_state;
  mret (InternalIsValidRange c position (u64 (position + num_bytes))).

Definition ClaimMemory (position num_bytes : Z) : stateR BoundsChecker bool :=
  let end_ := u64 (position + num_bytes) in
  c ← get_state;
  if negb (InternalIsValidRange c position end_) then mret false
  else
  put_state (mkBoundsChecker end_ (data_end_ c) (handle_begin_ c) (handle_end_ c));;
  mret true.

Definition ClaimHandle (encoded_handle : Z) : stateR BoundsChecker bool :=
  if encoded_handle =? kEncodedInvalidHandleValue then mret true
  else
  c ← get_state;
  if (encoded_handle <? handle_begin_ c) || (handle_end_ c <=? encoded_handle) then mret false
  else
  put_state (mkBoundsChecker (data_begin_ c) (data_end_ c) (u32 (encoded_handle + 1))
    (handle_end_ c));;
  mret true.

(** ** validation_util.cc *)
Definition ValidateEncodedPointer (m : mem) (offset : Z) : result bool :=
  o ← load64 m offset;
  Ok ((o <=? UINT32_MAX) && (offset <=? u64 (offset + u32 o))).

Definition ValidateStructHeaderAndClaimMemory (m : mem) (data : Z)
    : stateR BoundsChecker ValidationError :=
  if negb (IsAligned data) then mret MISALIGNED_OBJECT
  else
  valid ← IsValidRange data sizeof_StructHeader;
  if negb valid then mret ILLEGAL_MEMORY_RANGE
  else
  num_bytes ← lift (struct_num_bytes m data);
  if num_bytes <? sizeof_StructHeader then mret UNEXPECTED_STRUCT_HEADER
  else
  claimed ← ClaimMemory data num_bytes;
  if negb claimed then mret ILLEGAL_MEMORY_RANGE else mret NONE.
End bounds_checker.

(** ** bindings_serialization.cc

    The state is the memory and the vector of handles. *)
Abbreviation SM := (stateR (mem * list Z)).

Section serialization.
Context (debug : bool).

Definition EncodePointer {H} (ptr offset : Z) : stateR (mem * H) unit :=
  if ptr =? 0 then write (λ m, store64 m offset 0)
  else
  MOJO_DCHECK debug (offset <? ptr);;
  write (λ m, store64 m offset (u64 (ptr - offset))).

Definition DecodePointerRaw {H} (offset : Z) : stateR (mem * H) Z :=
  o ← read (λ m, load64 m offset);
  if o =? 0 then mret 0 else mret (u64 (offset + o)).

(** [*ptr = ...], where the slot of [ptr] is the one of [offset] *)
Definition DecodePointer {H} (offset : Z) : stateR (mem * H) unit :=
  ptr ← DecodePointerRaw offset;
  write (λ m, store64 m offset ptr).

Definition EncodeHandle (handle : Z) : SM unit :=
  h ← read (λ m, load32 m handle);
  if negb (h =? MOJO_HANDLE_INVALID) then
    s ← get_state;
    let handles := snd s ++ [h] in
    put_state (fst s, handles);;
    write (λ m, store32 m handle (u32 (Z.of_nat (length handles) - 1)))
  else write (λ m, store32 m handle kEncodedInvalidHandleValue).

(** [handles->at(i)] throws when [i] is out of range. *)
Definition DecodeHandle (handle : Z) : SM unit :=
  index ← read (λ m, load32 m handle);
  if index =? kEncodedInvalidHandleValue then write (λ m, store32 m handle MOJO_HANDLE_INVALID)
  else
  s ← get_state;
  MOJO_DCHECK debug (index <? Z.of_nat (length (snd s)));;
  match snd s !! Z.to_nat index with
  | None => crash AssertFailed
  | Some h =>
      put_state (fst s, <[Z.to_nat index := MOJO_HANDLE_INVALID]> (snd s));;
      write (λ m, store32 m handle h)
  end.
End serialization.

(** ** fixed_buffer.cc *)
Record FixedBuffer := mkFixedBuffer {
  ptr_ : Z;
  cursor_ : Z;
  size_ : Z;
}.

Definition FixedBuffer_Initialize (memory size : Z) : FixedBuffer := mkFixedBuffer memory 0 size.

Definition FixedBuffer_Allocate (debug : bool) (delta : Z) : stateR FixedBuffer Z :=
  let delta := Align delta in
  b ← get_state;
  if (delta =? 0) || (u64 (size_ b - cursor_ b) <? delta) then
    MOJO_DCHECK debug false;; mret 0
  else
  put_state (mkFixedBuffer (ptr_ b) (u64 (cursor_ b + delta)) (size_ b));;
  mret (ptr_ b + cursor_ b).
