(* ===== verification/CppAgrees.v ===== *)
(** * The C++ primitives against the C library

    Claims of a [BoundsChecker] never overlap; the C++ functions that encode and
    decode pointers and handles, and that allocate, do what the C functions do, so
    that either side of a pipe may use either implementation. *)
From stdpp Require Import base list numbers option gmap sorting.
From S2P Require Import Prelude Memory TypeDescriptor Validate Sample Codec Buffer CppBindings.

(** ** Claims *)
Inductive claim :=
| Memory (position num_bytes : Z)
| AHandle (encoded_handle : Z).

Definition make_claim (c : claim) : stateR BoundsChecker bool :=
  match c with
  | Memory position num_bytes => ClaimMemory position num_bytes
  | AHandle h => ClaimHandle h
  end.

(** The claims that succeed, among those a validator makes one after the other. *)
Fixpoint granted (claims : list claim) : stateR BoundsChecker (list claim) :=
  match claims with
  | [] => mret []
  | c :: claims =>
      ok ← make_claim c;
      cs ← granted claims;
      mret (if ok : bool then c :: cs else cs)
  end.

Definition claim_ok (c : claim) : Prop :=
  match c with
  | Memory position num_bytes => 0 <= position < 2 ^ 64 ∧ 0 <= num_bytes < 2 ^ 32
  | AHandle h => 0 <= h < 2 ^ 32
  end.

Definition memory_claimed (cs : list claim) : list (Z * Z) :=
  omap (λ c, match c with Memory p n => Some (p, p + n) | AHandle _ => None end) cs.
Definition handles_claimed (cs : list claim) : list Z :=
  omap (λ c, match c with
    | AHandle h => if h =? kEncodedInvalidHandleValue then None else Some h
    | Memory _ _ => None end) cs.

Definition before (r1 r2 : Z * Z) : Prop := r1.2 <= r2.1.

Lemma ClaimMemory_spec c position num_bytes :
  0 <= position < 2 ^ 64 → 0 <= num_bytes < 2 ^ 32 → data_end_ c < 2 ^ 64 →
  ∃ ok c', ClaimMemory position num_bytes c = Ok (ok, c') ∧
    data_end_ c' = data_end_ c ∧ handle_begin_ c' = handle_begin_ c ∧
    handle_end_ c' = handle_end_ c ∧
    (ok = true ↔ 0 < num_bytes ∧ data_begin_ c <= position ∧
      position + num_bytes <= data_end_ c) ∧
    data_begin_ c' = if ok then position + num_bytes else data_begin_ c.
Proof.
  intros Hp Hn Hend. unfold ClaimMemory, InternalIsValidRange.
  cbn [mbind stateR_bind get_state]. unfold mbind, stateR_bind, get_state.
  assert (u64 (position + num_bytes) = position + num_bytes ∨
    2 ^ 64 <= position + num_bytes ∧ u64 (position + num_bytes) = position + num_bytes - 2 ^ 64)
    as Hu.
  { destruct (decide (position + num_bytes < 2 ^ 64)); [left; apply u64_small; lia|right].
    split; [lia|]. unfold u64. symmetry. apply Z.mod_unique_pos with 1; lia. }
  destruct (_ && _) eqn:Hv; cbn; eexists _, _; (split_and!; [done|done|done|done| |]); cbn; try lia.
Qed.

Lemma ClaimHandle_spec c h :
  0 <= h < 2 ^ 32 → 0 <= handle_begin_ c → handle_end_ c < 2 ^ 32 →
  ∃ ok c', ClaimHandle h c = Ok (ok, c') ∧
    data_end_ c' = data_end_ c ∧ data_begin_ c' = data_begin_ c ∧
    handle_end_ c' = handle_end_ c ∧
    (ok = true → h = kEncodedInvalidHandleValue ∧ handle_begin_ c' = handle_begin_ c ∨
       h ≠ kEncodedInvalidHandleValue ∧ handle_begin_ c <= h < handle_end_ c ∧
       handle_begin_ c' = h + 1) ∧
    (ok = false → c' = c).
Proof.
  intros Hh Hb He. unfold ClaimHandle. destruct (h =? kEncodedInvalidHandleValue) eqn:Hi.
  { eexists true, c. split_and!; try done. intros _. left. split; [lia|done]. }
  unfold mbind, stateR_bind, get_state.
  destruct (_ || _) eqn:Hv; cbn.
  - eexists false, c. by split_and!.
  - eexists true, _. split_and!; try done. intros _. right. cbn.
    rewrite u32_small by lia. lia.
Qed.

Lemma granted_spec claims c :
  Forall claim_ok claims → 0 <= data_begin_ c → data_end_ c < 2 ^ 64 →
  0 <= handle_begin_ c → handle_end_ c < 2 ^ 32 →
  returns (granted claims c) (λ '(cs, _),
    StronglySorted before (memory_claimed cs) ∧
    Forall (λ r, data_begin_ c <= r.1 < r.2 ∧ r.2 <= data_end_ c) (memory_claimed cs) ∧
    StronglySorted Z.lt (handles_claimed cs) ∧
    Forall (λ h, handle_begin_ c <= h < handle_end_ c) (handles_claimed cs)).
Proof.
  intros Hc. revert c. induction Hc as [|cl claims Hcl Hc IH]; intros c Hb Hd Hh He;
    cbn [granted]; [cbn; repeat constructor|].
  apply returnsS_bind. destruct cl as [p n|h]; cbn [make_claim].
  - destruct Hcl as [Hp Hn].
    destruct (ClaimMemory_spec c p n) as (ok & c' & -> & He' & Hhb & Hhe & Hok & Hb'); [done..|].
    cbn [returns]. apply returnsS_bind.
    eapply returns_mono; [apply IH; [destruct ok; lia|lia|lia|lia]|].
    intros [cs c''] (Hs & Hf & Hhs & Hhf). cbn. rewrite He', Hhb, Hhe in *.
    destruct ok; cbn; [|by rewrite Hb' in Hf].
    destruct Hok as [Hok _]. specialize (Hok eq_refl). rewrite Hb' in Hf.
    split_and!; [| |done|done].
    + constructor; [done|]. eapply Forall_impl; [exact Hf|]. unfold before. cbn. lia.
    + constructor; [cbn; lia|]. eapply Forall_impl; [exact Hf|]. cbn. lia.
  - destruct (ClaimHandle_spec c h) as (ok & c' & -> & Hde & Hdb & Hhe & Hok & Hno); [done..|].
    cbn [returns]. apply returnsS_bind.
    destruct ok; [|rewrite Hno by done; eapply returns_mono; [by apply IH|by intros [??] ?]].
    destruct (Hok eq_refl) as [[-> Hhb]|(Hne & Hr & Hhb)].
    + eapply returns_mono; [apply IH; lia|]. intros [cs c'']. cbn. by rewrite Hde, Hdb, Hhe, Hhb.
    + eapply returns_mono; [apply IH; lia|].
      intros [cs c''] (Hs & Hf & Hhs & Hhf). cbn. rewrite Hde, Hdb, Hhe, Hhb in *.
      replace (h =? kEncodedInvalidHandleValue) with false by lia. split_and!; [done|done| |].
      * constructor; [done|]. eapply Forall_impl; [exact Hhf|]. cbn. lia.
      * constructor; [lia|]. eapply Forall_impl; [exact Hhf|]. cbn. lia.
Qed.

(** C22: Whatever claims a validator makes, in whatever order, those that a
    [BoundsChecker] grants are non-empty ranges inside the message, each after the
    end of the previous one, and handle indices below the number of handles, each
    above the previous one: no byte and no handle is claimed twice. *)
Theorem BoundsChecker_claims_disjoint debug data size num_handles claims :
  0 <= data → 0 <= size < 2 ^ 32 → data + size < 2 ^ 64 → 0 <= num_handles < 2 ^ 32 →
  Forall claim_ok claims →
  returns (BoundsChecker_new debug data size num_handles tt) (λ '(c, _),
    returns (granted claims c) (λ '(cs, _),
      StronglySorted before (memory_claimed cs) ∧
      Forall (λ r, data <= r.1 < r.2 ∧ r.2 <= data + size) (memory_claimed cs) ∧
      StronglySorted Z.lt (handles_claimed cs) ∧
      Forall (λ h, 0 <= h < num_handles) (handles_claimed cs))).
Proof.
  intros Hdata Hsize Hend Hh Hc. unfold BoundsChecker_new.
  rewrite u64_small, u32_small by lia.
  replace (data + size <? data) with false by lia.
  replace (num_handles <? num_handles) with false by lia.
  cbn. by apply granted_spec; cbn; [..|lia|lia|lia|lia].
Qed.

Lemma BoundsChecker_claims_disjoint_witness :
  returns (BoundsChecker_new true 4096 64 2 tt) (λ '(c, _),
    returns (granted [Memory 4096 24; AHandle 0; Memory 4100 8; Memory (2 ^ 64 - 8) 16;
                      AHandle 0; Memory 4128 16; AHandle 1] c) (λ '(cs, _),
      StronglySorted before (memory_claimed cs) ∧
      Forall (λ r, 4096 <= r.1 < r.2 ∧ r.2 <= 4096 + 64) (memory_claimed cs) ∧
      StronglySorted Z.lt (handles_claimed cs) ∧
      Forall (λ h, 0 <= h < 2) (handles_claimed cs))).
Proof.
  apply (BoundsChecker_claims_disjoint true 4096 64 2); [lia|lia|lia|lia|].
  repeat constructor; cbn; lia.
Defined.

(** ** Pointers and handles *)

(** The two statements of [Encode] that concern the slot of a pointer. *)
Definition EncodePointerSlot {H} (debug : bool) (slot : Z) : stateR (mem * H) unit :=
  ptr ← read (λ m, load64 m slot);
  EncodePointer debug ptr slot.

Lemma read_eq {H A} (f : mem → result A) (m : mem) (h : H) :
  read f (m, h) = match f m with Ok a => Ok (a, (m, h)) | Crash e => Crash e end.
Proof. unfold read, get_mem, mbind, stateR_bind. cbn. by destruct (f m). Qed.
Lemma write_eq {H} (f : mem → result mem) (m : mem) (h : H) :
  write f (m, h) = match f m with Ok m' => Ok (tt, (m', h)) | Crash e => Crash e end.
Proof. unfold write, get_mem, put_mem, mbind, stateR_bind. cbn. by destruct (f m). Qed.

Lemma EncodePointer_agrees {H} debug slot max_offset m (h : H) s' :
  encode_pointer slot max_offset (m, h) = Ok (tt, s') → 0 <= slot →
  EncodePointerSlot debug slot (m, h) = Ok (tt, s').
Proof.
  unfold encode_pointer, EncodePointerSlot, EncodePointer, mbind, stateR_bind.
  rewrite read_eq. destruct (load64 m slot) as [ptr|] eqn:Hl; [|done].
  pose proof (load64_range _ _ _ Hl) as Hr. destruct (ptr =? 0); [done|].
  unfold c_assert. destruct (slot <? ptr) eqn:Hlt; [|done]. cbn.
  destruct (ptr - slot <? max_offset); [|done]. cbn. intros Hw Hs.
  rewrite u64_small by lia. unfold MOJO_DCHECK, MOJO_CHECK, c_assert. by destruct debug.
Qed.

Lemma DecodePointer_agrees {H} slot (s : mem * H) : DecodePointer slot s = decode_pointer slot s.
Proof.
  destruct s as [m h]. unfold DecodePointer, DecodePointerRaw, decode_pointer, mbind, stateR_bind.
  rewrite read_eq. destruct (load64 m slot) as [o|]; [|done]. by destruct (o =? 0).
Qed.

(** The vector of the C++ bindings holds what the C library has put into the
    caller's array so far. *)
Definition handles_used (hb : MojomHandleBuffer) (vec : list Z) : Prop :=
  ∃ handles, hb_handles hb = Some handles ∧
    vec = take (Z.to_nat (hb_num_handles_used hb)) handles ∧
    0 <= hb_num_handles_used hb <= Z.of_nat (length handles) ∧
    Z.of_nat (length handles) < 2 ^ 32.

Lemma handles_set_Ok hs i h hs' :
  handles_set hs i h = Ok hs' → (Z.to_nat i < length hs)%nat ∧ hs' = <[Z.to_nat i := h]> hs.
Proof.
  unfold handles_set. destruct (hs !! Z.to_nat i) eqn:Hi; [|done]. intros [= <-].
  split; [by eapply lookup_lt_Some|done].
Qed.

Lemma EncodeHandle_agrees nullable handle m hb m' ohb' vec :
  encode_handle nullable handle (m, Some hb) = Ok (tt, (m', ohb')) → handles_used hb vec →
  ∃ hb' vec', ohb' = Some hb' ∧ EncodeHandle handle (m, vec) = Ok (tt, (m', vec')) ∧
    handles_used hb' vec'.
Proof.
  unfold encode_handle, EncodeHandle, mbind, stateR_bind, get_state.
  destruct (negb (handle =? 0)); [|done]. cbn [c_assert mret stateR_ret fst snd].
  intros He (hs & Hhs & -> & Hu & Hlen). rewrite Hhs in He. rewrite read_eq in He. rewrite read_eq.
  destruct (load32 m handle) as [h|] eqn:Hl; [|done].
  destruct (h =? MOJO_HANDLE_INVALID); cbn [negb].
  - destruct nullable; [|done]. cbn in He. rewrite write_eq in He. rewrite write_eq.
    change kEncodedInvalidHandleValue with kEncodedHandleInvalid.
    destruct (store32 m handle _); [|done]. injection He as <- <-.
    exists hb. eexists. split_and!; [done|done|]. by exists hs.
  - unfold c_assert in He. destruct (_ <? hb_num_handles hb); [|done]. cbn in He.
    unfold lift in He. destruct (handles_set hs _ h) as [hs'|] eqn:Hset; [|done].
    apply handles_set_Ok in Hset as [Hlt ->]. cbn [put_state fst snd].
    assert (Z.of_nat (length (take (Z.to_nat (hb_num_handles_used hb)) hs ++ [h])) - 1 =
      hb_num_handles_used hb) as Hn by (rewrite length_app, length_take; cbn; lia).
    rewrite Hn, u32_small, write_eq by lia. rewrite write_eq in He.
    destruct (store32 m handle (hb_num_handles_used hb)) as [m1|]; [|done].
    cbn in He. injection He as <- <-. rewrite u32_small by lia.
    eexists _, _. split_and!; [done|done|]. eexists. split; [done|split; [|split]]; cbn.
    + replace (Z.to_nat (hb_num_handles_used hb + 1))
        with (S (Z.to_nat (hb_num_handles_used hb))) by lia.
      rewrite (take_S_r _ _ h) by by rewrite list_lookup_insert_eq.
      by rewrite take_insert_ge.
    + rewrite length_insert. lia.
    + by rewrite length_insert.
Qed.

Lemma DecodeHandle_agrees debug handle m hs m' ohs' :
  decode_handle handle (Z.of_nat (length hs)) (m, Some hs) = Ok (tt, (m', ohs')) →
  ∃ hs', ohs' = Some hs' ∧ DecodeHandle debug handle (m, hs) = Ok (tt, (m', hs')) ∧
    length hs' = length hs.
Proof.
  unfold decode_handle, DecodeHandle, mbind, stateR_bind, get_state.
  destruct (negb (handle =? 0)); [|done]. cbn [c_assert mret stateR_ret fst snd].
  rewrite !read_eq. destruct (load32 m handle) as [index|]; [|done].
  change kEncodedInvalidHandleValue with kEncodedHandleInvalid.
  destruct (index =? kEncodedHandleInvalid).
  - rewrite !write_eq. destruct (store32 m handle _); [|done]. intros [= <- <-]. by exists hs.
  - unfold c_assert. destruct (index <? Z.of_nat (length hs)) eqn:Hlt; [|done]. cbn.
    unfold handles_get, lift. destruct (hs !! Z.to_nat index) as [h|] eqn:Hh; [|done].
    rewrite write_eq. destruct (store32 m handle h) as [m1|] eqn:Hst; [|done].
    unfold handles_set. rewrite Hh. cbn. intros [= <- <-].
    eexists. split; [done|]. rewrite length_insert. unfold MOJO_DCHECK, MOJO_CHECK, c_assert, put_state.
    rewrite Hlt. destruct debug; cbn; rewrite write_eq, Hst; done.
Qed.

(** C16: On every pointer and handle that the C library encodes or decodes, the C++
    bindings do the same to memory and to the handles: what one implementation
    sends the other reads back. *)
Theorem cpp_codec_agrees_with_c debug :
  (∀ H slot max_offset m (h : H) s', 0 <= slot →
     encode_pointer slot max_offset (m, h) = Ok (tt, s') →
     EncodePointerSlot debug slot (m, h) = Ok (tt, s')) ∧
  (∀ H slot (s : mem * H), DecodePointer slot s = decode_pointer slot s) ∧
  (∀ nullable handle m hb m' ohb' vec, handles_used hb vec →
     encode_handle nullable handle (m, Some hb) = Ok (tt, (m', ohb')) →
     ∃ hb' vec', ohb' = Some hb' ∧ EncodeHandle handle (m, vec) = Ok (tt, (m', vec')) ∧
       handles_used hb' vec') ∧
  (∀ handle m hs m' ohs',
     decode_handle handle (Z.of_nat (length hs)) (m, Some hs) = Ok (tt, (m', ohs')) →
     ∃ hs', ohs' = Some hs' ∧ DecodeHandle debug handle (m, hs) = Ok (tt, (m', hs'))).
Proof.
  split_and!.
  - intros. by eapply EncodePointer_agrees.
  - intros. apply DecodePointer_agrees.
  - intros. by eapply EncodeHandle_agrees.
  - intros handle m hs m' ohs' Hd.
    apply DecodeHandle_agrees with (debug := debug) in Hd as (hs' & ? & ? & _). by exists hs'.
Qed.

(** ** Allocation *)
Definition same_buffer (f : FixedBuffer) (b : MojomBuffer) : Prop :=
  ptr_ f = buf b ∧ cursor_ f = num_bytes_used b ∧ size_ f = buf_size b.

Lemma Align_round8 n : 0 <= n → n + 8 <= 2 ^ 64 → Align n = round8 n.
Proof.
  intros Hn Hlt. unfold Align, kAlignment, round8.
  pose proof (Z.mod_pos_bound n 8). pose proof (Z.div_mod n 8).
  destruct (decide (n mod 8 = 0)) as [Hz|Hne].
  - rewrite Hz. change ((8 - 0) mod 8) with 0. rewrite u64_small by lia.
    replace (n + 7) with (7 + (n / 8) * 8) by lia. rewrite Z.div_add by lia.
    change (7 / 8) with 0. lia.
  - rewrite (Z.mod_small (8 - n mod 8)) by lia. rewrite u64_small by lia.
    replace (n + 7) with ((n mod 8 - 1) + (n / 8 + 1) * 8) by lia.
    rewrite Z.div_add by lia. rewrite (Z.div_small (n mod 8 - 1)) by lia. lia.
Qed.

(** A release build's [FixedBuffer::Allocate] returns the address that
    [MojomBuffer_Allocate] returns, null included, and leaves the buffer in the same
    state, for every request but one of no bytes, which only C++ refuses. *)
Theorem FixedBuffer_Allocate_agrees m f b n :
  buffer_ok b → same_buffer f b → 0 < n < 2 ^ 32 →
  ∃ p f' b', FixedBuffer_Allocate false n f = Ok (p, f') ∧
    MojomBuffer_Allocate n (m, Some b) = Ok (p, (m, Some b')) ∧ same_buffer f' b' ∧
    buffer_ok b'.
Proof.
  intros Hok (Hp & Hc & Hs) Hn. rewrite Allocate_eq by (done || lia).
  unfold FixedBuffer_Allocate, mbind, stateR_bind, get_state. rewrite Align_round8 by lia.
  pose proof (round8_bounds n). unfold room. pose proof Hok as (H1 & H2 & H3 & H4).
  rewrite Hs, Hc, u64_small by lia.
  replace (round8 n =? 0) with false by lia. cbn [orb].
  destruct (num_bytes_used b + round8 n <=? buf_size b) eqn:Hroom.
  - replace (buf_size b - num_bytes_used b <? round8 n) with false by lia.
    cbn. rewrite Hp, u64_small by lia. eexists _, _, _. split_and!; try done.
    by apply take_bytes_ok; [|lia|].
  - replace (buf_size b - num_bytes_used b <? round8 n) with true by lia.
    cbn. by eexists _, _, _.
Qed.

Lemma FixedBuffer_Allocate_agrees_witness :
  ∃ p f' b', FixedBuffer_Allocate false 20 (FixedBuffer_Initialize 8192 64) = Ok (p, f') ∧
    MojomBuffer_Allocate 20 (∅, Some sample_buffer) = Ok (p, (∅, Some b')) ∧
    same_buffer f' b' ∧ buffer_ok b'.
Proof.
  apply (FixedBuffer_Allocate_agrees ∅ (FixedBuffer_Initialize 8192 64) sample_buffer 20).
  - unfold buffer_ok. cbn. lia.
  - done.
  - lia.
Defined.
