(* ===== verification/CppMessage.v ===== *)
(** * Messages of the C++ bindings

    message_internal.h, message_header_validator.cc, message_validation.{h,cc},
    message_validator.cc and message_builder.cc; against the C library's
    treatment of the same headers. *)
From stdpp Require Import base list numbers option gmap.
From S2P Require Import Prelude Memory TypeDescriptor Validate Sample Codec Buffer Message CppBindings CppAgrees.

(** ** The header (message_internal.h) *)
Definition kMessageExpectsResponse : Z := Z.shiftl 1 0.
Definition kMessageIsResponse : Z := Z.shiftl 1 1.
Definition sizeof_MessageHeader : Z := 16.
Definition sizeof_MessageHeaderWithRequestID : Z := 24.
Definition header_name (m : mem) (p : Z) : result Z := load32 m (p + 8).
Definition header_flags (m : mem) (p : Z) : result Z := load32 m (p + 12).

(** [Message]: its memory, where [data_] points, and its handles. *)
Record Message := mkMessage {
  msg_mem : mem;
  msg_data : Z;
  data_num_bytes : Z;
  handles_ : list Z;
}.

(** The accessors of [Message] (message.h). *)
Definition msg_has_flag (message : Message) (flag : Z) : result bool :=
  flags ← header_flags (msg_mem message) (msg_data message);
  Ok (has_flag flags flag).
Definition has_request_id (message : Message) : result bool :=
  version ← struct_version (msg_mem message) (msg_data message);
  Ok (1 <=? version).
Definition dcheck_request_id (debug : bool) (message : Message) : result unit :=
  if debug then has ← has_request_id message; c_assertR has else Ok tt.
Definition request_id (debug : bool) (message : Message) : result Z :=
  dcheck_request_id debug message;;
  load64 (msg_mem message) (msg_data message + 16).
Definition set_request_id (debug : bool) (message : Message) (id : Z) : result Message :=
  dcheck_request_id debug message;;
  m ← store64 (msg_mem message) (msg_data message + 16) id;
  Ok (mkMessage m (msg_data message) (data_num_bytes message) (handles_ message)).

(** ** message_header_validator.cc *)
Section validate.
Context (m : mem).

Definition ValidateMessageHeader (header : Z) : result ValidationError :=
  version ← struct_version m header;
  num_bytes ← struct_num_bytes m header;
  if (if version =? 0 then negb (num_bytes =? sizeof_MessageHeader)
      else if version =? 1 then negb (num_bytes =? sizeof_MessageHeaderWithRequestID)
      else (1 <? version) && (num_bytes <? sizeof_MessageHeaderWithRequestID))
  then Ok UNEXPECTED_STRUCT_HEADER
  else
  flags ← header_flags m header;
  if (version <? 1) &&
     (has_flag flags kMessageExpectsResponse || has_flag flags kMessageIsResponse) then
    Ok MESSAGE_HEADER_MISSING_REQUEST_ID
  else if has_flag flags kMessageExpectsResponse && has_flag flags kMessageIsResponse then
    Ok MESSAGE_HEADER_INVALID_FLAGS
  else Ok NONE.
End validate.

Definition MessageHeaderValidator_Validate (debug : bool) (message : Message)
    : result ValidationError :=
  '(bounds_checker, _) ← BoundsChecker_new debug (msg_data message) (data_num_bytes message) 0 tt;
  '(r, _) ← ValidateStructHeaderAndClaimMemory (msg_mem message) (msg_data message) bounds_checker;
  if negb (bool_decide (r = NONE)) then Ok r
  else ValidateMessageHeader (msg_mem message) (msg_data message).

(** ** message_validator.cc *)
Definition MessageValidator : Type := Message → result ValidationError.

Definition PassThroughValidator_Validate : MessageValidator := λ _, Ok NONE.

Fixpoint RunValidatorsOnMessage (validators : list MessageValidator) (message : Message)
    : result ValidationError :=
  match validators with
  | [] => Ok NONE
  | validator :: validators =>
      r ← validator message;
      if negb (bool_decide (r = NONE)) then Ok r else RunValidatorsOnMessage validators message
  end.

(** ** message_validation.cc *)
Definition ValidateMessageIsRequestWithoutResponse : MessageValidator := λ message,
  is_response ← msg_has_flag message kMessageIsResponse;
  if is_response : bool then Ok MESSAGE_HEADER_INVALID_FLAGS
  else
  expects ← msg_has_flag message kMessageExpectsResponse;
  if expects : bool then Ok MESSAGE_HEADER_INVALID_FLAGS else Ok NONE.

Definition ValidateMessageIsRequestExpectingResponse : MessageValidator := λ message,
  is_response ← msg_has_flag message kMessageIsResponse;
  if is_response : bool then Ok MESSAGE_HEADER_INVALID_FLAGS
  else
  expects ← msg_has_flag message kMessageExpectsResponse;
  if negb expects then Ok MESSAGE_HEADER_INVALID_FLAGS else Ok NONE.

Definition ValidateMessageIsResponse : MessageValidator := λ message,
  expects ← msg_has_flag message kMessageExpectsResponse;
  is_response ← (if expects : bool then Ok false else msg_has_flag message kMessageIsResponse);
  if negb is_response then Ok MESSAGE_HEADER_INVALID_FLAGS else Ok NONE.

(** The payload of a message, and its validation by the type of its parameters
    ([ParamsType::Validate] is generated code). *)
Definition payload (message : Message) : result Z :=
  num_bytes ← struct_num_bytes (msg_mem message) (msg_data message);
  Ok (msg_data message + num_bytes).
Definition payload_num_bytes (debug : bool) (message : Message) : result Z :=
  num_bytes ← struct_num_bytes (msg_mem message) (msg_data message);
  (if debug then c_assertR (num_bytes <=? data_num_bytes message) else Ok tt);;
  Ok (u32 (data_num_bytes message - num_bytes)).
Definition ValidateMessagePayload (debug : bool)
    (Validate : mem → Z → stateR BoundsChecker ValidationError) : MessageValidator := λ message,
  p ← payload message;
  n ← payload_num_bytes debug message;
  '(bounds_checker, _) ← BoundsChecker_new debug p n (Z.of_nat (length (handles_ message))) tt;
  '(r, _) ← Validate (msg_mem message) p bounds_checker;
  Ok r.

(** Control messages (message_header_validator.cc): their names and the validators
    of their parameters are generated code. *)
Section control.
Context (debug : bool) (kRunMessageId kRunOrClosePipeMessageId : Z).
Context (RunMessageParams RunOrClosePipeMessageParams RunResponseMessageParams :
  mem → Z → stateR BoundsChecker ValidationError).

Definition ValidateControlRequest : MessageValidator := λ message,
  name ← header_name (msg_mem message) (msg_data message);
  if name =? kRunMessageId then
    retval ← ValidateMessageIsRequestExpectingResponse message;
    if negb (bool_decide (retval = NONE)) then Ok retval
    else ValidateMessagePayload debug RunMessageParams message
  else if name =? kRunOrClosePipeMessageId then
    retval ← ValidateMessageIsRequestWithoutResponse message;
    if negb (bool_decide (retval = NONE)) then Ok retval
    else ValidateMessagePayload debug RunOrClosePipeMessageParams message
  else Ok MESSAGE_HEADER_UNKNOWN_METHOD.

Definition ValidateControlResponse : MessageValidator := λ message,
  retval ← ValidateMessageIsResponse message;
  if negb (bool_decide (retval = NONE)) then Ok retval
  else
  name ← header_name (msg_mem message) (msg_data message);
  if name =? kRunMessageId then ValidateMessagePayload debug RunResponseMessageParams message
  else Ok MESSAGE_HEADER_UNKNOWN_METHOD.
End control.

(** ** message_builder.cc *)
Section builder.
Context (debug : bool).

(** [MessageBuilder::Initialize]: zeroed memory, at an address the allocator
    chooses. *)
Definition builder_initialize (data size : Z) : Message * FixedBuffer :=
  let num_bytes := u32 (Align size) in
  (mkMessage (list_to_map (map (λ i, (data + i, Z_to_byte 0)) (seqZ 0 num_bytes))) data num_bytes [],
   FixedBuffer_Initialize data num_bytes).

(** [Allocate<Header>]: a null result is dereferenced. *)
Definition builder_allocate (sizeof_Header : Z) (s : Message * FixedBuffer)
    : result (Z * (Message * FixedBuffer)) :=
  let '(message, b) := s in
  '(header, b) ← FixedBuffer_Allocate debug sizeof_Header b;
  m ← store32 (msg_mem message) header sizeof_Header;
  Ok (header, (mkMessage m (msg_data message) (data_num_bytes message) (handles_ message), b)).

Definition with_mem (m : mem) (message : Message) : Message :=
  mkMessage m (msg_data message) (data_num_bytes message) (handles_ message).

Definition MessageBuilder_new (data name payload_size : Z) : result (Message * FixedBuffer) :=
  '(header, (message, b)) ← builder_allocate sizeof_MessageHeader
    (builder_initialize data (sizeof_MessageHeader + payload_size));
  m ← store32 (msg_mem message) (header + 4) 0;
  m ← store32 m (header + 8) name;
  m ← store32 m (header + 12) 0;
  Ok (with_mem m message, b).

Definition MessageWithRequestIDBuilder_new (data name payload_size flags request_id : Z)
    : result (Message * FixedBuffer) :=
  '(header, (message, b)) ← builder_allocate sizeof_MessageHeaderWithRequestID
    (builder_initialize data (sizeof_MessageHeaderWithRequestID + payload_size));
  m ← store32 (msg_mem message) (header + 4) 1;
  m ← store32 m (header + 8) name;
  m ← store32 m (header + 12) flags;
  m ← store64 m (header + 16) request_id;
  Ok (with_mem m message, b).

Definition RequestMessageBuilder_new (data name payload_size : Z) :=
  MessageWithRequestIDBuilder_new data name payload_size kMessageExpectsResponse 0.
Definition ResponseMessageBuilder_new (data name payload_size request_id : Z) :=
  MessageWithRequestIDBuilder_new data name payload_size kMessageIsResponse request_id.
End builder.

(** ** Agreement with the C library *)

(** The C library's code for an error (validation.h). *)
Definition error_code (e : ValidationError) : Z :=
  match e with
  | NONE => MOJOM_VALIDATION_ERROR_NONE
  | MISALIGNED_OBJECT => MOJOM_VALIDATION_MISALIGNED_OBJECT
  | ILLEGAL_MEMORY_RANGE => MOJOM_VALIDATION_ILLEGAL_MEMORY_RANGE
  | UNEXPECTED_STRUCT_HEADER => MOJOM_VALIDATION_UNEXPECTED_STRUCT_HEADER
  | UNEXPECTED_ARRAY_HEADER => MOJOM_VALIDATION_UNEXPECTED_ARRAY_HEADER
  | ILLEGAL_HANDLE => MOJOM_VALIDATION_ILLEGAL_HANDLE
  | UNEXPECTED_INVALID_HANDLE => MOJOM_VALIDATION_UNEXPECTED_INVALID_HANDLE
  | ILLEGAL_POINTER => MOJOM_VALIDATION_ILLEGAL_POINTER
  | UNEXPECTED_NULL_POINTER => MOJOM_VALIDATION_UNEXPECTED_NULL_POINTER
  | MESSAGE_HEADER_INVALID_FLAGS => MOJOM_VALIDATION_MESSAGE_HEADER_INVALID_FLAGS
  | MESSAGE_HEADER_MISSING_REQUEST_ID => MOJOM_VALIDATION_MESSAGE_HEADER_MISSING_REQUEST_ID
  | MESSAGE_HEADER_UNKNOWN_METHOD => MOJOM_VALIDATION_MESSAGE_HEADER_UNKNOWN_METHOD
  | DIFFERENT_SIZED_ARRAYS_IN_MAP => MOJOM_VALIDATION_DIFFERENT_SIZED_ARRAYS_IN_MAP
  | UNEXPECTED_NULL_UNION => MOJOM_VALIDATION_UNEXPECTED_NULL_UNION
  end.

#[global] Instance error_code_inj : Inj (=) (=) error_code.
Proof. by intros [] []. Qed.

Definition coded (r : result ValidationError) : result Z := r ← r; Ok (error_code r).

(** A message in memory: aligned, as [malloc] returns, and inside the address
    space. *)
Record message_mapped (message : Message) : Prop := {
  mm_aligned : msg_data message mod 8 = 0;
  mm_data : 0 <= msg_data message;
  mm_size : 0 <= data_num_bytes message < 2 ^ 32;
  mm_end : msg_data message + data_num_bytes message < 2 ^ 64;
  mm_mapped : mapped (msg_mem message) (msg_data message)
    (msg_data message + data_num_bytes message);
}.

(** The header's part of validation, once the header is known to be inside. *)
Lemma ValidateMessageHeader_agrees m p nb size :
  mapped m p (p + size) → struct_num_bytes m p = Ok nb → 8 <= nb <= size →
  coded (ValidateMessageHeader m p) = MojomMessage_ValidateHeader m p size.
Proof.
  intros Hm Hnb Hsz. unfold MojomMessage_ValidateHeader, sizeof_MojomStructHeader.
  replace (size <? 8) with false by lia. rewrite Hnb. cbn [mbind result_bind].
  replace (size <? nb) with false by lia.
  unfold coded, ValidateMessageHeader, check_version.
  destruct (load_le_mapped 4 m (p + 4)) as [v Hv]; [eapply mapped_sub; [exact Hm|lia|lia]|].
  change (struct_version m p = Ok v) in Hv. rewrite Hv, Hnb. cbn [mbind result_bind].
  pose proof (load32_range _ _ _ Hv).
  unfold sizeof_MessageHeader, sizeof_MessageHeaderWithRequestID, sizeof_MojomMessage,
    sizeof_MojomMessageWithRequestId.
  change header_flags with message_flags.
  change kMessageExpectsResponse with MOJOM_MESSAGE_FLAGS_EXPECTS_RESPONSE.
  change kMessageIsResponse with MOJOM_MESSAGE_FLAGS_IS_RESPONSE.
  assert (16 <= nb → ∃ f, message_flags m p = Ok f) as Hflags.
  { intros Hnb16. apply (load_le_mapped 4 m (p + 12)). eapply mapped_sub; [exact Hm|lia|lia]. }
  destruct (v =? 0) eqn:Hv0; [|destruct (v =? 1) eqn:Hv1].
  - destruct (nb =? 16) eqn:Hnb16; cbn [negb]; [|done].
    destruct Hflags as [f ->]; [lia|]. replace (v <? 1) with true by lia. cbn.
    destruct (_ || _); [done|]. cbn. by destruct (_ && _).
  - destruct (nb =? 24) eqn:Hnb24; cbn [negb]; [|done].
    destruct Hflags as [f ->]; [lia|]. replace (v <? 1) with false by lia. cbn.
    by destruct (_ && _).
  - replace (1 <? v) with true by lia. cbn [andb]. destruct (nb <? 24) eqn:Hnb24; [done|].
    destruct Hflags as [f ->]; [lia|]. replace (v <? 1) with false by lia. cbn.
    by destruct (_ && _).
Qed.

(** The bounds checker's part: the header of the first struct of a range. *)
Lemma ValidateStructHeader_first m p size h :
  IsAligned p = true → 0 <= p → 0 <= size < 2 ^ 32 → p + size < 2 ^ 64 →
  mapped m p (p + size) →
  ∃ r c', ValidateStructHeaderAndClaimMemory m p (mkBoundsChecker p (p + size) 0 h) = Ok (r, c') ∧
    (size < 8 ∧ r = ILLEGAL_MEMORY_RANGE ∨
     8 <= size ∧ ∃ nb, struct_num_bytes m p = Ok nb ∧
       r = if nb <? 8 then UNEXPECTED_STRUCT_HEADER
           else if size <? nb then ILLEGAL_MEMORY_RANGE else NONE).
Proof.
  intros Hal Hp Hsize Hend Hm. unfold ValidateStructHeaderAndClaimMemory. rewrite Hal. cbn [negb].
  unfold mbind, stateR_bind, IsValidRange, sizeof_StructHeader, mret, stateR_ret.
  unfold mbind, stateR_bind, get_state, InternalIsValidRange. cbn [data_begin_ data_end_].
  assert ((p <? u64 (p + 8)) && (p <=? p) && (u64 (p + 8) <=? p + size) = (8 <=? size)) as ->.
  { destruct (decide (p + 8 < 2 ^ 64)); [rewrite u64_small by lia; lia|].
    replace (u64 (p + 8)) with (p + 8 - 2 ^ 64); [lia|].
    unfold u64. apply Z.mod_unique_pos with 1; lia. }
  destruct (8 <=? size) eqn:Hs8; cbn [negb].
  2: { eexists _, _. split; [done|]. left. split; [lia|done]. }
  destruct (load_le_mapped 4 m p) as [nb Hnb]; [eapply mapped_sub; [exact Hm|lia|lia]|].
  change (struct_num_bytes m p = Ok nb) in Hnb. rewrite Hnb. cbn [lift].
  pose proof (load32_range _ _ _ Hnb).
  destruct (nb <? 8) eqn:Hn8.
  { eexists _, _. split; [done|]. right. split; [lia|]. exists nb. by rewrite Hn8. }
  destruct (ClaimMemory_spec (mkBoundsChecker p (p + size) 0 h) p nb)
    as (ok & c' & -> & _ & _ & _ & Hok & _); [lia|lia|cbn; lia|].
  cbn in Hok. destruct ok; cbn [negb].
  - destruct Hok as [Hok _]. specialize (Hok eq_refl). eexists _, _. split; [done|]. right.
    split; [lia|]. exists nb. rewrite Hn8. by replace (size <? nb) with false by lia.
  - destruct (size <? nb) eqn:Hsn; [|destruct Hok as [_ Hok]; discriminate Hok; lia].
    eexists _, _. split; [done|]. right. split; [lia|]. exists nb. by rewrite Hn8, Hsn.
Qed.

Lemma BoundsChecker_new_eq {S} debug data size num_handles (s : S) :
  0 <= data → 0 <= size < 2 ^ 32 → data + size < 2 ^ 64 → 0 <= num_handles < 2 ^ 32 →
  BoundsChecker_new debug data size num_handles s =
    Ok (mkBoundsChecker data (data + size) 0 num_handles, s).
Proof.
  intros. unfold BoundsChecker_new. rewrite u64_small, u32_small by lia.
  replace (data + size <? data) with false by lia.
  by replace (num_handles <? num_handles) with false by lia.
Qed.

Lemma MessageHeaderValidator_agrees debug message :
  message_mapped message →
  coded (MessageHeaderValidator_Validate debug message) =
    MojomMessage_ValidateHeader (msg_mem message) (msg_data message) (data_num_bytes message).
Proof.
  destruct message as [m p size hs]. intros [Hal Hp Hsize Hend Hm]. cbn in *.
  unfold MessageHeaderValidator_Validate. cbn [msg_mem msg_data data_num_bytes].
  rewrite BoundsChecker_new_eq by lia. cbn [mbind result_bind].
  destruct (ValidateStructHeader_first m p size 0) as (r & c' & -> & Hr); try done.
  { unfold IsAligned, kAlignment. lia. }
  cbn [mbind result_bind]. unfold MojomMessage_ValidateHeader at 1, sizeof_MojomStructHeader.
  destruct Hr as [[Hs ->]|(Hs & nb & Hnb & ->)].
  { by replace (size <? 8) with true by lia. }
  destruct (nb <? 8) eqn:Hn8; [|destruct (size <? nb) eqn:Hsn].
  - replace (size <? 8) with false by lia. rewrite Hnb. cbn [mbind result_bind].
    replace (size <? nb) with false by lia. unfold check_version, sizeof_MojomMessage,
      sizeof_MojomMessageWithRequestId.
    destruct (load_le_mapped 4 m (p + 4)) as [v Hv]; [eapply mapped_sub; [exact Hm|lia|lia]|].
    change (struct_version m p = Ok v) in Hv. rewrite Hv, Hnb. cbn [mbind result_bind].
    pose proof (load32_range _ _ _ Hv).
    replace (nb =? 16) with false by lia. replace (nb =? 24) with false by lia.
    replace (nb <? 24) with true by lia.
    destruct (v =? 0) eqn:?; [done|]. destruct (v =? 1) eqn:?; [done|].
    by replace (1 <? v) with true by lia.
  - replace (size <? 8) with false by lia. rewrite Hnb. cbn. by rewrite Hsn.
  - cbn [negb bool_decide]. rewrite bool_decide_true by done. cbn [negb].
    rewrite (ValidateMessageHeader_agrees m p nb size Hm Hnb) by lia.
    unfold MojomMessage_ValidateHeader, sizeof_MojomStructHeader. done.
Qed.

(** C15: The two implementations accept the same messages, with the same error for
    the others: on any bytes the C++ header validator returns what the C library's
    returns; and on a header they accept, each C++ check of the kind of message
    agrees with the C one (which test fewer flags). *)
Theorem cpp_header_validation_agrees_with_c debug message :
  message_mapped message →
  let m := msg_mem message in let p := msg_data message in
  coded (MessageHeaderValidator_Validate debug message) =
    MojomMessage_ValidateHeader m p (data_num_bytes message) ∧
  (MessageHeaderValidator_Validate debug message = Ok NONE →
   coded (ValidateMessageIsRequestWithoutResponse message) =
     MojomMessage_ValidateRequestWithoutResponse m p ∧
   coded (ValidateMessageIsRequestExpectingResponse message) =
     MojomMessage_ValidateRequestExpectingResponse m p ∧
   coded (ValidateMessageIsResponse message) = MojomMessage_ValidateResponse m p).
Proof.
  intros Hmm m p. pose proof (MessageHeaderValidator_agrees debug message Hmm) as Ha.
  split; [done|]. intros Hv. rewrite Hv in Ha. cbn in Ha.
  destruct Hmm as [_ _ _ _ Hm].
  pose proof (ValidateHeader_spec _ _ _ Hm) as Hs. rewrite <- Ha in Hs.
  destruct (proj1 Hs eq_refl) as (v & nb & f & _ & _ & Hf & Hok).
  pose proof (header_exclusive _ _ _ _ Hok) as Hex.
  unfold coded, ValidateMessageIsRequestWithoutResponse, ValidateMessageIsRequestExpectingResponse,
    ValidateMessageIsResponse, MojomMessage_ValidateRequestWithoutResponse,
    MojomMessage_ValidateRequestExpectingResponse, MojomMessage_ValidateResponse, msg_has_flag.
  change header_flags with message_flags. unfold m, p. rewrite Hf. cbn [mbind result_bind].
  unfold kMessageExpectsResponse, kMessageIsResponse, MOJOM_MESSAGE_FLAGS_EXPECTS_RESPONSE,
    MOJOM_MESSAGE_FLAGS_IS_RESPONSE. rewrite !has_flag_testbit by lia.
  by destruct (Z.testbit f 0), (Z.testbit f 1).
Qed.

(** A response to request 7, as in [Message.sample_header]. *)
Definition sample_message : Message := mkMessage sample_header 4096 24 [].

Lemma sample_message_mapped : message_mapped sample_message.
Proof. split; cbn; [done|lia|lia|lia|]. apply mapped_check_sound. by vm_compute. Qed.

Lemma cpp_header_validation_agrees_with_c_witness :
  coded (MessageHeaderValidator_Validate true sample_message) =
    MojomMessage_ValidateHeader sample_header 4096 24 ∧
  (MessageHeaderValidator_Validate true sample_message = Ok NONE →
   coded (ValidateMessageIsRequestWithoutResponse sample_message) =
     MojomMessage_ValidateRequestWithoutResponse sample_header 4096 ∧
   coded (ValidateMessageIsRequestExpectingResponse sample_message) =
     MojomMessage_ValidateRequestExpectingResponse sample_header 4096 ∧
   coded (ValidateMessageIsResponse sample_message) =
     MojomMessage_ValidateResponse sample_header 4096).
Proof.
  apply (cpp_header_validation_agrees_with_c true sample_message sample_message_mapped).
Defined.
