(* ===== verification/CppBuilder.v ===== *)
(** * The messages of [MessageBuilder] are valid

    Whatever a proxy sends is framed by one of the three builders; the receiver's
    checks accept all of them. *)
From stdpp Require Import base list numbers option gmap.
From S2P Require Import Prelude Memory TypeDescriptor Validate Sample Codec Buffer Message CppBindings CppAgrees CppMessage.

(** [m' ] is [m] with other contents. *)
Definition same_domain (m m' : mem) : Prop := ∀ x, is_Some (m' !! x) ↔ is_Some (m !! x).

Lemma same_domain_mapped m m' lo hi : same_domain m m' → mapped m lo hi → mapped m' lo hi.
Proof. intros Hd Hm x Hx. by apply Hd, Hm. Qed.

(** Stores to one word keep the others. *)
Lemma store32_words m a v :
  mapped m a (a + 4) → 0 <= v < 2 ^ 32 →
  returns (store32 m a v) (λ m', load32 m' a = Ok v ∧ same_domain m m' ∧
    ∀ b, b + 4 <= a ∨ a + 4 <= b → load32 m' b = load32 m b).
Proof.
  intros Hm Hv. eapply returns_mono; [by apply store32_ok|]. intros m' (Hl & Ha & Hd).
  split_and!; [done|done|]. intros b Hb. symmetry. apply load32_agree.
  eapply agree_on_sub; [exact Ha|]. unfold range. lia.
Qed.

Lemma store64_words m a v :
  mapped m a (a + 8) → 0 <= v < 2 ^ 64 →
  returns (store64 m a v) (λ m', load64 m' a = Ok v ∧ same_domain m m' ∧
    ∀ b, b + 4 <= a ∨ a + 8 <= b → load32 m' b = load32 m b).
Proof.
  intros Hm Hv. eapply returns_mono; [by apply store64_ok|]. intros m' (Hl & Ha & Hd).
  split_and!; [done|done|]. intros b Hb. symmetry. apply load32_agree.
  eapply agree_on_sub; [exact Ha|]. unfold range. lia.
Qed.

Lemma zeros_mapped data n :
  mapped (list_to_map (map (λ i, (data + i, Z_to_byte 0)) (seqZ 0 n))) data (data + n).
Proof.
  intros x Hx. exists (Z_to_byte 0). apply elem_of_list_to_map_1'.
  - intros y (i & [= _ <-] & _)%list_elem_of_In%in_map_iff. done.
  - apply list_elem_of_In, in_map_iff. exists (x - data). split; [f_equal; lia|].
    apply list_elem_of_In, elem_of_seqZ. unfold range in Hx. lia.
Qed.

(** A place for a message. *)
Record place_ok (data payload_size : Z) : Prop := {
  place_aligned : data mod 8 = 0;
  place_data : 0 <= data;
  place_payload : 0 <= payload_size < 2 ^ 32 - 31;
  place_end : data + payload_size < 2 ^ 64 - 31;
}.

(** The memory after [Allocate]: the size of the header is written. *)
Definition framed (data header_size payload_size : Z) (out : Z * (CppMessage.Message * FixedBuffer))
    : Prop :=
  let '(header, (message, b)) := out in
  header = data ∧ msg_data message = data ∧ message_mapped message ∧
  header_size + payload_size <= data_num_bytes message ∧
  load32 (msg_mem message) data = Ok header_size ∧
  b = mkFixedBuffer data header_size (data_num_bytes message).

Lemma builder_allocate_framed debug data header_size payload_size :
  place_ok data payload_size → header_size = 16 ∨ header_size = 24 →
  returns (builder_allocate debug header_size (builder_initialize data (header_size + payload_size)))
    (framed data header_size payload_size).
Proof.
  intros [Hal Hd Hp He] Hh. unfold builder_initialize, builder_allocate.
  rewrite Align_round8 by lia. pose proof (round8_bounds (header_size + payload_size)).
  rewrite u32_small by lia. set (n := round8 (header_size + payload_size)) in *.
  unfold FixedBuffer_Allocate, FixedBuffer_Initialize, mbind, stateR_bind, get_state.
  rewrite Align_round8 by lia. cbn [cursor_ size_ ptr_].
  rewrite round8_mult by (destruct Hh as [-> | ->]; done).
  rewrite u64_small by lia. replace (header_size =? 0) with false by lia.
  replace (n - 0 <? header_size) with false by lia. cbn [orb put_state mret stateR_ret].
  apply returns_bind. cbn [returns msg_mem msg_data data_num_bytes handles_].
  apply returns_bind. eapply returns_mono.
  { apply store32_words; [|lia]. eapply mapped_sub; [apply zeros_mapped|lia|]. lia. }
  intros m' (Hl & Hdom & _). cbn [returns framed msg_mem msg_data data_num_bytes].
  rewrite Z.add_0_r in *. split_and!; [done|done| |lia|done|].
  - split; cbn; [done|lia|lia|lia|]. eapply same_domain_mapped; [exact Hdom|apply zeros_mapped].
  - rewrite u64_small by lia. done.
Qed.

Lemma header_accepted debug message nb v flags :
  message_mapped message →
  load32 (msg_mem message) (msg_data message) = Ok nb →
  load32 (msg_mem message) (msg_data message + 4) = Ok v →
  load32 (msg_mem message) (msg_data message + 12) = Ok flags →
  header_ok (data_num_bytes message) v nb flags →
  MessageHeaderValidator_Validate debug message = Ok NONE.
Proof.
  intros Hmm Hnb Hv Hf Hok.
  pose proof (MessageHeaderValidator_agrees debug message Hmm) as Ha.
  pose proof (ValidateHeader_spec _ _ _ (mm_mapped _ Hmm)) as Hs.
  apply returns_Ok_inv in Hs as (r & Hr & Hiff). rewrite Hr in Ha.
  rewrite (proj2 Hiff) in Ha by (exists v, nb, flags; by split_and!).
  unfold coded in Ha. destruct (MessageHeaderValidator_Validate debug message) as [e|]; [|done].
  cbn in Ha. injection Ha as Ha. f_equal. by apply (inj error_code).
Qed.

(** What a receiver finds out about a message. *)
Record built (debug : bool) (kind : MessageValidator) (name payload_size : Z)
    (out : CppMessage.Message * FixedBuffer) : Prop := {
  built_mapped : message_mapped out.1;
  built_header : MessageHeaderValidator_Validate debug out.1 = Ok NONE;
  built_kind : kind out.1 = Ok NONE;
  built_name : header_name (msg_mem out.1) (msg_data out.1) = Ok name;
  built_payload : payload out.1 = Ok (ptr_ out.2 + cursor_ out.2);
  built_room : payload_size <= size_ out.2 - cursor_ out.2;
}.

Lemma same_message_mapped m message :
  same_domain (msg_mem message) m → message_mapped message → message_mapped (with_mem m message).
Proof. intros Hd []. split; try done. by eapply same_domain_mapped. Qed.

(** The fields of version 0 of the header, then the rest. *)
Lemma write_header {A} m data size v name flags nb (k : mem → result A) Q :
  mapped m data (data + size) → 16 <= size →
  load32 m data = Ok nb → 0 <= v < 2 ^ 32 → 0 <= name < 2 ^ 32 → 0 <= flags < 2 ^ 32 →
  (∀ m', same_domain m m' → load32 m' data = Ok nb → load32 m' (data + 4) = Ok v →
     load32 m' (data + 8) = Ok name → load32 m' (data + 12) = Ok flags → returns (k m') Q) →
  returns (m ← store32 m (data + 4) v; m ← store32 m (data + 8) name;
           m ← store32 m (data + 12) flags; k m) Q.
Proof.
  intros Hm Hs Hnb Hv Hn Hf Hk.
  apply returns_bind. eapply returns_mono; [apply store32_words; [|done]|].
  { eapply mapped_sub; [exact Hm|lia|lia]. }
  intros m1 (Hl1 & Hd1 & Hk1). pose proof (same_domain_mapped _ _ _ _ Hd1 Hm) as Hm1.
  apply returns_bind. eapply returns_mono; [apply store32_words; [|done]|].
  { eapply mapped_sub; [exact Hm1|lia|lia]. }
  intros m2 (Hl2 & Hd2 & Hk2). pose proof (same_domain_mapped _ _ _ _ Hd2 Hm1) as Hm2.
  apply returns_bind. eapply returns_mono; [apply store32_words; [|done]|].
  { eapply mapped_sub; [exact Hm2|lia|lia]. }
  intros m3 (Hl3 & Hd3 & Hk3). apply Hk; [| | | |done].
  - intros x. by rewrite (Hd3 x), (Hd2 x).
  - by rewrite Hk3, Hk2, Hk1 by lia.
  - by rewrite Hk3, Hk2 by lia.
  - by rewrite Hk3 by lia.
Qed.

Lemma MessageBuilder_built debug data name payload_size :
  place_ok data payload_size → 0 <= name < 2 ^ 32 →
  returns (MessageBuilder_new debug data name payload_size)
    (built debug ValidateMessageIsRequestWithoutResponse name payload_size).
Proof.
  intros Hp Hn. unfold MessageBuilder_new. apply returns_bind.
  eapply returns_mono; [apply builder_allocate_framed; [done|by left]|].
  intros [h [[m p n hs] b]] (-> & Hdata & Hmm & Hsize & Hnb & ->).
  unfold sizeof_MessageHeader in *. cbn [msg_mem msg_data data_num_bytes] in *. subst p.
  eapply write_header; [apply (mm_mapped _ Hmm)|cbn; destruct Hp; lia|done|lia|done|lia|].
  intros m' Hd Hnb' Hv' Hn' Hf'. cbn [returns].
  pose proof (same_message_mapped m' (mkMessage m data n hs) Hd Hmm) as Hmm'. split; cbn [fst snd]; try done.
  - eapply header_accepted; [done|exact Hnb'|exact Hv'|exact Hf'|].
    destruct Hp. split; cbn; [unfold sizeof_MojomStructHeader; lia|done|done|done].
  - unfold ValidateMessageIsRequestWithoutResponse, msg_has_flag, header_flags, with_mem.
    cbn. by rewrite Hf'.
  - unfold payload, struct_num_bytes, with_mem. cbn. by rewrite Hnb'.
  - cbn. lia.
Qed.

Lemma MessageWithRequestIDBuilder_built debug data name payload_size flags id
    (kind : MessageValidator) :
  place_ok data payload_size → 0 <= name < 2 ^ 32 → 0 <= id < 2 ^ 64 →
  flags = kMessageExpectsResponse ∧ kind = ValidateMessageIsRequestExpectingResponse ∨
  flags = kMessageIsResponse ∧ kind = ValidateMessageIsResponse →
  returns (MessageWithRequestIDBuilder_new debug data name payload_size flags id)
    (λ out, built debug kind name payload_size out ∧ request_id debug out.1 = Ok id).
Proof.
  intros Hp Hn Hid Hkind. unfold MessageWithRequestIDBuilder_new. apply returns_bind.
  eapply returns_mono; [apply builder_allocate_framed; [done|by right]|].
  intros [h [[m p n hs] b]] (-> & Hdata & Hmm & Hsize & Hnb & ->).
  unfold sizeof_MessageHeaderWithRequestID in *. cbn [msg_mem msg_data data_num_bytes] in *. subst p.
  assert (flags = 1 ∨ flags = 2) as Hflags by (destruct Hkind as [[-> _]|[-> _]]; auto).
  eapply write_header; [apply (mm_mapped _ Hmm)|cbn; destruct Hp; lia|done|lia|done|lia|].
  intros m1 Hd1 Hnb1 Hv1 Hn1 Hf1. apply returns_bind.
  eapply returns_mono; [apply store64_words; [|done]|].
  { eapply same_domain_mapped; [exact Hd1|]. eapply mapped_sub; [apply (mm_mapped _ Hmm)|cbn; lia|].
    cbn. destruct Hp. lia. }
  intros m' (Hl & Hd & Hk). cbn [returns].
  rewrite <- Hk in Hnb1, Hv1, Hn1, Hf1 by lia.
  assert (message_mapped (with_mem m' (mkMessage m data n hs))) as Hmm'.
  { apply same_message_mapped; [|done]. intros x. by rewrite (Hd x), (Hd1 x). }
  split; [split; cbn [fst snd]; try done|].
  - eapply header_accepted; [done|exact Hnb1|exact Hv1|exact Hf1|].
    destruct Hp. split; cbn; [unfold sizeof_MojomStructHeader; lia|done|done|].
    by destruct Hflags as [-> | ->].
  - destruct Hkind as [[-> ->]|[-> ->]];
      unfold ValidateMessageIsRequestExpectingResponse, ValidateMessageIsResponse, msg_has_flag,
        header_flags, with_mem; cbn; by rewrite Hf1.
  - unfold payload, struct_num_bytes, with_mem. cbn. by rewrite Hnb1.
  - cbn. lia.
  - unfold request_id, dcheck_request_id, has_request_id, struct_version, with_mem. cbn.
    destruct debug; cbn; [rewrite Hv1; cbn|]; by rewrite Hl.
Qed.

(** C23: Every message the builders frame passes the receiver's header validation
    and the check of its own kind, carries the name and (if it has one) the
    request id it was built with, and has room for its payload right behind the
    header. *)
Theorem builders_valid debug data name payload_size id :
  place_ok data payload_size → 0 <= name < 2 ^ 32 → 0 <= id < 2 ^ 64 →
  returns (MessageBuilder_new debug data name payload_size)
    (built debug ValidateMessageIsRequestWithoutResponse name payload_size) ∧
  returns (RequestMessageBuilder_new debug data name payload_size)
    (λ out, built debug ValidateMessageIsRequestExpectingResponse name payload_size out ∧
       request_id debug out.1 = Ok 0) ∧
  returns (ResponseMessageBuilder_new debug data name payload_size id)
    (λ out, built debug ValidateMessageIsResponse name payload_size out ∧
       request_id debug out.1 = Ok id).
Proof.
  intros Hp Hn Hid. split_and!.
  - by apply MessageBuilder_built.
  - apply MessageWithRequestIDBuilder_built; [done|done|lia|by left].
  - apply MessageWithRequestIDBuilder_built; [done|done|done|by right].
Qed.

Lemma builders_valid_witness :
  returns (MessageBuilder_new true 4096 3 20)
    (built true ValidateMessageIsRequestWithoutResponse 3 20) ∧
  returns (RequestMessageBuilder_new true 4096 3 20)
    (λ out, built true ValidateMessageIsRequestExpectingResponse 3 20 out ∧
       request_id true out.1 = Ok 0) ∧
  returns (ResponseMessageBuilder_new true 4096 3 20 7)
    (λ out, built true ValidateMessageIsResponse 3 20 out ∧ request_id true out.1 = Ok 7).
Proof.
  apply (builders_valid true 4096 3 20 7); [split; [done|lia..]|lia|lia].
Defined.
