(* ===== verification/Router.v ===== *)
(** * Router and connector (public/cpp/bindings/lib/{router,connector}.{h,cc})

    A [Connector] reads and writes a message pipe; a [Router], of which it is a
    part, dispatches the messages read and matches responses with requests.  Both
    call the application, which may call them back, wait for further messages
    inside a callback, and destroy them.

    - [prog] is the application's code in one callback, as the calls it makes;
      [Client] gives the code of every callback.  A request is sent as a generated
      proxy sends it, a response as a generated [ProxyToResponder] does.
    - [PipeEnv] is the system below and the asynchronous waiter.
    - [World] is the whole state.  [router] is [None] once the router has been
      destroyed: an access of the library to it is a [BadAccess], one of the
      application a [Misuse].  [weak_self] is the value of the shared holder
      [weak_self_] (null or the router).  [frames] are the local variables
      [was_destroyed_during_dispatch] of the activations of [ReadSingleMessage],
      innermost last; [destroyed_flag_] points to one of them.
    - [responders] holds the responders of this side's requests, each with the
      data the application attached to it; [thunks] are the [ResponderThunk]s
      given to the application, with [accept_was_invoked_].
    - [history] is a history of the responders, which no code reads.

    [debug]: [MOJO_DCHECK]s are compiled in. *)
From stdpp Require Import base list numbers option gmap.
From S2P Require Import Prelude Memory TypeDescriptor Codec MojoResult System Message CppBindings CppMessage.

(** ** The application *)
Inductive prog (C : Type) : Type :=
| Finish (ok : bool) (rest : list Z)   (** result; the handles left in the message *)
| CallSend (message : CppMessage.Message) (k : bool → prog C)
| CallSendRequest (message : CppMessage.Message) (data : Z) (k : bool → prog C)
| CallRespond (thunk : Z) (message : CppMessage.Message) (k : bool → prog C)
| CallResponderIsValid (thunk : Z) (k : bool → prog C)
| CallDropResponder (thunk : Z) (k : prog C)
| CallCloseMessagePipe (k : prog C)
| CallPassMessagePipe (k : Z → prog C)
| CallWaitForIncomingMessage (deadline : Z) (k : bool → prog C)
| CallRunLoop (wait_result : Z) (k : prog C)   (** a nested run of the run loop *)
| CallSetIncomingReceiver (set : bool) (k : prog C)
| CallEnableTestingMode (k : prog C)
| CallEncounteredError (k : bool → prog C)
| CallDestroyRouter (k : prog C)
| GetMemory (k : C → prog C)
| PutMemory (c : C) (k : prog C).
Arguments Finish {_}.
Arguments CallSend {_}.
Arguments CallSendRequest {_}.
Arguments CallRespond {_}.
Arguments CallResponderIsValid {_}.
Arguments CallDropResponder {_}.
Arguments CallCloseMessagePipe {_}.
Arguments CallPassMessagePipe {_}.
Arguments CallWaitForIncomingMessage {_}.
Arguments CallRunLoop {_}.
Arguments CallSetIncomingReceiver {_}.
Arguments CallEnableTestingMode {_}.
Arguments CallEncounteredError {_}.
Arguments CallDestroyRouter {_}.
Arguments GetMemory {_}.
Arguments PutMemory {_}.

(** [incoming_receiver_]'s two functions, the [Accept] of a responder, and
    [connection_error_handler_]. *)
Record Client (C : Type) := mkClient {
  OnMessage : CppMessage.Message → prog C;
  OnRequest : CppMessage.Message → Z → prog C;
  OnResponse : Z → CppMessage.Message → prog C;
  OnConnectionError : prog C;
}.
Arguments OnMessage {_}.
Arguments OnRequest {_}.
Arguments OnResponse {_}.
Arguments OnConnectionError {_}.

(** ** The system below *)
Class PipeEnv (E : Type) := {
  env_write : Z → CppMessage.Message → E → Z * E;
  (** [MojoReadMessage] without and with room: the result and the sizes *)
  env_peek : Z → E → (Z * Z * Z) * E;
  env_read : Z → Z → Z → E → (Z * Z * Z * CppMessage.Message) * E;
  (** [None]: it never returns *)
  env_wait : Z → Z → E → option (Z * E);
  env_async_wait : Z → E → Z * E;
  env_cancel_wait : Z → E → E;
  env_close : Z → E → Z * E;
}.

(** ** Data *)

(** The fields of [Router] and of its [connector_]; the receiver of the connector
    is always the router's [thunk_]. *)
Record Router := mkRouter {
  message_pipe : Z;
  async_wait_id : Z;
  error : bool;
  drop_writes : bool;
  enforce_errors : bool;
  destroyed_flag : option nat;
  incoming_receiver : bool;              (** it is not null *)
  responders : gmap Z (Z * Z);
  next_request_id : Z;
  testing_mode : bool;
}.

Inductive Event :=
| Sent (responder request_id : Z)
| Called (responder request_id : Z)
| Deleted (responder : Z).

Record World (E C : Type) := mkWorld {
  router : option Router;
  weak_self : bool;
  frames : list bool;
  thunks : gmap Z bool;
  next_object : Z;
  penv : E;
  memory : C;
  history : list Event;   (** latest first *)
}.
Arguments mkWorld {_ _}.
Arguments router {_ _}.
Arguments weak_self {_ _}.
Arguments frames {_ _}.
Arguments thunks {_ _}.
Arguments next_object {_ _}.
Arguments penv {_ _}.
Arguments memory {_ _}.
Arguments history {_ _}.

Definition set_pipe (p : Z) (r : Router) : Router :=
  mkRouter p (async_wait_id r) (error r) (drop_writes r) (enforce_errors r) (destroyed_flag r)
    (incoming_receiver r) (responders r) (next_request_id r) (testing_mode r).
Definition set_async_wait_id (i : Z) (r : Router) : Router :=
  mkRouter (message_pipe r) i (error r) (drop_writes r) (enforce_errors r) (destroyed_flag r)
    (incoming_receiver r) (responders r) (next_request_id r) (testing_mode r).
Definition set_error (r : Router) : Router :=
  mkRouter (message_pipe r) (async_wait_id r) true (drop_writes r) (enforce_errors r)
    (destroyed_flag r) (incoming_receiver r) (responders r) (next_request_id r) (testing_mode r).
Definition set_drop_writes (r : Router) : Router :=
  mkRouter (message_pipe r) (async_wait_id r) (error r) true (enforce_errors r)
    (destroyed_flag r) (incoming_receiver r) (responders r) (next_request_id r) (testing_mode r).
Definition set_destroyed_flag (f : option nat) (r : Router) : Router :=
  mkRouter (message_pipe r) (async_wait_id r) (error r) (drop_writes r) (enforce_errors r) f
    (incoming_receiver r) (responders r) (next_request_id r) (testing_mode r).
Definition set_incoming_receiver (b : bool) (r : Router) : Router :=
  mkRouter (message_pipe r) (async_wait_id r) (error r) (drop_writes r) (enforce_errors r)
    (destroyed_flag r) b (responders r) (next_request_id r) (testing_mode r).
Definition set_responders (m : gmap Z (Z * Z)) (next : Z) (r : Router) : Router :=
  mkRouter (message_pipe r) (async_wait_id r) (error r) (drop_writes r) (enforce_errors r)
    (destroyed_flag r) (incoming_receiver r) m next (testing_mode r).
Definition EnableTestingMode (r : Router) : Router :=
  mkRouter (message_pipe r) (async_wait_id r) (error r) (drop_writes r) false
    (destroyed_flag r) (incoming_receiver r) (responders r) (next_request_id r) true.

Section router.
Context {E C : Type} `{!PipeEnv E}.
Context (debug : bool) (validators : list MessageValidator) (client : Client C).
Abbreviation M := (stateR (World E C)).

(** ** Access *)

(** A field of [*this]. *)
Definition get_router : M Router := λ w,
  match router w with Some r => Ok (r, w) | None => Crash BadAccess end.
Definition modify_router (f : Router → Router) : M unit := λ w,
  match router w with
  | Some r => Ok (tt, mkWorld (Some (f r)) (weak_self w) (frames w) (thunks w) (next_object w)
                      (penv w) (memory w) (history w))
  | None => Crash BadAccess
  end.
(** The application may only use a router that exists. *)
Definition use_router : M unit := λ w,
  match router w with Some _ => Ok (tt, w) | None => Crash Misuse end.

Definition call_env {A} (f : E → A * E) : M A := λ w,
  let '(a, e) := f (penv w) in
  Ok (a, mkWorld (router w) (weak_self w) (frames w) (thunks w) (next_object w) e (memory w)
           (history w)).
Definition log (ev : Event) : M unit := λ w,
  Ok (tt, mkWorld (router w) (weak_self w) (frames w) (thunks w) (next_object w) (penv w)
            (memory w) (ev :: history w)).
(** [new] of a responder. *)
Definition new_object : M Z := λ w,
  Ok (next_object w, mkWorld (router w) (weak_self w) (frames w) (thunks w) (next_object w + 1)
                       (penv w) (memory w) (history w)).
Definition set_thunks (t : gmap Z bool) : M unit := λ w,
  Ok (tt, mkWorld (router w) (weak_self w) (frames w) t (next_object w) (penv w) (memory w)
            (history w)).

Definition new_thunk : M Z :=
  thunk ← new_object;
  w ← get_state;
  set_thunks (<[thunk := false]> (thunks w));;
  mret thunk.

(** Local variables of [ReadSingleMessage] and the pointer to one. *)
Definition set_frames (f : list bool) : M unit := λ w,
  Ok (tt, mkWorld (router w) (weak_self w) f (thunks w) (next_object w) (penv w) (memory w)
            (history w)).
Definition push_frame : M nat := λ w,
  let i := length (frames w) in (set_frames (frames w ++ [false]);; mret i) w.
Definition read_frame (i : nat) : M bool := λ w,
  match frames w !! i with Some b => Ok (b, w) | None => Crash BadAccess end.
Definition mark_frame (i : nat) : M unit := λ w,
  match frames w !! i with
  | Some _ => set_frames (<[i := true]> (frames w)) w
  | None => Crash BadAccess
  end.
Definition pop_frame : M unit := λ w, set_frames (removelast (frames w)) w.
Definition mark_flag (f : option nat) : M unit :=
  match f with Some i => mark_frame i | None => mret tt end.

(** ** Connector *)
Definition CancelWait : M unit :=
  r ← get_router;
  if async_wait_id r =? 0 then mret tt
  else
  call_env (λ e, (tt, env_cancel_wait (async_wait_id r) e));;
  modify_router (set_async_wait_id 0).

(** The destructor of [ScopedHandleBase]; its [assert] is compiled in as
    [MOJO_DCHECK]s are. *)
Definition CloseIfNecessary (h : Z) : M unit :=
  if h =? MOJO_HANDLE_INVALID then mret tt
  else
  result ← call_env (env_close h);
  MOJO_DCHECK debug (result =? MOJO_RESULT_OK).

Definition PassMessagePipe : M Z :=
  CancelWait;;
  r ← get_router;
  modify_router (set_pipe MOJO_HANDLE_INVALID);;
  mret (message_pipe r).

Definition CloseMessagePipe : M unit :=
  CancelWait;;
  r ← get_router;
  modify_router (set_pipe MOJO_HANDLE_INVALID);;
  CloseIfNecessary (message_pipe r).

Definition Connector_Accept (message : CppMessage.Message) : M bool :=
  r ← get_router;
  if error r then mret false
  else
  MOJO_CHECK (negb (message_pipe r =? MOJO_HANDLE_INVALID));;
  if drop_writes r then mret true
  else
  rv ← call_env (env_write (message_pipe r) message);
  if rv =? MOJO_RESULT_OK then mret true
  else if rv =? MOJO_RESULT_FAILED_PRECONDITION then
    modify_router set_drop_writes;; mret true
  else if rv =? MOJO_RESULT_BUSY then MOJO_CHECK false;; mret false
  else mret false.

Definition WaitToReadMore : M unit :=
  r ← get_router;
  MOJO_CHECK (async_wait_id r =? 0);;
  id ← call_env (env_async_wait (message_pipe r));
  modify_router (set_async_wait_id id).

(** ** Router *)
Definition Router_Accept (message : CppMessage.Message) : M bool :=
  (if debug then expects ← lift (msg_has_flag message kMessageExpectsResponse);
                 MOJO_DCHECK debug (negb expects)
   else mret tt);;
  Connector_Accept message.

(** [next_request_id_++] *)
Definition next_id : M Z :=
  r ← get_router;
  if u64 (next_request_id r + 1) =? 0 then crash OutOfIds
  else
  modify_router (set_responders (responders r) (u64 (next_request_id r + 1)));;
  mret (next_request_id r).

Definition AcceptWithResponder (message : CppMessage.Message) (responder data : Z) : M bool :=
  (if debug then expects ← lift (msg_has_flag message kMessageExpectsResponse);
                 MOJO_DCHECK debug expects
   else mret tt);;
  id ← next_id;
  request_id ← (if id =? 0 then next_id else mret id);
  message ← lift (set_request_id debug message request_id);
  ok ← Connector_Accept message;
  if negb ok then mret false
  else
  r ← get_router;
  modify_router (set_responders (<[request_id := (responder, data)]> (responders r))
    (next_request_id r));;
  log (Sent responder request_id);;
  mret true.

(** [ResponderThunk::Accept], [IsValid] and the destructor. *)
Definition ResponderThunk_Accept (thunk : Z) (message : CppMessage.Message) : M bool :=
  w ← get_state;
  match thunks w !! thunk with
  | None => crash Misuse
  | Some _ =>
      set_thunks (<[thunk := true]> (thunks w));;
      (if debug then is_response ← lift (msg_has_flag message kMessageIsResponse);
                     MOJO_DCHECK debug is_response
       else mret tt);;
      if weak_self w then Router_Accept message else mret false
  end.

Definition ResponderThunk_IsValid (thunk : Z) : M bool :=
  w ← get_state;
  match thunks w !! thunk with
  | None => crash Misuse
  | Some _ =>
      if weak_self w then
        r ← get_router;
        mret (negb (error r) && negb (message_pipe r =? MOJO_HANDLE_INVALID))
      else mret false
  end.

Definition ResponderThunk_delete (thunk : Z) : M unit :=
  w ← get_state;
  match thunks w !! thunk with
  | None => crash Misuse
  | Some accept_was_invoked =>
      (if negb accept_was_invoked && weak_self w then CloseMessagePipe else mret tt);;
      set_thunks (delete thunk (thunks w))
  end.

(** [~Router]: the responders are deleted in the order of the map, then the members
    are destroyed, [connector_] among them. *)
Fixpoint delete_responders (l : list (Z * (Z * Z))) : M unit :=
  match l with
  | [] => mret tt
  | (_, (responder, _)) :: l => log (Deleted responder);; delete_responders l
  end.

Definition clear_weak_self : M unit := λ w,
  Ok (tt, mkWorld (router w) false (frames w) (thunks w) (next_object w) (penv w) (memory w)
            (history w)).
Definition free_router : M unit := λ w,
  Ok (tt, mkWorld None (weak_self w) (frames w) (thunks w) (next_object w) (penv w) (memory w)
            (history w)).

Definition Router_destroy : M unit :=
  clear_weak_self;;
  r ← get_router;
  delete_responders (map_to_list (responders r));;
  mark_flag (destroyed_flag r);;
  CancelWait;;
  CloseIfNecessary (message_pipe r);;
  free_router.

(** ** Callbacks *)
Section dispatch.
Context (WaitForIncomingMessage : Z → M bool) (run_loop : Z → M unit).

(** The code of a callback. *)
Fixpoint exec (p : prog C) : M (bool * list Z) :=
  match p with
  | Finish ok rest => mret (ok, rest)
  | CallSend message k => use_router;; ok ← Router_Accept message; exec (k ok)
  | CallSendRequest message data k =>
      use_router;;
      responder ← new_object;
      ok ← AcceptWithResponder message responder data;
      (if negb ok then log (Deleted responder) else mret tt);;
      exec (k ok)
  | CallRespond thunk message k =>
      ok ← ResponderThunk_Accept thunk message;
      ResponderThunk_delete thunk;;
      exec (k ok)
  | CallResponderIsValid thunk k => ok ← ResponderThunk_IsValid thunk; exec (k ok)
  | CallDropResponder thunk k => ResponderThunk_delete thunk;; exec k
  | CallCloseMessagePipe k => use_router;; CloseMessagePipe;; exec k
  | CallPassMessagePipe k => use_router;; pipe ← PassMessagePipe; exec (k pipe)
  | CallWaitForIncomingMessage deadline k =>
      use_router;; ok ← WaitForIncomingMessage deadline; exec (k ok)
  | CallRunLoop wait_result k => run_loop wait_result;; exec k
  | CallSetIncomingReceiver set k =>
      use_router;; modify_router (set_incoming_receiver set);; exec k
  | CallEnableTestingMode k => use_router;; modify_router EnableTestingMode;; exec k
  | CallEncounteredError k => use_router;; r ← get_router; exec (k (error r))
  | CallDestroyRouter k => use_router;; Router_destroy;; exec k
  | GetMemory k => λ w, exec (k (memory w)) w
  | PutMemory c k => λ w, exec k (mkWorld (router w) (weak_self w) (frames w) (thunks w)
      (next_object w) (penv w) c (history w))
  end.

Definition NotifyError : M unit :=
  modify_router set_error;;
  CloseMessagePipe;;
  r ← get_router;                          (* [connection_error_handler_] *)
  '(_, _) ← exec (OnConnectionError client);
  mret tt.

(** [Router::HandleIncomingMessage], reached through [thunk_]: the result, and the
    handles left in the message. *)
Definition HandleIncomingMessage (message : CppMessage.Message) : M (bool * list Z) :=
  r ← get_router;                          (* [validators_] *)
  result ← lift (RunValidatorsOnMessage validators message);
  if negb (bool_decide (result = NONE)) then mret (false, handles_ message)
  else
  expects ← lift (msg_has_flag message kMessageExpectsResponse);
  if expects : bool then
    r ← get_router;
    if incoming_receiver r then
      responder ← new_thunk;
      '(ok, rest) ← exec (OnRequest client message responder);
      (if negb ok then ResponderThunk_delete responder else mret tt);;
      mret (ok, rest)
    else
      CloseMessagePipe;; mret (false, handles_ message)
  else
  is_response ← lift (msg_has_flag message kMessageIsResponse);
  if is_response : bool then
    id ← lift (request_id debug message);
    r ← get_router;
    match responders r !! id with
    | None => MOJO_DCHECK debug (testing_mode r);; mret (false, handles_ message)
    | Some (responder, data) =>
        modify_router (set_responders (delete id (responders r)) (next_request_id r));;
        log (Called responder id);;
        '(ok, rest) ← exec (OnResponse client data message);
        log (Deleted responder);;
        mret (ok, rest)
    end
  else
  r ← get_router;
  if incoming_receiver r then exec (OnMessage client message)
  else mret (false, handles_ message).

(** ** message.cc *)
Definition ReadMessage (pipe : Z) : M (Z * CppMessage.Message) :=
  MOJO_DCHECK debug (negb (pipe =? MOJO_HANDLE_INVALID));;
  '(rv, num_bytes, num_handles) ← call_env (env_peek pipe);
  if negb (rv =? MOJO_RESULT_RESOURCE_EXHAUSTED) then mret (rv, mkMessage ∅ 0 0 [])
  else
  '(rv, num_bytes_actual, num_handles_actual, message) ←
    call_env (env_read pipe num_bytes num_handles);
  MOJO_DCHECK debug (num_bytes =? num_bytes_actual);;
  MOJO_DCHECK debug (num_handles =? num_handles_actual);;
  mret (rv, message).

(** The destructor of the message closes the handles left in it. *)
Fixpoint FreeDataAndCloseHandles (l : list Z) : M unit :=
  match l with
  | [] => mret tt
  | h :: l =>
      (if h =? MOJO_HANDLE_INVALID then mret tt
       else _ ← call_env (env_close h); mret tt);;
      FreeDataAndCloseHandles l
  end.
Definition ReadAndDispatchMessage (pipe : Z) : M (Z * bool) :=
  '(rv, message) ← ReadMessage pipe;
  '(ok, rest) ← (if rv =? MOJO_RESULT_OK then HandleIncomingMessage message
                 else mret (false, []));
  FreeDataAndCloseHandles rest;;
  mret (rv, ok).

(** ** Reading *)
Definition ReadSingleMessage : M (Z * bool) :=
  r ← get_router;
  let previous_destroyed_flag := destroyed_flag r in
  frame ← push_frame;
  modify_router (set_destroyed_flag (Some frame));;
  r ← get_router;
  '(rv, receiver_result) ← ReadAndDispatchMessage (message_pipe r);
  was_destroyed ← read_frame frame;
  if was_destroyed : bool then
    mark_flag previous_destroyed_flag;; pop_frame;; mret (rv, false)
  else
  modify_router (set_destroyed_flag previous_destroyed_flag);;
  if rv =? MOJO_RESULT_SHOULD_WAIT then pop_frame;; mret (rv, true)
  else
  r ← get_router;
  if negb (rv =? MOJO_RESULT_OK) || enforce_errors r && negb receiver_result then
    NotifyError;; pop_frame;; mret (rv, false)
  else pop_frame;; mret (rv, true).

Fixpoint ReadAllAvailableMessages (fuel : nat) : M unit :=
  match fuel with
  | O => crash OutOfFuel
  | S fuel =>
      r ← get_router;
      if error r then mret tt
      else
      '(rv, go_on) ← ReadSingleMessage;
      if negb go_on then mret tt
      else if rv =? MOJO_RESULT_SHOULD_WAIT then WaitToReadMore
      else ReadAllAvailableMessages fuel
  end.

Definition OnHandleReady (fuel : nat) (result : Z) : M unit :=
  r ← get_router;
  MOJO_CHECK (negb (async_wait_id r =? 0));;
  modify_router (set_async_wait_id 0);;
  if negb (result =? MOJO_RESULT_OK) then NotifyError
  else ReadAllAvailableMessages fuel.
Definition Wait (pipe deadline : Z) : M Z := λ w,
  match env_wait pipe deadline (penv w) with
  | Some (rv, e) => Ok (rv, mkWorld (router w) (weak_self w) (frames w) (thunks w) (next_object w)
                             e (memory w) (history w))
  | None => Crash Blocked
  end.

Definition WaitForIncomingMessage_body (deadline : Z) : M bool :=
  r ← get_router;
  if error r then mret false
  else
  rv ← Wait (message_pipe r) deadline;
  if (rv =? MOJO_RESULT_SHOULD_WAIT) || (rv =? MOJO_RESULT_DEADLINE_EXCEEDED) then mret false
  else if negb (rv =? MOJO_RESULT_OK) then NotifyError;; mret false
  else
  '(rv, _) ← ReadSingleMessage;
  mret (rv =? MOJO_RESULT_OK).

(** The run loop calls [CallOnHandleReady] if a wait is outstanding. *)
Definition run_loop_body (fuel : nat) (wait_result : Z) : M unit :=
  w ← get_state;
  match router w with
  | Some r => if async_wait_id r =? 0 then mret tt else OnHandleReady fuel wait_result
  | None => mret tt
  end.
End dispatch.

(** The fuel bounds the nesting of waits and of run loops, and the number of
    messages read in a row. *)
Fixpoint WaitForIncomingMessage (fuel : nat) (deadline : Z) : M bool :=
  match fuel with
  | O => crash OutOfFuel
  | S fuel => WaitForIncomingMessage_body (WaitForIncomingMessage fuel) (run_loop fuel) deadline
  end
with run_loop (fuel : nat) (wait_result : Z) : M unit :=
  match fuel with
  | O => crash OutOfFuel
  | S fuel => run_loop_body (WaitForIncomingMessage fuel) (run_loop fuel) fuel wait_result
  end.

(** The constructors: of the router, and of the connector in it, which starts to
    wait. *)
Definition Router_new (pipe : Z) (e : E) (c : C) : result (unit * World E C) :=
  WaitToReadMore (mkWorld (Some (mkRouter pipe 0 false false true None false ∅ 0 false)) true []
    ∅ 1 e c []).
End router.
