(* ===== verification/RouterInv.v ===== *)
(** * The invariant of the router

    What the library relies on between two of its steps ([base], [sound]), what a
    callback of the application may have done to the router when it returns
    ([keeps]), and the steps of the connector and of sending, which keep it.
    [StrictEnv], [PipeLaws] and [SafeValidators] are what the proofs rely on. *)
From stdpp Require Import base list numbers option gmap.
From S2P Require Import Prelude Memory TypeDescriptor Codec MojoResult System Message CppBindings CppMessage Router.

(** What [MojoReadMessage] promises: the bytes it says it has written. *)
Class PipeLaws (E : Type) `{!PipeEnv E} := {
  read_mapped pipe num_bytes num_handles e :
    let '(rv, _, _, message, _) := env_read pipe num_bytes num_handles e in
    rv = MOJO_RESULT_OK → message_mapped message;
}.

(** What the router relies on from its validators: they return on whatever was
    received, and what they accept has a header, with a request id where the flags
    say so. *)
Class SafeValidators (debug : bool) (validators : list MessageValidator) : Prop :=
  safe_validators message : message_mapped message →
    returns (RunValidatorsOnMessage validators message) (λ r, r = NONE →
      ∃ flags, header_flags (msg_mem message) (msg_data message) = Ok flags ∧
        (has_flag flags kMessageIsResponse = true →
         ∃ id, request_id debug message = Ok id)).

Definition called_responder (ev : Event) : option Z :=
  match ev with Called r _ => Some r | _ => None end.
Definition deleted_responder (ev : Event) : option Z :=
  match ev with Deleted r => Some r | _ => None end.
Definition called (h : list Event) : list Z := omap called_responder h.
Definition deleted (h : list Event) : list Z := omap deleted_responder h.

(** ** What stops an execution

    [strict]: the application keeps to the rules that make all checks hold (see
    [prog_ok]); otherwise a [MOJO_CHECK] may end the process. *)
Definition tolerated (strict : bool) (f : fault) : Prop :=
  limit f ∨ f = Misuse ∨ strict = false ∧ f = AssertFailed.

(** ... in a release build, over a pipe that no other thread is writing to. *)
Class StrictEnv (E : Type) `{!PipeEnv E} (debug strict : bool) : Prop := {
  strict_release : strict = true → debug = false;
  strict_busy : strict = true → ∀ pipe message (e : E),
    (env_write pipe message e).1 ≠ MOJO_RESULT_BUSY;
}.

Section safe.
Context {E C : Type} `{!PipeEnv E} (debug strict : bool) `{!StrictEnv E debug strict}.
Implicit Types (w : World E C) (r : Router).

Lemma guarded_check b w (Q : unit → World E C → Prop) :
  (strict = true → b = true) → (b = true → Q tt w) → guarded (tolerated strict) (MOJO_CHECK b) w Q.
Proof.
  clear StrictEnv0 debug. unfold guarded, MOJO_CHECK, c_assert. destruct b; [intros _ HQ; by apply HQ|]. intros Hs _.
  right. right. split; [|done]. destruct strict; [by discriminate Hs|done].
Qed.

(** ** The invariant *)
Record base w : Prop := {
  b_weak : weak_self w = bool_decide (is_Some (router w));
  b_flag r i : router w = Some r → destroyed_flag r = Some i → frames w !! i = Some false;
  b_next r : router w = Some r → 0 <= next_request_id r < 2 ^ 64;
  b_responders r id p : router w = Some r → responders r !! id = Some p →
    Sent (p.1) id ∈ history w ∧ p.1 < next_object w ∧ (p.1 ∉ called (history w)) ∧
    (p.1 ∉ deleted (history w));
  b_distinct r id1 id2 p1 p2 : router w = Some r →
    responders r !! id1 = Some p1 → responders r !! id2 = Some p2 → p1.1 = p2.1 → id1 = id2;
  b_called : NoDup (called (history w));
  b_deleted : NoDup (deleted (history w));
  b_fresh r id : router w = Some r → is_Some (responders r !! id) → id < next_request_id r;
  b_sent o id : Sent o id ∈ history w → o ∈ called (history w) ∨ o ∈ deleted (history w) ∨
    ∃ r d, router w = Some r ∧ responders r !! id = Some (o, d);
  b_old o : o ∈ called (history w) ∨ o ∈ deleted (history w) → o < next_object w;
  b_match o id : Called o id ∈ history w → Sent o id ∈ history w;
}.

(** With a strict application the pipe is open, or the error is known, and errors
    of receivers count. *)
Definition enforces w : Prop := ∀ r, router w = Some r → enforce_errors r = true.
Definition sound w : Prop := ∀ r, router w = Some r →
  enforce_errors r = true ∧ (message_pipe r ≠ MOJO_HANDLE_INVALID ∨ error r = true).

(** A responder the router owns, or has disposed of. *)
Definition owned w (o : Z) : Prop :=
  o ∈ deleted (history w) ∨ ∃ r id d, router w = Some r ∧ responders r !! id = Some (o, d).

(** [*flag = true] *)
Definition marked (f : option nat) (l : list bool) : list bool :=
  match f with Some i => <[i := true]> l | None => l end.

(** The router and the frames after a callback. *)
Definition router_later w w' : Prop :=
  match router w, router w' with
  | Some r, Some r' => destroyed_flag r' = destroyed_flag r ∧ frames w' = frames w
  | Some r, None => frames w' = marked (destroyed_flag r) (frames w)
  | None, None => frames w' = frames w
  | None, Some _ => False
  end.

Record grows w w' : Prop := {
  g_objects : next_object w <= next_object w';
  g_history : ∃ evs, history w' = evs ++ history w;
  g_router : router_later w w';
  g_owned o : owned w' o → owned w o ∨ next_object w <= o;
  g_called o : o ∈ called (history w') → o ∈ deleted (history w') ∨ o ∈ called (history w);
}.

(** ... and when no wait was outstanding there is none. *)
Definition quiet w w' : Prop := ∀ r r', router w = Some r → router w' = Some r' →
  async_wait_id r = 0 → async_wait_id r' = 0.

#[global] Instance grows_preorder : PreOrder grows.
Proof.
  split.
  - intros w. split; [done|by exists []| |by left|by right]. unfold router_later. by destruct (router w).
  - intros w1 w2 w3 [Ho1 [ev1 Hh1] Hr1 Hw1 Hc1] [Ho2 [ev2 Hh2] Hr2 Hw2 Hc2]. split.
    + lia.
    + exists (ev2 ++ ev1). by rewrite Hh2, Hh1, app_assoc.
    + unfold router_later in *. destruct (router w1), (router w2), (router w3); try done.
      * destruct Hr1, Hr2. split; congruence.
      * destruct Hr1 as [<- <-]. done.
      * congruence.
      * congruence.
    + intros o [Ho|Ho]%Hw2; [by apply Hw1|right; lia].
    + intros o [Ho|[Ho|Ho]%Hc1]%Hc2; [by left| |by right]. left.
      rewrite Hh2. unfold deleted in *. rewrite omap_app. apply elem_of_app. by right.
Qed.

Record keeps w w' : Prop := {
  k_base : base w';
  k_sound : strict = true → sound w';
  k_grows : grows w w';
  k_quiet : quiet w w';
}.
Definition inv w : Prop := base w ∧ (strict = true → sound w).

Lemma keeps_same w : inv w → keeps w w.
Proof. intros [??]. split; [done|done|done|]. unfold quiet. congruence. Qed.

Lemma keeps_inv w w' : keeps w w' → inv w'.
Proof. by intros []. Qed.

Lemma quiet_trans w1 w2 w3 :
  grows w2 w3 → quiet w1 w2 → quiet w2 w3 → quiet w1 w3.
Proof.
  intros [_ _ Hr _ _] H1 H2 r r'' Hr1 Hr3 Ha. unfold router_later in Hr.
  destruct (router w2) as [r2|] eqn:Hr2; [by eauto|]. by rewrite Hr3 in Hr.
Qed.

Lemma keeps_then w1 w2 w3 : keeps w1 w2 → keeps w2 w3 → keeps w1 w3.
Proof.
  intros [_ _ Hg1 Hq1] [Hb Hs Hg2 Hq2]. split; [done|done|by etransitivity|].
  by eapply quiet_trans.
Qed.

Abbreviation G := (tolerated strict).

(** ** Access *)
Lemma limit_tolerated f : limit f → G f.
Proof. by left. Qed.
Lemma misuse_tolerated : G Misuse.
Proof. by right; left. Qed.

Lemma guarded_get_router w r (Q : Router → World E C → Prop) :
  router w = Some r → Q r w → guarded G get_router w Q.
Proof. unfold guarded, get_router. by intros ->. Qed.

Lemma guarded_use_router w (Q : unit → World E C → Prop) :
  (∀ r, router w = Some r → Q tt w) → guarded G use_router w Q.
Proof.
  unfold guarded, use_router. intros HQ. destruct (router w); [by eapply HQ|].
  apply misuse_tolerated.
Qed.

(** The world with another router and another system. *)
Definition upd r (e : E) w : World E C :=
  mkWorld (Some r) (weak_self w) (frames w) (thunks w) (next_object w) e (memory w) (history w).

Lemma guarded_modify_router f w r (Q : unit → World E C → Prop) :
  router w = Some r → Q tt (upd (f r) (penv w) w) → guarded G (modify_router f) w Q.
Proof. unfold guarded, modify_router, upd. by intros ->. Qed.

Lemma guarded_call_env {A} (f : E → A * E) w r (Q : A → World E C → Prop) :
  router w = Some r → (∀ a e, Q a (upd r e w)) → guarded G (call_env f) w Q.
Proof.
  intros Hr HQ. unfold guarded, call_env. destruct (f (penv w)) as [a e].
  specialize (HQ a e). unfold upd in HQ. by rewrite <- Hr in HQ.
Qed.

Lemma guarded_dcheck b w (Q : unit → World E C → Prop) :
  Q tt w → guarded G (MOJO_DCHECK debug b) w Q.
Proof.
  intros HQ. unfold MOJO_DCHECK. destruct debug eqn:Hd in |- *; [|done]. apply guarded_check; [|done].
  intros Hs. pose proof (strict_release Hs). congruence.
Qed.

(** ** The connector *)

(** A change that concerns neither the responders nor the frames. *)
Definition same_core r r' : Prop :=
  destroyed_flag r' = destroyed_flag r ∧ responders r' = responders r ∧
  next_request_id r' = next_request_id r.

Lemma upd_base r r' e w :
  base w → router w = Some r → same_core r r' → base (upd r' e w) ∧ grows w (upd r' e w).
Proof.
  intros [] Hr (Hf & Hre & Hn). split.
  - split; cbn; try done.
    + by rewrite b_weak0, Hr.
    + intros ? i [= <-]. rewrite Hf. by apply b_flag0.
    + intros ? [= <-]. rewrite Hn. by apply b_next0.
    + intros ? id p [= <-]. rewrite Hre. by apply b_responders0.
    + intros ? id1 id2 p1 p2 [= <-]. rewrite Hre. by apply b_distinct0.
    + intros ? id [= <-]. rewrite Hre, Hn. by apply b_fresh0.
    + intros o id [?|[?|(r0 & d & Hr0 & Hd)]]%b_sent0; [by auto..|].
      right. right. eexists r', d. split; [done|]. rewrite Hre. congruence.
  - split; cbn; [done|by exists []| | |by right].
    + unfold router_later. by rewrite Hr.
    + intros o [Ho|(? & id & d & [= <-] & Ho)]; left; [by left|right].
      exists r, id, d. by rewrite <- Hre.
Qed.

Lemma upd_keeps r r' e w :
  base w → router w = Some r → same_core r r' →
  (async_wait_id r = 0 → async_wait_id r' = 0) →
  (strict = true → enforce_errors r' = true ∧
    (message_pipe r' ≠ MOJO_HANDLE_INVALID ∨ error r' = true)) →
  keeps w (upd r' e w).
Proof.
  intros Hb Hr Hc Ha Hs. destruct (upd_base r r' e w Hb Hr Hc) as [Hb' Hg].
  split; [done| |done|].
  - intros Hst r0 [= <-]. auto.
  - intros r1 r2 Hr1 [= <-]. rewrite Hr in Hr1. by injection Hr1 as <-.
Qed.

Lemma upd_upd r e r' e' w : upd r' e' (upd r e w) = upd r' e' w.
Proof. done. Qed.

Lemma CancelWait_spec w r (Q : unit → World E C → Prop) :
  router w = Some r → (∀ e, Q tt (upd (set_async_wait_id 0 r) e w)) →
  guarded G CancelWait w Q.
Proof.
  intros Hr HQ. apply guarded_bind. eapply guarded_get_router; [done|].
  destruct (async_wait_id r =? 0) eqn:Ha.
  - apply guarded_ret. specialize (HQ (penv w)). unfold upd in HQ.
    replace (set_async_wait_id 0 r) with r in HQ; [by rewrite <- Hr in HQ; destruct w|].
    destruct r. cbn in *. unfold set_async_wait_id. cbn. f_equal. lia.
  - apply guarded_bind. eapply guarded_call_env; [done|]. intros [] e.
    eapply guarded_modify_router; [done|]. apply HQ.
Qed.

Lemma CloseIfNecessary_spec h w r (Q : unit → World E C → Prop) :
  router w = Some r → (∀ e, Q tt (upd r e w)) → guarded G (CloseIfNecessary debug h) w Q.
Proof.
  intros Hr HQ. unfold CloseIfNecessary. destruct (h =? _).
  - apply guarded_ret. specialize (HQ (penv w)). unfold upd in HQ. rewrite <- Hr in HQ.
    by destruct w.
  - apply guarded_bind. eapply guarded_call_env; [done|]. intros result e.
    apply guarded_dcheck, HQ.
Qed.

Definition closed r : Router := set_pipe MOJO_HANDLE_INVALID (set_async_wait_id 0 r).

Lemma CloseMessagePipe_spec w r (Q : unit → World E C → Prop) :
  router w = Some r → (∀ e, Q tt (upd (closed r) e w)) → guarded G (CloseMessagePipe debug) w Q.
Proof.
  intros Hr HQ. apply guarded_bind. eapply CancelWait_spec; [done|]. intros e.
  apply guarded_bind. eapply guarded_get_router; [done|].
  apply guarded_bind. eapply guarded_modify_router; [done|].
  eapply CloseIfNecessary_spec; [done|]. apply HQ.
Qed.

Lemma PassMessagePipe_spec w r (Q : Z → World E C → Prop) :
  router w = Some r → (∀ p e, Q p (upd (closed r) e w)) → guarded G PassMessagePipe w Q.
Proof.
  intros Hr HQ. apply guarded_bind. eapply CancelWait_spec; [done|]. intros e.
  apply guarded_bind. eapply guarded_get_router; [done|].
  apply guarded_bind. eapply guarded_modify_router; [done|]. apply guarded_ret. apply HQ.
Qed.

Lemma Connector_Accept_spec message w r (Q : bool → World E C → Prop) :
  (strict = true → sound w) → router w = Some r →
  (∀ ok r' e, r' = r ∨ r' = set_drop_writes r → Q ok (upd r' e w)) →
  guarded G (Connector_Accept message) w Q.
Proof.
  intros Hs Hr HQ. apply guarded_bind. eapply guarded_get_router; [done|].
  assert (∀ ok, Q ok w) as Hsame.
  { intros ok. specialize (HQ ok r (penv w) ltac:(by left)). unfold upd in HQ.
    rewrite <- Hr in HQ. by destruct w. }
  destruct (error r) eqn:He; [by apply guarded_ret|].
  apply guarded_bind, guarded_check.
  { intros Hst. destruct (Hs Hst r Hr) as [_ [Hp|Hp]]; [lia|congruence]. }
  intros _. destruct (drop_writes r); [by apply guarded_ret|].
  apply guarded_bind. unfold guarded, call_env.
  pose proof (λ Hst, strict_busy (debug:=debug) (strict:=strict) Hst (message_pipe r) message (penv w)) as Hb.
  destruct (env_write (message_pipe r) message (penv w)) as [rv e]. cbn in Hb.
  change (guarded G (if rv =? MOJO_RESULT_OK then mret true
    else if rv =? MOJO_RESULT_FAILED_PRECONDITION then modify_router set_drop_writes;; mret true
    else if rv =? MOJO_RESULT_BUSY then MOJO_CHECK false;; mret false else mret false)
    (mkWorld (router w) (weak_self w) (frames w) (thunks w) (next_object w) e (memory w)
      (history w)) Q).
  rewrite Hr. fold (upd r e w).
  destruct (rv =? MOJO_RESULT_OK); [by apply guarded_ret, HQ; left|].
  destruct (rv =? MOJO_RESULT_FAILED_PRECONDITION).
  { apply guarded_bind. eapply guarded_modify_router; [done|]. apply guarded_ret, HQ. by right. }
  destruct (rv =? MOJO_RESULT_BUSY) eqn:Hbz; [|by apply guarded_ret, HQ; left].
  apply guarded_bind, guarded_check; [|done].
  intros Hst. exfalso. apply (Hb Hst). lia.
Qed.

Lemma WaitToReadMore_spec w r (Q : unit → World E C → Prop) :
  router w = Some r → async_wait_id r = 0 →
  (∀ i e, Q tt (upd (set_async_wait_id i r) e w)) → guarded G WaitToReadMore w Q.
Proof.
  intros Hr Ha HQ. apply guarded_bind. eapply guarded_get_router; [done|].
  apply guarded_bind, guarded_check; [intros _; lia|intros _].
  apply guarded_bind. eapply guarded_call_env; [done|]. intros i e.
  eapply guarded_modify_router; [done|]. apply HQ.
Qed.

(** ** Messages of the application *)

(** The header of a message can be read; of a request, its id can be written. *)
Definition readable (message : CppMessage.Message) : Prop :=
  ∃ flags, header_flags (msg_mem message) (msg_data message) = Ok flags.
Definition requestable (message : CppMessage.Message) : Prop :=
  readable message ∧ ∀ id, 0 <= id < 2 ^ 64 → ∃ m', set_request_id debug message id = Ok m'.

Lemma guarded_dcheck_flag message flag (b : bool → bool) w (Q : unit → World E C → Prop) :
  readable message → Q tt w →
  guarded G (if debug then f ← lift (msg_has_flag message flag); MOJO_DCHECK debug (b f)
             else mret tt) w Q.
Proof.
  intros [flags Hf] HQ.
  assert (∀ b', guarded G (MOJO_DCHECK debug b') w Q) as Hdc by (intros; by apply guarded_dcheck).
  destruct debug; [|done].
  apply guarded_bind, guarded_lift. unfold msg_has_flag. rewrite Hf. apply Hdc.
Qed.

Lemma Router_Accept_spec message w r (Q : bool → World E C → Prop) :
  readable message → (strict = true → sound w) → router w = Some r →
  (∀ ok r' e, r' = r ∨ r' = set_drop_writes r → Q ok (upd r' e w)) →
  guarded G (Router_Accept debug message) w Q.
Proof.
  intros Hm Hs Hr HQ. apply guarded_bind, (guarded_dcheck_flag _ _ negb); [done|].
  by eapply Connector_Accept_spec.
Qed.

Lemma Router_Accept_keeps message w r :
  readable message → inv w → router w = Some r →
  guarded G (Router_Accept debug message) w (λ _, keeps w).
Proof.
  intros Hm [Hb Hs] Hr. eapply Router_Accept_spec; [done|done|done|].
  intros ok r' e Hr'. apply upd_keeps with r; [done|done| | |].
  - by destruct Hr' as [-> | ->].
  - by destruct Hr' as [-> | ->].
  - intros Hst. specialize (Hs Hst r Hr). by destruct Hr' as [-> | ->].
Qed.

Lemma next_id_spec w r (Q : Z → World E C → Prop) :
  0 <= next_request_id r < 2 ^ 64 → router w = Some r →
  (next_request_id r + 1 < 2 ^ 64 → Q (next_request_id r)
     (upd (set_responders (responders r) (next_request_id r + 1) r) (penv w) w)) →
  guarded G next_id w Q.
Proof.
  intros Hn Hr HQ. apply guarded_bind. eapply guarded_get_router; [done|].
  destruct (decide (next_request_id r + 1 < 2 ^ 64)) as [Hlt|Hge].
  - rewrite u64_small by lia. replace (next_request_id r + 1 =? 0) with false by lia.
    apply guarded_bind. eapply guarded_modify_router; [done|]. apply guarded_ret. auto.
  - replace (next_request_id r + 1) with (2 ^ 64) by lia. cbn.
    apply guarded_crash, limit_tolerated. unfold limit. auto.
Qed.

(** *** Requests *)

(** [r'] differs from [r] in what sending a request may change. *)
Record sends r r' : Prop := {
  sends_flag : destroyed_flag r' = destroyed_flag r;
  sends_async : async_wait_id r' = async_wait_id r;
  sends_sound : enforce_errors r' = enforce_errors r ∧ message_pipe r' = message_pipe r ∧
    error r' = error r;
  sends_next : next_request_id r <= next_request_id r' < 2 ^ 64;
}.

(** The world in which a new responder has got the event [ev]. *)
Definition new_responder r' e ev w : World E C :=
  mkWorld (Some r') (weak_self w) (frames w) (thunks w) (next_object w + 1) e (memory w)
    (ev :: history w).

Lemma sends_keeps w r r' e ev :
  inv w → router w = Some r → sends r r' → called_responder ev = None →
  base (new_responder r' e ev w) →
  (∀ o, owned (new_responder r' e ev w) o → owned w o ∨ next_object w <= o) →
  keeps w (new_responder r' e ev w).
Proof.
  intros [Hb Hs] Hr [Hf Ha (He & Hp & Her) Hn] Hev Hb' Ho. split; [done| |split|].
  - intros Hst r0 [= <-]. rewrite He, Hp, Her. by apply Hs.
  - cbn. lia.
  - by exists [ev].
  - unfold router_later. by rewrite Hr.
  - done.
  - intros o. unfold called. cbn. rewrite Hev. by right.
  - intros r1 r2 Hr1 [= <-]. rewrite Hr in Hr1. injection Hr1 as <-. by rewrite Ha.
Qed.

Lemma refused_base w r r' e :
  base w → router w = Some r → sends r r' → responders r' = responders r →
  base (new_responder r' e (Deleted (next_object w)) w).
Proof.
  intros [] Hr [Hf _ _ Hn] Hre. split; cbn; try done.
  - by rewrite b_weak0, Hr.
  - intros ? i [= <-]. rewrite Hf. by apply b_flag0.
  - intros ? [= <-]. specialize (b_next0 r Hr). lia.
  - intros ? id p [= <-]. rewrite Hre. intros Hp.
    destruct (b_responders0 r id p Hr Hp) as (? & ? & ? & ?). split_and!; [by right|lia|done|].
    rewrite not_elem_of_cons. split; [lia|done].
  - intros ? id1 id2 p1 p2 [= <-]. rewrite Hre. by apply b_distinct0.
  - constructor; [|done]. intros Hin. specialize (b_old0 _ (or_intror Hin)). lia.
  - intros ? id [= <-]. rewrite Hre. intros Hid. specialize (b_fresh0 r id Hr Hid). lia.
  - intros o id [[=]|[Ho|[Ho|(r0 & d & Hr0 & Hd)]]%b_sent0]%elem_of_cons; [by auto| |].
    + right. left. by right.
    + right. right. eexists r', d. split; [done|]. rewrite Hre. congruence.
  - intros o [Ho|[->|Ho]%elem_of_cons]; [|lia|];
      [specialize (b_old0 o (or_introl Ho))|specialize (b_old0 o (or_intror Ho))]; lia.
  - intros o id [[=]|Ho]%elem_of_cons. right. auto.
Qed.

Lemma accepted_base w r r' e id data :
  base w → router w = Some r → sends r r' →
  responders r' = <[id := (next_object w, data)]> (responders r) →
  next_request_id r <= id < next_request_id r' →
  base (new_responder r' e (Sent (next_object w) id) w).
Proof.
  intros [] Hr [Hf _ _ Hn] Hre Hid.
  assert (responders r !! id = None) as Hfree.
  { apply eq_None_not_Some. intros Hx. specialize (b_fresh0 r id Hr Hx). lia. }
  assert (∀ o, o ∈ called (history w) ∨ o ∈ deleted (history w) → o ≠ next_object w) as Hnew.
  { intros o Ho. specialize (b_old0 o Ho). lia. }
  split; cbn; try done.
  - by rewrite b_weak0, Hr.
  - intros ? i [= <-]. rewrite Hf. by apply b_flag0.
  - intros ? [= <-]. specialize (b_next0 r Hr). lia.
  - intros ? id' p [= <-]. rewrite Hre.
    intros [[<- <-]|[Hne Hp]]%lookup_insert_Some; cbn.
    + split_and!; [by left|lia| |]; intros Hx; by eapply Hnew; eauto.
    + destruct (b_responders0 r id' p Hr Hp) as (? & ? & ? & ?). split_and!; [by right|lia|done|done].
  - intros ? id1 id2 p1 p2 [= <-]. rewrite Hre.
    assert (∀ i p, responders r !! i = Some p → p.1 < next_object w) as Hlt.
    { intros i p Hp. by destruct (b_responders0 r i p Hr Hp) as (? & ? & ? & ?). }
    intros [[<- <-]|[Hne1 Hp1]]%lookup_insert_Some [[<- <-]|[Hne2 Hp2]]%lookup_insert_Some;
      cbn; intros Heq; [done| | |by eapply b_distinct0].
    + specialize (Hlt _ _ Hp2). lia.
    + specialize (Hlt _ _ Hp1). lia.
  - intros ? id' [= <-]. rewrite Hre. intros [p [[<- _]|[_ Hp]]%lookup_insert_Some]; [lia|].
    specialize (b_fresh0 r id' Hr (mk_is_Some _ _ Hp)). lia.
  - intros o id' [[= -> ->]|[Ho|[Ho|(r0 & d & Hr0 & Hd)]]%b_sent0]%elem_of_cons; [|by auto..|].
    + right. right. eexists r', data. split; [done|]. rewrite Hre. by rewrite lookup_insert_eq.
    + right. right. eexists r', d. split; [done|].
      assert (r0 = r) as -> by congruence. rewrite Hre, lookup_insert_ne; [done|].
      intros ->. congruence.
  - intros o Ho. specialize (b_old0 o Ho). lia.
  - intros o id' [[=]|Ho]%elem_of_cons. right. auto.
Qed.

(** The world after [new] of a responder, and with an event logged. *)
Definition bumped w : World E C :=
  mkWorld (router w) (weak_self w) (frames w) (thunks w) (next_object w + 1) (penv w) (memory w)
    (history w).
Definition logged ev w : World E C :=
  mkWorld (router w) (weak_self w) (frames w) (thunks w) (next_object w) (penv w) (memory w)
    (ev :: history w).

Lemma guarded_log ev w (Q : unit → World E C → Prop) :
  Q tt (logged ev w) → guarded G (log ev) w Q.
Proof. done. Qed.

Lemma guarded_new_object w (Q : Z → World E C → Prop) :
  Q (next_object w) (bumped w) → guarded G new_object w Q.
Proof. done. Qed.

(** The id a request gets is one no request of the map has. *)
Lemma request_ids_spec {A} (k : Z → stateR (World E C) A) w r Q :
  0 <= next_request_id r < 2 ^ 64 → router w = Some r →
  (∀ id next, 0 <= id → next_request_id r <= id < next → next < 2 ^ 64 →
     guarded G (k id) (upd (set_responders (responders r) next r) (penv w) w) Q) →
  guarded G (id ← next_id; request_id ← (if id =? 0 then next_id else mret id); k request_id) w Q.
Proof.
  intros Hn Hr HQ. apply guarded_bind. eapply next_id_spec; [done..|]. intros Hlt.
  apply guarded_bind. destruct (next_request_id r =? 0) eqn:Hz; [|apply guarded_ret, HQ; lia].
  eapply next_id_spec; [|done|]; cbn; [lia|]. intros Hlt2. apply HQ; lia.
Qed.

Lemma AcceptWithResponder_spec message data w r (Q : bool → World E C → Prop) :
  requestable message → inv w → router w = Some r →
  (∀ w', keeps w w' → Q true w') →
  (∀ w', keeps w (logged (Deleted (next_object w)) w') → is_Some (router w') → Q false w') →
  guarded G (AcceptWithResponder debug message (next_object w) data) (bumped w) Q.
Proof.
  intros [Hm Hid] Hi Hr Htrue Hfalse. pose proof Hi as [Hb Hs].
  apply guarded_bind, (guarded_dcheck_flag _ _ (λ b, b)); [done|].
  apply request_ids_spec with r; [by apply (b_next w)|done|]. intros id next H0 Hnext Hlt.
  destruct (Hid id ltac:(lia)) as [m' Hm'].
  apply guarded_bind, guarded_lift. rewrite Hm'. cbn [returns]. apply guarded_bind.
  eapply Connector_Accept_spec; [|reflexivity|].
  { intros Hst r0 [= <-]. exact (Hs Hst r Hr). }
  intros ok r' e Hr'.
  assert (sends r r' ∧ responders r' = responders r ∧ next_request_id r' = next) as (Hsend & Hre & Hnx).
  { destruct Hr' as [-> | ->]; (split; [split; cbn; try done; lia|done]). }
  destruct ok; cbn [negb].
  - apply guarded_bind. eapply guarded_get_router; [done|].
    apply guarded_bind. eapply guarded_modify_router; [done|].
    apply guarded_bind, guarded_log, guarded_ret, Htrue.
    set (r2 := set_responders _ _ _).
    change (keeps w (new_responder r2 e (Sent (next_object w) id) w)).
    assert (sends r r2) as Hs2 by (destruct Hsend; by split).
    apply sends_keeps with r; [done..| |].
    + apply accepted_base with r data; [done..| |]; cbn; [by rewrite Hre|lia].
    + intros o [Ho|(? & i & d & [= <-] & Ho)]; [by left; left|]. cbn in Ho. rewrite Hre in Ho.
      apply lookup_insert_Some in Ho as [[_ [= -> _]]|[_ Ho]]; [by right|].
      left. right. eauto.
  - apply guarded_ret, Hfalse; [|done].
    change (keeps w (new_responder r' e (Deleted (next_object w)) w)).
    apply sends_keeps with r; [done..| |]; [by apply refused_base with r|].
    intros o [[->|Ho]%elem_of_cons|(? & i & d & [= <-] & Ho)]; [by right|by left; left|].
    rewrite Hre in Ho. left. right. eauto.
Qed.

(** ... and when it ends with a pipe closed and no error set. *)
Record follows w w' : Prop := {
  f_base : base w';
  f_enforces : strict = true → enforces w';
  f_grows : grows w w';
  f_quiet : quiet w w';
}.

Lemma keeps_follows w w' : keeps w w' → follows w w'.
Proof. intros [Hb Hs Hg Hq]. split; [done| |done|done]. intros Hst r Hr. by apply (Hs Hst r). Qed.

Lemma follows_keeps w w' : follows w w' → (strict = true → sound w') → keeps w w'.
Proof. by intros [] Hs. Qed.

Lemma follows_trans w1 w2 w3 : follows w1 w2 → follows w2 w3 → follows w1 w3.
Proof.
  intros [_ _ Hg1 Hq1] [Hb Hs Hg2 Hq2]. split; [done|done|by etransitivity|].
  by eapply quiet_trans.
Qed.

Lemma closed_follows w r e :
  base w → (strict = true → enforces w) → router w = Some r → follows w (upd (closed r) e w).
Proof.
  intros Hb He Hr. destruct (upd_base r (closed r) e w) as [Hb' Hg]; [done..|]. split; [done| |done|].
  - intros Hst r0 [= <-]. exact (He Hst r Hr).
  - by intros r1 r2 Hr1 [= <-].
Qed.

(** ** Thunks *)

(** A change that concerns neither the router nor the responders' history. *)
Definition side w w' : Prop :=
  router w' = router w ∧ weak_self w' = weak_self w ∧ frames w' = frames w ∧
  history w' = history w ∧ next_object w <= next_object w'.

Lemma side_follows w w' :
  base w → (strict = true → enforces w) → side w w' → follows w w'.
Proof.
  clear StrictEnv0 debug. intros [] He (Hr & Hw & Hf & Hh & Hn). split; [split|..].
  all: unfold enforces, quiet, router_later, owned in He |- *; rewrite ?Hr, ?Hw, ?Hf, ?Hh; try done.
  - intros r id p Hr' Hp. destruct (b_responders0 r id p Hr' Hp) as (? & ? & ? & ?).
    split_and!; [done|lia|done|done].
  - intros o Ho. specialize (b_old0 o Ho). lia.
  - split; [done|by exists []| | |].
    + unfold router_later. rewrite Hr, Hf. by destruct (router w).
    + unfold owned. rewrite Hh, Hr. by left.
    + rewrite Hh. by right.
  - intros r r' H1 H2. congruence.
Qed.

Lemma side_keeps w w' : inv w → side w w' → keeps w w'.
Proof.
  intros [Hb Hs] Hside. apply follows_keeps.
  - apply side_follows; [done| |done]. intros Hst r Hr. by apply (Hs Hst r).
  - intros Hst r. destruct Hside as [-> _]. by apply Hs.
Qed.

Lemma ResponderThunk_Accept_keeps thunk message w :
  readable message → inv w →
  guarded G (ResponderThunk_Accept debug thunk message) w
    (λ _ w', keeps w w' ∧ thunks w' !! thunk = Some true).
Proof.
  intros Hm Hi. unfold ResponderThunk_Accept. apply guarded_bind, guarded_returns; cbn.
  destruct (thunks w !! thunk) as [b|] eqn:Ht; [|apply misuse_tolerated].
  apply guarded_bind, guarded_returns; cbn. set (w1 := mkWorld _ _ _ _ _ _ _ _).
  assert (keeps w w1) as Hk by (by apply side_keeps).
  apply guarded_bind, (guarded_dcheck_flag _ _ (λ b, b)); [done|].
  destruct (weak_self w) eqn:Hweak; [|apply guarded_ret; split; [done|by apply lookup_insert_eq]].
  rewrite (b_weak w (proj1 Hi)) in Hweak. apply bool_decide_eq_true in Hweak as [r Hr].
  destruct (keeps_inv _ _ Hk) as [Hb1 Hs1].
  eapply Router_Accept_spec; [done|done|exact Hr|]. intros ok r' e Hr'.
  split; [|by apply lookup_insert_eq]. apply keeps_then with w1; [done|].
  apply upd_keeps with r; [done|done|by destruct Hr' as [-> | ->]..|].
  intros Hst. specialize (Hs1 Hst r Hr). by destruct Hr' as [-> | ->].
Qed.

Lemma ResponderThunk_IsValid_keeps thunk w :
  inv w → guarded G (ResponderThunk_IsValid thunk) w (λ _, keeps w).
Proof.
  intros Hi. unfold ResponderThunk_IsValid. apply guarded_bind, guarded_returns; cbn.
  destruct (thunks w !! thunk) as [b|] eqn:Ht; [|apply misuse_tolerated].
  destruct (weak_self w) eqn:Hweak; [|by apply guarded_ret, keeps_same].
  rewrite (b_weak w (proj1 Hi)) in Hweak. apply bool_decide_eq_true in Hweak as [r Hr].
  apply guarded_bind. eapply guarded_get_router; [done|]. by apply guarded_ret, keeps_same.
Qed.

Lemma ResponderThunk_delete_follows thunk w :
  base w → (strict = true → enforces w) →
  guarded G (ResponderThunk_delete debug thunk) w (λ _ w', follows w w' ∧
    (thunks w !! thunk = Some true → side w w')).
Proof.
  intros Hb He. unfold ResponderThunk_delete. apply guarded_bind, guarded_returns; cbn.
  destruct (thunks w !! thunk) as [b|] eqn:Ht; [|apply misuse_tolerated].
  destruct (negb b && weak_self w) eqn:Hclose.
  - apply andb_true_iff in Hclose as [Hnb Hweak].
    rewrite (b_weak w Hb) in Hweak. apply bool_decide_eq_true in Hweak as [r Hr].
    apply guarded_bind. eapply CloseMessagePipe_spec; [done|]. intros e.
    apply guarded_returns; cbn. split; [|by destruct b].
    pose proof (closed_follows w r e Hb He Hr) as Hf. eapply follows_trans; [exact Hf|].
    by apply side_follows; [apply Hf..|].
  - apply guarded_bind, guarded_ret, guarded_returns; cbn.
    split; [by apply side_follows|done].
Qed.

(** ** The destructor *)
Definition destroyed r e w : World E C :=
  mkWorld None false (marked (destroyed_flag r) (frames w)) (thunks w) (next_object w) e (memory w)
    (reverse (Deleted <$> (map_to_list (responders r)).*2.*1) ++ history w).

(** The world with another history. *)
Definition with_history h w : World E C :=
  mkWorld (router w) (weak_self w) (frames w) (thunks w) (next_object w) (penv w) (memory w) h.

Lemma delete_responders_spec l w (Q : unit → World E C → Prop) :
  Q tt (with_history (reverse (Deleted <$> l.*2.*1) ++ history w) w) →
  guarded G (delete_responders l) w Q.
Proof.
  revert w. induction l as [|[id [o d]] l IH]; intros w HQ.
  - apply guarded_ret. by destruct w.
  - apply guarded_bind, guarded_log, IH. rewrite !fmap_cons, reverse_cons, <- app_assoc in HQ. done.
Qed.

Lemma Router_destroy_spec w r (Q : unit → World E C → Prop) :
  base w → router w = Some r → (∀ e, Q tt (destroyed r e w)) → guarded G (Router_destroy debug) w Q.
Proof.
  intros Hb Hr HQ. unfold Router_destroy. apply guarded_bind, guarded_returns; cbn.
  apply guarded_bind. eapply guarded_get_router; [done|].
  apply guarded_bind, delete_responders_spec, guarded_bind.
  set (w1 := with_history _ _).
  apply (guarded_mono _ _ _ (λ _ w2, w2 = mkWorld (router w1) false (marked (destroyed_flag r)
    (frames w)) (thunks w1) (next_object w1) (penv w1) (memory w1) (history w1))).
  - pose proof (b_flag w Hb r) as Hflag. destruct (destroyed_flag r) as [i|]; [|done].
    apply guarded_returns. unfold mark_flag, mark_frame. cbn. by rewrite (Hflag i).
  - intros [] ? ->. apply guarded_bind. eapply CancelWait_spec; [exact Hr|]. intros e.
    apply guarded_bind. eapply CloseIfNecessary_spec; [done|]. intros e'. apply HQ.
Qed.

Lemma deleted_Deleted l h : deleted (reverse (Deleted <$> l) ++ h) = reverse l ++ deleted h.
Proof.
  unfold deleted. rewrite omap_app. f_equal. induction l as [|x l IH]; [done|].
  by rewrite !fmap_cons, !reverse_cons, omap_app, IH.
Qed.

Lemma called_Deleted l h : called (reverse (Deleted <$> l) ++ h) = called h.
Proof.
  unfold called. rewrite omap_app. replace (omap _ (reverse _)) with (@nil Z); [done|].
  induction l as [|x l IH]; [done|]. by rewrite !fmap_cons, !reverse_cons, omap_app, <- IH.
Qed.

Lemma map_responders_elem r o :
  o ∈ (map_to_list (responders r)).*2.*1 ↔ ∃ id d, responders r !! id = Some (o, d).
Proof.
  rewrite list_elem_of_fmap. setoid_rewrite list_elem_of_fmap. split.
  - intros ([] & -> & [id []] & [= -> ->] & Hin). apply elem_of_map_to_list in Hin. eauto.
  - intros (id & d & Hid). exists (o, d). split; [done|]. exists (id, (o, d)).
    split; [done|]. by apply elem_of_map_to_list.
Qed.

Lemma map_responders_NoDup w r :
  base w → router w = Some r → NoDup (map_to_list (responders r)).*2.*1.
Proof.
  intros Hb Hr. rewrite <- list_fmap_compose.
  apply NoDup_fmap_2_strong; [|apply NoDup_map_to_list].
  intros [i1 p1] [i2 p2] H1%elem_of_map_to_list H2%elem_of_map_to_list Heq. cbn in Heq.
  assert (i1 = i2) as <- by by eapply (b_distinct w Hb r). congruence.
Qed.

Lemma elem_of_Deleted ev l h :
  deleted_responder ev = None → ev ∈ reverse (Deleted <$> l) ++ h ↔ ev ∈ h.
Proof.
  intros Hev. rewrite elem_of_app, elem_of_reverse, list_elem_of_fmap. split; [|by right]. intros [(o & -> & _)|]; done.
Qed.

Lemma destroyed_base w r e : base w → router w = Some r → base (destroyed r e w).
Proof.
  intros Hb Hr. pose proof (map_responders_NoDup w r Hb Hr) as Hnd. destruct Hb.
  pose proof (map_responders_elem r) as Hin.
  assert (∀ o, o ∈ (map_to_list (responders r)).*2.*1 →
    (o ∉ deleted (history w)) ∧ o < next_object w) as Hnew.
  { intros o (id & d & Hid)%Hin. by destruct (b_responders0 r id _ Hr Hid) as (? & ? & ? & ?). }
  split; cbn [router weak_self frames next_object history destroyed]; try done.
  - by rewrite called_Deleted.
  - rewrite deleted_Deleted. apply NoDup_app. split; [by rewrite reverse_Permutation|].
    split; [|done]. intros o Ho%elem_of_reverse%Hnew. apply Ho.
  - intros o id Ho. rewrite called_Deleted, deleted_Deleted, elem_of_app, elem_of_reverse.
    apply elem_of_Deleted in Ho; [|done].
    destruct (b_sent0 o id Ho) as [?|[?|(r0 & d & Hr0 & Hd)]]; [by auto..|].
    right. left. left. apply Hin. exists id, d. congruence.
  - intros o. rewrite called_Deleted, deleted_Deleted, elem_of_app, elem_of_reverse.
    intros [Ho|[Ho|Ho]]; [auto|by apply Hnew|auto].
  - intros o id Ho. apply elem_of_Deleted; [done|]. apply elem_of_Deleted in Ho; auto.
Qed.

Lemma destroyed_keeps w r e : base w → router w = Some r → keeps w (destroyed r e w).
Proof.
  intros Hb Hr. split; [by apply destroyed_base|done|split|done]; cbn.
  - done.
  - eauto.
  - unfold router_later. by rewrite Hr.
  - intros o [Ho|(? & ? & ? & [=] & _)]. left. cbn in Ho.
    rewrite deleted_Deleted, elem_of_app, elem_of_reverse, map_responders_elem in Ho.
    destruct Ho as [(id & d & Hid)|Ho]; [right; eauto|by left].
  - intros o. rewrite called_Deleted. by right.
Qed.

(** ** The arrival of a response *)
Definition called_world r id o w : World E C :=
  logged (Called o id) (upd (set_responders (delete id (responders r)) (next_request_id r) r)
    (penv w) w).

Lemma called_base w r id o d :
  base w → router w = Some r → responders r !! id = Some (o, d) → base (called_world r id o w).
Proof.
  intros [] Hr Hid. destruct (b_responders0 r id _ Hr Hid) as (Hsent & Hlt & Hnc & Hnd).
  assert (∀ id' p, delete id (responders r) !! id' = Some p → responders r !! id' = Some p ∧ p.1 ≠ o)
    as Hdel.
  { intros id' p [Hne Hp]%lookup_delete_Some. split; [done|]. intros Heq.
    apply Hne. by eapply (b_distinct0 r id id' (o, d) p). }
  split; cbn; try done.
  - by rewrite b_weak0, Hr.
  - intros ? i [= <-]. exact (b_flag0 r i Hr).
  - intros ? [= <-]. exact (b_next0 r Hr).
  - intros ? id' p [= <-]. cbn. intros [Hp Hne]%Hdel.
    destruct (b_responders0 r id' p Hr Hp) as (? & ? & ? & ?).
    split_and!; [by right|done| |done]. by apply not_elem_of_cons.
  - intros ? id1 id2 p1 p2 [= <-]. cbn. intros [Hp1 _]%Hdel [Hp2 _]%Hdel. by eapply b_distinct0.
  - by constructor.
  - intros ? id' [= <-]. cbn. intros [p [Hp _]%Hdel]. apply b_fresh0; by eauto.
  - intros o' id' [[=]|[Ho|[Ho|(r0 & d0 & Hr0 & Ho)]]%b_sent0]%elem_of_cons; [|by auto..|].
    + left. by right.
    + assert (r0 = r) as -> by congruence. destruct (decide (id' = id)) as [->|Hne].
      * left. assert (o' = o) as -> by congruence. by left.
      * right. right. eexists _, d0. split; [done|]. cbn. by rewrite lookup_delete_ne.
  - intros o' [[->|Ho]%elem_of_cons|Ho]; auto.
  - intros o' id' [[= -> ->]|Ho]%elem_of_cons; right; auto.
Qed.

Lemma deleted_base w o :
  base w → ¬ owned w o → o < next_object w → base (logged (Deleted o) w).
Proof.
  intros [] Hno Hlt. split; cbn; try done.
  - intros r id p Hr Hp. destruct (b_responders0 r id p Hr Hp) as (? & ? & ? & ?).
    split_and!; [by right|done|done|]. apply not_elem_of_cons. split; [|done].
    intros Heq. apply Hno. right. exists r, id, (p.2). split; [done|].
    rewrite <- Heq. by destruct p.
  - constructor; [|done]. intros Ho. apply Hno. by left.
  - intros o' id [[=]|[Ho|[Ho|Ho]]%b_sent0]%elem_of_cons; [by left| |by right; right].
    right. left. by right.
  - intros o' [Ho|[->|Ho]%elem_of_cons]; auto.
  - intros o' id [[=]|Ho]%elem_of_cons. right. auto.
Qed.

(** The responder a response was for, from its removal to its deletion. *)
Lemma response_keeps w r id o d w2 :
  inv w → router w = Some r → responders r !! id = Some (o, d) →
  keeps (called_world r id o w) w2 → keeps w (logged (Deleted o) w2).
Proof.
  clear StrictEnv0 debug. intros [Hb Hs] Hr Hid [Hb2 Hs2 [Hn2 [evs Hh2] Hr2 Ho2 Hc2] Hq2].
  destruct (b_responders w Hb r id _ Hr Hid) as (Hsent & Hlt & Hnc & Hnd). cbn in *.
  assert (∀ o', owned (called_world r id o w) o' → owned w o' ∧ o' ≠ o) as Hown.
  { intros o' [Ho|(? & i & d' & [= <-] & Ho)]; [|cbn in Ho; apply lookup_delete_Some in Ho as [Hne Ho]].
    - split; [by left|]. intros ->. done.
    - split; [right; eauto|]. intros ->. apply Hne.
      by eapply (b_distinct w Hb r id i _ _ Hr Hid Ho). }
  assert (¬ owned w2 o) as Hno.
  { intros [[_ ?]%Hown|?]%Ho2; [done|]. lia. }
  split; [apply deleted_base; [done|done|lia]|done|split|].
  - done.
  - exists (Deleted o :: evs ++ [Called o id]). cbn. by rewrite Hh2, <- app_assoc.
  - unfold router_later in Hr2 |- *. by rewrite Hr.
  - intros o' [[->|Ho]%elem_of_cons|Ho].
    + left. right. eauto.
    + destruct (Ho2 o' ltac:(by left)) as [[? _]%Hown|?]; auto.
    + destruct (Ho2 o' ltac:(by right)) as [[? _]%Hown|?]; auto.
  - intros o' [Ho|[->|Ho]%elem_of_cons]%Hc2; [left; by right|left; by left|by right].
  - intros r1 r2 Hr1 Hr3. rewrite Hr in Hr1. injection Hr1 as <-.
    exact (Hq2 _ r2 eq_refl Hr3).
Qed.

(** ** Frames

    The world inside an activation of [ReadSingleMessage]: other frames, another
    flag; and what follows there, seen from outside. *)
Definition entered flag f r w : World E C :=
  mkWorld (Some (set_destroyed_flag flag r)) (weak_self w) f (thunks w) (next_object w) (penv w)
    (memory w) (history w).
Definition reflagged flag f w : World E C :=
  mkWorld (set_destroyed_flag flag <$> router w) (weak_self w) f (thunks w) (next_object w)
    (penv w) (memory w) (history w).

Lemma entered_same w r : router w = Some r → entered (destroyed_flag r) (frames w) r w = w.
Proof. destruct w as [? ? ? ? ? ? ? ?]; cbn. intros ->. by destruct r. Qed.

Lemma reflagged_base flag f w :
  base w → (∀ i, flag = Some i → is_Some (router w) → f !! i = Some false) →
  base (reflagged flag f w).
Proof.
  intros [] Hf. destruct w as [ro we fr th ne pe me hi]; cbn in *.
  destruct ro as [r|]; [|by split].
  split; cbn; try done.
  - intros ? i [= <-] Hi. by apply Hf.
  - intros ? [= <-]. by apply (b_next0 r).
  - intros ? id p [= <-]. by apply (b_responders0 r).
  - intros ? id1 id2 p1 p2 [= <-]. by apply (b_distinct0 r).
  - intros ? id [= <-]. by apply (b_fresh0 r).
  - intros o id [?|[?|(r0 & d & [= <-] & Hd)]]%b_sent0; [by auto..|]. right. right. by eexists _, d.
Qed.

Lemma entered_inv flag f r w :
  inv w → router w = Some r → (∀ i, flag = Some i → f !! i = Some false) →
  inv (entered flag f r w).
Proof.
  intros [Hb Hs] Hr Hf. replace (entered flag f r w) with (reflagged flag f w).
  - split; [apply reflagged_base; auto|]. intros Hst. unfold sound, reflagged. cbn. rewrite Hr.
    intros ? [= <-]. exact (Hs Hst r Hr).
  - unfold reflagged, entered. by rewrite Hr.
Qed.

Lemma owned_entered flag f flag' f' r w o :
  owned (entered flag f r w) o → owned (entered flag' f' r w) o.
Proof. intros [Ho|(? & id & d & [= <-] & Ho)]; [by left|right]. by eexists _, id, d. Qed.

Lemma reflagged_follows flag f flag' f' f'' r w w2 :
  follows (entered flag f r w) w2 →
  (∀ i, flag' = Some i → is_Some (router w2) → f'' !! i = Some false) →
  f'' = (if router w2 is Some _ then f' else marked flag' f') →
  follows (entered flag' f' r w) (reflagged flag' f'' w2).
Proof.
  intros [Hb He [Hn Hh Hr Ho Hc] Hq] Hf Hf''. split; [by apply reflagged_base| |split|]; try done.
  - intros Hst r0. cbn. destruct (router w2) as [r2|] eqn:Hr2; [|done]. intros [= <-].
    exact (He Hst r2 Hr2).
  - unfold router_later in *. cbn in *. by destruct (router w2).
  - intros o [Hdel|(r0 & id & d & Hr0 & Hd)].
    + destruct (Ho o ltac:(by left)) as [?%(owned_entered _ _ flag' f')|?]; auto.
    + cbn in Hr0. destruct (router w2) as [r2|] eqn:Hr2; [|done]. injection Hr0 as <-.
      destruct (Ho o) as [?%(owned_entered _ _ flag' f')|?]; [|by auto..]. right. by exists r2, id, d.
  - intros r1 r2 [= <-] Hr2. cbn in Hr2. destruct (router w2) as [r3|] eqn:Hr3; [|done].
    injection Hr2 as <-. exact (Hq _ r3 eq_refl Hr3).
Qed.

End safe.
