(* ===== verification/RouterSafe.v ===== *)
(** * The router is safe whatever the application does in its callbacks

    [prog_ok] is what is asked of the application's code; [callback_keeps] and the
    lemmas that follow it go up the calls of router.cc and connector.cc, from a
    callback to a run of the run loop. *)
From stdpp Require Import base list numbers option gmap.
From S2P Require Import Prelude Memory TypeDescriptor Validate Codec Message MojoResult System CppBindings CppMessage Router RouterInv.

(** ** The application *)
Section prog_ok.
Context {C : Type} (debug strict : bool).

(** The messages have a header.  With [strict] the application also does not take
    or close the pipe, drops no responder, and does not turn error checking off. *)
Fixpoint prog_ok (p : prog C) : Prop :=
  match p with
  | Finish _ _ => True
  | CallSend message k => readable message ∧ ∀ ok, prog_ok (k ok)
  | CallSendRequest message _ k => requestable debug message ∧ ∀ ok, prog_ok (k ok)
  | CallRespond _ message k => readable message ∧ ∀ ok, prog_ok (k ok)
  | CallResponderIsValid _ k => ∀ ok, prog_ok (k ok)
  | CallDropResponder _ k => strict = false ∧ prog_ok k
  | CallCloseMessagePipe k => strict = false ∧ prog_ok k
  | CallPassMessagePipe k => strict = false ∧ ∀ pipe, prog_ok (k pipe)
  | CallWaitForIncomingMessage _ k => ∀ ok, prog_ok (k ok)
  | CallRunLoop _ k => prog_ok k
  | CallSetIncomingReceiver _ k => prog_ok k
  | CallEnableTestingMode k => strict = false ∧ prog_ok k
  | CallEncounteredError k => ∀ b, prog_ok (k b)
  | CallDestroyRouter k => prog_ok k
  | GetMemory k => ∀ c, prog_ok (k c)
  | PutMemory _ k => prog_ok k
  end.

(** A generated stub takes a request's responder only when it accepts it. *)
Record client_ok (client : Client C) : Prop := {
  ok_message message : prog_ok (OnMessage client message);
  ok_request message responder : prog_ok (OnRequest client message responder);
  ok_response data message : prog_ok (OnResponse client data message);
  ok_error : prog_ok (OnConnectionError client);
}.
End prog_ok.

Section safe.
Context {E C : Type} `{!PipeEnv E, !PipeLaws E} (debug strict : bool) `{!StrictEnv E debug strict}.
Context (validators : list MessageValidator) `{!SafeValidators debug validators}.
Context (client : Client C) (Hclient : client_ok debug strict client).
Implicit Types (w : World E C) (r : Router).
Abbreviation G := (tolerated strict).
Abbreviation keeps := (keeps strict).
Abbreviation follows := (follows strict).
Abbreviation inv := (inv strict).

Section dispatch.
Context (wait : Z → stateR (World E C) bool) (loop : Z → stateR (World E C) unit).
Context (wait_keeps : ∀ deadline w r, inv w → router w = Some r →
  guarded G (wait deadline) w (λ _, keeps w)).
Context (loop_keeps : ∀ result w, inv w → guarded G (loop result) w (λ _, keeps w)).

(** What follows a step that keeps the invariant need only keep it. *)
Lemma keeps_from {A} (e : stateR (World E C) A) w w1 :
  keeps w w1 → (inv w1 → guarded G e w1 (λ _, keeps w1)) → guarded G e w1 (λ _, keeps w).
Proof.
  intros Hw1 He. eapply guarded_mono; [apply He; exact (keeps_inv _ _ _ Hw1)|].
  intros a w2 Hw2. exact (keeps_then _ _ _ _ Hw1 Hw2).
Qed.

Lemma then_keeps {A B} (e : stateR (World E C) A) (k : A → stateR (World E C) B) w :
  guarded G e w (λ _, keeps w) →
  (∀ a w', inv w' → guarded G (k a) w' (λ _, keeps w')) →
  guarded G (e ≫= k) w (λ _, keeps w).
Proof.
  intros He Hk. apply guarded_bind. eapply guarded_mono; [exact He|]. intros a w' Hw'.
  by apply keeps_from; [exact Hw'|apply Hk].
Qed.

Lemma modify_keeps f w r :
  inv w → router w = Some r → same_core r (f r) → async_wait_id (f r) = async_wait_id r →
  (strict = true → enforce_errors (f r) = enforce_errors r) →
  message_pipe (f r) = message_pipe r → error (f r) = error r →
  guarded G (modify_router f) w (λ _, keeps w).
Proof.
  intros [Hb Hs] Hr Hc Ha He Hp Her. eapply guarded_modify_router; [done|].
  apply upd_keeps with r; [done|done|done|by rewrite Ha|].
  intros Hst. rewrite (He Hst), Hp, Her. by apply Hs.
Qed.

Lemma close_keeps w r :
  strict = false → inv w → router w = Some r → guarded G (CloseMessagePipe debug) w (λ _, keeps w).
Proof.
  intros Hst [Hb Hs] Hr. eapply CloseMessagePipe_spec; [done..|]. intros e.
  apply upd_keeps with r; [done|done|done|done|congruence].
Qed.

Lemma pass_keeps w r :
  strict = false → inv w → router w = Some r → guarded G PassMessagePipe w (λ _, keeps w).
Proof.
  intros Hst [Hb Hs] Hr. eapply PassMessagePipe_spec; [done|]. intros p e.
  apply upd_keeps with r; [done|done|done|done|congruence].
Qed.

Lemma respond_keeps {A} thunk message (k : bool → stateR (World E C) A) w :
  readable message → inv w →
  (∀ ok w', inv w' → guarded G (k ok) w' (λ _, keeps w')) →
  guarded G (ok ← ResponderThunk_Accept debug thunk message; ResponderThunk_delete debug thunk;; k ok) w
    (λ _, keeps w).
Proof.
  intros Hm Hi Hk. apply guarded_bind.
  eapply guarded_mono; [by apply ResponderThunk_Accept_keeps|]. intros ok w1 [Hw1 Hacc].
  pose proof (keeps_inv _ _ _ Hw1) as [Hb1 Hs1].
  apply guarded_bind. eapply guarded_mono; [apply ResponderThunk_delete_follows; [done..|]|].
  { intros Hst r Hr. by apply (Hs1 Hst r). }
  intros [] w2 [_ Hside]. apply keeps_from; [|auto].
  eapply keeps_then; [exact Hw1|]. by apply side_keeps; [split|apply Hside].
Qed.

Lemma request_keeps {A} message data (k : bool → stateR (World E C) A) w r :
  requestable debug message → inv w → router w = Some r →
  (∀ ok w', inv w' → guarded G (k ok) w' (λ _, keeps w')) →
  guarded G (responder ← new_object; ok ← AcceptWithResponder debug message responder data;
    (if negb ok then log (Deleted responder) else mret tt);; k ok) w (λ _, keeps w).
Proof.
  intros Hm Hi Hr Hk. apply guarded_bind, guarded_new_object, guarded_bind.
  apply AcceptWithResponder_spec with r; [done..| |].
  - intros w' Hw'. apply guarded_bind, guarded_ret. by apply keeps_from; [|apply Hk].
  - intros w' Hw' _. apply guarded_bind, guarded_log. by apply keeps_from; [|apply Hk].
Qed.

(** The code of a callback keeps the invariant. *)
Lemma callback_keeps p w :
  prog_ok debug strict p → inv w → guarded G (exec debug wait loop p) w (λ _, keeps w).
Proof.
  revert w. induction p as [ok rest|m k IH|m d k IH|t m k IH|t k IH|t k IH|k IH|k IH|d k IH|d k IH
    |s k IH|k IH|k IH|k IH|k IH|c k IH]; intros w Hp Hi; cbn [exec prog_ok] in *.
  2, 3, 7-9, 11-14: apply guarded_bind, guarded_use_router; intros r Hr.
  - by apply guarded_ret, keeps_same.
  - destruct Hp. eapply then_keeps; [by eapply Router_Accept_keeps|auto].
  - destruct Hp. eapply request_keeps; eauto.
  - destruct Hp. eapply then_keeps; [by eapply close_keeps|auto].
  - destruct Hp. eapply then_keeps; [by eapply pass_keeps|auto].
  - eapply then_keeps; [by eapply wait_keeps|auto].
  - eapply then_keeps; [by eapply modify_keeps|auto].
  - destruct Hp. eapply then_keeps; [eapply modify_keeps; done || congruence|auto].
  - apply guarded_bind. eapply guarded_get_router; [done|]. auto.
  - eapply then_keeps; [|auto]. destruct Hi. eapply Router_destroy_spec; [done..|].
    intros e. by apply destroyed_keeps.
  - destruct Hp. by apply respond_keeps; auto.
  - eapply then_keeps; [by apply ResponderThunk_IsValid_keeps|auto].
  - destruct Hp as [Hst ?], Hi as [Hb Hs]. eapply then_keeps; [|auto].
    eapply guarded_mono; [apply ResponderThunk_delete_follows; [done..|]|].
    + congruence.
    + intros [] w' [Hf _]. apply follows_keeps; [done|congruence].
  - eapply then_keeps; [by apply loop_keeps|auto].
  - by apply IH.
  - change (guarded G (exec debug wait loop k) (mkWorld (router w) (weak_self w) (frames w)
      (thunks w) (next_object w) (penv w) c (history w)) (λ _, keeps w)).
    apply keeps_from; [by apply side_keeps|auto].
Qed.

Lemma NotifyError_keeps w r :
  base w → (strict = true → enforces w) → router w = Some r →
  guarded G (NotifyError debug client wait loop) w (λ _, keeps w).
Proof.
  intros Hb He Hr. apply guarded_bind. eapply guarded_modify_router; [done|].
  apply guarded_bind. eapply CloseMessagePipe_spec; [done..|]. intros e.
  rewrite upd_upd. set (w1 := upd _ _ w).
  assert (keeps w w1) as Hw1.
  { apply upd_keeps with r; [done|done|done|done|]. intros Hst. split; [exact (He Hst r Hr)|by right]. }
  apply guarded_bind. eapply guarded_get_router; [done|].
  apply guarded_bind. eapply guarded_mono.
  - apply (keeps_from _ w w1 Hw1). intros. apply callback_keeps; [apply Hclient|done].
  - by intros [] w2 Hw2.
Qed.

(** ** A message *)
Definition handled w (x : bool * list Z) w' : Prop :=
  follows w w' ∧ (x.1 = true → strict = true → sound w').

Lemma keeps_handled w x w' : keeps w w' → handled w x w'.
Proof. intros Hk. split; [by apply keeps_follows|]. intros _. apply Hk. Qed.

Lemma new_thunk_keeps w : inv w → guarded G new_thunk w (λ _, keeps w).
Proof.
  intros Hi. unfold new_thunk. apply guarded_bind, guarded_new_object, guarded_returns; cbn.
  apply side_keeps; [done|]. repeat split; cbn; lia.
Qed.

Lemma request_handled message w :
  inv w → guarded G (responder ← new_thunk;
    '(ok, rest) ← exec debug wait loop (OnRequest client message responder);
    (if negb ok then ResponderThunk_delete debug responder else mret tt);;
    mret (ok, rest)) w (handled w).
Proof.
  intros Hi. apply guarded_bind. eapply guarded_mono; [by apply new_thunk_keeps|].
  intros responder w1 Hw1. apply guarded_bind. eapply guarded_mono.
  { apply (keeps_from _ w w1 Hw1). intros. apply callback_keeps; [apply Hclient|done]. }
  intros [ok rest] w2 Hw2. destruct ok; cbn [negb].
  - by apply guarded_bind, guarded_ret, guarded_ret, keeps_handled.
  - apply guarded_bind. apply keeps_follows in Hw2 as Hf2.
    eapply guarded_mono; [apply ResponderThunk_delete_follows; [done|apply Hf2..]|].
    intros [] w3 [Hf3 _]. apply guarded_ret. split; [|done]. by eapply follows_trans.
Qed.

Lemma response_handled message id o d w r :
  inv w → router w = Some r → responders r !! id = Some (o, d) →
  guarded G (modify_router (set_responders (delete id (responders r)) (next_request_id r));;
    log (Called o id);;
    '(ok, rest) ← exec debug wait loop (OnResponse client d message);
    log (Deleted o);;
    mret (ok, rest)) w (handled w).
Proof.
  intros Hi Hr Hid. apply guarded_bind. eapply guarded_modify_router; [done|].
  apply guarded_bind, guarded_log. fold (called_world r id o w). apply guarded_bind.
  assert (inv (called_world r id o w)) as Hi1.
  { destruct Hi as [Hb Hs]. split; [by eapply called_base|]. intros Hst ? [= <-].
    exact (Hs Hst r Hr). }
  eapply guarded_mono; [apply callback_keeps; [apply Hclient|done]|].
  intros [ok rest] w2 Hw2. apply guarded_bind, guarded_log, guarded_ret, keeps_handled.
  by eapply response_keeps.
Qed.

Lemma HandleIncomingMessage_follows message w r :
  message_mapped message → inv w → router w = Some r →
  guarded G (HandleIncomingMessage debug validators client wait loop message) w
    (handled w).
Proof.
  intros Hm Hi Hr. pose proof Hi as [Hb Hs].
  assert (∀ x, handled w x w) as Hrefl by (by intros; apply keeps_handled, keeps_same).
  apply guarded_bind. eapply guarded_get_router; [done|].
  apply guarded_bind, guarded_lift. eapply returns_mono; [by apply safe_validators|].
  intros result Hresult. destruct (bool_decide (result = NONE)) eqn:Hnone; cbn [negb];
    [|by apply guarded_ret].
  apply bool_decide_eq_true in Hnone. destruct (Hresult Hnone) as (flags & Hflags & Hid).
  unfold msg_has_flag. rewrite Hflags. cbn [mbind result_bind].
  apply guarded_bind, guarded_lift. cbn [returns].
  destruct (has_flag flags kMessageExpectsResponse).
  - apply guarded_bind. eapply guarded_get_router; [done|].
    destruct (incoming_receiver r); [by apply request_handled|].
    apply guarded_bind. eapply CloseMessagePipe_spec; [done..|]. intros e. apply guarded_ret.
    split; [|done]. apply closed_follows; [done| |done]. intros Hst r0 Hr0. by apply (Hs Hst r0).
  - apply guarded_bind, guarded_lift. cbn [returns].
    destruct (has_flag flags kMessageIsResponse) eqn:Hresp.
    + destruct (Hid eq_refl) as [id Hrid].
      apply guarded_bind, guarded_lift. rewrite Hrid. cbn [returns].
      apply guarded_bind. eapply guarded_get_router; [done|].
      destruct (responders r !! id) as [[o d]|] eqn:Ho; [by eapply response_handled|].
      by apply guarded_bind, guarded_dcheck, guarded_ret.
    + apply guarded_bind. eapply guarded_get_router; [done|].
      destruct (incoming_receiver r); [|by apply guarded_ret].
      eapply guarded_mono; [apply callback_keeps; [apply Hclient|done]|].
      intros. by apply keeps_handled.
Qed.

(** ** message.cc *)
Lemma side_sound w w' : side w w' → sound w → sound w'.
Proof. intros [Hr _] Hs r. rewrite Hr. apply Hs. Qed.

Lemma call_env_side {A} (f : E → A * E) w :
  guarded G (call_env f) w (λ a w', side w w' ∧ a = (f (penv w)).1).
Proof. unfold guarded, call_env. by destruct (f (penv w)). Qed.

Lemma side_trans w1 w2 w3 : side w1 w2 → side w2 w3 → side w1 w3.
Proof.
  intros (? & ? & ? & ? & ?) (? & ? & ? & ? & ?). repeat split; try congruence. lia.
Qed.

Lemma FreeDataAndCloseHandles_side l w :
  guarded G (FreeDataAndCloseHandles l) w (λ _ w', side w w').
Proof.
  revert w. induction l as [|h l IH]; intros w; [by apply guarded_ret|].
  apply guarded_bind. eapply (guarded_mono _ _ _ (λ _ w', side w w')).
  - destruct (h =? _); [by apply guarded_ret|]. apply guarded_bind.
    eapply guarded_mono; [apply call_env_side|]. by intros result w' [Hw' _].
  - intros [] w1 Hw1. eapply guarded_mono; [apply IH|].
    intros [] w2 Hw2. by eapply side_trans.
Qed.

Lemma ReadMessage_spec pipe w :
  guarded G (ReadMessage debug pipe) w (λ '(rv, message) w',
    side w w' ∧ (rv = MOJO_RESULT_OK → message_mapped message)).
Proof.
  apply guarded_bind. apply guarded_dcheck; [done|]. apply guarded_bind.
  eapply guarded_mono; [apply call_env_side|]. intros [[rv nb] nh] w1 [Hw1 _].
  destruct (rv =? MOJO_RESULT_RESOURCE_EXHAUSTED) eqn:Hrv; cbn [negb].
  2: { apply guarded_ret. split; [done|]. intros _. split; cbn; try done.
       intros x [??]. lia. }
  apply guarded_bind. eapply guarded_mono; [apply call_env_side|].
  intros [[[rv' nb'] nh'] message] w2 [Hw2 Heq].
  apply guarded_bind. apply guarded_dcheck; [done|]. apply guarded_bind. apply guarded_dcheck; [done|].
  apply guarded_ret. split.
  - by eapply side_trans.
  - pose proof (read_mapped pipe nb nh (penv w1)) as Hmap.
    destruct (env_read pipe nb nh (penv w1)) as [[[[? ?] ?] ?] ?]. cbn in Heq. by injection Heq as <- <- <- <-.
Qed.

Lemma ReadAndDispatchMessage_follows pipe w r :
  inv w → router w = Some r →
  guarded G (ReadAndDispatchMessage debug validators client wait loop pipe) w
    (λ '(rv, ok) w', follows w w' ∧
      (rv ≠ MOJO_RESULT_OK ∨ ok = true → strict = true → sound w')).
Proof.
  intros Hi Hr. apply guarded_bind. eapply guarded_mono; [apply ReadMessage_spec|].
  intros [rv message] w1 [Hw1 Hm]. assert (keeps w w1) as Hk1 by (by apply side_keeps).
  pose proof (keeps_inv _ _ _ Hk1) as Hi1. apply guarded_bind.
  apply (guarded_mono _ _ _ (λ x w2, follows w w2 ∧
    (rv ≠ MOJO_RESULT_OK ∨ x.1 = true → strict = true → sound w2))).
  - destruct (rv =? MOJO_RESULT_OK) eqn:Hrv.
    + eapply guarded_mono; [eapply HandleIncomingMessage_follows; [apply Hm; lia|done|]|].
      { destruct Hw1 as [Hr1 _]. by rewrite Hr1. }
      intros x w2 [Hf2 Hs2]. split; [eapply follows_trans; [|exact Hf2]; by apply keeps_follows|].
      intros [?|?]; [lia|auto].
    + apply guarded_ret. split; [by apply keeps_follows|]. intros _. apply Hi1.
  - intros [ok rest] w2 [Hf2 Hs2]. apply guarded_bind.
    eapply guarded_mono; [apply FreeDataAndCloseHandles_side|]. intros [] w3 Hw3. apply guarded_ret. split.
    + eapply follows_trans; [exact Hf2|]. apply side_follows; [apply Hf2..|done].
    + intros H1 Hst. eapply side_sound; [exact Hw3|]. by apply Hs2.
Qed.

(** ** Reading *)
Definition popped w : World E C :=
  mkWorld (router w) (weak_self w) (removelast (frames w)) (thunks w) (next_object w) (penv w)
    (memory w) (history w).

Lemma removelast_marked w r b : base w → router w = Some r →
  marked (destroyed_flag r) (frames w ++ [b]) = marked (destroyed_flag r) (frames w) ++ [b].
Proof.
  intros Hb Hr. pose proof (b_flag w Hb r) as Hf. unfold marked.
  destruct (destroyed_flag r) as [i|]; [|done].
  by rewrite insert_app_l by (eapply lookup_lt_Some; eauto).
Qed.

Lemma popped_keeps w r w4 :
  base w → router w = Some r →
  follows (entered (destroyed_flag r) (frames w ++ [false]) r w) w4 →
  (strict = true → sound w4) → keeps w (popped w4).
Proof.
  intros Hb Hr Hf Hs. pose proof (g_router _ _ (f_grows _ _ _ Hf)) as Hl.
  unfold router_later in Hl. cbn in Hl.
  assert (popped w4 = reflagged (destroyed_flag r) (removelast (frames w4)) w4) as Heq.
  { unfold popped, reflagged. f_equal. destruct (router w4) as [r4|]; [|done]. cbn. f_equal.
    destruct Hl as [<- _]. by destruct r4. }
  apply follows_keeps; [|exact Hs]. rewrite Heq, <- (entered_same w r Hr) at 1.
  eapply reflagged_follows; [exact Hf| |].
  - intros i Hi [r4 Hr4]. rewrite Hr4 in Hl. destruct Hl as [_ ->].
    rewrite removelast_last. by apply (b_flag w Hb r).
  - destruct (router w4); [by destruct Hl as [_ ->]; rewrite removelast_last|].
    by rewrite Hl, (removelast_marked w r), removelast_last.
Qed.

(** The state in which a message is dispatched, and the two in which dispatch may
    end: the router lives, or its destructor has run. *)
Lemma dispatched_inv w r :
  inv w → router w = Some r →
  inv (entered (Some (length (frames w))) (frames w ++ [false]) r w).
Proof.
  intros Hi Hr. apply entered_inv; [done|done|]. intros i [= <-].
  by rewrite lookup_app_r, Nat.sub_diag by lia.
Qed.

Lemma dispatched_alive w r w2 r2 :
  base w → router w = Some r → router w2 = Some r2 →
  follows (entered (Some (length (frames w))) (frames w ++ [false]) r w) w2 →
  frames w2 = frames w ++ [false] ∧
  follows (entered (destroyed_flag r) (frames w ++ [false]) r w)
    (upd (set_destroyed_flag (destroyed_flag r) r2) (penv w2) w2).
Proof.
  intros Hb Hr Hr2 Hf. pose proof (g_router _ _ (f_grows _ _ _ Hf)) as Hl.
  unfold router_later in Hl. cbn in Hl. rewrite Hr2 in Hl. destruct Hl as [_ Hfr].
  split; [done|]. replace (upd _ _ w2) with (reflagged (destroyed_flag r) (frames w ++ [false]) w2).
  - eapply reflagged_follows; [exact Hf| |by rewrite Hr2].
    intros i Hi _. apply lookup_app_l_Some. by apply (b_flag w Hb r).
  - unfold reflagged, upd. by rewrite Hr2, Hfr.
Qed.

Lemma dispatched_dead w r w2 :
  base w → router w = Some r → router w2 = None →
  follows (entered (Some (length (frames w))) (frames w ++ [false]) r w) w2 →
  frames w2 = frames w ++ [true] ∧
  keeps w (reflagged None (marked (destroyed_flag r) (frames w)) w2).
Proof.
  intros Hb Hr Hr2 Hf. pose proof (g_router _ _ (f_grows _ _ _ Hf)) as Hl.
  unfold router_later in Hl. cbn in Hl. rewrite Hr2 in Hl. split.
  - rewrite Hl, insert_app_r_alt by lia. by rewrite Nat.sub_diag.
  - apply follows_keeps; [|intros _ r0; unfold reflagged; cbn; by rewrite Hr2].
    replace (reflagged None _ w2) with
      (reflagged (destroyed_flag r) (marked (destroyed_flag r) (frames w)) w2)
      by (unfold reflagged; by rewrite Hr2).
    rewrite <- (entered_same w r Hr) at 1.
    eapply reflagged_follows; [exact Hf| |by rewrite Hr2]. intros i _ [? ?]. congruence.
Qed.

Lemma read_frame_spec i b w (Q : bool → World E C → Prop) :
  frames w !! i = Some b → Q b w → guarded G (read_frame i) w Q.
Proof. unfold guarded, read_frame. by intros ->. Qed.

Lemma mark_flag_spec f w (Q : unit → World E C → Prop) :
  (∀ i, f = Some i → is_Some (frames w !! i)) →
  Q tt (mkWorld (router w) (weak_self w) (marked f (frames w)) (thunks w) (next_object w) (penv w)
    (memory w) (history w)) → guarded G (mark_flag f) w Q.
Proof.
  intros Hf HQ. destruct f as [i|]; [|by destruct w].
  destruct (Hf i eq_refl) as [b Hb]. unfold guarded, mark_flag, mark_frame. by rewrite Hb.
Qed.

(** What is left to do when the router has survived the dispatch. *)
Lemma after_dispatch_keeps rv receiver_result w r w3 r3 :
  base w → router w = Some r → router w3 = Some r3 →
  follows (entered (destroyed_flag r) (frames w ++ [false]) r w) w3 →
  (rv ≠ MOJO_RESULT_OK ∨ receiver_result = true → strict = true → sound w3) →
  guarded G (if rv =? MOJO_RESULT_SHOULD_WAIT then pop_frame;; mret (rv, true)
    else
    r ← get_router;
    if negb (rv =? MOJO_RESULT_OK) || enforce_errors r && negb receiver_result then
      NotifyError debug client wait loop;; pop_frame;; mret (rv, false)
    else pop_frame;; mret (rv, true)) w3
    (λ '(_, go_on) w', keeps w w' ∧ (go_on = true → is_Some (router w'))).
Proof.
  intros Hb Hr Hr3 Hf Hs.
  assert (∀ x, (strict = true → sound w3) → guarded G (pop_frame;; mret (rv, x)) w3
    (λ '(_, go_on) w', keeps w w' ∧ (go_on = true → is_Some (router w')))) as Hpop.
  { intros x Hx. apply guarded_bind, guarded_returns. cbn. split; [by eapply popped_keeps|].
    by rewrite Hr3. }
  destruct (rv =? MOJO_RESULT_SHOULD_WAIT) eqn:Hwait.
  { apply Hpop. apply Hs. left. apply Z.eqb_eq in Hwait. by rewrite Hwait. }
  apply guarded_bind. eapply guarded_get_router; [done|].
  destruct (negb (rv =? MOJO_RESULT_OK) || _) eqn:Herr.
  - apply guarded_bind. eapply guarded_mono; [by eapply NotifyError_keeps; [apply Hf..|]|].
    intros [] w4 Hw4. apply guarded_bind, guarded_returns. cbn. split; [|done].
    eapply popped_keeps; [done|done| |apply Hw4].
    eapply follows_trans; [exact Hf|by apply keeps_follows].
  - apply Hpop. intros Hst. apply Hs; [|done]. apply orb_false_iff in Herr as [_ Herr].
    rewrite (f_enforces _ _ _ Hf Hst r3 Hr3) in Herr. right. by destruct receiver_result.
Qed.

Lemma ReadSingleMessage_keeps w r :
  inv w → router w = Some r →
  guarded G (ReadSingleMessage debug validators client wait loop) w
    (λ '(_, go_on) w', keeps w w' ∧ (go_on = true → is_Some (router w'))).
Proof.
  intros Hi Hr. pose proof Hi as [Hb _]. apply guarded_bind. eapply guarded_get_router; [done|].
  apply guarded_bind, guarded_returns. cbn.
  apply guarded_bind. eapply guarded_modify_router; [done|].
  set (w1 := upd _ _ _). change w1 with (entered (Some (length (frames w))) (frames w ++ [false]) r w).
  clear w1. apply guarded_bind. eapply guarded_get_router; [done|].
  apply guarded_bind. eapply guarded_mono.
  { eapply ReadAndDispatchMessage_follows; [by apply dispatched_inv|done]. }
  intros [rv receiver_result] w2 [Hf2 Hs2].
  apply guarded_bind. destruct (router w2) as [r2|] eqn:Hr2.
  - destruct (dispatched_alive w r w2 r2) as [Hfr Hf3]; [done..|].
    eapply (read_frame_spec _ false).
    { rewrite Hfr, lookup_app_r, Nat.sub_diag by lia. done. }
    apply guarded_bind. eapply guarded_modify_router; [done|].
    eapply after_dispatch_keeps; [done|done|done|exact Hf3|].
    intros H1 Hst ? [= <-]. exact (Hs2 H1 Hst r2 Hr2).
  - destruct (dispatched_dead w r w2) as [Hfr Hk]; [done..|].
    eapply (read_frame_spec _ true).
    { rewrite Hfr, lookup_app_r, Nat.sub_diag by lia. done. }
    apply guarded_bind, mark_flag_spec.
    { intros i Hi'. rewrite Hfr. exists false. apply lookup_app_l_Some. by apply (b_flag w Hb r). }
    apply guarded_bind, guarded_returns. cbn. split; [|done].
    rewrite Hfr, (removelast_marked w r), removelast_last by done.
    unfold reflagged in Hk. by rewrite Hr2 in Hk |- *.
Qed.

Lemma ReadAllAvailableMessages_keeps fuel w r :
  inv w → router w = Some r → async_wait_id r = 0 →
  guarded G (ReadAllAvailableMessages debug validators client wait loop fuel) w
    (λ _ w', inv w' ∧ grows w w').
Proof.
  revert w r. induction fuel as [|fuel IH]; intros w r Hi Hr Ha.
  { apply guarded_crash, limit_tolerated. unfold limit. auto. }
  apply guarded_bind. eapply guarded_get_router; [done|].
  destruct (error r); [apply guarded_ret; split; [done|reflexivity]|].
  apply guarded_bind. eapply guarded_mono; [by eapply ReadSingleMessage_keeps|].
  intros [rv go_on] w1 [Hk Hgo]. pose proof (keeps_inv _ _ _ Hk) as Hi1.
  destruct go_on; cbn [negb]; [|apply guarded_ret; split; [done|apply Hk]].
  destruct (Hgo eq_refl) as [r1 Hr1].
  assert (async_wait_id r1 = 0) as Ha1 by exact (k_quiet _ _ _ Hk r r1 Hr Hr1 Ha).
  destruct (rv =? MOJO_RESULT_SHOULD_WAIT).
  - eapply WaitToReadMore_spec; [done..|]. intros i e. destruct Hi1 as [Hb1 Hs1].
    destruct (upd_base r1 (set_async_wait_id i r1) e w1) as [Hb2 Hg2]; [done..|].
    split; [split; [done|]|etransitivity; [apply Hk|done]].
    intros Hst ? [= <-]. exact (Hs1 Hst r1 Hr1).
  - eapply guarded_mono; [by eapply IH|]. intros [] w2 [Hi2 Hg2].
    split; [done|]. etransitivity; [apply Hk|done].
Qed.

Lemma OnHandleReady_keeps fuel result w r :
  inv w → router w = Some r → async_wait_id r ≠ 0 →
  guarded G (OnHandleReady debug validators client wait loop fuel result) w (λ _, keeps w).
Proof.
  intros [Hb Hs] Hr Ha. apply guarded_bind. eapply guarded_get_router; [done|].
  apply guarded_bind, guarded_check; [intros _; lia|intros _].
  apply guarded_bind. eapply guarded_modify_router; [done|]. set (w1 := upd _ _ w).
  assert (keeps w w1) as Hk.
  { apply upd_keeps with r; [done|done|done|done|]. intros Hst. exact (Hs Hst r Hr). }
  destruct (negb _).
  - apply keeps_from; [exact Hk|]. intros [Hb1 Hs1]. eapply NotifyError_keeps; [done| |done].
    intros Hst r0 Hr0. by apply (Hs1 Hst r0).
  - eapply guarded_mono; [eapply ReadAllAvailableMessages_keeps; [apply (keeps_inv _ _ _ Hk)|done|done]|].
    intros [] w2 [[Hb2 Hs2] Hg2]. split; [done|done| |].
    + etransitivity; [apply Hk|done].
    + intros r1 r2 Hr1 _ Ha1. congruence.
Qed.

Lemma WaitForIncomingMessage_body_keeps deadline w r :
  inv w → router w = Some r →
  guarded G (WaitForIncomingMessage_body debug validators client wait loop deadline) w
    (λ _, keeps w).
Proof.
  intros Hi Hr. apply guarded_bind. eapply guarded_get_router; [done|].
  destruct (error r); [by apply guarded_ret, keeps_same|].
  apply guarded_bind. unfold guarded at 1, Wait.
  destruct (env_wait _ _ _) as [[rv e]|]; [|apply limit_tolerated; unfold limit; auto].
  set (w1 := mkWorld _ _ _ _ _ e _ _). apply keeps_from; [by apply side_keeps|].
  intros Hi1. destruct (_ || _); [by apply guarded_ret, keeps_same|].
  destruct (negb _); apply guarded_bind.
  - eapply guarded_mono.
    + destruct Hi1 as [Hb1 Hs1]. eapply NotifyError_keeps; [done| |exact Hr].
      intros Hst r0 Hr0. by apply (Hs1 Hst r0).
    + intros [] w2 Hw2. by apply guarded_ret.
  - eapply guarded_mono; [by eapply ReadSingleMessage_keeps|].
    intros [rv' go_on] w2 [Hw2 _]. by apply guarded_ret.
Qed.

Lemma run_loop_body_keeps fuel result w :
  inv w → guarded G (run_loop_body debug validators client wait loop fuel result) w (λ _, keeps w).
Proof.
  intros Hi. apply guarded_bind, guarded_returns. cbn.
  destruct (router w) as [r|] eqn:Hr; [|by apply guarded_ret, keeps_same].
  destruct (async_wait_id r =? 0) eqn:Ha; [by apply guarded_ret, keeps_same|].
  eapply OnHandleReady_keeps; [done|done|lia].
Qed.
End dispatch.

(** ** The fuel *)
Abbreviation Wait_ := (WaitForIncomingMessage debug validators client).
Abbreviation Loop_ := (run_loop debug validators client).

Lemma nested_keeps fuel :
  (∀ deadline w r, inv w → router w = Some r →
    guarded G (Wait_ fuel deadline) w (λ _, keeps w)) ∧
  (∀ result w, inv w → guarded G (Loop_ fuel result) w (λ _, keeps w)).
Proof.
  induction fuel as [|fuel [IHw IHl]]; cbn [WaitForIncomingMessage run_loop].
  { split; intros; by apply guarded_crash, limit_tolerated; unfold limit; auto. }
  split; intros.
  - by eapply WaitForIncomingMessage_body_keeps.
  - by apply run_loop_body_keeps.
Qed.

Lemma app_keeps fuel p w :
  prog_ok debug strict p → inv w →
  guarded G (exec debug (Wait_ fuel) (Loop_ fuel) p) w (λ _, keeps w).
Proof. intros. destruct (nested_keeps fuel). by apply callback_keeps. Qed.

(** A new router. *)
Definition new_world (pipe i : Z) (e : E) (c : C) : World E C :=
  mkWorld (Some (mkRouter pipe i false false true None false ∅ 0 false)) true [] ∅ 1 e c [].

Lemma new_world_inv pipe i e c :
  (strict = true → pipe ≠ MOJO_HANDLE_INVALID) → inv (new_world pipe i e c).
Proof.
  intros Hp. split.
  - split; cbn.
    + done.
    + by intros ? ? [= <-].
    + by intros ? [= <-].
    + intros ? id q [= <-]. cbn. by rewrite lookup_empty.
    + intros ? id1 id2 q1 q2 [= <-]. cbn. by rewrite lookup_empty.
    + constructor.
    + constructor.
    + intros ? id [= <-]. cbn. rewrite lookup_empty. by intros [].
    + by intros o id ?%elem_of_nil.
    + by intros o [?%elem_of_nil|?%elem_of_nil].
    + by intros o id ?%elem_of_nil.
  - intros Hst ? [= <-]. cbn. auto.
Qed.

Lemma Router_new_spec pipe e c :
  ∃ i e', Router_new pipe e c = Ok (tt, new_world pipe i e' c).
Proof.
  unfold Router_new, WaitToReadMore, get_router, call_env, mbind, stateR_bind. cbn.
  destruct (env_async_wait pipe e) as [i e']. by exists i, e'.
Qed.
End safe.

(** ** The whole program

    A router is made and the application runs: [p] is its main program, which runs
    the run loop where it likes. *)
Definition run_app {E C} `{!PipeEnv E} (debug : bool) (validators : list MessageValidator)
    (client : Client C) (fuel : nat) (p : prog C) (pipe : Z) (e : E) (c : C)
    : result ((bool * list Z) * World E C) :=
  '(_, w) ← Router_new pipe e c;
  exec debug (WaitForIncomingMessage debug validators client fuel)
    (run_loop debug validators client fuel) p w.

Section program.
Context {E C : Type} `{!PipeEnv E, !PipeLaws E} (debug strict : bool) `{!StrictEnv E debug strict}.
Context (validators : list MessageValidator) `{!SafeValidators debug validators}.
Context (client : Client C).

Lemma run_app_guarded fuel p pipe (e : E) c :
  client_ok debug strict client → prog_ok debug strict p →
  (strict = true → pipe ≠ MOJO_HANDLE_INVALID) →
  match run_app debug validators client fuel p pipe e c with
  | Ok (_, w) => ∃ i e', keeps strict (new_world pipe i e' c) w
  | Crash f => tolerated strict f
  end.
Proof.
  intros Hc Hp Hpipe. destruct (Router_new_spec pipe e c) as (i & e' & Hnew).
  unfold run_app. rewrite Hnew. cbn [mbind result_bind].
  pose proof (app_keeps debug strict validators client Hc fuel p (new_world pipe i e' c) Hp
    (new_world_inv strict pipe i e' c Hpipe)) as Hk. unfold guarded in Hk.
  destruct (exec _ _ _ _ _) as [[x w]|f]; [|done]. eauto.
Qed.


(** C6: Every responder is answered by the response to its own request, at most
    once, and is deleted exactly once: no responder is called or deleted twice, one
    that is called was sent with that request id and is deleted afterwards, and once
    the router is gone every responder ever accepted has been deleted.  No flag of a
    dispatch is left behind. *)
Theorem responders_once fuel p pipe (e : E) c x w :
  client_ok debug strict client → prog_ok debug strict p →
  (strict = true → pipe ≠ MOJO_HANDLE_INVALID) →
  run_app debug validators client fuel p pipe e c = Ok (x, w) →
  NoDup (called (history w)) ∧ NoDup (deleted (history w)) ∧
  (∀ o id, Called o id ∈ history w → Sent o id ∈ history w ∧ o ∈ deleted (history w)) ∧
  (router w = None → ∀ o id, Sent o id ∈ history w → o ∈ deleted (history w)) ∧
  frames w = [].
Proof.
  intros Hc Hp Hpipe Hrun. pose proof (run_app_guarded fuel p pipe e c Hc Hp Hpipe) as Hk.
  rewrite Hrun in Hk. destruct Hk as (i & e' & [Hb _ [_ _ Hr _ Hcalled] _]).
  assert (∀ o, o ∈ called (history w) → o ∈ deleted (history w)) as Hdel.
  { intros o [?|Ho]%Hcalled; [done|]. by apply elem_of_nil in Ho. }
  assert (∀ o id, Called o id ∈ history w → o ∈ called (history w)) as Hin.
  { intros o id Ho. apply list_elem_of_omap. by exists (Called o id). }
  split_and!; [apply Hb|apply Hb| | |].
  - intros o id Ho. split; [by apply (b_match w Hb)|by eauto].
  - intros Hnone o id [Ho|[Ho|(r & d & Hr' & _)]]%(b_sent w Hb); [auto|done|congruence].
  - unfold router_later in Hr. cbn in Hr. destruct (router w); [by destruct Hr|done].
Qed.
End program.

(** ** Validators

    The list the bindings use: the header first, then generated validators, which
    need only return on messages whose header is valid. *)
Lemma header_first_safe debug rest :
  (∀ v message, v ∈ rest → message_mapped message →
     MessageHeaderValidator_Validate debug message = Ok NONE → returns (v message) (λ _, True)) →
  SafeValidators debug (MessageHeaderValidator_Validate debug :: rest).
Proof.
  intros Hrest message Hm. pose proof (MessageHeaderValidator_agrees debug message Hm) as Ha.
  pose proof (ValidateHeader_spec _ _ (data_num_bytes message) (mm_mapped _ Hm)) as Hs.
  rewrite <- Ha in Hs. unfold coded in Hs. cbn [RunValidatorsOnMessage].
  destruct (MessageHeaderValidator_Validate debug message) as [r|] eqn:Hv; [|done].
  cbn in Hs |- *. destruct (bool_decide (r = NONE)) eqn:Hr; cbn [negb returns].
  2: { apply bool_decide_eq_false in Hr. by intros ?. }
  apply bool_decide_eq_true in Hr as ->.
  destruct (proj1 Hs eq_refl) as (v & nb & f & Hver & Hnb & Hf & Hok).
  assert (returns (RunValidatorsOnMessage rest message) (λ _, True)) as Hret.
  { clear Hs Ha. induction rest as [|v' rest IH]; [done|]. cbn. apply returns_bind.
    eapply returns_mono; [apply (Hrest v' message); [left|done|done]|].
    intros r _. destruct (negb _); [done|]. apply IH. intros v0 m0 Hin. apply Hrest. by right. }
  eapply returns_mono; [exact Hret|]. intros r _ _. exists f. split; [exact Hf|].
  unfold kMessageIsResponse. rewrite has_flag_testbit by lia. intros Hresp.
  unfold request_id, dcheck_request_id, has_request_id. rewrite Hver. cbn [mbind result_bind].
  assert (v ≠ 0) as Hv0.
  { intros Hz. destruct (header_request_id _ _ _ _ Hok Hz). congruence. }
  pose proof (load32_range _ _ _ Hver). destruct (header_size _ _ _ _ Hok) as (_ & H1 & H2).
  destruct (header_fits _ _ _ _ Hok) as [_ Hfit]. unfold sizeof_MojomMessageWithRequestId in *.
  replace (1 <=? v) with true by lia.
  assert (∃ id, load64 (msg_mem message) (msg_data message + 16) = Ok id) as [id Hid].
  { apply (load_le_mapped 8). eapply mapped_sub; [apply (mm_mapped _ Hm)|lia|lia]. }
  exists id. by destruct debug.
Qed.
