(* ===== verification/RouterSample.v ===== *)
(** * Running the router

    A pipe that holds given messages and a client that answers requests, waits
    inside a response's callback and destroys the router inside the nested dispatch:
    the theorems about the router at that input.  And what [CloseMessagePipe]'s
    comment does not say. *)
From stdpp Require Import base list numbers option gmap.
From S2P Require Import Prelude Memory TypeDescriptor Validate Sample Codec Message MojoResult System CppBindings CppMessage Router RouterInv RouterSafe.

(** ** The pipe *)
Inductive letter := EventLetter | RequestLetter | ResponseLetter.

Definition letter_message (l : letter) : CppMessage.Message :=
  match l with
  | EventLetter => mkMessage (words 4096 [16; 0; 5; 0]) 4096 16 []
  | RequestLetter => mkMessage (words 4096 [24; 1; 4; 1; 5; 0]) 4096 24 []
  | ResponseLetter => mkMessage (words 4096 [24; 1; 3; 2; 1; 0]) 4096 24 []
  end.

Record Pipe := mkPipe { inbox : list letter; written : Z; closed_pipes : list Z }.

#[global] Instance Pipe_env : PipeEnv Pipe := {
  env_write _ _ s := (MOJO_RESULT_OK, mkPipe (inbox s) (written s + 1) (closed_pipes s));
  env_peek _ s :=
    (match inbox s with
     | [] => (MOJO_RESULT_SHOULD_WAIT, 0, 0)
     | l :: _ => (MOJO_RESULT_RESOURCE_EXHAUSTED, data_num_bytes (letter_message l), 0)
     end, s);
  env_read _ _ _ s :=
    match inbox s with
    | [] => ((MOJO_RESULT_SHOULD_WAIT, 0, 0, mkMessage ∅ 0 0 []), s)
    | l :: rest => ((MOJO_RESULT_OK, data_num_bytes (letter_message l), 0, letter_message l),
                    mkPipe rest (written s) (closed_pipes s))
    end;
  env_wait _ _ s :=
    match inbox s with [] => None | _ :: _ => Some (MOJO_RESULT_OK, s) end;
  env_async_wait _ s := (1, s);
  env_cancel_wait _ s := s;
  env_close pipe s := (MOJO_RESULT_OK, mkPipe (inbox s) (written s) (pipe :: closed_pipes s));
}.

Lemma letter_mapped l : message_mapped (letter_message l).
Proof.
  destruct l; (split; cbn; [done|lia|lia|lia|]); apply mapped_check_sound; by vm_compute.
Qed.

#[global] Instance Pipe_laws : PipeLaws Pipe.
Proof.
  split. intros pipe nb nh s. cbn. destruct (inbox s) as [|l rest]; [done|].
  intros _. apply letter_mapped.
Qed.

#[global] Instance Pipe_strict strict : StrictEnv Pipe false strict.
Proof. by split. Qed.

Definition sample_validators : list MessageValidator := [MessageHeaderValidator_Validate false].
#[global] Instance sample_validators_safe : SafeValidators false sample_validators.
Proof. apply header_first_safe. intros v message Hv. by apply elem_of_nil in Hv. Qed.

(** ** The application

    The second event destroys the router. *)
Definition sample_client : Client Z := {|
  OnMessage _ := GetMemory (λ c,
    if c =? 1 then CallDestroyRouter (Finish true []) else PutMemory (c + 1) (Finish true []));
  OnRequest message responder :=
    CallRespond responder (letter_message ResponseLetter) (λ _, Finish true []);
  OnResponse _ message := CallWaitForIncomingMessage 0 (λ _, Finish true []);
  OnConnectionError := Finish true [];
|}.
Definition sample_main : prog Z :=
  CallSetIncomingReceiver true (
  CallSendRequest (letter_message RequestLetter) 77 (λ ok,
  CallRunLoop MOJO_RESULT_OK (Finish ok []))).
Definition sample_inbox : list letter := [EventLetter; RequestLetter; ResponseLetter; EventLetter].
Definition sample_run :=
  run_app false sample_validators sample_client 10 sample_main 9 (mkPipe sample_inbox 0 []) 0.

Lemma letter_readable l : readable (letter_message l).
Proof. by destruct l; eexists; vm_compute. Qed.

Lemma request_letter_requestable debug : requestable debug (letter_message RequestLetter).
Proof.
  split; [apply letter_readable|]. intros id Hid. unfold set_request_id, dcheck_request_id.
  destruct (store_le_mapped 8 (msg_mem (letter_message RequestLetter))
    (msg_data (letter_message RequestLetter) + 16) id) as [m Hm].
  { eapply mapped_sub; [apply (mm_mapped _ (letter_mapped RequestLetter))|cbn; lia|cbn; lia]. }
  unfold store64. rewrite Hm. exists (mkMessage m 4096 24 []). destruct debug; by vm_compute.
Qed.

Lemma sample_client_ok strict : client_ok false strict sample_client.
Proof.
  split; try done.
  - intros message c. by destruct (c =? 1).
  - intros message responder. split; [apply letter_readable|done].
Qed.

Lemma sample_main_ok strict : prog_ok false strict sample_main.
Proof. split; [apply request_letter_requestable|done]. Qed.

(** The request is sent with id 1 and its responder, object 1, answered; both
    frames of the nested dispatch are gone, and so is the router; its pipe has been
    closed. *)
Lemma sample_run_ok : ∃ x w, sample_run = Ok (x, w) ∧ router w = None ∧
  history w = [Deleted 1; Called 1 1; Sent 1 1] ∧ closed_pipes (penv w) = [9] ∧
  written (penv w) = 2 ∧ thunks w = ∅.
Proof. eexists _, _. split; [by vm_compute|]. by vm_compute. Qed.


Lemma responders_once_witness : ∃ x w, sample_run = Ok (x, w) ∧
  NoDup (called (history w)) ∧ NoDup (deleted (history w)) ∧
  (∀ o id, Called o id ∈ history w → Sent o id ∈ history w ∧ o ∈ deleted (history w)) ∧
  (router w = None → ∀ o id, Sent o id ∈ history w → o ∈ deleted (history w)) ∧
  frames w = [].
Proof.
  destruct sample_run_ok as (x & w & Hrun & _). exists x, w. split; [exact Hrun|].
  apply (responders_once false true sample_validators sample_client 10 sample_main 9
    (mkPipe sample_inbox 0 []) 0 x w (sample_client_ok true) (sample_main_ok true)); [done|exact Hrun].
Defined.

(** ** Closing is not an error

    connector.h says that [CloseMessagePipe] triggers the error state. *)
Section close.
Context {E C : Type} `{!PipeEnv E}.
Implicit Types (w : World E C).

Lemma CloseIfNecessary_run debug h w r : router w = Some r →
  (debug = true → ∀ pipe e, (env_close pipe e).1 = MOJO_RESULT_OK) →
  ∃ e, CloseIfNecessary debug h w = Ok (tt, upd r e w).
Proof.
  destruct w as [? we fr th ne pe me hi]. cbn. intros -> Hclose. unfold CloseIfNecessary.
  destruct (h =? MOJO_HANDLE_INVALID); [by eexists|].
  unfold mbind, stateR_bind, call_env, MOJO_DCHECK. cbn.
  destruct debug; destruct (env_close h pe) as [rv e] eqn:He; [|by eexists].
  specialize (Hclose eq_refl h pe). rewrite He in Hclose. cbn in Hclose. subst rv. by eexists.
Qed.

Lemma CloseMessagePipe_run debug w r : router w = Some r →
  (debug = true → ∀ pipe e, (env_close pipe e).1 = MOJO_RESULT_OK) →
  ∃ e, CloseMessagePipe debug w = Ok (tt, upd (closed r) e w).
Proof.
  intros Hr Hclose. set (r' := set_pipe MOJO_HANDLE_INVALID (set_async_wait_id 0 r)).
  assert (∃ e, CancelWait w = Ok (tt, upd (set_async_wait_id 0 r) e w)) as [e He].
  { destruct w as [? we fr th ne pe me hi]. cbn in Hr |- *. subst.
    unfold CancelWait, get_router, call_env, modify_router, mbind, stateR_bind. cbn.
    destruct r as [p a er dw ee df ir re nx tm]. cbn.
    destruct (Z.eqb_spec a 0) as [->|_]; by eexists. }
  destruct (CloseIfNecessary_run debug (message_pipe r) (upd r' e w) r' eq_refl Hclose) as [e' He'].
  exists e'. unfold CloseMessagePipe. rewrite (bindS_Ok _ _ _ _ _ He). exact He'.
Qed.

(** Dropping one responder closes the pipe under the others without the error
    state: the router still says that no error was encountered, and answering
    through another responder, in debug and release builds alike, fails a check
    that ends the process. *)
Theorem dropped_responder_ends_process debug dropped thunk message w r flags :
  (debug = true → ∀ pipe e, (env_close pipe e).1 = MOJO_RESULT_OK) →
  router w = Some r → weak_self w = true → error r = false →
  thunks w !! dropped = Some false → is_Some (thunks w !! thunk) → thunk ≠ dropped →
  header_flags (msg_mem message) (msg_data message) = Ok flags →
  has_flag flags kMessageIsResponse = true → has_flag flags kMessageExpectsResponse = false →
  returns (ResponderThunk_delete debug dropped w) (λ '(_, w'),
    (∃ r', router w' = Some r' ∧ error r' = false ∧ message_pipe r' = MOJO_HANDLE_INVALID) ∧
    ResponderThunk_Accept debug thunk message w' = Crash AssertFailed).
Proof.
  intros Hclose Hr Hweak Herr Hdropped [b Hthunk] Hne Hflags Hresp Hexp.
  unfold ResponderThunk_delete. apply returnsS_bind. cbn [returns get_state].
  rewrite Hdropped, Hweak. cbn [negb andb].
  destruct (CloseMessagePipe_run debug w r Hr Hclose) as [e He].
  apply returnsS_bind. rewrite He. cbn. split; [by eexists|].
  unfold ResponderThunk_Accept, mbind, stateR_bind. cbn.
  rewrite lookup_delete_ne, Hthunk by done. cbn. unfold msg_has_flag, MOJO_DCHECK. rewrite Hflags. cbn.
  rewrite Hweak. unfold Router_Accept, Connector_Accept, msg_has_flag, mbind, stateR_bind, MOJO_CHECK,
    MOJO_DCHECK. cbn. rewrite Hflags. cbn. rewrite Hresp, Hexp. destruct debug; cbn; by rewrite Herr.
Qed.
End close.

(** Two requests have arrived and neither has been answered. *)
Definition two_requests : World Pipe Z :=
  mkWorld (Some (mkRouter 9 0 false false true None true ∅ 1 false)) true []
    {[ 1 := false; 2 := false ]} 3 (mkPipe [] 0 []) 0 [].

Lemma dropped_responder_ends_process_witness :
  returns (ResponderThunk_delete false 1 two_requests) (λ '(_, w'),
    (∃ r', router w' = Some r' ∧ error r' = false ∧ message_pipe r' = MOJO_HANDLE_INVALID) ∧
    ResponderThunk_Accept false 2 (letter_message ResponseLetter) w' = Crash AssertFailed).
Proof.
  apply (dropped_responder_ends_process false 1 2 (letter_message ResponseLetter) two_requests
    (mkRouter 9 0 false false true None true ∅ 1 false) 2); try (by vm_compute).
  exists false. by vm_compute.
Defined.
