(* ===== verification/CppArray.v ===== *)
(** * Arrays and maps of the C++ bindings

    [Array_Data] and its helpers (array_internal.{h,cc}), [Map_Data]
    (map_data_internal.h) and [ArrayValidateParams] (validate_params.h).

    The templates are instantiated with an element type, here [element]; a member
    function of [Array_Data<T>] is a function of the [element] for [T], recursive as
    its instantiations are.  The members of struct and union types are generated
    code and arguments of the definitions: [S] and [U] name such types. *)
From stdpp Require Import base list numbers option gmap.
From S2P Require Import Prelude Memory TypeDescriptor Validate Codec CppBindings.

(** ** Types

    [Pod] is any type the primary templates take, by its size: numbers, enums, and
    [Interface_Data]. *)
Inductive element (S U : Type) : Type :=
| Char
| Pod (sizeof : Z)
| Bool
| HandleElem
| StructPtr (s : S)
| ArrayPtr (t : element S U)
| MapPtr (key value : element S U)
| Union (u : U).
Arguments Char {_ _}.
Arguments Pod {_ _}.
Arguments Bool {_ _}.
Arguments HandleElem {_ _}.
Arguments StructPtr {_ _}.
Arguments ArrayPtr {_ _}.
Arguments MapPtr {_ _}.
Arguments Union {_ _}.

(** [sizeof(Interface_Data)] *)
Definition Interface_Data {S U} : element S U := Pod 8.
Definition String_Data {S U} : element S U := Char.

Inductive ArrayValidateParams : Set := mkArrayValidateParams {
  expected_num_elements : Z;
  element_is_nullable : bool;
  element_validate_params : option ArrayValidateParams;
}.

Definition GetMapKeyValidateParamsDefault : ArrayValidateParams :=
  mkArrayValidateParams 0 false None.
Definition GetMapKeyValidateParamsForStrings : ArrayValidateParams :=
  mkArrayValidateParams 0 false (Some (mkArrayValidateParams 0 false None)).

Definition deref_params (p : option ArrayValidateParams) : result ArrayValidateParams :=
  match p with Some params => Ok params | None => Crash BadAccess end.

Section arrays.
Context {S U : Type} (debug : bool).
Implicit Types (t : element S U).

Definition MapKeyValidateParamsFactory_Get t : ArrayValidateParams :=
  match t with
  | ArrayPtr Char => GetMapKeyValidateParamsForStrings
  | _ => GetMapKeyValidateParamsDefault
  end.

(** ** [ArrayDataTraits] *)
Definition sizeof_ArrayHeader : Z := 8.
Definition kMaxUint32 : Z := 4294967295.

(** [sizeof(StorageType)]; a [bool] takes a bit of a byte. *)
Definition sizeof_StorageType t : Z :=
  match t with
  | Char | Bool => 1
  | Pod sizeof => sizeof
  | HandleElem => 4
  | StructPtr _ | ArrayPtr _ | MapPtr _ _ => 8
  | Union _ => 16
  end.

Definition kMaxNumElements t : Z :=
  match t with
  | Bool => kMaxUint32
  | _ => (kMaxUint32 - sizeof_ArrayHeader) / sizeof_StorageType t
  end.

(** [GetStorageSize] of [ArrayDataTraits<bool>]: [uint32_t] but for the size of the
    header, and so [num_elements + 7] wraps. *)
Definition GetStorageSize_bool (num_elements : Z) : Z :=
  u32 (sizeof_ArrayHeader + u32 (num_elements + 7) / 8).

Definition GetStorageSize t (num_elements : Z) : result Z :=
  match t with
  | Bool => Ok (GetStorageSize_bool num_elements)
  | _ =>
      (if debug then c_assertR (num_elements <=? kMaxNumElements t) else Ok tt);;
      Ok (u32 (u64 (sizeof_ArrayHeader + u64 (sizeof_StorageType t * num_elements))))
  end.

(** [&storage()[i]] *)
Definition storage_at t (array i : Z) : Z :=
  array + sizeof_ArrayHeader + sizeof_StorageType t * i.

(** ** [Array_Data::New]: no header is written when there is no room. *)
Definition Array_New t (num_elements : Z) (s : mem * FixedBuffer) : result (Z * (mem * FixedBuffer)) :=
  if kMaxNumElements t <? num_elements then Ok (0, s)
  else
  num_bytes ← GetStorageSize t (u32 num_elements);
  '(p, buf) ← FixedBuffer_Allocate debug num_bytes (snd s);
  if p =? 0 then Ok (0, (fst s, buf))
  else
  m ← store32 (fst s) p num_bytes;
  m ← store32 m (p + 4) (u32 num_elements);
  Ok (p, (m, buf)).

(** [Map_Data::New]: the constructor leaves the two pointers as the memory has them. *)
Definition sizeof_Map_Data : Z := 24.
Definition Map_New (s : mem * FixedBuffer) : result (Z * (mem * FixedBuffer)) :=
  '(p, buf) ← FixedBuffer_Allocate debug sizeof_Map_Data (snd s);
  if p =? 0 then Ok (0, (fst s, buf))
  else
  m ← store32 (fst s) p sizeof_Map_Data;
  m ← store32 m (p + 4) 0;
  Ok (p, (m, buf)).

(** ** Validation *)
Abbreviation CM := (stateR BoundsChecker).
Section validate.
Context (m : mem).
Context (Struct_Validate : S → Z → CM ValidationError).
Context (Union_Validate : U → Z → bool → CM ValidationError) (Union_is_null : U → Z → result bool).

(** [for (i = 0; ...) { ...; if (retval != NONE) return retval; } return NONE;] *)
Fixpoint validate_elements (l : list Z) (body : Z → CM ValidationError) : CM ValidationError :=
  match l with
  | [] => mret NONE
  | i :: l =>
      retval ← body i;
      if negb (bool_decide (retval = NONE)) then mret retval else validate_elements l body
  end.

Definition decode_raw (offset : Z) : result Z :=
  '(p, _) ← DecodePointerRaw offset (m, tt); Ok p.

(** [ArraySerializationHelper<Handle, true, false>::ValidateElements] *)
Definition validate_handle_element (nullable : bool) (slot : Z) : CM ValidationError :=
  value ← lift (load32 m slot);
  if negb nullable && (value =? kEncodedInvalidHandleValue) then mret UNEXPECTED_INVALID_HANDLE
  else
  claimed ← ClaimHandle value;
  if negb claimed then mret ILLEGAL_HANDLE else mret NONE.

(** [ArraySerializationHelper<P*, false, false>::ValidateElements]; [Run] is
    [ValidateCaller<P>::Run]. *)
Definition validate_pointer_element (nullable : bool) (Run : Z → CM ValidationError) (slot : Z)
    : CM ValidationError :=
  offset ← lift (load64 m slot);
  if negb nullable && (offset =? 0) then mret UNEXPECTED_NULL_POINTER
  else
  valid ← lift (ValidateEncodedPointer m slot);
  if negb valid then mret ILLEGAL_POINTER
  else
  p ← lift (decode_raw slot);
  Run p.

(** [ArraySerializationHelper<P, false, true>::ValidateElements] *)
Definition validate_union_element (nullable : bool) (u : U) (slot : Z) : CM ValidationError :=
  null ← (if nullable then mret false else lift (Union_is_null u slot));
  if null : bool then mret UNEXPECTED_NULL_UNION
  else Union_Validate u slot true.

(** [Map_Data::Validate], with [Array_Data<Key>::Validate] and
    [Array_Data<Value>::Validate]. *)
Definition Map_Validate (key : element S U)
    (Key_Validate Value_Validate : Z → option ArrayValidateParams → CM ValidationError) (data : Z) (value_validate_params : option ArrayValidateParams) : CM ValidationError :=
  if data =? 0 then mret NONE
  else
  retval ← ValidateStructHeaderAndClaimMemory m data;
  if negb (bool_decide (retval = NONE)) then mret retval
  else
  num_bytes ← lift (struct_num_bytes m data);
  version ← (if negb (num_bytes =? sizeof_Map_Data) then mret 0 else lift (struct_version m data));
  if negb (num_bytes =? sizeof_Map_Data) || negb (version =? 0) then mret UNEXPECTED_STRUCT_HEADER
  else
  let keys := data + 8 in
  let values := data + 16 in
  valid ← lift (ValidateEncodedPointer m keys);
  if negb valid then mret ILLEGAL_POINTER
  else
  keys_offset ← lift (load64 m keys);
  if keys_offset =? 0 then mret UNEXPECTED_NULL_POINTER
  else
  p ← lift (decode_raw keys);
  retval ← Key_Validate p (Some (MapKeyValidateParamsFactory_Get key));
  if negb (bool_decide (retval = NONE)) then mret retval
  else
  valid ← lift (ValidateEncodedPointer m values);
  if negb valid then mret ILLEGAL_POINTER
  else
  values_offset ← lift (load64 m values);
  if values_offset =? 0 then mret UNEXPECTED_NULL_POINTER
  else
  q ← lift (decode_raw values);
  retval ← Value_Validate q value_validate_params;
  if negb (bool_decide (retval = NONE)) then mret retval
  else
  key_num ← lift (array_num_elements m p);
  value_num ← lift (array_num_elements m q);
  if negb (key_num =? value_num) then mret DIFFERENT_SIZED_ARRAYS_IN_MAP else mret NONE.

(** The part of [Array_Data::Validate] before the elements; [validate_params] may
    be a null pointer, which is then dereferenced. *)
Definition validate_header t (data : Z) (validate_params : option ArrayValidateParams)
    : CM ValidationError :=
  if negb (IsAligned data) then mret MISALIGNED_OBJECT
  else
  valid ← IsValidRange data sizeof_ArrayHeader;
  if negb valid then mret ILLEGAL_MEMORY_RANGE
  else
  num_elements ← lift (array_num_elements m data);
  num_bytes ← lift (array_num_bytes m data);
  small ← (if kMaxNumElements t <? num_elements then mret true
           else size ← lift (GetStorageSize t num_elements); mret (num_bytes <? size));
  if small : bool then mret UNEXPECTED_ARRAY_HEADER
  else
  params ← lift (deref_params validate_params);
  if negb (expected_num_elements params =? 0) &&
     negb (num_elements =? expected_num_elements params) then mret UNEXPECTED_ARRAY_HEADER
  else
  claimed ← ClaimMemory data num_bytes;
  if negb claimed then mret ILLEGAL_MEMORY_RANGE else mret NONE.

Fixpoint Array_Validate t (data : Z) (validate_params : option ArrayValidateParams)
    : CM ValidationError :=
  if data =? 0 then mret NONE
  else
  retval ← validate_header t data validate_params;
  if negb (bool_decide (retval = NONE)) then mret retval
  else
  num_elements ← lift (array_num_elements m data);
  vp ← lift (deref_params validate_params);
  let nullable := element_is_nullable vp in
  let params := element_validate_params vp in
  let each body := validate_elements (seqZ 0 num_elements) (λ i, body (storage_at t data i)) in
  match t with
  | Char | Pod _ | Bool =>
      MOJO_DCHECK debug (negb nullable);;
      MOJO_DCHECK debug (negb (bool_decide (is_Some params)));;
      mret NONE
  | HandleElem =>
      MOJO_DCHECK debug (negb (bool_decide (is_Some params)));;
      each (validate_handle_element nullable)
  | StructPtr s =>
      each (validate_pointer_element nullable (λ p,
        MOJO_DCHECK debug (negb (bool_decide (is_Some params)));;
        Struct_Validate s p))
  | ArrayPtr t' =>
      each (validate_pointer_element nullable (λ p, Array_Validate t' p params))
  | MapPtr key value =>
      each (validate_pointer_element nullable (λ p,
        Map_Validate key (Array_Validate key) (Array_Validate value) p params))
  | Union u =>
      MOJO_DCHECK debug (negb (bool_decide (is_Some params)));;
      each (validate_union_element nullable u)
  end.
End validate.

(** ** Encoding and decoding *)
Section codec.
Context (Struct_Encode Struct_Decode : S → Z → SM unit) (Union_Encode Union_Decode : U → Z → SM unit).

(** [Encode] and [Decode] (bindings_serialization.h). *)
Definition Encode (EncodePointersAndHandles : Z → SM unit) (slot : Z) : SM unit :=
  ptr ← read (λ m, load64 m slot);
  (if negb (ptr =? 0) then EncodePointersAndHandles ptr else mret tt);;
  ptr ← read (λ m, load64 m slot);
  EncodePointer debug ptr slot.
Definition Decode (DecodePointersAndHandles : Z → SM unit) (slot : Z) : SM unit :=
  DecodePointer slot;;
  ptr ← read (λ m, load64 m slot);
  if negb (ptr =? 0) then DecodePointersAndHandles ptr else mret tt.

(** [Map_Data::EncodePointersAndHandles] and [Map_Data::DecodePointersAndHandles] *)
Definition Map_EncodePointersAndHandles (Key_Encode Value_Encode : Z → SM unit) (map : Z) : SM unit :=
  Encode Key_Encode (map + 8);;
  Encode Value_Encode (map + 16).
Definition Map_DecodePointersAndHandles (Key_Decode Value_Decode : Z → SM unit) (map : Z) : SM unit :=
  Decode Key_Decode (map + 8);;
  Decode Value_Decode (map + 16).

(** [for (i = 0; i < header->num_elements; ++i) body(&elements[i]);] *)
Definition each_element t (array : Z) (body : Z → SM unit) : SM unit :=
  num_elements ← read (λ m, array_num_elements m array);
  for_each_element array num_elements (λ i, body (storage_at t array i)).

Fixpoint Array_EncodePointersAndHandles t (array : Z) : SM unit :=
  match t with
  | Char | Pod _ | Bool => mret tt
  | HandleElem => each_element t array EncodeHandle
  | StructPtr s => each_element t array (Encode (Struct_Encode s))
  | ArrayPtr t' => each_element t array (Encode (Array_EncodePointersAndHandles t'))
  | MapPtr key value => each_element t array (Encode (Map_EncodePointersAndHandles
      (Array_EncodePointersAndHandles key) (Array_EncodePointersAndHandles value)))
  | Union u => each_element t array (Union_Encode u)
  end.

Fixpoint Array_DecodePointersAndHandles t (array : Z) : SM unit :=
  match t with
  | Char | Pod _ | Bool => mret tt
  | HandleElem => each_element t array (DecodeHandle debug)
  | StructPtr s => each_element t array (Decode (Struct_Decode s))
  | ArrayPtr t' => each_element t array (Decode (Array_DecodePointersAndHandles t'))
  | MapPtr key value => each_element t array (Decode (Map_DecodePointersAndHandles
      (Array_DecodePointersAndHandles key) (Array_DecodePointersAndHandles value)))
  | Union u => each_element t array (Union_Decode u)
  end.
End codec.

(** ** Elements of [Array_Data<bool>]: [BitRef] *)
Definition BitRef_get (array offset : Z) (m : mem) : result bool :=
  storage ← load_le 1 m (array + sizeof_ArrayHeader + offset / 8);
  Ok (negb (Z.land storage (Z.shiftl 1 (offset mod 8)) =? 0)).
Definition BitRef_set (array offset : Z) (value : bool) (m : mem) : result mem :=
  storage ← load_le 1 m (array + sizeof_ArrayHeader + offset / 8);
  let mask := Z.shiftl 1 (offset mod 8) in
  store_le 1 m (array + sizeof_ArrayHeader + offset / 8)
    (if value then Z.lor storage mask else Z.land storage (255 - mask)).
End arrays.
