(* ===== verification/CppArrayAgrees.v ===== *)
(** * Arrays: the C++ bindings against the C library

    [agree]: a C++ validation step accepts what a step of the C library accepts and
    leaves corresponding states.  The two report different errors for some of what
    they refuse.  Then where they differ. *)
From stdpp Require Import base list numbers option gmap.
From S2P Require Import Prelude Memory TypeDescriptor Validate Sample Codec CppBindings CppAgrees CppArray.

(** The state after an execution that found nothing wrong. *)
Definition accepted {R S} `{EqDecision R} (none : R) (x : result (R * S)) : option S :=
  match x with Ok (r, s) => if decide (r = none) then Some s else None | Crash _ => None end.

Lemma accepted_Some {R A} `{EqDecision R} (none : R) (x : result (R * A)) a :
  accepted none x = Some a → x = Ok (none, a).
Proof. unfold accepted. destruct x as [[r s]|]; [|done]. case_decide; [|done]. naive_solver. Qed.

(** The context of the C library that corresponds to a bounds checker. *)
Definition ctx_of (c : BoundsChecker) : MojomValidationContext :=
  mkContext (handle_begin_ c) (data_begin_ c).

Section agree.
Context (m : mem) (descs : desc_table) (end_ num_handles : Z).

(** A checker of a message that ends at [end_] and came with [num_handles]
    handles. *)
Record checks (c : BoundsChecker) : Prop := {
  ck_end : data_end_ c = end_;
  ck_handles : handle_end_ c = num_handles;
  ck_begin : 0 <= data_begin_ c;
}.

Definition agreed (f : result (ValidationError * BoundsChecker))
    (g : result (Z * MojomValidationContext)) : Prop :=
  ctx_of <$> accepted NONE f = accepted MOJOM_VALIDATION_ERROR_NONE g ∧
  from_option checks True (accepted NONE f).
Definition agree (f : stateR BoundsChecker ValidationError) (g : VM Z) : Prop :=
  ∀ c, checks c → agreed (f c) (g (ctx_of c)).

Lemma agreed_none f g : accepted NONE f = None → accepted MOJOM_VALIDATION_ERROR_NONE g = None → agreed f g.
Proof. unfold agreed. by intros -> ->. Qed.

Lemma agreed_inv f g : agreed f g →
  (∃ c', f = Ok (NONE, c') ∧ g = Ok (MOJOM_VALIDATION_ERROR_NONE, ctx_of c') ∧ checks c') ∨
  (accepted NONE f = None ∧ accepted MOJOM_VALIDATION_ERROR_NONE g = None).
Proof.
  intros [Heq Hck]. unfold accepted in *.
  destruct f as [[r c']|], g as [[r' x]|]; cbn in *; repeat case_decide; naive_solver.
Qed.

(** Two steps in sequence, each returning early on an error. *)
Lemma agreed_seq f g (k1 : stateR BoundsChecker ValidationError) (k2 : VM Z) :
  agreed f g →
  (∀ c', checks c' → g = Ok (MOJOM_VALIDATION_ERROR_NONE, ctx_of c') → agreed (k1 c') (k2 (ctx_of c'))) →
  agreed (match f with
          | Ok (r, c) => (if negb (bool_decide (r = NONE)) then mret r else k1) c
          | Crash e => Crash e end)
         (match g with
          | Ok (r, x) => (if negb (r =? MOJOM_VALIDATION_ERROR_NONE) then mret r else k2) x
          | Crash e => Crash e end).
Proof.
  intros [(c' & -> & -> & Hck)|[Hf Hg]]%agreed_inv Hk.
  - rewrite bool_decide_true by done. cbn. auto.
  - apply agreed_none; unfold accepted in *.
    + destruct f as [[r c]|]; [|done]. case_decide; [done|]. rewrite bool_decide_false by done. cbn.
      by rewrite decide_False.
    + destruct g as [[r c]|]; [|done]. case_decide; [done|].
      destruct (Z.eqb_spec r MOJOM_VALIDATION_ERROR_NONE); [done|]. cbn. by rewrite decide_False.
Qed.

Lemma validate_elements_agree l f g :
  (∀ i, i ∈ l → agree (f i) (g i)) → agree (validate_elements l f) (validate_each l g).
Proof.
  induction l as [|i l IH]; intros Hi c Hc; [done|].
  unfold validate_elements, validate_each, mbind, stateR_bind.
  fold (validate_elements l f) (validate_each l g).
  apply agreed_seq; [apply Hi; [left|done]|]. intros c' Hc' _. apply IH; [|done].
  intros j Hj. apply Hi. by right.
Qed.

(** ** Handles *)
Lemma validate_handle_element_agree nullable slot :
  0 <= num_handles < 2 ^ 32 →
  agree (validate_handle_element m nullable slot)
    (handle ← lift (load32 m slot); validate_handle handle num_handles nullable).
Proof.
  intros Hnh c [He Hh Hb]. unfold validate_handle_element, validate_handle, ClaimHandle, mbind, stateR_bind.
  destruct (load32 m slot) as [v|] eqn:Hv; [|by apply agreed_none]. cbn [lift].
  pose proof (load32_range _ _ _ Hv). change kEncodedInvalidHandleValue with kEncodedHandleInvalid.
  destruct (v =? kEncodedHandleInvalid) eqn:Hinv.
  - destruct nullable; cbn; [by destruct c|by apply agreed_none].
  - rewrite !andb_false_r. cbn. rewrite Hh.
    rewrite (orb_comm (num_handles <=? v)).
    destruct ((v <? handle_begin_ c) || (num_handles <=? v)) eqn:Hr; cbn; [by apply agreed_none|].
    split; [done|]. by split.
Qed.

(** ** The header of an array *)

(** The C header check and the assignment that follows it. *)
Definition c_array_header (desc : MojomTypeDescriptorArray) (p size : Z) : VM Z :=
  result ← lift (validate_array_header m desc p size);
  if negb (result =? MOJOM_VALIDATION_ERROR_NONE) then mret result
  else
  num_bytes ← lift (array_num_bytes m p);
  set_next_pointer (p + num_bytes);;
  mret MOJOM_VALIDATION_ERROR_NONE.

(** The two ways to compute the least size of an array with [n] elements; arrays of
    [bool] are another matter. *)
Lemma GetStorageSize_eq {S U} debug (t : element S U) n :
  t ≠ Bool → 1 <= sizeof_StorageType t <= 16 → 0 <= n → (kMaxNumElements t <? n) = false →
  GetStorageSize debug t n = Ok (8 + sizeof_StorageType t * n).
Proof.
  intros Hb Hs Hn Hmax. set (sz := sizeof_StorageType t) in *.
  assert (kMaxNumElements t = (4294967295 - 8) / sz) as Hk by (by destruct t).
  pose proof (Z.mul_div_le (4294967295 - 8) sz). assert (0 <= sz * n <= 4294967287) by nia.
  assert (GetStorageSize debug t n =
    ((if debug then c_assertR (n <=? kMaxNumElements t) else Ok tt);;
     Ok (u32 (u64 (8 + u64 (sz * n)))))) as -> by by destruct t.
  rewrite (u64_small (sz * n)) by lia. rewrite u64_small by lia. rewrite u32_small by lia.
  replace (n <=? kMaxNumElements t) with true by lia. by destruct debug.
Qed.

Lemma bits_to_bytes_elements sz n :
  1 <= sz <= 16 → 0 <= n < 2 ^ 32 → u64 (8 + bits_to_bytes (u64 (8 * sz * n))) = 8 + sz * n.
Proof.
  intros Hs Hn. rewrite (u64_small (8 * sz * n)) by nia. unfold bits_to_bytes.
  rewrite (u64_small (_ + 7)) by nia.
  replace (8 * sz * n + 7) with (7 + (sz * n) * 8) by lia.
  rewrite Z.div_add by lia. apply u64_small. change (7 / 8) with 0. nia.
Qed.

Lemma too_small_agrees {S U} debug (t : element S U) n nb :
  t ≠ Bool → 1 <= sizeof_StorageType t <= 16 → 0 <= n < 2 ^ 32 → 0 <= nb < 2 ^ 32 →
  (if kMaxNumElements t <? n then true
   else match GetStorageSize debug t n with Ok size => nb <? size | Crash _ => true end) =
  (nb <? u64 (8 + bits_to_bytes (u64 (8 * sizeof_StorageType t * n)))).
Proof.
  intros Hb Hs Hn Hnb. rewrite bits_to_bytes_elements by done. destruct (kMaxNumElements t <? n) eqn:Hmax.
  - assert (kMaxNumElements t = (4294967295 - 8) / sizeof_StorageType t) as Hk by (by destruct t).
    pose proof (Z.mul_succ_div_gt (4294967295 - 8) (sizeof_StorageType t)).
    symmetry. apply Z.ltb_lt. nia.
  - by rewrite GetStorageSize_eq by (done || lia).
Qed.

(** What either of them accepts, as one condition on the header. *)
Definition header_accepts (p size fixed : Z) (too_small : Z → Z → bool) : option Z :=
  match load32 m p, load32 m (p + 4) with
  | Ok num_bytes, Ok num_elements =>
      if (8 <=? size) && negb (too_small num_bytes num_elements) &&
         negb (negb (fixed =? 0) && negb (num_elements =? fixed)) &&
         (8 <=? num_bytes) && (num_bytes <=? size)
      then Some num_bytes else None
  | _, _ => None
  end.

Lemma header_accepts_ext p size fixed f g :
  (∀ nb ne, 0 <= nb < 2 ^ 32 → 0 <= ne < 2 ^ 32 → f nb ne = g nb ne) →
  header_accepts p size fixed f = header_accepts p size fixed g.
Proof.
  intros Hfg. unfold header_accepts. destruct (load32 m p) as [nb|] eqn:Hnb; [|done].
  destruct (load32 m (p + 4)) as [ne|] eqn:Hne; [|done].
  by rewrite Hfg by (eapply load32_range; eauto).
Qed.

Lemma header_accepts_Some p size fixed f nb :
  header_accepts p size fixed f = Some nb → 8 <= nb <= size.
Proof.
  unfold header_accepts. destruct (load32 m p) as [nb'|], (load32 m (p + 4)) as [ne|]; try done.
  destruct (_ && (nb' <=? size)) eqn:Hok; [|done]. intros [= <-]. lia.
Qed.

Lemma c_array_header_accepts desc p size x :
  accepted MOJOM_VALIDATION_ERROR_NONE (c_array_header desc p size x) =
    (λ nb, mkContext (next_handle_index x) (p + nb)) <$>
      header_accepts p size (ad_num_elements desc) (λ nb ne,
        nb <? u64 (8 + bits_to_bytes (u64 (ad_elem_num_bits desc * ne)))).
Proof.
  unfold c_array_header, validate_array_header, header_accepts, sizeof_MojomArrayHeader,
    array_num_bytes, array_num_elements, set_next_pointer, mbind, stateR_bind, result_bind, mret,
    stateR_ret, lift.
  replace (8 <=? size) with (negb (size <? 8)) by lia.
  destruct (size <? 8); cbn [negb andb].
  { by destruct (load32 m p), (load32 m (p + 4)). }
  destruct (load32 m p) as [nb|]; [|done].
  replace (8 <=? nb) with (negb (nb <? 8)) by lia. replace (nb <=? size) with (negb (size <? nb)) by lia.
  destruct (nb <? 8); cbn [negb].
  { destruct (load32 m (p + 4)); [|done]. by rewrite andb_false_r. }
  destruct (size <? nb); cbn [negb].
  { destruct (load32 m (p + 4)); [|done]. by rewrite andb_false_r. }
  destruct (load32 m (p + 4)) as [ne|]; [|done]. rewrite !andb_true_r.
  destruct (negb (_ =? 0) && _); [by rewrite andb_false_r|].
  by destruct (nb <? u64 _).
Qed.

Lemma range_fits c p n :
  checks c → end_ < 2 ^ 64 → data_begin_ c <= p <= end_ → 0 <= n < 2 ^ 32 →
  InternalIsValidRange c p (u64 (p + n)) = (1 <=? n) && (n <=? end_ - p).
Proof.
  intros [Hend _ H0] He Hp Hn. unfold InternalIsValidRange. rewrite Hend.
  destruct (decide (p + n < 2 ^ 64)); [rewrite u64_small by lia; lia|].
  replace (u64 (p + n)) with (p + n - 2 ^ 64); [lia|].
  unfold u64. apply Z.mod_unique_pos with 1; lia.
Qed.

Lemma cpp_header_accepts {S U} debug (t : element S U) vp p c :
  (∀ n, 0 <= n → (kMaxNumElements t <? n) = false → ∃ size, GetStorageSize debug t n = Ok size ∧ 8 <= size) →
  checks c → end_ < 2 ^ 64 → p mod 8 = 0 → data_begin_ c <= p <= end_ →
  accepted NONE (validate_header debug m t p (Some vp) c) =
    (λ nb, mkBoundsChecker (u64 (p + nb)) (data_end_ c) (handle_begin_ c) (handle_end_ c)) <$>
      header_accepts p (end_ - p) (expected_num_elements vp) (λ nb ne,
        if kMaxNumElements t <? ne then true
        else match GetStorageSize debug t ne with Ok size => nb <? size | Crash _ => true end).
Proof.
  intros Hsize Hc He Hal Hp.
  unfold validate_header, header_accepts, IsAligned, kAlignment, IsValidRange, ClaimMemory,
    array_num_bytes, array_num_elements, mbind, stateR_bind, get_state, mret, stateR_ret, lift.
  rewrite (proj2 (Z.eqb_eq _ _) Hal). cbn [negb].
  rewrite range_fits by (done || unfold sizeof_ArrayHeader; lia). cbn [sizeof_ArrayHeader].
  change (1 <=? sizeof_ArrayHeader) with true. unfold sizeof_ArrayHeader. cbn [andb].
  destruct (8 <=? end_ - p); cbn [negb andb].
  2: { destruct (load32 m p), (load32 m (p + 4)); done. }
  destruct (load32 m (p + 4)) as [ne|] eqn:Hne; [|by destruct (load32 m p)].
  destruct (load32 m p) as [nb|] eqn:Hnb; [|done].
  pose proof (load32_range _ _ _ Hnb).
  destruct (kMaxNumElements t <? ne) eqn:Hmax; [done|].
  pose proof (load32_range _ _ _ Hne). destruct (Hsize ne ltac:(lia) Hmax) as (size & -> & Hs8).
  destruct (nb <? size) eqn:Hsmall; [done|]. cbn [deref_params negb andb].
  destruct (negb (_ =? 0) && _); [done|].
  rewrite range_fits by (done || lia). replace (8 <=? nb) with true by lia.
  replace (1 <=? nb) with true by lia. cbn [andb].
  by destruct (nb <=? end_ - p).
Qed.

Lemma header_agrees {S U} debug (t : element S U) desc vp p c x :
  t ≠ Bool → 1 <= sizeof_StorageType t <= 16 →
  ad_elem_num_bits desc = 8 * sizeof_StorageType t →
  ad_num_elements desc = expected_num_elements vp →
  checks c → end_ < 2 ^ 64 → p mod 8 = 0 → data_begin_ c <= p <= end_ →
  next_handle_index x = handle_begin_ c →
  agreed (validate_header debug m t p (Some vp) c) (c_array_header desc p (end_ - p) x).
Proof.
  intros Hb Hs Hbits Hexp Hc He Hal Hp Hx. unfold agreed.
  rewrite c_array_header_accepts, cpp_header_accepts, Hbits, Hexp, Hx; try done.
  2: { intros n Hn Hmax. rewrite GetStorageSize_eq by done. eexists. split; [done|]. nia. }
  erewrite header_accepts_ext by (intros; by apply too_small_agrees).
  destruct (header_accepts _ _ _ _) as [nb|] eqn:Hok; [|done].
  apply header_accepts_Some in Hok. cbn. rewrite u64_small by (destruct Hc; lia).
  split; [done|]. destruct Hc. split; cbn; [done|done|lia].
Qed.

(** ** Objects behind a pointer *)

(** [Run] validates an object at an address as [g] does, and refuses addresses at
    which no object may be. *)
Record runs_agree (Run : Z → stateR BoundsChecker ValidationError) (g : Z → VM Z) : Prop := {
  ra_null : ∀ c, Run 0 c = Ok (NONE, c);
  ra_bad : ∀ p c, checks c → 0 < p < 2 ^ 64 → p mod 8 ≠ 0 ∨ p < data_begin_ c ∨ end_ < p →
    accepted NONE (Run p c) = None;
  ra_ok : ∀ p c x, checks c → 0 < p → p mod 8 = 0 → data_begin_ c <= p <= end_ →
    end_ - p < 2 ^ 32 → next_handle_index x = handle_begin_ c → agreed (Run p c) (g p x);
}.

(** What [MojomType_DispatchValidate] does for a pointer. *)
Definition dispatch_pointer (nullable : bool) (g : Z → VM Z) (slot : Z) : VM Z :=
  result ← validate_pointer m slot (end_ - slot) nullable;
  offset ← lift (load64 m slot);
  if negb (result =? MOJOM_VALIDATION_ERROR_NONE) || (offset =? 0) then mret result
  else g (slot + offset).

Lemma land_7 o : Z.land o 7 = o mod 8.
Proof. change 7 with (Z.ones 3). by rewrite Z.land_ones. Qed.

(** The C library looks at more of a pointer before it follows it. *)
Lemma dispatch_pointer_eq nullable g slot o x :
  load64 m slot = Ok o → slot mod 8 = 0 →
  accepted MOJOM_VALIDATION_ERROR_NONE (dispatch_pointer nullable g slot x) =
    if o =? 0 then if nullable && (slot <=? end_) then Some x else None
    else if (o <=? end_ - slot) && (o <=? UINT32_MAX) && (next_pointer x <=? slot + o) &&
            ((slot + o) mod 8 =? 0)
    then accepted MOJOM_VALIDATION_ERROR_NONE
           (g (slot + o) (mkContext (next_handle_index x) (slot + o)))
    else None.
Proof.
  intros Ho Hal. pose proof (load64_range _ _ _ Ho).
  unfold dispatch_pointer, validate_pointer, mbind, stateR_bind, lift, get_state, set_next_pointer,
    mret, stateR_ret. rewrite Ho, land_7.
  replace ((slot + o) mod 8) with (o mod 8) by (rewrite (Zplus_mod slot o), Hal, Z.add_0_l; by rewrite Z.mod_mod).
  replace (o <=? end_ - slot) with (negb (end_ - slot <? o)) by lia.
  replace (o <=? UINT32_MAX) with (negb (UINT32_MAX <? o)) by lia.
  replace (next_pointer x <=? slot + o) with (negb (slot + o <? next_pointer x)) by lia.
  destruct (Z.eqb_spec o 0) as [->|Hne].
  - change (0 mod 8) with 0. change (UINT32_MAX <? 0) with false.
    replace (slot <=? end_) with (negb (end_ - slot <? 0)) by lia.
    destruct (end_ - slot <? 0), nullable; done.
  - destruct (end_ - slot <? o); [done|]. destruct (UINT32_MAX <? o); [done|]. cbn [orb negb andb].
    destruct (slot + o <? next_pointer x); [done|]. cbn [negb andb].
    destruct (o mod 8 =? 0); cbn [negb]; [|done]. by rewrite andb_false_r.
Qed.

Lemma pointer_element_agrees nullable Run g slot :
  runs_agree Run g → 0 < slot → slot mod 8 = 0 → slot <= end_ < 2 ^ 63 → end_ - slot < 2 ^ 32 →
  agree (validate_pointer_element m nullable Run slot) (dispatch_pointer nullable g slot).
Proof.
  intros HR H0 Hal Hend Hsz c Hc. unfold validate_pointer_element, ValidateEncodedPointer, decode_raw,
    DecodePointerRaw, mbind, stateR_bind, result_bind, lift.
  rewrite read_eq. destruct (load64 m slot) as [o|] eqn:Ho.
  2: { apply agreed_none; [done|]. unfold dispatch_pointer, validate_pointer, mbind, stateR_bind.
    by rewrite Ho. }
  pose proof (load64_range _ _ _ Ho). pose proof (dispatch_pointer_eq nullable g slot o (ctx_of c) Ho Hal) as HC.
  destruct (Z.eqb_spec o 0) as [->|Hne].
  - unfold agreed. rewrite HC. replace (slot <=? end_) with true by lia.
    destruct nullable; [|done]. cbn [negb andb]. change (0 <=? UINT32_MAX) with true.
    rewrite Z.add_0_r, u64_small by lia. replace (slot <=? slot) with true by lia.
    cbn. by rewrite (ra_null _ _ HR).
  - rewrite andb_false_r. destruct (o <=? UINT32_MAX) eqn:Hmax; cbn [andb negb].
    2: { apply agreed_none; [done|]. rewrite HC. by rewrite andb_false_r. }
    unfold UINT32_MAX in *. rewrite u32_small by lia. rewrite u64_small by lia.
    replace (slot <=? slot + o) with true by lia. cbn [negb].
    unfold agreed. rewrite HC. cbn [next_pointer ctx_of next_handle_index].
    destruct ((o <=? end_ - slot) && true && (data_begin_ c <=? slot + o) && ((slot + o) mod 8 =? 0)) eqn:Hg.
    + apply (ra_ok _ _ HR); [done|lia|lia|lia|lia|done].
    + cbn [mret stateR_ret]. rewrite (ra_bad _ _ HR); [done|done|lia|]. rewrite !andb_false_iff in Hg. lia.
Qed.

(** ** Arrays *)
Section arrays.
Context {S U : Type} (debug : bool).
Context (Struct_Validate : S → Z → stateR BoundsChecker ValidationError).
Context (Union_Validate : U → Z → bool → stateR BoundsChecker ValidationError).
Context (Union_is_null : U → Z → result bool).
Implicit Types (t : element S U).

(** The descriptor [d] and the parameters [vp] are those of an [Array_Data<t>].  Left
    out are arrays on which the two implementations differ ([Bool], [MapPtr], and
    interfaces, whose descriptor is not one of [POD]), and those of structs and
    unions, whose validation is generated. *)
Fixpoint array_described t (vp : ArrayValidateParams) (d : desc_ptr) : Prop :=
  ∃ desc, deref_array descs d = Ok desc ∧
    ad_elem_num_bits desc = 8 * sizeof_StorageType t ∧
    ad_num_elements desc = expected_num_elements vp ∧
    ad_nullable desc = element_is_nullable vp ∧
    match t with
    | Char => ad_elem_type desc = POD ∧ element_is_nullable vp = false ∧
        element_validate_params vp = None
    | Pod size => 1 <= size <= 8 ∧ ad_elem_type desc = POD ∧ element_is_nullable vp = false ∧
        element_validate_params vp = None
    | HandleElem => ad_elem_type desc = HANDLE ∧ element_validate_params vp = None
    | ArrayPtr t' => ad_elem_type desc = ARRAY_PTR ∧
        ∃ vp', element_validate_params vp = Some vp' ∧
          array_described t' vp' (ad_elem_descriptor desc)
    | Bool | StructPtr _ | MapPtr _ _ | Union _ => False
    end.

(** The depth of the calls of [MojomType_DispatchValidate]. *)
Fixpoint depth t : nat :=
  match t with
  | ArrayPtr t' => 1 + depth t'
  | _ => 1
  end.

Lemma array_described_inv t vp d : array_described t vp d →
  ∃ desc, deref_array descs d = Ok desc ∧ t ≠ Bool ∧ 1 <= sizeof_StorageType t <= 16 ∧
    ad_elem_num_bits desc = 8 * sizeof_StorageType t ∧
    ad_num_elements desc = expected_num_elements vp.
Proof.
  destruct t; cbn [array_described]; intros (desc & ? & ? & ? & ? & Ht); try done;
    exists desc; split_and!; try done; cbn; try lia.
Qed.

Abbreviation Validate := (Array_Validate debug m Struct_Validate Union_Validate Union_is_null).
Abbreviation C_Validate fuel d :=
  (λ p, MojomArray_Validate m descs (MojomType_DispatchValidate m descs fuel) d p (end_ - p) num_handles).

Lemma header_accepts_inv t p fixed nb : 1 <= sizeof_StorageType t <= 16 →
  header_accepts p (end_ - p) fixed (λ nb ne,
    nb <? u64 (8 + bits_to_bytes (u64 (8 * sizeof_StorageType t * ne)))) = Some nb →
  ∃ ne, load32 m (p + 4) = Ok ne ∧ load32 m p = Ok nb ∧
    8 + sizeof_StorageType t * ne <= nb <= end_ - p.
Proof.
  intros Hs. unfold header_accepts. destruct (load32 m p) as [nb'|] eqn:Hnb; [|done].
  destruct (load32 m (p + 4)) as [ne|] eqn:Hne; [|done].
  destruct (_ && (nb' <=? end_ - p)) eqn:Hok; [|done]. intros [= ->]. exists ne.
  pose proof (load32_range _ _ _ Hne). split_and!; [done|done| |lia].
  rewrite bits_to_bytes_elements in Hok by done. lia.
Qed.

Lemma agree_ext f g g' : (∀ x, g x = g' x) → agree f g' → agree f g.
Proof. intros Hg Hf c Hc. rewrite Hg. by apply Hf. Qed.

(** [MojomArray_Validate] in two steps. *)
Definition c_array_elements (dispatch : MojomTypeDescriptorType → desc_ptr → bool → Z → Z → Z → VM Z)
    (desc : MojomTypeDescriptorArray) (p size : Z) : VM Z :=
  if bool_decide (ad_elem_type desc = POD) then mret MOJOM_VALIDATION_ERROR_NONE
  else
  num_elements ← lift (array_num_elements m p);
  validate_each (seqZ 0 num_elements) (λ i,
    elem_data ← lift (array_index_by_type p (ad_elem_type desc) i);
    dispatch (ad_elem_type desc) (ad_elem_descriptor desc) (ad_nullable desc)
      elem_data (u32 (size - u32 (elem_data - p))) num_handles).

Lemma MojomArray_Validate_eq dispatch d desc p size x :
  deref_array descs d = Ok desc → p ≠ 0 →
  MojomArray_Validate m descs dispatch d p size num_handles x =
    match c_array_header desc p size x with
    | Ok (r, x) => (if negb (r =? MOJOM_VALIDATION_ERROR_NONE) then mret r
                    else c_array_elements dispatch desc p size) x
    | Crash e => Crash e
    end.
Proof.
  intros Hd Hp. unfold MojomArray_Validate, c_array_header, mbind, stateR_bind, c_assert, lift.
  assert (desc_nonnull d = true) as -> by by destruct d.
  replace (p =? 0) with false by lia. cbn [negb mret stateR_ret]. rewrite Hd.
  destruct (validate_array_header m desc p size) as [r|]; [|done].
  destruct (negb (r =? _)) eqn:Hr; cbn [mret stateR_ret]; [by rewrite Hr|].
  by destruct (array_num_bytes m p).
Qed.

(** The dispatcher on a pointer, at the sizes the validators pass. *)
Lemma dispatch_pointer_size nullable slot x (g : Z → Z → VM Z) : end_ - slot < 2 ^ 32 →
  (result ← validate_pointer m slot (end_ - slot) nullable;
   offset ← lift (load64 m slot);
   if negb (result =? MOJOM_VALIDATION_ERROR_NONE) || (offset =? 0) then mret result
   else g (slot + offset) (u32 (end_ - slot - offset))) x =
  dispatch_pointer nullable (λ p, g p (end_ - p)) slot x.
Proof.
  intros Hsz. unfold dispatch_pointer, validate_pointer, mbind, stateR_bind, lift.
  destruct (load64 m slot) as [o|] eqn:Ho; [|done]. pose proof (load64_range _ _ _ Ho).
  destruct (end_ - slot <? o) eqn:Hlt; [done|].
  replace (end_ - (slot + o)) with (end_ - slot - o) by lia. by rewrite u32_small by lia.
Qed.

Lemma dispatch_array_eq fuel d nullable slot x : 0 < slot → end_ - slot < 2 ^ 32 →
  MojomType_DispatchValidate m descs (1 + fuel) ARRAY_PTR d nullable slot (end_ - slot) num_handles x =
    dispatch_pointer nullable (C_Validate fuel d) slot x.
Proof.
  intros H0 Hsz. rewrite <- (dispatch_pointer_size _ _ _ (λ p size,
    MojomArray_Validate m descs (MojomType_DispatchValidate m descs fuel) d p size num_handles)) by done.
  cbn [MojomType_DispatchValidate Nat.add]. unfold c_assert. by replace (slot =? 0) with false by lia.
Qed.

(** ** The theorem *)
Context (Hend : 0 <= end_ < 2 ^ 63) (Hhandles : 0 <= num_handles < 2 ^ 32).

Lemma Array_Validate_bad t vp p c :
  checks c → 0 < p < 2 ^ 64 → p mod 8 ≠ 0 ∨ p < data_begin_ c ∨ end_ < p →
  accepted NONE (Validate t p vp c) = None.
Proof.
  intros Hc Hp Hbad. assert (accepted NONE (validate_header debug m t p vp c) = None) as Hh.
  { unfold validate_header, IsAligned, kAlignment, IsValidRange, InternalIsValidRange, sizeof_ArrayHeader,
      mbind, stateR_bind, get_state, mret, stateR_ret.
    destruct (p mod 8 =? 0) eqn:Hal; [|done]. cbn [negb].
    replace (_ && _) with false; [done|]. symmetry. rewrite !andb_false_iff. destruct Hc as [-> _ _].
    destruct (decide (p + 8 < 2 ^ 64)); [rewrite u64_small by lia; lia|].
    replace (u64 (p + 8)) with (p + 8 - 2 ^ 64); [lia|].
    unfold u64. apply Z.mod_unique_pos with 1; lia. }
  unfold accepted in *. destruct t; cbn [Array_Validate]; unfold mbind, stateR_bind;
    replace (p =? 0) with false by lia;
    destruct (validate_header _ _ _ _ _ _) as [[r c']|]; try done; case_decide; try done;
    rewrite bool_decide_false by done; cbn; by rewrite decide_False.
Qed.

(** The loops, given their bodies. *)
Lemma loop_agrees t p ne nb dispatch desc (body : Z → stateR BoundsChecker ValidationError) :
  ad_elem_type desc ≠ POD → 1 <= sizeof_StorageType t <= 16 → 0 < p →
  (∀ i, array_index_by_type p (ad_elem_type desc) i = Ok (storage_at t p i)) →
  load32 m (p + 4) = Ok ne → 8 + sizeof_StorageType t * ne <= nb <= end_ - p → end_ - p < 2 ^ 32 →
  (∀ i slot, slot = storage_at t p i → p < slot <= end_ →
    agree (body slot) (dispatch (ad_elem_type desc) (ad_elem_descriptor desc) (ad_nullable desc)
      slot (end_ - slot) num_handles)) →
  agree (validate_elements (seqZ 0 ne) (λ i, body (storage_at t p i)))
    (c_array_elements dispatch desc p (end_ - p)).
Proof.
  intros Hpod Hs Hp Hidx Hne Hnb Hsz Hbody. unfold c_array_elements.
  rewrite bool_decide_false by done. eapply agree_ext.
  { intros x. unfold mbind, stateR_bind, lift, array_num_elements. rewrite Hne. reflexivity. }
  apply validate_elements_agree. intros i Hi%elem_of_seqZ.
  assert (p < storage_at t p i <= end_) as Hslot by (unfold storage_at, sizeof_ArrayHeader; nia).
  eapply agree_ext; [|by apply (Hbody i)]. intros x. unfold mbind, stateR_bind, lift. rewrite Hidx.
  rewrite (u32_small (_ - p)) by lia. rewrite u32_small by lia.
  by replace (end_ - p - (storage_at t p i - p)) with (end_ - storage_at t p i) by lia.
Qed.

Lemma c_array_header_inv t desc p x y : 1 <= sizeof_StorageType t <= 16 →
  ad_elem_num_bits desc = 8 * sizeof_StorageType t →
  c_array_header desc p (end_ - p) x = Ok (MOJOM_VALIDATION_ERROR_NONE, y) →
  ∃ ne nb, load32 m (p + 4) = Ok ne ∧ 8 + sizeof_StorageType t * ne <= nb <= end_ - p.
Proof.
  intros Hs Hbits Hok.
  assert (accepted MOJOM_VALIDATION_ERROR_NONE (c_array_header desc p (end_ - p) x) = Some y) as Ha
    by by rewrite Hok.
  rewrite c_array_header_accepts, Hbits in Ha.
  destruct (header_accepts _ _ _ _) as [nb|] eqn:Hh; [|done].
  apply header_accepts_inv in Hh as (ne & Hne & _ & Hnb); [|done]. by exists ne, nb.
Qed.

Lemma storage_aligned t p i : sizeof_StorageType t = 8 → p mod 8 = 0 → storage_at t p i mod 8 = 0.
Proof.
  intros Ht Hp. unfold storage_at, sizeof_ArrayHeader. rewrite Ht.
  replace (p + 8 + 8 * i) with (p + (1 + i) * 8) by lia. by rewrite Z.mod_add.
Qed.

Lemma Array_Validate_runs t : ∀ vp d fuel,
  array_described t vp d → (depth t <= fuel)%nat →
  runs_agree (λ p, Validate t p (Some vp)) (C_Validate fuel d).
Proof.
  induction t as [|size| | |s|t IH|key _ value _|u]; intros vp d fuel Hd Hf;
    (split; [done|intros; by apply Array_Validate_bad|]).
  all: intros p c x Hc Hp Hal Hpc Hsz Hx.
  all: destruct (array_described_inv _ _ _ Hd) as (desc & Hdesc & Hbool & Hs & Hbits & Hexp).
  all: rewrite (MojomArray_Validate_eq _ _ _ _ _ _ Hdesc) by lia.
  all: cbn [Array_Validate]; unfold mbind, stateR_bind; replace (p =? 0) with false by lia.
  all: apply agreed_seq; [by apply header_agrees; try lia|].
  all: intros c' Hc' Hok.
  all: destruct (c_array_header_inv _ _ _ _ _ Hs Hbits Hok) as (ne & nb & Hne & Hnb).
  all: cbn [array_described] in Hd; destruct Hd as (desc' & Hdesc' & _ & _ & Hnull & Hd); try done.
  all: rewrite Hdesc in Hdesc'; injection Hdesc' as <-.
  all: unfold lift, array_num_elements; rewrite Hne; cbn [deref_params].
  all: destruct fuel as [|fuel]; [cbn in Hf; lia|].
  all: clear Hok.
  - destruct Hd as (Htype & Hn & Hparams). unfold c_array_elements.
    rewrite Hn, Hparams, (bool_decide_true (ad_elem_type desc = POD)) by done. by destruct debug.
  - destruct Hd as (_ & Htype & Hn & Hparams). unfold c_array_elements.
    rewrite Hn, Hparams, (bool_decide_true (ad_elem_type desc = POD)) by done. by destruct debug.
  - destruct Hd as (Htype & Hparams). rewrite Hparams, <- Hnull.
    replace (MOJO_DCHECK debug _ c') with (Ok (tt, c')) by by destruct debug.
    eapply (loop_agrees HandleElem); rewrite ?Htype; try done; [].
    intros i slot -> Hslot. eapply agree_ext; [|by apply validate_handle_element_agree].
    intros y. cbn [MojomType_DispatchValidate]. unfold mbind, stateR_bind, c_assert.
    by replace (_ =? 0) with false by lia.
  - destruct Hd as (Htype & vp' & Hparams & Hd). rewrite <- Hnull.
    eapply (loop_agrees (ArrayPtr t)); rewrite ?Htype; try done; [].
    intros i slot Hi Hslot. eapply agree_ext; [intros; apply dispatch_array_eq; lia|].
    apply pointer_element_agrees; [|lia|by subst; apply storage_aligned|lia|lia].
    rewrite Hparams. apply IH; [done|]. cbn in Hf. lia.
Qed.

(** C17: The C++ bindings accept an array of numbers, strings, handles or such arrays,
    nested to any depth, exactly when the C library accepts it for the same type,
    with any bound on its recursion that is at least the depth of the type, and
    both then have claimed the same bytes and handles. *)
Theorem Array_Validate_agrees t vp d fuel p c :
  array_described t vp d → (depth t <= fuel)%nat →
  checks c → 0 < p → p mod 8 = 0 → data_begin_ c <= p <= end_ → end_ - p < 2 ^ 32 →
  ctx_of <$> accepted NONE (Validate t p (Some vp) c) =
    accepted MOJOM_VALIDATION_ERROR_NONE (C_Validate fuel d p (ctx_of c)).
Proof. intros Ht Hf Hc Hp Hal Hpe Hsz. by apply (ra_ok _ _ (Array_Validate_runs t vp d fuel Ht Hf)). Qed.
End arrays.
End agree.

(** [array<array<handle?>>], with two handles. *)
Definition handle_arrays : desc_table :=
  [DescArray (mkArrayDesc ARRAY_PTR (Some 1%nat) 0 64 false);
   DescArray (mkArrayDesc HANDLE None 0 32 true)].
Definition handle_arrays_params : ArrayValidateParams :=
  mkArrayValidateParams 0 false (Some (mkArrayValidateParams 0 true None)).
Definition handle_arrays_mem : mem :=
  words 4096 [24; 2;  16; 0;  24; 0;
              16; 2;  0; 4294967295;
              12; 1;  1; 0].

Lemma Array_Validate_agrees_witness :
  accepted NONE (Array_Validate true handle_arrays_mem (U := unit) (λ (_ : unit) _, mret NONE)
    (λ _ _ _, mret NONE) (λ _ _, Ok false) (ArrayPtr HandleElem) 4096 (Some handle_arrays_params)
    (mkBoundsChecker 4096 4152 0 2)) = Some (mkBoundsChecker 4148 4152 2 2) ∧
  ctx_of <$> accepted NONE (Array_Validate true handle_arrays_mem (U := unit) (λ (_ : unit) _, mret NONE)
    (λ _ _ _, mret NONE) (λ _ _, Ok false) (ArrayPtr HandleElem) 4096 (Some handle_arrays_params)
    (mkBoundsChecker 4096 4152 0 2)) =
  accepted MOJOM_VALIDATION_ERROR_NONE (MojomArray_Validate handle_arrays_mem handle_arrays
    (MojomType_DispatchValidate handle_arrays_mem handle_arrays 2) (Some 0%nat) 4096 (4152 - 4096) 2
    (mkContext 0 4096)).
Proof.
  split; [by vm_compute|].
  apply (Array_Validate_agrees handle_arrays_mem handle_arrays 4152 2 true _ _ _
    ltac:(lia) ltac:(lia) (ArrayPtr HandleElem) handle_arrays_params (Some 0%nat) 2 4096
    (mkBoundsChecker 4096 4152 0 2)).
  - cbn. eexists. split_and!; [done..|]. eexists. split; [done|]. eexists. by split_and!.
  - cbn. lia.
  - by split.
  - done.
  - done.
  - cbn. lia.
  - lia.
Defined.
