(* ===== verification/CppArrayFlaws.v ===== *)
(** * Arrays and maps on which the C++ bindings and the C library differ

    Arrays of [bool] whose size overflows, arrays of interfaces, maps of a newer
    version, and structs of an odd size. *)
From stdpp Require Import base list numbers option gmap.
From S2P Require Import Prelude Memory TypeDescriptor Validate Sample Codec CppBindings CppAgrees CppArray CppArrayAgrees.

(** ** Arrays of [bool] *)
Lemma GetStorageSize_bool_overflows {S U} debug n :
  2 ^ 32 - 7 <= n < 2 ^ 32 → GetStorageSize debug (S := S) (U := U) Bool n = Ok 8.
Proof.
  intros Hn. unfold GetStorageSize, GetStorageSize_bool.
  replace (u32 (n + 7)) with (n + 7 - 2 ^ 32) by (unfold u32; apply Z.mod_unique_pos with 1; lia).
  by rewrite Z.div_small by lia.
Qed.

Lemma GetStorageSize_bool_at_least {S U} debug n :
  ∃ size, GetStorageSize debug (S := S) (U := U) Bool n = Ok size ∧ 8 <= size.
Proof.
  exists (GetStorageSize_bool n). split; [done|]. pose proof (u32_range (n + 7)).
  unfold GetStorageSize_bool, sizeof_ArrayHeader. pose proof (Z.div_pos (u32 (n + 7)) 8).
  pose proof (Z.div_le_upper_bound (u32 (n + 7)) 8 (2 ^ 29)). rewrite (u32_small (8 + _)); lia.
Qed.

(** C39: An array of [bool] with almost 2^32 elements passes the C++ validation in 8
    bytes, since the sum [num_elements + 7] wraps; its elements then lie outside
    the message, and reading one in range of the array is an access out of bounds.
    The C library refuses the same bytes. *)
Theorem bool_array_overflows {S U} debug m descs num_handles d
    (Struct_Validate : S → Z → stateR BoundsChecker ValidationError)
    (Union_Validate : U → Z → bool → stateR BoundsChecker ValidationError) Union_is_null
    dispatch p c n nb :
  load32 m (p + 4) = Ok n → 2 ^ 32 - 7 <= n →
  load32 m p = Ok nb → 8 <= nb < 2 ^ 29 →
  checks (p + nb) num_handles c → 0 < p < 2 ^ 63 → p mod 8 = 0 → data_begin_ c <= p →
  deref_array descs d = Ok (mkArrayDesc POD None 0 1 false) →
  (∀ x, p + nb <= x → m !! x = None) →
  Array_Validate debug m Struct_Validate Union_Validate Union_is_null Bool p
    (Some (mkArrayValidateParams 0 false None)) c =
    Ok (NONE, mkBoundsChecker (p + nb) (p + nb) (handle_begin_ c) num_handles) ∧
  MojomArray_Validate m descs dispatch d p nb num_handles (ctx_of c) =
    Ok (MOJOM_VALIDATION_UNEXPECTED_ARRAY_HEADER, ctx_of c) ∧
  (∀ i, 8 * (nb - 8) <= i < n → BitRef_get p i m = Crash BadAccess).
Proof.
  intros Hn Hn1 Hnb Hnb1 Hc Hp Hal Hdb Hd Hm. pose proof (load32_range _ _ _ Hn).
  split_and!.
  - cbn [Array_Validate]. unfold mbind, stateR_bind. replace (p =? 0) with false by lia.
    assert (accepted NONE (validate_header debug m (S := S) (U := U) Bool p
      (Some (mkArrayValidateParams 0 false None)) c) =
      Some (mkBoundsChecker (p + nb) (p + nb) (handle_begin_ c) num_handles)) as Hh.
    { rewrite (cpp_header_accepts _ (p + nb) num_handles) by (done || lia || intros; apply GetStorageSize_bool_at_least).
      destruct Hc as [-> -> _].
      unfold header_accepts. rewrite Hnb, Hn, GetStorageSize_bool_overflows by lia.
      cbn [kMaxNumElements kMaxUint32 expected_num_elements]. unfold kMaxUint32.
      replace (4294967295 <? n) with false by lia. replace (p + nb - p) with nb by lia.
      replace (8 <=? nb) with true by lia. replace (nb <? 8) with false by lia.
      cbn. rewrite Z.leb_refl. cbn. by rewrite u64_small by lia. }
    unfold accepted in Hh. destruct (validate_header _ _ _ _ _ _) as [[r c']|]; [|done].
    case_decide; [|done]. injection Hh as ->. subst r.
    rewrite bool_decide_true by done. unfold lift, array_num_elements. rewrite Hn. by destruct debug.
  - rewrite (MojomArray_Validate_eq _ _ _ _ _ _ _ _ _ Hd) by lia.
    unfold c_array_header, validate_array_header, mbind, stateR_bind, lift, array_num_bytes,
      array_num_elements, sizeof_MojomArrayHeader, result_bind. rewrite Hnb, Hn.
    replace (nb <? 8) with false by lia. rewrite Z.ltb_irrefl. cbn [ad_num_elements ad_elem_num_bits negb andb Z.eqb].
    unfold bits_to_bytes. rewrite Z.mul_1_l, (u64_small n), (u64_small (n + 7)) by lia.
    pose proof (Z.div_le_lower_bound (n + 7) 8 (2 ^ 29)). pose proof (Z.div_le_upper_bound (n + 7) 8 (2 ^ 30)).
    rewrite u64_small by lia. replace (nb <? _) with true by lia. done.
  - intros i Hi. unfold BitRef_get, sizeof_ArrayHeader, load_le, load_byte.
    rewrite Hm by (pose proof (Z.div_le_lower_bound i 8 (nb - 8)); lia). done.
Qed.

Definition bool_array_mem : mem := words 4096 [8; 4294967295].
Definition bool_array_descs : desc_table := [DescArray (mkArrayDesc POD None 0 1 false)].

Lemma bool_array_overflows_witness :
  Array_Validate true bool_array_mem (U := unit) (λ (_ : unit) _, mret NONE) (λ _ _ _, mret NONE)
    (λ _ _, Ok false) Bool 4096 (Some (mkArrayValidateParams 0 false None))
    (mkBoundsChecker 4096 4104 0 0) = Ok (NONE, mkBoundsChecker 4104 4104 0 0) ∧
  MojomArray_Validate bool_array_mem bool_array_descs
    (MojomType_DispatchValidate bool_array_mem bool_array_descs 2) (Some 0%nat) 4096 8 0
    (mkContext 0 4096) = Ok (MOJOM_VALIDATION_UNEXPECTED_ARRAY_HEADER, mkContext 0 4096) ∧
  (∀ i, 8 * (8 - 8) <= i < 4294967295 → BitRef_get 4096 i bool_array_mem = Crash BadAccess).
Proof.
  apply (bool_array_overflows true bool_array_mem bool_array_descs 0 (Some 0%nat) _ _ _ _ 4096
    (mkBoundsChecker 4096 4104 0 0) 4294967295 8); try done.
  intros x Hx. unfold bool_array_mem, words. by rewrite !lookup_insert_ne by lia.
Defined.

(** ** Arrays of interfaces *)

(** The C++ bindings treat an array of interfaces as plain data: they accept any
    handle index in it, claim none, and decoding leaves it as it came, so that the
    receiver takes the number on the wire for a handle of its own; encoding sends
    the sender's handle.  The C library refuses an index that is out of range. *)
Theorem interface_arrays_unchecked {S U} debug m descs num_handles end_ d
    (Struct_Validate : S → Z → stateR BoundsChecker ValidationError)
    (Union_Validate : U → Z → bool → stateR BoundsChecker ValidationError) Union_is_null
    Struct_Encode Struct_Decode Union_Encode Union_Decode fuel p c n nb v handles :
  load32 m p = Ok nb → load32 m (p + 4) = Ok n → load32 m (p + 8) = Ok v →
  0 < n → 8 + 8 * n <= nb <= end_ - p →
  v ≠ kEncodedHandleInvalid → num_handles <= v →
  checks end_ num_handles c → 0 < p → p mod 8 = 0 → data_begin_ c <= p → end_ < 2 ^ 63 → end_ - p < 2 ^ 32 →
  deref_array descs d = Ok (mkArrayDesc INTERFACE None 0 64 false) →
  Array_Validate debug m Struct_Validate Union_Validate Union_is_null Interface_Data p
    (Some (mkArrayValidateParams 0 false None)) c =
    Ok (NONE, mkBoundsChecker (p + nb) end_ (handle_begin_ c) num_handles) ∧
  Array_DecodePointersAndHandles debug (S := S) (U := U) Struct_Decode Union_Decode
    Interface_Data p (m, handles) = Ok (tt, (m, handles)) ∧
  Array_EncodePointersAndHandles debug (S := S) (U := U) Struct_Encode Union_Encode
    Interface_Data p (m, handles) = Ok (tt, (m, handles)) ∧
  accepted MOJOM_VALIDATION_ERROR_NONE
    (MojomArray_Validate m descs (MojomType_DispatchValidate m descs fuel) d p (end_ - p) num_handles
      (ctx_of c)) = None.
Proof.
  intros Hnb Hn Hv Hn0 Hfit Hinv Hnh Hc Hp Hal Hdb He Hsz Hd.
  pose proof (load32_range _ _ _ Hn). pose proof (load32_range _ _ _ Hnb).
  assert (header_accepts m p (end_ - p) 0 (λ nb ne, nb <? u64 (8 + bits_to_bytes (u64 (8 * 8 * ne))))
    = Some nb) as Hh.
  { unfold header_accepts. rewrite Hnb, Hn, bits_to_bytes_elements by lia.
    replace (_ && _) with true; [done|]. symmetry. cbn. lia. }
  assert (c_array_header m (mkArrayDesc INTERFACE None 0 64 false) p (end_ - p) (ctx_of c) =
    Ok (MOJOM_VALIDATION_ERROR_NONE, mkContext (handle_begin_ c) (p + nb))) as HC.
  { pose proof (c_array_header_accepts m (mkArrayDesc INTERFACE None 0 64 false) p (end_ - p) (ctx_of c)) as HC.
    cbn [ad_num_elements ad_elem_num_bits] in HC. change 64 with (8 * 8) in HC at 2. rewrite Hh in HC.
    apply accepted_Some in HC. done. }
  split_and!; [|done|done|].
  - assert (agreed end_ num_handles (validate_header debug m (S := S) (U := U) Interface_Data p
      (Some (mkArrayValidateParams 0 false None)) c)
      (c_array_header m (mkArrayDesc INTERFACE None 0 64 false) p (end_ - p) (ctx_of c))) as Ha.
    { by apply header_agrees; try done; cbn; lia. }
    rewrite HC in Ha. apply agreed_inv in Ha as [(c' & Hf & [= Hh1 Hd1] & [He1 Hn1 _])|[_ ?]]; [|done].
    assert (c' = mkBoundsChecker (p + nb) end_ (handle_begin_ c) num_handles) as ->
      by (destruct c'; cbn in *; congruence).
    unfold Interface_Data in *. cbn [Array_Validate]. unfold mbind, stateR_bind.
    replace (p =? 0) with false by lia. rewrite Hf, bool_decide_true by done. unfold lift, array_num_elements. rewrite Hn. by destruct debug.
  - rewrite (MojomArray_Validate_eq _ _ _ _ _ _ _ _ _ Hd), HC by lia.
    change (negb (_ =? _)) with false. unfold c_array_elements, mbind, stateR_bind, lift, array_num_elements.
    rewrite bool_decide_false by done. rewrite Hn, seqZ_cons by lia. cbn [validate_each].
    unfold mbind, stateR_bind, lift. cbn [array_index_by_type ad_elem_type ad_elem_descriptor ad_nullable].
    unfold MOJOM_ARRAY_INDEX, sizeof_MojomArrayHeader. rewrite Z.mul_0_r, Z.add_0_r.
    destruct fuel as [|fuel]; [done|]. cbn [MojomType_DispatchValidate].
    unfold mbind, stateR_bind, c_assert, interface_handle, lift. rewrite Hv.
    replace (p + 8 =? 0) with false by lia. cbn [negb mret stateR_ret].
    unfold validate_handle, mbind, stateR_bind, get_state.
    replace (v =? kEncodedHandleInvalid) with false by lia. cbn [negb andb].
    by replace (num_handles <=? v) with true by lia.
Qed.

(** One interface, which the receiver takes for its own handle 77. *)
Definition interface_array_mem : mem := words 4096 [16; 1;  77; 0].
Definition interface_array_descs : desc_table := [DescArray (mkArrayDesc INTERFACE None 0 64 false)].

Lemma interface_arrays_unchecked_witness :
  Array_Validate true interface_array_mem (S := unit) (U := unit) (λ _ _, mret NONE) (λ _ _ _, mret NONE)
    (λ _ _, Ok false) Interface_Data 4096 (Some (mkArrayValidateParams 0 false None))
    (mkBoundsChecker 4096 4112 0 0) = Ok (NONE, mkBoundsChecker (4096 + 16) 4112 0 0) ∧
  Array_DecodePointersAndHandles true (S := unit) (U := unit) (λ _ _, mret tt) (λ _ _, mret tt)
    Interface_Data 4096 (interface_array_mem, []) = Ok (tt, (interface_array_mem, [])) ∧
  Array_EncodePointersAndHandles true (S := unit) (U := unit) (λ _ _, mret tt) (λ _ _, mret tt)
    Interface_Data 4096 (interface_array_mem, []) = Ok (tt, (interface_array_mem, [])) ∧
  accepted MOJOM_VALIDATION_ERROR_NONE
    (MojomArray_Validate interface_array_mem interface_array_descs
      (MojomType_DispatchValidate interface_array_mem interface_array_descs 2) (Some 0%nat) 4096
      (4112 - 4096) 0 (mkContext 0 4096)) = None.
Proof.
  apply (interface_arrays_unchecked true interface_array_mem interface_array_descs 0 4112 (Some 0%nat)
    _ _ _ _ _ _ _ 2 4096 (mkBoundsChecker 4096 4112 0 0) 1 16 77); try done.
Defined.

(** ** Maps *)

(** A map struct of version 1 whose keys and values are empty. *)
Definition newer_map_mem : mem := words 4096 [24; 1;  16; 0;  16; 0;  8; 0;  8; 0].
Definition newer_map_descs : desc_table :=
  [DescStruct (mkStructDesc [mkStructVersion 0 24]
     [mkStructEntry ARRAY_PTR (Some 1%nat) 0 0 false; mkStructEntry ARRAY_PTR (Some 1%nat) 8 0 false]);
   DescArray (mkArrayDesc POD None 0 32 false)].

(** The C library accepts maps of versions it does not know, as it does structs; the
    C++ bindings refuse them. *)
Lemma newer_maps_differ :
  accepted NONE (Map_Validate newer_map_mem (S := unit) (U := unit) (Pod 4)
    (Array_Validate true newer_map_mem (S := unit) (U := unit) (λ _ _, mret NONE) (λ _ _ _, mret NONE)
      (λ _ _, Ok false) (Pod 4))
    (Array_Validate true newer_map_mem (S := unit) (U := unit) (λ _ _, mret NONE) (λ _ _ _, mret NONE)
      (λ _ _, Ok false) (Pod 4))
    4096 (Some GetMapKeyValidateParamsDefault) (mkBoundsChecker 4096 4136 0 0)) = None ∧
  accepted MOJOM_VALIDATION_ERROR_NONE (MojomStruct_Validate newer_map_mem newer_map_descs
    (MojomType_DispatchValidate newer_map_mem newer_map_descs 2) (Some 0%nat) 4096 40 0
    (mkContext 0 4096)) = Some (mkContext 0 4136).
Proof. split; by vm_compute. Qed.

(** ** Structs *)

(** The C library refuses a struct whose size is not a multiple of 8; the C++
    bindings claim it, and leave it to the generated table of versions, which says
    nothing of newer versions. *)
Lemma odd_struct_refused_by_c m descs dispatch d p size num_handles x nb :
  load32 m p = Ok nb → nb mod 8 ≠ 0 →
  accepted MOJOM_VALIDATION_ERROR_NONE
    (MojomStruct_Validate m descs dispatch d p size num_handles x) = None.
Proof.
  intros Hnb Hodd. unfold MojomStruct_Validate, mbind, stateR_bind, c_assert, lift, struct_num_bytes.
  destruct (desc_nonnull d); [|done]. destruct (negb (p =? 0)); [|done]. cbn [mret stateR_ret].
  destruct (size <? _); [done|]. rewrite Hnb. destruct (size <? nb); [done|].
  destruct (deref_struct descs d) as [desc|]; [|done].
  destruct (is_valid_size_for_version m p (sd_versions desc)) as [[]|]; [|done|done].
  rewrite land_7. by replace (nb mod 8 =? 0) with false by lia.
Qed.

Lemma odd_struct_claimed_by_cpp m end_ num_handles p c nb :
  load32 m p = Ok nb → 8 <= nb <= end_ - p → checks end_ num_handles c → p mod 8 = 0 →
  data_begin_ c <= p → end_ < 2 ^ 63 →
  ValidateStructHeaderAndClaimMemory m p c =
    Ok (NONE, mkBoundsChecker (p + nb) end_ (handle_begin_ c) num_handles).
Proof.
  intros Hnb Hfit Hc Hal Hdb He. pose proof (load32_range _ _ _ Hnb).
  unfold ValidateStructHeaderAndClaimMemory, IsAligned, kAlignment, IsValidRange, ClaimMemory,
    sizeof_StructHeader, struct_num_bytes, mbind, stateR_bind, get_state, put_state, lift, mret, stateR_ret.
  rewrite Hal. cbn [negb Z.eqb]. rewrite (range_fits end_ num_handles) by (done || lia).
  replace (_ && _) with true by lia. rewrite Hnb. replace (nb <? 8) with false by lia. cbn [negb].
  rewrite (range_fits end_ num_handles) by (done || lia). replace (_ && _) with true by lia.
  destruct Hc as [-> -> ?]. cbn. by rewrite u64_small by lia.
Qed.
