(* ===== verification/CppArrayCodec.v ===== *)
(** * Decoding of arrays: the C++ bindings against the C library

    [simulates]: a decoding step of the C++ bindings does what a successful step of
    the C library does.  With the agreement of the validators this shows that the
    C++ bindings decode every array they have accepted. *)
From stdpp Require Import base list numbers option gmap.
From S2P Require Import Prelude Memory TypeDescriptor Validate Sample Codec Restores RoundTrip CppBindings CppAgrees CppArray CppArrayAgrees.

(** ** Simulation *)
Section simulates.
Context (n : nat).  (** the number of handles received *)

Definition simulates {A} (f : stateR (mem * option (list Z)) A) (g : SM A) : Prop :=
  ∀ m hs a m' o, length hs = n → f (m, Some hs) = Ok (a, (m', o)) →
    ∃ hs', o = Some hs' ∧ g (m, hs) = Ok (a, (m', hs')) ∧ length hs' = n.

Lemma sim_ret {A} (a : A) : simulates (mret a) (mret a).
Proof. intros m hs a' m' o Hn [= -> -> <-]. eauto. Qed.
Lemma sim_crash {A} e (g : SM A) : simulates (crash e) g.
Proof. done. Qed.
Lemma sim_bind {A B} f g (kf : A → stateR _ B) (kg : A → SM B) :
  simulates f g → (∀ a, simulates (kf a) (kg a)) → simulates (a ← f; kf a) (a ← g; kg a).
Proof.
  intros Hfg Hk m hs b m' o Hn. unfold mbind, stateR_bind.
  destruct (f (m, Some hs)) as [[a [m1 o1]]|] eqn:Hf; [|done]. intros Hkf.
  apply Hfg in Hf as (hs1 & -> & -> & Hn1); [|done]. by apply Hk in Hkf.
Qed.
Lemma sim_read {A} (f : mem → result A) : simulates (read f) (read f).
Proof.
  intros m hs a m' o Hn. rewrite !read_eq. destruct (f m); [|done]. intros [= -> -> <-]. eauto.
Qed.
Lemma sim_write (f : mem → result mem) : simulates (write f) (write f).
Proof.
  intros m hs a m' o Hn. rewrite !write_eq. destruct (f m); [|done]. intros [= -> -> <-]. eauto.
Qed.
Lemma sim_assert {A} b (f : stateR _ A) (g : SM A) :
  (b = true → simulates f g) → simulates (c_assert b;; f) g.
Proof. intros Hf. destruct b; [apply Hf; done|done]. Qed.
Lemma sim_lift {A B} (r : result A) (f : A → stateR _ B) (g : SM B) :
  (∀ a, r = Ok a → simulates (f a) g) → simulates (a ← lift r; f a) g.
Proof. intros Hf. destruct r as [a|]; [by apply (Hf a)|done]. Qed.
Lemma sim_get {A} (f : _ → stateR _ A) (g : SM A) :
  (∀ s, simulates (f s) g) → simulates (s ← get_state; f s) g.
Proof. intros Hf m hs a m' o Hn Hr. by apply (Hf (m, Some hs)). Qed.

Lemma sim_for_each {A} (l : list A) f g :
  (∀ x, simulates (f x) (g x)) → simulates (for_each l f) (for_each l g).
Proof. intros Hfg. induction l; cbn [for_each]; [apply sim_ret|]. by apply sim_bind. Qed.

Lemma sim_for_each_element p num f g :
  (∀ i, simulates (f i) (g i)) → simulates (for_each_element p num f) (for_each_element p num g).
Proof.
  intros Hfg. apply sim_bind; [apply sim_for_each; intros i|intros _];
    (apply sim_bind; [apply sim_read|intros k]); case_match; auto using sim_ret, sim_crash.
Qed.

Lemma sim_decode_pointer slot : simulates (decode_pointer slot) (DecodePointer slot).
Proof.
  intros m hs a m' o Hn Hd. rewrite DecodePointer_agrees. revert m hs a m' o Hn Hd.
  apply sim_bind; [apply sim_read|]. intros off. case_match; apply sim_write.
Qed.

Lemma sim_decode_handle debug slot : simulates (decode_handle slot (Z.of_nat n)) (DecodeHandle debug slot).
Proof.
  intros m hs [] m' o Hn Hd. rewrite <- Hn in Hd.
  apply DecodeHandle_agrees with (debug := debug) in Hd as (hs' & -> & Hd & Hl).
  exists hs'. by rewrite Hl.
Qed.

(** ** Arrays *)
Section arrays.
Context {S U : Type} (descs : desc_table) (debug : bool).
Context (Struct_Decode : S → Z → SM unit) (Union_Decode : U → Z → SM unit).
Implicit Types (t : element S U).

Abbreviation Decode_array := (Array_DecodePointersAndHandles debug Struct_Decode Union_Decode).
Abbreviation C_Decode fuel := (MojomType_DispatchDecodePointersAndHandles descs fuel).

Lemma sim_array t p size dispatch desc body :
  ad_elem_type desc ≠ POD → 
  (∀ i, array_index_by_type p (ad_elem_type desc) i = Ok (storage_at t p i)) →
  (∀ slot size, simulates (dispatch (ad_elem_type desc) (ad_elem_descriptor desc) (ad_nullable desc)
    slot size (Z.of_nat n)) (body slot)) →
  ∀ d, deref_array descs d = Ok desc →
  simulates (MojomArray_DecodePointersAndHandles descs dispatch d p size (Z.of_nat n))
    (each_element t p body).
Proof.
  intros Hpod Hidx Hbody d Hd. unfold MojomArray_DecodePointersAndHandles, each_element.
  apply sim_assert; intros _. apply sim_assert; intros _. apply sim_get; intros s.
  apply sim_assert; intros _. rewrite Hd. apply sim_lift; intros desc' [= <-].
  rewrite bool_decide_false by done. apply sim_bind; [apply sim_read|]. intros num.
  apply sim_for_each_element. intros i. rewrite Hidx. apply sim_lift; intros slot [= <-].
  by apply sim_assert; intros _.
Qed.

Lemma sim_pod d p size dispatch desc : deref_array descs d = Ok desc → ad_elem_type desc = POD →
  simulates (MojomArray_DecodePointersAndHandles descs dispatch d p size (Z.of_nat n)) (mret tt).
Proof.
  intros Hd Hpod. unfold MojomArray_DecodePointersAndHandles.
  apply sim_assert; intros _. apply sim_assert; intros _. apply sim_get; intros s.
  apply sim_assert; intros _. rewrite Hd. apply sim_lift; intros desc' [= <-].
  rewrite bool_decide_true by done. apply sim_ret.
Qed.

Lemma Array_Decode_simulates t : ∀ vp d fuel p size, array_described descs t vp d →
  simulates (MojomArray_DecodePointersAndHandles descs (C_Decode fuel) d p size (Z.of_nat n))
    (Decode_array t p).
Proof.
  induction t as [|sz| | |s|t IH|key _ value _|u]; intros vp d fuel p size Hd;
    cbn [array_described] in Hd; destruct Hd as (desc & Hdesc & _ & _ & _ & Hd); try done.
  - destruct Hd as (Htype & _). by apply (sim_pod _ _ _ _ desc).
  - destruct Hd as (_ & Htype & _). by apply (sim_pod _ _ _ _ desc).
  - destruct Hd as (Htype & _). cbn. apply (sim_array HandleElem p size (C_Decode fuel) desc); rewrite ?Htype; try done.
    intros slot sz. destruct fuel; cbn; [apply sim_crash|]. apply sim_assert; intros _. apply sim_decode_handle.
  - destruct Hd as (Htype & vp' & _ & Hd). cbn.
    apply (sim_array (ArrayPtr t) p size (C_Decode fuel) desc); rewrite ?Htype; try done.
    intros slot sz. destruct fuel; cbn; [apply sim_crash|]. apply sim_assert; intros _. 
    apply sim_bind; [apply sim_decode_pointer|]; intros _.
    apply sim_bind; [apply sim_read|]; intros ptr. apply sim_assert; intros _.
    destruct (ptr =? 0) eqn:Hptr; cbn [negb]; rewrite ?orb_true_r; [|by eapply IH].
    destruct (ad_nullable desc); cbn [negb orb]; [apply sim_ret|].
    unfold MojomArray_DecodePointersAndHandles. apply sim_assert; intros _. rewrite Hptr. done.
Qed.
End arrays.
End simulates.

(** ** Descriptors of C++ arrays *)

(** The types and parameters of which the C library has an exact counterpart. *)
Fixpoint plain {S U} (t : element S U) (vp : ArrayValidateParams) : bool :=
  let no_params := bool_decide (element_validate_params vp = None) in
  match t with
  | Char => negb (element_is_nullable vp) && no_params
  | Pod size => (1 <=? size) && (size <=? 8) && negb (element_is_nullable vp) && no_params
  | HandleElem => no_params
  | ArrayPtr t' => match element_validate_params vp with Some vp' => plain t' vp' | None => false end
  | Bool | StructPtr _ | MapPtr _ _ | Union _ => false
  end.

(** That counterpart: the table of the descriptors of [Array_Data<t>], its own last. *)
Fixpoint describe {S U} (t : element S U) (vp : ArrayValidateParams) : desc_table :=
  let desc type d := DescArray (mkArrayDesc type d (expected_num_elements vp)
    (8 * sizeof_StorageType t) (element_is_nullable vp)) in
  match t, element_validate_params vp with
  | ArrayPtr t', Some vp' =>
      describe t' vp' ++ [desc ARRAY_PTR (Some (pred (length (describe t' vp'))))]
  | HandleElem, _ => [desc HANDLE None]
  | _, _ => [desc POD None]
  end.
Definition described_by {S U} (t : element S U) (vp : ArrayValidateParams) : desc_ptr :=
  Some (pred (length (describe t vp))).

Lemma describe_described {S U} (t : element S U) : ∀ vp rest, plain t vp = true →
  array_described (describe t vp ++ rest) t vp (described_by t vp).
Proof.
  induction t as [|sz| | |s|t IH|key _ value _|u]; intros vp rest Hp; cbn [plain] in Hp; try done.
  all: cbn [array_described]; rewrite ?andb_true_iff, ?negb_true_iff in Hp.
  - destruct Hp as [Hn Hq%bool_decide_eq_true]. eexists. by split_and!.
  - destruct Hp as [[[? ?] Hn] Hq%bool_decide_eq_true]. eexists. split_and!; try done; lia.
  - apply bool_decide_eq_true in Hp. eexists. by split_and!.
  - unfold described_by. cbn [describe]. destruct (element_validate_params vp) as [vp'|] eqn:Hq; [|done].
    eexists. split.
    { unfold deref_array, mbind, option_bind, desc_table. rewrite length_app, Nat.add_1_r, <- app_assoc.
      cbn [Nat.pred]. rewrite lookup_app_r by lia. by rewrite Nat.sub_diag. }
    split_and!; try done. exists vp'. split; [done|]. rewrite <- app_assoc. by apply IH.
Qed.

Lemma describe_wf {S U} (t : element S U) : ∀ vp rest, plain t vp = true →
  forallb (wf_desc (describe t vp ++ rest)) (describe t vp) = true.
Proof.
  induction t as [|sz| | |s|t IH|key _ value _|u]; intros vp rest Hp; cbn [plain] in Hp; try done.
  - cbn. rewrite !andb_true_iff in Hp. unfold wf_array. cbn. lia.
  - cbn [describe]. destruct (element_validate_params vp) as [vp'|] eqn:Hq; [|done].
    rewrite forallb_app, <- app_assoc, IH by done. cbn [forallb wf_desc].
    unfold wf_array. cbn [ad_elem_type ad_elem_descriptor ad_elem_num_bits wf_elem sizeof_StorageType].
    match goal with |- context [deref_array (describe t vp' ++ ?rest')] =>
      pose proof (describe_described t vp' rest' Hp) as Hd end.
    apply array_described_inv in Hd as (desc & Hd & _). unfold described_by in Hd. by rewrite Hd.
Qed.

Lemma describe_layout {S U} (t : element S U) : ∀ vp, wf_layout (describe t vp) = true.
Proof.
  unfold wf_layout. induction t as [|sz| | |s|t IH|key _ value _|u]; intros vp; try done.
  cbn [describe]. destruct (element_validate_params vp); [|done]. by rewrite forallb_app, IH.
Qed.

(** ** What is accepted decodes *)

(** C18: Every array of numbers, strings, handles or such arrays that the C++ bindings
    accept, they decode as the C library does: no check fails, not even in a debug
    build, memory and handles are afterwards what the C library makes of them, no byte
    outside the memory claimed in validation changes, and no handle is taken but
    those claimed. *)
Theorem Array_Decode_validated {S U} debug debug' m handles
    (Struct_Validate : S → Z → stateR BoundsChecker ValidationError)
    (Union_Validate : U → Z → bool → stateR BoundsChecker ValidationError) Union_is_null
    Struct_Decode Union_Decode (t : element S U) vp p c c' :
  plain t vp = true →
  Forall (λ h, 0 < h < 2 ^ 32) handles → checks (data_end_ c) (Z.of_nat (length handles)) c →
  Z.of_nat (length handles) < 2 ^ 32 → 0 <= handle_begin_ c →
  0 < p → p mod 8 = 0 → data_begin_ c <= p <= data_end_ c → data_end_ c - p < 2 ^ 32 →
  data_end_ c < 2 ^ 63 →
  Array_Validate debug m Struct_Validate Union_Validate Union_is_null t p (Some vp) c = Ok (NONE, c') →
  ∃ m' handles', Array_DecodePointersAndHandles debug' Struct_Decode Union_Decode t p (m, handles) =
      Ok (tt, (m', handles')) ∧
    MojomArray_DecodePointersAndHandles (describe t vp)
      (MojomType_DispatchDecodePointersAndHandles (describe t vp) (depth t)) (described_by t vp) p
      (data_end_ c - p) (Z.of_nat (length handles)) (m, Some handles) = Ok (tt, (m', Some handles')) ∧
    agree_on (outside (range p (data_begin_ c'))) m m' ∧
    length handles' = length handles ∧
    ∀ i, 0 <= i → ¬ (handle_begin_ c <= i < handle_begin_ c') →
      handles' !! Z.to_nat i = handles !! Z.to_nat i.
Proof.
  intros Hp HH Hc Hnh Hhb H0 Hal Hpe Hsz Hend Hv.
  pose proof (describe_described t vp [] Hp) as Hd. pose proof (describe_wf t vp [] Hp) as Hwf.
  rewrite app_nil_r in Hd, Hwf.
  pose proof (Array_Validate_runs m (describe t vp) (data_end_ c) (Z.of_nat (length handles)) debug
    Struct_Validate Union_Validate Union_is_null ltac:(lia) ltac:(lia) t vp (described_by t vp)
    (depth t) Hd ltac:(done)) as Hruns.
  destruct (ra_ok _ _ _ _ Hruns p c (ctx_of c) Hc H0 Hal Hpe Hsz eq_refl) as [Hagree _].
  rewrite Hv in Hagree. cbn in Hagree. symmetry in Hagree.
  apply accepted_Some in Hagree.
  pose proof (array_described_inv _ _ _ _ Hd) as (desc & Hdesc & _).
  pose proof (Dispatch_restoring m handles HH Hnh (describe t vp) Hwf (describe_layout t vp) p (data_end_ c)
    H0 Hsz ltac:(lia) (depth t)) as Hdisp.
  destruct (MojomArray_restores m handles (describe t vp) Hwf (describe_layout t vp) p (data_end_ c)
    H0 Hsz ltac:(lia) _ _ _ _ _ p (ctx_of c) _ Hdesc ltac:(lia) Hhb Hagree) as (_ & _ & k & _ & _ & Hr).
  destruct (Hr m handles) as (m' & hs' & Hdec & Hout & Hlen & Hrest & _); [done..|].
  pose proof Hdec as Hcpp.
  eapply (Array_Decode_simulates (length handles) (describe t vp) debug' Struct_Decode Union_Decode t) in Hcpp
    as (? & [= <-] & Hcpp & _); [|done|done].
  eauto 10.
Qed.

Lemma Array_Decode_validated_witness : ∃ m' handles',
  Array_DecodePointersAndHandles true (U := unit) (λ (_ : unit) _, mret tt) (λ _ _, mret tt)
    (ArrayPtr HandleElem) 4096 (handle_arrays_mem, [71; 72]) = Ok (tt, (m', handles')) ∧
  MojomArray_DecodePointersAndHandles (describe (U := unit) (S := unit) (ArrayPtr HandleElem) handle_arrays_params)
    (MojomType_DispatchDecodePointersAndHandles
      (describe (U := unit) (S := unit) (ArrayPtr HandleElem) handle_arrays_params) 2)
    (Some 1%nat) 4096 (4152 - 4096) 2 (handle_arrays_mem, Some [71; 72]) = Ok (tt, (m', Some handles')) ∧
  agree_on (outside (range 4096 4148)) handle_arrays_mem m' ∧ length handles' = 2%nat ∧
  ∀ i, 0 <= i → ¬ (0 <= i < 2) → handles' !! Z.to_nat i = [71; 72] !! Z.to_nat i.
Proof.
  apply (Array_Decode_validated true true handle_arrays_mem [71; 72] (U := unit)
    (λ (_ : unit) _, mret NONE) (λ _ _ _, mret NONE) (λ _ _, Ok false) _ _ (ArrayPtr HandleElem)
    handle_arrays_params 4096 (mkBoundsChecker 4096 4152 0 2) (mkBoundsChecker 4148 4152 2 2)).
  all: try done. repeat constructor.
Defined.
