(* ===== verification/CppMap.v ===== *)
(** * Maps of the C++ bindings

    [Map<Key, Value>] (map.h) and [MapTraits] (map_internal.h), a nullable wrapper of
    [std::map].  The entries of a [std::map] are a list in the order of its keys;
    [less] is the [<] of the type of the keys. *)
From stdpp Require Import base list numbers option sorting.
From S2P Require Import Prelude.

Record Map (K V : Type) : Type := mkMap { map_ : list (K * V); is_null_ : bool }.
Arguments mkMap {_ _} _ _.
Arguments map_ {_ _} _.
Arguments is_null_ {_ _} _.

(** ** [std::map] *)
Section std_map.
Context {K V : Type} (less : K → K → bool).

(** [insert], which keeps an entry that is there. *)
Fixpoint std_insert (key : K) (value : V) (m : list (K * V)) : list (K * V) :=
  match m with
  | [] => [(key, value)]
  | (k, v) :: m' =>
      if less key k then (key, value) :: m
      else if less k key then (k, v) :: std_insert key value m'
      else m
  end.

Fixpoint std_find (key : K) (m : list (K * V)) : option V :=
  match m with
  | [] => None
  | (k, v) :: m => if negb (less key k) && negb (less k key) then Some v else std_find key m
  end.

(** ** [Map] *)
Definition Map_default : Map K V := mkMap [] true.
Definition Map_reset (m : Map K V) : Map K V := mkMap [] true.
Definition Map_mark_non_null (m : Map K V) : Map K V := mkMap (map_ m) false.
Definition Map_size (m : Map K V) : Z := Z.of_nat (length (map_ m)).

(** [insert], by [MapTraits::Insert] *)
Definition Map_insert (key : K) (value : V) (m : Map K V) : Map K V :=
  mkMap (std_insert key value (map_ m)) false.

(** [Map(keys, values)], of arrays that may be null, which then have no elements;
    [vector::at] ends the process where [values] is too short. *)
Fixpoint insert_all (keys : list K) (values : list V) (m : list (K * V)) : result (list (K * V)) :=
  match keys, values with
  | [], _ => Ok m
  | key :: keys, value :: values => insert_all keys values (std_insert key value m)
  | _ :: _, [] => Crash AssertFailed
  end.
Definition Map_of (debug : bool) (keys : option (list K)) (values : option (list V)) : result (Map K V) :=
  let keys := default [] keys in
  let values := default [] values in
  (if debug then c_assertR (Nat.eqb (length keys) (length values)) else Ok tt);;
  m ← insert_all keys values [];
  Ok (mkMap m false).

(** [at] ends the process where there is no entry. *)
Definition Map_at (key : K) (m : Map K V) : result V :=
  match std_find key (map_ m) with Some v => Ok v | None => Crash AssertFailed end.

(** [operator[]]: the value the reference is to, and the map; [fresh] is a
    value-initialized [Value]. *)
Definition Map_index (fresh : V) (key : K) (m : Map K V) : V * Map K V :=
  let m' := std_insert key fresh (map_ m) in
  (default fresh (std_find key m'), mkMap m' false).

Definition Map_Swap (m other : Map K V) : Map K V * Map K V :=
  (mkMap (map_ other) (is_null_ other), mkMap (map_ m) (is_null_ m)).
Definition Map_Swap_std (m : Map K V) (other : list (K * V)) : Map K V * list (K * V) :=
  (mkMap other false, map_ m).
(** [Take], by which maps are moved *)
Definition Map_Take (m other : Map K V) : Map K V * Map K V := Map_Swap (Map_reset m) other.

(** [Clone], by [MapTraits::Clone]; [clone] is that of move-only values, and copies
    others. *)
Definition Map_Clone (clone : V → V) (m : Map K V) : Map K V :=
  mkMap (foldl (λ dst '(k, v), std_insert k (clone v) dst) [] (map_ m)) (is_null_ m).

(** [Equals], given the [!=] of keys and [ValueTraits<Value>::Equals] *)
Fixpoint equal_entries (key_ne : K → K → bool) (value_equals : V → V → bool) (i j : list (K * V)) : bool :=
  match i, j with
  | (k, v) :: i, (k', v') :: j =>
      if key_ne k k' then false
      else if negb (value_equals v v') then false
      else equal_entries key_ne value_equals i j
  | _, _ => true
  end.
Definition Map_Equals (key_ne : K → K → bool) (value_equals : V → V → bool) (m other : Map K V) : bool :=
  if negb (Bool.eqb (is_null_ m) (is_null_ other)) then false
  else if negb (Map_size m =? Map_size other) then false
  else equal_entries key_ne value_equals (map_ m) (map_ other).

(** ** [TypeConverter] *)
Definition Map_From {A B} (convert_key : A → K) (convert_value : B → V) (input : list (A * B)) : Map K V :=
  foldl (λ m '(a, b), Map_insert (convert_key a) (convert_value b) m) (Map_mark_non_null Map_default) input.
End std_map.

Definition Map_To {K V A B} (less : A → A → bool) (convert_key : K → A) (convert_value : V → B) (m : Map K V)
    : list (A * B) :=
  if is_null_ m then []
  else foldl (λ r '(k, v), std_insert less (convert_key k) (convert_value v) r) [] (map_ m).

(** ** Keys of the wire *)

(** [operator<] of [String], null strings first; [std::string] compares bytes as
    unsigned numbers. *)
Fixpoint bytes_less (a b : list Z) : bool :=
  match a, b with
  | _, [] => false
  | [], _ :: _ => true
  | x :: a, y :: b => if x <? y then true else if y <? x then false else bytes_less a b
  end.
Definition String_less (a b : option (list Z)) : bool :=
  match a, b with
  | None, b => bool_decide (is_Some b)
  | Some _, None => false
  | Some a, Some b => bytes_less a b
  end.
Definition bool_less (a b : bool) : bool := negb a && b.

(** ** Orders *)

(** [less] orders the keys that satisfy [P]. *)
Record less_ok {K} (P : K → Prop) (less : K → K → bool) : Prop := {
  less_irrefl : ∀ x, P x → less x x = false;
  less_trans : ∀ x y z, P x → P y → P z → less x y = true → less y z = true → less x z = true;
  less_total : ∀ x y, P x → P y → less x y = false → less y x = false → x = y;
}.

Lemma bool_less_ok : less_ok (λ _, True) bool_less.
Proof. split; [by intros []|by intros [] [] []|by intros [] []]. Qed.

Lemma bytes_less_ok : less_ok (λ _, True) bytes_less.
Proof.
  split.
  - intros x _. induction x as [|a x IH]; [done|]. cbn. by rewrite Z.ltb_irrefl.
  - intros x y z _ _ _. revert y z. induction x as [|a x IH]; intros [|b y] [|c z]; cbn; try done.
    intros Hxy Hyz. destruct (a <? b) eqn:?, (b <? a) eqn:?, (b <? c) eqn:?, (c <? b) eqn:?,
      (a <? c) eqn:?, (c <? a) eqn:?; try done; try lia. by eapply IH.
  - intros x y _ _. revert y. induction x as [|a x IH]; intros [|b y]; cbn; try done.
    intros Hxy Hyx. destruct (a <? b) eqn:?, (b <? a) eqn:?; try done.
    f_equal; [lia|by apply IH].
Qed.

Lemma String_less_ok : less_ok (λ _, True) String_less.
Proof.
  pose proof bytes_less_ok as [H1 H2 H3]. split.
  - intros [x|] _; [by apply H1|done].
  - intros [x|] [y|] [z|] _ _ _; cbn; try done. by apply H2.
  - intros [x|] [y|] _ _; cbn; try done. intros. f_equal. by apply H3.
Qed.

(** ** Maps are in order and hold a key once *)
Section order.
Context {K V : Type} (P : K → Prop) (less : K → K → bool) (Hless : less_ok P less).
Implicit Types (m : list (K * V)).

Definition entries_ok m : Prop :=
  Forall (λ e, P e.1) m ∧ StronglySorted (λ a b, less a.1 b.1 = true) m.
(** The invariant of [Map]: null maps are empty. *)
Definition Map_ok (m : Map K V) : Prop := entries_ok (map_ m) ∧ (is_null_ m = true → map_ m = []).

Lemma entries_ok_cons e m : entries_ok (e :: m) ↔
  P e.1 ∧ Forall (λ e', less e.1 e'.1 = true) m ∧ entries_ok m.
Proof.
  unfold entries_ok. rewrite Forall_cons. split.
  - intros [[He Hm] Hs]. apply StronglySorted_inv in Hs as [Hs Hlt]. auto.
  - intros (He & Hlt & Hm & Hs). split; [done|]. by constructor.
Qed.

Lemma std_insert_elem k v m e : e ∈ std_insert less k v m → e = (k, v) ∨ e ∈ m.
Proof.
  induction m as [|[k' v'] m IH]; cbn [std_insert].
  - intros H%list_elem_of_singleton. by left.
  - destruct (less k k'); [by intros H%elem_of_cons|]. destruct (less k' k); [|by right].
    intros [->|He]%elem_of_cons; [right; by left|]. destruct (IH He); [by left|right; by right].
Qed.

Lemma std_insert_ok k v m : P k → entries_ok m → entries_ok (std_insert less k v m).
Proof.
  intros Hk. induction m as [|[k' v'] m IH]; intros Hm; cbn [std_insert].
  { apply entries_ok_cons. by split_and!. }
  pose proof Hm as (Hk' & Hlt & Hm')%entries_ok_cons. cbn [fst] in *.
  destruct (less k k') eqn:E1; [|destruct (less k' k) eqn:E2; [|done]]; apply entries_ok_cons.
  - split_and!; [done| |done]. constructor; [done|]. apply Forall_forall. intros e He.
    pose proof (proj1 (Forall_forall _ _) Hlt e He). destruct Hm as [Hall _].
    apply Forall_cons in Hall as [_ Hall]. pose proof (proj1 (Forall_forall _ _) Hall e He).
    by eapply (less_trans _ _ Hless _ k').
  - split_and!; [done| |by apply IH]. apply Forall_forall. intros e He.
    apply std_insert_elem in He as [->|He]; [done|]. by apply (proj1 (Forall_forall _ _) Hlt).
Qed.

(** Nothing before the first key of an ordered list is in it. *)
Lemma std_find_before k m : P k → entries_ok m → Forall (λ e, less k e.1 = true) m → std_find less k m = None.
Proof.
  intros Hk Hm Hlt. induction m as [|[k' v'] m IH]; [done|]. cbn [std_find].
  apply entries_ok_cons in Hm as (_ & _ & Hm). apply Forall_cons in Hlt as [Hl Hlt]. cbn [fst] in Hl.
  rewrite Hl. by apply IH.
Qed.

Lemma std_find_insert k v m k' : P k → P k' → entries_ok m →
  std_find less k' (std_insert less k v m) =
  match std_find less k' m with
  | Some v' => Some v'
  | None => if negb (less k' k) && negb (less k k') then Some v else None
  end.
Proof.
  intros Hk Hk' Hm. induction m as [|[k0 v0] m IH]; cbn [std_insert].
  { cbn [std_find]. done. }
  pose proof Hm as (Hk0 & Hlt & Hm')%entries_ok_cons. cbn [fst] in *. specialize (IH Hm').
  destruct (less k k0) eqn:E1; [|destruct (less k0 k) eqn:E2].
  - cbn [std_find]. destruct (less k' k) eqn:E3, (less k k') eqn:E4; cbn [negb andb];
      [by destruct (negb (less k' k0) && negb (less k0 k')), (std_find less k' m)..|].
    pose proof (less_total _ _ Hless k' k Hk' Hk E3 E4) as ->. rewrite E1. cbn [negb andb].
    rewrite std_find_before; [done|done|done|].
    eapply Forall_impl; [apply Forall_and; split; [exact Hlt|apply Hm']|]. intros e [He HP].
    by eapply (less_trans _ _ Hless _ k0).
  - cbn [std_find]. destruct (negb (less k' k0) && negb (less k0 k')); [done|exact IH].
  - pose proof (less_total _ _ Hless k k0 Hk Hk0 E1 E2) as ->. cbn [std_find].
    destruct (negb (less k' k0) && negb (less k0 k')); [done|by destruct (std_find less k' m)].
Qed.

Lemma std_find_head k v m : P k → std_find less k ((k, v) :: m) = Some v.
Proof. intros Hk. cbn [std_find]. by rewrite (less_irrefl _ _ Hless). Qed.

Lemma std_find_tail k v m k' : P k → P k' → k' ≠ k → std_find less k' ((k, v) :: m) = std_find less k' m.
Proof.
  intros Hk Hk' Hne. cbn [std_find]. destruct (less k' k) eqn:E1; [done|].
  destruct (less k k') eqn:E2; [done|]. by destruct (Hne (less_total _ _ Hless _ _ Hk' Hk E1 E2)).
Qed.

Lemma less_all k k' m : P k → P k' → less k k' = true → Forall (λ e, P e.1) m →
  Forall (λ e, less k' e.1 = true) m → Forall (λ e, less k e.1 = true) m.
Proof.
  intros Hk Hk' Hl HP Hm. rewrite Forall_forall in HP, Hm. apply Forall_forall. intros e He.
  eapply (less_trans _ _ Hless _ k'); auto.
Qed.

(** Entries in order are determined by what is found. *)
Lemma entries_ext m : ∀ m', entries_ok m → entries_ok m' →
  (∀ k, P k → std_find less k m = std_find less k m') → m = m'.
Proof.
  induction m as [|[k v] m IH]; intros [|[k' v'] m'] Hm Hm' Hfind; [done|..].
  - apply entries_ok_cons in Hm' as [Hk' _]. specialize (Hfind k' Hk'). by rewrite std_find_head in Hfind.
  - apply entries_ok_cons in Hm as [Hk _]. specialize (Hfind k Hk). by rewrite std_find_head in Hfind.
  - pose proof Hm as (Hk & Hlt & Hm2)%entries_ok_cons. pose proof Hm' as (Hk' & Hlt' & Hm2')%entries_ok_cons.
    cbn [fst] in *. assert (k = k') as <-.
    { apply (less_total _ _ Hless); [done|done|apply not_true_is_false; intros Hl..].
      - specialize (Hfind k Hk). rewrite std_find_head in Hfind by done.
        rewrite std_find_before in Hfind; [done|done|done|]. constructor; [done|].
        apply (less_all k k'); [done|done|done|apply Hm2'|done].
      - specialize (Hfind k' Hk'). rewrite (std_find_head k') in Hfind by done.
        rewrite std_find_before in Hfind; [done|done|done|]. constructor; [done|].
        apply (less_all k' k); [done|done|done|apply Hm2|done]. }
    pose proof (Hfind k Hk) as Hv. rewrite !std_find_head in Hv by done. injection Hv as <-. f_equal.
    apply IH; [done|done|]. intros k2 Hk2. destruct (less k2 k) eqn:E1.
    + by rewrite !std_find_before by (done || by apply (less_all k2 k); [..|apply Hm2 || apply Hm2'|]).
    + destruct (less k k2) eqn:E2.
      * specialize (Hfind k2 Hk2). rewrite !std_find_tail in Hfind; [done|done|done| |done|done|];
          intros ->; by rewrite (less_irrefl _ _ Hless) in E2.
      * pose proof (less_total _ _ Hless _ _ Hk2 Hk E1 E2) as ->. by rewrite !std_find_before.
Qed.

(** Inserting keys in their order gives the list of the entries. *)
Lemma std_insert_last k v m : Forall (λ e, less e.1 k = true) m → entries_ok m → P k →
  std_insert less k v m = m ++ [(k, v)].
Proof.
  induction m as [|[k' v'] m IH]; intros Hlt Hm Hk; [done|]. cbn [std_insert app].
  apply Forall_cons in Hlt as [Hl Hlt]. apply entries_ok_cons in Hm as (Hk' & _ & Hm). cbn [fst] in *.
  destruct (less k k') eqn:E.
  - pose proof (less_trans _ _ Hless k k' k Hk Hk' Hk E Hl) as Hc. by rewrite (less_irrefl _ _ Hless) in Hc.
  - rewrite Hl. f_equal. by apply IH.
Qed.

Lemma entries_ok_app m1 m2 : entries_ok (m1 ++ m2) →
  entries_ok m1 ∧ entries_ok m2 ∧ ∀ e e', e ∈ m1 → e' ∈ m2 → less e.1 e'.1 = true.
Proof.
  induction m1 as [|e m1 IH]; cbn [app].
  - intros H. split_and!; [by split; constructor|done|]. by intros ? ? []%not_elem_of_nil.
  - intros (He & Hlt & (H1 & H2 & H3)%IH)%entries_ok_cons. apply Forall_app in Hlt as [Hl1 Hl2].
    split_and!; [by apply entries_ok_cons|done|].
    intros e1 e2 [->|Hin]%elem_of_cons Hin2; [|by apply H3]. by apply (proj1 (Forall_forall _ _) Hl2).
Qed.

Lemma insert_all_sorted m2 : ∀ m1, entries_ok (m1 ++ m2) →
  insert_all less (map fst m2) (map snd m2) m1 = Ok (m1 ++ m2).
Proof.
  induction m2 as [|[k v] m2 IH]; intros m1 Hm; cbn [map insert_all fst snd].
  { by rewrite app_nil_r. }
  pose proof (entries_ok_app _ _ Hm) as (H1 & (Hk & _ & _)%entries_ok_cons & Hlt).
  rewrite std_insert_last; [|apply Forall_forall; intros e He; by apply (Hlt e (k, v) He), list_elem_of_here|done|done].
  rewrite IH; by rewrite <- app_assoc.
Qed.

Lemma Map_of_entries debug m : entries_ok m →
  Map_of less debug (Some (map fst m)) (Some (map snd m)) = Ok (mkMap m false).
Proof.
  intros Hm. unfold Map_of. cbn [from_option id]. rewrite !length_map, Nat.eqb_refl.
  rewrite (insert_all_sorted m []) by done. by destruct debug.
Qed.

(** ** The invariant *)
Lemma entries_ok_nil : entries_ok [].
Proof. split; constructor. Qed.

Lemma Map_default_ok : Map_ok Map_default.
Proof. split; [apply entries_ok_nil|done]. Qed.

Lemma Map_insert_ok k v (M : Map K V) : P k → Map_ok M → Map_ok (Map_insert less k v M).
Proof. intros Hk [Hm _]. split; [by apply std_insert_ok|done]. Qed.

Lemma Map_index_ok fresh k (M : Map K V) : P k → Map_ok M → Map_ok (Map_index less fresh k M).2.
Proof. intros Hk [Hm _]. split; [by apply std_insert_ok|done]. Qed.

Lemma insert_all_ok keys : ∀ (values : list V) m m', Forall P keys → entries_ok m →
  insert_all less keys values m = Ok m' → entries_ok m'.
Proof.
  induction keys as [|k keys IH]; intros [|v values] m m' Hk Hm; cbn [insert_all]; try by intros [= <-].
  apply Forall_cons in Hk as [Hk Hks]. by apply IH, std_insert_ok.
Qed.

Lemma Map_of_ok debug keys values (M : Map K V) : Forall P (default [] keys) →
  Map_of less debug keys values = Ok M → Map_ok M.
Proof.
  intros Hk HM. assert (∃ m, insert_all less (default [] keys) (default [] values) [] = Ok m ∧
    M = mkMap m false) as (m & E & ->).
  { unfold Map_of in HM. destruct (if debug then _ else _); [|done]. unfold mbind, result_bind in HM.
    destruct (insert_all _ _ _ _) as [m|] eqn:E; [|done]. injection HM as <-. by exists m. }
  split; [by eapply insert_all_ok, E; [|apply entries_ok_nil]|done].
Qed.

(** ** Copies *)
Lemma entries_ok_keys {W} m (m' : list (K * W)) : map fst m' = map fst m → entries_ok m →
  Forall (λ e, P e.1) m' ∧ StronglySorted (λ a b, less a.1 b.1 = true) m'.
Proof.
  revert m'. induction m as [|e m IH]; intros [|e' m']; cbn [map]; try done.
  { intros _ _. split; constructor. }
  intros [= He Hk] (HP & Hlt & Hm)%entries_ok_cons. destruct (IH m' Hk Hm) as [H1 H2].
  split; constructor; try done; [by rewrite He|]. rewrite He.
  apply (Forall_map fst (λ k, less e.1 k = true)). rewrite Hk. by apply Forall_map.
Qed.

Lemma fold_insert_sorted (f : V → V) m2 : ∀ m1, entries_ok (m1 ++ m2) →
  foldl (λ dst '(k, v), std_insert less k (f v) dst) m1 m2 = m1 ++ map (λ '(k, v), (k, f v)) m2.
Proof.
  induction m2 as [|[k v] m2 IH]; intros m1 Hm; cbn [map foldl]; [by rewrite app_nil_r|].
  pose proof (entries_ok_app _ _ Hm) as (H1 & (Hk & _ & _)%entries_ok_cons & Hlt).
  rewrite std_insert_last; [|apply Forall_forall; intros e He; by apply (Hlt e (k, v) He), list_elem_of_here|done|done].
  rewrite IH; [by rewrite <- app_assoc|]. rewrite <- app_assoc. cbn [app].
  eapply entries_ok_keys; [|exact Hm]. by rewrite !map_app.
Qed.

Lemma Map_Clone_eq clone (M : Map K V) : Map_ok M →
  Map_Clone less clone M = mkMap (map (λ '(k, v), (k, clone v)) (map_ M)) (is_null_ M).
Proof. intros [Hm _]. unfold Map_Clone. by rewrite (fold_insert_sorted clone _ []). Qed.

(** ** [Equals] *)
Lemma equal_entries_spec key_ne value_equals m : ∀ m',
  (∀ k k', key_ne k k' = false ↔ k = k') → (∀ v v', value_equals v v' = true ↔ v = v') →
  length m = length m' → equal_entries key_ne value_equals m m' = true ↔ m = m'.
Proof.
  induction m as [|[k v] m IH]; intros [|[k' v'] m'] Hkey Hval Hlen; try done. cbn [equal_entries].
  injection Hlen as Hlen. destruct (key_ne k k') eqn:E.
  - split; [done|]. intros [= -> _ _]. pose proof (proj2 (Hkey k' k') eq_refl). congruence.
  - apply Hkey in E as ->. destruct (value_equals v v') eqn:E; cbn [negb].
    + apply Hval in E as ->. rewrite IH by done. split; [by intros ->|by intros [= ->]].
    + split; [done|]. intros [= -> _]. pose proof (proj2 (Hval v' v') eq_refl). congruence.
Qed.

Lemma Map_Equals_spec key_ne value_equals (M M' : Map K V) :
  (∀ k k', key_ne k k' = false ↔ k = k') → (∀ v v', value_equals v v' = true ↔ v = v') →
  Map_Equals key_ne value_equals M M' = true ↔ M = M'.
Proof.
  intros Hkey Hval. destruct M as [m n], M' as [m' n']. unfold Map_Equals, Map_size. cbn [map_ is_null_].
  destruct (Bool.eqb n n') eqn:En; cbn [negb].
  2: { split; [done|]. intros [= _ ->]. by rewrite eqb_reflx in En. }
  apply eqb_prop in En as ->. destruct (Z.eqb_spec (Z.of_nat (length m)) (Z.of_nat (length m'))); cbn [negb].
  - rewrite equal_entries_spec by (done || lia). split; [by intros ->|by intros [= ->]].
  - split; [done|]. by intros [= ->].
Qed.

(** ** The first entry of a key counts *)
Context `{EqDecision K}.

Fixpoint first_binding (k : K) m : option V :=
  match m with [] => None | (k', v) :: m => if decide (k = k') then Some v else first_binding k m end.

Lemma same_key k k' : P k → P k' → negb (less k k') && negb (less k' k) = bool_decide (k = k').
Proof using Hless.
  intros Hk Hk'. destruct (decide (k = k')) as [->|Hne].
  - by rewrite bool_decide_true, (less_irrefl _ _ Hless).
  - rewrite bool_decide_false by done. destruct (less k k') eqn:E1; [done|].
    destruct (less k' k) eqn:E2; [done|]. by destruct (Hne (less_total _ _ Hless k k' Hk Hk' E1 E2)).
Qed.

Lemma insert_all_find keys : ∀ values m, Forall P keys → length keys = length values → entries_ok m →
  ∃ m', insert_all less keys values m = Ok m' ∧ entries_ok m' ∧ ∀ k, P k →
    std_find less k m' =
    match std_find less k m with Some v => Some v | None => first_binding k (zip keys values) end.
Proof using Hless.
  induction keys as [|key keys IH]; intros [|v values] m HP Hlen Hm; try done.
  { exists m. split_and!; [done|done|]. intros k _. by destruct (std_find less k m). }
  apply Forall_cons in HP as [Hkey HP]. injection Hlen as Hlen.
  destruct (IH values (std_insert less key v m) HP Hlen) as (m' & E & Hm' & Hfind); [by apply std_insert_ok|].
  exists m'. split_and!; [done|done|]. intros k Hk. rewrite Hfind, std_find_insert by done.
  destruct (std_find less k m); [done|]. rewrite same_key by done. cbn [zip zip_with first_binding].
  destruct (decide (k = key)); [by rewrite bool_decide_true|by rewrite bool_decide_false].
Qed.
End order.

(** A map built of as many values as keys, as a received map is, keeps for each key
    the first value that comes with it and drops the others; its entries are in the
    order of their keys, each key once, it is not null, and no other map is like that. *)
Theorem Map_of_keeps_first {K V} `{EqDecision K} (P : K → Prop) (less : K → K → bool) debug
    (keys : list K) (values : list V) :
  less_ok P less → Forall P keys → length keys = length values →
  ∃ M, Map_of less debug (Some keys) (Some values) = Ok M ∧
    Map_ok P less M ∧ is_null_ M = false ∧
    (∀ k, P k → std_find less k (map_ M) = first_binding k (zip keys values)) ∧
    ∀ M', Map_ok P less M' → is_null_ M' = false →
      (∀ k, P k → std_find less k (map_ M') = first_binding k (zip keys values)) → M' = M.
Proof.
  intros Hless HP Hlen.
  destruct (insert_all_find P less Hless keys values [] HP Hlen (entries_ok_nil _ _)) as (m & E & Hm & Hfind).
  exists (mkMap m false). split_and!; [|by split|done|exact Hfind|].
  - unfold Map_of. cbn [from_option id]. rewrite Hlen, Nat.eqb_refl, E. by destruct debug.
  - intros [m' n'] [Hm' _] Hn' Hfind'. cbn [map_ is_null_] in *. subst n'. f_equal.
    apply (entries_ext P less Hless); [done|done|]. intros k Hk. by rewrite Hfind', Hfind.
Qed.

Lemma Map_of_keeps_first_witness :
  ∃ M, Map_of String_less true (Some [Some [98]; Some [97]; Some [98]]) (Some [1; 2; 3]) = Ok M ∧
    Map_ok (λ _, True) String_less M ∧ is_null_ M = false ∧
    (∀ k, True → std_find String_less k (map_ M) =
      first_binding k (zip [Some [98]; Some [97]; Some [98]] [1; 2; 3])) ∧
    ∀ M', Map_ok (λ _, True) String_less M' → is_null_ M' = false →
      (∀ k, True → std_find String_less k (map_ M') =
        first_binding k (zip [Some [98]; Some [97]; Some [98]] [1; 2; 3])) → M' = M.
Proof.
  apply (Map_of_keeps_first (λ _, True) String_less true); [apply String_less_ok|by repeat constructor|done].
Defined.
