(* ===== verification/CppWrappers.v ===== *)
(** * Arrays, strings and pointers to structs of the C++ bindings

    The nullable wrappers an application holds its data in: [Array<T>] (array.h, with
    [ArrayTraits] of array_internal.h), [String] (string.h), [StructPtr] and
    [InlinedStructPtr] (struct_ptr.h).  A [std::vector] and a [std::string] are lists; the
    [std::unique_ptr] of a [StructPtr] is the struct it owns, if there is one.  [at] ends
    the process where it is out of range ([AssertFailed]). *)
From stdpp Require Import base list numbers option.
From S2P Require Import Prelude CppMap.

(** [MOJO_DCHECK], which is compiled in debug builds *)
Definition dcheck (debug b : bool) : result unit := if debug then c_assertR b else Ok tt.

(** ** [std::vector] *)
Definition vector_resize {T} (zero : T) (size : nat) (l : list T) : list T :=
  take size l ++ replicate (size - length l) zero.
Definition vector_at {T} (l : list T) (offset : nat) : result T :=
  match l !! offset with Some x => Ok x | None => Crash AssertFailed end.
(** An assignment to the reference that [at] returns *)
Definition vector_set {T} (l : list T) (offset : nat) (x : T) : result (list T) :=
  match l !! offset with Some _ => Ok (<[offset := x]> l) | None => Crash AssertFailed end.

(** The loops [dest.at(i) = f(src.at(i))] over [src], from [i] on *)
Fixpoint assign_each {A B} (f : A → B) (src : list A) (i : nat) (dest : list B) : result (list B) :=
  match src with
  | [] => Ok dest
  | x :: src => dest ← vector_set dest i (f x); assign_each f src (S i) dest
  end.

(** ** [Array] *)
Module Array.
Record Array (T : Type) : Type := mkArray { vec_ : list T; is_null_ : bool }.
Arguments mkArray {_} _ _.
Arguments vec_ {_} _.
Arguments is_null_ {_} _.

#[global] Instance Array_eq_dec `{EqDecision T} : EqDecision (Array T).
Proof. solve_decision. Defined.

Section Array.
Context {T : Type} (zero : T) (clone : T → T) (equals : T → T → bool).
Implicit Types (a : Array T).

Definition default_ : Array T := mkArray [] true.
Definition reset a : Array T := mkArray [] true.
Definition is_null a : bool := is_null_ a.
Definition size a : nat := length (vec_ a).
(** [front], undefined where there is no element *)
Definition front a : result T := match vec_ a with x :: _ => Ok x | [] => Crash BadAccess end.
Definition at_ a (offset : nat) : result T := vector_at (vec_ a) offset.
Definition set_at (offset : nat) (x : T) a : result (Array T) :=
  l ← vector_set (vec_ a) offset x; Ok (mkArray l (is_null_ a)).
Definition push_back (value : T) a : Array T := mkArray (vec_ a ++ [value]) false.
Definition resize (size : nat) a : Array T := mkArray (vector_resize zero size (vec_ a)) false.
Definition New (size : nat) : Array T := resize size default_.
Definition storage a : list T := vec_ a.
Definition Swap a (other : Array T) : Array T * Array T :=
  (mkArray (vec_ other) (is_null_ other), mkArray (vec_ a) (is_null_ a)).
Definition Swap_vector a (other : list T) : Array T * list T := (mkArray other false, vec_ a).

(** [ArrayTraits::Clone], for [T] that are copied, and for move-only ones *)
Definition traits_clone_copy (src_vec dest_vec : list T) : list T := src_vec.
Definition traits_clone_move (src_vec dest_vec : list T) : result (list T) :=
  assign_each clone src_vec 0 (vector_resize zero (length src_vec) dest_vec).
Definition Clone (move_only : bool) a : result (Array T) :=
  let result_ := default_ in
  l ← if move_only then traits_clone_move (vec_ a) (vec_ result_)
      else Ok (traits_clone_copy (vec_ a) (vec_ result_));
  Ok (mkArray l (is_null_ a)).

(** The loop of [Equals] over [count] elements from [i] on *)
Fixpoint equals_from (count i : nat) a (other : Array T) : result bool :=
  match count with
  | O => Ok true
  | S count =>
      x ← at_ a i;
      y ← at_ other i;
      if negb (equals x y) then Ok false else equals_from count (S i) a other
  end.
Definition Equals a (other : Array T) : result bool :=
  if negb (Bool.eqb (is_null a) (is_null other)) then Ok false
  else if negb (Nat.eqb (size a) (size other)) then Ok false
  else equals_from (size a) 0 a other.
End Array.

(** [TypeConverter]; [convert] is that of the elements *)
Definition From_vector {T E} (zero : T) (convert : E → T) (input : list E) : result (Array T) :=
  let result_ := New zero (length input) in
  l ← assign_each convert input 0 (vec_ result_);
  Ok (mkArray l (is_null_ result_)).
Definition To_vector {T E} (zero : E) (convert : T → E) (input : Array T) : result (list E) :=
  if negb (is_null input) then
    assign_each convert (vec_ input) 0 (vector_resize zero (size input) [])
  else Ok [].
(** A [std::set] is the list of its elements in order. *)
Definition From_set {T E} (zero : T) (convert : E → T) (input : list E) : Array T :=
  foldl (λ result_ i, push_back (convert i) result_) (New zero 0) input.
Definition To_set {T E} (insert : E → list E → list E) (convert : T → E) (input : Array T) : list E :=
  if negb (is_null input) then foldl (λ result_ x, insert (convert x) result_) [] (vec_ input) else [].

(** *** [Iterator]: an array, by its address, and a position, a [size_t] *)
Record Iterator : Type := mkIterator { arr_ : nat; pos_ : Z }.
Implicit Types (it : Iterator).

Definition begin (arr : nat) : Iterator := mkIterator arr 0.
Definition end_ {T} (arr : nat) (a : Array T) : Iterator := mkIterator arr (Z.of_nat (size a)).
Definition next it : Iterator := mkIterator (arr_ it) (u64 (pos_ it + 1)).
Definition prev it : Iterator := mkIterator (arr_ it) (u64 (pos_ it - 1)).
Definition it_eq it (o : Iterator) : bool := Nat.eqb (arr_ o) (arr_ it) && (pos_ o =? pos_ it).
Definition it_lt it (o : Iterator) : bool := pos_ it <? pos_ o.
(** [dist], a [ptrdiff_t], is converted to [size_t]. *)
Definition it_add it (dist : Z) : Iterator := mkIterator (arr_ it) (u64 (pos_ it + dist)).
Definition it_sub it (dist : Z) : Iterator := mkIterator (arr_ it) (u64 (pos_ it - dist)).
Definition it_diff it (o : Iterator) : Z := s64 (u64 (pos_ it - pos_ o)).
(** [operator*] and [operator[]], of an iterator over [a] *)
Definition it_deref {T} (a : Array T) it : result T := at_ a (Z.to_nat (pos_ it)).
Definition it_index {T} (a : Array T) it (dist : Z) : result T := at_ a (Z.to_nat (u64 (pos_ it + dist))).
End Array.

(** ** [String] *)
Module String.
Record String : Type := mkString { value_ : list Z; is_null_ : bool }.
Implicit Types (a b : String).

Definition default_ : String := mkString [] true.
(** [String(const std::string&)] and [String(chars, num_chars)] *)
Definition of_string (str : list Z) : String := mkString str false.
(** [String] of a [const char*]: the bytes up to the null that ends them *)
Definition of_chars (chars : option (list Z)) : String :=
  match chars with Some chars => mkString chars false | None => mkString [] true end.
Definition copy (str : String) : String := mkString (value_ str) (is_null_ str).
Definition assign (this str : String) : String := mkString (value_ str) (is_null_ str).
Definition assign_string (str : list Z) (this : String) : String := mkString str false.
Definition assign_chars (chars : option (list Z)) (this : String) : String :=
  let null := bool_decide (chars = None) in
  match chars with Some chars => mkString chars null | None => mkString [] null end.
Definition reset (this : String) : String := mkString [] true.
Definition size (this : String) : nat := length (value_ this).
Definition at_ (this : String) (offset : nat) : result Z := vector_at (value_ this) offset.
Definition set_at (offset : nat) (c : Z) (this : String) : result String :=
  l ← vector_set (value_ this) offset c; Ok (mkString l (is_null_ this)).
(** [operator[]] is not checked; at the end it reads the null that ends the string. *)
Definition index (this : String) (offset : nat) : result Z :=
  match value_ this !! offset with
  | Some c => Ok c
  | None => if Nat.eqb offset (size this) then Ok 0 else Crash BadAccess
  end.
Definition Swap (this other : String) : String * String :=
  (mkString (value_ other) (is_null_ other), mkString (value_ this) (is_null_ this)).
Definition Swap_string (this : String) (other : list Z) : String * list Z := (mkString other false, value_ this).

Definition eq (a b : String) : bool :=
  Bool.eqb (is_null_ a) (is_null_ b) && bool_decide (value_ a = value_ b).
(** [==] with a [const char*], on either side, which must not be null where it is read *)
Definition eq_chars (a : option (list Z)) (b : String) : result bool :=
  if is_null_ b then Ok false
  else match a with Some a => Ok (bool_decide (a = value_ b)) | None => Crash BadAccess end.
Definition lt (a b : String) : bool :=
  if is_null_ a then negb (is_null_ b)
  else if is_null_ b then false
  else bytes_less (value_ a) (value_ b).

(** [TypeConverter] from an array of [N] characters, of which the last is left out *)
Definition From_array (debug : bool) (input : option (list Z)) : result String :=
  dcheck debug (bool_decide (is_Some input));;
  match input with Some l => Ok (of_string (take (length l - 1) l)) | None => Crash BadAccess end.
End String.

(** ** [StructPtr] *)
Module StructPtr.
Record StructPtr (S : Type) : Type := mkStructPtr { ptr_ : option S }.
Arguments mkStructPtr {_} _.
Arguments ptr_ {_} _.

Section StructPtr.
Context {S : Type} (debug : bool) (fresh : S) (clone : S → StructPtr S) (equals : S → S → bool).
Implicit Types (p : StructPtr S).

Definition default_ : StructPtr S := mkStructPtr None.
Definition reset p : StructPtr S := mkStructPtr None.
Definition is_null p : bool := negb (bool_decide (is_Some (ptr_ p))).
(** [operator*] and [operator->] *)
Definition deref p : result S :=
  dcheck debug (bool_decide (is_Some (ptr_ p)));;
  match ptr_ p with Some s => Ok s | None => Crash BadAccess end.
Definition get p : option S := ptr_ p.
Definition store (s : S) p : result (StructPtr S) := deref p;; Ok (mkStructPtr (Some s)).
Definition Swap p (other : StructPtr S) : StructPtr S * StructPtr S :=
  (mkStructPtr (ptr_ other), mkStructPtr (ptr_ p)).
Definition Clone p : StructPtr S := match ptr_ p with None => default_ | Some s => clone s end.
Definition Equals p (other : StructPtr S) : bool :=
  match ptr_ p, ptr_ other with
  | Some s, Some s' => equals s s'
  | _, _ => is_null p && is_null other
  end.
(** [StructHelper::Initialize] *)
Definition Initialize p : result (StructPtr S) :=
  dcheck debug (is_null p);;
  Ok (mkStructPtr (Some fresh)).
End StructPtr.
End StructPtr.

(** ** [InlinedStructPtr]

    [fresh] is a [Struct()]. *)
Module InlinedStructPtr.
Record InlinedStructPtr (S : Type) : Type := mkInlined { value_ : S; is_null_ : bool }.
Arguments mkInlined {_} _ _.
Arguments value_ {_} _.
Arguments is_null_ {_} _.

Section InlinedStructPtr.
Context {S : Type} (debug : bool) (fresh : S) (clone : S → InlinedStructPtr S) (equals : S → S → bool).
Implicit Types (p : InlinedStructPtr S).

Definition default_ : InlinedStructPtr S := mkInlined fresh true.
Definition reset p : InlinedStructPtr S := mkInlined fresh true.
Definition is_null p : bool := is_null_ p.
Definition deref p : result S := dcheck debug (negb (is_null_ p));; Ok (value_ p).
Definition get p : option S := if is_null p then None else Some (value_ p).
Definition store (s : S) p : result (InlinedStructPtr S) := deref p;; Ok (mkInlined s (is_null_ p)).
Definition Swap p (other : InlinedStructPtr S) : InlinedStructPtr S * InlinedStructPtr S :=
  (mkInlined (value_ other) (is_null_ other), mkInlined (value_ p) (is_null_ p)).
Definition Clone p : InlinedStructPtr S := if is_null p then default_ else clone (value_ p).
Definition Equals p (other : InlinedStructPtr S) : bool :=
  if is_null p || is_null other then is_null p && is_null other
  else equals (value_ p) (value_ other).
Definition Initialize p : InlinedStructPtr S := mkInlined (value_ p) false.
End InlinedStructPtr.
End InlinedStructPtr.

(** ** Lemmas *)
Lemma vector_set_lt {T} (l : list T) i x : (i < length l)%nat → vector_set l i x = Ok (<[i := x]> l).
Proof. intros [y Hy]%lookup_lt_is_Some. unfold vector_set. by rewrite Hy. Qed.

Lemma assign_each_app {A B} (f : A → B) src : ∀ done rest, length rest = length src →
  assign_each f src (length done) (done ++ rest) = Ok (done ++ map f src).
Proof.
  induction src as [|x src IH]; intros done [|y rest] Hlen; try by cbn in Hlen.
  cbn [assign_each map]. rewrite vector_set_lt by (rewrite length_app; cbn; lia).
  cbn [mbind result_bind]. rewrite insert_app_r_alt, Nat.sub_diag by lia. cbn [list_insert insert].
  injection Hlen as Hlen. specialize (IH (done ++ [f x]) rest Hlen).
  rewrite length_app, Nat.add_1_r, <- !app_assoc in IH. exact IH.
Qed.

Lemma assign_each_all {A B} (f : A → B) src dest : length dest = length src →
  assign_each f src 0 dest = Ok (map f src).
Proof. intros. by apply (assign_each_app f src []). Qed.

Lemma length_vector_resize {T} (zero : T) n l : length (vector_resize zero n l) = n.
Proof. unfold vector_resize. rewrite length_app, length_take, length_replicate. lia. Qed.

(** *** Arrays: the nullable list an array stands for, and its invariant *)
Section array_lemmas.
Context {T : Type} (zero : T) (clone : T → T) (equals : T → T → bool).
Implicit Types (a : Array.Array T).

Definition array_value a : option (list T) := if Array.is_null_ a then None else Some (Array.vec_ a).
Definition array_ok a : Prop := Array.is_null_ a = true → Array.vec_ a = [].

Lemma array_value_inj a a' : array_ok a → array_ok a' → array_value a = array_value a' → a = a'.
Proof.
  unfold array_ok, array_value. destruct a as [l [|]], a' as [l' [|]]; cbn; try done.
  - intros -> ->; done.
  - by intros _ _ [= ->].
Qed.

Lemma array_default a : array_ok a → default [] (array_value a) = Array.vec_ a.
Proof. unfold array_ok, array_value. destruct a as [l [|]]; cbn; [by intros ->|done]. Qed.

Lemma array_Clone move_only a :
  Array.Clone zero clone move_only a =
  Ok (Array.mkArray (if move_only then map clone (Array.vec_ a) else Array.vec_ a) (Array.is_null_ a)).
Proof.
  unfold Array.Clone, Array.traits_clone_move. destruct move_only; [|done].
  by rewrite assign_each_all by apply length_vector_resize.
Qed.

Lemma equals_from_spec `{EqDecision T} n n' : (∀ x y, equals x y = true ↔ x = y) → ∀ l l' pre pre',
  length pre = length pre' → length l = length l' →
  Array.equals_from equals (length l) (length pre) (Array.mkArray (pre ++ l) n) (Array.mkArray (pre' ++ l') n') =
  Ok (bool_decide (l = l')).
Proof.
  intros Heq. induction l as [|x l IH]; intros [|y l'] pre pre' Hpre Hlen; try by cbn in Hlen.
  cbn [length Array.equals_from]. unfold Array.at_, vector_at. cbn [Array.vec_].
  rewrite !list_lookup_middle by done. cbn [mbind result_bind].
  destruct (equals x y) eqn:E; cbn [negb].
  - apply Heq in E as ->. injection Hlen as Hlen. specialize (IH l' (pre ++ [y]) (pre' ++ [y])).
    rewrite !length_app, Nat.add_1_r, <- !app_assoc in IH. cbn [app] in IH. rewrite IH by (cbn; lia || done).
    f_equal. apply bool_decide_ext. split; [by intros ->|by intros [= ->]].
  - rewrite bool_decide_false; [done|]. intros [= -> _]. pose proof (proj2 (Heq y y) eq_refl). congruence.
Qed.

(** Arrays are equal when the nullable lists are. *)
Lemma array_Equals `{EqDecision T} a a' : (∀ x y, equals x y = true ↔ x = y) → array_ok a → array_ok a' →
  Array.Equals equals a a' = Ok (bool_decide (array_value a = array_value a')).
Proof.
  intros Heq Ha Ha'. rewrite (bool_decide_ext (array_value a = array_value a') (a = a')).
  2: { split; [by apply array_value_inj|by intros ->]. }
  destruct a as [l n], a' as [l' n']. unfold Array.Equals, Array.size, Array.is_null. cbn [Array.vec_ Array.is_null_].
  destruct (Bool.eqb n n') eqn:En; cbn [negb].
  2: { rewrite bool_decide_false; [done|]. intros [= _ ->]. by rewrite eqb_reflx in En. }
  apply eqb_prop in En as ->. destruct (Nat.eqb_spec (length l) (length l')) as [Hlen|Hlen]; cbn [negb].
  2: { rewrite bool_decide_false; [done|]. by intros [= ->]. }
  pose proof (equals_from_spec n' n' Heq l l' [] [] eq_refl Hlen) as E. cbn [app length] in E. rewrite E. f_equal. apply bool_decide_ext.
  split; [by intros ->|by intros [= ->]].
Qed.

Lemma array_Clone_Equals `{EqDecision T} move_only a : (∀ x y, equals x y = true ↔ x = y) → (∀ x, clone x = x) → array_ok a →
  Array.Clone zero clone move_only a ≫= Array.Equals equals a = Ok true.
Proof.
  intros Heq Hclone Ha. rewrite array_Clone. cbn [mbind result_bind].
  assert (map clone (Array.vec_ a) = Array.vec_ a) as E.
  { rewrite <- (map_id (Array.vec_ a)) at 2. by apply map_ext. }
  rewrite E. destruct a as [l n]. cbn [Array.vec_ Array.is_null_]. replace (if move_only then l else l) with l by by destruct move_only.
  rewrite array_Equals by done. by rewrite bool_decide_true.
Qed.
End array_lemmas.

(** *** Iterators *)
Lemma it_add_diff it dist : 0 <= Array.pos_ it < 2 ^ 64 → - 2 ^ 63 <= dist < 2 ^ 63 →
  Array.it_diff (Array.it_add it dist) it = dist ∧ Array.it_sub (Array.it_add it dist) dist = it.
Proof.
  intros Hpos Hdist. destruct it as [a p]. unfold Array.it_diff, Array.it_add, Array.it_sub. cbn [Array.pos_ Array.arr_] in *.
  unfold u64. rewrite !Zminus_mod_idemp_l. split.
  - replace (p + dist - p) with dist by lia. unfold s64. rewrite Zplus_mod_idemp_l, Z.mod_small; lia.
  - f_equal. replace (p + dist - dist) with p by lia. apply Z.mod_small. lia.
Qed.

(** [for (T& x : array)], which leaves the elements it saw *)
Fixpoint visit {T} (fuel : nat) (a : Array.Array T) (it last : Array.Iterator) : result (list T) :=
  if Array.it_eq it last then Ok [] else
  match fuel with
  | O => Crash OutOfFuel
  | S fuel => x ← Array.it_deref a it; l ← visit fuel a (Array.next it) last; Ok (x :: l)
  end.

(** It sees every element once and in order, and ends after as many steps. *)
Lemma visit_all {T} arr (a : Array.Array T) : Z.of_nat (Array.size a) < 2 ^ 64 →
  visit (Array.size a) a (Array.begin arr) (Array.end_ arr a) = Ok (Array.vec_ a).
Proof.
  unfold Array.size, Array.begin, Array.end_. destruct a as [l n]. unfold Array.size. cbn [Array.vec_]. intros Hlen.
  enough (∀ k pre, (length l = length pre + length k)%nat → l = pre ++ k →
    visit (length k) (Array.mkArray l n) (Array.mkIterator arr (Z.of_nat (length pre)))
      (Array.mkIterator arr (Z.of_nat (length l))) = Ok k) as H by by apply (H l []).
  induction k as [|x k IH]; intros pre Hl Heq; cbn [length visit];
    unfold Array.it_eq; cbn [Array.arr_ Array.pos_]; rewrite Nat.eqb_refl; cbn [length] in Hl; cbn [andb].
  - by rewrite (proj2 (Z.eqb_eq _ _)) by lia.
  - rewrite (proj2 (Z.eqb_neq _ _)) by lia. unfold Array.it_deref, Array.at_, vector_at. cbn [Array.vec_ Array.pos_].
    rewrite Nat2Z.id. rewrite Heq at 1. rewrite list_lookup_middle by done. cbn [mbind result_bind].
    specialize (IH (pre ++ [x])). rewrite length_app in IH. cbn [length] in IH.
    unfold Array.next. cbn [Array.arr_ Array.pos_]. rewrite u64_small by lia.
    replace (Z.of_nat (length pre) + 1) with (Z.of_nat (length pre + 1)) by lia.
    rewrite IH; [done|lia|by rewrite Heq, <- app_assoc].
Qed.

(** *** Conversions *)
Section conversions.
Context {T E : Type} (zero_T : T) (zero_E : E) (to_T : E → T) (to_E : T → E).

Lemma From_vector_eq input : Array.From_vector zero_T to_T input = Ok (Array.mkArray (map to_T input) false).
Proof.
  unfold Array.From_vector, Array.New, Array.resize. cbn [Array.vec_ Array.is_null_].
  by rewrite assign_each_all by apply length_vector_resize.
Qed.

Lemma To_vector_eq (a : Array.Array T) : array_ok a →
  Array.To_vector zero_E to_E a = Ok (map to_E (default [] (array_value a))).
Proof.
  intros Ha. rewrite array_default by done. unfold Array.To_vector, Array.is_null, Array.size.
  destruct (Array.is_null_ a) eqn:En; cbn [negb]; [by rewrite (Ha En)|].
  by rewrite assign_each_all by apply length_vector_resize.
Qed.

(** A vector survives the way through an array, and a null array becomes an empty one. *)
Lemma vector_roundtrip input : (∀ x, to_E (to_T x) = x) →
  Array.From_vector zero_T to_T input ≫= Array.To_vector zero_E to_E = Ok input.
Proof.
  intros Hinv. rewrite From_vector_eq. cbn [mbind result_bind]. rewrite To_vector_eq by done.
  f_equal. cbn. rewrite map_map. erewrite map_ext; [apply map_id|exact Hinv].
Qed.

Lemma From_set_eq input : Array.From_set zero_T to_T input = Array.mkArray (map to_T input) false.
Proof.
  unfold Array.From_set, Array.New, Array.resize. cbn [Array.vec_ Array.default_ length vector_resize take replicate Nat.sub app].
  enough (∀ l, foldl (λ result_ i, Array.push_back (to_T i) result_) (Array.mkArray l false) input =
    Array.mkArray (l ++ map to_T input) false) as H by apply H.
  induction input as [|x input IH]; intros l; cbn [foldl map]; [by rewrite app_nil_r|].
  unfold Array.push_back at 2. cbn [Array.vec_]. rewrite IH. by rewrite <- app_assoc.
Qed.
End conversions.

(** *** Strings *)
Definition string_value (a : String.String) : option (list Z) :=
  if String.is_null_ a then None else Some (String.value_ a).
Definition string_ok (a : String.String) : Prop := String.is_null_ a = true → String.value_ a = [].

Lemma String_eq_spec a b : string_ok a → string_ok b → String.eq a b = bool_decide (string_value a = string_value b).
Proof.
  unfold string_ok, String.eq, string_value. destruct a as [l [|]], b as [l' [|]]; cbn.
  - intros -> ->; done.
  - intros _ _. by rewrite bool_decide_false.
  - intros _ _. by rewrite bool_decide_false.
  - intros _ _. apply bool_decide_ext. split; [by intros ->|by intros [= ->]].
Qed.

(** The order of strings is the one that maps keep their keys in. *)
Lemma String_lt_spec a b : String.lt a b = String_less (string_value a) (string_value b).
Proof. destruct a as [l [|]], b as [l' [|]]; done. Qed.

(** Comparing with a [const char*] is comparing with the string made of it, unless the
    pointer is null. *)
Lemma eq_chars_spec chars b : string_ok b →
  String.eq_chars (Some chars) b = Ok (String.eq (String.of_chars (Some chars)) b).
Proof. destruct b as [l [|]]; [|done]. by intros ->. Qed.

(** A null string equals the string made of a null pointer, but not the null pointer; and
    comparing any other string with it reads address 0. *)
Lemma eq_null_chars b : string_ok b → String.eq (String.of_chars None) String.default_ = true ∧
  String.eq_chars None b = if String.is_null_ b then Ok false else Crash BadAccess.
Proof. done. Qed.

(** *** Pointers to structs *)
Definition inlined_ok {S} (fresh : S) (p : InlinedStructPtr.InlinedStructPtr S) : Prop :=
  InlinedStructPtr.is_null_ p = true → InlinedStructPtr.value_ p = fresh.

Lemma StructPtr_Equals_spec {S} `{EqDecision S} equals (p q : StructPtr.StructPtr S) :
  (∀ x y, equals x y = true ↔ x = y) →
  StructPtr.Equals equals p q = bool_decide (StructPtr.get p = StructPtr.get q).
Proof.
  intros Heq. destruct p as [[s|]], q as [[s'|]]; cbn; try done. apply eq_true_iff_eq.
  rewrite Heq, bool_decide_eq_true. split; [by intros ->|by intros [= ->]].
Qed.

Lemma Inlined_Equals_spec {S} `{EqDecision S} equals (p q : InlinedStructPtr.InlinedStructPtr S) :
  (∀ x y, equals x y = true ↔ x = y) →
  InlinedStructPtr.Equals equals p q = bool_decide (InlinedStructPtr.get p = InlinedStructPtr.get q).
Proof.
  intros Heq. destruct p as [s [|]], q as [s' [|]]; cbn; try done. apply eq_true_iff_eq.
  rewrite Heq, bool_decide_eq_true. split; [by intros ->|by intros [= ->]].
Qed.
