(* ===== verification/CppWrappersRefine.v ===== *)
(** * Programs over nullable wrappers

    The variables of a program hold wrappers ([CppWrappers]), which it moves, swaps, clones
    and changes, also into themselves.  Whatever it does, they stand for nullable values,
    the [option]s that serialization ([CppSerialize]) is about. *)
From stdpp Require Import base list numbers option gmap.
From S2P Require Import Prelude CppWrappers.

(** The operations of a wrapper type [W], whose changes are [M] *)
Record Wrapper (W M : Type) : Type := {
  w_default : W;
  w_reset : W → W;
  w_Swap : W → W → W * W;
  w_assign_clone : W → W → result W;  (** [this = other.Clone()] *)
  w_change : M → W → result W;
  w_moves : bool;  (** whether it has a move constructor; otherwise moving copies *)
}.
Arguments w_default {_ _} _.
Arguments w_reset {_ _} _ _.
Arguments w_Swap {_ _} _ _ _.
Arguments w_assign_clone {_ _} _ _ _.
Arguments w_change {_ _} _ _ _.
Arguments w_moves {_ _} _.

(** What they mean for a nullable [C] *)
Record Meaning (C M : Type) : Type := {
  m_clone : C → option C;
  m_change : M → option C → result (option C);
  m_moves : bool;
}.
Arguments m_clone {_ _} _ _.
Arguments m_change {_ _} _ _ _.
Arguments m_moves {_ _} _.

Inductive Op (M : Type) :=
| ODefault (x : nat)
| ODestroy (x : nat)
| OReset (x : nat)
| OSwap (x y : nat)
| OMove (x y : nat)      (** [x = std::move(y)] *)
| OMoveNew (x y : nat)   (** a new [x], constructed from [std::move(y)] *)
| OClone (x y : nat)     (** [x = y.Clone()] *)
| OChange (x : nat) (m : M).
Arguments ODefault {_} _.
Arguments ODestroy {_} _.
Arguments OReset {_} _.
Arguments OSwap {_} _ _.
Arguments OMove {_} _ _.
Arguments OMoveNew {_} _ _.
Arguments OClone {_} _ _.
Arguments OChange {_} _ _.

Section run.
Context {V M : Type}.
Definition var (m : gmap nat V) (x : nat) : result V :=
  match m !! x with Some w => Ok w | None => Crash Misuse end.
Definition new_var (m : gmap nat V) (x : nat) : result unit :=
  match m !! x with Some _ => Crash Misuse | None => Ok tt end.

Fixpoint run_ops (step : Op M → gmap nat V → result (gmap nat V)) (ops : list (Op M)) (m : gmap nat V)
    : result (gmap nat V) :=
  match ops with
  | [] => Ok m
  | op :: ops => m ← step op m; run_ops step ops m
  end.

Lemma var_insert m x v : var (<[x := v]> m) x = Ok v.
Proof. unfold var. by rewrite lookup_insert_eq. Qed.
Lemma var_insert_ne m x y v : x ≠ y → var (<[x := v]> m) y = var m y.
Proof. intros. unfold var. by rewrite lookup_insert_ne. Qed.
End run.

(** ** The program *)
Section wrappers.
Context {W M : Type} (w : Wrapper W M).
Implicit Types (m : gmap nat W).

Definition Swap_at (x y : nat) m : result (gmap nat W) :=
  a ← var m x;
  b ← var m y;
  let '(a, b) := w_Swap w a b in
  Ok (<[y := b]> (<[x := a]> m)).

(** [Take], where [this] and [other] may be the same *)
Definition Take_at (this other : nat) m : result (gmap nat W) :=
  a ← var m this;
  Swap_at this other (<[this := w_reset w a]> m).

Definition clone_at (x y : nat) m : result (gmap nat W) :=
  b ← var m y;
  a ← var m x;
  a ← w_assign_clone w a b;
  Ok (<[x := a]> m).

Definition move_at (x y : nat) m : result (gmap nat W) :=
  if w_moves w then Take_at x y m else clone_at x y m.

Definition run_op (op : Op M) m : result (gmap nat W) :=
  match op with
  | ODefault x => new_var m x;; Ok (<[x := w_default w]> m)
  | ODestroy x => var m x;; Ok (delete x m)
  | OReset x => a ← var m x; Ok (<[x := w_reset w a]> m)
  | OSwap x y => Swap_at x y m
  | OMove x y => move_at x y m
  | OMoveNew x y => new_var m x;; move_at x y (<[x := w_default w]> m)
  | OClone x y => clone_at x y m
  | OChange x c => a ← var m x; a ← w_change w c a; Ok (<[x := a]> m)
  end.
End wrappers.

(** ** Its meaning

    A moved-from variable is null, also if it was moved to itself, unless the type has no
    moves. *)
Section meaning.
Context {C M : Type} (s : Meaning C M).
Implicit Types (m : gmap nat (option C)).

Definition mean_clone (x y : nat) m : result (gmap nat (option C)) :=
  b ← var m y;
  var m x;;
  Ok (<[x := b ≫= m_clone s]> m).

Definition mean_move (x y : nat) m : result (gmap nat (option C)) :=
  if m_moves s then var m x;; b ← var m y; Ok (<[y := None]> (<[x := b]> m))
  else mean_clone x y m.

Definition mean_op (op : Op M) m : result (gmap nat (option C)) :=
  match op with
  | ODefault x => new_var m x;; Ok (<[x := None]> m)
  | ODestroy x => var m x;; Ok (delete x m)
  | OReset x => var m x;; Ok (<[x := None]> m)
  | OSwap x y => a ← var m x; b ← var m y; Ok (<[y := a]> (<[x := b]> m))
  | OMove x y => mean_move x y m
  | OMoveNew x y => new_var m x;; mean_move x y (<[x := None]> m)
  | OClone x y => mean_clone x y m
  | OChange x c => a ← var m x; a ← m_change s c a; Ok (<[x := a]> m)
  end.
End meaning.

(** ** The interface: operations that mean what they should, under an invariant

    [caught]: the faults that the build stops at. *)
Record wrapper_laws {W C M : Type} (caught : fault → Prop) (w : Wrapper W M) (s : Meaning C M) (value : W → option C) (ok : W → Prop) : Prop := {
  law_default : ok (w_default w) ∧ value (w_default w) = None;
  law_reset : ∀ a, ok (w_reset w a) ∧ value (w_reset w a) = None;
  law_Swap : ∀ a b, w_Swap w a b = (b, a);
  law_clone : ∀ a b, ok a → ok b → ∃ c, w_assign_clone w a b = Ok c ∧ ok c ∧ value c = value b ≫= m_clone s;
  law_moves : w_moves w = m_moves s;
  law_change : ∀ c a, ok a →
    match m_change s c (value a) with
    | Ok v => ∃ a', w_change w c a = Ok a' ∧ ok a' ∧ v = value a'
    | Crash f => caught f → w_change w c a = Crash f
    end;
}.

(** A program does not crash where its meaning does not, and ends in variables that stand
    for the values it should leave; where its meaning crashes it does, if the fault is
    caught. *)
Definition refines {W C M : Type} (caught : fault → Prop) (w : Wrapper W M) (s : Meaning C M)
    (value : W → option C) (ok : W → Prop) : Prop :=
  ∀ ops m, map_Forall (λ _, ok) m →
    match run_ops (mean_op s) ops (value <$> m) with
    | Ok v => ∃ m', run_ops (run_op w) ops m = Ok m' ∧ map_Forall (λ _, ok) m' ∧ v = value <$> m'
    | Crash f => caught f → run_ops (run_op w) ops m = Crash f
    end.

Abbreviation every_fault := (λ _ : fault, True).

Section refine.
Context {W C M : Type} (caught : fault → Prop).
Context (w : Wrapper W M) (s : Meaning C M) (value : W → option C) (ok : W → Prop).
Context (Hlaws : wrapper_laws caught w s value ok).
Implicit Types (m : gmap nat W).

Lemma var_value m x : var (value <$> m) x = a ← var m x; Ok (value a).
Proof. unfold var. rewrite lookup_fmap. by destruct (m !! x). Qed.
Lemma new_var_value m x : new_var (value <$> m) x = new_var m x.
Proof. unfold new_var. rewrite lookup_fmap. by destruct (m !! x). Qed.

Definition step_refines (r : result (gmap nat W)) (r' : result (gmap nat (option C))) : Prop :=
  match r' with
  | Ok v => ∃ m', r = Ok m' ∧ map_Forall (λ _, ok) m' ∧ v = value <$> m'
  | Crash f => caught f → r = Crash f
  end.

Lemma step_var m x (k : W → result (gmap nat W)) k' : map_Forall (λ _, ok) m →
  (∀ a, m !! x = Some a → ok a → step_refines (k a) (k' (value a))) →
  step_refines (var m x ≫= k) (var (value <$> m) x ≫= k').
Proof.
  intros Hm Hk. rewrite var_value. unfold var. destruct (m !! x) as [a|] eqn:E; [|done].
  apply Hk; [done|]. by apply (Hm x).
Qed.

Lemma step_new m x (r : result (gmap nat W)) r' : (m !! x = None → step_refines r r') →
  step_refines (new_var m x;; r) (new_var (value <$> m) x;; r').
Proof. intros Hr. rewrite new_var_value. unfold new_var. by destruct (m !! x); [|apply Hr]. Qed.

Lemma step_Ok m (m' : gmap nat (option C)) : map_Forall (λ _, ok) m → value <$> m = m' → step_refines (Ok m) (Ok m').
Proof. intros ? <-. by exists m. Qed.

Lemma Swap_at_runs m x y a b : m !! x = Some a → m !! y = Some b →
  Swap_at w x y m = Ok (<[y := a]> (<[x := b]> m)).
Proof.
  intros Hx Hy. unfold Swap_at, var. rewrite Hx. cbn [mbind result_bind]. rewrite Hy. cbn [mbind result_bind].
  by rewrite (law_Swap _ _ _ _ _ Hlaws).
Qed.

(** The destination gets the value, the source becomes null, in this order. *)
Lemma Take_at_runs m x y a b : m !! x = Some a → m !! y = Some b →
  Take_at w x y m = Ok (<[y := w_reset w a]> (<[x := b]> m)).
Proof.
  intros Hx Hy. unfold Take_at, var. rewrite Hx. cbn [mbind result_bind]. destruct (decide (x = y)) as [<-|Hne].
  - rewrite (Swap_at_runs _ x x (w_reset w a) (w_reset w a)) by apply lookup_insert_eq.
    by rewrite !insert_insert_eq.
  - rewrite (Swap_at_runs _ x y (w_reset w a) b); [|apply lookup_insert_eq|by rewrite lookup_insert_ne].
    by rewrite insert_insert_eq.
Qed.

Lemma insert_ok m x a : map_Forall (λ _, ok) m → ok a → map_Forall (λ _, ok) (<[x := a]> m).
Proof. intros. by apply map_Forall_insert_2. Qed.

Lemma take_refines m x y : map_Forall (λ _, ok) m →
  step_refines (Take_at w x y m)
    (var (value <$> m) x;; b ← var (value <$> m) y; Ok (<[y := None]> (<[x := b]> (value <$> m)))).
Proof.
  intros Hm. rewrite !var_value. unfold var. destruct (m !! x) as [a|] eqn:Hx; cbn [mbind result_bind].
  2: { unfold Take_at, var. by rewrite Hx. }
  destruct (m !! y) as [b|] eqn:Hy; cbn [mbind result_bind].
  - destruct (law_reset _ _ _ _ _ Hlaws a) as [Hr Hv]. rewrite (Take_at_runs _ _ _ _ _ Hx Hy).
    apply step_Ok; [do 2 (apply insert_ok; [|done || by apply (Hm y)]); done|]. by rewrite !fmap_insert, Hv.
  - assert (x ≠ y) by congruence. unfold Take_at, Swap_at, var. rewrite Hx. cbn [mbind result_bind].
    rewrite lookup_insert_eq. cbn [mbind result_bind]. by rewrite lookup_insert_ne, Hy.
Qed.

Lemma clone_refines m x y : map_Forall (λ _, ok) m →
  step_refines (clone_at w x y m) (mean_clone s x y (value <$> m)).
Proof.
  intros Hm. apply (step_var _ _ _ _ Hm). intros b _ Hb. apply (step_var _ _ _ (λ _, _) Hm). intros a _ Ha.
  destruct (law_clone _ _ _ _ _ Hlaws a b Ha Hb) as (c & -> & Hc & Hv).
  apply step_Ok; [by apply insert_ok|]. rewrite fmap_insert. congruence.
Qed.

Lemma move_refines m x y : map_Forall (λ _, ok) m →
  step_refines (move_at w x y m) (mean_move s x y (value <$> m)).
Proof.
  intros Hm. unfold move_at, mean_move. rewrite (law_moves _ _ _ _ _ Hlaws).
  destruct (m_moves s); [by apply take_refines|by apply clone_refines].
Qed.

Lemma op_refines op m : map_Forall (λ _, ok) m → step_refines (run_op w op m) (mean_op s op (value <$> m)).
Proof.
  intros Hm. pose proof (law_default _ _ _ _ _ Hlaws) as [Hd1 Hd2].
  assert (∀ a, ok (w_reset w a) ∧ value (w_reset w a) = None) as Hreset by apply Hlaws.
  destruct op as [x|x|x|x y|x y|x y|x y|x c]; cbn [run_op mean_op].
  - apply step_new. intros _. apply step_Ok; [by apply insert_ok|]. by rewrite fmap_insert, Hd2.
  - apply (step_var _ _ _ (λ _, _) Hm). intros a _ _. apply step_Ok; [by apply map_Forall_delete|apply fmap_delete].
  - apply (step_var _ _ _ (λ _, _) Hm). intros a _ _. destruct (Hreset a).
    apply step_Ok; [by apply insert_ok|]. rewrite fmap_insert. congruence.
  - unfold Swap_at. apply (step_var _ _ _ _ Hm). intros a _ Ha. apply (step_var _ _ _ _ Hm). intros b _ Hb.
    rewrite (law_Swap _ _ _ _ _ Hlaws). apply step_Ok; [by repeat apply insert_ok|]. by rewrite !fmap_insert.
  - by apply move_refines.
  - apply step_new. intros _. rewrite <- Hd2, <- fmap_insert. by apply move_refines, insert_ok.
  - by apply clone_refines.
  - apply (step_var _ _ _ _ Hm). intros a _ Ha. pose proof (law_change _ _ _ _ _ Hlaws c a Ha) as Hch.
    destruct (m_change s c (value a)) as [v|f]; [|intros Hf; by rewrite Hch].
    destruct Hch as (a' & -> & Hok & ->).
    apply step_Ok; [by apply insert_ok|apply fmap_insert].
Qed.

Lemma laws_refine : refines caught w s value ok.
Proof using Hlaws.
  intros ops. induction ops as [|op ops IH]; intros m Hm; cbn [run_ops]; [by exists m|].
  pose proof (op_refines op m Hm) as Hop. unfold step_refines in Hop.
  destruct (mean_op s op (value <$> m)) as [v|f]; cbn [mbind result_bind].
  - destruct Hop as (m1 & -> & Hm1 & ->). cbn [mbind result_bind]. by apply IH.
  - intros Hf. by rewrite Hop.
Qed.
End refine.

(** ** Arrays *)
Inductive ArrayChange (T : Type) :=
| APushBack (value : T)
| AResize (size : nat)
| ASetAt (offset : nat) (value : T)
| ASwapVector (other : list T).
Arguments APushBack {_} _.
Arguments AResize {_} _.
Arguments ASetAt {_} _ _.
Arguments ASwapVector {_} _.

Section instances.
Context {T : Type} (zero : T) (clone : T → T) (move_only : bool).

Definition array_wrapper : Wrapper (Array.Array T) (ArrayChange T) := {|
  w_default := Array.default_;
  w_reset := Array.reset;
  w_Swap := Array.Swap;
  w_assign_clone this other :=
    c ← Array.Clone zero clone move_only other;
    Ok (fst (Array.Swap (Array.reset this) c));
  w_change c a :=
    match c with
    | APushBack v => Ok (Array.push_back v a)
    | AResize n => Ok (Array.resize zero n a)
    | ASetAt i v => Array.set_at i v a
    | ASwapVector l => Ok (fst (Array.Swap_vector a l))
    end;
  w_moves := true;
|}.

Definition array_meaning : Meaning (list T) (ArrayChange T) := {|
  m_clone l := Some (if move_only then map clone l else l);
  m_change c v :=
    match c with
    | APushBack x => Ok (Some (default [] v ++ [x]))
    | AResize n => Ok (Some (vector_resize zero n (default [] v)))
    | ASetAt i x =>
        match v with
        | Some l => if bool_decide (i < length l)%nat then Ok (Some (<[i := x]> l)) else Crash AssertFailed
        | None => Crash AssertFailed
        end
    | ASwapVector l => Ok (Some l)
    end;
  m_moves := true;
|}.

Lemma array_laws : wrapper_laws every_fault array_wrapper array_meaning array_value array_ok.
Proof.
  split.
  - done.
  - done.
  - by intros [] [].
  - intros a b Ha Hb. cbn [w_assign_clone array_wrapper]. rewrite array_Clone. cbn [mbind result_bind].
    eexists. split; [done|]. unfold array_ok, array_value in *. destruct b as [l [|]]; cbn in *; [|done].
    rewrite Hb by done. by destruct move_only.
  - done.
  - intros c a Ha. destruct c as [x|n|i x|l]; cbn [w_change array_wrapper m_change array_meaning].
    + eexists. split_and!; [done|done|]. by rewrite array_default.
    + eexists. split_and!; [done|done|]. by rewrite array_default.
    + unfold Array.set_at, vector_set, array_ok, array_value in *. destruct a as [l [|]]; cbn in *; [by rewrite Ha|].
      destruct (l !! i) eqn:E; cbn.
      * apply lookup_lt_Some in E. rewrite bool_decide_true by done. by eexists.
      * apply lookup_ge_None in E. rewrite bool_decide_false by lia. done.
    + by eexists.
Qed.
End instances.


(** ** Strings

    Strings are copied by assignment, also where a program moves them. *)
Inductive StringChange :=
| SAssign (str : list Z)
| SAssignChars (chars : option (list Z))
| SSetAt (offset : nat) (c : Z)
| SSwapString (other : list Z).

Definition string_wrapper : Wrapper String.String StringChange := {|
  w_default := String.default_;
  w_reset := String.reset;
  w_Swap := String.Swap;
  w_assign_clone this other := Ok (String.assign this other);
  w_change c a :=
    match c with
    | SAssign str => Ok (String.assign_string str a)
    | SAssignChars chars => Ok (String.assign_chars chars a)
    | SSetAt i x => String.set_at i x a
    | SSwapString str => Ok (fst (String.Swap_string a str))
    end;
  w_moves := false;
|}.

Definition string_meaning : Meaning (list Z) StringChange := {|
  m_clone := Some;
  m_change c v :=
    match c with
    | SAssign str | SSwapString str => Ok (Some str)
    | SAssignChars chars => Ok chars
    | SSetAt i x =>
        match v with
        | Some l => if bool_decide (i < length l)%nat then Ok (Some (<[i := x]> l)) else Crash AssertFailed
        | None => Crash AssertFailed
        end
    end;
  m_moves := false;
|}.

Lemma string_laws : wrapper_laws every_fault string_wrapper string_meaning string_value string_ok.
Proof.
  split.
  - done.
  - done.
  - by intros [] [].
  - intros a b Ha Hb. eexists. split; [done|]. by destruct b as [l [|]].
  - done.
  - intros c a Ha. destruct c as [str|[chars|]|i x|str]; try by eexists.
    cbn [w_change string_wrapper m_change string_meaning].
    unfold String.set_at, vector_set, string_ok, string_value in *. destruct a as [l [|]]; cbn in *; [by rewrite Ha|].
    destruct (l !! i) eqn:E; cbn.
    + apply lookup_lt_Some in E. rewrite bool_decide_true by done. by eexists.
    + apply lookup_ge_None in E. by rewrite bool_decide_false by lia.
Qed.

(** ** Pointers to structs

    [SInitialize] is what [Struct::New] calls; [SStore] assigns to the struct. *)
Inductive StructChange (S : Type) :=
| SInitialize
| SStore (s : S).
Arguments SInitialize {_}.
Arguments SStore {_} _.

Section struct_instances.
Context {S : Type} (debug : bool) (fresh : S).

Definition struct_ptr_wrapper (clone : S → StructPtr.StructPtr S)
    : Wrapper (StructPtr.StructPtr S) (StructChange S) := {|
  w_default := StructPtr.default_;
  w_reset := StructPtr.reset;
  w_Swap := StructPtr.Swap;
  w_assign_clone this other := Ok (fst (StructPtr.Swap (StructPtr.reset this) (StructPtr.Clone clone other)));
  w_change c p :=
    match c with
    | SInitialize => StructPtr.Initialize debug fresh p
    | SStore s => StructPtr.store debug s p
    end;
  w_moves := true;
|}.

Definition struct_ptr_meaning (clone : S → StructPtr.StructPtr S) : Meaning S (StructChange S) := {|
  m_clone s := StructPtr.get (clone s);
  m_change c v :=
    match c, v with
    | SInitialize, Some _ => if debug then Crash AssertFailed else Ok (Some fresh)
    | SInitialize, None => Ok (Some fresh)
    | SStore s, Some _ => Ok (Some s)
    | SStore _, None => Crash (if debug then AssertFailed else BadAccess)
    end;
  m_moves := true;
|}.

Lemma struct_ptr_laws clone :
  wrapper_laws every_fault (struct_ptr_wrapper clone) (struct_ptr_meaning clone) StructPtr.get (λ _, True).
Proof.
  split.
  - done.
  - done.
  - by intros [] [].
  - intros a [[s|]] _ _; eexists; split; [done|done|done|done].
  - done.
  - intros [|s] [[x|]] _; cbn; unfold StructPtr.store, StructPtr.Initialize, StructPtr.deref; destruct debug; cbn; by eexists || done.
Qed.

(** [debug]: with [MOJO_DCHECK].  Without it a null pointer may be written through. *)
Definition inlined_wrapper (clone : S → InlinedStructPtr.InlinedStructPtr S)
    : Wrapper (InlinedStructPtr.InlinedStructPtr S) (StructChange S) := {|
  w_default := InlinedStructPtr.default_ fresh;
  w_reset := InlinedStructPtr.reset fresh;
  w_Swap := InlinedStructPtr.Swap;
  w_assign_clone this other :=
    Ok (fst (InlinedStructPtr.Swap (InlinedStructPtr.reset fresh this) (InlinedStructPtr.Clone fresh clone other)));
  w_change c p :=
    match c with
    | SInitialize => Ok (InlinedStructPtr.Initialize p)
    | SStore s => InlinedStructPtr.store debug s p
    end;
  w_moves := true;
|}.

Definition inlined_meaning (clone : S → InlinedStructPtr.InlinedStructPtr S) : Meaning S (StructChange S) := {|
  m_clone s := InlinedStructPtr.get (clone s);
  m_change c v :=
    match c, v with
    | SInitialize, v => Ok (Some (default fresh v))
    | SStore s, Some _ => Ok (Some s)
    | SStore _, None => Crash AssertFailed
    end;
  m_moves := true;
|}.

(** A debug build stops at the failed assertion, a release build does not. *)
Definition dchecked (f : fault) : Prop := debug = true ∨ f ≠ AssertFailed.

Lemma inlined_laws clone : (∀ s, inlined_ok fresh (clone s)) →
  wrapper_laws dchecked (inlined_wrapper clone) (inlined_meaning clone) InlinedStructPtr.get (inlined_ok fresh).
Proof.
  intros Hclone. split.
  - done.
  - done.
  - by intros [] [].
  - intros a [s [|]] _ _; cbn; eexists; split; [done|done|done|]. split; [|done].
    destruct (clone s) eqn:E. specialize (Hclone s). by rewrite E in Hclone.
  - done.
  - intros [|s] [x [|]] Hok; cbn.
    + specialize (Hok eq_refl). cbn in Hok. subst x. by eexists.
    + by eexists.
    + unfold InlinedStructPtr.store, InlinedStructPtr.deref. by intros [->|].
    + eexists. unfold InlinedStructPtr.store, InlinedStructPtr.deref. cbn. by destruct debug.
Qed.
End struct_instances.

(** C33: whatever a program does with arrays, strings and pointers to structs - make, destroy,
    reset, swap, move (also to themselves), clone and change them - they stand for the
    nullable lists, strings and structs that serialization takes: a moved-from wrapper is
    null (a string is copied), null and empty stay distinct, a null wrapper holds nothing, and a
    program is stopped exactly where an element or struct is used that is not there.  There is
    one exception: a release build does not stop a program that writes through a null
    [InlinedStructPtr], and nothing is said of what follows that. *)
Theorem wrappers_refine {T S : Type} (zero : T) (clone : T → T) (move_only debug : bool) (fresh : S)
    (clone_struct : S → StructPtr.StructPtr S) (clone_inlined : S → InlinedStructPtr.InlinedStructPtr S) :
  (∀ s, inlined_ok fresh (clone_inlined s)) →
  refines every_fault (array_wrapper zero clone move_only) (array_meaning zero clone move_only)
    array_value array_ok ∧
  refines every_fault string_wrapper string_meaning string_value string_ok ∧
  refines every_fault (struct_ptr_wrapper debug fresh clone_struct)
    (struct_ptr_meaning debug fresh clone_struct) StructPtr.get (λ _, True) ∧
  refines (dchecked debug) (inlined_wrapper debug fresh clone_inlined) (inlined_meaning fresh clone_inlined)
    InlinedStructPtr.get (inlined_ok fresh).
Proof.
  intros Hclone. split_and!; apply laws_refine;
    [apply array_laws|apply string_laws|apply struct_ptr_laws|by apply inlined_laws].
Qed.

(** ** Examples

    Variable 1 takes over the array of variable 0, which becomes null; a copy of it is moved
    to itself and becomes null too. *)
Definition sample_program : list (Op (ArrayChange Z)) :=
  [ODefault 0; OChange 0 (AResize 2); OChange 0 (ASetAt 1 7); OMoveNew 1 0; ODefault 2; OClone 2 1; OMove 2 2;
   OChange 2 (ASwapVector []); OChange 1 (APushBack 8)].

Example sample_program_runs :
  run_ops (run_op (array_wrapper 0 id false)) sample_program ∅ =
  Ok {[ 0%nat := Array.mkArray [] true; 1%nat := Array.mkArray [0; 7; 8] false; 2%nat := Array.mkArray [] false ]}.
Proof. vm_compute. reflexivity. Qed.

(** Store a struct through a pointer once it is initialized, and through a null one. *)
Definition inlined_program (null : bool) : list (Op (StructChange Z)) :=
  [ODefault 0; ODefault 1; OChange 0 SInitialize; OChange 0 (SStore 7); OMove 1 0; OClone 0 1] ++
  (if null then [OReset 1; OChange 1 (SStore 5)] else []).

Lemma wrappers_refine_witness :
  let clone_inlined := λ s : Z, InlinedStructPtr.mkInlined s false in
  let inlined debug := run_ops (run_op (inlined_wrapper debug 0 clone_inlined)) in
  (∀ s, inlined_ok 0 (clone_inlined s)) ∧
  refines every_fault (array_wrapper 0 id false) (array_meaning 0 id false) array_value array_ok ∧
  run_ops (mean_op (array_meaning 0 id false)) sample_program ∅ =
    Ok {[ 0%nat := None; 1%nat := Some [0; 7; 8]; 2%nat := Some [] ]} ∧
  refines (dchecked false) (inlined_wrapper false 0 clone_inlined) (inlined_meaning 0 clone_inlined)
    InlinedStructPtr.get (inlined_ok 0) ∧
  run_ops (mean_op (inlined_meaning 0 clone_inlined)) (inlined_program false) ∅ =
    Ok {[ 0%nat := Some 7; 1%nat := Some 7 ]} ∧
  run_ops (mean_op (inlined_meaning 0 clone_inlined)) (inlined_program true) ∅ = Crash AssertFailed ∧
  inlined true (inlined_program true) ∅ = Crash AssertFailed ∧
  inlined false (inlined_program true) ∅ =
    Ok {[ 0%nat := InlinedStructPtr.mkInlined 7 false; 1%nat := InlinedStructPtr.mkInlined 5 true ]}.
Proof.
  intros clone_inlined inlined.
  assert (Hclone : ∀ s, inlined_ok 0 (clone_inlined s)) by (intros ? [=]).
  split; [exact Hclone|].
  destruct (wrappers_refine 0 id false false 0 (λ s, StructPtr.mkStructPtr (Some s)) clone_inlined Hclone)
    as (Harray & _ & _ & Hinlined).
  split; [exact Harray|]. split; [vm_compute; reflexivity|]. split; [exact Hinlined|].
  repeat split; vm_compute; reflexivity.
Defined.

(** Without [MOJO_DCHECK] a struct that was stored through a null [InlinedStructPtr] is
    found in the "new" struct that it is initialized to. *)
Example inlined_keeps_stale (s fresh : Z) :
  InlinedStructPtr.store false s (InlinedStructPtr.default_ fresh) ≫= (λ p, Ok (InlinedStructPtr.get (InlinedStructPtr.Initialize p))) =
  Ok (Some s).
Proof. done. Qed.
