(* ===== verification/CppSerialize.v ===== *)
(** * Serialization of C++ arrays, maps and strings

    [array_serialization.h], [map_serialization.h] and [string_serialization.cc]: from
    the wrapper types an application uses ([Array<E>], [Map<Key, Value>], [String],
    scoped handles) to the wire data of [CppArray] and back.

    The templates are instantiated with the wrapper type [E], here a [kind];
    [wrapper k] is the type of its values and [DataType k] what
    [WrapperTraits<E>::DataType] makes of it.  Serializing moves handles out of the
    value, so that each function returns the value as it leaves it. *)
From stdpp Require Import base list numbers option gmap.
From S2P Require Import Prelude Memory TypeDescriptor Validate Sample Codec CppBindings CppArray CppMap.

(** ** Wrapper types

    [KHandle] is a [ScopedHandleBase<H>] or an [InterfaceRequest<I>].  Structs and
    unions are left to generated code.  Of a map, [less] is the [<] of its keys if
    these are numbers. *)
Inductive kind : Set :=
| KPod (sizeof : Z)
| KBool
| KHandle
| KInterface
| KString
| KArray (k : kind)
| KMap (less : Z → Z → bool) (key value : kind).

(** A null array or string is [None]; an interface handle is a handle and a version. *)
Fixpoint wrapper (k : kind) : Type :=
  match k with
  | KPod _ | KHandle => Z
  | KBool => bool
  | KInterface => Z * Z
  | KString => option (list Z)
  | KArray k => option (list (wrapper k))
  | KMap _ key value => Map (wrapper key) (wrapper value)
  end.

(** [<] of the keys; the keys of a map are numbers, booleans or strings. *)
Definition key_less (less : Z → Z → bool) (key : kind) : wrapper key → wrapper key → bool :=
  match key with
  | KPod _ => less
  | KBool => bool_less
  | KString => String_less
  | _ => λ _ _, false
  end.

(** [WrapperTraits<E>::DataType] *)
Fixpoint DataType (k : kind) : element Empty_set Empty_set :=
  match k with
  | KPod sizeof => Pod sizeof
  | KBool => Bool
  | KHandle => HandleElem
  | KInterface => Interface_Data
  | KString => ArrayPtr String_Data
  | KArray k => ArrayPtr (DataType k)
  | KMap _ key value => MapPtr (DataType key) (DataType value)
  end.

(** ** Sizes, in [size_t] *)
Definition String_GetSerializedSize (input : option (list Z)) : Z :=
  match input with
  | None => 0
  | Some s => Align (u64 (sizeof_ArrayHeader + Z.of_nat (length s)))
  end.

(** [size += ...] over the elements *)
Definition sum_sizes {A} (size : A → Z) (l : list A) (init : Z) : Z :=
  foldl (λ acc x, u64 (acc + size x)) init l.

(** [GetSerializedSize_(const Array<E>&)] given the size of an element, with the
    [ArraySerializer] for [E]. *)
Definition Array_GetSerializedSize (k : kind) {A} (size : A → Z) (input : option (list A)) : Z :=
  match input with
  | None => 0
  | Some l =>
      let n := Z.of_nat (length l) in
      match k with
      | KBool => u64 (sizeof_ArrayHeader + Align (u64 (n + 7) / 8))
      | KPod _ | KHandle | KInterface =>
          u64 (sizeof_ArrayHeader + Align (u64 (n * sizeof_StorageType (DataType k))))
      | KString | KArray _ | KMap _ _ _ =>
          sum_sizes size l (u64 (sizeof_ArrayHeader + u64 (n * 8)))
      end
  end.

(** [MapSerializer::GetBaseArraySize].  There is no [MapSerializer] for interfaces and
    interface requests: such maps do not compile. *)
Definition GetBaseArraySize (k : kind) (count : Z) : Z :=
  match k with
  | KBool => Align (u64 (count + 7) / 8)
  | KPod _ | KHandle | KInterface => Align (u64 (count * sizeof_StorageType (DataType k)))
  | KString | KArray _ | KMap _ _ _ => u64 (count * 8)
  end.

(** [GetSerializedSize_(const Map<MapKey, MapValue>&)], given
    [MapSerializer::GetItemSize] of keys and values *)
Definition Map_GetSerializedSize (key value : kind) {K V} (KeySize : K → Z) (ValueSize : V → Z) (input : Map K V)
    : Z :=
  if is_null_ input then 0
  else
  let count := Map_size input in
  let key_base_size := u64 (sizeof_ArrayHeader + GetBaseArraySize key count) in
  let value_base_size := u64 (sizeof_ArrayHeader + GetBaseArraySize value count) in
  let key_data_size := sum_sizes (λ e, KeySize e.1) (map_ input) 0 in
  let value_data_size := sum_sizes (λ e, ValueSize e.2) (map_ input) 0 in
  u64 (sizeof_Map_Data + key_base_size + key_data_size + value_base_size + value_data_size).

(** The size of what an element of an array points to; null elements are skipped. *)
Fixpoint GetSerializedSize (k : kind) : wrapper k → Z :=
  match k with
  | KString => String_GetSerializedSize
  | KArray k => Array_GetSerializedSize k (GetSerializedSize k)
  | KMap _ key value => Map_GetSerializedSize key value (GetSerializedSize key) (GetSerializedSize value)
  | _ => λ _, 0
  end.

Section serialize.
Context (debug : bool).

(** ** Access to elements *)

(** [Array_Data::at] *)
Definition Array_at {H S U} (t : element S U) (array i : Z) : stateR (mem * H) Z :=
  num_elements ← read (λ m, array_num_elements m array);
  MOJO_DCHECK debug (i <? num_elements);;
  mret (storage_at t array i).

(** [memcpy] of an array of [size]-byte values into memory, and out of it. *)
Fixpoint store_values (size : nat) (p : Z) (l : list Z) (m : mem) : result mem :=
  match l with
  | [] => Ok m
  | v :: l =>
      m ← store_le size m p v;
      store_values size (p + Z.of_nat size) l m
  end.
Fixpoint load_values (size n : nat) (p : Z) (m : mem) : result (list Z) :=
  match n with
  | O => Ok []
  | S n =>
      v ← load_le size m p;
      l ← load_values size n (p + Z.of_nat size) m;
      Ok (v :: l)
  end.

(** ** Serialization *)
Abbreviation Ser := (stateR (mem * FixedBuffer)).

Definition SerializeString_ (input : option (list Z)) : Ser Z :=
  match input with
  | None => mret 0
  | Some s =>
      result ← Array_New debug (String_Data (S := Empty_set) (U := Empty_set)) (Z.of_nat (length s));
      (if negb (result =? 0)
       then write (store_values 1 (storage_at (String_Data (S := Empty_set) (U := Empty_set)) result 0) s)
       else mret tt);;
      mret result
  end.

(** [for (i = 0; i < num_elements; ++i, ++it) { ...; if (...) return error; }],
    returning the elements as they are left. *)
Fixpoint serialize_each {A} (i : Z) (l : list A) (body : Z → A → Ser (ValidationError * A))
    : Ser (ValidationError * list A) :=
  match l with
  | [] => mret (NONE, [])
  | x :: l =>
      '(retval, x) ← body i x;
      if negb (bool_decide (retval = NONE)) then mret (retval, x :: l)
      else
      '(retval, l) ← serialize_each (i + 1) l body;
      mret (retval, x :: l)
  end.

(** [SerializeArray_], given [ArraySerializer<E, F>::SerializeElements]; the pointer
    is [*output], which is assigned only on success. *)
Definition SerializeArray_ (k : kind) {A}
    (SerializeElements : list A → Z → ArrayValidateParams → Ser (ValidationError * list A))
    (input : option (list A)) (validate_params : option ArrayValidateParams)
    : Ser (ValidationError * Z * option (list A)) :=
  match input with
  | None => mret (NONE, 0, None)
  | Some l =>
      params ← lift (deref_params validate_params);
      if negb (expected_num_elements params =? 0) &&
         negb (Z.of_nat (length l) =? expected_num_elements params)
      then mret (UNEXPECTED_ARRAY_HEADER, 0, Some l)
      else
      result ← Array_New debug (DataType k) (Z.of_nat (length l));
      '(retval, l) ← SerializeElements l result params;
      if negb (bool_decide (retval = NONE)) then mret (retval, 0, Some l)
      else mret (NONE, result, Some l)
  end.

Definition no_params (validate_params : ArrayValidateParams) : bool :=
  negb (bool_decide (is_Some (element_validate_params validate_params))).

(** The loop body of the serializer of pointers, after [SerializeCaller::Run]. *)
Definition store_element (k : kind) {A} (output i : Z) (nullable : bool) (r : ValidationError * Z * A)
    : Ser (ValidationError * A) :=
  let '(retval, element, x) := r in
  if negb (bool_decide (retval = NONE)) then mret (retval, x)
  else
  slot ← Array_at (DataType k) output i;
  write (λ m, store64 m slot element);;
  if negb nullable && (element =? 0) then mret (UNEXPECTED_NULL_POINTER, x) else mret (NONE, x).

(** *** [SerializeElements] of the [ArraySerializer]s, for an [Array<E>::Iterator] *)
Definition serialize_pods (size : Z) (l : list Z) (output : Z) (vp : ArrayValidateParams)
    : Ser (ValidationError * list Z) :=
  MOJO_DCHECK debug (negb (element_is_nullable vp));;
  MOJO_DCHECK debug (no_params vp);;
  (if bool_decide (l = []) then mret tt
   else write (store_values (Z.to_nat size) (storage_at (DataType (KPod size)) output 0) l));;
  mret (NONE, l).

Definition serialize_bools (l : list bool) (output : Z) (vp : ArrayValidateParams)
    : Ser (ValidationError * list bool) :=
  MOJO_DCHECK debug (negb (element_is_nullable vp));;
  MOJO_DCHECK debug (no_params vp);;
  serialize_each 0 l (λ i b,
    _ ← Array_at (DataType KBool) output i;
    write (BitRef_set output i b);;
    mret (NONE, b)).

Definition serialize_handles (l : list Z) (output : Z) (vp : ArrayValidateParams)
    : Ser (ValidationError * list Z) :=
  MOJO_DCHECK debug (no_params vp);;
  serialize_each 0 l (λ i h,
    slot ← Array_at (DataType KHandle) output i;
    write (λ m, store32 m slot h);;
    if negb (element_is_nullable vp) && (h =? MOJO_HANDLE_INVALID)
    then mret (UNEXPECTED_INVALID_HANDLE, MOJO_HANDLE_INVALID)
    else mret (NONE, MOJO_HANDLE_INVALID)).

Definition serialize_interfaces (l : list (Z * Z)) (output : Z) (vp : ArrayValidateParams)
    : Ser (ValidationError * list (Z * Z)) :=
  MOJO_DCHECK debug (no_params vp);;
  serialize_each 0 l (λ i '(h, version),
    slot ← Array_at (DataType KInterface) output i;
    write (λ m, store32 m slot h);;
    write (λ m, store32 m (slot + 4) version);;
    if negb (element_is_nullable vp) && (h =? MOJO_HANDLE_INVALID)
    then mret (UNEXPECTED_INVALID_HANDLE, (MOJO_HANDLE_INVALID, 0))
    else mret (NONE, (MOJO_HANDLE_INVALID, 0))).

(** [SerializeCaller::Run] of a string *)
Definition SerializeCaller_String (s : option (list Z)) (validate_params : option ArrayValidateParams)
    : Ser (ValidationError * Z * option (list Z)) :=
  MOJO_DCHECK debug (match validate_params with
    | Some p => no_params p && negb (element_is_nullable p) && (expected_num_elements p =? 0)
    | None => false end);;
  element ← SerializeString_ s;
  mret (NONE, element, s).

(** The serializer of pointers, given [SerializeCaller::Run]. *)
Definition serialize_pointers (k : kind) {A}
    (Run : A → option ArrayValidateParams → Ser (ValidationError * Z * A))
    (l : list A) (output : Z) (vp : ArrayValidateParams) : Ser (ValidationError * list A) :=
  serialize_each 0 l (λ i x,
    r ← Run x (element_validate_params vp);
    store_element k output i (element_is_nullable vp) r).

(** Of numbers, for any other iterator *)
Definition serialize_each_pod (size : Z) (l : list Z) (output : Z) (vp : ArrayValidateParams)
    : Ser (ValidationError * list Z) :=
  MOJO_DCHECK debug (negb (element_is_nullable vp));;
  MOJO_DCHECK debug (no_params vp);;
  serialize_each 0 l (λ i v,
    slot ← Array_at (DataType (KPod size)) output i;
    write (λ m, store_le (Z.to_nat size) m slot v);;
    mret (NONE, v)).

(** [SerializeElements] for the iterators of the keys and of the values of a map,
    given that for arrays *)
Definition serialize_iterated (k : kind) :
    (list (wrapper k) → Z → ArrayValidateParams → Ser (ValidationError * list (wrapper k))) →
    list (wrapper k) → Z → ArrayValidateParams → Ser (ValidationError * list (wrapper k)) :=
  match k with
  | KPod size => λ _, serialize_each_pod size
  | _ => λ SerializeElements, SerializeElements
  end.

(** [SerializeMap_], given [SerializeElements] of keys and of values; the pointer is
    [*output], which is assigned only on success.  The keys are constant. *)
Definition SerializeMap_ (key value : kind) {K V}
    (SerializeKeys : list K → Z → ArrayValidateParams → Ser (ValidationError * list K))
    (SerializeValues : list V → Z → ArrayValidateParams → Ser (ValidationError * list V))
    (input : Map K V) (value_validate_params : option ArrayValidateParams)
    : Ser (ValidationError * Z * Map K V) :=
  if is_null_ input then mret (NONE, 0, input)
  else
  result ← Map_New debug;
  keys_data ← Array_New debug (DataType key) (Map_size input);
  write (λ m, store64 m (result + 8) keys_data);;
  '(keys_retval, _) ← SerializeKeys (map fst (map_ input)) keys_data
    (MapKeyValidateParamsFactory_Get (DataType key));
  if negb (bool_decide (keys_retval = NONE)) then mret (keys_retval, 0, input)
  else
  values_data ← Array_New debug (DataType value) (Map_size input);
  write (λ m, store64 m (result + 16) values_data);;
  params ← lift (deref_params value_validate_params);
  '(values_retval, values) ← SerializeValues (map snd (map_ input)) values_data params;
  let input := mkMap (zip (map fst (map_ input)) values) false in
  if negb (bool_decide (values_retval = NONE)) then mret (values_retval, 0, input)
  else mret (NONE, result, input).

Fixpoint SerializeElements (k : kind) : list (wrapper k) → Z → ArrayValidateParams →
    Ser (ValidationError * list (wrapper k)) :=
  match k with
  | KPod size => serialize_pods size
  | KBool => serialize_bools
  | KHandle => serialize_handles
  | KInterface => serialize_interfaces
  | KString => serialize_pointers KString SerializeCaller_String
  | KArray k => serialize_pointers (KArray k) (SerializeArray_ k (SerializeElements k))
  | KMap less key value => serialize_pointers (KMap less key value) (SerializeMap_ key value
      (serialize_iterated key (SerializeElements key)) (serialize_iterated value (SerializeElements value)))
  end.

(** ** Deserialization *)
Abbreviation De := (stateR (mem * unit)).

(** [for (i = 0; i < input->size(); ++i) result.at(i) = body(i);]; as in
    [for_each_element], [n], the size at the start, bounds the model's recursion. *)
Fixpoint collect {A} (input n : Z) (l : list Z) (body : Z → De A) : De (list A) :=
  num ← read (λ m, array_num_elements m input);
  match l with
  | [] => if n <? num then crash OutOfFuel else mret []
  | i :: l =>
      if num <=? i then mret []
      else
      x ← body i;
      xs ← collect input n l body;
      mret (x :: xs)
  end.
Definition deserialize_each {A} (input : Z) (body : Z → De A) : De (list A) :=
  n ← read (λ m, array_num_elements m input);
  collect input n (seqZ 0 n) body.

(** [FetchAndReset] of a handle *)
Definition fetch_handle (slot : Z) : De Z :=
  h ← read (λ m, load32 m slot);
  write (λ m, store32 m slot MOJO_HANDLE_INVALID);;
  mret h.

Definition Deserialize_String (input : Z) : De (option (list Z)) :=
  if input =? 0 then mret None
  else
  n ← read (λ m, array_num_elements m input);
  s ← read (load_values 1 (Z.to_nat n) (storage_at (String_Data (S := Empty_set) (U := Empty_set)) input 0));
  mret (Some s).

(** [Deserialize_] of an array, given [ArraySerializer<E, F>::DeserializeElements] *)
Definition Deserialize_Array {A} (DeserializeElements : Z → De (list A)) (input : Z)
    : De (option (list A)) :=
  if input =? 0 then mret None
  else
  l ← DeserializeElements input;
  mret (Some l).

(** [Deserialize_] of a map *)
Definition Deserialize_Map {K V} (less : K → K → bool) (DeserializeKeys : Z → De (list K))
    (DeserializeValues : Z → De (list V)) (input : Z) : De (Map K V) :=
  if input =? 0 then mret Map_default
  else
  keys_ptr ← read (λ m, load64 m (input + 8));
  keys ← Deserialize_Array DeserializeKeys keys_ptr;
  values_ptr ← read (λ m, load64 m (input + 16));
  values ← Deserialize_Array DeserializeValues values_ptr;
  lift (Map_of less debug keys values).

(** *** [DeserializeElements] of the [ArraySerializer]s *)
Definition deserialize_pods (size input : Z) : De (list Z) :=
  n ← read (λ m, array_num_elements m input);
  read (load_values (Z.to_nat size) (Z.to_nat n) (storage_at (DataType (KPod size)) input 0)).
Definition deserialize_bools (input : Z) : De (list bool) :=
  deserialize_each input (λ i,
    _ ← Array_at (DataType KBool) input i;
    read (BitRef_get input i)).
Definition deserialize_handles (input : Z) : De (list Z) :=
  deserialize_each input (λ i,
    slot ← Array_at (DataType KHandle) input i;
    fetch_handle slot).
Definition deserialize_interfaces (input : Z) : De (list (Z * Z)) :=
  deserialize_each input (λ i,
    slot ← Array_at (DataType KInterface) input i;
    h ← fetch_handle slot;
    version ← read (λ m, load32 m (slot + 4));
    mret (h, version)).
Definition deserialize_pointers (k : kind) {A} (Run : Z → De A) (input : Z) : De (list A) :=
  deserialize_each input (λ i,
    slot ← Array_at (DataType k) input i;
    p ← read (λ m, load64 m slot);
    Run p).

Fixpoint DeserializeElements (k : kind) : Z → De (list (wrapper k)) :=
  match k with
  | KPod size => deserialize_pods size
  | KBool => deserialize_bools
  | KHandle => deserialize_handles
  | KInterface => deserialize_interfaces
  | KString => deserialize_pointers KString Deserialize_String
  | KArray k => deserialize_pointers (KArray k) (Deserialize_Array (DeserializeElements k))
  | KMap less key value => deserialize_pointers (KMap less key value)
      (Deserialize_Map (key_less less key) (DeserializeElements key) (DeserializeElements value))
  end.
End serialize.

(** ** An array as an application sees it *)
Definition Array_Serialize (debug : bool) (k : kind) (input : option (list (wrapper k)))
    (validate_params : option ArrayValidateParams) :=
  SerializeArray_ debug k (SerializeElements debug k) input validate_params.
Definition Array_Deserialize (debug : bool) (k : kind) (input : Z) :=
  Deserialize_Array (DeserializeElements debug k) input.
Definition Array_Size (k : kind) (input : option (list (wrapper k))) : Z :=
  GetSerializedSize (KArray k) input.

(** ** A map as an application sees it *)
Definition Map_Serialize (debug : bool) (key value : kind) (input : Map (wrapper key) (wrapper value))
    (value_validate_params : option ArrayValidateParams) :=
  SerializeMap_ debug key value (serialize_iterated debug key (SerializeElements debug key))
    (serialize_iterated debug value (SerializeElements debug value)) input value_validate_params.
Definition Map_Deserialize (debug : bool) (less : Z → Z → bool) (key value : kind) (input : Z) :=
  Deserialize_Map debug (key_less less key) (DeserializeElements debug key) (DeserializeElements debug value) input.
Definition Map_SerializedSize (less : Z → Z → bool) (key value : kind)
    (input : Map (wrapper key) (wrapper value)) : Z :=
  GetSerializedSize (KMap less key value) input.

(** An array of two strings, one null, and an array of arrays of [bool] survive. *)
Example strings_roundtrip :
  let m := words 4096 (replicate 16 0) in
  (v ← Array_Serialize true KString (Some [Some [104; 105]; None])
    (Some (mkArrayValidateParams 0 true (Some (mkArrayValidateParams 0 false None))))
    (m, FixedBuffer_Initialize 4096 64);
   let '((_, p, _), (m, b)) := v in
   '(x, _) ← Array_Deserialize true KString p (m, tt);
   Ok (p, cursor_ b, x)) = Ok (4096, 40, Some [Some [104; 105]; None]).
Proof. by vm_compute. Qed.

(** A map of strings to bytes survives. *)
Example map_roundtrip :
  let m := words 4096 (replicate 24 0) in
  let input := mkMap [(Some [97], 1); (Some [97; 98], 2)] false in
  (v ← Map_Serialize true KString (KPod 1) input (Some (mkArrayValidateParams 0 false None))
    (m, FixedBuffer_Initialize 4096 96);
   let '((_, p, _), (m, b)) := v in
   '(x, _) ← Map_Deserialize true Z.ltb KString (KPod 1) p (m, tt);
   Ok (p, cursor_ b, x)) = Ok (4096, 96, input) ∧
  Map_SerializedSize Z.ltb KString (KPod 1) input = 96.
Proof. split; by vm_compute. Qed.
