(* ===== verification/CppSerializeSteps.v ===== *)
(** * Steps of the serialization of C++ values

    [touches]: what a serializing step writes.  [decodes]: a deserializing step gives a
    value in every memory that agrees with the present one on the object; the
    specification of serializing is in terms of it.  Allocation, the loops over the
    elements of an array, and the bits of arrays of [bool]. *)
From stdpp Require Import base list numbers option gmap.
From S2P Require Import Prelude Memory TypeDescriptor Validate Sample Codec Buffer CppBindings CppAgrees CppArray CppArrayAgrees CppMap CppSerialize.

(** ** Writes confined to a region *)
Definition touches (R : Z → Prop) (m m' : mem) : Prop :=
  agree_on (outside R) m m' ∧ ∀ x, is_Some (m' !! x) ↔ is_Some (m !! x).

Lemma touches_refl R m : touches R m m.
Proof. by split; [intros x _|]. Qed.
Lemma touches_mono R R' m m' : touches R m m' → (∀ x, R x → R' x) → touches R' m m'.
Proof. intros [Ha Hd] HR. split; [|done]. intros x Hx. apply Ha. intros Hr. by apply Hx, HR. Qed.
Lemma touches_trans R1 R2 m1 m2 m3 :
  touches R1 m1 m2 → touches R2 m2 m3 → touches (union R1 R2) m1 m3.
Proof.
  intros [Ha1 Hd1] [Ha2 Hd2]. split.
  - intros x Hx. rewrite Ha1, Ha2; [done| |]; intros Hr; apply Hx; [by right|by left].
  - intros x. by rewrite Hd2, Hd1.
Qed.
Lemma touches_agree R R' m m' : touches R m m' → disjoint R' R → agree_on R' m m'.
Proof. intros [Ha _] Hd x Hx. apply Ha. intros Hr. by apply (Hd x). Qed.
Lemma touches_mapped R m m' lo hi : touches R m m' → mapped m lo hi → mapped m' lo hi.
Proof. intros [_ Hd] Hm x Hx. apply Hd. auto. Qed.

Lemma store_touches n m p v : mapped m p (p + Z.of_nat n) →
  ∃ m', store_le n m p v = Ok m' ∧ touches (range p (p + Z.of_nat n)) m m' ∧
    load_le n m' p = Ok (v `mod` 256 ^ Z.of_nat n).
Proof.
  intros Hm. destruct (store_le_mapped n m p v Hm) as [m' Hs]. exists m'. split_and!; [done| |].
  - split; [intros x Hx; by apply (store_le_frame _ _ _ _ _ Hs)|].
    intros x. by apply (store_le_is_Some _ _ _ _ _ _ Hs).
  - by apply store_le_load in Hs.
Qed.

(** ** Reading back *)
Abbreviation De := (stateR (mem * unit)).

(** [D] gives [w] wherever memory is as in [m] on [K] and [F], and writes only [F]. *)
Definition decodes {A} (K F : Z → Prop) (D : De A) (w : A) (m : mem) : Prop :=
  ∀ m2, agree_on (union K F) m m2 →
    ∃ m3, D (m2, tt) = Ok (w, (m3, tt)) ∧ agree_on (outside F) m2 m3.

Lemma decodes_ret {A} K F (a : A) m : decodes K F (mret a) a m.
Proof. intros m2 _. exists m2. split; [done|by intros x _]. Qed.

Lemma decodes_agree {A} K F (D : De A) w m m' :
  decodes K F D w m → agree_on (union K F) m m' → decodes K F D w m'.
Proof.
  intros Hd Ha m2 Hm. apply Hd. by eapply agree_on_trans.
Qed.

Lemma decodes_weaken {A} K F K' F' (D : De A) w m :
  decodes K F D w m → (∀ x, K x → K' x ∨ F' x) → (∀ x, F x → F' x) → decodes K' F' D w m.
Proof.
  intros Hd HK HF m2 Hm. destruct (Hd m2) as (m3 & ? & Hout).
  { eapply agree_on_sub; [done|]. intros x [Hx|Hx]; [by apply HK|right; by apply HF]. }
  exists m3. split; [done|]. intros x Hx. apply Hout. intros Hf. by apply Hx, HF.
Qed.

Lemma decodes_bind {A B} K F1 F2 (D : De A) (k : A → De B) a b m :
  decodes K F1 D a m → decodes K F2 (k a) b m → disjoint K F1 → disjoint F2 F1 →
  decodes K (union F1 F2) (x ← D; k x) b m.
Proof.
  intros H1 H2 HK HF m2 Hm. destruct (H1 m2) as (m3 & HD & Hout1).
  { eapply agree_on_sub; [done|]. intros x [Hx|Hx]; [by left|by right; left]. }
  destruct (H2 m3) as (m4 & Hk & Hout2).
  { intros x Hx. rewrite Hm by (destruct Hx; [by left|by right; right]). apply Hout1.
    intros Hf. destruct Hx as [Hx|Hx]; [by apply (HK x)|by apply (HF x)]. }
  exists m4. split.
  - unfold mbind, stateR_bind. by rewrite HD.
  - intros x Hx. rewrite Hout1, Hout2; [done| |]; intros Hf; apply Hx; [by right|by left].
Qed.

Lemma decodes_map {A B} K F (D : De A) (g : A → B) a m :
  decodes K F D a m → decodes K F (x ← D; mret (g x)) (g a) m.
Proof.
  intros HD m2 Hm. destruct (HD m2 Hm) as (m3 & Hr & Hout). exists m3.
  unfold mbind, stateR_bind. by rewrite Hr.
Qed.

Lemma decodes_read {A B} K F (f : mem → result A) (k : A → De B) a b m :
  (∀ m2, agree_on (union K F) m m2 → f m2 = Ok a) → decodes K F (k a) b m →
  decodes K F (x ← read f; k x) b m.
Proof.
  intros Hf Hk m2 Hm. unfold mbind, stateR_bind. rewrite read_eq, (Hf m2 Hm). by apply Hk.
Qed.

Lemma decodes_dcheck {A} debug K F b (k : De A) w m :
  b = true → decodes K F k w m → decodes K F (MOJO_DCHECK debug b;; k) w m.
Proof. intros -> Hk m2 Hm. destruct (Hk m2 Hm) as (m3 & Hr & ?). exists m3. by destruct debug. Qed.

Lemma decodes_fetch_handle K p h m :
  load32 m p = Ok h → decodes K (range p (p + 4)) (fetch_handle p) h m.
Proof.
  intros Hh m2 Hm. assert (load32 m2 p = Ok h) as Hh2.
  { rewrite <- Hh. symmetry. apply load32_agree. eapply agree_on_sub; [done|]. by right. }
  destruct (store_touches 4 m2 p MOJO_HANDLE_INVALID) as (m3 & Hs & [Ht _] & _).
  { by apply load32_mapped in Hh2. }
  exists m3. split; [|done]. unfold fetch_handle, mbind, stateR_bind. rewrite read_eq, Hh2, write_eq.
  unfold store32. by rewrite Hs.
Qed.

(** ** Allocation *)
Record fb_ok (m : mem) (b : FixedBuffer) : Prop := {
  fb_ptr : 0 < ptr_ b;
  fb_cursor : 0 <= cursor_ b <= size_ b;
  fb_aligned : cursor_ b mod 8 = 0;
  fb_size : size_ b < 2 ^ 32;
  fb_end : ptr_ b + size_ b < 2 ^ 63;
  fb_mapped : mapped m (ptr_ b) (ptr_ b + size_ b);
}.
Definition here (b : FixedBuffer) : Z := ptr_ b + cursor_ b.
Definition advance (b : FixedBuffer) (n : Z) : FixedBuffer := mkFixedBuffer (ptr_ b) (cursor_ b + n) (size_ b).

Lemma fb_advance_0 b : advance b 0 = b.
Proof. destruct b. unfold advance. cbn. by rewrite Z.add_0_r. Qed.
Lemma advance_advance b n k : advance (advance b n) k = advance b (n + k).
Proof. unfold advance. cbn. by rewrite Z.add_assoc. Qed.
Lemma here_advance b n : here (advance b n) = here b + n.
Proof. unfold here, advance. cbn. lia. Qed.

Lemma fb_advance m m' R b n : fb_ok m b → touches R m m' → 0 <= n → n mod 8 = 0 →
  cursor_ b + n <= size_ b → fb_ok m' (advance b n).
Proof.
  intros [H1 H2 H3 H4 H5 H6] Ht Hn Hal Hroom. split; cbn; try done.
  - lia.
  - rewrite Z.add_mod by lia. by rewrite H3, Hal.
  - by eapply touches_mapped.
Qed.

Lemma Allocate_ok debug m b n : fb_ok m b → 0 < n → cursor_ b + round8 n <= size_ b →
  FixedBuffer_Allocate debug n b = Ok (here b, advance b (round8 n)).
Proof.
  intros [? ? ? ? ? ?] Hn Hroom. pose proof (round8_bounds n).
  unfold FixedBuffer_Allocate, mbind, stateR_bind, get_state. rewrite Align_round8 by lia.
  rewrite u64_small by lia. replace (round8 n =? 0) with false by lia.
  replace (size_ b - cursor_ b <? round8 n) with false by lia. cbn [orb].
  unfold put_state, advance. by rewrite u64_small by lia.
Qed.

(** Bytes that the elements of an array take. *)
Definition data {S U} (t : element S U) (n : Z) : Z :=
  match t with Bool => (n + 7) / 8 | _ => sizeof_StorageType t * n end.
Definition few_bools {S U} (t : element S U) (n : Z) : Prop := t = Bool → n < 2 ^ 32 - 7.

Lemma data_nonneg {S U} (t : element S U) n : 0 <= sizeof_StorageType t → 0 <= n → 0 <= data t n.
Proof. intros Hs Hn. pose proof (Z.div_pos (n + 7) 8). destruct t; cbn in *; lia. Qed.

Lemma GetStorageSize_data {S U} debug (t : element S U) n :
  1 <= sizeof_StorageType t <= 16 → 0 <= n → 8 + data t n < 2 ^ 32 → few_bools t n →
  (kMaxNumElements t <? n) = false ∧ GetStorageSize debug t n = Ok (8 + data t n).
Proof.
  intros Hs Hn Hd Hb. assert (t = Bool ∨ t ≠ Bool) as [->|Ht] by (destruct t; auto).
  - specialize (Hb eq_refl). cbn [data kMaxNumElements GetStorageSize] in *.
    unfold GetStorageSize_bool, kMaxUint32, sizeof_ArrayHeader. pose proof (Z.div_pos (n + 7) 8).
    rewrite (u32_small (n + 7)) by lia. rewrite u32_small by lia. split; [lia|done].
  - assert (data t n = sizeof_StorageType t * n) as Hdt by (by destruct t). rewrite Hdt in *.
    assert ((kMaxNumElements t <? n) = false) as Hm.
    { assert (kMaxNumElements t = (4294967295 - 8) / sizeof_StorageType t) as -> by (by destruct t).
      apply Z.ltb_ge. apply Z.div_le_lower_bound; lia. }
    by rewrite GetStorageSize_eq.
Qed.

Lemma Array_New_ok {S U} debug (t : element S U) n m b :
  1 <= sizeof_StorageType t <= 16 → 0 <= n < 2 ^ 32 → few_bools t n →
  fb_ok m b → cursor_ b + round8 (8 + data t n) <= size_ b →
  ∃ m', Array_New debug t n (m, b) = Ok (here b, (m', advance b (round8 (8 + data t n)))) ∧
    touches (range (here b) (here b + 8)) m m' ∧
    load32 m' (here b) = Ok (8 + data t n) ∧ load32 m' (here b + 4) = Ok n.
Proof.
  intros Hs Hn Hb Hok Hroom. pose proof Hok as [? ? ? ? ? Hm].
  pose proof (data_nonneg t n). pose proof (round8_bounds (8 + data t n)).
  destruct (GetStorageSize_data debug t n) as [Hmax Hsize]; [done|lia|lia|done|].
  unfold Array_New. rewrite Hmax, u32_small, Hsize by done. cbn [mbind result_bind snd fst].
  rewrite (Allocate_ok debug m) by (done || lia). cbn.
  replace (here b =? 0) with false by (unfold here; lia).
  destruct (store_touches 4 m (here b) (8 + data t n)) as (m1 & Hs1 & Ht1 & Hl1).
  { eapply mapped_sub; [done|unfold here; lia|unfold here; lia]. }
  destruct (store_touches 4 m1 (here b + 4) n) as (m2 & Hs2 & Ht2 & Hl2).
  { eapply mapped_sub; [by eapply touches_mapped|unfold here; lia|unfold here; lia]. }
  unfold store32. rewrite Hs1. cbn. rewrite Hs2. exists m2. split_and!; [done| | |].
  - eapply touches_mono; [by eapply touches_trans|]. intros x [Hx|Hx]; unfold range in *; lia.
  - rewrite Z.mod_small in Hl1 by lia. rewrite <- Hl1. symmetry. apply (load_le_agree 4).
    eapply touches_agree; [exact Ht2|]. intros x Hx Hy. unfold range in *. lia.
  - by rewrite Z.mod_small in Hl2 by lia.
Qed.

(** ** Elements *)
Definition header (out : Z) : Z → Prop := range out (out + 8).

Lemma Array_at_ok {H S U} debug (t : element S U) out n i m (h : H) :
  load32 m (out + 4) = Ok n → i < n → Array_at debug t out i (m, h) = Ok (storage_at t out i, (m, h)).
Proof.
  intros Hn Hi. unfold Array_at, mbind, stateR_bind, array_num_elements. rewrite read_eq, Hn.
  replace (i <? n) with true by lia. by destruct debug.
Qed.

Lemma decodes_at {A S U} debug (t : element S U) out n i F (k : Z → De A) w m :
  load32 m (out + 4) = Ok n → i < n →
  decodes (header out) F (k (storage_at t out i)) w m →
  decodes (header out) F (slot ← Array_at debug t out i; k slot) w m.
Proof.
  intros Hn Hi Hk m2 Hm. unfold mbind, stateR_bind. rewrite (Array_at_ok _ _ _ n); [by apply Hk| |done].
  rewrite <- Hn. symmetry. apply load32_agree. eapply agree_on_sub; [done|].
  intros x Hx. left. unfold header, range in *. lia.
Qed.

Definition total {A} (size : A → Z) (l : list A) : Z := foldr (λ x acc, size x + acc) 0 l.

Lemma total_cons {A} (size : A → Z) x l : total size (x :: l) = size x + total size l.
Proof. done. Qed.
Lemma total_append {A} (size : A → Z) l1 l2 : total size (l1 ++ l2) = total size l1 + total size l2.
Proof. induction l1 as [|x l1 IH]; [done|]. cbn [app]. rewrite !total_cons, IH. lia. Qed.
Lemma total_zero {A} (l : list A) : total (λ _, 0) l = 0.
Proof. by induction l. Qed.
Lemma total_ge_0 {A} (size : A → Z) l : (∀ x, 0 <= size x) → 0 <= total size l.
Proof. intros Hs. induction l as [|x l IH]; [done|]. rewrite total_cons. specialize (Hs x). lia. Qed.
Lemma total_take {A} (size : A → Z) l j x : (∀ x, 0 <= size x) → l !! j = Some x →
  0 <= total size (take j l) ∧ total size (take j l) + size x <= total size l.
Proof.
  intros Hs Hj. split; [by apply total_ge_0|].
  rewrite <- (take_drop_middle l j x Hj) at 2. rewrite total_append, total_cons.
  pose proof (total_ge_0 size (drop (Datatypes.S j) l) Hs). lia.
Qed.
Lemma total_take_cons {A} (size : A → Z) x l j : total size (take (Datatypes.S j) (x :: l)) = size x + total size (take j l).
Proof. done. Qed.

Lemma total_spec {A} (size : A → Z) l : Forall (λ x, 0 <= size x ∧ size x mod 8 = 0) l →
  0 <= total size l ∧ total size l mod 8 = 0.
Proof.
  induction 1 as [|x l [H1 H2] _ [IH1 IH2]]; [done|].
  change (total size (x :: l)) with (size x + total size l). split; [lia|].
  rewrite Z.add_mod by lia. by rewrite H2, IH2.
Qed.

(** ** Values copied as they are *)
Lemma store_values_ok size l : ∀ p m, mapped m p (p + Z.of_nat size * Z.of_nat (length l)) →
  Forall (λ v, 0 <= v < 256 ^ Z.of_nat size) l →
  ∃ m', store_values size p l m = Ok m' ∧
    touches (range p (p + Z.of_nat size * Z.of_nat (length l))) m m' ∧
    load_values size (length l) p m' = Ok l.
Proof.
  induction l as [|v l IH]; intros p m Hm Hl; cbn [length] in *.
  { exists m. split_and!; [done|apply touches_refl|done]. }
  apply Forall_cons in Hl as [Hv Hl]. cbn [store_values load_values].
  destruct (store_touches size m p v) as (m1 & Hs1 & Ht1 & Hl1); [eapply mapped_sub; [done|lia|lia]|].
  destruct (IH (p + Z.of_nat size) m1) as (m2 & Hs2 & Ht2 & Hl2); [|done|].
  { eapply mapped_sub; [by eapply touches_mapped|lia|lia]. }
  exists m2. unfold mbind, result_bind. rewrite Hs1. split_and!; [done| |].
  - eapply touches_mono; [by eapply touches_trans|]. intros x [Hx|Hx]; unfold range in *; lia.
  - rewrite <- (load_le_agree size m1 m2).
    + by rewrite Hl1, Z.mod_small, Hl2.
    + eapply touches_agree; [exact Ht2|]. intros x Hx Hy. unfold range in *. lia.
Qed.

Lemma load_values_agree size n : ∀ p m m', agree_on (range p (p + Z.of_nat size * Z.of_nat n)) m m' →
  load_values size n p m = load_values size n p m'.
Proof.
  induction n as [|n IH]; intros p m m' Ha; [done|]. cbn [load_values].
  rewrite (load_le_agree size m m') by (eapply agree_on_sub; [done|]; unfold range; lia).
  rewrite (IH _ m m') by (eapply agree_on_sub; [done|]; unfold range; lia). done.
Qed.

(** ** Bits *)
Definition bit_of (storage k : Z) : bool := negb (Z.land storage (Z.shiftl 1 k) =? 0).
Definition set_bit (storage k : Z) (value : bool) : Z :=
  let mask := Z.shiftl 1 k in if value then Z.lor storage mask else Z.land storage (255 - mask).

Lemma forallb_seqZ (f : Z → bool) lo n x : forallb f (seqZ lo n) = true → lo <= x < lo + n → f x = true.
Proof. rewrite forallb_forall. intros Hf Hx. apply Hf, list_elem_of_In, elem_of_seqZ. lia. Qed.

(** All bytes, all pairs of bits. *)
Definition set_bit_check : bool :=
  forallb (λ s, forallb (λ k, forallb (λ value,
    let s' := set_bit s k value in
    (0 <=? s') && (s' <? 256) &&
    forallb (λ i, Bool.eqb (bit_of s' i) (if i =? k then value else bit_of s i)) (seqZ 0 8))
    [true; false]) (seqZ 0 8)) (seqZ 0 256).

Lemma set_bit_spec s k value i : 0 <= s < 256 → 0 <= k < 8 → 0 <= i < 8 →
  0 <= set_bit s k value < 256 ∧ bit_of (set_bit s k value) i = if i =? k then value else bit_of s i.
Proof.
  intros Hs Hk Hi. assert (set_bit_check = true) as Hc by by vm_compute.
  apply (forallb_seqZ _ _ _ s) in Hc; [|lia]. apply (forallb_seqZ _ _ _ k) in Hc; [|lia].
  rewrite forallb_forall in Hc. specialize (Hc value ltac:(destruct value; [by left|by right; left])).
  apply andb_true_iff in Hc as [[H1 H2]%andb_true_iff Hc]. split; [lia|].
  apply (forallb_seqZ _ _ _ i) in Hc; [|lia]. by apply eqb_prop in Hc.
Qed.

Lemma BitRef_get_eq out i m : BitRef_get out i m =
  match load_le 1 m (out + 8 + i / 8) with Ok s => Ok (bit_of s (i mod 8)) | Crash e => Crash e end.
Proof. done. Qed.

Lemma BitRef_set_ok out j v m : 0 <= j → mapped m (out + 8 + j / 8) (out + 8 + j / 8 + 1) →
  ∃ m', BitRef_set out j v m = Ok m' ∧
    touches (range (out + 8 + j / 8) (out + 8 + j / 8 + 1)) m m' ∧ BitRef_get out j m' = Ok v ∧
    ∀ i, 0 <= i → i ≠ j → BitRef_get out i m' = BitRef_get out i m.
Proof.
  intros Hj Hm. destruct (load_le_mapped 1 m (out + 8 + j / 8)) as [s Hs]; [done|].
  pose proof (load_le_range _ _ _ _ Hs) as Hr. change (256 ^ Z.of_nat 1) with 256 in Hr.
  destruct (store_touches 1 m (out + 8 + j / 8) (set_bit s (j mod 8) v)) as (m' & Hst & Ht & Hl); [done|].
  pose proof (Z.mod_pos_bound j 8) as Hj8. change (256 ^ Z.of_nat 1) with 256 in Hl.
  rewrite Z.mod_small in Hl by (apply (set_bit_spec s (j mod 8) v (j mod 8)); lia).
  exists m'. split_and!; [|done| |].
  - unfold BitRef_set, sizeof_ArrayHeader. unfold mbind, result_bind. by rewrite Hs.
  - rewrite BitRef_get_eq, Hl. f_equal. by rewrite (proj2 (set_bit_spec s (j mod 8) v (j mod 8) Hr ltac:(lia) ltac:(lia))), Z.eqb_refl.
  - intros i Hi Hne. rewrite !BitRef_get_eq.
    pose proof (Z.mod_pos_bound i 8) as Hi8.
    destruct (decide (i / 8 = j / 8)) as [He|He].
    + rewrite He, Hl, Hs. f_equal.
      rewrite (proj2 (set_bit_spec s (j mod 8) v (i mod 8) Hr ltac:(lia) ltac:(lia))).
      replace (i mod 8 =? j mod 8) with false; [done|]. symmetry. apply Z.eqb_neq. intros Hm8.
      apply Hne. rewrite (Z.div_mod i 8), (Z.div_mod j 8) by lia. by rewrite He, Hm8.
    + rewrite (load_le_agree 1 m' m); [done|]. apply agree_on_sym. eapply touches_agree; [done|].
      intros x Hx Hy. unfold range in *. lia.
Qed.
