(* ===== verification/CppLayout.v ===== *)
(** * The layout of C++ arrays, maps and strings on the wire

    What may be sent, the space it takes, and the layout of it in memory: [elements_at]
    says where every element, and everything it points to, lies.  Pointers are
    addresses, or, after encoding, distances.  The layout depends only on the bytes of
    its region, and of encoded ones only on their distance. *)
From stdpp Require Import base list numbers option gmap sorting.
From S2P Require Import Prelude Memory TypeDescriptor Validate Sample Codec Buffer CppBindings CppAgrees CppArray CppArrayAgrees CppMap CppSerialize CppSerializeSteps.

(** ** What may be serialized, and what it becomes *)

(** The values of a type of keys that are compared. *)
Definition key_valid (key : kind) : wrapper key → Prop :=
  match key with KPod size => λ v, 0 <= v < 256 ^ size | _ => λ _, True end.

(** Maps have ordered keys, and no interfaces as values, for which they do not compile. *)
Fixpoint kind_ok (k : kind) : Prop :=
  match k with
  | KPod size => 1 <= size <= 8
  | KArray k => kind_ok k
  | KMap less key value => kind_ok key ∧ kind_ok value ∧
      match key with KPod _ | KBool | KString => True | _ => False end ∧
      match value with KInterface => False | _ => True end ∧
      less_ok (key_valid key) (key_less less key)
  | _ => True
  end.

(** The parameters belong to the type, numbers are in range, and what is null may
    be. *)
Definition array_ok {A} (k : kind) (elements_ok : ArrayValidateParams → list A → Prop)
    (vp : ArrayValidateParams) (l : list A) : Prop :=
  (expected_num_elements vp = 0 ∨ Z.of_nat (length l) = expected_num_elements vp) ∧
  few_bools (DataType k) (Z.of_nat (length l)) ∧ elements_ok vp l.

(** The entries of a map, in order, its keys and its values. *)
Definition map_entries_ok {V} less (key : kind)
    (keys_ok : list (wrapper key) → Prop) (values_ok : list V → Prop) (m : list (wrapper key * V)) : Prop :=
  StronglySorted (λ a b, key_less less key a.1 b.1 = true) m ∧ keys_ok (map fst m) ∧ values_ok (map snd m).

Fixpoint elements_ok (k : kind) : ArrayValidateParams → list (wrapper k) → Prop :=
  match k with
  | KPod size => λ vp l, element_is_nullable vp = false ∧ element_validate_params vp = None ∧
      Forall (λ v, 0 <= v < 256 ^ size) l
  | KBool => λ vp l, element_is_nullable vp = false ∧ element_validate_params vp = None
  | KHandle => λ vp l, element_validate_params vp = None ∧
      Forall (λ h, 0 <= h < 2 ^ 32 ∧ (h = 0 → element_is_nullable vp = true)) l
  | KInterface => λ vp l, element_validate_params vp = None ∧
      Forall (λ x : Z * Z, 0 <= x.1 < 2 ^ 32 ∧ 0 <= x.2 < 2 ^ 32 ∧
        (x.1 = 0 → element_is_nullable vp = true)) l
  | KString => λ vp l, element_validate_params vp = Some (mkArrayValidateParams 0 false None) ∧
      Forall (λ s, match s with
                   | None => element_is_nullable vp = true
                   | Some s => Forall (λ c, 0 <= c < 256) s
                   end) l
  | KArray k => λ vp l, ∃ p, element_validate_params vp = Some p ∧
      Forall (λ a, match a with
                   | None => element_is_nullable vp = true
                   | Some l => array_ok k (elements_ok k) p l
                   end) l
  | KMap less key value => λ vp l, ∃ p, element_validate_params vp = Some p ∧
      Forall (λ M, if is_null_ M then element_is_nullable vp = true ∧ map_ M = []
        else map_entries_ok less key
          (array_ok key (elements_ok key) (MapKeyValidateParamsFactory_Get (DataType key)))
          (array_ok value (elements_ok value) p) (map_ M)) l
  end.

(** The value after its handles were moved out of it. *)
Definition map_emptied {K V} (after : V → V) (M : Map K V) : Map K V :=
  mkMap (map (λ e, (e.1, after e.2)) (map_ M)) (is_null_ M).
Fixpoint emptied (k : kind) : wrapper k → wrapper k :=
  match k with
  | KHandle => λ _, MOJO_HANDLE_INVALID
  | KInterface => λ _, (MOJO_HANDLE_INVALID, 0)
  | KArray k => option_map (map (emptied k))
  | KMap _ key value => map_emptied (emptied value)
  | _ => λ x, x
  end.

(** The space that what an element points to takes on the wire. *)
Definition array_wire_size {A} (k : kind) (size : A → Z) (l : list A) : Z :=
  round8 (8 + data (DataType k) (Z.of_nat (length l))) + total size l.
Definition map_wire_size {K V} (key value : kind) (ksize : K → Z) (vsize : V → Z) (M : Map K V) : Z :=
  if is_null_ M then 0
  else sizeof_Map_Data + array_wire_size key ksize (map fst (map_ M)) + array_wire_size value vsize (map snd (map_ M)).
Fixpoint wire_size (k : kind) : wrapper k → Z :=
  match k with
  | KString => λ s, match s with None => 0 | Some s => round8 (8 + Z.of_nat (length s)) end
  | KArray k => λ a, match a with None => 0 | Some l => array_wire_size k (wire_size k) l end
  | KMap _ key value => map_wire_size key value (wire_size key) (wire_size value)
  | _ => λ _, 0
  end.

Lemma sizeof_kind k : kind_ok k → 1 <= sizeof_StorageType (DataType k) <= 16.
Proof. destruct k; cbn; lia. Qed.

Lemma array_wire_size_ok {A} k (size : A → Z) l : kind_ok k →
  (∀ x, 0 <= size x ∧ size x mod 8 = 0) →
  0 <= array_wire_size k size l ∧ array_wire_size k size l mod 8 = 0.
Proof.
  intros Hk Hsize. unfold array_wire_size.
  destruct (total_spec size l) as [H1 H2]; [apply Forall_forall; intros; by apply Hsize|].
  pose proof (sizeof_kind k Hk). pose proof (data_nonneg (DataType k) (Z.of_nat (length l))).
  pose proof (round8_nonneg (8 + data (DataType k) (Z.of_nat (length l)))). split; [lia|].
  rewrite Z.add_mod, H2, round8_aligned by lia. done.
Qed.

Lemma map_wire_size_ok {K V} key value (ksize : K → Z) (vsize : V → Z) M : kind_ok key → kind_ok value →
  (∀ x, 0 <= ksize x ∧ ksize x mod 8 = 0) → (∀ x, 0 <= vsize x ∧ vsize x mod 8 = 0) →
  0 <= map_wire_size key value ksize vsize M ∧ map_wire_size key value ksize vsize M mod 8 = 0.
Proof.
  intros Hk Hv Hks Hvs. destruct M as [m [|]]; [done|]. unfold map_wire_size. cbn [is_null_ map_].
  destruct (array_wire_size_ok key ksize (map fst m) Hk Hks) as [H1 H2].
  destruct (array_wire_size_ok value vsize (map snd m) Hv Hvs) as [H3 H4].
  unfold sizeof_Map_Data. split; [lia|]. rewrite Z.add_mod, H4, (Z.add_mod 24), H2 by lia. done.
Qed.

Lemma wire_size_ok k : kind_ok k → ∀ w, 0 <= wire_size k w ∧ wire_size k w mod 8 = 0.
Proof.
  induction k as [| | | | |k IH|less key IHk value IHv]; intros Hk w; try done; cbn in *.
  - destruct w as [s|]; [|done]. split; [apply round8_nonneg; lia|apply round8_aligned].
  - destruct w as [l|]; [|done]. auto using array_wire_size_ok.
  - destruct Hk as (Hk & Hv & _). apply map_wire_size_ok; auto.
Qed.

(** ** The layout *)

(** [m'] holds at a distance what [m] holds in a region. *)
Definition shifted (d : Z) (R : Z → Prop) (m m' : mem) : Prop := ∀ x, R x → m !! x = m' !! (x + d).

Lemma shifted_0 R m m' : agree_on R m m' ↔ shifted 0 R m m'.
Proof. split; intros H x Hx; specialize (H x Hx); by rewrite ?Z.add_0_r in *. Qed.
Lemma shifted_sub d R R' m m' : shifted d R m m' → (∀ x, R' x → R x) → shifted d R' m m'.
Proof. intros H HR x Hx. auto. Qed.

Lemma load_le_S n m a : load_le (S n) m a =
  match load_byte m a with
  | Ok b => match load_le n m (a + 1) with Ok r => Ok (b + 256 * r) | Crash f => Crash f end
  | Crash f => Crash f
  end.
Proof. done. Qed.

Lemma load_le_shifted d n : ∀ m m' a, shifted d (range a (a + Z.of_nat n)) m m' →
  load_le n m' (a + d) = load_le n m a.
Proof.
  induction n as [|n IH]; intros m m' a Hs; [done|]. rewrite !load_le_S. unfold load_byte.
  rewrite (Hs a) by (unfold range; lia). replace (a + d + 1) with (a + 1 + d) by lia.
  rewrite (IH m); [done|]. eapply shifted_sub; [done|]. unfold range. lia.
Qed.

Lemma load_values_shifted d size n : ∀ m m' a,
  shifted d (range a (a + Z.of_nat size * Z.of_nat n)) m m' →
  load_values size n (a + d) m' = load_values size n a m.
Proof.
  induction n as [|n IH]; intros m m' a Hs; [done|]. cbn [load_values].
  rewrite (load_le_shifted d size m) by (eapply shifted_sub; [done|]; unfold range; lia).
  replace (a + d + Z.of_nat size) with (a + Z.of_nat size + d) by lia.
  rewrite (IH m); [done|]. eapply shifted_sub; [done|]. unfold range. lia.
Qed.

Section layout.
Context (encoded : bool).

Definition points (slot p : Z) (m : mem) : Prop := load64 m slot = Ok (if encoded then p - slot else p).

(** Elements from [i] on, what they point to starting at [a]. *)
Fixpoint each_at {A} (P : Z → A → Z → mem → Prop) (size : A → Z) (i : Z) (l : list A) (a : Z) (m : mem) : Prop :=
  match l with
  | [] => True
  | x :: l => P i x a m ∧ each_at P size (i + 1) l (a + size x) m
  end.

Definition nullable_at {A} (P : A → Z → mem → Prop) (slot : Z) (x : option A) (a : Z) (m : mem) : Prop :=
  match x with None => load64 m slot = Ok 0 | Some l => points slot a m ∧ P l a m end.

Definition array_at {A} (k : kind) (P : Z → list A → Z → mem → Prop) (l : list A) (a : Z) (m : mem) : Prop :=
  let bytes := 8 + data (DataType k) (Z.of_nat (length l)) in
  load32 m a = Ok bytes ∧ load32 m (a + 4) = Ok (Z.of_nat (length l)) ∧ P a l (a + round8 bytes) m.

Definition map_at {K V} (keys_at : list K → Z → mem → Prop) (values_at : list V → Z → mem → Prop)
    (ksize : list K → Z) (l : list (K * V)) (a : Z) (m : mem) : Prop :=
  let keys := a + sizeof_Map_Data in
  let values := keys + ksize (map fst l) in
  load32 m a = Ok sizeof_Map_Data ∧ load32 m (a + 4) = Ok 0 ∧
  points (a + 8) keys m ∧ keys_at (map fst l) keys m ∧
  points (a + 16) values m ∧ values_at (map snd l) values m.

Definition entries {K V} (M : Map K V) : option (list (K * V)) := if is_null_ M then None else Some (map_ M).

Definition pods_at (size out : Z) (l : list Z) (a : Z) (m : mem) : Prop :=
  load_values (Z.to_nat size) (length l) (out + 8) m = Ok l.

Fixpoint elements_at (k : kind) (out : Z) : list (wrapper k) → Z → mem → Prop :=
  match k with
  | KPod size => pods_at size out
  | KBool => λ l a m, ∀ (j : nat) v, l !! j = Some v → BitRef_get out (Z.of_nat j) m = Ok v
  | KHandle => each_at (λ i h a m, load32 m (out + 8 + 4 * i) = Ok h) (λ _, 0) 0
  | KInterface => each_at (λ i x a m, load32 m (out + 8 + 8 * i) = Ok x.1 ∧
      load32 m (out + 8 + 8 * i + 4) = Ok x.2) (λ _, 0) 0
  | KString => each_at (λ i s a m, nullable_at (array_at (KPod 1) (pods_at 1)) (out + 8 + 8 * i) s a m)
      (wire_size KString) 0
  | KArray k => each_at (λ i x a m, nullable_at (array_at k (elements_at k)) (out + 8 + 8 * i) x a m)
      (wire_size (KArray k)) 0
  | KMap less key value => each_at (λ i M a m, nullable_at
      (map_at (array_at key (elements_at key)) (array_at value (elements_at value)) (array_wire_size key (wire_size key)))
      (out + 8 + 8 * i) (entries M) a m) (wire_size (KMap less key value)) 0
  end.

Lemma each_at_spec {A} (P : Z → A → Z → mem → Prop) size l : ∀ i a m,
  each_at P size i l a m ↔
  ∀ (j : nat) x, l !! j = Some x → P (i + Z.of_nat j) x (a + total size (take j l)) m.
Proof.
  induction l as [|x l IH]; intros i a m; cbn [each_at]; [done|]. rewrite IH. split.
  - intros [Hx Hl] [|j] y Hj; cbn in Hj.
    + injection Hj as <-. by rewrite !Z.add_0_r.
    + rewrite total_take_cons. replace (i + Z.of_nat (S j)) with (i + 1 + Z.of_nat j) by lia.
      rewrite Z.add_assoc. by apply Hl.
  - intros H. split; [specialize (H 0%nat x eq_refl); cbn in H; by rewrite !Z.add_0_r in H|].
    intros j y Hj. specialize (H (S j) y Hj). rewrite total_take_cons in H.
    replace (i + 1 + Z.of_nat j) with (i + Z.of_nat (S j)) by lia. by rewrite <- Z.add_assoc.
Qed.

Lemma each_at_impl {A} (P Q : Z → A → Z → mem → Prop) size l i a a' m m' :
  each_at P size i l a m →
  (∀ (j : nat) x, l !! j = Some x → P (i + Z.of_nat j) x (a + total size (take j l)) m →
    Q (i + Z.of_nat j) x (a' + total size (take j l)) m') →
  each_at Q size i l a' m'.
Proof. rewrite !each_at_spec. auto. Qed.
End layout.

(** ** Only the region counts *)
Definition pointed (a s : Z) : Z → Prop := range a (a + s).
Definition storage out bytes : Z → Prop := range (out + 8) (out + 8 + bytes).
(** The bytes of the elements from [i] to [j], of [es] bytes each. *)
Definition slots (out es i j : Z) : Z → Prop := range (out + 8 + es * i) (out + 8 + es * j).

(** What is said of an element depends on its bytes, and on those it points to, only. *)
Definition local {A} (out es : Z) (size : A → Z) (P : Z → A → Z → mem → Prop) : Prop := ∀ i x a m m', P i x a m →
  agree_on (union (slots out es i (i + 1)) (pointed a (size x))) m m' → P i x a m'.

Section shift.
Context (encoded : bool) (d : Z) (Hd : encoded = false → d = 0).

Lemma points_shifted slot p m m' : shifted d (range slot (slot + 8)) m m' →
  points encoded slot p m → points encoded (slot + d) (p + d) m'.
Proof.
  unfold points, load64. intros Hs Hp. rewrite (load_le_shifted d 8 m) by done. rewrite Hp. f_equal.
  destruct encoded; [lia|]. rewrite Hd by done. lia.
Qed.

Definition shiftable {A} (size : A → Z) (P : A → Z → mem → Prop) : Prop := ∀ x a m m',
  P x a m → shifted d (pointed a (size x)) m m' → P x (a + d) m'.

Lemma nullable_shifted {A} (P : A → Z → mem → Prop) (size : A → Z) slot x a m m' :
  shiftable size P → nullable_at encoded P slot x a m →
  shifted d (union (range slot (slot + 8)) (pointed a (match x with Some l => size l | None => 0 end))) m m' →
  nullable_at encoded P (slot + d) x (a + d) m'.
Proof.
  intros HP Hx Hs. destruct x as [l|]; cbn [nullable_at] in *.
  - destruct Hx as [Hp Hl]. split.
    + eapply points_shifted; [|done]. eapply shifted_sub; [done|]. by left.
    + eapply HP; [done|]. eapply shifted_sub; [done|]. by right.
  - unfold load64. rewrite (load_le_shifted d 8 m); [done|]. eapply shifted_sub; [done|]. by left.
Qed.

Lemma array_at_shifted {A} k (P : Z → list A → Z → mem → Prop) (size : A → Z) : kind_ok k → (∀ x, 0 <= size x) →
  (∀ out l a m m', P out l a m → shifted d (union (storage out (data (DataType k) (Z.of_nat (length l))))
    (pointed a (total size l))) m m' → P (out + d) l (a + d) m') →
  shiftable (array_wire_size k size) (array_at k P).
Proof.
  intros Hk Hsize HP l a m m' (Hb & Hn & Hl) Hs. unfold array_at, array_wire_size in *.
  pose proof (sizeof_kind k Hk). pose proof (data_nonneg (DataType k) (Z.of_nat (length l))).
  pose proof (round8_bounds (8 + data (DataType k) (Z.of_nat (length l)))).
  pose proof (total_ge_0 size l Hsize).
  split_and!.
  - rewrite <- Hb. apply (load_le_shifted d 4). eapply shifted_sub; [done|]. unfold pointed, range. lia.
  - rewrite <- Hn. replace (a + d + 4) with (a + 4 + d) by lia. apply (load_le_shifted d 4).
    eapply shifted_sub; [done|]. unfold pointed, range. lia.
  - replace (a + d + round8 (8 + data (DataType k) (Z.of_nat (length l))))
      with (a + round8 (8 + data (DataType k) (Z.of_nat (length l))) + d) by lia.
    eapply HP; [done|]. eapply shifted_sub; [done|]. unfold storage, pointed, union, range. lia.
Qed.

Lemma map_at_shifted {K V} (KP : list K → Z → mem → Prop) (VP : list V → Z → mem → Prop) ksize vsize :
  (∀ l, 0 <= ksize l) → (∀ l, 0 <= vsize l) → shiftable ksize KP → shiftable vsize VP →
  shiftable (λ l, sizeof_Map_Data + ksize (map fst l) + vsize (map snd l)) (map_at encoded KP VP ksize).
Proof.
  intros Hk Hv HKP HVP l a m m' (H1 & H2 & H3 & H4 & H5 & H6) Hs. unfold map_at, sizeof_Map_Data in *.
  specialize (Hk (map fst l)). specialize (Hv (map snd l)). unfold pointed in Hs.
  assert (∀ b n, a <= b → b + n <= a + (24 + ksize (map fst l) + vsize (map snd l)) →
    shifted d (range b (b + n)) m m') as Hsub.
  { intros b n Hb Hn. eapply shifted_sub; [exact Hs|]. unfold range. lia. }
  assert (∀ z, a + d + z = a + z + d) as Hc by lia. rewrite !Hc.
  replace (a + 24 + d + ksize (map fst l)) with (a + 24 + ksize (map fst l) + d) by lia. split_and!.
  - rewrite <- H1. apply (load_le_shifted d 4), Hsub; cbn; lia.
  - rewrite <- H2. apply (load_le_shifted d 4), Hsub; cbn; lia.
  - eapply points_shifted; [apply Hsub; lia|done].
  - eapply HKP; [done|]. apply Hsub; lia.
  - eapply points_shifted; [apply Hsub; lia|done].
  - eapply HVP; [done|]. apply Hsub; lia.
Qed.

Lemma each_shifted {A} (P P' : Z → A → Z → mem → Prop) size l a m m' R : (∀ x, 0 <= size x) →
  each_at P size 0 l a m → shifted d (union R (pointed a (total size l))) m m' →
  (∀ i x b, 0 <= i < Z.of_nat (length l) → P i x b m →
    shifted d (union R (pointed b (size x))) m m' → P' i x (b + d) m') →
  each_at P' size 0 l (a + d) m'.
Proof.
  intros Hsize Hl Hs HP. eapply each_at_impl; [exact Hl|]. intros j x Hj Hx.
  replace (a + d + total size (take j l)) with (a + total size (take j l) + d) by lia.
  destruct (total_take size l j x Hsize Hj). pose proof (lookup_lt_Some _ _ _ Hj).
  apply HP; [lia|done|]. eapply shifted_sub; [done|]. intros y [Hy|Hy]; [by left|right].
  unfold pointed, range in *. lia.
Qed.

Lemma pods_at_shifted size out l a m m' : 1 <= size → pods_at size out l a m →
  shifted d (storage out (size * Z.of_nat (length l))) m m' → pods_at size (out + d) l (a + d) m'.
Proof.
  unfold pods_at. intros Hsz Hl Hs. etransitivity; [|exact Hl]. replace (out + d + 8) with (out + 8 + d) by lia.
  apply load_values_shifted. eapply shifted_sub; [done|]. unfold storage, range. rewrite Z2Nat.id by lia. lia.
Qed.

Lemma wire_size_nonneg k : kind_ok k → ∀ w, 0 <= wire_size k w.
Proof. intros Hk w. by apply wire_size_ok. Qed.

Lemma string_at_shifted : shiftable (λ s, round8 (8 + Z.of_nat (length s))) (array_at (KPod 1) (pods_at 1)).
Proof.
  intros s a m m' Hs Hsh. eapply (array_at_shifted (KPod 1) (pods_at 1) (λ _, 0)); [done|done| |exact Hs|].
  - intros out l b m1 m2 Hl Hs2. eapply pods_at_shifted; [done|exact Hl|]. eapply shifted_sub; [exact Hs2|]. by left.
  - unfold array_wire_size. rewrite total_zero, Z.add_0_r.
    cbn [data DataType sizeof_StorageType]. by rewrite Z.mul_1_l.
Qed.

(** Slots of 8 bytes that point to objects. *)
Lemma slots_shifted {A B} (view : A → option B) (P : B → Z → mem → Prop) osize size out l a m m' :
  (∀ x, 0 <= size x) → (∀ x, size x = match view x with Some y => osize y | None => 0 end) →
  shiftable osize P →
  each_at (λ i x a m, nullable_at encoded P (out + 8 + 8 * i) (view x) a m) size 0 l a m →
  shifted d (union (storage out (8 * Z.of_nat (length l))) (pointed a (total size l))) m m' →
  each_at (λ i x a m, nullable_at encoded P (out + d + 8 + 8 * i) (view x) a m) size 0 l (a + d) m'.
Proof.
  intros Hsize Hview HP Hl Hs. eapply each_shifted; [done|exact Hl|exact Hs|]. cbn beta. intros i x b Hi Hx Hs'.
  replace (out + d + 8 + 8 * i) with (out + 8 + 8 * i + d) by lia.
  eapply nullable_shifted; [exact HP|exact Hx|]. eapply shifted_sub; [exact Hs'|]. rewrite Hview.
  intros y [Hy|Hy]; [left; unfold storage, range in *; lia|by right].
Qed.

Lemma elements_at_shifted k : kind_ok k → ∀ out l a m m', elements_at encoded k out l a m →
  shifted d (union (storage out (data (DataType k) (Z.of_nat (length l)))) (pointed a (total (wire_size k) l))) m m' →
  elements_at encoded k (out + d) l (a + d) m'.
Proof.
  induction k as [size| | | | |k IH|less key IHk value IHv]; intros Hk out l a m m' Hl Hs;
    cbn [elements_at DataType data sizeof_StorageType Interface_Data] in *.
  - eapply pods_at_shifted; [apply Hk|exact Hl|]. eapply shifted_sub; [done|]. by left.
  - cbn [wrapper] in *. intros j v Hj. rewrite <- (Hl j v Hj), !BitRef_get_eq.
    replace (out + d + 8 + Z.of_nat j / 8) with (out + 8 + Z.of_nat j / 8 + d) by lia.
    rewrite (load_le_shifted d 1 m); [done|]. eapply shifted_sub; [done|]. intros y Hy. left.
    apply lookup_lt_Some in Hj. pose proof (Z.div_mod (Z.of_nat j) 8). pose proof (Z.mod_pos_bound (Z.of_nat j) 8).
    pose proof (Z.div_mod (Z.of_nat (length l) + 7) 8). pose proof (Z.mod_pos_bound (Z.of_nat (length l) + 7) 8).
    unfold storage, range in *. lia.
  - cbn [wrapper] in *. eapply each_shifted; [done|exact Hl|exact Hs|]. cbn beta. intros i h b Hi Hh Hs'. rewrite <- Hh.
    replace (out + d + 8 + 4 * i) with (out + 8 + 4 * i + d) by lia. apply (load_le_shifted d 4).
    eapply shifted_sub; [exact Hs'|]. intros y Hy. left. unfold storage, range in *. lia.
  - cbn [wrapper] in *. eapply each_shifted; [done|exact Hl|exact Hs|]. cbn beta. intros i x b Hi [Hh Hv] Hs'. rewrite <- Hh, <- Hv.
    replace (out + d + 8 + 8 * i) with (out + 8 + 8 * i + d) by lia.
    replace (out + 8 + 8 * i + d + 4) with (out + 8 + 8 * i + 4 + d) by lia.
    split; apply (load_le_shifted d 4); eapply shifted_sub; [exact Hs'| |exact Hs'|]; intros y Hy; left;
      unfold storage, range in *; lia.
  - eapply (slots_shifted (λ s, s));
      [by apply (wire_size_nonneg KString)|by intros [x|]|apply string_at_shifted|exact Hl|exact Hs].
  - eapply (slots_shifted (λ x, x));
      [by apply (wire_size_nonneg (KArray k))|by intros [x|]| |exact Hl|exact Hs].
    apply array_at_shifted; [done|by apply wire_size_nonneg|exact (IH Hk)].
  - pose proof Hk as (Hkk & Hkv & _). eapply (slots_shifted entries _ (λ l, sizeof_Map_Data +
      array_wire_size key (wire_size key) (map fst l) + array_wire_size value (wire_size value) (map snd l)));
      [by apply (wire_size_nonneg (KMap less key value))|by intros [x [|]]| |exact Hl|exact Hs].
    apply (map_at_shifted _ _ _ (array_wire_size value (wire_size value))).
    1,2: intros l'; apply array_wire_size_ok; auto using wire_size_ok.
    all: apply array_at_shifted; [done|by apply wire_size_nonneg|exact (IHk Hkk) || exact (IHv Hkv)].
Qed.

Definition map_object_size key value (l : list (wrapper key * wrapper value)) : Z :=
  sizeof_Map_Data + array_wire_size key (wire_size key) (map fst l) + array_wire_size value (wire_size value) (map snd l).
Definition map_object_at key value : list (wrapper key * wrapper value) → Z → mem → Prop :=
  map_at encoded (array_at key (elements_at encoded key)) (array_at value (elements_at encoded value))
    (array_wire_size key (wire_size key)).

Lemma array_object_shifted k : kind_ok k →
  shiftable (array_wire_size k (wire_size k)) (array_at k (elements_at encoded k)).
Proof. intros Hk. apply array_at_shifted; [done|by apply wire_size_nonneg|by apply elements_at_shifted]. Qed.

Lemma map_object_shifted less key value : kind_ok (KMap less key value) →
  shiftable (map_object_size key value) (map_object_at key value).
Proof.
  intros (Hk & Hv & _). apply (map_at_shifted _ _ _ (array_wire_size value (wire_size value)));
    [intros l; apply array_wire_size_ok; auto using wire_size_ok..| |]; by apply array_object_shifted.
Qed.
End shift.

Lemma shiftable_agree {A} (size : A → Z) (P : A → Z → mem → Prop) x a m m' : shiftable 0 size P → P x a m →
  agree_on (pointed a (size x)) m m' → P x a m'.
Proof. intros HP Hx Ha. rewrite <- (Z.add_0_r a). eapply HP; [exact Hx|]. by apply shifted_0. Qed.

Lemma nullable_agree {A} encoded (P : A → Z → mem → Prop) (size : A → Z) slot x a m m' :
  shiftable 0 size P → nullable_at encoded P slot x a m →
  agree_on (union (range slot (slot + 8)) (pointed a (match x with Some l => size l | None => 0 end))) m m' →
  nullable_at encoded P slot x a m'.
Proof.
  intros HP Hx Ha. rewrite <- (Z.add_0_r slot), <- (Z.add_0_r a).
  eapply nullable_shifted; [done|exact HP|exact Hx|]. by apply shifted_0.
Qed.

Lemma elements_at_agree encoded k out l a m m' : kind_ok k → elements_at encoded k out l a m →
  agree_on (union (storage out (data (DataType k) (Z.of_nat (length l)))) (pointed a (total (wire_size k) l))) m m' →
  elements_at encoded k out l a m'.
Proof.
  intros Hk Hl Ha. rewrite <- (Z.add_0_r out), <- (Z.add_0_r a).
  apply (elements_at_shifted encoded 0 ltac:(done) k Hk out l a m); [done|]. by apply shifted_0.
Qed.
