(* ===== verification/CppSerializeElements.v ===== *)
(** * Serialization of C++ values lays them out

    [serializes]: what [SerializeElements] is to do for a kind of elements, and its
    proof for every kind: it returns no error, takes the space of the elements, writes
    nothing else, and leaves the layout of the value behind.  A map is a struct with two
    arrays, of its keys and of its values, serialized one after the other. *)
From stdpp Require Import base list numbers option gmap sorting.
From S2P Require Import Prelude Memory TypeDescriptor Validate Sample Codec Buffer CppBindings CppAgrees CppArray CppArrayAgrees CppMap CppSerialize CppSerializeSteps CppLayout.

Abbreviation Ser := (stateR (mem * FixedBuffer)).
Abbreviation elements_at := (elements_at false).
Abbreviation nullable_at := (nullable_at false).
Abbreviation map_object_at := (map_object_at false).

(** The bytes that are free at the cursor, [s] of them. *)
Definition fresh (b : FixedBuffer) (s : Z) : Z → Prop := pointed (here b) s.

(** ** The loop over the elements *)
Section loop.
Context {A : Type} (out n es : Z) (size : A → Z) (after : A → A).
Context (body : Z → A → Ser (ValidationError * A)) (P : Z → A → Z → mem → Prop).

(** The array at [out] lies in mapped memory below the cursor. *)
Definition array_below (m : mem) (b : FixedBuffer) (bytes : Z) : Prop :=
  0 < out ∧ out + 8 + bytes <= here b ∧ mapped m out (out + 8 + bytes) ∧ load32 m (out + 4) = Ok n.

Definition step_ok (i : Z) (x : A) : Prop := ∀ m b,
  fb_ok m b → cursor_ b + size x <= size_ b → array_below m b (es * n) →
  ∃ m', body i x (m, b) = Ok ((NONE, after x), (m', advance b (size x))) ∧
    touches (union (slots out es i (i + 1)) (fresh b (size x))) m m' ∧ P i x (here b) m'.

Lemma array_below_advance m m' b s bytes R : array_below m b bytes → touches R m m' →
  disjoint (header out) R → 0 <= s → array_below m' (advance b s) bytes.
Proof.
  intros (H0 & H1 & H2 & H3) Ht Hd Hs. split_and!; [done| | |].
  - rewrite here_advance. lia.
  - by eapply touches_mapped.
  - rewrite <- H3. symmetry. apply load32_agree. eapply touches_agree; [done|].
    intros x Hx. apply Hd. unfold header, range in *. lia.
Qed.

Lemma loop_ok (Hlocal : local out es size P) l : ∀ i m b, 0 < es → 0 <= i → i + Z.of_nat (length l) = n →
  (∀ (j : nat) x, l !! j = Some x → step_ok (i + Z.of_nat j) x) →
  (∀ x, 0 <= size x ∧ size x mod 8 = 0) →
  fb_ok m b → cursor_ b + total size l <= size_ b → array_below m b (es * n) →
  ∃ m', serialize_each i l body (m, b) = Ok ((NONE, map after l), (m', advance b (total size l))) ∧
    touches (union (slots out es i n) (fresh b (total size l))) m m' ∧ each_at P size i l (here b) m'.
Proof.
  induction l as [|x l IH]; intros i m b Hes Hi Hlen Hstep Hsize Hok Hroom Hbelow.
  { exists m. cbn. rewrite fb_advance_0. split_and!; [done|apply touches_refl|done]. }
  cbn [length] in Hlen. destruct (Hsize x) as [Hs0 Hs8].
  assert (0 <= total size l) as Ht0 by (apply total_ge_0; intros y; apply Hsize).
  rewrite total_cons in *. pose proof Hbelow as (H0 & Hlow & _ & _).
  destruct (Hstep 0%nat x eq_refl m b) as (m1 & Hb1 & Ht1 & Hx1); [done|lia|done|].
  rewrite Z.add_0_r in Hb1, Ht1, Hx1.
  assert (disjoint (header out) (union (slots out es i (i + 1)) (fresh b (size x)))) as Hh1.
  { intros y Hy [Hx|Hx]; unfold header, slots, fresh, pointed, range in *; nia. }
  assert (fb_ok m1 (advance b (size x))) as Hok1 by (eapply fb_advance; [done|done|lia|done|lia]).
  assert (array_below m1 (advance b (size x)) (es * n)) as Hbelow1 by (by eapply array_below_advance).
  destruct (IH (i + 1) m1 (advance b (size x))) as (m2 & Hb2 & Ht2 & Hl2);
    [done|lia|lia| |done|done|cbn; lia|done|].
  { intros j y Hj. replace (i + 1 + Z.of_nat j) with (i + Z.of_nat (Datatypes.S j)) by lia. by apply Hstep. }
  exists m2. assert (es * (i + 1) = es * i + es) as He1 by lia. assert (es * (i + 1) <= es * n) as He2 by nia.
  split_and!.
  - cbn [serialize_each]. unfold mbind, stateR_bind. rewrite Hb1, bool_decide_true by done. cbn [negb].
    rewrite Hb2. by rewrite advance_advance.
  - eapply touches_mono; [by eapply touches_trans|]. unfold union, slots, fresh, pointed, range.
    rewrite here_advance. intros y [[Hy|Hy]|[Hy|Hy]]; [left|right|left|right]; lia.
  - cbn [each_at]. rewrite here_advance in Hl2. split; [|done]. eapply Hlocal; [exact Hx1|].
    eapply touches_agree; [exact Ht2|]. unfold union, slots, fresh, pointed, range. rewrite here_advance.
    intros y [Hy|Hy] [Hz|Hz]; nia.
Qed.
End loop.

Section elements.
Context (debug : bool).

Abbreviation region out bytes b s := (union (storage out bytes) (fresh b s)).

(** The specification of [SerializeElements]. *)
Definition serializes (k : kind) (ser : list (wrapper k) → Z → ArrayValidateParams →
    Ser (ValidationError * list (wrapper k))) : Prop := ∀ l vp out n m b,
  n = Z.of_nat (length l) → n < 2 ^ 32 → elements_ok k vp l →
  fb_ok m b → cursor_ b + total (wire_size k) l <= size_ b →
  array_below out n m b (data (DataType k) n) →
  ∃ m', ser l out vp (m, b) =
      Ok ((NONE, map (emptied k) l), (m', advance b (total (wire_size k) l))) ∧
    touches (region out (data (DataType k) n) b (total (wire_size k) l)) m m' ∧
    elements_at k out l (here b) m'.
Definition elements_spec (k : kind) : Prop := serializes k (SerializeElements debug k).

(** Of an object that an element points to; [view] is what is there unless it is null. *)
Definition object_spec {A B} (w after : A) (view : option B) (P : B → Z → mem → Prop) (size : Z)
    (ser : Ser (ValidationError * Z * A)) : Prop :=
  ∀ m b, fb_ok m b → cursor_ b + size <= size_ b →
  ∃ p m', ser (m, b) = Ok ((NONE, p, after), (m', advance b size)) ∧ touches (fresh b size) m m' ∧
    match view with None => p = 0 | Some y => p = here b ∧ 0 < p < 2 ^ 63 ∧ P y p m' end.

(** [serialize_each], given its body. *)
Lemma each_ok {A} (l : list A) out n es size after body P m b :
  n = Z.of_nat (length l) → 0 < es → local out es size P → (∀ (j : nat) x, l !! j = Some x →
    step_ok out n es size after body P (Z.of_nat j) x) →
  (∀ x, 0 <= size x ∧ size x mod 8 = 0) →
  fb_ok m b → cursor_ b + total size l <= size_ b → array_below out n m b (es * n) →
  ∃ m', serialize_each 0 l body (m, b) = Ok ((NONE, map after l), (m', advance b (total size l))) ∧
    touches (region out (es * n) b (total size l)) m m' ∧ each_at P size 0 l (here b) m'.
Proof.
  intros Hn Hes Hlocal Hstep Hsize Hok Hroom Hbelow.
  destruct (loop_ok out n es size after body P Hlocal l 0 m b) as (m' & Hs & Ht & Hl); try done; try lia.
  assert (slots out es 0 n = storage out (es * n)) as Hsl by (unfold slots, storage; f_equal; lia).
  rewrite Hsl in *. by exists m'.
Qed.

(** *** Elements stored in place *)
Lemma handle_step out n nullable i h : 0 <= i < n → 0 <= h < 2 ^ 32 → (h = 0 → nullable = true) →
  step_ok out n 4 (λ _, 0) (λ _, MOJO_HANDLE_INVALID)
    (λ i h,
      slot ← Array_at debug (DataType KHandle) out i;
      write (λ m, store32 m slot h);;
      if negb nullable && (h =? MOJO_HANDLE_INVALID)
      then mret (UNEXPECTED_INVALID_HANDLE, MOJO_HANDLE_INVALID) else mret (NONE, MOJO_HANDLE_INVALID))
    (λ i h a m, load32 m (out + 8 + 4 * i) = Ok h) i h.
Proof.
  intros Hi Hh Hnull m b Hok _ (H0 & Hlow & Hmap & Hn).
  destruct (store_touches 4 m (out + 8 + 4 * i) h) as (m' & Hs & Ht & Hl); [eapply mapped_sub; [done|lia|lia]|].
  rewrite Z.mod_small in Hl by done. exists m'. rewrite fb_advance_0. split_and!; [| |done].
  - unfold mbind, stateR_bind. rewrite (Array_at_ok _ _ _ n) by (done || lia). rewrite write_eq.
    change (storage_at (DataType KHandle) out i) with (out + 8 + 4 * i). unfold store32. rewrite Hs.
    replace (negb nullable && (h =? MOJO_HANDLE_INVALID)) with false; [done|].
    unfold MOJO_HANDLE_INVALID. destruct (h =? 0) eqn:E; [|by rewrite andb_false_r].
    by rewrite Hnull by lia.
  - eapply touches_mono; [exact Ht|]. intros x Hx. left. unfold slots, range in *. lia.
Qed.

Lemma handle_elements : elements_spec KHandle.
Proof.
  intros l vp out n m b Hn Hn32 [Hp Hl] Hok Hroom Hbelow.
  rewrite Forall_forall in Hl.
  assert (local out 4 (λ _, 0) (λ i h a m, load32 m (out + 8 + 4 * i) = Ok h)) as Hlocal.
  { intros i h a m1 m2 Hh Ha. rewrite <- Hh. symmetry. apply load32_agree. eapply agree_on_sub; [exact Ha|].
    intros x Hx. left. unfold slots, range in *. lia. }
  destruct (each_ok l out n 4 (λ _, 0) (λ _, MOJO_HANDLE_INVALID) _ _ m b Hn ltac:(done) Hlocal
    (λ j x Hj, handle_step out n (element_is_nullable vp) (Z.of_nat j) x
      ltac:(pose proof (lookup_lt_Some _ _ _ Hj); lia) (proj1 (Hl x (list_elem_of_lookup_2 _ _ _ Hj)))
      (proj2 (Hl x (list_elem_of_lookup_2 _ _ _ Hj))))
    ltac:(done) Hok Hroom Hbelow) as (m' & Hs & Ht & Hd).
  exists m'. split_and!; [|done|done].
  cbn [SerializeElements]. unfold serialize_handles, mbind at 1, stateR_bind at 1, no_params. rewrite Hp.
  replace (MOJO_DCHECK debug _ (m, b)) with (Ok (tt, (m, b))) by by destruct debug. exact Hs.
Qed.

Lemma interface_step out n nullable i x :
  0 <= i < n → 0 <= x.1 < 2 ^ 32 → 0 <= x.2 < 2 ^ 32 → (x.1 = 0 → nullable = true) →
  step_ok out n 8 (λ _, 0) (λ _, (MOJO_HANDLE_INVALID, 0))
    (λ i '(h, version),
      slot ← Array_at debug (DataType KInterface) out i;
      write (λ m, store32 m slot h);;
      write (λ m, store32 m (slot + 4) version);;
      if negb nullable && (h =? MOJO_HANDLE_INVALID)
      then mret (UNEXPECTED_INVALID_HANDLE, (MOJO_HANDLE_INVALID, 0))
      else mret (NONE, (MOJO_HANDLE_INVALID, 0)))
    (λ i x a m, load32 m (out + 8 + 8 * i) = Ok x.1 ∧ load32 m (out + 8 + 8 * i + 4) = Ok x.2) i x.
Proof.
  destruct x as [h v]. cbn [fst snd]. intros Hi Hh Hv Hnull m b Hok _ (H0 & Hlow & Hmap & Hn).
  set (p := out + 8 + 8 * i) in *.
  destruct (store_touches 4 m p h) as (m1 & Hs1 & Ht1 & Hl1); [eapply mapped_sub; [done|lia|lia]|].
  destruct (store_touches 4 m1 (p + 4) v) as (m2 & Hs2 & Ht2 & Hl2).
  { eapply mapped_sub; [by eapply touches_mapped|lia|lia]. }
  rewrite Z.mod_small in Hl1, Hl2 by done. exists m2. rewrite fb_advance_0. split_and!; [| | |done].
  - unfold mbind, stateR_bind. rewrite (Array_at_ok _ _ _ n) by (done || lia).
    rewrite write_eq. change (storage_at (DataType KInterface) out i) with p.
    unfold store32. rewrite Hs1, write_eq, Hs2.
    replace (negb nullable && (h =? MOJO_HANDLE_INVALID)) with false; [done|].
    unfold MOJO_HANDLE_INVALID. destruct (h =? 0) eqn:E; [|by rewrite andb_false_r].
    by rewrite Hnull by lia.
  - eapply touches_mono; [by eapply touches_trans|]. intros x [Hx|Hx]; left; unfold slots, range in *; lia.
  - cbn [fst]. fold p. rewrite <- Hl1. symmetry. apply (load_le_agree 4). eapply touches_agree; [exact Ht2|].
    intros x Hx Hy. unfold range in *. lia.
Qed.

Lemma interface_elements : elements_spec KInterface.
Proof.
  intros l vp out n m b Hn Hn32 [Hp Hl] Hok Hroom Hbelow.
  rewrite Forall_forall in Hl.
  assert (local out 8 (λ _, 0)
    (λ i x a m, load32 m (out + 8 + 8 * i) = Ok x.1 ∧ load32 m (out + 8 + 8 * i + 4) = Ok x.2)) as Hlocal.
  { intros i x a m1 m2 [Hh Hv] Ha. rewrite <- Hh, <- Hv. split; symmetry; apply load32_agree;
      (eapply agree_on_sub; [exact Ha|]); intros y Hy; left; unfold slots, range in *; lia. }
  destruct (each_ok l out n 8 (λ _, 0) (λ _, (MOJO_HANDLE_INVALID, 0)) _ _ m b Hn ltac:(done) Hlocal
    (λ j x Hj, let Hx := Hl x (list_elem_of_lookup_2 _ _ _ Hj) in
      interface_step out n (element_is_nullable vp) (Z.of_nat j) x
        ltac:(pose proof (lookup_lt_Some _ _ _ Hj); lia) (proj1 Hx) (proj1 (proj2 Hx)) (proj2 (proj2 Hx)))
    ltac:(done) Hok Hroom Hbelow) as (m' & Hs & Ht & Hd).
  exists m'. split_and!; [|done|done].
  cbn [SerializeElements]. unfold serialize_interfaces, mbind at 1, stateR_bind at 1, no_params. rewrite Hp.
  replace (MOJO_DCHECK debug _ (m, b)) with (Ok (tt, (m, b))) by by destruct debug. exact Hs.
Qed.
(** *** Numbers and bits *)
Lemma dchecks_ok {A} vp (k : stateR (mem * FixedBuffer) A) s :
  element_is_nullable vp = false → element_validate_params vp = None →
  (MOJO_DCHECK debug (negb (element_is_nullable vp));; MOJO_DCHECK debug (no_params vp);; k) s = k s.
Proof. intros Hn Hp. unfold no_params. rewrite Hn, Hp. by destruct debug. Qed.

(** What is to be stored, and that it is stored. *)
Lemma pods_stored size l vp out n m b a : 1 <= size <= 8 → n = Z.of_nat (length l) →
  elements_ok (KPod size) vp l → array_below out n m b (size * n) →
  ∃ m', store_values (Z.to_nat size) (out + 8) l m = Ok m' ∧
    touches (storage out (size * n)) m m' ∧ elements_at (KPod size) out l a m'.
Proof.
  intros Hsz Hn (_ & _ & Hl) (H0 & Hlow & Hmap & Hlen). cbn [wrapper] in l, Hn, Hl.
  assert (Z.of_nat (Z.to_nat size) = size) as Hsize by lia.
  destruct (store_values_ok (Z.to_nat size) l (out + 8) m) as (m' & Hs & Ht & Hld).
  { rewrite Hsize, <- Hn. eapply mapped_sub; [done|lia|lia]. }
  { by rewrite Hsize. }
  rewrite Hsize, <- Hn in Ht. by exists m'.
Qed.

Lemma pod_serializes size ser : 1 <= size <= 8 →
  (∀ l vp out n m b m', n = Z.of_nat (length l) → elements_ok (KPod size) vp l →
    array_below out n m b (size * n) → store_values (Z.to_nat size) (out + 8) l m = Ok m' →
    ser l out vp (m, b) = Ok ((NONE, l), (m', b))) → serializes (KPod size) ser.
Proof.
  intros Hsz Hser l vp out n m b Hn Hn32 Hok _ _ Hbelow.
  destruct (pods_stored size l vp out n m b (here b) Hsz Hn Hok Hbelow) as (m' & Hs & Ht & Hl).
  exists m'. cbn [wire_size]. rewrite total_zero, fb_advance_0. cbn [data DataType sizeof_StorageType].
  split_and!; [|eapply touches_mono; [exact Ht|]; intros x Hx; by left|done].
  rewrite (Hser l vp out n m b m') by done. cbn [emptied]. by rewrite map_id.
Qed.

Lemma pod_elements size : 1 <= size <= 8 → elements_spec (KPod size).
Proof.
  intros Hsz. apply pod_serializes; [done|]. intros l vp out n m b m' Hn (Hnull & Hp & _) _ Hs.
  cbn [SerializeElements wrapper] in *. unfold serialize_pods. rewrite dchecks_ok by done.
  unfold mbind, stateR_bind.
  replace (storage_at (DataType (KPod size)) out 0) with (out + 8) by (unfold storage_at, sizeof_ArrayHeader; lia).
  destruct l as [|v l]; [|by rewrite bool_decide_false, write_eq, Hs by done]. by injection Hs as <-.
Qed.

(** One by one they are stored as at once. *)
Lemma each_pod size l : ∀ i out n m m' (b : FixedBuffer), 1 <= size <= 8 → 0 <= i →
  load32 m (out + 4) = Ok n → i + Z.of_nat (length l) <= n →
  store_values (Z.to_nat size) (out + 8 + size * i) l m = Ok m' →
  serialize_each i l (λ i v,
    slot ← Array_at debug (DataType (KPod size)) out i;
    write (λ m, store_le (Z.to_nat size) m slot v);;
    mret (NONE, v)) (m, b) = Ok ((NONE, l), (m', b)).
Proof.
  induction l as [|v l IH]; intros i out n m m' b Hsz Hi Hn Hlen Hs; cbn [length] in Hlen.
  { by injection Hs as <-. }
  cbn [store_values] in Hs. unfold mbind, result_bind in Hs.
  destruct (store_le _ m _ v) as [m1|] eqn:E; [|done].
  assert (load32 m1 (out + 4) = Ok n) as Hn1.
  { rewrite <- Hn. symmetry. apply load32_agree. intros x Hx.
    apply (store_le_frame _ _ _ _ _ E). intros Hy. unfold range in *. nia. }
  cbn [serialize_each]. unfold mbind, stateR_bind. rewrite (Array_at_ok _ _ _ n) by (done || lia).
  rewrite write_eq. unfold storage_at, sizeof_ArrayHeader.
  change (sizeof_StorageType (DataType (KPod size))) with size. rewrite E. cbn [mret stateR_ret]. rewrite bool_decide_true by done. cbn [negb].
  specialize (IH (i + 1) out n m1 m' b Hsz). unfold mbind, stateR_bind in IH. rewrite IH; [done|lia|done|lia|].
  replace (out + 8 + size * (i + 1)) with (out + 8 + size * i + Z.of_nat (Z.to_nat size)) by lia. done.
Qed.

Lemma iterated_elements k : kind_ok k → elements_spec k →
  serializes k (serialize_iterated debug k (SerializeElements debug k)).
Proof.
  destruct k; try by intros _ Hk. intros Hsz _. apply pod_serializes; [done|].
  intros l vp out n m b m' Hn (Hnull & Hp & _) (H0 & Hlow & Hmap & Hlen) Hs. cbn [wrapper serialize_iterated] in *.
  unfold serialize_each_pod. rewrite dchecks_ok by done.
  apply (each_pod _ _ _ _ n); [done|done|done|lia|]. by rewrite Z.mul_0_r, Z.add_0_r.
Qed.

(** Setting the bits from [i] on leaves those before it. *)
Lemma bool_loop l : ∀ out n i m (b : FixedBuffer), 0 <= i → i + Z.of_nat (length l) = n → 0 < out →
  mapped m (out + 8) (out + 8 + (n + 7) / 8) → load32 m (out + 4) = Ok n →
  ∃ m', serialize_each i l (λ i v,
      _ ← Array_at debug (DataType KBool) out i;
      write (BitRef_set out i v);;
      mret (NONE, v)) (m, b) = Ok ((NONE, l), (m', b)) ∧
    touches (range (out + 8) (out + 8 + (n + 7) / 8)) m m' ∧
    (∀ j, 0 <= j < i → BitRef_get out j m' = BitRef_get out j m) ∧
    ∀ (j : nat) v, l !! j = Some v → BitRef_get out (i + Z.of_nat j) m' = Ok v.
Proof.
  induction l as [|v l IH]; intros out n i m b Hi Hlen H0 Hmap Hn; cbn [length] in Hlen.
  { exists m. split_and!; [done|apply touches_refl|done|done]. }
  pose proof (Z.div_mod i 8) as Hi8. pose proof (Z.mod_pos_bound i 8).
  pose proof (Z.div_mod (n + 7) 8). pose proof (Z.mod_pos_bound (n + 7) 8).
  destruct (BitRef_set_ok out i v m) as (m1 & Hs & Ht & Hv & Hold); [done|eapply mapped_sub; [done|lia|lia]|].
  assert (touches (range (out + 8) (out + 8 + (n + 7) / 8)) m m1) as Ht1.
  { eapply touches_mono; [exact Ht|]. intros x Hx. unfold range in *. lia. }
  assert (load32 m1 (out + 4) = Ok n) as Hn1.
  { rewrite <- Hn. symmetry. apply load32_agree. eapply touches_agree; [exact Ht1|].
    intros x Hx Hy. unfold range in *. lia. }
  destruct (IH out n (i + 1) m1 b) as (m2 & Hr & Ht2 & Hbefore & Hafter); [lia|lia|done| |done|].
  { by eapply touches_mapped. }
  exists m2. split_and!.
  - cbn [serialize_each]. unfold mbind, stateR_bind. rewrite (Array_at_ok _ _ _ n) by (done || lia).
    rewrite write_eq, Hs. cbn [mret stateR_ret]. rewrite bool_decide_true by done. cbn [negb].
    unfold mbind, stateR_bind in Hr. by rewrite Hr.
  - eapply touches_mono; [by eapply touches_trans|]. by intros x [Hx|Hx].
  - intros j Hj. rewrite Hbefore by lia. apply Hold; lia.
  - intros [|j] w Hj; cbn in Hj.
    + injection Hj as <-. rewrite Z.add_0_r, Hbefore by lia. exact Hv.
    + apply Hafter in Hj. rewrite <- Hj. f_equal. lia.
Qed.

Lemma bool_elements : elements_spec KBool.
Proof.
  intros l vp out n m b Hn Hn32 [Hnull Hp] Hok Hroom (H0 & Hlow & Hmap & Hlen).
  cbn [wrapper] in l, Hn. cbn [data DataType] in *.
  destruct (bool_loop l out n 0 m b) as (m' & Hs & Ht & _ & Hbits);
    [done|lia|done|by eapply mapped_sub; [done|lia|lia]|done|].
  exists m'. cbn [wire_size]. rewrite total_zero, fb_advance_0. split_and!.
  - cbn [SerializeElements]. unfold serialize_bools. rewrite dchecks_ok by done.
    replace (map (emptied KBool) l) with l by (symmetry; apply map_id). exact Hs.
  - eapply touches_mono; [exact Ht|]. intros x Hx. by left.
  - exact Hbits.
Qed.

(** *** Pointers *)
Lemma pointer_step {A B} k out n nullable (size : A → Z) (after : A → A) (view : A → option B)
    (P : B → Z → mem → Prop) (osize : B → Z) (ser : A → Ser (ValidationError * Z * A)) i x :
  sizeof_StorageType (DataType k) = 8 → 0 <= i < n → (view x = None → nullable = true) → 0 <= size x →
  size x = match view x with Some y => osize y | None => 0 end → shiftable 0 osize P →
  object_spec x (after x) (view x) P (size x) (ser x) →
  step_ok out n 8 size after (λ i x, r ← ser x; store_element debug k out i nullable r)
    (λ i x a m, nullable_at P (out + 8 + 8 * i) (view x) a m) i x.
Proof.
  intros Hk Hi Hnull Hsize Hos HP Hobj m b Hok Hroom (H0 & Hlow & Hmap & Hn).
  destruct (Hobj m b Hok Hroom) as (p & m1 & Hser & Ht1 & Hview).
  assert (storage_at (DataType k) out i = out + 8 + 8 * i) as Hslot.
  { unfold storage_at, sizeof_ArrayHeader. by rewrite Hk. }
  set (slot := out + 8 + 8 * i) in *.
  assert (0 <= p < 2 ^ 63) as Hp by (destruct (view x); [lia|by rewrite Hview]).
  destruct (store_touches 8 m1 slot p) as (m2 & Hs & Ht2 & Hl).
  { eapply mapped_sub; [by eapply touches_mapped|lia|lia]. }
  rewrite Z.mod_small in Hl by lia.
  assert (load32 m1 (out + 4) = Ok n) as Hn1.
  { rewrite <- Hn. symmetry. apply load32_agree. eapply touches_agree; [exact Ht1|].
    intros y Hy Hz. unfold fresh, pointed, range in *. lia. }
  exists m2. split_and!.
  - unfold mbind, stateR_bind. rewrite Hser. cbn [store_element]. rewrite bool_decide_true by done.
    cbn [negb]. unfold mbind, stateR_bind. rewrite (Array_at_ok _ _ _ n) by (done || lia).
    rewrite write_eq, Hslot. unfold store64. rewrite Hs.
    replace (negb nullable && (p =? 0)) with false; [done|]. destruct (view x) as [y|].
    + replace (p =? 0) with false by lia. by rewrite andb_false_r.
    + by rewrite Hnull.
  - eapply touches_mono; [by eapply touches_trans|]. intros y [Hy|Hy]; [by right|left].
    unfold slots, range in *. lia.
  - rewrite Hos in *. unfold nullable_at. destruct (view x) as [y|]; [|by subst p].
    destruct Hview as (-> & _ & Hy). split; [exact Hl|].
    eapply (shiftable_agree osize); [done|exact Hy|]. eapply touches_agree; [exact Ht2|].
    intros z Hz Hz'. unfold pointed, range in *. lia.
Qed.

(** The elements of an array of pointers. *)
Lemma pointer_elements {A B} k vp (l : list A) out n size (after : A → A) (view : A → option B) P osize ser m b :
  sizeof_StorageType (DataType k) = 8 → n = Z.of_nat (length l) →
  (∀ x, 0 <= size x ∧ size x mod 8 = 0) → (∀ x, size x = match view x with Some y => osize y | None => 0 end) →
  shiftable 0 osize P →
  (∀ x, x ∈ l → (view x = None → element_is_nullable vp = true) ∧
    object_spec x (after x) (view x) P (size x) (ser x)) →
  fb_ok m b → cursor_ b + total size l <= size_ b → array_below out n m b (8 * n) →
  ∃ m', serialize_each 0 l (λ i x, r ← ser x; store_element debug k out i (element_is_nullable vp) r) (m, b) =
      Ok ((NONE, map after l), (m', advance b (total size l))) ∧
    touches (region out (8 * n) b (total size l)) m m' ∧
    each_at (λ i x a m, nullable_at P (out + 8 + 8 * i) (view x) a m) size 0 l (here b) m'.
Proof.
  intros Hk Hn Hsize Hos HP Hl Hok Hroom Hbelow.
  apply (each_ok _ out n 8); try done.
  - intros i x a m1 m2 Hx Ha. eapply (nullable_agree _ _ osize); [done|exact Hx|].
    eapply agree_on_sub; [exact Ha|]. rewrite Hos. unfold union, slots, range.
    intros y [Hy|Hy]; [left; lia|by right].
  - intros j x Hj. pose proof (lookup_lt_Some _ _ _ Hj).
    destruct (Hl x (list_elem_of_lookup_2 _ _ _ Hj)) as [Hnull Hx].
    apply (pointer_step k out n _ size after view P osize ser); try done; [lia|apply Hsize].
Qed.

(** *** Strings *)
Lemma String_spec s : Forall (λ c, 0 <= c < 256) (default [] s) →
  object_spec s s s (array_at (KPod 1) (pods_at 1)) (wire_size KString s)
    (p ← SerializeString_ debug s; mret (NONE, p, s)).
Proof.
  intros Hs m b Hok Hroom. destruct s as [s|]; cbn [wire_size from_option id] in *.
  2: { exists 0, m. rewrite fb_advance_0. split_and!; [done|apply touches_refl|done]. }
  set (n := Z.of_nat (length s)) in *. assert (0 <= n) by (unfold n; lia). pose proof (round8_bounds (8 + n)).
  pose proof Hok as [Hp [Hc1 Hc2] _ Hsz Hend Hmap].
  assert (data (String_Data (S := Empty_set) (U := Empty_set)) n = n) as Hdata by apply Z.mul_1_l.
  destruct (Array_New_ok debug (String_Data (S := Empty_set) (U := Empty_set)) n m b)
    as (m1 & Hnew & Ht1 & Hb1 & Hn1); [cbn; lia|lia|done|done|by rewrite Hdata|].
  rewrite Hdata in Hnew, Hb1.
  assert (storage_at (String_Data (S := Empty_set) (U := Empty_set)) (here b) 0 = here b + 8) as Hst.
  { unfold storage_at, sizeof_ArrayHeader. lia. }
  destruct (store_values_ok 1 s (here b + 8) m1) as (m2 & Hstore & Ht2 & Hl2).
  { eapply mapped_sub; [by eapply touches_mapped|unfold here; lia|unfold here; lia]. }
  { done. }
  assert (∀ a, here b <= a → a + 4 <= here b + 8 → load32 m2 a = load32 m1 a) as Hhead.
  { intros a Ha1 Ha2. symmetry. apply load32_agree. eapply touches_agree; [exact Ht2|].
    intros x Hx Hy. unfold range in *. lia. }
  exists (here b), m2. split_and!.
  - unfold SerializeString_, mbind, stateR_bind. fold n. unfold String_Data in *. rewrite Hnew.
    replace (here b =? 0) with false by (unfold here; lia). cbn [negb].
    rewrite write_eq, Hst, Hstore. done.
  - eapply touches_mono; [by eapply touches_trans|]. intros x [Hx|Hx]; unfold fresh, pointed, range in *; lia.
  - done.
  - unfold here. lia.
  - unfold here. lia.
  - split_and!; cbn [data DataType sizeof_StorageType]; rewrite ?Z.mul_1_l, ?Hhead by lia; done.
Qed.

Lemma wire_sizes k l : kind_ok k → Forall (λ x, 0 <= wire_size k x ∧ wire_size k x mod 8 = 0) l.
Proof. intros Hk. apply Forall_forall. intros x _. by apply wire_size_ok. Qed.

Lemma serialize_each_ext {A} (l : list A) f g : (∀ i x s, f i x s = g i x s) →
  ∀ i s, serialize_each i l f s = serialize_each i l g s.
Proof.
  intros Hfg. induction l as [|x l IH]; intros i s; [done|]. cbn [serialize_each].
  unfold mbind, stateR_bind. rewrite Hfg. destruct (g i x s) as [[[r x'] s']|]; [|done].
  destruct (negb _); [done|]. by rewrite IH.
Qed.

Lemma string_elements : elements_spec KString.
Proof.
  intros l vp out n m b Hn Hn32 [Hp Hl] Hok Hroom Hbelow. rewrite Forall_forall in Hl.
  destruct (pointer_elements KString vp l out n (wire_size KString) (λ s, s) (λ s, s)
    (array_at (KPod 1) (pods_at 1)) (λ s, round8 (8 + Z.of_nat (length s)))
    (λ s, p ← SerializeString_ debug s; mret (NONE, p, s)) m b) as (m' & Hs & Ht & Hd);
    [done|done|by apply (wire_size_ok KString)|done|by apply (string_at_shifted false)| |done|done|done|].
  - intros x Hx. specialize (Hl x Hx). split; [by intros ->|]. apply String_spec. by destruct x.
  - exists m'. split_and!; [|done|done].
    cbn [SerializeElements emptied]. unfold serialize_pointers. rewrite Hp. etransitivity; [|exact Hs].
    apply serialize_each_ext. intros i x s. unfold SerializeCaller_String, mbind, stateR_bind, no_params.
    by destruct debug.
Qed.

(** *** Arrays *)
Lemma new_array k l m b : kind_ok k → few_bools (DataType k) (Z.of_nat (length l)) →
  fb_ok m b → cursor_ b + array_wire_size k (wire_size k) l <= size_ b →
  ∃ m1 s, Array_New debug (DataType k) (Z.of_nat (length l)) (m, b) = Ok (here b, (m1, advance b s)) ∧
    touches (range (here b) (here b + 8)) m m1 ∧
    0 < here b < 2 ^ 63 ∧ 8 <= array_wire_size k (wire_size k) l ∧
    ∀ ser p m2 R, serializes k ser → elements_ok k p l → touches R m1 m2 →
      disjoint (fresh b (array_wire_size k (wire_size k) l)) R →
      ∃ m3, ser l (here b) p (m2, advance b s) =
          Ok ((NONE, map (emptied k) l), (m3, advance b (array_wire_size k (wire_size k) l))) ∧
        touches (fresh b (array_wire_size k (wire_size k) l)) m2 m3 ∧
        array_at k (elements_at k) l (here b) m3.
Proof.
  intros Hk Hfew Hok Hroom. unfold array_wire_size in *. pose proof (sizeof_kind k Hk) as Hsz.
  set (n := Z.of_nat (length l)) in *. assert (0 <= n) by (unfold n; lia).
  pose proof (data_nonneg (DataType k) n). pose proof (round8_bounds (8 + data (DataType k) n)).
  destruct (total_spec (wire_size k) l) as [Ht0 Ht8]; [by apply wire_sizes|].
  pose proof Hok as [Hp [Hc1 Hc2] Hc8 Hs32 Hend Hmap].
  assert (n < 2 ^ 32) as Hn32.
  { destruct k; cbn [data DataType sizeof_StorageType kind_ok Interface_Data] in *;
      try specialize (Hfew eq_refl); nia. }
  destruct (Array_New_ok debug (DataType k) n m b) as (m1 & Hnew & Ht1 & Hb1 & Hn1); [done|lia|done|done|lia|].
  set (s := round8 (8 + data (DataType k) n)) in *. exists m1, s.
  split_and!; [done|done|unfold here; lia|unfold here; lia|lia|]. intros ser p m2 R Hser Helem Ht2 Hdisj.
  assert (touches (union (range (here b) (here b + 8)) R) m m2) as Ht by (by eapply touches_trans).
  assert (∀ a, here b <= a → a + 4 <= here b + 8 → load32 m2 a = load32 m1 a) as Hhead2.
  { intros a Ha1 Ha2. symmetry. apply load32_agree. eapply touches_agree; [exact Ht2|].
    intros x Hx. apply Hdisj. unfold fresh, pointed, range in *. lia. }
  destruct (Hser l p (here b) n m2 (advance b s)) as (m3 & Hs & Ht3 & Hl3); [done|done|done| | | |].
  { eapply fb_advance; [done|done|lia|apply round8_aligned|lia]. }
  { cbn. lia. }
  { split_and!; [unfold here; lia|rewrite here_advance; lia| |by rewrite Hhead2 by lia].
    eapply mapped_sub; [by eapply touches_mapped|unfold here; lia|unfold here; lia]. }
  assert (∀ a, here b <= a → a + 4 <= here b + 8 → load32 m3 a = load32 m1 a) as Hhead3.
  { intros a Ha1 Ha2. rewrite <- Hhead2 by done. symmetry. apply load32_agree. eapply touches_agree; [exact Ht3|].
    unfold storage, fresh, pointed, range. rewrite here_advance. intros x Hx [Hy|Hy]; lia. }
  rewrite here_advance in Hl3. exists m3. split_and!.
  - rewrite Hs. by rewrite advance_advance.
  - eapply touches_mono; [exact Ht3|]. unfold storage, fresh, pointed. rewrite here_advance.
    intros x [Hx|Hx]; unfold range in *; lia.
  - split_and!; [by rewrite Hhead3 by lia|by rewrite Hhead3 by lia|exact Hl3].
Qed.

Lemma Array_spec k p a : kind_ok k → elements_spec k →
  match a with None => True | Some l => array_ok k (elements_ok k) p l end →
  object_spec a (option_map (map (emptied k)) a) a (array_at k (elements_at k)) (wire_size (KArray k) a)
    (SerializeArray_ debug k (SerializeElements debug k) a (Some p)).
Proof.
  intros Hk Helem Ha m b Hok Hroom. destruct a as [l|]; cbn [wire_size option_map] in *.
  2: { exists 0, m. rewrite fb_advance_0. split_and!; [done|apply touches_refl|done]. }
  destruct Ha as (Hexp & Hfew & Hl).
  destruct (new_array k l m b Hk Hfew Hok Hroom) as (m1 & s & Hnew & Ht1 & Hp & Hsize & Hrest).
  destruct (Hrest _ p m1 empty Helem Hl (touches_refl _ _)) as (m2 & Hs & Ht2 & Hl2); [by intros x _ []|].
  exists (here b), m2. split_and!; try (done || lia).
  - unfold SerializeArray_, mbind, stateR_bind, lift. cbn [deref_params].
    replace (negb (expected_num_elements p =? 0) && negb (Z.of_nat (length l) =? expected_num_elements p)) with false.
    2: { symmetry. destruct Hexp as [->|Hexp]; [done|]. rewrite Hexp, Z.eqb_refl. by rewrite andb_false_r. }
    by rewrite Hnew, Hs, bool_decide_true.
  - eapply touches_mono; [by eapply touches_trans|].
    intros x [Hx|Hx]; [|done]. unfold fresh, pointed, range in *. lia.
Qed.

Lemma array_elements k : kind_ok k → elements_spec k → elements_spec (KArray k).
Proof.
  intros Hk Helem l vp out n m b Hn Hn32 (p & Hp & Hl) Hok Hroom Hbelow. rewrite Forall_forall in Hl.
  destruct (pointer_elements (KArray k) vp l out n (wire_size (KArray k)) (emptied (KArray k)) (λ a, a)
    (array_at k (elements_at k)) (array_wire_size k (wire_size k))
    (λ a, SerializeArray_ debug k (SerializeElements debug k) a (Some p)) m b) as (m' & Hs & Ht & Hd);
    [done|done|by apply (wire_size_ok (KArray k))|done|by apply array_object_shifted| |done|done|done|].
  - intros x Hx. specialize (Hl x Hx). split; [by intros ->|]. apply Array_spec; [done|done|]. by destruct x.
  - exists m'. split_and!; [|done|done]. cbn [SerializeElements]. unfold serialize_pointers. by rewrite Hp.
Qed.
End elements.

(** ** Maps *)
Lemma zip_split {A B} (l : list (A * B)) (f : B → B) :
  zip (map fst l) (map f (map snd l)) = map (λ e, (e.1, f e.2)) l.
Proof. induction l as [|[a b] l IH]; [done|]. cbn. by f_equal. Qed.

Section maps.
Context (debug : bool).

Lemma Map_New_ok m b : fb_ok m b → cursor_ b + sizeof_Map_Data <= size_ b →
  ∃ m', Map_New debug (m, b) = Ok (here b, (m', advance b sizeof_Map_Data)) ∧
    touches (range (here b) (here b + 8)) m m' ∧
    load32 m' (here b) = Ok sizeof_Map_Data ∧ load32 m' (here b + 4) = Ok 0.
Proof.
  intros Hok Hroom. pose proof Hok as [? ? ? ? ? Hm]. unfold sizeof_Map_Data in *.
  unfold Map_New. rewrite (Allocate_ok debug m) by (done || lia).
  cbn [mbind result_bind snd fst]. replace (here b =? 0) with false by (unfold here; lia).
  destruct (store_touches 4 m (here b) 24) as (m1 & Hs1 & Ht1 & Hl1).
  { eapply mapped_sub; [done|unfold here; lia|unfold here; lia]. }
  destruct (store_touches 4 m1 (here b + 4) 0) as (m2 & Hs2 & Ht2 & Hl2).
  { eapply mapped_sub; [by eapply touches_mapped|unfold here; lia|unfold here; lia]. }
  unfold store32, mbind, result_bind, sizeof_Map_Data. rewrite Hs1, Hs2. exists m2. split_and!; [done| | |done].
  - eapply touches_mono; [by eapply touches_trans|]. intros x [Hx|Hx]; unfold range in *; lia.
  - change (Ok 24) with (Ok (24 mod 256 ^ Z.of_nat 4)). rewrite <- Hl1. symmetry. apply (load_le_agree 4).
    eapply touches_agree; [exact Ht2|]. intros x Hx Hy. unfold range in *. lia.
Qed.

(** An array that a field points to. *)
Lemma array_field k ser l p slot m b : kind_ok k → serializes k ser →
  few_bools (DataType k) (Z.of_nat (length l)) → elements_ok k p l →
  fb_ok m b → cursor_ b + array_wire_size k (wire_size k) l <= size_ b →
  mapped m slot (slot + 8) → slot + 8 <= here b →
  ∃ q m1 m2 m3 b1, Array_New debug (DataType k) (Z.of_nat (length l)) (m, b) = Ok (q, (m1, b1)) ∧
    store64 m1 slot q = Ok m2 ∧
    ser l q p (m2, b1) = Ok ((NONE, map (emptied k) l), (m3, advance b (array_wire_size k (wire_size k) l))) ∧
    touches (union (range slot (slot + 8)) (fresh b (array_wire_size k (wire_size k) l))) m m3 ∧
    points false slot (here b) m3 ∧ array_at k (elements_at k) l (here b) m3.
Proof.
  intros Hk Hser Hfew Hl Hok Hroom Hmap Hslot.
  destruct (new_array debug k l m b Hk Hfew Hok Hroom) as (m1 & s & Hnew & Ht1 & Hp & Hsize & Hrest).
  destruct (store_touches 8 m1 slot (here b)) as (m2 & Hst & Ht2 & Hld); [by eapply touches_mapped|].
  rewrite Z.mod_small in Hld by (cbn; lia).
  assert (disjoint (fresh b (array_wire_size k (wire_size k) l)) (range slot (slot + Z.of_nat 8))) as Hdisj.
  { intros x Hx Hy. unfold fresh, pointed, range in *. lia. }
  destruct (Hrest ser p m2 _ Hser Hl Ht2 Hdisj) as (m3 & Hs & Ht3 & Hl3).
  exists (here b), m1, m2, m3. eexists. split_and!; [exact Hnew|exact Hst|exact Hs| | |exact Hl3].
  - eapply touches_mono; [eapply touches_trans; [exact Ht1|by eapply touches_trans]|].
    intros x [Hx|[Hx|Hx]]; [right|by left|by right]. unfold fresh, pointed, range in *. lia.
  - unfold points. rewrite <- Hld. symmetry. apply (load_le_agree 8). eapply touches_agree; [exact Ht3|].
    intros x Hx Hy. by apply (Hdisj x).
Qed.

(** The two fields of a map at [a]. *)
Lemma map_fields less key value kp p l a m b :
  kind_ok (KMap less key value) → elements_spec debug key → elements_spec debug value →
  array_ok key (elements_ok key) kp (map fst l) → array_ok value (elements_ok value) p (map snd l) →
  fb_ok m b → cursor_ b + array_wire_size key (wire_size key) (map fst l) +
    array_wire_size value (wire_size value) (map snd l) <= size_ b →
  here b = a + sizeof_Map_Data → mapped m a (a + sizeof_Map_Data) →
  load32 m a = Ok sizeof_Map_Data → load32 m (a + 4) = Ok 0 →
  ∃ m', (keys_data ← Array_New debug (DataType key) (Z.of_nat (length l));
      write (λ m, store64 m (a + 8) keys_data);;
      '(keys_retval, _) ← serialize_iterated debug key (SerializeElements debug key) (map fst l) keys_data kp;
      if negb (bool_decide (keys_retval = NONE)) then mret (keys_retval, [])
      else
      values_data ← Array_New debug (DataType value) (Z.of_nat (length l));
      write (λ m, store64 m (a + 16) values_data);;
      serialize_iterated debug value (SerializeElements debug value) (map snd l) values_data p)
      (m, b) = Ok ((NONE, map (emptied value) (map snd l)),
        (m', advance b (array_wire_size key (wire_size key) (map fst l) +
          array_wire_size value (wire_size value) (map snd l)))) ∧
    touches (pointed a (map_object_size key value l)) m m' ∧ map_object_at key value l a m'.
Proof.
  intros Hk Hkey Hvalue (_ & Hfk & Hek) (_ & Hfv & Hev) Hok Hroom Ha Hmap H1 H2.
  pose proof Hk as (Hkk & Hkv & _). unfold map_object_size, map_object_at, map_at, sizeof_Map_Data in *.
  destruct (array_wire_size_ok key (wire_size key) (map fst l) Hkk (wire_size_ok key Hkk)) as [Hks0 Hks8].
  destruct (array_wire_size_ok value (wire_size value) (map snd l) Hkv (wire_size_ok value Hkv)) as [Hvs0 _].
  destruct (array_field key (serialize_iterated debug key (SerializeElements debug key)) (map fst l)
    kp (a + 8) m b) as (q1 & m1 & m2 & m3 & b1 & Hnew1 & Hst1 & Hs1 & Ht3 & Hp3 & Hl3);
    [done|by apply iterated_elements|done|done|done|lia|eapply mapped_sub; [done|lia|lia]|lia|].
  set (ks := array_wire_size key (wire_size key) (map fst l)) in *.
  destruct (array_field value (serialize_iterated debug value (SerializeElements debug value)) (map snd l)
    p (a + 16) m3 (advance b ks)) as (q2 & m4 & m5 & m6 & b3 & Hnew2 & Hst2 & Hs2 & Ht6 & Hp6 & Hl6);
    [done|by apply iterated_elements|done|done| |cbn; lia| |rewrite here_advance; lia|].
  { eapply fb_advance; [done|done|lia|done|lia]. }
  { eapply mapped_sub; [by eapply touches_mapped|lia|lia]. }
  set (vs := array_wire_size value (wire_size value) (map snd l)) in *.
  rewrite advance_advance in Hs2. rewrite !length_map in Hnew1, Hnew2. rewrite here_advance, Ha in Hp6, Hl6.
  rewrite Ha in Hp3, Hl3.
  assert (∀ R, disjoint R (union (range (a + 16) (a + 16 + 8)) (fresh (advance b ks) vs)) → agree_on R m3 m6) as Hkeep.
  { intros R HR. by eapply touches_agree. }
  exists m6. split_and!; try done.
  - unfold mbind, stateR_bind. rewrite Hnew1, write_eq, Hst1, Hs1, bool_decide_true by done. cbn [negb].
    by rewrite Hnew2, write_eq, Hst2, Hs2.
  - eapply touches_mono; [by eapply touches_trans|]. unfold union, fresh, pointed, range. rewrite here_advance.
    intros x [[Hx|Hx]|[Hx|Hx]]; lia.
  - rewrite <- H1. symmetry. apply load32_agree. eapply agree_on_trans; [eapply touches_agree; [exact Ht3|]|apply Hkeep];
      unfold disjoint, union, fresh, pointed, range; rewrite ?here_advance; intros x Hx [Hy|Hy]; lia.
  - rewrite <- H2. symmetry. apply load32_agree. eapply agree_on_trans; [eapply touches_agree; [exact Ht3|]|apply Hkeep];
      unfold disjoint, union, fresh, pointed, range; rewrite ?here_advance; intros x Hx [Hy|Hy]; lia.
  - unfold points in *. rewrite <- Hp3. symmetry. apply load64_agree, Hkeep.
    unfold disjoint, union, fresh, pointed, range. rewrite here_advance. intros x Hx [Hy|Hy]; lia.
  - eapply shiftable_agree; [by apply (array_object_shifted false 0)|exact Hl3|]. apply Hkeep. fold ks.
    unfold disjoint, union, fresh, pointed, range. rewrite here_advance. intros x Hx [Hy|Hy]; lia.
Qed.

Lemma Map_spec less key value p M :
  kind_ok (KMap less key value) → elements_spec debug key → elements_spec debug value →
  (if is_null_ M then map_ M = [] else map_entries_ok less key
    (array_ok key (elements_ok key) (MapKeyValidateParamsFactory_Get (DataType key)))
    (array_ok value (elements_ok value) p) (map_ M)) →
  object_spec M (map_emptied (emptied value) M) (entries M) (map_object_at key value)
    (wire_size (KMap less key value) M) (Map_Serialize debug key value M (Some p)).
Proof.
  intros Hk Hkey Hvalue HM m b Hok Hroom. destruct M as [l [|]]; cbn [is_null_ map_ entries wire_size] in *.
  { subst l. exists 0, m. unfold map_wire_size. cbn [is_null_]. rewrite fb_advance_0.
    split_and!; [done|apply touches_refl|done]. }
  unfold entries, map_wire_size in *. cbn [is_null_ map_] in *. pose proof Hk as (Hkk & Hkv & _).
  change (sizeof_Map_Data + array_wire_size key (wire_size key) (map fst l) +
    array_wire_size value (wire_size value) (map snd l)) with (map_object_size key value l) in *.
  destruct (array_wire_size_ok key (wire_size key) (map fst l) Hkk (wire_size_ok key Hkk)) as [Hks _].
  destruct (array_wire_size_ok value (wire_size value) (map snd l) Hkv (wire_size_ok value Hkv)) as [Hvs _].
  pose proof Hok as [Hp [Hc1 Hc2] _ Hs32 Hend Hmap]. unfold map_object_size, sizeof_Map_Data in Hroom.
  destruct (Map_New_ok m b) as (m1 & Hnew & Ht1 & H1 & H2); [done|unfold sizeof_Map_Data; lia|].
  destruct HM as (_ & HMk & HMv).
  destruct (map_fields less key value _ p l (here b) m1 (advance b sizeof_Map_Data) Hk Hkey Hvalue HMk HMv)
    as (m2 & Hs & Ht2 & Hl2); [| |by rewrite here_advance| |done|done|].
  { unfold sizeof_Map_Data. eapply fb_advance; [done|done|lia|done|lia]. }
  { unfold advance, sizeof_Map_Data. cbn [cursor_ size_]. lia. }
  { unfold sizeof_Map_Data. eapply mapped_sub; [by eapply touches_mapped|unfold here; lia|unfold here; lia]. }
  exists (here b), m2. split_and!; try (done || unfold here; lia).
  - unfold Map_Serialize, SerializeMap_, mbind, stateR_bind, lift. cbn [is_null_ map_ deref_params]. rewrite Hnew.
    unfold mbind, stateR_bind in Hs. unfold Map_size. cbn [map_].
    destruct (Array_New _ _ _ _) as [[q1 s1]|]; [|done]. destruct (write _ s1) as [[? s2]|]; [|done].
    destruct (serialize_iterated _ _ _ (map fst l) _ _ s2) as [[[r ?] s3]|]; [|done].
    destruct (bool_decide_reflect (r = NONE)) as [|Hr]; cbn [negb] in *; [|by injection Hs].
    destruct (Array_New _ _ _ s3) as [[q2 s4]|]; [|done]. destruct (write _ s4) as [[? s5]|]; [|done].
    rewrite Hs, bool_decide_true by done. cbn [negb]. unfold mret, stateR_ret, map_emptied. cbn [map_ is_null_].
    unfold map_object_size. by rewrite zip_split, advance_advance, Z.add_assoc.
  - eapply touches_mono; [by eapply touches_trans|]. intros x [Hx|Hx]; [|done].
    unfold map_object_size, sizeof_Map_Data, fresh, pointed, range in *. lia.
Qed.

Lemma map_elements less key value : kind_ok (KMap less key value) → elements_spec debug key →
  elements_spec debug value → elements_spec debug (KMap less key value).
Proof.
  intros Hk Hkey Hvalue l vp out n m b Hn Hn32 (p & Hp & Hl) Hok Hroom Hbelow. rewrite Forall_forall in Hl.
  destruct (pointer_elements debug (KMap less key value) vp l out n (wire_size (KMap less key value))
    (emptied (KMap less key value)) entries (map_object_at key value) (map_object_size key value)
    (λ M, Map_Serialize debug key value M (Some p)) m b) as (m' & Hs & Ht & Hd);
    [done|done|by apply (wire_size_ok (KMap less key value))|by intros [? [|]]
    |by apply (map_object_shifted false 0 ltac:(done) less)| |done|done|done|].
  - intros M HM. specialize (Hl M HM). destruct M as [lM [|]]; (split; [try done|apply Map_spec; try done]).
    + intros _. apply Hl.
    + apply Hl.
  - exists m'. split_and!; [|done|done]. cbn [SerializeElements]. unfold serialize_pointers. by rewrite Hp.
Qed.

Lemma elements_correct k : kind_ok k → elements_spec debug k.
Proof.
  induction k; intros Hk; auto using pod_elements, bool_elements, handle_elements, interface_elements,
    string_elements, array_elements. apply map_elements; [done| |]; destruct Hk as (? & ? & _); auto.
Qed.
End maps.
