(* ===== verification/CppDeserialize.v ===== *)
(** * Deserialization of C++ values from their layout

    [deserializes]: from the layout of a value in memory, whatever put it there,
    [DeserializeElements] makes the value, reading and writing its bytes only. *)
From stdpp Require Import base list numbers option gmap sorting.
From S2P Require Import Prelude Memory TypeDescriptor Validate Sample Codec Buffer CppBindings CppAgrees CppArray CppArrayAgrees CppMap CppSerialize CppSerializeSteps CppLayout.

Abbreviation elements_at := (elements_at false).
Abbreviation nullable_at := (nullable_at false).
Abbreviation map_object_at := (map_object_at false).

(** The maps inside a value are in order. *)
Fixpoint ordered (k : kind) : wrapper k → Prop :=
  match k with
  | KArray k => λ a, match a with None => True | Some l => Forall (ordered k) l end
  | KMap less key value => λ M, (is_null_ M = true → map_ M = []) ∧
      entries_ok (key_valid key) (key_less less key) (map_ M) ∧ Forall (λ e, ordered value e.2) (map_ M)
  | _ => λ _, True
  end.

Lemma decodes_ext {A} K F (D D' : De A) w m : (∀ s, D s = D' s) → decodes K F D w m → decodes K F D' w m.
Proof. intros HD Hd m2 Hm. destruct (Hd m2 Hm) as (m3 & E & ?). exists m3. by rewrite <- HD. Qed.

Lemma decodes_lift {A B} K F (D : De A) (f : A → result B) a c m :
  decodes K F D a m → f a = Ok c → decodes K F (x ← D; lift (f x)) c m.
Proof.
  intros HD Hf m2 Hm. destruct (HD m2 Hm) as (m3 & Hr & Hout). exists m3.
  unfold mbind, stateR_bind, lift. by rewrite Hr, Hf.
Qed.

(** The number of elements, in the header. *)
Lemma decodes_size {A} out n F (k : Z → De A) w m : load32 m (out + 4) = Ok n →
  decodes (header out) F (k n) w m →
  decodes (header out) F (num ← read (λ m, array_num_elements m out); k num) w m.
Proof.
  intros Hn. apply decodes_read. intros m2 Hm. unfold array_num_elements. rewrite <- Hn. symmetry.
  apply load32_agree. eapply agree_on_sub; [done|]. intros x Hx. left. unfold header, range in *. lia.
Qed.

(** ** The loop over the elements *)
Section loop.
Context {A : Type} (out n es : Z) (size : A → Z) (dbody : Z → De A) (P : Z → A → Z → mem → Prop).

Lemma collect_ok l : ∀ i a m, 0 < es → 0 <= i → i + Z.of_nat (length l) = n → out + 8 + es * n <= a →
  load32 m (out + 4) = Ok n → (∀ x, 0 <= size x) → each_at P size i l a m →
  (∀ (j : nat) x b, l !! j = Some x → a <= b → P (i + Z.of_nat j) x b m →
    decodes (header out) (union (slots out es (i + Z.of_nat j) (i + Z.of_nat j + 1)) (pointed b (size x)))
      (dbody (i + Z.of_nat j)) x m) →
  decodes (header out) (union (slots out es i n) (pointed a (total size l)))
    (collect out n (seqZ i (n - i)) dbody) l m.
Proof.
  induction l as [|x l IH]; intros i a m Hes Hi Hlen Ha Hn Hsize Hl Hstep; cbn [length] in Hlen.
  { rewrite seqZ_nil by lia. cbn [collect]. apply (decodes_size _ n); [done|].
    rewrite Z.ltb_irrefl. apply decodes_ret. }
  destruct Hl as [Hx Hl]. pose proof (Hsize x). pose proof (total_ge_0 size l Hsize). rewrite total_cons.
  rewrite (seqZ_cons i) by lia. replace (Z.pred (n - i)) with (n - (i + 1)) by lia. cbn [collect].
  apply (decodes_size _ n); [done|]. replace (n <=? i) with false by lia.
  pose proof (Hstep 0%nat x a eq_refl) as H1. rewrite Z.add_0_r in H1.
  assert (es * (i + 1) = es * i + es) as He1 by lia. assert (es * (i + 1) <= es * n) as He2 by nia.
  eapply (decodes_weaken _ (union (union (slots out es i (i + 1)) (pointed a (size x)))
    (union (slots out es (i + 1) n) (pointed (a + size x) (total size l))))).
  - eapply decodes_bind; [apply H1; [lia|done]| | |].
    + apply (decodes_map _ _ _ (λ xs, x :: xs)). replace (Z.succ i) with (i + 1) by lia.
      apply IH; try done; try lia. intros j y b Hj Hb Hy.
      replace (i + 1 + Z.of_nat j) with (i + Z.of_nat (S j)) in * by lia. apply Hstep; [done|lia|done].
    + unfold disjoint, union, header, slots, pointed, range. intros y Hy [Hz|Hz]; nia.
    + unfold disjoint, union, slots, pointed, range. intros y [Hy|Hy] [Hz|Hz]; nia.
  - by left.
  - unfold union, slots, pointed, range. intros y [[Hy|Hy]|[Hy|Hy]]; [left|right|left|right]; lia.
Qed.

Lemma deserialize_each_ok l a m : n = Z.of_nat (length l) → 0 < es → out + 8 + es * n <= a →
  load32 m (out + 4) = Ok n → (∀ x, 0 <= size x) → each_at P size 0 l a m →
  (∀ (j : nat) x b, l !! j = Some x → a <= b → P (Z.of_nat j) x b m →
    decodes (header out) (union (slots out es (Z.of_nat j) (Z.of_nat j + 1)) (pointed b (size x)))
      (dbody (Z.of_nat j)) x m) →
  decodes (header out) (union (storage out (es * n)) (pointed a (total size l)))
    (deserialize_each out dbody) l m.
Proof.
  intros Hn Hes Ha Hnum Hsize Hl Hstep. apply (decodes_size _ n); [done|].
  assert (slots out es 0 n = storage out (es * n)) as <- by (unfold slots, storage; f_equal; lia).
  replace (seqZ 0 n) with (seqZ 0 (n - 0)) by (f_equal; lia).
  apply collect_ok; [done|done|lia|done|done|done|done|exact Hstep].
Qed.
End loop.

Section deserialize.
Context (debug : bool).

Definition deserializes (k : kind) : Prop := ∀ out l a n m, n = Z.of_nat (length l) → 0 < out →
  out + 8 + data (DataType k) n <= a → load32 m (out + 4) = Ok n → Forall (ordered k) l →
  elements_at k out l a m →
  decodes (header out) (union (storage out (data (DataType k) n)) (pointed a (total (wire_size k) l)))
    (DeserializeElements debug k out) l m.

(** *** Elements in place *)
Lemma pods_decode size out l a n m F : 1 <= size <= 8 → n = Z.of_nat (length l) →
  load32 m (out + 4) = Ok n → pods_at size out l a m → (∀ x, storage out (size * n) x → F x) →
  decodes (header out) F (deserialize_pods size out) l m.
Proof.
  intros Hsz Hn Hlen Hl HF. unfold deserialize_pods. apply (decodes_size _ n); [done|].
  intros m2 Hm2. exists m2. split; [|by intros x _]. rewrite read_eq, Hn, Nat2Z.id.
  replace (storage_at (DataType (KPod size)) out 0) with (out + 8) by (unfold storage_at, sizeof_ArrayHeader; lia).
  unfold pods_at in Hl. rewrite <- (load_values_agree _ _ _ m); [by rewrite Hl|].
  rewrite Z2Nat.id by lia. eapply agree_on_sub; [exact Hm2|]. intros x Hx. right. apply HF.
  rewrite Hn. exact Hx.
Qed.

Lemma pods_deserialize size : 1 <= size <= 8 → deserializes (KPod size).
Proof.
  intros Hsz out l a n m Hn H0 Ha Hlen _ Hl. apply (pods_decode size out l a n m _ Hsz Hn Hlen Hl).
  intros x Hx. by left.
Qed.

Lemma bools_collect l : ∀ out n i m, 0 <= i → i + Z.of_nat (length l) = n → load32 m (out + 4) = Ok n →
  (∀ (j : nat) v, l !! j = Some v → BitRef_get out (i + Z.of_nat j) m = Ok v) →
  collect out n (seqZ i (n - i)) (λ i,
    _ ← Array_at debug (DataType KBool) out i; read (BitRef_get out i)) (m, tt) = Ok (l, (m, tt)).
Proof.
  induction l as [|v l IH]; intros out n i m Hi Hlen Hn Hbits; cbn [length] in Hlen.
  - rewrite seqZ_nil by lia. cbn [collect]. unfold mbind, stateR_bind, array_num_elements.
    rewrite read_eq, Hn. by rewrite Z.ltb_irrefl.
  - rewrite (seqZ_cons i) by lia. cbn [collect]. unfold mbind, stateR_bind, array_num_elements.
    rewrite read_eq, Hn. replace (n <=? i) with false by lia.
    rewrite (Array_at_ok _ _ _ n) by (done || lia). rewrite read_eq.
    pose proof (Hbits 0%nat v eq_refl) as Hb. rewrite Z.add_0_r in Hb. rewrite Hb.
    replace (Z.succ i) with (i + 1) by lia. replace (Z.pred (n - i)) with (n - (i + 1)) by lia.
    specialize (IH out n (i + 1) m). unfold mbind, stateR_bind in IH. rewrite IH; [done|lia|lia|done|].
    intros j w Hj. rewrite <- (Hbits (Datatypes.S j) w Hj). f_equal. lia.
Qed.

Lemma BitRef_get_agree out j m m' : agree_on (range (out + 8 + j / 8) (out + 8 + j / 8 + 1)) m m' →
  BitRef_get out j m = BitRef_get out j m'.
Proof. intros Ha. rewrite !BitRef_get_eq. by rewrite (load_le_agree 1 m m'). Qed.

Lemma bools_deserialize : deserializes KBool.
Proof.
  intros out l a n m Hn H0 Ha Hlen _ Hl. cbn [wrapper data DataType elements_at] in *.
  cbn [DeserializeElements]. unfold deserialize_bools, deserialize_each. apply (decodes_size _ n); [done|].
  intros m2 Hm2. exists m2. split; [|by intros x _].
  replace (seqZ 0 n) with (seqZ 0 (n - 0)) by (f_equal; lia). apply bools_collect; [done|lia| |].
  - rewrite <- Hlen. symmetry. apply load32_agree. eapply agree_on_sub; [exact Hm2|]. intros x Hx.
    left. unfold header, range in *. lia.
  - intros j v Hj. rewrite <- (Hl j v Hj), !BitRef_get_eq. rewrite (load_le_agree 1 m2 m); [done|].
    apply agree_on_sym. eapply agree_on_sub; [exact Hm2|]. intros x Hx. right. left.
    rewrite Z.add_0_l in Hx. unfold storage, range in *. apply lookup_lt_Some in Hj. pose proof (Z.div_mod (Z.of_nat j) 8). pose proof (Z.mod_pos_bound (Z.of_nat j) 8).
    pose proof (Z.div_mod (n + 7) 8). pose proof (Z.mod_pos_bound (n + 7) 8). lia.
Qed.

Lemma handles_deserialize : deserializes KHandle.
Proof.
  intros out l a n m Hn H0 Ha Hlen _ Hl. cbn [wrapper] in *.
  eapply (deserialize_each_ok out n 4); [exact Hn|done|exact Ha|exact Hlen|done|exact Hl|].
  intros j h b Hj Hb Hh. apply (decodes_at _ _ _ n); [done|apply lookup_lt_Some in Hj; lia|].
  change (storage_at (DataType KHandle) out (Z.of_nat j)) with (out + 8 + 4 * Z.of_nat j).
  eapply (decodes_weaken empty); [by apply decodes_fetch_handle|by intros x []|].
  intros x Hx. left. unfold slots, range in *. lia.
Qed.

Lemma interfaces_deserialize : deserializes KInterface.
Proof.
  intros out l a n m Hn H0 Ha Hlen _ Hl. cbn [wrapper] in *.
  eapply (deserialize_each_ok out n 8); [exact Hn|done|exact Ha|exact Hlen|done|exact Hl|].
  cbn beta. intros j [h v] b Hj Hb [Hh Hv]. cbn [fst snd] in *.
  apply (decodes_at _ _ _ n); [done|apply lookup_lt_Some in Hj; lia|].
  change (storage_at (DataType KInterface) out (Z.of_nat j)) with (out + 8 + 8 * Z.of_nat j).
  set (p := out + 8 + 8 * Z.of_nat j) in *.
  eapply (decodes_weaken empty (union (range p (p + 4)) (range (p + 4) (p + 8))));
    [|by intros x []|intros x [Hx|Hx]; left; unfold slots, range in *; lia].
  apply (decodes_bind _ _ _ _ _ h); [by apply decodes_fetch_handle| |by intros x []|].
  - apply (decodes_read _ _ _ _ v); [|apply decodes_ret]. intros m3 Hm3. rewrite <- Hv. symmetry.
    apply (load_le_agree 4). eapply agree_on_sub; [exact Hm3|]. intros x Hx. right. unfold range in *. lia.
  - intros x Hx Hy. unfold range in *. lia.
Qed.

(** *** Pointers *)
Lemma decodes_pointer {A B} F (view : option B) P (osize : B → Z) slot (w : A) (D : Z → De A) a m :
  nullable_at P slot view a m → (view = None → decodes empty empty (D 0) w m) →
  (∀ y, view = Some y → P y a m → decodes empty (pointed a (osize y)) (D a) w m) →
  (∀ x, union (range slot (slot + 8)) (pointed a (match view with Some y => osize y | None => 0 end)) x → F x) →
  decodes empty F (p ← read (λ m, load64 m slot); D p) w m.
Proof.
  intros Hx Hnone Hsome HF. unfold CppLayout.nullable_at, points in Hx. destruct view as [y|].
  - destruct Hx as [Hp Hy]. apply (decodes_read _ _ _ _ a).
    + intros m2 Hm2. rewrite <- Hp. symmetry. apply load64_agree. eapply agree_on_sub; [exact Hm2|].
      intros x Hx. right. apply HF. by left.
    + eapply decodes_weaken; [by apply (Hsome y)|by intros x []|]. intros x Hx. apply HF. by right.
  - apply (decodes_read _ _ _ _ 0).
    + intros m2 Hm2. rewrite <- Hx. symmetry. apply load64_agree. eapply agree_on_sub; [exact Hm2|].
      intros x Hx'. right. apply HF. by left.
    + eapply decodes_weaken; [by apply Hnone|by intros x []|by intros x []].
Qed.

Lemma pointers_deserialize {A B} k (l : list A) size (view : A → option B) P osize (D : Z → De A) out a n m :
  sizeof_StorageType (DataType k) = 8 → n = Z.of_nat (length l) → 0 < out → out + 8 + 8 * n <= a →
  load32 m (out + 4) = Ok n → (∀ x, 0 <= size x) →
  (∀ x, size x = match view x with Some y => osize y | None => 0 end) →
  (∀ x, x ∈ l → view x = None → ∀ m, decodes empty empty (D 0) x m) →
  (∀ x y b m, x ∈ l → view x = Some y → 0 < b → P y b m → decodes empty (pointed b (osize y)) (D b) x m) →
  each_at (λ i x a m, nullable_at P (out + 8 + 8 * i) (view x) a m) size 0 l a m →
  decodes (header out) (union (storage out (8 * n)) (pointed a (total size l)))
    (deserialize_pointers debug k D out) l m.
Proof.
  intros Hk Hn H0 Ha Hlen Hsize Hos Hnone Hsome Hl. unfold deserialize_pointers.
  eapply (deserialize_each_ok out n 8); [exact Hn|done|exact Ha|exact Hlen|done|exact Hl|].
  cbn beta. intros j x b Hj Hb Hx. apply (decodes_at _ _ _ n); [done|apply lookup_lt_Some in Hj; lia|].
  assert (storage_at (DataType k) out (Z.of_nat j) = out + 8 + 8 * Z.of_nat j) as ->.
  { unfold storage_at, sizeof_ArrayHeader. by rewrite Hk. }
  eapply (decodes_weaken empty); [|by intros y []|by intros y Hy; exact Hy].
  apply list_elem_of_lookup_2 in Hj.
  eapply (decodes_pointer _ _ P osize); [exact Hx|intros Hv; by apply Hnone| |].
  - intros y Hv Hy. eapply Hsome; try done. lia.
  - rewrite Hos. intros y [Hy|Hy]; [left; unfold slots, range in *; lia|by right].
Qed.

(** *** Objects *)
Lemma array_deserialize k l a m : kind_ok k → deserializes k → 0 < a → Forall (ordered k) l →
  array_at k (elements_at k) l a m →
  decodes empty (pointed a (array_wire_size k (wire_size k) l))
    (Deserialize_Array (DeserializeElements debug k) a) (Some l) m.
Proof.
  intros Hk Hd Ha Hord (Hb & Hn & Hl). pose proof (sizeof_kind k Hk).
  pose proof (data_nonneg (DataType k) (Z.of_nat (length l))).
  pose proof (round8_bounds (8 + data (DataType k) (Z.of_nat (length l)))).
  pose proof (total_ge_0 (wire_size k) l (wire_size_nonneg k Hk)).
  unfold Deserialize_Array. replace (a =? 0) with false by lia. apply (decodes_map _ _ _ Some).
  eapply decodes_weaken; [eapply Hd; [done|done| |done|done|exact Hl]; lia| |];
    unfold array_wire_size, header, storage, pointed, union, range; intros x Hx; [right|]; lia.
Qed.

Lemma string_deserialize s a m : 0 < a → array_at (KPod 1) (pods_at 1) s a m →
  decodes empty (pointed a (round8 (8 + Z.of_nat (length s)))) (Deserialize_String a) (Some s) m.
Proof.
  intros Ha (Hb & Hn & Hl). pose proof (round8_bounds (8 + Z.of_nat (length s))).
  eapply (decodes_ext _ _ (Deserialize_Array (deserialize_pods 1) a)).
  { intros [m0 []]. unfold Deserialize_Array, Deserialize_String, deserialize_pods, mbind, stateR_bind, String_Data.
    destruct (a =? 0); [done|]. rewrite read_eq. by destruct (array_num_elements m0 a). }
  unfold Deserialize_Array. replace (a =? 0) with false by lia. apply (decodes_map _ _ _ Some).
  eapply decodes_weaken; [eapply pods_decode; [done|done|exact Hn|exact Hl|by intros x Hx; exact Hx]| |];
    unfold header, storage, pointed, range; intros x Hx; [right|]; lia.
Qed.

Lemma map_deserialize less key value l a m : kind_ok (KMap less key value) → deserializes key → deserializes value →
  0 < a → entries_ok (key_valid key) (key_less less key) l → Forall (ordered key) (map fst l) →
  Forall (ordered value) (map snd l) → map_object_at key value l a m →
  decodes empty (pointed a (map_object_size key value l)) (Map_Deserialize debug less key value a) (mkMap l false) m.
Proof.
  intros (Hkk & Hkv & _ & _ & Hless) Hdk Hdv Ha Hsorted Hok Hov (_ & _ & Hp1 & Hl1 & Hp2 & Hl2).
  unfold map_object_size, sizeof_Map_Data in *.
  destruct (array_wire_size_ok key (wire_size key) (map fst l) Hkk (wire_size_ok key Hkk)) as [Hks0 _].
  destruct (array_wire_size_ok value (wire_size value) (map snd l) Hkv (wire_size_ok value Hkv)) as [Hvs0 _].
  set (ks := array_wire_size key (wire_size key) (map fst l)) in *.
  set (vs := array_wire_size value (wire_size value) (map snd l)) in *.
  set (F1 := union (range (a + 8) (a + 8 + 8)) (pointed (a + 24) ks)).
  set (F2 := union (range (a + 16) (a + 16 + 8)) (pointed (a + 24 + ks) vs)).
  eapply (decodes_ext _ _ (keys ← (q ← read (λ m, load64 m (a + 8)); Deserialize_Array (DeserializeElements debug key) q);
     values ← (q ← read (λ m, load64 m (a + 16)); Deserialize_Array (DeserializeElements debug value) q);
     lift (Map_of (key_less less key) debug keys values))).
  { intros s. unfold Map_Deserialize, Deserialize_Map. replace (a =? 0) with false by lia.
    unfold mbind, stateR_bind. destruct (read _ s) as [[q1 s1]|]; [|done].
    destruct (Deserialize_Array _ q1 s1) as [[keys s2]|]; [|done]. by destruct (read _ s2) as [[q2 s3]|]. }
  assert (∀ x, union F1 F2 x → pointed a (24 + ks + vs) x) as Hsub.
  { subst F1 F2. unfold union, pointed, range. intros x [[Hx|Hx]|[Hx|Hx]]; lia. }
  eapply (decodes_weaken empty (union F1 F2)); [|by intros x []|exact Hsub].
  eapply decodes_bind.
  - apply (decodes_pointer F1 (Some (map fst l)) (array_at key (elements_at key)) (array_wire_size key (wire_size key))
      _ _ _ (a + 24)); [by split|done| |done]. intros y [= <-] Hy. apply array_deserialize; try done. lia.
  - eapply decodes_lift.
    + apply (decodes_pointer F2 (Some (map snd l)) (array_at value (elements_at value))
        (array_wire_size value (wire_size value)) _ _ _ (a + 24 + ks)); [by split|done| |done].
      intros y [= <-] Hy. apply array_deserialize; try done. lia.
    + by apply (Map_of_entries (key_valid key)).
  - by intros x [].
  - subst F1 F2. unfold disjoint, union, pointed, range. intros x [Hx|Hx] [Hy|Hy]; lia.
Qed.

(** ** Every kind *)
Lemma keys_ordered less key value : kind_ok (KMap less key value) → ∀ l, Forall (ordered key) l.
Proof. intros (_ & _ & Hkey & _) l. apply Forall_forall. by destruct key. Qed.

Lemma elements_deserialize k : kind_ok k → deserializes k.
Proof.
  induction k as [| | | | |k IH|less key IHk value IHv]; intros Hk;
    auto using pods_deserialize, bools_deserialize, handles_deserialize, interfaces_deserialize.
  - intros out l a n m Hn H0 Ha Hlen _ Hl.
    eapply (pointers_deserialize KString l (wire_size KString) (λ s, s)); [done|exact Hn|done|exact Ha|exact Hlen
      |by apply (wire_size_nonneg KString)|by intros [s|]| | |exact Hl].
    + intros x _ -> m'. apply decodes_ret.
    + intros x y b m' _ -> Hb Hy. by apply string_deserialize.
  - intros out l a n m Hn H0 Ha Hlen Hord Hl. rewrite Forall_forall in Hord.
    eapply (pointers_deserialize (KArray k) l (wire_size (KArray k)) (λ x, x)); [done|exact Hn|done|exact Ha|exact Hlen
      |by apply (wire_size_nonneg (KArray k))|by intros [x|]| | |exact Hl].
    + intros x _ -> m'. apply decodes_ret.
    + intros x y b m' Hx -> Hb Hy. specialize (Hord _ Hx). apply array_deserialize; auto.
  - intros out l a n m Hn H0 Ha Hlen Hord Hl. rewrite Forall_forall in Hord. pose proof Hk as (Hkk & Hkv & _).
    eapply (pointers_deserialize (KMap less key value) l (wire_size (KMap less key value)) entries _
      (map_object_size key value)); [done|exact Hn|done|exact Ha|exact Hlen
      |by apply (wire_size_nonneg (KMap less key value))|by intros [x [|]]| | |exact Hl].
    + intros [x [|]] Hx Hv m'; [|done]. destruct (Hord _ Hx) as [Hnull _]. cbn in Hnull.
      rewrite (Hnull eq_refl). apply decodes_ret.
    + intros [x [|]] y b m' Hx Hv Hb Hy; [done|]. injection Hv as <-.
      destruct (Hord _ Hx) as (_ & He & Ho). cbn [map_] in *.
      apply map_deserialize; auto; [by eapply keys_ordered|by apply Forall_map].
Qed.
End deserialize.
