(* ===== verification/CppSerializeCorrect.v ===== *)
(** * Serialization of C++ arrays, maps and strings is correct

    What is serialized takes exactly the space that was computed for it, nothing else
    is written, and deserializing it gives the value back, with its handles. *)
From stdpp Require Import base list numbers option gmap sorting.
From S2P Require Import Prelude Memory TypeDescriptor Validate Sample Codec Buffer CppBindings CppAgrees CppArray CppArrayAgrees CppMap CppSerialize CppSerializeSteps CppLayout CppSerializeElements CppDeserialize.

(** ** The size that is computed *)
Lemma sum_sizes_ok {A} (f g : A → Z) l : ∀ init, Forall (λ x, f x = g x ∧ 0 <= g x) l →
  0 <= init → init + total g l < 2 ^ 64 → sum_sizes f l init = init + total g l.
Proof.
  induction l as [|x l IH]; intros init Hl Hi Hlt; [cbn; lia|].
  apply Forall_cons in Hl as [[Hx Hx0] Hl].
  change (total g (x :: l)) with (g x + total g l) in *.
  assert (0 <= total g l).
  { clear -Hl. induction Hl as [|y l [_ Hy] _ IH]; [done|].
    change (total g (y :: l)) with (g y + total g l). lia. }
  change (sum_sizes f (x :: l) init) with (sum_sizes f l (u64 (init + f x))).
  rewrite Hx, u64_small, IH by (done || lia). lia.
Qed.

Lemma round8_add8 n : round8 (8 + n) = 8 + round8 n.
Proof. unfold round8. replace (8 + n + 7) with (n + 7 + 1 * 8) by lia. rewrite Z.div_add by lia. lia. Qed.

Lemma total_sizes_nonneg {A} (f g : A → Z) l : Forall (λ x, f x = g x ∧ 0 <= g x) l → 0 <= total g l.
Proof.
  induction 1 as [|y l [_ Hy] _ IH]; [done|]. change (total g (y :: l)) with (g y + total g l). lia.
Qed.

Lemma total_elem {A} (g : A → Z) l x : Forall (λ x, 0 <= g x ∧ g x mod 8 = 0) l → x ∈ l → g x <= total g l.
Proof.
  induction l as [|y l IH]; intros Hl Hx; [by apply not_elem_of_nil in Hx|].
  apply Forall_cons in Hl as [Hy Hl]. pose proof (total_spec g l Hl).
  change (total g (y :: l)) with (g y + total g l). apply elem_of_cons in Hx as [->|Hx]; [lia|].
  specialize (IH Hl Hx). lia.
Qed.

(** The size of an array whose elements have the right sizes; the elements of the
    first four kinds have none. *)
Lemma Array_size_inline {A} k (size : A → Z) l : kind_ok k →
  match k with KString | KArray _ | KMap _ _ _ => False | _ => True end →
  array_wire_size k (λ _, 0) l < 2 ^ 60 →
  Array_GetSerializedSize k size (Some l) = array_wire_size k (λ _, 0) l.
Proof.
  unfold array_wire_size. rewrite total_zero, Z.add_0_r, round8_add8. intros Hk Hin Hlt.
  set (n := Z.of_nat (length l)) in *. assert (0 <= n) by (unfold n; lia).
  pose proof (data_nonneg (DataType k) n). pose proof (round8_bounds (data (DataType k) n)).
  pose proof (sizeof_kind k Hk). pose proof (Z.div_mod (n + 7) 8). pose proof (Z.mod_pos_bound (n + 7) 8).
  destruct k; try done;
    cbn [Array_GetSerializedSize DataType data sizeof_StorageType Interface_Data kind_ok] in *;
    fold n; unfold sizeof_ArrayHeader; rewrite ?(Z.mul_comm n), (u64_small (_ * n)) || rewrite (u64_small (n + 7));
    rewrite ?Align_round8, ?u64_small by lia; try done; lia.
Qed.

Lemma Array_size_pointers {A} k (f g : A → Z) l :
  match k with KString | KArray _ | KMap _ _ _ => True | _ => False end →
  Forall (λ x, f x = g x ∧ 0 <= g x) l → array_wire_size k g l < 2 ^ 60 →
  Array_GetSerializedSize k f (Some l) = array_wire_size k g l.
Proof.
  intros Hptr Hl Hlt. pose proof (total_sizes_nonneg f g l Hl) as Ht. unfold array_wire_size in *.
  set (n := Z.of_nat (length l)) in *. assert (0 <= n) by (unfold n; lia).
  rewrite round8_add8 in *.
  assert (data (DataType k) n = 8 * n) as Hd by by destruct k. rewrite Hd in *.
  rewrite (round8_mult (8 * n)) in * by (by rewrite Z.mul_comm, Z.mod_mul).
  assert (Array_GetSerializedSize k f (Some l) = sum_sizes f l (u64 (8 + u64 (n * 8)))) as -> by by destruct k.
  rewrite (u64_small (n * 8)), (u64_small (8 + n * 8)) by lia. rewrite (sum_sizes_ok f g) by (done || lia). lia.
Qed.

Lemma GetBaseArraySize_ok k n : kind_ok k → 0 <= n → data (DataType k) n < 2 ^ 61 →
  sizeof_ArrayHeader + GetBaseArraySize k n = round8 (8 + data (DataType k) n).
Proof.
  intros Hk Hn Hlt. pose proof (sizeof_kind k Hk). pose proof (Z.div_mod (n + 7) 8).
  pose proof (Z.mod_pos_bound (n + 7) 8). rewrite round8_add8. f_equal.
  destruct k; cbn [GetBaseArraySize DataType data sizeof_StorageType Interface_Data kind_ok] in *;
    rewrite ?(Z.mul_comm n), (u64_small (_ * n)) || rewrite (u64_small (n + 7)); try nia;
    rewrite ?Align_round8 by lia; try done;
    by rewrite round8_mult by (by rewrite Z.mul_comm, Z.mod_mul).
Qed.

(** The elements that an array, or one half of a map, points to. *)
Lemma sum_elements {A B} (f g : B → Z) (h : A → B) k l : kind_ok k →
  (∀ x, 0 <= g x ∧ g x mod 8 = 0) → (∀ x, g x < 2 ^ 60 → f x = g x) →
  array_wire_size k g (map h l) < 2 ^ 60 → sum_sizes (λ x, f (h x)) l 0 = total g (map h l).
Proof.
  intros Hk Hg Hf Hlt. unfold array_wire_size in Hlt. rewrite length_map in Hlt.
  pose proof (sizeof_kind k Hk). pose proof (data_nonneg (DataType k) (Z.of_nat (length l))).
  pose proof (round8_nonneg (8 + data (DataType k) (Z.of_nat (length l)))).
  assert (total g (map h l) = total (λ x, g (h x)) l) as Ht.
  { clear. induction l as [|x l IH]; [done|].
    change (g (h x) + total g (map h l) = g (h x) + total (λ x, g (h x)) l). by rewrite IH. }
  rewrite Ht in *. rewrite (sum_sizes_ok _ (λ x, g (h x))); [lia| |lia|lia].
  apply Forall_forall. intros x Hx. split; [|apply Hg]. apply Hf.
  pose proof (total_elem (λ x, g (h x)) l x). cbn beta in *.
  assert (g (h x) <= total (λ x, g (h x)) l) by (apply (total_elem (λ x, g (h x))); [by apply Forall_forall|done]).
  lia.
Qed.

Lemma Map_size_ok {K V} key value (fk gk : K → Z) (fv gv : V → Z) M : kind_ok key → kind_ok value →
  (∀ x, 0 <= gk x ∧ gk x mod 8 = 0) → (∀ x, gk x < 2 ^ 60 → fk x = gk x) →
  (∀ x, 0 <= gv x ∧ gv x mod 8 = 0) → (∀ x, gv x < 2 ^ 60 → fv x = gv x) →
  map_wire_size key value gk gv M < 2 ^ 60 →
  Map_GetSerializedSize key value fk fv M = map_wire_size key value gk gv M.
Proof.
  intros Hk Hv Hgk Hfk Hgv Hfv. destruct M as [l [|]]; [done|].
  unfold map_wire_size, Map_GetSerializedSize, Map_size. cbn [is_null_ map_]. intros Hlt.
  destruct (array_wire_size_ok key gk (map fst l) Hk Hgk) as [Hks _].
  destruct (array_wire_size_ok value gv (map snd l) Hv Hgv) as [Hvs _].
  unfold sizeof_Map_Data in *.
  rewrite (sum_elements fk gk fst key), (sum_elements fv gv snd value) by (done || lia).
  unfold array_wire_size in *. rewrite !length_map in *. set (n := Z.of_nat (length l)) in *.
  assert (0 <= n) by (unfold n; lia).
  assert (0 <= total gk (map fst l)) by (apply total_spec, Forall_forall; auto).
  assert (0 <= total gv (map snd l)) by (apply total_spec, Forall_forall; auto).
  pose proof (data_nonneg (DataType key) n). pose proof (data_nonneg (DataType value) n).
  pose proof (sizeof_kind key Hk). pose proof (sizeof_kind value Hv).
  pose proof (round8_bounds (8 + data (DataType key) n)). pose proof (round8_bounds (8 + data (DataType value) n)).
  rewrite (GetBaseArraySize_ok key), (GetBaseArraySize_ok value) by (done || lia).
  rewrite (u64_small (round8 (8 + data (DataType key) n))), (u64_small (round8 (8 + data (DataType value) n))),
    u64_small by lia. lia.
Qed.

Lemma GetSerializedSize_exact k w : kind_ok k → wire_size k w < 2 ^ 60 → GetSerializedSize k w = wire_size k w.
Proof.
  revert w. induction k as [| | | | |k IH|less key IHk value IHv]; intros w Hk Hlt; try done;
    cbn [wire_size GetSerializedSize] in *.
  - destruct w as [s|]; [|done]. pose proof (round8_bounds (8 + Z.of_nat (length s))).
    cbn [String_GetSerializedSize]. unfold sizeof_ArrayHeader. rewrite u64_small, Align_round8 by lia. done.
  - destruct w as [l|]; [|done]. pose proof (wire_sizes k l Hk) as Hsizes.
    destruct k; try by apply Array_size_inline.
    all: apply Array_size_pointers; [done| |done].
    all: apply Forall_forall; intros x Hx; split; [|by apply wire_size_ok].
    all: apply IH; [done|].
    all: eapply Z.le_lt_trans; [apply (total_elem _ l x); [exact Hsizes|done]|].
    all: unfold array_wire_size in Hlt.
    all: match type of Hlt with round8 ?n + _ < _ => pose proof (round8_nonneg n) end.
    all: cbn [data DataType sizeof_StorageType] in *; lia.
  - destruct Hk as (Hkk & Hkv & _). apply Map_size_ok; auto using wire_size_ok.
Qed.

(** ** The theorems *)

(** What may be serialized has its maps in order. *)
Lemma map_entries_sorted less key {V} (m : list (wrapper key * V)) kp vok :
  match key with KPod _ | KBool | KString => True | _ => False end →
  map_entries_ok less key (array_ok key (elements_ok key) kp) vok m →
  entries_ok (key_valid key) (key_less less key) m.
Proof.
  intros Hkey (Hs & (_ & _ & Hk) & _). split; [|done].
  destruct key; try done; try by apply Forall_forall.
  destruct Hk as (_ & _ & Hk). by apply (Forall_map fst (key_valid (KPod sizeof))) in Hk.
Qed.

Lemma elements_ok_ordered k : kind_ok k → ∀ vp l, elements_ok k vp l → Forall (ordered k) l.
Proof.
  induction k as [| | | | |k IH|less key IHk value IHv]; intros Hk vp l Hl; try by apply Forall_forall.
  - destruct Hl as (p & _ & Hl). eapply Forall_impl; [exact Hl|]. intros [x|] Hx; [|done].
    destruct Hx as (_ & _ & Hx). by eapply IH.
  - pose proof Hk as (Hkk & Hkv & Hkey & _). destruct Hl as (p & _ & Hl).
    eapply Forall_impl; [exact Hl|]. intros [m [|]] HM; cbn [is_null_ map_] in HM.
    + destruct HM as [_ ->]. split_and!; [done|apply entries_ok_nil|by constructor].
    + split_and!; [done|by eapply map_entries_sorted|]. destruct HM as (_ & _ & _ & _ & Hv).
      apply (Forall_map snd (ordered value)). by eapply IHv.
Qed.

Lemma object_roundtrip {A B} (w after : A) (view : option B) P (osize : B → Z) size ser (de : Z → De A) m b :
  object_spec w after view P size ser → size = match view with Some y => osize y | None => 0 end →
  (∀ m, view = None → decodes empty empty (de 0) w m) →
  (∀ a y m, 0 < a → view = Some y → P y a m → decodes empty (pointed a (osize y)) (de a) w m) →
  fb_ok m b → cursor_ b + size <= size_ b →
  ∃ q m', ser (m, b) = Ok ((NONE, q, after), (m', advance b size)) ∧
    agree_on (outside (range (here b) (here b + size))) m m' ∧
    ∀ m2, agree_on (range (here b) (here b + size)) m' m2 →
      ∃ m3, de q (m2, tt) = Ok (w, (m3, tt)) ∧ agree_on (outside (range (here b) (here b + size))) m2 m3.
Proof.
  intros Hobj Hsize Hnone Hsome Hok Hroom. destruct (Hobj m b Hok Hroom) as (q & m' & Hs & [Ht _] & Hq).
  exists q, m'. split_and!; [done|done|]. intros m2 Hm2.
  assert (decodes empty (range (here b) (here b + size)) (de q) w m') as Hd.
  { destruct view as [y|]; [destruct Hq as (-> & Hq & Hy)|subst q].
    - rewrite Hsize. apply Hsome; [lia|done|done].
    - eapply decodes_weaken; [by apply Hnone|by intros x []|by intros x []]. }
  apply Hd. by intros x [[]|Hx]; apply Hm2.
Qed.

(** C20: A non-null or null array of numbers, booleans, handles, interfaces, strings,
    maps or such arrays, nested to any depth, serializes without an error into a buffer
    with room for [GetSerializedSize_] of it: it takes exactly that many bytes, writes
    nothing else, and leaves its handles empty; and deserializing what was written,
    from any memory that still holds it, gives the array back with its handles. *)
Theorem Array_roundtrip debug k p a m b :
  kind_ok k → match a with None => True | Some l => array_ok k (elements_ok k) p l end →
  wire_size (KArray k) a < 2 ^ 60 →
  fb_ok m b → cursor_ b + Array_Size k a <= size_ b →
  ∃ q m', Array_Serialize debug k a (Some p) (m, b) =
      Ok ((NONE, q, option_map (map (emptied k)) a), (m', advance b (Array_Size k a))) ∧
    agree_on (outside (range (here b) (here b + Array_Size k a))) m m' ∧
    ∀ m2, agree_on (range (here b) (here b + Array_Size k a)) m' m2 →
      ∃ m3, Array_Deserialize debug k q (m2, tt) = Ok (a, (m3, tt)) ∧
        agree_on (outside (range (here b) (here b + Array_Size k a))) m2 m3.
Proof.
  intros Hk Ha Hw Hok Hroom. unfold Array_Size in *.
  rewrite (GetSerializedSize_exact (KArray k)) in * by done.
  eapply (object_roundtrip _ _ a _ (array_wire_size k (wire_size k))); [|by destruct a| | |done|done].
  - by apply Array_spec; [|apply elements_correct|].
  - intros m0 ->. apply decodes_ret.
  - intros q l m0 Hq -> Hl. apply array_deserialize; try done; [by apply elements_deserialize|].
    destruct Ha as (_ & _ & Ha). by eapply elements_ok_ordered.
Qed.

(** Arrays of strings, of which one is null. *)
Definition sample_strings : option (list (wrapper KString)) := Some [Some [104; 105]; None].
Definition sample_params : ArrayValidateParams :=
  mkArrayValidateParams 0 true (Some (mkArrayValidateParams 0 false None)).
Definition sample_space : mem := words 4096 (replicate 16 0).

Lemma Array_roundtrip_witness :
  ∃ q m', Array_Serialize true KString sample_strings (Some sample_params)
      (sample_space, mkFixedBuffer 4096 8 64) =
      Ok ((NONE, q, sample_strings), (m', mkFixedBuffer 4096 48 64)) ∧
    agree_on (outside (range 4104 4144)) sample_space m' ∧
    ∀ m2, agree_on (range 4104 4144) m' m2 →
      ∃ m3, Array_Deserialize true KString q (m2, tt) = Ok (sample_strings, (m3, tt)) ∧
        agree_on (outside (range 4104 4144)) m2 m3.
Proof.
  apply (Array_roundtrip true KString sample_params sample_strings sample_space (mkFixedBuffer 4096 8 64)).
  - done.
  - split_and!; [by left|done|]. split; [done|]. repeat constructor; done.
  - done.
  - split; try done. apply mapped_check_sound. by vm_compute.
  - done.
Defined.

(** A map that may be sent: null, or in order and with keys and values in range. *)
Definition Map_sendable less key value (p : ArrayValidateParams) (M : Map (wrapper key) (wrapper value)) : Prop :=
  if is_null_ M then map_ M = []
  else map_entries_ok less key (array_ok key (elements_ok key) (MapKeyValidateParamsFactory_Get (DataType key)))
    (array_ok value (elements_ok value) p) (map_ M).

(** C21: A null or non-null map from numbers, booleans or strings to any values that
    arrays may have but interfaces, serializes without an error into a buffer with room
    for [GetSerializedSize_] of it: it takes exactly that many bytes, writes nothing
    else, and leaves the handles among its values empty; and deserializing what was
    written, from any memory that still holds it, gives the same entries in the same
    order. *)
Theorem Map_roundtrip debug less key value p M m b :
  kind_ok (KMap less key value) → Map_sendable less key value p M →
  wire_size (KMap less key value) M < 2 ^ 60 →
  fb_ok m b → cursor_ b + Map_SerializedSize less key value M <= size_ b →
  ∃ q m', Map_Serialize debug key value M (Some p) (m, b) =
      Ok ((NONE, q, map_emptied (emptied value) M), (m', advance b (Map_SerializedSize less key value M))) ∧
    agree_on (outside (range (here b) (here b + Map_SerializedSize less key value M))) m m' ∧
    ∀ m2, agree_on (range (here b) (here b + Map_SerializedSize less key value M)) m' m2 →
      ∃ m3, Map_Deserialize debug less key value q (m2, tt) = Ok (M, (m3, tt)) ∧
        agree_on (outside (range (here b) (here b + Map_SerializedSize less key value M))) m2 m3.
Proof.
  intros Hk HM Hw Hok Hroom. unfold Map_SerializedSize in *.
  rewrite (GetSerializedSize_exact (KMap less key value)) in * by done.
  pose proof Hk as (Hkk & Hkv & Hkey & _).
  eapply (object_roundtrip _ _ (entries M) _ (map_object_size key value)); [|by destruct M as [? [|]]| | |done|done].
  - by apply Map_spec; [|apply elements_correct|apply elements_correct|].
  - intros m0 HMn. destruct M as [l [|]]; [|done]. unfold Map_sendable in HM. cbn in HM. subst l. apply decodes_ret.
  - intros q l m0 Hq HMs Hl. destruct M as [l' [|]]; [done|]. injection HMs as ->.
    unfold Map_sendable in HM. cbn [is_null_ map_] in HM.
    apply map_deserialize; try done; [by apply elements_deserialize|by apply elements_deserialize
      |by eapply map_entries_sorted|by eapply keys_ordered|].
    destruct HM as (_ & _ & _ & _ & Hv). by eapply elements_ok_ordered.
Qed.

(** A map of signed bytes to handles, of which one is absent. *)
Definition signed_less (a b : Z) : bool := ((a + 128) mod 256 <? (b + 128) mod 256).
Definition sample_map : Map (wrapper (KPod 1)) (wrapper KHandle) := mkMap [(255, 7); (1, 0)] false.

Lemma signed_less_ok : less_ok (λ v, 0 <= v < 256) signed_less.
Proof.
  unfold signed_less. split; intros *; rewrite ?Z.ltb_lt, ?Z.ltb_ge; try lia. intros Hx Hy H1 H2.
  assert (∀ v, 0 <= v < 256 → (v + 128) mod 256 = if v <? 128 then v + 128 else v - 128) as Hmod.
  { intros v Hv. destruct (Z.ltb_spec v 128); [by rewrite Z.mod_small by lia|].
    symmetry. apply (Z.mod_unique_pos _ _ 1); lia. }
  rewrite !Hmod in * by done. destruct (Z.ltb_spec x 128), (Z.ltb_spec y 128); lia.
Qed.

Lemma Map_roundtrip_witness :
  ∃ q m', Map_Serialize true (KPod 1) KHandle sample_map (Some (mkArrayValidateParams 0 true None))
      (words 4096 (replicate 20 0), mkFixedBuffer 4096 8 80) =
      Ok ((NONE, q, mkMap [(255, 0); (1, 0)] false), (m', mkFixedBuffer 4096 64 80)) ∧
    agree_on (outside (range 4104 4160)) (words 4096 (replicate 20 0)) m' ∧
    ∀ m2, agree_on (range 4104 4160) m' m2 →
      ∃ m3, Map_Deserialize true signed_less (KPod 1) KHandle q (m2, tt) = Ok (sample_map, (m3, tt)) ∧
        agree_on (outside (range 4104 4160)) m2 m3.
Proof.
  apply (Map_roundtrip true signed_less (KPod 1) KHandle (mkArrayValidateParams 0 true None) sample_map
    (words 4096 (replicate 20 0)) (mkFixedBuffer 4096 8 80)).
  - refine (conj _ (conj _ (conj _ (conj _ signed_less_ok)))); done.
  - split; [by repeat constructor|]. split; (split; [by left|]; split; [done|]).
    + split; [done|]. split; [done|]. repeat constructor; done.
    + split; [done|]. repeat constructor; done.
  - done.
  - split; try done. apply mapped_check_sound. by vm_compute.
  - done.
Defined.
