(* ===== verification/CppSerializeErrors.v ===== *)
(** * Serialization of C++ arrays that fails

    An array with an element that must not be invalid or null is refused, after the
    handles before that element were moved out of it. *)
From stdpp Require Import base list numbers option gmap.
From S2P Require Import Prelude Memory TypeDescriptor Validate Sample Codec Buffer CppBindings CppAgrees CppArray CppArrayAgrees CppMap CppSerialize CppSerializeSteps CppLayout CppSerializeElements.

Section errors.
Context (debug : bool).

(** The body of the loop of [serialize_handles], for handles that must be valid. *)
Lemma handle_stored body out n i h m (b : FixedBuffer) :
  body = (λ i h,
    slot ← Array_at debug (DataType KHandle) out i;
    write (λ m, store32 m slot h);;
    if negb false && (h =? MOJO_HANDLE_INVALID)
    then mret (UNEXPECTED_INVALID_HANDLE, MOJO_HANDLE_INVALID)
    else mret (NONE, MOJO_HANDLE_INVALID)) →
  0 <= i < n → load32 m (out + 4) = Ok n → mapped m (out + 8) (out + 8 + 4 * n) →
  ∃ m', body i h (m, b) = Ok ((if h =? MOJO_HANDLE_INVALID then UNEXPECTED_INVALID_HANDLE else NONE,
      MOJO_HANDLE_INVALID), (m', b)) ∧ touches (range (out + 8) (out + 8 + 4 * n)) m m'.
Proof.
  intros -> Hi Hn Hmap.
  destruct (store_touches 4 m (out + 8 + 4 * i) h) as (m' & Hs & Ht & _); [eapply mapped_sub; [done|lia|lia]|].
  exists m'. split.
  - unfold mbind, stateR_bind. rewrite (Array_at_ok _ _ _ n) by (done || lia). rewrite write_eq.
    change (storage_at (DataType KHandle) out i) with (out + 8 + 4 * i). unfold store32. rewrite Hs.
    by destruct (h =? MOJO_HANDLE_INVALID).
  - eapply touches_mono; [exact Ht|]. unfold range. lia.
Qed.

Lemma serialize_handles_stops body before after : ∀ out n m (b : FixedBuffer) i,
  body = (λ i h,
    slot ← Array_at debug (DataType KHandle) out i;
    write (λ m, store32 m slot h);;
    if negb false && (h =? MOJO_HANDLE_INVALID)
    then mret (UNEXPECTED_INVALID_HANDLE, MOJO_HANDLE_INVALID)
    else mret (NONE, MOJO_HANDLE_INVALID)) →
  Forall (λ h, h ≠ MOJO_HANDLE_INVALID) before → 0 <= i → i + Z.of_nat (length before) < n →
  load32 m (out + 4) = Ok n → mapped m (out + 8) (out + 8 + 4 * n) →
  ∃ m', serialize_each i (before ++ MOJO_HANDLE_INVALID :: after) body (m, b) =
    Ok ((UNEXPECTED_INVALID_HANDLE, map (λ _, MOJO_HANDLE_INVALID) before ++ MOJO_HANDLE_INVALID :: after), (m', b)) ∧
    touches (range (out + 8) (out + 8 + 4 * n)) m m'.
Proof.
  induction before as [|h before IH]; intros out n m b i Hbody Hv Hi Hlen Hn Hmap; cbn [length] in Hlen;
    cbn [app map serialize_each]; unfold mbind, stateR_bind.
  - destruct (handle_stored body out n i MOJO_HANDLE_INVALID m b Hbody) as (m' & Hs & Ht); [lia|done|done|].
    rewrite Hs. by exists m'.
  - apply Forall_cons in Hv as [Hh%Z.eqb_neq Hv].
    destruct (handle_stored body out n i h m b Hbody) as (m1 & Hs & Ht1); [lia|done|done|].
    rewrite Hh in Hs. rewrite Hs, bool_decide_true by done. cbn [negb].
    destruct (IH out n m1 b (i + 1)) as (m2 & Hr & Ht2); [done|done|lia|lia| |by eapply touches_mapped|].
    { rewrite <- Hn. symmetry. apply load32_agree. eapply touches_agree; [exact Ht1|].
      intros x Hx Hy. unfold range in *. lia. }
    rewrite Hr. exists m2. split; [done|]. eapply touches_mono; [by eapply touches_trans|]. by intros x [Hx|Hx].
Qed.

(** When an array of handles of which none may be invalid holds an invalid one, it
    is refused with [UNEXPECTED_INVALID_HANDLE]: no pointer is returned, space for the
    whole array is gone from the buffer, and the handles before the invalid one were
    moved out of the array, into memory that nothing refers to. *)
Theorem handles_lost_on_error p before after m b :
  expected_num_elements p = 0 → element_is_nullable p = false → element_validate_params p = None →
  Forall (λ h, h ≠ MOJO_HANDLE_INVALID) before → fb_ok m b →
  cursor_ b + Array_Size KHandle (Some (before ++ MOJO_HANDLE_INVALID :: after)) <= size_ b →
  Z.of_nat (length before + S (length after)) < 2 ^ 29 →
  ∃ m', Array_Serialize debug KHandle (Some (before ++ MOJO_HANDLE_INVALID :: after)) (Some p) (m, b) =
    Ok ((UNEXPECTED_INVALID_HANDLE, 0,
         Some (map (λ _, MOJO_HANDLE_INVALID) before ++ MOJO_HANDLE_INVALID :: after)),
        (m', advance b (Array_Size KHandle (Some (before ++ MOJO_HANDLE_INVALID :: after))))) ∧
    agree_on (outside (fresh b (Array_Size KHandle (Some (before ++ MOJO_HANDLE_INVALID :: after))))) m m'.
Proof.
  intros Hexp Hnull Hparams Hv Hok Hroom Hlen. set (l := before ++ MOJO_HANDLE_INVALID :: after) in *.
  set (n := Z.of_nat (length l)) in *.
  assert (n = Z.of_nat (length before + S (length after))) as Hn by (unfold n, l; by rewrite length_app).
  assert (Array_Size KHandle (Some l) = round8 (8 + 4 * n)) as Hsize.
  { change (u64 (8 + Align (u64 (n * 4))) = round8 (8 + 4 * n)). pose proof (round8_bounds (4 * n)).
    assert (round8 (8 + 4 * n) = 8 + round8 (4 * n)) as ->.
    { unfold round8. replace (8 + 4 * n + 7) with (4 * n + 7 + 1 * 8) by lia. rewrite Z.div_add by lia. lia. }
    rewrite (u64_small (n * 4)), Align_round8, Z.mul_comm, u64_small by lia. done. }
  rewrite Hsize in *. pose proof (round8_bounds (8 + 4 * n)).
  destruct (Array_New_ok debug (DataType KHandle) n m b) as (m1 & Hnew & Ht1 & _ & Hn1); [cbn; lia|lia|done|done|cbn; lia|].
  change (data (DataType KHandle) n) with (4 * n) in Hnew. pose proof Hok as [? [? ?] ? ? ? Hmap].
  destruct (serialize_handles_stops _ before after (here b) n m1 (advance b (round8 (8 + 4 * n))) 0 eq_refl)
    as (m2 & Hs & Ht2); [done|done|lia|done| |].
  { eapply mapped_sub; [by eapply touches_mapped|unfold here; lia|unfold here; lia]. }
  exists m2. split.
  - unfold Array_Serialize, SerializeArray_, mbind at 1 2, stateR_bind at 1 2, lift. cbn [deref_params].
    rewrite Hexp. cbn [Z.eqb negb andb]. unfold mbind at 1, stateR_bind at 1.
    change (Z.of_nat (length l)) with n. rewrite Hnew.
    change (SerializeElements debug KHandle l) with (serialize_handles debug l).
    unfold serialize_handles, no_params. rewrite Hparams, Hnull. fold l in Hs.
    unfold mbind at 1, stateR_bind at 1.
    replace (MOJO_DCHECK debug _ (m1, _)) with (Ok (tt, (m1, advance b (round8 (8 + 4 * n))))) by by destruct debug.
    by rewrite Hs.
  - intros x Hx. assert (∀ y, range (here b) (here b + 8) y ∨ range (here b + 8) (here b + 8 + 4 * n) y →
      fresh b (round8 (8 + 4 * n)) y) as Hsub by (unfold fresh, pointed, range; lia).
    apply (touches_trans _ _ _ _ _ Ht1 Ht2). intros Hy. by apply Hx, Hsub.
Qed.
End errors.

(** The second of three handles is missing; the first one, 7, is lost. *)
Lemma handles_lost_on_error_witness :
  ∃ m', Array_Serialize true KHandle (Some [7; 0; 9]) (Some (mkArrayValidateParams 0 false None))
      (words 4096 (replicate 16 0), mkFixedBuffer 4096 8 64) =
    Ok ((UNEXPECTED_INVALID_HANDLE, 0, Some [0; 0; 9]), (m', mkFixedBuffer 4096 32 64)) ∧
    agree_on (outside (range 4104 4128)) (words 4096 (replicate 16 0)) m'.
Proof.
  apply (handles_lost_on_error true (mkArrayValidateParams 0 false None) [7] [9]
    (words 4096 (replicate 16 0)) (mkFixedBuffer 4096 8 64)); try done.
  - by repeat constructor.
  - split; try done. apply mapped_check_sound. by vm_compute.
Defined.
