(* ===== verification/CppWalk.v ===== *)
(** * Walks over C++ values that replace pointers and handles

    Encoding and decoding visit a value in the same way: [Array_walk] is both, given
    what is done at a handle and at a pointer.  [relabel] is the value with its handles,
    in the order of the walk, replaced: by their positions on the wire, or by what
    was received.  A walk turns one layout of a value into the other. *)
From stdpp Require Import base list numbers option gmap sorting.
From S2P Require Import Prelude Memory TypeDescriptor Validate Sample Codec Buffer CppBindings CppAgrees CppArray CppArrayAgrees CppMap CppSerialize CppSerializeSteps CppLayout.

(** ** The handles of a value *)
Fixpoint handles_of (k : kind) : wrapper k → list Z :=
  match k with
  | KHandle => λ h, if h =? MOJO_HANDLE_INVALID then [] else [h]
  | KArray k => λ a, match a with None => [] | Some l => flat_map (handles_of k) l end
  | KMap _ key value => λ M, match entries M with None => [] | Some l => flat_map (λ e, handles_of value e.2) l end
  | _ => λ _, []
  end.
Definition count {A} (handles : A → list Z) (l : list A) : nat := length (flat_map handles l).

Fixpoint relabel_list {A} (handles : A → list Z) (g : nat → A → A) (c : nat) (l : list A) : list A :=
  match l with
  | [] => []
  | x :: l => g c x :: relabel_list handles g (c + length (handles x)) l
  end.

(** The [c]th handle becomes [f c], absent ones [none]. *)
Fixpoint relabel (f : nat → Z) (none : Z) (k : kind) : nat → wrapper k → wrapper k :=
  match k with
  | KHandle => λ c h, if h =? MOJO_HANDLE_INVALID then none else f c
  | KArray k => λ c, option_map (relabel_list (handles_of k) (relabel f none k) c)
  | KMap _ key value => λ c M,
      match entries M with
      | None => M
      | Some l => mkMap (relabel_list (λ e, handles_of value e.2)
          (λ c e, (e.1, relabel f none value c e.2)) c l) false
      end
  | _ => λ _ x, x
  end.
Abbreviation relabels f none k := (relabel_list (handles_of k) (relabel f none k)).

Lemma count_cons {A} (handles : A → list Z) x l : count handles (x :: l) = (length (handles x) + count handles l)%nat.
Proof. unfold count. cbn [flat_map]. apply length_app. Qed.

Lemma relabel_list_length {A} (handles : A → list Z) g l : ∀ c, length (relabel_list handles g c l) = length l.
Proof. induction l as [|x l IH]; intros c; [done|]. cbn [relabel_list length]. by rewrite IH. Qed.

Lemma relabel_list_map {A B} (h : A → B) (handles : B → list Z) g (g' : nat → A → A) l : ∀ c,
  (∀ c x, h (g' c x) = g c (h x)) →
  map h (relabel_list (λ x, handles (h x)) g' c l) = relabel_list handles g c (map h l).
Proof. induction l as [|x l IH]; intros c Hg; [done|]. cbn [relabel_list map]. by rewrite Hg, IH. Qed.

Lemma relabel_list_fixed {A B} (h : A → B) (handles : A → list Z) g l : ∀ c,
  (∀ c x, h (g c x) = h x) → map h (relabel_list handles g c l) = map h l.
Proof. induction l as [|x l IH]; intros c Hg; [done|]. cbn [relabel_list map]. by rewrite Hg, IH. Qed.

Lemma relabel_list_total {A} (handles : A → list Z) g (size : A → Z) l : ∀ c,
  (∀ c x, size (g c x) = size x) → total size (relabel_list handles g c l) = total size l.
Proof. induction l as [|x l IH]; intros c Hg; [done|]. cbn [relabel_list]. by rewrite !total_cons, Hg, IH. Qed.

Lemma count_map {A B} (h : A → B) (handles : B → list Z) l :
  count handles (map h l) = count (λ x, handles (h x)) l.
Proof. unfold count. induction l as [|x l IH]; [done|]. cbn [map flat_map]. by rewrite !length_app, IH. Qed.

(** A walk leaves these alone; keys are of these. *)
Definition plain (k : kind) : Prop := match k with KPod _ | KBool | KInterface | KString => True | _ => False end.
Lemma plain_count k l : plain k → count (handles_of k) l = 0%nat.
Proof. intros Hk. unfold count. induction l as [|x l IH]; [done|]. cbn [flat_map]. rewrite length_app, IH. by destruct k. Qed.
Lemma plain_relabels f none k l : plain k → ∀ c, relabels f none k c l = l.
Proof. intros Hk. induction l as [|x l IH]; intros c; [done|]. cbn [relabel_list]. rewrite IH. by destruct k. Qed.

Section relabelled.
Context (f : nat → Z) (none : Z).

Lemma array_wire_size_relabel k (l : list (wrapper k)) c :
  (∀ c x, wire_size k (relabel f none k c x) = wire_size k x) →
  array_wire_size k (wire_size k) (relabels f none k c l) = array_wire_size k (wire_size k) l.
Proof. intros Hsize. unfold array_wire_size. by rewrite relabel_list_length, relabel_list_total. Qed.

Lemma wire_size_relabel k : ∀ c w, wire_size k (relabel f none k c w) = wire_size k w.
Proof.
  induction k as [| | | | |k IH|less key IHk value IHv]; intros c w; try done.
  - destruct w as [l|]; [|done]. cbn [relabel option_map wire_size]. by apply array_wire_size_relabel.
  - destruct w as [l [|]]; [done|]. cbn [relabel wire_size entries map_ is_null_]. unfold map_wire_size. cbn [map_ is_null_].
    rewrite (relabel_list_fixed fst) by done.
    rewrite (relabel_list_map snd (handles_of value) (relabel f none value)) by done.
    by rewrite (array_wire_size_relabel value).
Qed.

Lemma map_size_relabel key value (l : list (wrapper key * wrapper value)) c :
  map_object_size key value (relabel_list (λ e, handles_of value e.2) (λ c e, (e.1, relabel f none value c e.2)) c l) =
  map_object_size key value l.
Proof.
  unfold map_object_size. rewrite (relabel_list_fixed fst) by done.
  rewrite (relabel_list_map snd (handles_of value) (relabel f none value)) by done.
  by rewrite (array_wire_size_relabel value) by apply wire_size_relabel.
Qed.
End relabelled.

(** ** The walk *)
Section walk.
Context {S U : Type} (walk_handle : Z → SM unit) (walk_pointer : (Z → SM unit) → Z → SM unit).
Context (walk_struct : S → Z → SM unit) (walk_union : U → Z → SM unit).

Definition Map_walk (walk_keys walk_values : Z → SM unit) (map : Z) : SM unit :=
  walk_pointer walk_keys (map + 8);;
  walk_pointer walk_values (map + 16).

Fixpoint Array_walk (t : element S U) (array : Z) : SM unit :=
  match t with
  | Char | Pod _ | Bool => mret tt
  | HandleElem => each_element t array walk_handle
  | StructPtr s => each_element t array (walk_pointer (walk_struct s))
  | ArrayPtr t' => each_element t array (walk_pointer (Array_walk t'))
  | MapPtr key value => each_element t array (walk_pointer (Map_walk (Array_walk key) (Array_walk value)))
  | Union u => each_element t array (walk_union u)
  end.
End walk.

Lemma Array_Encode_walk {S U} debug SE UE (t : element S U) :
  Array_EncodePointersAndHandles debug SE UE t = Array_walk EncodeHandle (Encode debug) SE UE t.
Proof.
  induction t as [| | | | |t IH|key IHk value IHv|]; cbn [Array_EncodePointersAndHandles Array_walk];
    rewrite ?IH, ?IHk, ?IHv; reflexivity.
Qed.

Lemma Array_Decode_walk {S U} debug SD UD (t : element S U) :
  Array_DecodePointersAndHandles debug SD UD t = Array_walk (DecodeHandle debug) Decode SD UD t.
Proof.
  induction t as [| | | | |t IH|key IHk value IHv|]; cbn [Array_DecodePointersAndHandles Array_walk];
    rewrite ?IH, ?IHk, ?IHv; reflexivity.
Qed.

(** ** Walks turn one layout into the other

    Before and after, [e1] and [e2] say whether pointers are encoded, and [f1] and [f2]
    what handles are labelled with; [σ c] is the vector of handles when [c] of the [N]
    handles were visited. *)
Section walks.
Context (walk_handle : Z → SM unit) (walk_pointer : (Z → SM unit) → Z → SM unit).
Context (WS WU : Empty_set → Z → SM unit).
Context (σ : nat → list Z) (N : nat) (e1 e2 : bool) (f1 f2 : nat → Z) (none1 none2 : Z).

Definition handle_walks : Prop := ∀ slot m c h, (c + length (handles_of KHandle h) <= N)%nat →
  load32 m slot = Ok (relabel f1 none1 KHandle c h) →
  ∃ m', walk_handle slot (m, σ c) = Ok (tt, (m', σ (c + length (handles_of KHandle h))%nat)) ∧
    touches (range slot (slot + 4)) m m' ∧ load32 m' slot = Ok (relabel f2 none2 KHandle c h).

Definition null_walks : Prop := ∀ W slot m s, load64 m slot = Ok 0 →
  ∃ m', walk_pointer W slot (m, s) = Ok (tt, (m', s)) ∧ touches (range slot (slot + 8)) m m' ∧
    load64 m' slot = Ok 0.

Definition pointer_walks : Prop := ∀ W slot p m s s' F (Post : mem → Prop),
  0 < slot → slot + 8 <= p → p < 2 ^ 63 → p < slot + 2 ^ 32 → points e1 slot p m →
  disjoint (range slot (slot + 8)) F →
  (∀ m1, touches (range slot (slot + 8)) m m1 →
    ∃ m2, W p (m1, s) = Ok (tt, (m2, s')) ∧ touches F m1 m2 ∧ Post m2) →
  (∀ m2 m3, Post m2 → agree_on F m2 m3 → Post m3) →
  ∃ m3, walk_pointer W slot (m, s) = Ok (tt, (m3, s')) ∧ touches (union (range slot (slot + 8)) F) m m3 ∧
    points e2 slot p m3 ∧ Post m3.

Context (Hhandle : handle_walks) (Hnull : null_walks) (Hpointer : pointer_walks).

Section loop.
Context {A : Type} (out n es : Z) (size : A → Z) (handles : A → list Z) (g1 g2 : nat → A → A).
Context (P Q : Z → A → Z → mem → Prop) (body : Z → SM unit).
Context (Hes : 0 < es) (Hsize : ∀ x, 0 <= size x).
Context (Hg1 : ∀ c x, size (g1 c x) = size x) (Hg2 : ∀ c x, size (g2 c x) = size x).

Context (HP : local out es size P) (HQ : local out es size Q).

Lemma each_at_local l : ∀ i a m m', each_at P size i l a m →
  agree_on (union (slots out es i (i + Z.of_nat (length l))) (pointed a (total size l))) m m' →
  each_at P size i l a m'.
Proof.
  intros i a m m' Hl Ha. eapply each_at_impl; [exact Hl|]. intros j x Hj Hx. eapply HP; [exact Hx|].
  destruct (total_take size l j x Hsize Hj). apply lookup_lt_Some in Hj.
  eapply agree_on_sub; [exact Ha|]. unfold union, slots, pointed, range. intros y [Hy|Hy]; [left; nia|right; lia].
Qed.

Lemma walk_loop l : ∀ i a m c, 0 <= i → i + Z.of_nat (length l) = n → out + 8 + es * n <= a →
  load32 m (out + 4) = Ok n → (c + count handles l <= N)%nat →
  (∀ (j : nat) x b m c, l !! j = Some x → a <= b → b + size x <= a + total size l →
    (c + length (handles x) <= N)%nat → P (i + Z.of_nat j) (g1 c x) b m →
    ∃ m', body (i + Z.of_nat j) (m, σ c) = Ok (tt, (m', σ (c + length (handles x))%nat)) ∧
      touches (union (slots out es (i + Z.of_nat j) (i + Z.of_nat j + 1)) (pointed b (size x))) m m' ∧
      Q (i + Z.of_nat j) (g2 c x) b m') →
  each_at P size i (relabel_list handles g1 c l) a m →
  ∃ m', for_each (seqZ i (n - i)) (λ i,
      num ← read (λ m, array_num_elements m out);
      if num <=? i then mret tt else body i) (m, σ c) = Ok (tt, (m', σ (c + count handles l)%nat)) ∧
    touches (union (slots out es i n) (pointed a (total size l))) m m' ∧
    each_at Q size i (relabel_list handles g2 c l) a m'.
Proof.
  induction l as [|x l IH]; intros i a m c Hi Hlen Ha Hn Hc Hstep Hl; cbn [length] in Hlen.
  { rewrite seqZ_nil by lia. cbn [for_each]. exists m. unfold count. cbn. rewrite Nat.add_0_r.
    split_and!; [done|apply touches_refl|done]. }
  rewrite count_cons in *. cbn [relabel_list each_at] in *. destruct Hl as [Hx Hl]. rewrite Hg1, Hg2 in *.
  pose proof (Hsize x). pose proof (total_ge_0 size l Hsize). rewrite total_cons in *.
  assert (es * (i + 1) = es * i + es) as He1 by lia. assert (es * (i + 1) <= es * n) as He2 by nia.
  destruct (Hstep 0%nat x a m c eq_refl) as (m1 & Hb & Ht1 & Hq); rewrite ?Z.add_0_r in *; [lia|lia|lia|done|].
  rewrite ?Z.add_0_r in Hb, Ht1, Hq.
  assert (load32 m1 (out + 4) = Ok n) as Hn1.
  { rewrite <- Hn. symmetry. apply load32_agree. eapply touches_agree; [exact Ht1|].
    unfold slots, pointed, range. intros y Hy [Hz|Hz]; nia. }
  destruct (IH (i + 1) (a + size x) m1 (c + length (handles x))%nat) as (m2 & Hr & Ht2 & Hq2);
    [lia|lia|lia|done|lia| | |].
  { intros j y b m' c' Hj Hb' Hb2 Hc' Hy. replace (i + 1 + Z.of_nat j) with (i + Z.of_nat (Datatypes.S j)) in * by lia.
    apply Hstep; [done|lia|lia|done|done]. }
  { eapply each_at_local; [exact Hl|]. rewrite relabel_list_length, relabel_list_total by done.
    eapply touches_agree; [exact Ht1|]. unfold union, slots, pointed, range. intros y [Hy|Hy] [Hz|Hz]; nia. }
  exists m2. split_and!.
  - rewrite (seqZ_cons i) by lia. replace (Z.pred (n - i)) with (n - (i + 1)) by lia. cbn [for_each].
    unfold mbind, stateR_bind, array_num_elements in *. rewrite read_eq, Hn.
    replace (n <=? i) with false by lia. rewrite Hb. replace (Z.succ i) with (i + 1) by lia. rewrite Hr.
    by rewrite Nat.add_assoc.
  - eapply touches_mono; [by eapply touches_trans|]. unfold union, slots, pointed, range.
    intros y [[Hy|Hy]|[Hy|Hy]]; [left|right|left|right]; lia.
  - eapply HQ; [exact Hq|]. rewrite Hg2. eapply touches_agree; [exact Ht2|].
    unfold union, slots, pointed, range. intros y [Hy|Hy] [Hz|Hz]; nia.
  - done.
Qed.
End loop.

Lemma each_element_walks {A} t out n es size (handles : A → list Z) g1 g2 P Q (body : Z → SM unit) (l : list A) a m c :
  0 < es → (∀ x, 0 <= size x) → (∀ c x, size (g1 c x) = size x) → (∀ c x, size (g2 c x) = size x) →
  local out es size P → local out es size Q →
  n = Z.of_nat (length l) → out + 8 + es * n <= a →
  load32 m (out + 4) = Ok n → (c + count handles l <= N)%nat →
  (∀ i x b m c, x ∈ l → 0 <= i < n → a <= b → b + size x <= a + total size l →
    (c + length (handles x) <= N)%nat → P i (g1 c x) b m →
    ∃ m', body (storage_at (S := Empty_set) (U := Empty_set) t out i) (m, σ c) =
        Ok (tt, (m', σ (c + length (handles x))%nat)) ∧
      touches (union (slots out es i (i + 1)) (pointed b (size x))) m m' ∧ Q i (g2 c x) b m') →
  each_at P size 0 (relabel_list handles g1 c l) a m →
  ∃ m', each_element t out body (m, σ c) = Ok (tt, (m', σ (c + count handles l)%nat)) ∧
    touches (union (storage out (es * n)) (pointed a (total size l))) m m' ∧
    each_at Q size 0 (relabel_list handles g2 c l) a m'.
Proof.
  intros Hes Hsize Hg1 Hg2 HP HQ Hn Ha Hlen Hc Hstep Hl.
  destruct (walk_loop out n es size handles g1 g2 P Q (λ i, body (storage_at t out i)) Hes Hsize Hg1 Hg2 HP HQ
    l 0 a m c) as (m' & Hr & Ht & Hq); [done|lia|done|done|done| |done|].
  { intros j x b m' c' Hj Hb Hb2 Hc' Hx. pose proof (lookup_lt_Some _ _ _ Hj).
    apply Hstep; try done; [by eapply list_elem_of_lookup_2|lia]. }
  assert (slots out es 0 n = storage out (es * n)) as <- by (unfold slots, storage; f_equal; lia).
  exists m'. split_and!; [|done|done].
  assert (load32 m' (out + 4) = Ok n) as Hlen'.
  { rewrite <- Hlen. symmetry. apply load32_agree. eapply touches_agree; [exact Ht|].
    unfold slots, pointed, range. intros y Hy [Hz|Hz]; nia. }
  rewrite Z.sub_0_r in Hr. unfold each_element, for_each_element.
  unfold mbind, stateR_bind, array_num_elements in *. rewrite read_eq, Hlen, Hr, read_eq, Hlen'.
  by rewrite Z.ltb_irrefl.
Qed.

(** What a pointer in an array points to. *)
Definition object_walks {B} (W : Z → SM unit) (osize : B → Z) (handles : B → list Z) (h1 h2 : nat → B → B)
    (P1 P2 : B → Z → mem → Prop) (y : B) : Prop := ∀ c b m,
  0 < b → b + osize y < 2 ^ 63 → osize y < 2 ^ 32 → (c + length (handles y) <= N)%nat → P1 (h1 c y) b m →
  ∃ m', W b (m, σ c) = Ok (tt, (m', σ (c + length (handles y))%nat)) ∧
    touches (pointed b (osize y)) m m' ∧ P2 (h2 c y) b m'.

Lemma object_pointer_walks {B} W (osize : B → Z) handles h1 h2 P1 P2 y slot b m c :
  object_walks W osize handles h1 h2 P1 P2 y →
  (∀ c y, osize (h1 c y) = osize y) → (∀ c y, osize (h2 c y) = osize y) →
  shiftable 0 osize P1 → shiftable 0 osize P2 → 0 < osize y →
  0 < slot → slot + 8 <= b → b + osize y < 2 ^ 63 → b + osize y < slot + 2 ^ 32 →
  (c + length (handles y) <= N)%nat → points e1 slot b m → P1 (h1 c y) b m →
  ∃ m', walk_pointer W slot (m, σ c) = Ok (tt, (m', σ (c + length (handles y))%nat)) ∧
    touches (union (range slot (slot + 8)) (pointed b (osize y))) m m' ∧
    points e2 slot b m' ∧ P2 (h2 c y) b m'.
Proof.
  intros Hy Hh1 Hh2 HP1 HP2 Hpos H0 Hsb Hend Hspan Hc Hp HP.
  apply (Hpointer W slot b m (σ c) (σ (c + length (handles y))%nat) (pointed b (osize y)) (P2 (h2 c y) b));
    try done; try lia.
  - unfold disjoint, pointed, range. lia.
  - intros m2 Ht2. apply Hy; [lia|lia|lia|done|]. eapply (shiftable_agree osize); [done|exact HP|].
    rewrite Hh1. eapply touches_agree; [exact Ht2|]. unfold disjoint, pointed, range. lia.
  - intros m2 m3 HQ Hag. eapply (shiftable_agree osize); [done|exact HQ|]. by rewrite Hh2.
Qed.

Lemma pointers_walk {A B} t (view : A → option B) W (osize : B → Z) (size : A → Z) handlesB (handles : A → list Z)
    h1 h2 (g1 g2 : nat → A → A) P1 P2 out (l : list A) a n m c :
  sizeof_StorageType (S := Empty_set) (U := Empty_set) t = 8 →
  (∀ x, size x = match view x with Some y => osize y | None => 0 end) → (∀ x, 0 <= size x) →
  (∀ x, handles x = match view x with Some y => handlesB y | None => [] end) →
  (∀ c x, view (g1 c x) = option_map (h1 c) (view x)) → (∀ c x, view (g2 c x) = option_map (h2 c) (view x)) →
  (∀ c y, osize (h1 c y) = osize y) → (∀ c y, osize (h2 c y) = osize y) →
  shiftable 0 osize P1 → shiftable 0 osize P2 →
  n = Z.of_nat (length l) → 0 < out → out + 8 + 8 * n <= a → a + total size l < 2 ^ 63 →
  a + total size l < out + 2 ^ 32 → load32 m (out + 4) = Ok n → (c + count handles l <= N)%nat →
  (∀ x y, x ∈ l → view x = Some y → 0 < osize y ∧ object_walks W osize handlesB h1 h2 P1 P2 y) →
  each_at (λ i x a m, nullable_at e1 P1 (out + 8 + 8 * i) (view x) a m) size 0 (relabel_list handles g1 c l) a m →
  ∃ m', each_element t out (walk_pointer W) (m, σ c) = Ok (tt, (m', σ (c + count handles l)%nat)) ∧
    touches (union (storage out (8 * n)) (pointed a (total size l))) m m' ∧
    each_at (λ i x a m, nullable_at e2 P2 (out + 8 + 8 * i) (view x) a m) size 0 (relabel_list handles g2 c l) a m'.
Proof.
  intros Ht Hos Hsize Hhs Hv1 Hv2 Hh1 Hh2 HP1 HP2 Hn H0 Ha Hend Hspan Hlen Hc Hobj Hl.
  apply (each_element_walks t out n 8 size handles g1 g2
    (λ i x a m, nullable_at e1 P1 (out + 8 + 8 * i) (view x) a m)
    (λ i x a m, nullable_at e2 P2 (out + 8 + 8 * i) (view x) a m)); try done.
  1,2: intros c' x; rewrite !Hos, ?Hv1, ?Hv2; destruct (view x); [cbn; auto|done].
  1,2: intros i x b m1 m2 Hx Hag; eapply (nullable_agree _ _ osize); [done|exact Hx|];
    eapply agree_on_sub; [exact Hag|]; rewrite Hos; unfold union, slots, range;
    intros y [Hy|Hy]; [left; lia|by right].
  intros i x b m1 c1 Hx Hi Hb1 Hb2 Hc1 HPx.
  assert (storage_at t out i = out + 8 + 8 * i) as ->.
  { unfold storage_at, sizeof_ArrayHeader. by rewrite Ht. }
  rewrite Hv1 in HPx. rewrite Hv2, Hos, Hhs in *. destruct (view x) as [y|] eqn:Hxy; cbn [option_map nullable_at] in *.
  - destruct (Hobj x y Hx Hxy) as [Hpos Hy]. destruct HPx as [Hp HP].
    destruct (object_pointer_walks W osize handlesB h1 h2 P1 P2 y (out + 8 + 8 * i) b m1 c1)
      as (m3 & Hr & Ht3 & Hp3 & Hq3); try done; try lia.
    exists m3. split_and!; [done| |done|done]. eapply touches_mono; [exact Ht3|].
    intros z [Hz|Hz]; [left|by right]. unfold slots, range in *. lia.
  - destruct (Hnull W (out + 8 + 8 * i) m1 (σ c1) HPx) as (m3 & Hr & Ht3 & Hl3).
    exists m3. cbn [length]. rewrite Nat.add_0_r. split_and!; [done| |done].
    eapply touches_mono; [exact Ht3|]. intros z Hz. left. unfold slots, range in *. lia.
Qed.

(** *** Values *)
Definition walks (k : kind) : Prop := ∀ out (l : list (wrapper k)) a m c,
  let n := Z.of_nat (length l) in
  0 < out → out + 8 + data (DataType k) n <= a → a + total (wire_size k) l < 2 ^ 63 →
  a + total (wire_size k) l < out + 2 ^ 32 → load32 m (out + 4) = Ok n →
  (c + count (handles_of k) l <= N)%nat →
  elements_at e1 k out (relabels f1 none1 k c l) a m →
  ∃ m', Array_walk walk_handle walk_pointer WS WU (DataType k) out (m, σ c) =
      Ok (tt, (m', σ (c + count (handles_of k) l)%nat)) ∧
    touches (union (storage out (data (DataType k) n)) (pointed a (total (wire_size k) l))) m m' ∧
    elements_at e2 k out (relabels f2 none2 k c l) a m'.

Lemma array_object_walks k y : kind_ok k → walks k →
  object_walks (Array_walk walk_handle walk_pointer WS WU (DataType k)) (array_wire_size k (wire_size k))
    (flat_map (handles_of k)) (relabels f1 none1 k) (relabels f2 none2 k)
    (array_at k (elements_at e1 k)) (array_at k (elements_at e2 k)) y.
Proof.
  intros Hk Hw c b m Hb Hend Hsmall Hc (Hbytes & Hn & Hl). unfold array_wire_size in *.
  rewrite relabel_list_length in *. pose proof (sizeof_kind k Hk).
  pose proof (data_nonneg (DataType k) (Z.of_nat (length y))) as Hdata.
  pose proof (round8_bounds (8 + data (DataType k) (Z.of_nat (length y)))).
  pose proof (total_ge_0 (wire_size k) y (wire_size_nonneg k Hk)).
  destruct (Hw b y (b + round8 (8 + data (DataType k) (Z.of_nat (length y)))) m c) as (m' & Hr & Ht & Hl');
    [done|lia|lia|lia|done|done|done|].
  assert (∀ p, b <= p → p + 4 <= b + 8 → load32 m' p = load32 m p) as Hheader.
  { intros p Hp Hp'. symmetry. apply load32_agree. eapply touches_agree; [exact Ht|].
    unfold disjoint, union, storage, pointed, range. lia. }
  exists m'. split_and!; [done| |].
  - eapply touches_mono; [exact Ht|]. unfold union, storage, pointed, range. lia.
  - unfold array_at. rewrite relabel_list_length, !Hheader by lia. done.
Qed.

Lemma array_size_relabel f none k c (l : list (wrapper k)) :
  array_wire_size k (wire_size k) (relabels f none k c l) = array_wire_size k (wire_size k) l.
Proof. apply array_wire_size_relabel, wire_size_relabel. Qed.

Lemma array_object_size_pos k (l : list (wrapper k)) : kind_ok k → 8 <= array_wire_size k (wire_size k) l.
Proof.
  intros Hk. unfold array_wire_size. pose proof (sizeof_kind k Hk).
  pose proof (data_nonneg (DataType k) (Z.of_nat (length l))).
  pose proof (round8_bounds (8 + data (DataType k) (Z.of_nat (length l)))).
  pose proof (total_ge_0 (wire_size k) l (wire_size_nonneg k Hk)). lia.
Qed.

Definition relabel_entries f none {K} value : nat → list (K * wrapper value) → list (K * wrapper value) :=
  relabel_list (λ e, handles_of value e.2) (λ c e, (e.1, relabel f none value c e.2)).
Lemma relabel_entries_fst f none {K} value c (l : list (K * wrapper value)) :
  map fst (relabel_entries f none value c l) = map fst l.
Proof. by apply relabel_list_fixed. Qed.
Lemma relabel_entries_snd f none {K} value c (l : list (K * wrapper value)) :
  map snd (relabel_entries f none value c l) = relabels f none value c (map snd l).
Proof. by apply relabel_list_map. Qed.

Lemma map_object_walks less key value y : kind_ok (KMap less key value) → walks key → walks value →
  object_walks (Map_walk walk_pointer (Array_walk walk_handle walk_pointer WS WU (DataType key))
      (Array_walk walk_handle walk_pointer WS WU (DataType value))) (map_object_size key value)
    (flat_map (λ e, handles_of value e.2)) (relabel_entries f1 none1 value) (relabel_entries f2 none2 value)
    (map_object_at e1 key value) (map_object_at e2 key value) y.
Proof.
  intros (Hk & Hv & Hkey & _) Hwk Hwv c b m Hb Hend Hsmall Hc (H1 & H2 & H3 & H4 & H5 & H6).
  assert (plain key) as Hplain by by destruct key.
  assert (length (flat_map (handles_of value) (map snd y)) = length (flat_map (λ e, handles_of value e.2) y)) as Hcount
    by apply count_map.
  rewrite relabel_entries_fst, ?relabel_entries_snd in *. unfold map_object_size, sizeof_Map_Data in *.
  pose proof (array_object_size_pos key (map fst y) Hk). pose proof (array_object_size_pos value (map snd y) Hv).
  set (keys := b + 24) in *. set (vals := keys + array_wire_size key (wire_size key) (map fst y)) in *.
  destruct (object_pointer_walks _ _ _ _ _ _ _ (map fst y) (b + 8) keys m c (array_object_walks key (map fst y) Hk Hwk))
    as (m1 & Hr1 & Ht1 & Hp1 & Hq1); try lia; try done;
    [intros; apply array_size_relabel..|by apply array_object_shifted|by apply array_object_shifted| | |].
  1: change (c + count (handles_of key) (map fst y) <= N)%nat; rewrite plain_count by done; lia.
  1: by rewrite plain_relabels by done.
  change (length (flat_map (handles_of key) (map fst y))) with (count (handles_of key) (map fst y)) in Hr1.
  rewrite plain_count, Nat.add_0_r in Hr1 by done. rewrite plain_relabels in Hq1 by done.
  assert (∀ lo hi, (hi <= b + 8 ∨ b + 16 <= lo ∧ hi <= keys ∨ vals <= lo) → agree_on (range lo hi) m m1) as Hag1.
  { intros lo hi Hr. eapply touches_agree; [exact Ht1|]. unfold disjoint, union, pointed, range. lia. }
  destruct (object_pointer_walks _ _ _ _ _ _ _ (map snd y) (b + 16) vals m1 c
    (array_object_walks value (map snd y) Hv Hwv)) as (m2 & Hr2 & Ht2 & Hp2 & Hq2); try lia; try done;
    [intros; apply array_size_relabel..|by apply array_object_shifted|by apply array_object_shifted| | |].
  { unfold points in *. rewrite <- H5. symmetry. apply load64_agree, Hag1. lia. }
  { eapply (shiftable_agree (array_wire_size value (wire_size value))); [by apply array_object_shifted|exact H6|].
    apply Hag1. lia. }
  assert (∀ lo hi, (hi <= b + 16 ∨ b + 24 <= lo ∧ hi <= vals) → agree_on (range lo hi) m1 m2) as Hag2.
  { intros lo hi Hr. eapply touches_agree; [exact Ht2|]. unfold disjoint, union, pointed, range. lia. }
  exists m2. split_and!.
  - unfold Map_walk, mbind, stateR_bind. rewrite Hr1, Hr2. by rewrite <- Hcount.
  - eapply touches_mono; [by eapply touches_trans|]. unfold union, pointed, range. lia.
  - unfold map_object_at, map_at, sizeof_Map_Data. rewrite relabel_entries_fst, relabel_entries_snd. split_and!; try done.
    + rewrite <- H1. symmetry. apply load32_agree. eapply agree_on_trans; [apply Hag1|apply Hag2]; lia.
    + rewrite <- H2. symmetry. apply load32_agree. eapply agree_on_trans; [apply Hag1|apply Hag2]; lia.
    + etransitivity; [|exact Hp1]. symmetry. apply load64_agree, Hag2. lia.
    + eapply (shiftable_agree (array_wire_size key (wire_size key))); [by apply array_object_shifted|exact Hq1|].
      apply Hag2. lia.
Qed.

Lemma handles_walk : walks KHandle.
Proof.
  intros out l a m c n H0 Ha Hend Hspan Hlen Hc Hl;
    cbn [elements_at DataType data sizeof_StorageType Interface_Data String_Data Array_walk] in *.
  unfold data in *. cbn [wrapper] in *. apply (each_element_walks HandleElem out n 4 (λ _, 0) (handles_of KHandle)
    (relabel f1 none1 KHandle) (relabel f2 none2 KHandle)
    (λ i h a m, load32 m (out + 8 + 4 * i) = Ok h) (λ i h a m, load32 m (out + 8 + 4 * i) = Ok h)); try done.
  - intros i x b m1 m2 Hx Hag. rewrite <- Hx. symmetry. apply load32_agree. eapply agree_on_sub; [exact Hag|].
    unfold union, slots, range. lia.
  - intros i x b m1 m2 Hx Hag. rewrite <- Hx. symmetry. apply load32_agree. eapply agree_on_sub; [exact Hag|].
    unfold union, slots, range. lia.
  - intros i x b m1 c1 Hx Hi Hb1 Hb2 Hc1 Hh. destruct (Hhandle (out + 8 + 4 * i) m1 c1 x Hc1 Hh) as (m2 & Hr & Ht & Hl2).
    exists m2. split_and!; [exact Hr| |exact Hl2]. eapply touches_mono; [exact Ht|].
    unfold union, slots, range. lia.
Qed.

Lemma strings_walk : walks KString.
Proof.
  intros out l a m c n H0 Ha Hend Hspan Hlen Hc Hl;
    cbn [elements_at DataType data sizeof_StorageType Interface_Data String_Data Array_walk] in *.
  apply (pointers_walk (ArrayPtr String_Data) (λ s : wrapper KString, s) (λ _, mret ())
    (λ s, round8 (8 + Z.of_nat (length s))) (wire_size KString) (λ _, []) (handles_of KString)
    (λ _ s, s) (λ _ s, s) (relabel f1 none1 KString) (relabel f2 none2 KString)
    (array_at (KPod 1) (pods_at 1)) (array_at (KPod 1) (pods_at 1))); try done.
  all: try (by intros [x|]); try (by intros ? [x|]).
  - by apply (wire_size_nonneg KString).
  - by apply (string_at_shifted e1).
  - by apply (string_at_shifted e1).
  - intros x y _ _. pose proof (round8_bounds (8 + Z.of_nat (length y))). split; [lia|].
    intros c1 b m1 _ _ _ _ Hs. exists m1. rewrite Nat.add_0_r. split_and!; [done|apply touches_refl|done].
Qed.

Lemma walks_all k : kind_ok k → walks k.
Proof.
  induction k as [size| | | | |k IH|less key IHk value IHv]; intros Hk out l a m c n H0 Ha Hend Hspan Hlen Hc Hl;
    cbn [elements_at DataType data sizeof_StorageType Interface_Data String_Data Array_walk] in *.
  1,2,4: exists m; rewrite plain_count, Nat.add_0_r, plain_relabels in * by done;
    split_and!; [done|apply touches_refl|done].
  - by apply handles_walk.
  - by apply strings_walk.
  - apply (pointers_walk (ArrayPtr (DataType k)) (λ x : wrapper (KArray k), x) _ (array_wire_size k (wire_size k))
      (wire_size (KArray k)) (flat_map (handles_of k)) (handles_of (KArray k))
      (relabels f1 none1 k) (relabels f2 none2 k) (relabel f1 none1 (KArray k)) (relabel f2 none2 (KArray k))
      (array_at k (elements_at e1 k)) (array_at k (elements_at e2 k))); try done.
    all: try (by intros [x|]); try (by intros ? [x|]).
    + by apply (wire_size_nonneg (KArray k)).
    + intros c1 x. apply array_size_relabel.
    + intros c1 x. apply array_size_relabel.
    + by apply array_object_shifted.
    + by apply array_object_shifted.
    + intros x y _ _. pose proof (array_object_size_pos k y Hk). split; [lia|]. apply array_object_walks; [done|exact (IH Hk)].
  - pose proof Hk as (Hkk & Hkv & _).
    apply (pointers_walk (MapPtr (DataType key) (DataType value)) entries _ (map_object_size key value)
      (wire_size (KMap less key value)) (flat_map (λ e, handles_of value e.2)) (handles_of (KMap less key value))
      (relabel_entries f1 none1 value) (relabel_entries f2 none2 value)
      (relabel f1 none1 (KMap less key value)) (relabel f2 none2 (KMap less key value))
      (map_object_at e1 key value) (map_object_at e2 key value)); try done.
    all: try (by intros [x [|]]); try (by intros ? [x [|]]).
    + by apply (wire_size_nonneg (KMap less key value)).
    + intros c1 x. apply map_size_relabel.
    + intros c1 x. apply map_size_relabel.
    + by apply (map_object_shifted e1 0 ltac:(done) less).
    + by apply (map_object_shifted e2 0 ltac:(done) less).
    + intros x y _ _. pose proof (array_object_size_pos key (map fst y) Hkk).
      pose proof (array_object_size_pos value (map snd y) Hkv). split; [unfold map_object_size, sizeof_Map_Data; lia|].
      apply (map_object_walks less); [done|exact (IHk Hkk)|exact (IHv Hkv)].
Qed.
End walks.
