(* ===== verification/CppTravel.v ===== *)
(** * Encoding and decoding of C++ values

    The two walks: encoding turns pointers into distances and handles into positions in
    the vector that is sent; decoding turns the distances into pointers at wherever the
    bytes are now, and the positions into what was received. *)
From stdpp Require Import base list numbers option gmap sorting.
From S2P Require Import Prelude Memory TypeDescriptor Validate Sample Codec Buffer CppBindings CppAgrees CppArray CppArrayAgrees CppMap CppSerialize CppSerializeSteps CppLayout CppDeserialize CppWalk.

(** The label of the [i]th handle. *)
Definition nth_handle (handles : list Z) (i : nat) : Z := default 0 (handles !! i).
Lemma nth_handle_lookup handles i x : handles !! i = Some x → nth_handle handles i = x.
Proof. unfold nth_handle. by intros ->. Qed.

Lemma store32_at m slot x v : load32 m slot = Ok x → 0 <= v < 2 ^ 32 →
  ∃ m', store32 m slot v = Ok m' ∧ touches (range slot (slot + 4)) m m' ∧ load32 m' slot = Ok v.
Proof.
  intros Hx Hv. destruct (store_touches 4 m slot v) as (m' & Hs & Ht & Hl); [by apply load32_mapped in Hx|].
  exists m'. rewrite Z.mod_small in Hl by lia. done.
Qed.
Lemma store64_at m slot x v : load64 m slot = Ok x → 0 <= v < 2 ^ 64 →
  ∃ m', store64 m slot v = Ok m' ∧ touches (range slot (slot + 8)) m m' ∧ load64 m' slot = Ok v.
Proof.
  intros Hx Hv. destruct (store_touches 8 m slot v) as (m' & Hs & Ht & Hl); [by apply load64_mapped in Hx|].
  exists m'. rewrite Z.mod_small in Hl by lia. done.
Qed.

(** ** Encoding *)
Section encode.
Context (debug : bool) (sent : list Z) (Hsent : Forall (λ h, h ≠ MOJO_HANDLE_INVALID) sent).
Context (Hfew : Z.of_nat (length sent) < 2 ^ 32).

Lemma encode_handle_walks : handle_walks EncodeHandle (λ c, take c sent) (length sent)
  (nth_handle sent) Z.of_nat MOJO_HANDLE_INVALID kEncodedInvalidHandleValue.
Proof.
  intros slot m c h Hc Hl. cbn [handles_of relabel] in *. unfold EncodeHandle, mbind, stateR_bind.
  rewrite read_eq, Hl. destruct (h =? MOJO_HANDLE_INVALID) eqn:Hh; cbn [length] in *.
  - destruct (store32_at m slot _ kEncodedInvalidHandleValue Hl) as (m' & Hs & Ht & Hl'); [done|].
    exists m'. rewrite Z.eqb_refl. cbn [negb]. rewrite write_eq, Hs, Nat.add_0_r. done.
  - destruct (lookup_lt_is_Some_2 sent c) as [x Hx]; [lia|]. rewrite (nth_handle_lookup _ _ _ Hx) in *.
    rewrite Forall_lookup in Hsent. pose proof (Hsent c x Hx) as Hne.
    replace (x =? MOJO_HANDLE_INVALID) with false by (symmetry; by apply Z.eqb_neq).
    destruct (store32_at m slot _ (Z.of_nat c) Hl) as (m' & Hs & Ht & Hl'); [lia|].
    exists m'. cbn [negb get_state put_state fst snd]. rewrite length_app, length_take_le, write_eq by lia. cbn [length].
    rewrite u32_small by lia. replace (Z.of_nat (c + 1) - 1) with (Z.of_nat c) by lia. rewrite Hs.
    rewrite Nat.add_1_r. by rewrite (take_S_r _ _ _ Hx).
Qed.

Lemma encode_null_walks : null_walks (Encode debug).
Proof.
  intros W slot m s Hl. unfold Encode, EncodePointer, mbind, stateR_bind. rewrite read_eq, Hl. cbn.
  destruct (store64_at m slot 0 0 Hl) as (m' & Hs & Ht & Hl'); [done|]. exists m'. rewrite read_eq, Hl. cbn. by rewrite write_eq, Hs.
Qed.

Lemma encode_pointer_walks : pointer_walks (Encode debug) false true.
Proof.
  intros W slot p m s s' F Post H0 Hp Hend Hspan Hpt Hdis HW Hpost.
  destruct (HW m) as (m2 & Hr & Ht & HP); [apply touches_refl|]. unfold points in *.
  assert (load64 m2 slot = Ok p) as Hl2.
  { rewrite <- Hpt. symmetry. apply load64_agree. by eapply touches_agree. }
  destruct (store64_at m2 slot p (p - slot) Hl2) as (m3 & Hs & Ht3 & Hl3); [lia|].
  exists m3. unfold Encode, EncodePointer, mbind, stateR_bind. rewrite read_eq, Hpt.
  replace (p =? 0) with false by lia. cbn [negb]. rewrite Hr, read_eq, Hl2. replace (p =? 0) with false by lia.
  replace (slot <? p) with true by lia. rewrite u64_small by lia. split_and!; [| |done|].
  - destruct debug; cbn; by rewrite write_eq, Hs.
  - eapply touches_mono; [by eapply touches_trans|]. unfold union. tauto.
  - eapply Hpost; [exact HP|]. eapply touches_agree; [exact Ht3|]. intros x Hx Hy. by apply (Hdis x).
Qed.
End encode.

(** ** Decoding *)
Section decode.
Context (debug : bool) (received : list Z) (Hvalid : Forall (λ h, 0 <= h < 2 ^ 32) received).
Context (Hfew : Z.of_nat (length received) < 2 ^ 32 - 1).

Lemma decode_handle_walks : handle_walks (DecodeHandle debug)
  (λ c, replicate c MOJO_HANDLE_INVALID ++ drop c received) (length received)
  Z.of_nat (nth_handle received) kEncodedInvalidHandleValue MOJO_HANDLE_INVALID.
Proof.
  intros slot m c h Hc Hl. cbn [handles_of relabel] in *. unfold DecodeHandle, mbind, stateR_bind.
  rewrite read_eq, Hl. destruct (h =? MOJO_HANDLE_INVALID) eqn:Hh; cbn [length] in *.
  - destruct (store32_at m slot _ MOJO_HANDLE_INVALID Hl) as (m' & Hs & Ht & Hl'); [done|].
    exists m'. rewrite Z.eqb_refl, write_eq, Hs, Nat.add_0_r. done.
  - destruct (lookup_lt_is_Some_2 received c) as [x Hx]; [lia|].
    assert (0 <= x < 2 ^ 32) as Hr by (rewrite Forall_lookup in Hvalid; by apply (Hvalid c)).
    destruct (store32_at m slot _ x Hl) as (m' & Hs & Ht & Hl'); [done|].
    exists m'. unfold kEncodedInvalidHandleValue, u32 in *. change ((-1) mod 2 ^ 32) with (2 ^ 32 - 1).
    replace (Z.of_nat c =? 2 ^ 32 - 1) with false by lia. cbn [get_state put_state fst snd].
    rewrite length_app, length_replicate, length_drop, Nat2Z.id. unfold MOJO_DCHECK, MOJO_CHECK.
    replace (Z.of_nat c <? _) with true by lia. rewrite (nth_handle_lookup _ _ _ Hx).
    rewrite (drop_S received x c Hx). rewrite lookup_app_r, length_replicate, Nat.sub_diag by by rewrite length_replicate.
    assert (<[c := MOJO_HANDLE_INVALID]> (replicate c MOJO_HANDLE_INVALID ++ x :: drop (S c) received) =
      replicate (c + 1) MOJO_HANDLE_INVALID ++ drop (c + 1) received) as Hins.
    { rewrite insert_app_r_alt, length_replicate, Nat.sub_diag by by rewrite length_replicate. cbn.
      rewrite Nat.add_1_r, replicate_S_end, <- app_assoc. done. }
    cbn [lookup list_lookup]. rewrite Hins. destruct debug; cbn; by rewrite write_eq, Hs.
Qed.

Lemma decode_null_walks : null_walks Decode.
Proof.
  intros W slot m s Hl. unfold Decode, DecodePointer, DecodePointerRaw, mbind, stateR_bind. rewrite read_eq, Hl.
  destruct (store64_at m slot 0 0 Hl) as (m' & Hs & Ht & Hl'); [done|]. exists m'. cbn. rewrite write_eq, Hs, read_eq, Hl'.
  done.
Qed.

Lemma decode_pointer_walks : pointer_walks Decode true false.
Proof.
  intros W slot p m s s' F Post H0 Hp Hend Hspan Hpt Hdis HW Hpost. unfold points in *.
  destruct (store64_at m slot (p - slot) p Hpt) as (m1 & Hs & Ht1 & Hl1); [lia|].
  destruct (HW m1 Ht1) as (m2 & Hr & Ht & HP). exists m2.
  unfold Decode, DecodePointer, DecodePointerRaw, mbind, stateR_bind. rewrite read_eq, Hpt.
  replace (p - slot =? 0) with false by lia. rewrite u64_small by lia. replace (slot + (p - slot)) with p by lia.
  cbn [mret stateR_ret]. rewrite write_eq, Hs, read_eq, Hl1. replace (p =? 0) with false by lia. cbn [negb].
  rewrite Hr. split_and!; [done| | |done].
  - by eapply touches_trans.
  - rewrite <- Hl1. symmetry. apply load64_agree. by eapply touches_agree.
Qed.
End decode.

(** ** The handles of a value *)
Lemma list_handles_nonzero {A} (handles : A → list Z) l :
  (∀ x, Forall (λ h, h ≠ MOJO_HANDLE_INVALID) (handles x)) → Forall (λ h, h ≠ MOJO_HANDLE_INVALID) (flat_map handles l).
Proof. intros Hh. induction l as [|x l IH]; [done|]. cbn [flat_map]. by apply Forall_app. Qed.

Lemma handles_nonzero k w : Forall (λ h, h ≠ MOJO_HANDLE_INVALID) (handles_of k w).
Proof.
  induction k as [| | | | |k IH|less key _ value IH]; try done; cbn [handles_of].
  - destruct (w =? MOJO_HANDLE_INVALID) eqn:Hw; [done|]. constructor; [by apply Z.eqb_neq|done].
  - destruct w as [l|]; [|done]. by apply list_handles_nonzero.
  - destruct (entries w) as [l|]; [|done]. by apply list_handles_nonzero.
Qed.

(** A value with its own handles put in is the value. *)
Definition labels (all handles : list Z) (c : nat) : Prop := ∀ j h, handles !! j = Some h → all !! (c + j)%nat = Some h.

Lemma labels_app all h1 h2 c : labels all (h1 ++ h2) c → labels all h1 c ∧ labels all h2 (c + length h1).
Proof.
  intros H. split; intros j h Hj.
  - apply H. by apply lookup_app_l_Some.
  - rewrite <- Nat.add_assoc. apply H. rewrite lookup_app_r by lia. by replace (length h1 + j - length h1)%nat with j by lia.
Qed.

Lemma relabel_list_own {A} all (handles : A → list Z) (g : nat → A → A) l : ∀ c,
  (∀ c x, labels all (handles x) c → g c x = x) → labels all (flat_map handles l) c → relabel_list handles g c l = l.
Proof.
  induction l as [|x l IH]; intros c Hg Hl; [done|]. cbn [flat_map relabel_list] in *.
  apply labels_app in Hl as [Hx Hl]. rewrite Hg by done. by rewrite IH.
Qed.

Lemma relabel_own all k : ∀ c w, labels all (handles_of k w) c → relabel (nth_handle all) MOJO_HANDLE_INVALID k c w = w.
Proof.
  induction k as [| | | | |k IH|less key _ value IH]; intros c w Hw; try done; cbn [handles_of relabel] in *.
  - destruct (w =? MOJO_HANDLE_INVALID) eqn:E; [by apply Z.eqb_eq in E|].
    apply nth_handle_lookup. rewrite <- (Nat.add_0_r c). by apply Hw.
  - destruct w as [l|]; [|done]. cbn [option_map]. f_equal. by apply (relabel_list_own all).
  - destruct w as [l [|]]; [done|]. cbn in *. f_equal. apply (relabel_list_own all); [|done].
    intros c' [key_ v] Hv. cbn in *. by rewrite IH.
Qed.

Lemma relabels_own k (l : list (wrapper k)) :
  relabels (nth_handle (flat_map (handles_of k) l)) MOJO_HANDLE_INVALID k 0 l = l.
Proof. apply (relabel_list_own (flat_map (handles_of k) l)); [apply relabel_own|intros j h Hj; exact Hj]. Qed.

(** Each handle takes four bytes. *)
Lemma list_count {A} (handles : A → list Z) (size : A → Z) s l :
  (∀ x, 4 * Z.of_nat (length (handles x)) <= size x + s) → 4 * Z.of_nat (count handles l) <= total size l + s * Z.of_nat (length l).
Proof.
  intros Hx. induction l as [|x l IH]; [cbn; lia|]. rewrite count_cons, total_cons. cbn [length]. specialize (Hx x). lia.
Qed.

Definition in_slot (k : kind) : Z := match k with KHandle => 4 | _ => 0 end.
Lemma array_handles_count k (l : list (wrapper k)) : kind_ok k →
  (∀ w, 4 * Z.of_nat (length (handles_of k w)) <= wire_size k w + in_slot k) →
  4 * Z.of_nat (count (handles_of k) l) <= array_wire_size k (wire_size k) l.
Proof.
  intros Hk Hw. unfold array_wire_size. pose proof (list_count (handles_of k) (wire_size k) _ l Hw).
  pose proof (round8_bounds (8 + data (DataType k) (Z.of_nat (length l)))).
  pose proof (data_nonneg (DataType k) (Z.of_nat (length l))). pose proof (sizeof_kind k Hk).
  destruct k; cbn [DataType data sizeof_StorageType in_slot] in *; lia.
Qed.

Lemma handles_count k : kind_ok k → ∀ w, 4 * Z.of_nat (length (handles_of k w)) <= wire_size k w + in_slot k.
Proof.
  induction k as [| | | | |k IH|less key _ value IH]; intros Hk w; cbn [handles_of]; try (cbn; lia).
  - destruct (w =? _); cbn; lia.
  - pose proof (wire_size_nonneg KString Hk w). cbn [length in_slot]. lia.
  - destruct w as [l|]; [|done]. cbn [wire_size in_slot]. rewrite Z.add_0_r. by apply array_handles_count; [|apply IH].
  - destruct w as [l [|]]; [done|]. destruct Hk as (Hkk & Hkv & _). cbn [wire_size entries is_null_ map_ in_slot].
    unfold map_wire_size, sizeof_Map_Data. cbn [is_null_ map_].
    pose proof (array_handles_count value (map snd l) Hkv (IH Hkv)) as Hc. rewrite count_map in Hc. unfold count in Hc.
    destruct (array_wire_size_ok key (wire_size key) (map fst l) Hkk) as [Hks _]; [by apply wire_size_ok|].
    etransitivity; [exact Hc|]. lia.
Qed.

(** The maps stay in order. *)
Lemma relabel_list_Forall {A} (P : A → Prop) (handles : A → list Z) g l : ∀ c, (∀ c x, P x → P (g c x)) →
  Forall P l → Forall P (relabel_list handles g c l).
Proof. induction l as [|x l IH]; intros c Hg Hl; [done|]. apply Forall_cons in Hl as [Hx Hl]. constructor; auto. Qed.

Lemma relabel_entries_sorted {K} (P : K → Prop) less f none value c (l : list (K * wrapper value)) :
  entries_ok P less l → entries_ok P less (relabel_entries f none value c l).
Proof.
  revert c. induction l as [|e l IH]; intros c; [done|]. cbn [relabel_entries relabel_list].
  rewrite !entries_ok_cons. intros (He & Hlt & Hl). split_and!; [done| |by apply IH]. cbn [fst].
  apply (Forall_map fst (λ k, less e.1 k = true)). rewrite relabel_entries_fst. by apply Forall_map.
Qed.

Lemma relabel_ordered f none k : ∀ c w, ordered k w → ordered k (relabel f none k c w).
Proof.
  induction k as [| | | | |k IH|less key _ value IH]; intros c w Hw; try done; cbn [relabel ordered] in *.
  - destruct w as [l|]; [|done]. by apply relabel_list_Forall.
  - destruct w as [l [|]]; [done|]. destruct Hw as (_ & He & Hv). cbn [entries is_null_ map_] in *. split_and!; [done| |].
    + by apply relabel_entries_sorted.
    + apply relabel_list_Forall; [|done]. intros c' x Hx. by apply IH.
Qed.
