(* ===== verification/CppAccepts.v ===== *)
(** * Validation accepts encoded C++ values

    [accepts]: a validating step finds nothing wrong with an object, and moves the two
    cursors of the bounds checker no further than past it and its handles.  The layout
    of a value that may be sent is accepted, wherever its bytes are. *)
From stdpp Require Import base list numbers option gmap sorting.
From S2P Require Import Prelude Memory TypeDescriptor Validate Sample Codec Buffer CppBindings CppAgrees CppArray CppArrayAgrees CppMap CppSerialize CppSerializeSteps CppLayout CppWalk CppTravel.

Abbreviation CM := (stateR BoundsChecker).
Abbreviation labelled k := (relabels Z.of_nat kEncodedInvalidHandleValue k).
Abbreviation elements_at := (elements_at true).

Fixpoint no_interfaces (k : kind) : Prop :=
  match k with
  | KInterface => False
  | KArray k => no_interfaces k
  | KMap _ key value => no_interfaces value
  | _ => True
  end.

(** The checker [ck] has claimed nothing from [a] on, of a message that ends at [e],
    and no handle from the [c]th on, of [N]. *)
Record free (e : Z) (N : nat) (ck : BoundsChecker) (a : Z) (c : nat) : Prop := {
  free_begin : data_begin_ ck <= a;
  free_end : data_end_ ck = e;
  free_handles : handle_begin_ ck <= Z.of_nat c;
  free_handle_end : handle_end_ ck = Z.of_nat N;
}.

Section accepts.
Context (e : Z) (N : nat) (He : e < 2 ^ 64) (HN : Z.of_nat N < 2 ^ 32 - 1).

Definition accepts (V : CM ValidationError) (a : Z) (c : nat) (a' : Z) (c' : nat) : Prop := ∀ ck,
  free e N ck a c → ∃ ck', V ck = Ok (NONE, ck') ∧ free e N ck' a' c'.

Lemma free_mono ck a c a' c' : free e N ck a c → a <= a' → (c <= c')%nat → free e N ck a' c'.
Proof. intros [] ? ?. split; lia. Qed.

Lemma accepts_ret a c : accepts (mret NONE) a c a c.
Proof. intros ck Hck. by exists ck. Qed.

Lemma accepts_mono V a c a1 c1 a2 c2 : accepts V a c a1 c1 → a1 <= a2 → (c1 <= c2)%nat → accepts V a c a2 c2.
Proof. intros HV Ha Hc ck Hck. destruct (HV ck Hck) as (ck' & Hr & Hck'). exists ck'. split; [done|by eapply free_mono]. Qed.

(** [retval = V; if (retval != NONE) return retval; K] *)
Lemma accepts_seq V (K : ValidationError → CM ValidationError) a c a1 c1 a2 c2 :
  accepts V a c a1 c1 → accepts (K NONE) a1 c1 a2 c2 → accepts (r ← V; K r) a c a2 c2.
Proof.
  intros HV HK ck Hck. destruct (HV ck Hck) as (ck1 & Hr & Hck1). destruct (HK ck1 Hck1) as (ck2 & Hr2 & Hck2).
  exists ck2. unfold mbind, stateR_bind. by rewrite Hr.
Qed.

Lemma accepts_lift {A} (r : result A) x (K : A → CM ValidationError) a c a' c' :
  r = Ok x → accepts (K x) a c a' c' → accepts (y ← lift r; K y) a c a' c'.
Proof. intros -> HK ck Hck. destruct (HK ck Hck) as (ck' & Hr & ?). by exists ck'. Qed.

Lemma accepts_dcheck debug b K a c a' c' : b = true → accepts K a c a' c' → accepts (MOJO_DCHECK debug b;; K) a c a' c'.
Proof. intros -> HK ck Hck. destruct (HK ck Hck) as (ck' & Hr & ?). exists ck'. by destruct debug. Qed.

Lemma accepts_range a0 n K a c a' c' : a <= a0 → 0 < n → a0 + n <= e → 0 <= a0 →
  accepts (K true) a c a' c' → accepts (v ← IsValidRange a0 n; K v) a c a' c'.
Proof.
  intros H1 H2 H3 H4 HK ck Hck. destruct (HK ck Hck) as (ck' & Hr & ?). exists ck'.
  unfold IsValidRange, InternalIsValidRange, mbind, stateR_bind, get_state. cbn.
  rewrite u64_small by lia. destruct Hck as [Hb Hend _ _].
  replace (a0 <? a0 + n) with true by lia. replace (data_begin_ ck <=? a0) with true by lia.
  replace (a0 + n <=? data_end_ ck) with true by lia. done.
Qed.

Lemma accepts_claim a0 n K a c a' c' : a <= a0 → 0 < n → a0 + n <= e → 0 <= a0 →
  accepts (K true) (a0 + n) c a' c' → accepts (v ← ClaimMemory a0 n; K v) a c a' c'.
Proof.
  intros H1 H2 H3 H4 HK ck [Hb Hend Hh Hhe].
  destruct (HK (mkBoundsChecker (a0 + n) (data_end_ ck) (handle_begin_ ck) (handle_end_ ck))) as (ck' & Hr & ?);
    [split; cbn; lia|]. exists ck'. split; [|done].
  unfold ClaimMemory, InternalIsValidRange, mbind, stateR_bind, get_state, put_state. cbn. rewrite u64_small by lia.
  replace (a0 <? a0 + n) with true by lia. replace (data_begin_ ck <=? a0) with true by lia.
  by replace (a0 + n <=? data_end_ ck) with true by lia.
Qed.

Lemma accepts_handle h c K a a' c' : (c + length (handles_of KHandle h) <= N)%nat →
  accepts (K true) a (c + length (handles_of KHandle h)) a' c' →
  accepts (v ← ClaimHandle (relabel Z.of_nat kEncodedInvalidHandleValue KHandle c h); K v) a c a' c'.
Proof.
  cbn [relabel handles_of]. unfold ClaimHandle, mbind, stateR_bind, get_state, put_state.
  intros Hc HK ck Hck. destruct (h =? MOJO_HANDLE_INVALID) eqn:Hh; cbn [length] in *.
  - rewrite Nat.add_0_r in HK. destruct (HK ck Hck) as (ck' & Hr & ?). exists ck'. by rewrite Z.eqb_refl.
  - change kEncodedInvalidHandleValue with (2 ^ 32 - 1). replace (Z.of_nat c =? 2 ^ 32 - 1) with false by lia.
    destruct Hck as [Hb Hend Hhb Hhe]. replace (Z.of_nat c <? handle_begin_ ck) with false by lia.
    replace (handle_end_ ck <=? Z.of_nat c) with false by lia. cbn [orb]. rewrite u32_small by lia.
    destruct (HK (mkBoundsChecker (data_begin_ ck) (data_end_ ck) (Z.of_nat c + 1) (handle_end_ ck)))
      as (ck' & Hr & ?); [split; cbn; lia|]. by exists ck'.
Qed.

(** *** Elements *)
Lemma validate_elements_accepts {A} (P : Z → A → Z → mem → Prop) (size : A → Z) (handles : A → list Z)
    (g : nat → A → A) (body : Z → CM ValidationError) m top l : (∀ x, 0 <= size x) → (∀ c x, size (g c x) = size x) →
  ∀ i a c, (c + count handles l <= N)%nat → a + total size l <= top →
  (∀ (j : nat) x b c, l !! j = Some x → a <= b → b mod 8 = a mod 8 → b + size x <= top → (c + length (handles x) <= N)%nat →
    P (i + Z.of_nat j) (g c x) b m → accepts (body (i + Z.of_nat j)) b c (b + size x) (c + length (handles x))) →
  (∀ x, size x mod 8 = 0) →
  each_at P size i (relabel_list handles g c l) a m →
  accepts (validate_elements (seqZ i (Z.of_nat (length l))) body) a c (a + total size l) (c + count handles l).
Proof.
  intros Hsize Hg. induction l as [|x l IH]; intros i a c Hc Ha Hstep Hal Hl.
  { cbn. rewrite Z.add_0_r, Nat.add_0_r. apply accepts_ret. }
  rewrite count_cons, total_cons in *. cbn [relabel_list each_at] in Hl. destruct Hl as [Hx Hl]. rewrite Hg in Hl.
  pose proof (total_ge_0 size l Hsize). pose proof (Hsize x).
  cbn [length]. rewrite seqZ_cons by lia. replace (Z.pred _) with (Z.of_nat (length l)) by lia. cbn [validate_elements].
  rewrite Z.add_assoc, Nat.add_assoc. eapply accepts_seq.
  - rewrite <- (Z.add_0_r i). change 0 with (Z.of_nat 0). apply Hstep; [done|lia|done|lia|lia|].
    by rewrite Z.add_0_r.
  - rewrite bool_decide_true by done. cbn [negb]. replace (Z.succ i) with (i + 1) by lia. apply IH; [lia|lia| |done|done].
    intros j y b c' Hj Hb Hb8 Hbe Hc' Hy. replace (i + 1 + Z.of_nat j) with (i + Z.of_nat (S j)) in * by lia.
    apply Hstep; [done|lia| |done|done|done]. rewrite Hb8, Z.add_mod, Hal, Z.add_0_r by lia. by apply Z.mod_mod.
Qed.

(** *** Objects *)
Section objects.
Context (debug : bool) (m : mem).
Context (SV : Empty_set → Z → CM ValidationError) (UV : Empty_set → Z → bool → CM ValidationError).
Context (Unull : Empty_set → Z → result bool).

Abbreviation validate_array := (Array_Validate debug m SV UV Unull).

Lemma slot_accepts {B} (P : B → Z → mem → Prop) (osize : B → Z) (handles : B → list Z) nullable Run slot (h : nat → B → B) y b c :
  nullable_at true P slot (option_map (h c) y) b m → (y = None → nullable = true) →
  0 < slot → slot + 8 <= b → b < slot + 2 ^ 32 → b < 2 ^ 64 → accepts (Run 0) b c b c →
  (∀ y', y = Some y' → P (h c y') b m → accepts (Run b) b c (b + osize y') (c + length (handles y'))) →
  accepts (validate_pointer_element m nullable Run slot) b c
    (b + match y with Some y => osize y | None => 0 end)
    (c + length (match y with Some y => handles y | None => [] end)).
Proof.
  intros Hx Hnull H0 Hb Hspan Hmax Hzero Hsome. unfold validate_pointer_element, ValidateEncodedPointer, decode_raw.
  destruct y as [y|]; cbn [nullable_at option_map] in Hx.
  - destruct Hx as [Hp HP]. unfold points in Hp. unfold DecodePointerRaw, mbind, stateR_bind, result_bind.
    rewrite read_eq, Hp. intros ck Hck. cbn [lift]. replace (b - slot =? 0) with false by lia.
    rewrite andb_false_r. cbn [lift]. unfold UINT32_MAX.
    replace (b - slot <=? 4294967295) with true by lia. rewrite u32_small, u64_small by lia.
    replace (slot + (b - slot)) with b by lia. replace (slot <=? b) with true by lia. cbn. by apply (Hsome y).
  - rewrite (Hnull eq_refl) in *. unfold DecodePointerRaw, mbind, stateR_bind, result_bind. rewrite read_eq, Hx. intros ck Hck. cbn.
    rewrite !Z.add_0_r, Nat.add_0_r, u64_small, Z.leb_refl by lia. by apply Hzero.
Qed.

Lemma slots_accept {A B} t (view : A → option B) Run (osize : B → Z) (size : A → Z) (handlesB : B → list Z)
    (handles : A → list Z) h g P out nullable (l : list A) a c :
  sizeof_StorageType (S := Empty_set) (U := Empty_set) t = 8 →
  (∀ x, size x = match view x with Some y => osize y | None => 0 end) → (∀ x, 0 <= size x ∧ size x mod 8 = 0) →
  (∀ x, handles x = match view x with Some y => handlesB y | None => [] end) →
  (∀ c x, view (g c x) = option_map (h c) (view x)) → (∀ c y, osize (h c y) = osize y) →
  0 < out → out + 8 + 8 * Z.of_nat (length l) <= a → a mod 8 = 0 → a + total size l <= e →
  a + total size l < out + 2 ^ 32 → (c + count handles l <= N)%nat →
  (∀ a c, accepts (Run 0) a c a c) → (∀ x, x ∈ l → view x = None → nullable = true) →
  (∀ x y b c, x ∈ l → view x = Some y → 0 < b → b mod 8 = 0 → b + osize y <= e → osize y < 2 ^ 32 →
    (c + length (handlesB y) <= N)%nat → P (h c y) b m → accepts (Run b) b c (b + osize y) (c + length (handlesB y))) →
  each_at (λ i x a m, nullable_at true P (out + 8 + 8 * i) (view x) a m) size 0 (relabel_list handles g c l) a m →
  accepts (validate_elements (seqZ 0 (Z.of_nat (length l))) (λ i,
    validate_pointer_element m nullable Run (storage_at t out i))) a c (a + total size l) (c + count handles l).
Proof.
  intros Ht Hos Hsize Hhs Hv Hh H0 Ha Ha8 Hend Hspan Hc Hzero Hnull Hobj Hl.
  eapply (validate_elements_accepts (λ i x a m, nullable_at true P (out + 8 + 8 * i) (view x) a m) size handles g _ m (a + total size l));
    [apply Hsize| |done|done| |apply Hsize|exact Hl].
  { intros c' x. rewrite !Hos, Hv. destruct (view x); cbn; auto. }
  intros j x b c' Hj Hb Hb8 Hbe Hc' Hx. destruct (Hsize x) as [Hs0 _]. rewrite Hv in Hx. rewrite Hos, Hhs in *.
  assert (storage_at t out (0 + Z.of_nat j) = out + 8 + 8 * (0 + Z.of_nat j)) as ->.
  { unfold storage_at, sizeof_ArrayHeader. by rewrite Ht. }
  pose proof (lookup_lt_Some _ _ _ Hj). pose proof (list_elem_of_lookup_2 _ _ _ Hj) as Hin.
  eapply slot_accepts; [exact Hx|by apply (Hnull x)|lia|lia|lia|lia|done|].
  intros y Hy HP. rewrite Hy in *. by eapply Hobj; try done; lia.
Qed.

(** An array: header, then elements. *)
Lemma header_accepts k vp (l : list (wrapper k)) b c : kind_ok k →
  expected_num_elements vp = 0 ∨ Z.of_nat (length l) = expected_num_elements vp →
  few_bools (DataType k) (Z.of_nat (length l)) → 0 < b → b mod 8 = 0 →
  8 + data (DataType k) (Z.of_nat (length l)) < 2 ^ 32 → b + (8 + data (DataType k) (Z.of_nat (length l))) <= e →
  load32 m b = Ok (8 + data (DataType k) (Z.of_nat (length l))) → load32 m (b + 4) = Ok (Z.of_nat (length l)) →
  accepts (validate_header debug m (S := Empty_set) (U := Empty_set) (DataType k) b (Some vp)) b c
    (b + (8 + data (DataType k) (Z.of_nat (length l)))) c.
Proof.
  intros Hk Hexp Hfew Hb Hb8 Hsmall Hend Hbytes Hnum. unfold validate_header.
  pose proof (sizeof_kind k Hk). pose proof (data_nonneg (DataType k) (Z.of_nat (length l))).
  destruct (GetStorageSize_data debug (DataType k) (Z.of_nat (length l))) as [Hmax Hsize]; [done|lia|lia|done|].
  unfold IsAligned, kAlignment, sizeof_ArrayHeader. rewrite Hb8. cbn [Z.eqb negb].
  apply accepts_range; [lia|lia|lia|lia|]. cbn [negb].
  eapply accepts_lift; [exact Hnum|]. eapply accepts_lift; [exact Hbytes|].
  intros ck Hck. unfold mbind, stateR_bind. rewrite Hmax. rewrite Hsize. cbn [lift]. rewrite Z.ltb_irrefl. cbn.
  assert (negb (expected_num_elements vp =? 0) && negb (Z.of_nat (length l) =? expected_num_elements vp) = false) as ->
    by (destruct Hexp as [->| ->]; [done|by rewrite Z.eqb_refl, andb_false_r]).
  apply (accepts_claim b (8 + data (DataType k) (Z.of_nat (length l))) (λ claimed : bool,
    if negb claimed then mret ILLEGAL_MEMORY_RANGE else mret NONE) b c); try lia; [|done]. apply accepts_ret.
Qed.

Definition array_accepted (k : kind) : Prop := ∀ vp (l : list (wrapper k)) b c,
  array_ok k (elements_ok k) vp l → 0 < b → b mod 8 = 0 →
  b + array_wire_size k (wire_size k) l <= e → array_wire_size k (wire_size k) l < 2 ^ 32 →
  (c + count (handles_of k) l <= N)%nat → array_at k (elements_at k) (labelled k c l) b m →
  accepts (validate_array (DataType k) b (Some vp)) b c
    (b + array_wire_size k (wire_size k) l) (c + count (handles_of k) l).

(** What [Array_Validate] does with the elements *)
Definition elements_validate (k : kind) (data : Z) (vp : ArrayValidateParams) (n : Z) : CM ValidationError :=
  let slots Run := validate_elements (seqZ 0 n) (λ i,
    validate_pointer_element m (element_is_nullable vp) Run (storage_at (DataType k) data i)) in
  match k with
  | KPod _ | KBool | KInterface =>
      MOJO_DCHECK debug (negb (element_is_nullable vp));;
      MOJO_DCHECK debug (negb (bool_decide (is_Some (element_validate_params vp))));;
      mret NONE
  | KHandle =>
      MOJO_DCHECK debug (negb (bool_decide (is_Some (element_validate_params vp))));;
      validate_elements (seqZ 0 n) (λ i, validate_handle_element m (element_is_nullable vp) (storage_at (DataType k) data i))
  | KString => slots (λ p, validate_array String_Data p (element_validate_params vp))
  | KArray k => slots (λ p, validate_array (DataType k) p (element_validate_params vp))
  | KMap _ key value => slots (λ p, Map_Validate m (DataType key) (validate_array (DataType key))
      (validate_array (DataType value)) p (element_validate_params vp))
  end.

Lemma Array_Validate_eq k data vp : 0 < data → validate_array (DataType k) data (Some vp) =
  (retval ← validate_header debug m (S := Empty_set) (U := Empty_set) (DataType k) data (Some vp);
   if negb (bool_decide (retval = NONE)) then mret retval
   else
   n ← lift (array_num_elements m data);
   vp ← lift (deref_params (Some vp));
   elements_validate k data vp n).
Proof. intros Hd. destruct k; cbn [Array_Validate DataType Interface_Data]; replace (data =? 0) with false by lia; reflexivity. Qed.

Lemma array_accepts k : kind_ok k →
  (∀ vp (l : list (wrapper k)) out a c, elements_ok k vp l → 0 < out →
    out + 8 + data (DataType k) (Z.of_nat (length l)) <= a → a mod 8 = 0 → a + total (wire_size k) l <= e →
    a + total (wire_size k) l < out + 2 ^ 32 → (c + count (handles_of k) l <= N)%nat →
    elements_at k out (labelled k c l) a m →
    accepts (elements_validate k out vp (Z.of_nat (length l))) a c (a + total (wire_size k) l) (c + count (handles_of k) l)) →
  array_accepted k.
Proof.
  intros Hk Hel vp l b c (Hexp & Hfew & Hok) Hb Hb8 Hend Hsmall Hc (Hbytes & Hnum & Hl).
  unfold array_wire_size in *. rewrite !relabel_list_length in *. pose proof (sizeof_kind k Hk).
  pose proof (data_nonneg (DataType k) (Z.of_nat (length l))) as Hdata.
  pose proof (round8_bounds (8 + data (DataType k) (Z.of_nat (length l)))) as Hr.
  pose proof (total_ge_0 (wire_size k) l (wire_size_nonneg k Hk)).
  rewrite Array_Validate_eq by done. eapply accepts_seq.
  { eapply accepts_mono; [apply (header_accepts k vp l); try done; lia| |done]. apply Z.add_le_mono_l, Hr. }
  rewrite bool_decide_true by done. cbn [negb]. eapply accepts_lift; [exact Hnum|]. eapply accepts_lift; [done|].
  rewrite Z.add_assoc. apply Hel; try done; try lia.
  rewrite Z.add_mod, Hb8, round8_aligned by lia. done.
Qed.

Lemma string_accepted s b c : 0 < b → b mod 8 = 0 → b + round8 (8 + Z.of_nat (length s)) <= e →
  round8 (8 + Z.of_nat (length s)) < 2 ^ 32 → array_at (KPod 1) (pods_at 1) s b m →
  accepts (validate_array String_Data b (Some (mkArrayValidateParams 0 false None))) b c
    (b + round8 (8 + Z.of_nat (length s))) c.
Proof.
  intros Hb Hb8 Hend Hsmall (Hbytes & Hnum & _). cbn [DataType data sizeof_StorageType] in *. rewrite Z.mul_1_l in *.
  pose proof (round8_bounds (8 + Z.of_nat (length s))) as Hr.
  unfold String_Data. cbn [Array_Validate]. replace (b =? 0) with false by lia. eapply accepts_seq.
  { pose proof (header_accepts (KPod 1) (mkArrayValidateParams 0 false None) s b c) as Hh.
    cbn [DataType data sizeof_StorageType kind_ok wrapper] in Hh. rewrite Z.mul_1_l in Hh.
    eapply accepts_mono; [apply Hh; try done; [by left|lia|lia]|apply Z.add_le_mono_l, Hr|done]. }
  rewrite bool_decide_true by done. cbn [negb]. eapply accepts_lift; [exact Hnum|]. eapply accepts_lift; [done|].
  apply accepts_dcheck; [done|]. apply accepts_dcheck; [done|]. apply accepts_ret.
Qed.

(** A map: its header, its keys, its values. *)
Lemma half_accepts (Run : Z → CM ValidationError) slot b K a c a' c' : load64 m slot = Ok (b - slot) →
  0 < slot → slot < b → b < slot + 2 ^ 32 → b < 2 ^ 64 →
  accepts (r ← Run b; K b r) a c a' c' →
  accepts (valid ← lift (ValidateEncodedPointer m slot);
    if negb valid then mret ILLEGAL_POINTER
    else
    offset ← lift (load64 m slot);
    if offset =? 0 then mret UNEXPECTED_NULL_POINTER
    else
    p ← lift (decode_raw m slot);
    r ← Run p; K p r) a c a' c'.
Proof.
  intros Hp H0 Hb Hspan Hmax HK. eapply (accepts_lift _ true).
  { unfold ValidateEncodedPointer, mbind, result_bind. rewrite Hp. unfold UINT32_MAX.
    rewrite u32_small, u64_small by lia. f_equal. lia. }
  cbn [negb]. eapply accepts_lift; [exact Hp|]. replace (b - slot =? 0) with false by lia.
  eapply (accepts_lift _ b); [|exact HK].
  unfold decode_raw, DecodePointerRaw, mbind, stateR_bind, result_bind. rewrite read_eq, Hp.
  replace (b - slot =? 0) with false by lia. cbn. rewrite u64_small by lia. f_equal. lia.
Qed.

Lemma map_accepted less key value vp (l : list (wrapper key * wrapper value)) b c :
  kind_ok (KMap less key value) → array_accepted key → array_accepted value →
  map_entries_ok less key (array_ok key (elements_ok key) (MapKeyValidateParamsFactory_Get (DataType key)))
    (array_ok value (elements_ok value) vp) l →
  0 < b → b mod 8 = 0 → b + map_object_size key value l <= e → map_object_size key value l < 2 ^ 32 →
  (c + length (flat_map (λ e, handles_of value e.2) l) <= N)%nat →
  map_object_at true key value (relabel_entries Z.of_nat kEncodedInvalidHandleValue value c l) b m →
  accepts (Map_Validate m (DataType key) (validate_array (DataType key)) (validate_array (DataType value)) b (Some vp))
    b c (b + map_object_size key value l) (c + length (flat_map (λ e, handles_of value e.2) l)).
Proof.
  intros (Hk & Hv & Hkey & _) Hak Hav (_ & Hkeys & Hvals) Hb Hb8 Hend Hsmall Hc (H1 & H2 & H3 & H4 & H5 & H6).
  assert (count (handles_of key) (map fst l) = 0%nat) as Hck by (apply plain_count; by destruct key).
  assert (length (flat_map (λ e, handles_of value e.2) l) = count (handles_of value) (map snd l)) as Hcount
    by (symmetry; apply count_map). rewrite Hcount in *. clear Hcount.
  rewrite relabel_entries_fst, ?relabel_entries_snd in *. unfold map_object_size, sizeof_Map_Data in *.
  destruct (array_wire_size_ok key (wire_size key) (map fst l) Hk (wire_size_ok key Hk)) as [_ Hk8].
  pose proof (array_object_size_pos key (map fst l) Hk) as Hks. pose proof (array_object_size_pos value (map snd l) Hv) as Hvs.
  set (ks := array_wire_size key (wire_size key) (map fst l)) in *.
  set (vs := array_wire_size value (wire_size value) (map snd l)) in *.
  unfold Map_Validate. replace (b =? 0) with false by lia. apply (accepts_seq _ _ _ _ (b + 24) c).
  { unfold ValidateStructHeaderAndClaimMemory, IsAligned, kAlignment, sizeof_StructHeader. rewrite Hb8. cbn [Z.eqb negb].
    apply accepts_range; [lia|lia|lia|lia|]. cbn [negb]. eapply accepts_lift; [exact H1|]. cbn [Z.ltb Z.compare].
    apply accepts_claim; [lia|lia|lia|lia|]. apply accepts_ret. }
  rewrite bool_decide_true by done. cbn [negb]. eapply accepts_lift; [exact H1|].
  unfold sizeof_Map_Data. rewrite Z.eqb_refl. cbn [negb]. eapply accepts_lift; [exact H2|]. cbn [Z.eqb negb orb].
  assert (c = c + count (handles_of key) (map fst l))%nat as Hc0 by lia.
  eapply (half_accepts (λ p, validate_array (DataType key) p _) (b + 8) (b + 24)); [exact H3|lia|lia|lia|lia|].
  eapply accepts_seq; [apply Hak; [exact Hkeys|lia| |lia|lia|lia|]|].
  { by rewrite Z.add_mod, Hb8 by lia. }
  { rewrite plain_relabels by by destruct key. exact H4. }
  fold ks. rewrite <- Hc0, bool_decide_true by done. cbn [negb].
  eapply (half_accepts (λ p, validate_array (DataType value) p _) (b + 16) (b + 24 + ks)); [exact H5|lia|lia|lia|lia|].
  eapply accepts_seq; [apply Hav; [exact Hvals|lia| |lia|lia|done|exact H6]|].
  { by rewrite Z.add_mod, Hk8, (Z.add_mod b), Hb8 by lia. }
  fold vs. rewrite bool_decide_true by done. cbn [negb].
  destruct H4 as (_ & Hn1 & _), H6 as (_ & Hn2 & _). rewrite relabel_list_length in Hn2. rewrite !length_map in *.
  eapply accepts_lift; [exact Hn1|]. eapply accepts_lift; [exact Hn2|]. rewrite Z.eqb_refl. cbn [negb].
  replace (b + (24 + ks + vs)) with (b + 24 + ks + vs) by lia. apply accepts_ret.
Qed.

Lemma inert_accepts vp a c a' c' : element_is_nullable vp = false → element_validate_params vp = None →
  a <= a' → (c <= c')%nat →
  accepts (MOJO_DCHECK debug (negb (element_is_nullable vp));;
    MOJO_DCHECK debug (negb (bool_decide (is_Some (element_validate_params vp))));; mret NONE) a c a' c'.
Proof.
  intros -> -> Ha Hc. apply accepts_dcheck; [done|]. apply accepts_dcheck; [done|].
  eapply accepts_mono; [apply accepts_ret|done|done].
Qed.

Lemma handles_accept vp l out a c : elements_ok KHandle vp l → a + total (wire_size KHandle) l <= e →
  (c + count (handles_of KHandle) l <= N)%nat → elements_at KHandle out (labelled KHandle c l) a m →
  accepts (elements_validate KHandle out vp (Z.of_nat (length l))) a c (a + total (wire_size KHandle) l)
    (c + count (handles_of KHandle) l).
Proof.
  intros [Hp Hok] Hend Hc Hl. cbn [elements_validate]. rewrite Hp. apply accepts_dcheck; [done|].
  eapply (validate_elements_accepts (λ i h a m, load32 m (out + 8 + 4 * i) = Ok h) (λ _, 0) (handles_of KHandle)
    (relabel Z.of_nat kEncodedInvalidHandleValue KHandle) _ m e l); try done.
  intros j h b c' Hj _ _ _ Hc' Hh. rewrite Z.add_0_r. unfold validate_handle_element.
  eapply accepts_lift; [exact Hh|]. rewrite Forall_lookup in Hok. destruct (Hok j h Hj) as [_ Hnull].
  assert (negb (element_is_nullable vp) &&
    (relabel Z.of_nat kEncodedInvalidHandleValue KHandle c' h =? kEncodedInvalidHandleValue) = false) as ->.
  { cbn [relabel handles_of] in *. destruct (Z.eqb_spec h MOJO_HANDLE_INVALID) as [->|]; [by rewrite Hnull|].
    cbn [length] in Hc'. change kEncodedInvalidHandleValue with (2 ^ 32 - 1).
    replace (Z.of_nat c' =? 2 ^ 32 - 1) with false by lia. apply andb_false_r. }
  apply accepts_handle; [done|]. apply accepts_ret.
Qed.

Lemma null_accepts (t : element Empty_set Empty_set) p a c : accepts (validate_array t 0 p) a c a c.
Proof. destruct t; apply accepts_ret. Qed.
Lemma map_null_accepts key value p a c :
  accepts (Map_Validate m (DataType key) (validate_array (DataType key)) (validate_array (DataType value)) 0 p) a c a c.
Proof. apply accepts_ret. Qed.

Lemma strings_accept vp (l : list (wrapper KString)) out a c : elements_ok KString vp l → 0 < out →
  out + 8 + data (DataType KString) (Z.of_nat (length l)) <= a → a mod 8 = 0 → a + total (wire_size KString) l <= e →
  a + total (wire_size KString) l < out + 2 ^ 32 → (c + count (handles_of KString) l <= N)%nat →
  elements_at KString out (labelled KString c l) a m →
  accepts (elements_validate KString out vp (Z.of_nat (length l))) a c (a + total (wire_size KString) l)
    (c + count (handles_of KString) l).
Proof.
  intros [Hp Hok] H0 Ha Ha8 Hend Hspan Hc Hl. cbn [elements_validate]. rewrite Hp, Forall_forall in *.
  eapply (slots_accept _ (λ s : wrapper KString, s) _ (λ s, round8 (8 + Z.of_nat (length s))) _ (λ _, [])
    (handles_of KString) (λ _ s, s)); [done| |by apply (wire_size_ok KString)| | |done|done|done|done|done|done|done
    |by apply null_accepts| | |exact Hl]; try by intros ? [x|].
  - by intros [x|].
  - by intros [x|].
  - intros [x|] Hx ?; [done|]. apply (Hok _ Hx).
  - intros x y b c' Hx _ Hb Hb8 Hend' Hsmall Hc' Hy. rewrite Nat.add_0_r. by apply string_accepted.
Qed.

Lemma elements_accepted k : kind_ok k → no_interfaces k → array_accepted k.
Proof.
  induction k as [size| | | | |k IH|less key IHk value IHv]; intros Hk Hni; apply array_accepts; try done;
    intros vp l out a c Hok H0 Ha Ha8 Hend Hspan Hc Hl; cbn [elements_validate] in *.
  - destruct Hok as (Hn & Hp & _). pose proof (total_ge_0 (wire_size (KPod size)) l (λ x, ltac:(done))).
    apply inert_accepts; [done|done|lia|lia].
  - destruct Hok as [Hn Hp]. pose proof (total_ge_0 (wire_size KBool) l (λ x, ltac:(done))).
    apply inert_accepts; [done|done|lia|lia].
  - by apply handles_accept.
  - by apply strings_accept.
  - destruct Hok as (p & Hp & Hok). rewrite Hp, Forall_forall in *.
    eapply (slots_accept _ (λ x : wrapper (KArray k), x) _ (array_wire_size k (wire_size k)) _ (flat_map (handles_of k))
      (handles_of (KArray k)) (labelled k)); [done| |by apply (wire_size_ok (KArray k))| | | |done|done|done|done|done|done
      |by apply null_accepts| | |exact Hl]; try by intros ? [x|].
    + by intros [x|].
    + by intros [x|].
    + intros c' y. apply array_size_relabel.
    + intros [x|] Hx ?; [done|]. apply (Hok _ Hx).
    + intros x y b c' Hx -> Hb Hb8 Hend' Hsmall Hc' Hy. apply (IH Hk Hni); try done. apply (Hok _ Hx).
  - pose proof Hk as (Hkk & Hkv & Hkey & _). destruct Hok as (p & Hp & Hok). rewrite Hp, Forall_forall in *.
    assert (no_interfaces key) as Hnk by by destruct key.
    eapply (slots_accept _ entries _ (map_object_size key value) _ (flat_map (λ e, handles_of value e.2))
      (handles_of (KMap less key value)) (relabel_entries Z.of_nat kEncodedInvalidHandleValue value));
      [done| |by apply (wire_size_ok (KMap less key value))| | | |done|done|done|done|done|done
      |by apply map_null_accepts| | |exact Hl]; try by intros ? [x [|]].
    + by intros [x [|]].
    + by intros [x [|]].
    + intros c' y. apply map_size_relabel.
    + intros [x [|]] Hx ?; [|done]. apply (Hok _ Hx).
    + intros [x [|]] y b c' Hx Hy Hb Hb8 Hend' Hsmall Hc' Hl'; [done|]. injection Hy as <-.
      apply (map_accepted less); auto. apply (Hok _ Hx).
Qed.
End objects.
End accepts.
