(* ===== verification/CppArrives.v ===== *)
(** * What one process sends, another receives

    Serialization, encoding, the transfer of the bytes, validation, decoding and
    deserialization of an array, in sequence: [array_sent] for the sender's part and
    [array_received] for the receiver's, whose memory has the bytes elsewhere and whose
    handles have other numbers. *)
From stdpp Require Import base list numbers option gmap sorting.
From S2P Require Import Prelude Memory TypeDescriptor Validate Sample Codec Buffer CppBindings CppAgrees CppArray CppArrayAgrees CppMap CppSerialize CppSerializeSteps CppLayout CppSerializeElements CppDeserialize CppSerializeCorrect CppWalk CppTravel CppAccepts.

(** The handles of an array, and the array with other handles in their places. *)
Definition handles_in (k : kind) (l : list (wrapper k)) : list Z := flat_map (handles_of k) l.
Definition with_handles (k : kind) (handles : list Z) (l : list (wrapper k)) : list (wrapper k) :=
  relabels (nth_handle handles) MOJO_HANDLE_INVALID k 0 l.

Section travel.
Context (debug : bool) (SE UE SD UD : Empty_set → Z → SM unit).

Lemma encode_walks k : kind_ok k → ∀ sent, Forall (λ h, h ≠ MOJO_HANDLE_INVALID) sent → Z.of_nat (length sent) < 2 ^ 32 →
  walks EncodeHandle (Encode debug) SE UE (λ c, take c sent) (length sent) false true (nth_handle sent) Z.of_nat
    MOJO_HANDLE_INVALID kEncodedInvalidHandleValue k.
Proof.
  intros Hk sent Hsent Hfew.
  apply walks_all; auto using encode_handle_walks, encode_null_walks, encode_pointer_walks.
Qed.

Lemma decode_walks k : kind_ok k → ∀ received, Forall (λ h, 0 <= h < 2 ^ 32) received →
  Z.of_nat (length received) < 2 ^ 32 - 1 →
  walks (DecodeHandle debug) Decode SD UD (λ c, replicate c MOJO_HANDLE_INVALID ++ drop c received) (length received)
    true false Z.of_nat (nth_handle received) kEncodedInvalidHandleValue MOJO_HANDLE_INVALID k.
Proof.
  intros Hk received Hvalid Hfew.
  apply walks_all; auto using decode_handle_walks, decode_null_walks, decode_pointer_walks.
Qed.

Lemma array_sent k p l m b : kind_ok k → array_ok k (elements_ok k) p l →
  wire_size (KArray k) (Some l) < 2 ^ 60 → fb_ok m b → cursor_ b + Array_Size k (Some l) <= size_ b →
  ∃ m1 m2, Array_Serialize debug k (Some l) (Some p) (m, b) =
      Ok ((NONE, here b, Some (map (emptied k) l)), (m1, advance b (Array_Size k (Some l)))) ∧
    Array_EncodePointersAndHandles debug SE UE (DataType k) (here b) (m1, []) = Ok (tt, (m2, handles_in k l)) ∧
    array_at k (CppLayout.elements_at true k) (labelled k 0 l) (here b) m2.
Proof.
  intros Hk Hl Hw Hok Hroom. unfold Array_Size in *. rewrite (GetSerializedSize_exact (KArray k)) in * by done.
  destruct (Array_spec debug k p (Some l) Hk (elements_correct debug k Hk) Hl m b Hok Hroom)
    as (q & m1 & Hs & _ & -> & Hq & Hat). pose proof Hok as [? ? ? ? ? _]. cbn [wire_size] in *.
  pose proof (array_handles_count k l Hk (handles_count k Hk)) as Hcount. fold (handles_in k l) in Hcount.
  unfold count in Hcount. fold (handles_in k l) in Hcount.
  destruct (array_object_walks _ _ _ _ _ _ _ _ _ _ _ _ k l Hk (encode_walks k Hk (handles_in k l)
    (list_handles_nonzero _ l (handles_nonzero k)) ltac:(lia)) 0%nat (here b) m1) as (m2 & Hr & Ht & Hat2);
    [lia|unfold here; lia|lia|done| |].
  { unfold handles_in. by rewrite relabels_own. }
  exists m1, m2. split_and!; [exact Hs| |exact Hat2]. rewrite Array_Encode_walk.
  change (0 + length (flat_map (handles_of k) l))%nat with (length (handles_in k l)) in Hr.
  rewrite take_0, firstn_all in Hr. exact Hr.
Qed.

Lemma with_handles_ordered k handles l : Forall (ordered k) l → Forall (ordered k) (with_handles k handles l).
Proof. apply relabel_list_Forall. apply relabel_ordered. Qed.

Lemma array_received k (l : list (wrapper k)) a m received : kind_ok k → Forall (ordered k) l →
  array_at k (CppLayout.elements_at true k) (labelled k 0 l) a m →
  0 < a → a + array_wire_size k (wire_size k) l < 2 ^ 63 → array_wire_size k (wire_size k) l < 2 ^ 32 →
  length received = length (handles_in k l) → Forall (λ h, 0 <= h < 2 ^ 32) received →
  ∃ m1 m2, Array_DecodePointersAndHandles debug SD UD (DataType k) a (m, received) =
      Ok (tt, (m1, replicate (length received) MOJO_HANDLE_INVALID)) ∧
    Array_Deserialize debug k a (m1, tt) = Ok (Some (with_handles k received l), (m2, tt)) ∧
    agree_on (outside (range a (a + array_wire_size k (wire_size k) l))) m m2.
Proof.
  intros Hk Hord Hat Ha Hend Hsmall Hlen Hvalid.
  pose proof (array_handles_count k l Hk (handles_count k Hk)) as Hcount.
  change (count (handles_of k) l) with (length (handles_in k l)) in Hcount. rewrite <- Hlen in Hcount.
  destruct (array_object_walks _ _ _ _ _ _ _ _ _ _ _ _ k l Hk (decode_walks k Hk received Hvalid ltac:(lia)) 0%nat a m)
    as (m1 & Hr & [Ht _] & Hat1); [done|done|done|by rewrite Hlen|done|].
  change (0 + length (flat_map (handles_of k) l))%nat with (length (handles_in k l)) in Hr.
  rewrite <- Hlen, drop_0, drop_all, app_nil_r in Hr.
  destruct (array_deserialize debug k (with_handles k received l) a m1 Hk (elements_deserialize debug k Hk) Ha)
    with (m2 := m1) as (m2 & Hd & Hout); [by apply with_handles_ordered|exact Hat1|by intros x _|].
  exists m1, m2. split_and!; [by rewrite Array_Decode_walk|exact Hd|]. intros x Hx.
  unfold with_handles in Hout. rewrite array_size_relabel in Hout. by rewrite (Ht x Hx), (Hout x Hx).
Qed.

(** C19: What one process sends, another receives: an array of numbers, booleans,
    handles, strings, maps and arrays that may be sent is serialized and encoded; when
    the bytes have come to another address of another process, aligned, and the same
    number of handles with them, then validation accepts them, they are
    decoded using up the handles, and deserialized into the array that was sent, with
    each handle replaced by the one received in its position; nothing else in memory
    changes.  With the same handles it is the same array. *)
Theorem Array_arrives SV UV Unull k p l m b :
  kind_ok k → no_interfaces k → array_ok k (elements_ok k) p l →
  wire_size (KArray k) (Some l) < 2 ^ 60 → fb_ok m b →
  let size := Array_Size k (Some l) in
  cursor_ b + size <= size_ b →
  with_handles k (handles_in k l) l = l ∧
  ∃ q m1 m2,
    Array_Serialize debug k (Some l) (Some p) (m, b) =
      Ok ((NONE, q, Some (map (emptied k) l)), (m1, advance b size)) ∧
    Array_EncodePointersAndHandles debug SE UE (DataType k) q (m1, []) = Ok (tt, (m2, handles_in k l)) ∧
    ∀ a M received, 0 < a → a mod 8 = 0 → a + size < 2 ^ 63 →
      shifted (a - q) (range q (q + size)) m2 M →
      length received = length (handles_in k l) → Forall (λ h, 0 <= h < 2 ^ 32) received →
      ∃ ck ck' M1 M2,
        BoundsChecker_new debug a size (Z.of_nat (length received)) tt = Ok (ck, tt) ∧
        Array_Validate debug M SV UV Unull (DataType k) a (Some p) ck = Ok (NONE, ck') ∧
        Array_DecodePointersAndHandles debug SD UD (DataType k) a (M, received) =
          Ok (tt, (M1, replicate (length received) MOJO_HANDLE_INVALID)) ∧
        Array_Deserialize debug k a (M1, tt) = Ok (Some (with_handles k received l), (M2, tt)) ∧
        agree_on (outside (range a (a + size))) M M2.
Proof.
  intros Hk Hni Hl Hw Hok size Hroom. split; [apply relabels_own|].
  destruct (array_sent k p l m b Hk Hl Hw Hok Hroom) as (m1 & m2 & Hs & He & Hat).
  exists (here b), m1, m2. split_and!; [exact Hs|exact He|]. intros a M received Ha Ha8 Hend HM Hlen Hvalid.
  assert (size = array_wire_size k (wire_size k) l) as Hsz by by apply (GetSerializedSize_exact (KArray k)).
  clearbody size. subst size. pose proof Hok as [? ? ? ? ? _].
  apply (array_object_shifted true (a - here b) ltac:(done) k Hk _ _ _ M) in Hat; [|by rewrite array_size_relabel].
  replace (here b + (a - here b)) with a in Hat by lia.
  destruct (array_received k l a M received Hk) as (M1 & M2 & Hd & Hde & Hout); try done; [|lia|].
  { destruct Hl as (_ & _ & Hl). by eapply elements_ok_ordered. }
  pose proof (array_handles_count k l Hk (handles_count k Hk)) as Hcount.
  change (count (handles_of k) l) with (length (handles_in k l)) in Hcount. rewrite <- Hlen in Hcount.
  pose proof (array_object_size_pos k l Hk).
  exists (mkBoundsChecker a (a + array_wire_size k (wire_size k) l) 0 (Z.of_nat (length received))).
  destruct (elements_accepted (a + array_wire_size k (wire_size k) l) (length received) ltac:(lia) ltac:(lia)
    debug M SV UV Unull k Hk Hni p l a 0%nat Hl Ha Ha8) with
    (ck := mkBoundsChecker a (a + array_wire_size k (wire_size k) l) 0 (Z.of_nat (length received)))
    as (ck' & Hv & _); [lia|lia|by rewrite Hlen|exact Hat|by split|].
  exists ck', M1, M2. split_and!; [|exact Hv|exact Hd|exact Hde|exact Hout].
  unfold BoundsChecker_new. rewrite u64_small, u32_small by lia.
  replace (_ <? a) with false by lia. by rewrite Z.ltb_irrefl.
Qed.
End travel.

(** There are no structs and unions. *)
Definition none {A} (s : Empty_set) : A := match s with end.

(** An array of maps to handles travels from 4104 to 8192, the handles [7] and [9] become
    [20] and [21]. *)
Definition sample_array : list (wrapper (KMap signed_less (KPod 1) KHandle)) :=
  [sample_map; mkMap [] true; mkMap [(5, 9)] false].
Definition sample_array_params : ArrayValidateParams :=
  mkArrayValidateParams 0 true (Some (mkArrayValidateParams 0 true None)).

Lemma Array_arrives_witness :
  let k := KMap signed_less (KPod 1) KHandle in
  with_handles k [7; 9] sample_array = sample_array ∧
  ∃ q m1 m2,
    Array_Serialize true k (Some sample_array) (Some sample_array_params)
      (words 4096 (replicate 38 0), mkFixedBuffer 4096 8 152) =
      Ok ((NONE, q, Some [mkMap [(255, 0); (1, 0)] false; mkMap [] true; mkMap [(5, 0)] false]),
        (m1, mkFixedBuffer 4096 152 152)) ∧
    Array_EncodePointersAndHandles true none none (DataType k) q (m1, []) = Ok (tt, (m2, [7; 9])) ∧
    ∀ a M received, 0 < a → a mod 8 = 0 → a + 144 < 2 ^ 63 →
      shifted (a - q) (range q (q + 144)) m2 M → length received = 2%nat → Forall (λ h, 0 <= h < 2 ^ 32) received →
      ∃ ck ck' M1 M2,
        BoundsChecker_new true a 144 (Z.of_nat (length received)) tt = Ok (ck, tt) ∧
        Array_Validate true M none none none (DataType k) a (Some sample_array_params) ck = Ok (NONE, ck') ∧
        Array_DecodePointersAndHandles true none none (DataType k) a (M, received) =
          Ok (tt, (M1, replicate (length received) MOJO_HANDLE_INVALID)) ∧
        Array_Deserialize true k a (M1, tt) = Ok (Some (with_handles k received sample_array), (M2, tt)) ∧
        agree_on (outside (range a (a + 144))) M M2.
Proof.
  apply (Array_arrives true none none none none none none none
    (KMap signed_less (KPod 1) KHandle) sample_array_params sample_array (words 4096 (replicate 38 0))
    (mkFixedBuffer 4096 8 152)).
  - refine (conj _ (conj _ (conj _ (conj _ signed_less_ok)))); done.
  - done.
  - split_and!; [by left|done|]. eexists. split; [done|]. repeat constructor; done.
  - by vm_compute.
  - split; try done. apply mapped_check_sound. by vm_compute.
  - by vm_compute.
Defined.
