(* ===== verification/WatcherCommand.v ===== *)
(** * Commands of the Dart handle watcher (public/platform/dart/dart_handle_watcher.h)

    [HandleWatcherCommand] is a command as it travels over the control pipe: a
    handle or a deadline, a port, and the command with its signals in one integer.
    [Command] holds the functions of the class. *)
From stdpp Require Import base list numbers option.
From S2P Require Import Prelude MojoResult System Codec.

(** ** Signals (public/c/include/mojo/system/handle.h) *)
Definition MOJO_HANDLE_SIGNAL_NONE : Z := 0.
Definition MOJO_HANDLE_SIGNAL_READABLE : Z := Z.shiftl 1 0.
Definition MOJO_HANDLE_SIGNAL_WRITABLE : Z := Z.shiftl 1 1.
Definition MOJO_HANDLE_SIGNAL_PEER_CLOSED : Z := Z.shiftl 1 2.

Record MojoHandleSignalsState := mkSignalsState {
  satisfied_signals : Z;
  satisfiable_signals : Z;
}.

(** Three of the signals only. *)
Definition MOJO_HANDLE_SIGNAL_ALL : Z :=
  Z.lor (Z.lor MOJO_HANDLE_SIGNAL_READABLE MOJO_HANDLE_SIGNAL_WRITABLE)
    MOJO_HANDLE_SIGNAL_PEER_CLOSED.

(** ** Commands *)
Record HandleWatcherCommand := mkCommand {
  handle_or_deadline_ : Z;
  port_ : Z;
  data_ : Z;
}.
Definition sizeof_HandleWatcherCommand : Z := 24.

(** [enum Command] *)
Definition kCommandAddHandle : Z := 0.
Definition kCommandRemoveHandle : Z := 1.
Definition kCommandCloseHandle : Z := 2.
Definition kCommandAddTimer : Z := 3.
Definition kCommandShutdownHandleWatcher : Z := 4.

(** The port that is none (dart_api.h, which is not part of the repository). *)
Class DartApi := { ILLEGAL_PORT : Z }.

Module Command.
Section command.
Context `{!DartApi}.

Definition Empty : HandleWatcherCommand := mkCommand 0 ILLEGAL_PORT 0.

Definition set_data (command signals : Z) : result Z :=
  c_assertR (MOJO_HANDLE_SIGNAL_ALL <? Z.shiftl 1 3);;
  mret (Z.lor (Z.shiftl command 3) (Z.land signals MOJO_HANDLE_SIGNAL_ALL)).

Definition Add (handle signals port : Z) : result HandleWatcherCommand :=
  data ← set_data kCommandAddHandle signals; mret (mkCommand handle port data).
Definition Remove (handle : Z) : result HandleWatcherCommand :=
  data ← set_data kCommandRemoveHandle MOJO_HANDLE_SIGNAL_NONE;
  mret (mkCommand handle ILLEGAL_PORT data).
Definition Close (handle port : Z) : result HandleWatcherCommand :=
  data ← set_data kCommandCloseHandle MOJO_HANDLE_SIGNAL_NONE;
  mret (mkCommand handle port data).
Definition Timer (deadline port : Z) : result HandleWatcherCommand :=
  data ← set_data kCommandAddTimer MOJO_HANDLE_SIGNAL_NONE;
  mret (mkCommand deadline port data).
Definition Shutdown : result HandleWatcherCommand :=
  data ← set_data kCommandShutdownHandleWatcher MOJO_HANDLE_SIGNAL_NONE;
  mret (mkCommand MOJO_HANDLE_INVALID ILLEGAL_PORT data).

(** The arguments are integers of Dart: [int64_t], converted to [MojoHandle] and
    [MojoHandleSignals] where a function expects those. *)
Definition FromDart (command handle_or_deadline port signals : Z) : result HandleWatcherCommand :=
  if command =? kCommandAddHandle then Add (u32 handle_or_deadline) (u32 signals) port
  else if command =? kCommandRemoveHandle then Remove (u32 handle_or_deadline)
  else if command =? kCommandCloseHandle then Close (u32 handle_or_deadline) port
  else if command =? kCommandAddTimer then Timer handle_or_deadline port
  else if command =? kCommandShutdownHandleWatcher then Shutdown
  else c_assertR false;; mret Empty.

Definition command (c : HandleWatcherCommand) : Z := Z.shiftr (data_ c) 3.
Definition signals (c : HandleWatcherCommand) : Z :=
  u32 (Z.land (data_ c) MOJO_HANDLE_SIGNAL_ALL).
Definition handle (c : HandleWatcherCommand) : Z := u32 (handle_or_deadline_ c).
Definition deadline (c : HandleWatcherCommand) : Z := handle_or_deadline_ c.
Definition port (c : HandleWatcherCommand) : Z := port_ c.
End command.
End Command.
