(* ===== verification/HandleWatcher.v ===== *)
(** * The Dart handle watcher (public/platform/dart/dart_handle_watcher.{h,cc})

    A thread that waits on the handles of a Dart isolate and on its timers, and
    posts to the isolate's ports.  It is commanded over a message pipe, whose
    consumer end is the first of the handles it waits on.

    - [HandleWatcherCommand] (WatcherCommand.v) is a command sent over the pipe.
    - [HandleWatcherThreadState] is the state of the thread: four vectors that are
      indexed together, the map from handles to indices and the set of timers.
    - [WatcherEnv] is what the thread calls: the system calls and the Dart VM.
    - [World] adds [trace], a history of the posts made, of the handles closed and of
      what the waits said, which no code reads.

    [MOJO_CHECK] ends the process in every build: [c_assert].  An arithmetic
    overflow of a signed integer is undefined in C++: [SignedOverflow]. *)
From stdpp Require Import base list numbers option gmap.
From S2P Require Import Prelude MojoResult System Codec WatcherCommand.

(** What the thread calls: the clock, the handle calls and the posts to Dart's
    ports.  [env_wait_many handles signals num_handles deadline states] updates the
    array of states; [None]: it never returns.  [env_read handle num_bytes] gives
    the result, the numbers of bytes and of handles, and the bytes read as a
    command. *)
Class WatcherEnv (E : Type) := {
  env_ticks : E → Z * E;
  env_close : Z → E → Z * E;
  env_wait : Z → Z → Z → E → Z * E;
  env_wait_many : list Z → list Z → Z → Z → list MojoHandleSignalsState → E →
    option (Z * list MojoHandleSignalsState * E);
  env_read : Z → Z → E → Z * Z * Z * HandleWatcherCommand * E;
  env_post_null : Z → E → E;
  env_post_integer : Z → Z → E → E;
}.

(** ** The state of the thread *)
Definition CONTROL_HANDLE_INDEX : Z := 0.

Record HandleWatcherTimer := mkTimer {
  tm_deadline : Z;
  tm_port : Z;
}.

(** [operator<] *)
Definition HandleWatcherTimer_lt (l r : HandleWatcherTimer) : bool :=
  tm_deadline l <? tm_deadline r.

(** [std::set::insert], on the list of the elements in their order: an element
    that is equivalent to one of the set is not inserted. *)
Fixpoint set_insert {T} (lt : T → T → bool) (x : T) (l : list T) : list T :=
  match l with
  | [] => [x]
  | y :: l' =>
      if lt x y then x :: l
      else if lt y x then y :: set_insert lt x l'
      else l
  end.

Record HandleWatcherThreadState := mkThreadState {
  shutdown_ : bool;
  control_pipe_consumer_handle_ : Z;
  wait_many_handles_ : list Z;
  wait_many_signals_ : list Z;
  wait_many_signals_state_ : list MojoHandleSignalsState;
  handle_ports_ : list Z;
  handle_to_index_map_ : gmap Z Z;
  timers_ : list HandleWatcherTimer;
}.

(** What the thread did to the isolate and to handles, and what it was told:
    [MojoWait]'s result for a handle, [MojoWaitMany]'s result with the signals that
    the array of states then gives for each handle. *)
Inductive Event :=
| PostedNull (port : Z)
| PostedInteger (port value : Z)
| Closed (handle : Z)
| Waited (handle result : Z)
| WaitedMany (result : Z) (reported : list (Z * Z)).

Record World (E : Type) := mkWorld {
  state : HandleWatcherThreadState;
  env : E;
  trace : list Event;   (** latest first *)
}.
Arguments mkWorld {_}.
Arguments state {_}.
Arguments env {_}.
Arguments trace {_}.

Section watcher.
Context {E : Type} `{!DartApi} `{!WatcherEnv E}.
Abbreviation M := (stateR (World E)).

Definition get_thread : M HandleWatcherThreadState := λ w, Ok (state w, w).
Definition set_thread (st : HandleWatcherThreadState) : M unit := λ w,
  Ok (tt, mkWorld st (env w) (trace w)).
Definition call_env {A} (f : E → A * E) : M A := λ w,
  let '(a, e) := f (env w) in Ok (a, mkWorld (state w) e (trace w)).
Definition log (ev : Event) : M unit := λ w,
  Ok (tt, mkWorld (state w) (env w) (ev :: trace w)).

(** [v[i]], [v[i] = a] and [v.pop_back()] *)
Definition vec_at {A} (v : list A) (i : Z) : M A :=
  if i <? 0 then crash BadAccess
  else match v !! Z.to_nat i with Some a => mret a | None => crash BadAccess end.
Definition vec_set {A} (v : list A) (i : Z) (a : A) : M (list A) :=
  if (i <? 0) || (Z.of_nat (length v) <=? i) then crash BadAccess
  else mret (<[Z.to_nat i := a]> v).
Definition pop_back {A} (v : list A) : M (list A) :=
  match v with [] => crash BadAccess | _ :: _ => mret (removelast v) end.

Definition vec_size {A} (v : list A) : Z := Z.of_nat (length v).

(** Signed 64-bit arithmetic. *)
Definition int64 (z : Z) : M Z :=
  if (- 2 ^ 63 <=? z) && (z <? 2 ^ 63) then mret z else crash SignedOverflow.

Definition MojoClose (handle : Z) : M Z :=
  log (Closed handle);; call_env (env_close handle).

(** [PostNull] and [PostSignal] *)
Definition PostNull (port : Z) : M unit :=
  if port =? ILLEGAL_PORT then mret tt
  else log (PostedNull port);; call_env (λ e, (tt, env_post_null port e)).
Definition PostSignal (port signalled : Z) : M unit :=
  if port =? ILLEGAL_PORT then mret tt
  else log (PostedInteger port signalled);;
       call_env (λ e, (tt, env_post_integer port signalled e)).

(** [MOJO_CHECK(wait_many_handles_.size() == handle_to_index_map_.size())] *)
Definition check_sizes : M unit :=
  st ← get_thread;
  c_assert (vec_size (wait_many_handles_ st) =? Z.of_nat (size (handle_to_index_map_ st))).

Definition AddHandle (handle signals port : Z) : M unit :=
  st ← get_thread;
  let index := vec_size (wait_many_handles_ st) in
  let signals_state := mkSignalsState MOJO_HANDLE_SIGNAL_NONE MOJO_HANDLE_SIGNAL_NONE in
  match handle_to_index_map_ st !! handle with
  | Some index =>
      h ← vec_at (wait_many_handles_ st) index;
      c_assert (h =? handle);;
      p ← vec_at (handle_ports_ st) index;
      if negb (p =? port) then PostSignal port MOJO_HANDLE_SIGNAL_PEER_CLOSED
      else
        s ← vec_at (wait_many_signals_ st) index;
        signals' ← vec_set (wait_many_signals_ st) index (Z.lor s signals);
        set_thread (mkThreadState (shutdown_ st) (control_pipe_consumer_handle_ st)
          (wait_many_handles_ st) signals' (wait_many_signals_state_ st) (handle_ports_ st)
          (handle_to_index_map_ st) (timers_ st));;
        check_sizes
  | None =>
      set_thread (mkThreadState (shutdown_ st) (control_pipe_consumer_handle_ st)
        (wait_many_handles_ st ++ [handle]) (wait_many_signals_ st ++ [signals])
        (wait_many_signals_state_ st ++ [signals_state]) (handle_ports_ st ++ [port])
        (<[handle := index]> (handle_to_index_map_ st)) (timers_ st));;
      check_sizes
  end.

(** The last elements take the place of those at [index]. *)
Definition RemoveHandleAtIndex (index : Z) : M unit :=
  c_assert (negb (index =? CONTROL_HANDLE_INDEX));;
  st ← get_thread;
  let last_index := vec_size (wait_many_handles_ st) - 1 in
  removed ← vec_at (wait_many_handles_ st) index;
  let map := delete removed (handle_to_index_map_ st) in
  '(handles, signals, states, ports, map) ←
    (if negb (index =? last_index) then
       handle ← vec_at (wait_many_handles_ st) last_index;
       handles ← vec_set (wait_many_handles_ st) index handle;
       s ← vec_at (wait_many_signals_ st) last_index;
       signals ← vec_set (wait_many_signals_ st) index s;
       ss ← vec_at (wait_many_signals_state_ st) last_index;
       states ← vec_set (wait_many_signals_state_ st) index ss;
       p ← vec_at (handle_ports_ st) last_index;
       ports ← vec_set (handle_ports_ st) index p;
       mret (handles, signals, states, ports, <[handle := index]> map)
     else
       mret (wait_many_handles_ st, wait_many_signals_ st, wait_many_signals_state_ st,
             handle_ports_ st, map));
  handles ← pop_back handles;
  signals ← pop_back signals;
  states ← pop_back states;
  ports ← pop_back ports;
  set_thread (mkThreadState (shutdown_ st) (control_pipe_consumer_handle_ st)
    handles signals states ports map (timers_ st));;
  c_assert (1 <=? vec_size handles);;
  check_sizes.

Definition RemoveHandle (handle : Z) : M unit :=
  st ← get_thread;
  match handle_to_index_map_ st !! handle with
  | None => mret tt
  | Some index =>
      c_assert (negb (index =? CONTROL_HANDLE_INDEX));;
      RemoveHandleAtIndex index
  end.

Definition CloseHandle (handle port : Z) (pruning : bool) : M unit :=
  c_assert (negb pruning || (port =? ILLEGAL_PORT));;
  st ← get_thread;
  match handle_to_index_map_ st !! handle with
  | None =>
      MojoClose handle;;
      if negb (port =? ILLEGAL_PORT) then PostNull port else mret tt
  | Some index =>
      MojoClose handle;;
      (if negb (port =? ILLEGAL_PORT) then PostNull port else mret tt);;
      c_assert (negb (index =? CONTROL_HANDLE_INDEX));;
      (if pruning then
         p ← vec_at (handle_ports_ st) index;
         PostSignal p MOJO_HANDLE_SIGNAL_PEER_CLOSED
       else mret tt);;
      RemoveHandle handle
  end.

(** *** Timers *)
Definition set_timers (timers : list HandleWatcherTimer) : M unit :=
  st ← get_thread;
  set_thread (mkThreadState (shutdown_ st) (control_pipe_consumer_handle_ st)
    (wait_many_handles_ st) (wait_many_signals_ st) (wait_many_signals_state_ st)
    (handle_ports_ st) (handle_to_index_map_ st) timers).

(** Scan the timers for the first one with [port] and erase it. *)
Fixpoint erase_port (port : Z) (timers : list HandleWatcherTimer) : list HandleWatcherTimer :=
  match timers with
  | [] => []
  | t :: timers' => if tm_port t =? port then timers' else t :: erase_port port timers'
  end.

Definition UpdateTimer (deadline port : Z) : M unit :=
  st ← get_thread;
  set_timers (erase_port port (timers_ st));;
  if deadline <? 0 then mret tt
  else
    st ← get_thread;
    set_timers (set_insert HandleWatcherTimer_lt (mkTimer deadline port) (timers_ st)).

Definition GetDartTimeInMillis : M Z :=
  ticks ← call_env env_ticks;
  mret (Z.quot ticks 1000).

Definition HasTimers : M bool :=
  st ← get_thread; mret (negb (bool_decide (timers_ st = []))).

Definition CompleteNextTimer : M unit :=
  st ← get_thread;
  match timers_ st with
  | [] => crash AssertFailed
  | t :: timers' => PostNull (tm_port t);; set_timers timers'
  end.

Definition NextTimerDeadline : M Z :=
  st ← get_thread;
  match timers_ st with
  | [] => crash AssertFailed
  | t :: _ => mret (tm_deadline t)
  end.

(** The rest of the loop of [ProcessTimers], at the time [now]. *)
Fixpoint complete_timers (fuel : nat) (now : Z) : M unit :=
  match fuel with
  | O => crash OutOfFuel
  | S fuel =>
      has ← HasTimers;
      if (has : bool) then
        deadline ← NextTimerDeadline;
        if deadline <=? now then
          CompleteNextTimer;;
          now ← GetDartTimeInMillis;
          complete_timers fuel now
        else mret tt
      else mret tt
  end.

(** Every round takes a timer out of the set. *)
Definition ProcessTimers : M unit :=
  now ← GetDartTimeInMillis;
  st ← get_thread;
  complete_timers (S (length (timers_ st))) now.

(** An [int64_t]: [MOJO_DEADLINE_INDEFINITE] is converted to it. *)
Definition WaitDeadline : M Z :=
  has ← HasTimers;
  if negb has then mret (s64 MOJO_DEADLINE_INDEFINITE)
  else
    now ← GetDartTimeInMillis;
    deadline ← NextTimerDeadline;
    d ← int64 (deadline - now);
    int64 (d * 1000).

(** *** Waiting *)

(** A loop that appends to a vector. *)
Fixpoint collect {A B} (l : list A) (body : A → M (option B)) : M (list B) :=
  match l with
  | [] => mret []
  | x :: l' =>
      r ← body x;
      rs ← collect l' body;
      mret (match r with Some y => y :: rs | None => rs end)
  end.

Definition ShouldCloseHandle (handle : Z) : M bool :=
  if handle =? MOJO_HANDLE_INVALID then mret false
  else
    result ← call_env (env_wait handle MOJO_HANDLE_SIGNAL_ALL 0);
    log (Waited handle result);;
    mret (negb (result =? MOJO_RESULT_OK) && negb (result =? MOJO_RESULT_DEADLINE_EXCEEDED)).

Definition PruneClosedHandles (signals_state_is_valid : bool) : M unit :=
  st ← get_thread;
  let indices := seqZ 0 (vec_size (wait_many_handles_ st)) in
  closed_handles ←
    (if signals_state_is_valid then
       collect indices (λ i,
         ss ← vec_at (wait_many_signals_state_ st) i;
         if negb (Z.land (satisfied_signals ss) MOJO_HANDLE_SIGNAL_PEER_CLOSED =? 0) then
           h ← vec_at (wait_many_handles_ st) i; mret (Some h)
         else mret None)
     else
       collect indices (λ i,
         h ← vec_at (wait_many_handles_ st) i;
         close ← ShouldCloseHandle h;
         mret (if (close : bool) then Some h else None)));
  for_each closed_handles (λ h, CloseHandle h ILLEGAL_PORT true).

Definition Shutdown : M unit :=
  st ← get_thread;
  set_thread (mkThreadState true (control_pipe_consumer_handle_ st)
    (wait_many_handles_ st) (wait_many_signals_ st) (wait_many_signals_state_ st)
    (handle_ports_ st) (handle_to_index_map_ st) (timers_ st)).

(** The [switch] of [ProcessControlMessage]. *)
Definition dispatch_command (command : HandleWatcherCommand) : M unit :=
  let c := Command.command command in
  if c =? kCommandAddHandle then
    AddHandle (Command.handle command) (Command.signals command) (Command.port command)
  else if c =? kCommandRemoveHandle then RemoveHandle (Command.handle command)
  else if c =? kCommandCloseHandle then
    CloseHandle (Command.handle command) (Command.port command) false
  else if c =? kCommandAddTimer then
    UpdateTimer (Command.deadline command) (Command.port command)
  else if c =? kCommandShutdownHandleWatcher then Shutdown
  else c_assert false.

Definition ProcessControlMessage : M unit :=
  st ← get_thread;
  '(res, num_bytes, num_handles, command) ←
    call_env (env_read (control_pipe_consumer_handle_ st) sizeof_HandleWatcherCommand);
  c_assert (res =? MOJO_RESULT_OK);;
  c_assert (num_bytes =? sizeof_HandleWatcherCommand);;
  c_assert (num_handles =? 0);;
  dispatch_command command.

(** The signals of the handle at [i] that are waited for and satisfied. *)
Definition awaited (i : Z) : M Z :=
  st ← get_thread;
  signals ← vec_at (wait_many_signals_ st) i;
  ss ← vec_at (wait_many_signals_state_ st) i;
  mret (Z.land (satisfied_signals ss) signals).

(** [num_handles - 1], ..., 1 *)
Definition indices_downwards (num_handles : Z) : list Z := rev (seqZ 1 (num_handles - 1)).

Definition ProcessWaitManyResults (result : Z) : M unit :=
  c_assert (negb (result =? MOJO_RESULT_DEADLINE_EXCEEDED));;
  if negb (result =? MOJO_RESULT_OK) then
    PruneClosedHandles (negb (result =? MOJO_RESULT_INVALID_ARGUMENT))
  else
  c_assert (result =? MOJO_RESULT_OK);;
  st ← get_thread;
  to_remove ← collect (indices_downwards (vec_size (wait_many_handles_ st))) (λ i,
    satisfied ← awaited i;
    if negb (satisfied =? 0) then
      p ← vec_at (handle_ports_ st) i;
      PostSignal p (s32 satisfied);;
      mret (Some i)
    else mret None);
  for_each to_remove RemoveHandleAtIndex;;
  satisfied ← awaited CONTROL_HANDLE_INDEX;
  if negb (satisfied =? 0) then ProcessControlMessage else mret tt.

(** [MojoWaitMany] on the vectors of the thread. *)
Definition WaitMany (deadline : Z) : M Z := λ w,
  let st := state w in
  match env_wait_many (wait_many_handles_ st) (wait_many_signals_ st)
          (u32 (vec_size (wait_many_handles_ st))) deadline (wait_many_signals_state_ st) (env w) with
  | None => Crash Blocked
  | Some (result, states, e) =>
      Ok (result, mkWorld
        (mkThreadState (shutdown_ st) (control_pipe_consumer_handle_ st) (wait_many_handles_ st)
          (wait_many_signals_ st) states (handle_ports_ st) (handle_to_index_map_ st) (timers_ st))
        e (WaitedMany result (zip (wait_many_handles_ st) (satisfied_signals <$> states)) :: trace w))
  end.

(** The body of the loop of [Run]. *)
Definition run_once : M unit :=
  ProcessTimers;;
  st ← get_thread;
  let num_handles := u32 (vec_size (wait_many_handles_ st)) in
  c_assert (vec_size (wait_many_signals_ st) =? num_handles);;
  deadline ← WaitDeadline;
  result ← WaitMany (u64 deadline);
  if result =? MOJO_RESULT_DEADLINE_EXCEEDED then mret tt
  else ProcessWaitManyResults result.

Fixpoint Run (fuel : nat) : M unit :=
  match fuel with
  | O => crash OutOfFuel
  | S fuel =>
      st ← get_thread;
      if shutdown_ st then
        MojoClose (control_pipe_consumer_handle_ st);; mret tt
      else run_once;; Run fuel
  end.

(** The constructor and the destructor. *)
Definition HandleWatcherThreadState_new (control_pipe_consumer_handle : Z) : M unit :=
  set_thread (mkThreadState false control_pipe_consumer_handle [] [] [] [] ∅ []);;
  c_assert (negb (control_pipe_consumer_handle =? MOJO_HANDLE_INVALID));;
  AddHandle control_pipe_consumer_handle MOJO_HANDLE_SIGNAL_READABLE ILLEGAL_PORT.

Definition HandleWatcherThreadState_destroy : M unit :=
  st ← get_thread;
  if negb (control_pipe_consumer_handle_ st =? MOJO_HANDLE_INVALID) then
    MojoClose (control_pipe_consumer_handle_ st);;
    set_thread (mkThreadState (shutdown_ st) MOJO_HANDLE_INVALID
      (wait_many_handles_ st) (wait_many_signals_ st) (wait_many_signals_state_ st)
      (handle_ports_ st) (handle_to_index_map_ st) (timers_ st))
  else mret tt.

Definition ThreadMain (fuel : nat) (control_pipe_consumer_handle : Z) : M unit :=
  HandleWatcherThreadState_new control_pipe_consumer_handle;;
  Run fuel;;
  HandleWatcherThreadState_destroy.
End watcher.
