(* ===== verification/HandleWatcherInv.v ===== *)
(** * The tables of the handle watcher

    [watcher_ok]: the four vectors are indexed together, the map is the inverse
    of the vector of handles, the control handle stays first and the timers are
    in order.  Every operation on the tables keeps it, and does to the map
    [watched] from handles to their signals and ports what its name says; the
    vectors and the moves of their last elements do not show. *)
From stdpp Require Import base list numbers option gmap sorting.
From S2P Require Import Prelude MojoResult System Codec WatcherCommand HandleWatcher.

(** ** Removal by moving the last element *)
Definition swap_remove {A} (i : nat) (l : list A) : list A :=
  match last l with
  | Some x => removelast (<[i := x]> l)
  | None => []
  end.

Lemma removelast_take {A} (l : list A) : removelast l = take (pred (length l)) l.
Proof. apply removelast_firstn_len. Qed.

Lemma lookup_swap_remove {A} (l : list A) i j :
  (i < length l)%nat →
  swap_remove i l !! j =
    if decide (j < pred (length l))%nat
    then (if decide (j = i) then l !! pred (length l) else l !! j) else None.
Proof.
  intros Hi. unfold swap_remove. rewrite last_lookup.
  destruct (lookup_lt_is_Some_2 l (pred (length l))) as [x Hx]; [lia|].
  rewrite Hx, removelast_take, length_insert. case_decide as Hj.
  - rewrite lookup_take_lt by done. case_decide as Hij.
    + subst j. by rewrite list_lookup_insert_eq.
    + by rewrite list_lookup_insert_ne.
  - by rewrite lookup_take_ge by lia.
Qed.

Lemma length_swap_remove {A} (l : list A) i :
  length (swap_remove i l) = pred (length l).
Proof.
  unfold swap_remove. destruct (last l) as [x|] eqn:Hl.
  - rewrite removelast_take, length_take, length_insert. lia.
  - apply last_None in Hl. by subst l.
Qed.

(** ** What the thread relies on

    The clock is a 64-bit number of microseconds (time.h).  [commands]: the control
    pipe's messages that were not read yet; whatever happens, it only gets more
    of them.  A thread is commanded over the pipe by valid commands, and the other
    end of the pipe is open for as long as it runs ([HandleWatcher::Stop] closes
    it after the thread has ended). *)
Definition max_millis : Z := (2 ^ 63 - 1) `div` 1000.

Definition valid_command `{!DartApi} (control : Z) (c : HandleWatcherCommand) : Prop :=
  Command.command c = kCommandAddHandle ∧ Command.handle c ≠ MOJO_HANDLE_INVALID ∧
    (Command.handle c ≠ control ∨ Command.port c ≠ ILLEGAL_PORT) ∨
  Command.command c = kCommandRemoveHandle ∧ Command.handle c ≠ control ∨
  Command.command c = kCommandCloseHandle ∧ Command.handle c ≠ control ∨
  Command.command c = kCommandAddTimer ∧ Command.deadline c <= max_millis ∨
  Command.command c = kCommandShutdownHandleWatcher.

Class WatcherLaws (E : Type) `{!DartApi} `{!WatcherEnv E} (control : Z) := {
  commands : E → list HandleWatcherCommand;
  clock : E → Z;   (** microseconds *)
  later : relation E;
  #[global] later_preorder :: PreOrder later;
  later_commands e e' : later e e' → commands e `prefix_of` commands e';
  later_clock e e' : later e e' → clock e <= clock e';
  commands_valid e : Forall (valid_command control) (commands e);
  ticks_law e : let '(t, e') := env_ticks e in
    clock e <= t <= clock e' ∧ 0 <= t < 2 ^ 63 ∧ later e e';
  close_law h e : h ≠ control → later e (env_close h e).2;
  wait_law h s d e : let '(r, e') := env_wait h s d e in
    later e e' ∧ (h = control → r = MOJO_RESULT_OK ∨ r = MOJO_RESULT_DEADLINE_EXCEEDED);
  (** The states are updated or left alone; the pipe is open, and readable only
      when there is a message. *)
  wait_many_law handles signals n d states e :
    match env_wait_many handles signals n d states e with
    | None => True
    | Some (r, states', e') =>
        later e e' ∧ length states' = length states ∧
        (r ≠ MOJO_RESULT_OK ∧ states' = states ∨
         ∀ i ss, handles !! i = Some control → states' !! i = Some ss →
           Z.land (satisfied_signals ss) MOJO_HANDLE_SIGNAL_PEER_CLOSED = 0 ∧
           (Z.land (satisfied_signals ss) MOJO_HANDLE_SIGNAL_READABLE ≠ 0 → commands e' ≠ []))
    end;
  read_law e c cs : commands e = c :: cs →
    ∃ e', env_read control sizeof_HandleWatcherCommand e =
      (MOJO_RESULT_OK, sizeof_HandleWatcherCommand, 0, c, e') ∧
      cs `prefix_of` commands e' ∧ clock e <= clock e';
  post_null_law p e : later e (env_post_null p e);
  post_integer_law p v e : later e (env_post_integer p v e);
}.

(** ** Timers *)
Record timers_ok (timers : list HandleWatcherTimer) : Prop := {
  ok_sorted : StronglySorted (λ t u, tm_deadline t < tm_deadline u) timers;
  ok_timer_ports : NoDup (tm_port <$> timers);
  ok_deadlines t : t ∈ timers → 0 <= tm_deadline t <= max_millis;
}.

(** The ports by their deadlines. *)
Definition alarms_of (timers : list HandleWatcherTimer) : gmap Z Z :=
  list_to_map ((λ t, (tm_deadline t, tm_port t)) <$> timers).

Lemma timers_NoDup timers : timers_ok timers → NoDup (tm_deadline <$> timers).
Proof.
  intros [Hs _ _]. induction Hs as [|t l Hl IH Ht]; cbn; [constructor|].
  constructor; [|done]. intros (u & Hu & Hin)%list_elem_of_fmap.
  rewrite Forall_forall in Ht. specialize (Ht _ Hin). lia.
Qed.

Lemma alarms_lookup timers d p :
  timers_ok timers → alarms_of timers !! d = Some p ↔ mkTimer d p ∈ timers.
Proof.
  intros Hok. unfold alarms_of. rewrite <- elem_of_list_to_map.
  - rewrite list_elem_of_fmap. split; [|by exists (mkTimer d p)].
    by intros ([d' p'] & [= -> ->] & Hin).
  - rewrite <- list_fmap_compose. by apply timers_NoDup.
Qed.

Lemma elem_of_erase_port port timers t :
  NoDup (tm_port <$> timers) →
  t ∈ erase_port port timers ↔ t ∈ timers ∧ tm_port t ≠ port.
Proof.
  induction timers as [|u l IH]; cbn; [set_solver|].
  intros [Hu Hl]%NoDup_cons. destruct (tm_port u =? port) eqn:Hp.
  - apply Z.eqb_eq in Hp. rewrite elem_of_cons. split.
    + intros Hin. split; [by right|]. intros Ht. apply Hu. rewrite Hp, <- Ht.
      by apply list_elem_of_fmap_2.
    + intros [[->|Hin] Hne]; [done|done].
  - apply Z.eqb_neq in Hp. rewrite !elem_of_cons, IH by done. naive_solver.
Qed.

Lemma erase_port_sublist port timers : erase_port port timers `sublist_of` timers.
Proof.
  induction timers as [|t l IH]; cbn; [done|]. case_match; [by constructor|by constructor].
Qed.

Lemma erase_port_ok port timers : timers_ok timers → timers_ok (erase_port port timers).
Proof.
  intros [Hs Hp Hd]. pose proof (erase_port_sublist port timers) as Hsub. split.
  - clear Hp Hd. induction Hsub as [| |t l k Hsub IH]; [done|..].
    + inversion Hs; subst. constructor; [by apply IHHsub|].
      rewrite Forall_forall in *. intros u Hu. eapply H2, elem_of_sublist; [exact Hu|done].
    + inversion Hs; subst. by apply IH.
  - eapply sublist_NoDup; [exact Hp|by apply fmap_sublist].
  - intros t Ht. apply Hd. by eapply elem_of_sublist.
Qed.

Abbreviation timer_insert := (set_insert HandleWatcherTimer_lt).
Abbreviation sorted := (StronglySorted (λ t u, tm_deadline t < tm_deadline u)).

(** A deadline that is in the set already keeps another timer out. *)
Lemma elem_of_set_insert x timers t :
  sorted timers →
  t ∈ timer_insert x timers ↔
    t ∈ timers ∨ t = x ∧ tm_deadline x ∉ tm_deadline <$> timers.
Proof.
  induction 1 as [|u l Hl IH Hu]; cbn; [set_solver|].
  rewrite Forall_forall in Hu. unfold HandleWatcherTimer_lt.
  destruct (tm_deadline x <? tm_deadline u) eqn:Hxu; [|destruct (tm_deadline u <? tm_deadline x) eqn:Hux].
  - apply Z.ltb_lt in Hxu. rewrite !elem_of_cons. split; [|tauto].
    intros [->|[->|Ht]]; [right|by left; left|by left; right]. split; [done|].
    intros [Heq|(v & Heq & Hv)%list_elem_of_fmap]; [lia|]. specialize (Hu _ Hv). lia.
  - apply Z.ltb_lt in Hux. rewrite !elem_of_cons, IH.
    assert (tm_deadline x ≠ tm_deadline u) by lia. naive_solver.
  - apply Z.ltb_ge in Hxu, Hux. rewrite !elem_of_cons. naive_solver lia.
Qed.

Lemma set_insert_sorted x timers : sorted timers → sorted (timer_insert x timers).
Proof.
  induction 1 as [|u l Hl IH Hu]; cbn; [by repeat constructor|].
  destruct (HandleWatcherTimer_lt x u) eqn:Hxu; [|destruct (HandleWatcherTimer_lt u x) eqn:Hux];
    unfold HandleWatcherTimer_lt in Hxu.
  - constructor; [by constructor|]. constructor; [lia|].
    eapply Forall_impl; [exact Hu|]. cbn. lia.
  - constructor; [done|]. apply Forall_forall. intros t.
    rewrite elem_of_set_insert by done. rewrite Forall_forall in Hu.
    unfold HandleWatcherTimer_lt in Hux. intros [Ht|[-> _]]; [by apply Hu|lia].
  - by constructor.
Qed.

Lemma set_insert_ports x timers :
  tm_port x ∉ tm_port <$> timers → NoDup (tm_port <$> timers) →
  NoDup (tm_port <$> timer_insert x timers) ∧
  ∀ p, p ∈ tm_port <$> timer_insert x timers → p = tm_port x ∨ p ∈ tm_port <$> timers.
Proof.
  induction timers as [|u l IH]; cbn; intros Hx Hl; [set_solver by apply NoDup_singleton|].
  apply NoDup_cons in Hl as [Hu Hl]. apply not_elem_of_cons in Hx as [Hxu Hxl].
  destruct (IH Hxl Hl) as [IH1 IH2].
  repeat case_match; cbn; rewrite ?NoDup_cons, ?elem_of_cons in *; [set_solver| |set_solver].
  split; [|set_solver]. split; [|done]. intros [Hxu'|Hin]%IH2; [done|set_solver].
Qed.

Lemma set_insert_ok d p timers :
  timers_ok timers → 0 <= d <= max_millis → p ∉ tm_port <$> timers →
  timers_ok (timer_insert (mkTimer d p) timers).
Proof.
  intros [Hs Hp Hd] Hr Hfresh. split.
  - by apply set_insert_sorted.
  - by apply set_insert_ports.
  - intros t. rewrite elem_of_set_insert by done. intros [Ht|[-> _]]; [by apply Hd|done].
Qed.

(** What [UpdateTimer] does to the set. *)
Definition update_alarms (deadline port : Z) (alarms : gmap Z Z) : gmap Z Z :=
  let kept := filter (λ a, a.2 ≠ port) alarms in
  if deadline <? 0 then kept
  else match kept !! deadline with
       | Some _ => kept
       | None => <[deadline := port]> kept
       end.

Lemma alarms_erase port timers :
  timers_ok timers →
  alarms_of (erase_port port timers) = filter (λ a, a.2 ≠ port) (alarms_of timers).
Proof.
  intros Hok. apply map_eq. intros d. apply option_eq. intros p.
  rewrite map_lookup_filter_Some, !alarms_lookup by (try apply erase_port_ok; done).
  by rewrite elem_of_erase_port by apply Hok.
Qed.

Lemma alarms_insert d p timers :
  timers_ok timers → 0 <= d <= max_millis → p ∉ tm_port <$> timers →
  alarms_of (timer_insert (mkTimer d p) timers) =
    match alarms_of timers !! d with
    | Some _ => alarms_of timers
    | None => <[d := p]> (alarms_of timers)
    end.
Proof.
  intros Hok Hd Hp. apply map_eq. intros d'. apply option_eq. intros p'.
  rewrite alarms_lookup by (by apply set_insert_ok).
  rewrite elem_of_set_insert by apply Hok. cbn.
  assert (Hin : ∀ q, mkTimer d q ∈ timers → d ∈ tm_deadline <$> timers).
  { intros q Hq. by apply (list_elem_of_fmap_2 tm_deadline) in Hq. }
  destruct (alarms_of timers !! d) as [q|] eqn:Hq.
  - apply alarms_lookup, Hin in Hq; [|done]. rewrite alarms_lookup by done. naive_solver.
  - assert (Hno : d ∉ tm_deadline <$> timers).
    { intros (t & -> & Ht)%list_elem_of_fmap. destruct t as [d q].
      apply alarms_lookup in Ht; [|done]. cbn in *. congruence. }
    destruct (decide (d = d')) as [<-|Hne].
    + rewrite lookup_insert_eq. split; [|naive_solver]. intros [Ht%Hin|[[= ->] _]]; done.
    + rewrite lookup_insert_ne, alarms_lookup by done. naive_solver.
Qed.

(** ** The invariant *)
Section invariant.
Context {E : Type} `{!DartApi} `{!WatcherEnv E} (control : Z).
Implicit Types (st : HandleWatcherThreadState) (w : World E).

Record watcher_ok st : Prop := {
  ok_signals : length (wait_many_signals_ st) = length (wait_many_handles_ st);
  ok_states : length (wait_many_signals_state_ st) = length (wait_many_handles_ st);
  ok_ports : length (handle_ports_ st) = length (wait_many_handles_ st);
  ok_index h i : handle_to_index_map_ st !! h = Some i ↔
    0 <= i ∧ wait_many_handles_ st !! Z.to_nat i = Some h;
  ok_valid h : h ∈ wait_many_handles_ st → 0 < h < 2 ^ 32;
  ok_control : wait_many_handles_ st !! 0%nat = Some control;
  ok_control_signals : wait_many_signals_ st !! 0%nat = Some MOJO_HANDLE_SIGNAL_READABLE;
  ok_control_port : handle_ports_ st !! 0%nat = Some ILLEGAL_PORT;
  ok_control_open ss : wait_many_signals_state_ st !! 0%nat = Some ss →
    Z.land (satisfied_signals ss) MOJO_HANDLE_SIGNAL_PEER_CLOSED = 0;
  ok_consumer : control_pipe_consumer_handle_ st = control;
  ok_timers : timers_ok (timers_ st);
}.

(** The handles waited for, with their signals and ports. *)
Definition watched st : gmap Z (Z * Z) :=
  omap (λ i, s ← wait_many_signals_ st !! Z.to_nat i;
             p ← handle_ports_ st !! Z.to_nat i; Some (s, p)) (handle_to_index_map_ st).

Section lookups.
Context st (Hok : watcher_ok st).

Lemma index_of i h :
  wait_many_handles_ st !! i = Some h → handle_to_index_map_ st !! h = Some (Z.of_nat i).
Proof. intros Hi. apply ok_index; [done|]. rewrite Nat2Z.id. split; [lia|done]. Qed.

Lemma handles_inj i j h :
  wait_many_handles_ st !! i = Some h → wait_many_handles_ st !! j = Some h → i = j.
Proof. intros Hi%index_of Hj%index_of. simplify_eq. lia. Qed.

Lemma handles_NoDup : NoDup (wait_many_handles_ st).
Proof. apply NoDup_alt. intros i j h. apply handles_inj. Qed.

(** Fewer than 2^32 handles: they are distinct, and 0 is none. *)
Lemma handles_bound : vec_size (wait_many_handles_ st) < 2 ^ 32.
Proof.
  assert (Hsub : wait_many_handles_ st ⊆+ seqZ 1 (2 ^ 32 - 1)).
  { apply NoDup_submseteq; [apply handles_NoDup|]. intros h Hh%(ok_valid _ Hok).
    apply elem_of_seqZ. lia. }
  apply submseteq_length in Hsub. rewrite length_seqZ in Hsub. unfold vec_size. lia.
Qed.

Lemma map_is_list :
  handle_to_index_map_ st =
    list_to_map (zip (wait_many_handles_ st) (Z.of_nat <$> seq 0 (length (wait_many_handles_ st)))).
Proof.
  assert (Hfst : (zip (wait_many_handles_ st)
    (Z.of_nat <$> seq 0 (length (wait_many_handles_ st)))).*1 = wait_many_handles_ st).
  { apply fst_zip. by rewrite length_fmap, length_seq. }
  apply map_eq. intros h. apply option_eq. intros i.
  rewrite ok_index by done. rewrite <- elem_of_list_to_map by (rewrite Hfst; apply handles_NoDup).
  rewrite list_elem_of_lookup. split.
  - intros [Hi Hh]. exists (Z.to_nat i). apply lookup_zip_Some. split; [done|].
    rewrite list_lookup_fmap, lookup_seq_lt by (by eapply lookup_lt_Some). cbn. f_equal. lia.
  - intros (n & [Hh Hn]%lookup_zip_Some). rewrite list_lookup_fmap in Hn.
    apply fmap_Some in Hn as (m & [-> Hm]%lookup_seq & ->). cbn.
    split; [lia|]. by rewrite Nat2Z.id.
Qed.

Lemma map_size : size (handle_to_index_map_ st) = length (wait_many_handles_ st).
Proof.
  rewrite map_is_list, map_size_list_to_map.
  - rewrite length_zip, length_fmap, length_seq. lia.
  - rewrite fst_zip by (by rewrite length_fmap, length_seq). apply handles_NoDup.
Qed.

Lemma vectors_at i h :
  wait_many_handles_ st !! i = Some h →
  ∃ s ss p, wait_many_signals_ st !! i = Some s ∧ wait_many_signals_state_ st !! i = Some ss ∧
    handle_ports_ st !! i = Some p ∧ watched st !! h = Some (s, p).
Proof.
  intros Hi. pose proof (lookup_lt_Some _ _ _ Hi).
  destruct (lookup_lt_is_Some_2 (wait_many_signals_ st) i) as [s Hs]; [rewrite ok_signals; done|].
  destruct (lookup_lt_is_Some_2 (wait_many_signals_state_ st) i) as [ss Hss];
    [rewrite ok_states; done|].
  destruct (lookup_lt_is_Some_2 (handle_ports_ st) i) as [p Hp]; [rewrite ok_ports; done|].
  exists s, ss, p. split_and!; [done..|]. unfold watched.
  rewrite lookup_omap, (index_of i) by done. cbn. by rewrite Nat2Z.id, Hs, Hp.
Qed.

Lemma watched_lookup h s p :
  watched st !! h = Some (s, p) ↔
  ∃ i, wait_many_handles_ st !! i = Some h ∧ wait_many_signals_ st !! i = Some s ∧
    handle_ports_ st !! i = Some p.
Proof.
  split.
  - unfold watched. rewrite lookup_omap. destruct (handle_to_index_map_ st !! h) as [i|] eqn:Hi; [|done].
    apply ok_index in Hi as [_ Hh]; [|done]. cbn. destruct (vectors_at _ _ Hh) as (s' & _ & p' & Hs & _ & Hp & _).
    rewrite Hs, Hp. cbn. intros [= -> ->]. by exists (Z.to_nat i).
  - intros (i & Hh & Hs & Hp). destruct (vectors_at _ _ Hh) as (s' & ss & p' & Hs' & _ & Hp' & Hw). congruence.
Qed.

Lemma watched_None h : watched st !! h = None ↔ handle_to_index_map_ st !! h = None.
Proof.
  split; intros Hh.
  - destruct (handle_to_index_map_ st !! h) as [i|] eqn:Hi; [|done].
    apply ok_index in Hi as [_ Hi]; [|done]. destruct (vectors_at _ _ Hi) as (? & ? & ? & _ & _ & _ & Hw).
    congruence.
  - unfold watched. by rewrite lookup_omap, Hh.
Qed.
End lookups.

(** ** Removal *)

Definition remove_at (i : nat) (h : Z) st : HandleWatcherThreadState :=
  mkThreadState (shutdown_ st) (control_pipe_consumer_handle_ st)
    (swap_remove i (wait_many_handles_ st)) (swap_remove i (wait_many_signals_ st))
    (swap_remove i (wait_many_signals_state_ st)) (swap_remove i (handle_ports_ st))
    (match last (wait_many_handles_ st) with
     | Some l => if decide (l = h) then delete h (handle_to_index_map_ st)
                 else <[l := Z.of_nat i]> (delete h (handle_to_index_map_ st))
     | None => handle_to_index_map_ st
     end) (timers_ st).

Section removal.
Context st (Hok : watcher_ok st) (i : nat) (h : Z).
Context (Hi : (0 < i)%nat) (Hh : wait_many_handles_ st !! i = Some h).

Lemma remove_at_lookup {A} (l : list A) :
  length l = length (wait_many_handles_ st) → (0 < pred (length l))%nat ∧
  swap_remove i l !! 0%nat = l !! 0%nat.
Proof.
  intros Hl. apply lookup_lt_Some in Hh. rewrite lookup_swap_remove by lia.
  rewrite decide_True, decide_False by lia. split; [lia|done].
Qed.

Lemma remove_at_index h' j :
  handle_to_index_map_ (remove_at i h st) !! h' = Some j ↔
  0 <= j ∧ wait_many_handles_ (remove_at i h st) !! Z.to_nat j = Some h'.
Proof.
  pose proof (lookup_lt_Some _ _ _ Hh) as Hlt.
  cbn. rewrite lookup_swap_remove by done. rewrite last_lookup.
  destruct (lookup_lt_is_Some_2 (wait_many_handles_ st) (pred (length (wait_many_handles_ st))))
    as [l Hl]; [lia|]. rewrite Hl.
  assert (Hother : h' ≠ h → handle_to_index_map_ st !! h' = Some j ↔
    0 <= j ∧ wait_many_handles_ st !! Z.to_nat j = Some h') by (intros _; by apply ok_index).
  pose proof (handles_inj st Hok) as Hinj.
  destruct (decide (l = h)) as [->|Hlh]; [pose proof (Hinj _ _ _ Hl Hh)|].
  - destruct (decide (h' = h)) as [->|Hne].
    + rewrite lookup_delete_eq. split; [done|]. intros [_ Hx]. repeat case_decide; [lia| |done].
      pose proof (Hinj _ _ _ Hx Hh). lia.
    + rewrite lookup_delete_ne, Hother by done. repeat case_decide; try done; [lia|].
      split; [|naive_solver]. intros [Hj Hx]. pose proof (lookup_lt_Some _ _ _ Hx).
      assert (Z.to_nat j ≠ i) by (intros Heq; rewrite Heq in Hx; congruence). lia.
  - assert (Hne : pred (length (wait_many_handles_ st)) ≠ i) by (intros Heq; rewrite Heq in Hl; congruence).
    destruct (decide (h' = l)) as [->|Hnl].
    + rewrite lookup_insert_eq. split.
      * intros [= <-]. rewrite Nat2Z.id, decide_True, decide_True by lia. split; [lia|done].
      * intros [Hj Hx]. repeat case_decide; [f_equal; lia| |done].
        pose proof (Hinj _ _ _ Hx Hl). lia.
    + rewrite lookup_insert_ne by done. destruct (decide (h' = h)) as [->|Hnh].
      * rewrite lookup_delete_eq. split; [done|]. intros [_ Hx]. repeat case_decide; [congruence| |done].
        by pose proof (Hinj _ _ _ Hx Hh).
      * rewrite lookup_delete_ne, Hother by done. repeat case_decide; try done.
        -- split; [|naive_solver]. intros [Hj Hx]. congruence.
        -- split; [|naive_solver]. intros [Hj Hx]. pose proof (lookup_lt_Some _ _ _ Hx).
           assert (Z.to_nat j ≠ pred (length (wait_many_handles_ st)))
             by (intros Heq; rewrite Heq in Hx; congruence). lia.
Qed.

Lemma remove_at_vectors j h' :
  wait_many_handles_ (remove_at i h st) !! j = Some h' →
  ∃ k, wait_many_handles_ st !! k = Some h' ∧ k ≠ i ∧
    wait_many_signals_ (remove_at i h st) !! j = wait_many_signals_ st !! k ∧
    wait_many_signals_state_ (remove_at i h st) !! j = wait_many_signals_state_ st !! k ∧
    handle_ports_ (remove_at i h st) !! j = handle_ports_ st !! k.
Proof.
  pose proof (lookup_lt_Some _ _ _ Hh) as Hlt. destruct Hok. cbn.
  rewrite !lookup_swap_remove by congruence.
  rewrite ok_signals0, ok_states0, ok_ports0. repeat case_decide; [intros Hj..|done].
  - eexists. split; [exact Hj|]. split; [lia|done].
  - by exists j.
Qed.

Lemma remove_at_ok : watcher_ok (remove_at i h st).
Proof.
  destruct Hok. split; cbn.
  - rewrite !length_swap_remove. congruence.
  - rewrite !length_swap_remove. congruence.
  - rewrite !length_swap_remove. congruence.
  - apply remove_at_index.
  - intros h' [j Hj]%list_elem_of_lookup.
    destruct (remove_at_vectors _ _ Hj) as (k & Hk & _). by eapply ok_valid0, list_elem_of_lookup_2.
  - by rewrite (proj2 (remove_at_lookup _ eq_refl)).
  - by rewrite (proj2 (remove_at_lookup (wait_many_signals_ st) ltac:(done))).
  - by rewrite (proj2 (remove_at_lookup (handle_ports_ st) ltac:(done))).
  - by rewrite (proj2 (remove_at_lookup (wait_many_signals_state_ st) ltac:(done))).
  - done.
  - done.
Qed.

Lemma remove_at_watched : watched (remove_at i h st) = delete h (watched st).
Proof.
  pose proof remove_at_ok as Hok'. apply map_eq. intros h'. apply option_eq. intros [s p].
  rewrite watched_lookup by done. split.
  - intros (j & Hj & Hs & Hp). destruct (remove_at_vectors _ _ Hj) as (k & Hk & Hki & Es & _ & Ep).
    rewrite Es in Hs. rewrite Ep in Hp.
    rewrite lookup_delete_ne; [apply watched_lookup; [done|by exists k]|].
    intros <-. by apply Hki, (handles_inj st Hok k i h).
  - destruct (decide (h = h')) as [<-|Hne]; [by rewrite lookup_delete_eq|].
    rewrite lookup_delete_ne by done. intros Hw.
    destruct (handle_to_index_map_ (remove_at i h st) !! h') as [j|] eqn:Hj.
    + apply remove_at_index in Hj as [_ Hj].
      destruct (remove_at_vectors _ _ Hj) as (k & Hk & Hki & Es & _ & Ep).
      apply watched_lookup in Hw as (k' & Hk' & Hs & Hp); [|done].
      rewrite (handles_inj st Hok _ _ _ Hk' Hk) in *.
      exists (Z.to_nat j). by rewrite Es, Ep.
    + exfalso. enough (handle_to_index_map_ st !! h' = None) as Hn
        by (apply watched_None in Hn; [congruence|done]).
      revert Hj. cbn. rewrite last_lookup. case_match; [|done]. case_decide.
      * by rewrite lookup_delete_ne.
      * destruct (decide (z = h')) as [->|]; [by rewrite lookup_insert_eq|].
        by rewrite lookup_insert_ne, lookup_delete_ne.
Qed.
End removal.

(** ** The operations on the tables *)
Ltac execute :=
  unfold mbind, stateR_bind, get_thread, set_thread, mret, stateR_ret, c_assert; cbn.

Lemma vec_at_ok {A} (v : list A) i a w :
  v !! i = Some a → vec_at v (Z.of_nat i) w = Ok (a, w).
Proof. intros Hi. unfold vec_at. rewrite (proj2 (Z.ltb_ge _ _)), Nat2Z.id, Hi by lia. done. Qed.

Lemma vec_set_ok {A} (v : list A) i a w :
  (i < length v)%nat → vec_set v (Z.of_nat i) a w = Ok (<[i := a]> v, w).
Proof.
  intros Hi. unfold vec_set. rewrite (proj2 (Z.ltb_ge _ _)), (proj2 (Z.leb_gt _ _)), Nat2Z.id by lia.
  done.
Qed.

Lemma swap_remove_last {A} (v : list A) i x w :
  last v = Some x → pop_back (<[i := x]> v) w = Ok (swap_remove i v, w).
Proof.
  intros Hx. unfold pop_back, swap_remove. rewrite Hx. destruct v; [done|]. by destruct i.
Qed.

Lemma check_sizes_ok w : watcher_ok (state w) → check_sizes w = Ok (tt, w).
Proof.
  intros Hok. unfold check_sizes, vec_size. execute. rewrite map_size by done.
  by rewrite Z.eqb_refl.
Qed.

Lemma pop_back_last {A} (v : list A) i x w :
  v !! i = Some x → i = pred (length v) → pop_back v w = Ok (swap_remove i v, w).
Proof.
  intros Hx ->. rewrite <- (swap_remove_last v (pred (length v)) x); [|by rewrite last_lookup].
  by rewrite list_insert_id.
Qed.

Lemma store_checked st w :
  watcher_ok st →
  (set_thread st;; c_assert (1 <=? vec_size (wait_many_handles_ st));; check_sizes) w =
    Ok (tt, mkWorld st (env w) (trace w)).
Proof.
  intros Hok. rewrite (bindS_Ok _ _ _ tt (mkWorld st (env w) (trace w))) by done.
  pose proof (lookup_lt_Some _ _ _ (ok_control _ Hok)).
  rewrite (proj2 (Z.leb_le _ _)) by (unfold vec_size; lia).
  rewrite (bindS_Ok _ _ _ tt (mkWorld st (env w) (trace w))) by done. by apply check_sizes_ok.
Qed.

Lemma RemoveHandleAtIndex_ok w i h :
  watcher_ok (state w) → (0 < i)%nat → wait_many_handles_ (state w) !! i = Some h →
  RemoveHandleAtIndex (Z.of_nat i) w =
    Ok (tt, mkWorld (remove_at i h (state w)) (env w) (trace w)).
Proof.
  intros Hok Hi Hh. pose proof (remove_at_ok _ Hok i h Hi Hh) as Hok'.
  pose proof (lookup_lt_Some _ _ _ Hh) as Hlt. destruct w as [st e tr]. cbn in *.
  destruct (vectors_at st Hok _ _ Hh) as (s & ss & p & Hs & Hss & Hp & _).
  destruct (lookup_lt_is_Some_2 (wait_many_handles_ st) (pred (length (wait_many_handles_ st))))
    as [hl Hhl]; [lia|].
  destruct (vectors_at st Hok _ _ Hhl) as (sl & ssl & pl & Hsl & Hssl & Hpl & _).
  assert (Hlast : vec_size (wait_many_handles_ st) - 1 =
    Z.of_nat (pred (length (wait_many_handles_ st)))) by (unfold vec_size; lia).
  unfold RemoveHandleAtIndex. rewrite (proj2 (Z.eqb_neq _ _)) by (unfold CONTROL_HANDLE_INDEX; lia).
  rewrite (bindS_Ok _ _ _ tt (mkWorld st e tr)) by done.
  rewrite (bindS_Ok _ _ _ st (mkWorld st e tr)) by done. cbv zeta. rewrite Hlast.
  erewrite bindS_Ok by (by apply vec_at_ok).
  destruct (decide (i = pred (length (wait_many_handles_ st)))) as [->|Hne].
  - rewrite Z.eqb_refl. cbn [negb]. erewrite bindS_Ok by done. cbv beta iota.
    do 4 (erewrite bindS_Ok by (eapply pop_back_last; [done|by destruct Hok; congruence])).
    replace (delete h _) with (handle_to_index_map_
      (remove_at (pred (length (wait_many_handles_ st))) h st)).
    + by apply (store_checked _ (mkWorld st e tr)) in Hok'.
    + cbn. rewrite last_lookup, Hhl. rewrite Hh in Hhl. injection Hhl as <-. by rewrite decide_True.
  - rewrite (proj2 (Z.eqb_neq _ _)) by lia. cbn [negb].
    erewrite bindS_Ok; cycle 1.
    { do 4 (erewrite bindS_Ok by (by apply vec_at_ok);
        erewrite bindS_Ok by (apply vec_set_ok; destruct Hok; congruence)). done. }
    cbv beta iota.
    do 4 (erewrite bindS_Ok by (apply swap_remove_last; rewrite last_lookup; destruct Hok; congruence)).
    replace (<[hl := _]> _) with (handle_to_index_map_ (remove_at i h st)).
    + by apply (store_checked _ (mkWorld st e tr)) in Hok'.
    + cbn. rewrite last_lookup, Hhl. rewrite decide_False; [done|]. intros ->.
      by apply Hne, (handles_inj st Hok _ _ h).
Qed.
End invariant.
