(* ===== verification/HandleWatcherSpec.v ===== *)
(** * What the handle watcher promises

    [Watcher] is the thread as its clients see it: the handles watched with their
    signals and ports, the alarms, and whether it was told to quit.  [obey] gives
    the meaning of a command, [notified] that of a wait that succeeded, [pruned]
    that of one that failed; each with the posts to the isolate and the handles
    closed.  [watcher_step] says when it does which.  The operations of the thread do
    that, fail no check on the way and keep [watcher_ok]. *)
From stdpp Require Import base list numbers option gmap sorting.
From S2P Require Import Prelude MojoResult System Codec WatcherCommand HandleWatcher HandleWatcherInv.

(** ** The abstract watcher *)
Record Watcher := mkWatcher {
  watch : gmap Z (Z * Z);   (** handle to signals and port *)
  alarms : gmap Z Z;        (** deadline to port *)
  quit : bool;
}.

Section spec.
Context {E : Type} `{!DartApi} `{!WatcherEnv E}.

(** The posts of [PostNull] and [PostSignal]. *)
Definition null_events (port : Z) : list Event :=
  if port =? ILLEGAL_PORT then [] else [PostedNull port].
Definition signal_events (port value : Z) : list Event :=
  if port =? ILLEGAL_PORT then [] else [PostedInteger port value].

Definition with_watch (m : gmap Z (Z * Z)) (a : Watcher) : Watcher :=
  mkWatcher m (alarms a) (quit a).

(** A handle has one port; a second one is told that it is closed. *)
Definition obey_add (handle signals port : Z) (a : Watcher) : Watcher * list Event :=
  match watch a !! handle with
  | None => (with_watch (<[handle := (signals, port)]> (watch a)) a, [])
  | Some (s, p) =>
      if decide (p = port) then
        (with_watch (<[handle := (Z.lor s signals, port)]> (watch a)) a, [])
      else (a, signal_events port MOJO_HANDLE_SIGNAL_PEER_CLOSED)
  end.

Definition obey (c : HandleWatcherCommand) (a : Watcher) : Watcher * list Event :=
  let h := Command.handle c in let p := Command.port c in
  let op := Command.command c in
  if op =? kCommandAddHandle then obey_add h (Command.signals c) p a
  else if op =? kCommandRemoveHandle then (with_watch (delete h (watch a)) a, [])
  else if op =? kCommandCloseHandle then
    (with_watch (delete h (watch a)) a, null_events p ++ [Closed h])
  else if op =? kCommandAddTimer then
    (mkWatcher (watch a) (update_alarms (Command.deadline c) p (alarms a)) (quit a), [])
  else (mkWatcher (watch a) (alarms a) true, []).

(** The handles, but the control handle, of which a signal waited for is satisfied
    as [sat] says; the posts for them, in some order; what is left. *)
Section ready.
Context (control : Z) (sat : Z → Z).

Definition ready (x : Z * (Z * Z)) : Prop :=
  x.1 ≠ control ∧ Z.land (sat x.1) x.2.1 ≠ 0.

#[global] Instance ready_dec x : Decision (ready x).
Proof. unfold ready. apply _. Defined.

Definition ready_event (x : Z * (Z * Z)) : list Event :=
  signal_events x.2.2 (s32 (Z.land (sat x.1) x.2.1)).
Definition ready_events (m : gmap Z (Z * Z)) : list Event :=
  map_to_list (filter ready m) ≫= ready_event.
Definition notified (a : Watcher) : Watcher :=
  with_watch (filter (λ x, ¬ ready x) (watch a)) a.
End ready.

(** The handles, but the control handle, that are [closed] are pruned: the events of
    closing [hs], latest first, and what is left. *)
Section prune.
Context (control : Z) (closed : Z → Prop) `{!∀ h, Decision (closed h)}.

Definition dead (x : Z * (Z * Z)) : Prop := x.1 ≠ control ∧ closed x.1.

#[global] Instance dead_dec x : Decision (dead x).
Proof. unfold dead. apply _. Defined.

Definition dead_handles (m : gmap Z (Z * Z)) : list Z := (map_to_list (filter dead m)).*1.
Definition pruned (a : Watcher) : Watcher := with_watch (filter (λ x, ¬ dead x) (watch a)) a.
End prune.

Definition prune_events (m : gmap Z (Z * Z)) (hs : list Z) : list Event :=
  concat (rev ((λ h, match m !! h with
    | Some (_, p) => signal_events p MOJO_HANDLE_SIGNAL_PEER_CLOSED
    | None => []
    end ++ [Closed h]) <$> hs)).

(** What a list of handles and values says of a handle. *)
Definition said (l : list (Z * Z)) (h : Z) : Z :=
  default 0 ((list_to_map l : gmap Z Z) !! h).

(** A handle of which [MojoWaitMany] reports that its peer is closed, or whose
    [MojoWait] neither succeeds nor times out. *)
Definition peer_closed (signals : Z) : Prop :=
  Z.land signals MOJO_HANDLE_SIGNAL_PEER_CLOSED ≠ 0.
Definition failed (result : Z) : Prop :=
  result ≠ MOJO_RESULT_OK ∧ result ≠ MOJO_RESULT_DEADLINE_EXCEEDED.

#[global] Instance peer_closed_dec signals : Decision (peer_closed signals).
Proof. unfold peer_closed. apply _. Defined.
#[global] Instance failed_dec result : Decision (failed result).
Proof. unfold failed. apply _. Defined.

Definition asked_events (answers : list (Z * Z)) : list Event :=
  rev ((λ x, Waited x.1 x.2) <$> answers).

Definition handles_of (m : gmap Z (Z * Z)) : list Z := (map_to_list m).*1.

(** Where the watcher is in its loop: about to wait, woken up by a wait with what it
    said, or about to obey a command. *)
Inductive Phase :=
| Idle
| Woken (result : Z) (reported : list (Z * Z))
| Obeying.

Definition after_wait (result : Z) (reported : list (Z * Z)) : Phase :=
  if decide (result = MOJO_RESULT_DEADLINE_EXCEEDED) then Idle else Woken result reported.
Definition after_notify (control : Z) (reported : list (Z * Z)) : Phase :=
  if decide (Z.land (said reported control) MOJO_HANDLE_SIGNAL_READABLE = 0) then Idle else Obeying.

(** One thing the watcher does: the command it obeys, if any, and the events,
    latest first.  What it does after a wait follows from what the wait said: after a
    wait that succeeded it notifies the handles that are ready, and obeys a command
    if the control pipe is readable; after one that failed it prunes the handles whose
    peer is reported closed or, if an argument was invalid, asks every handle and
    prunes those of which the answer is a failure. *)
Inductive watcher_step (control : Z) :
    Phase → Watcher → list HandleWatcherCommand → list Event → Phase → Watcher → Prop :=
| step_alarm a d p :
    alarms a !! d = Some p → (∀ d', is_Some (alarms a !! d') → d <= d') →
    watcher_step control Idle a [] (null_events p)
      Idle (mkWatcher (watch a) (delete d (alarms a)) (quit a))
| step_wait a result reported :
    reported.*1 ≡ₚ handles_of (watch a) →
    watcher_step control Idle a [] [WaitedMany result reported] (after_wait result reported) a
| step_notify a reported evs :
    evs ≡ₚ ready_events control (said reported) (watch a) →
    watcher_step control (Woken MOJO_RESULT_OK reported) a [] evs
      (after_notify control reported) (notified control (said reported) a)
| step_command a c :
    valid_command control c →
    watcher_step control Obeying a [c] (obey c a).2 Idle (obey c a).1
| step_prune a result reported hs :
    result ≠ MOJO_RESULT_OK → result ≠ MOJO_RESULT_INVALID_ARGUMENT →
    hs ≡ₚ dead_handles control (λ h, peer_closed (said reported h)) (watch a) →
    watcher_step control (Woken result reported) a [] (prune_events (watch a) hs)
      Idle (pruned control (λ h, peer_closed (said reported h)) a)
| step_ask a reported answers hs :
    answers.*1 ≡ₚ handles_of (watch a) →
    hs ≡ₚ dead_handles control (λ h, failed (said answers h)) (watch a) →
    watcher_step control (Woken MOJO_RESULT_INVALID_ARGUMENT reported) a []
      (prune_events (watch a) hs ++ asked_events answers)
      Idle (pruned control (λ h, failed (said answers h)) a).

Inductive watcher_steps (control : Z) (ph : Phase) (a : Watcher) :
    list HandleWatcherCommand → list Event → Phase → Watcher → Prop :=
| steps_refl : watcher_steps control ph a [] [] ph a
| steps_snoc cs evs ph1 a1 cs' evs' ph2 a2 :
    watcher_steps control ph a cs evs ph1 a1 → watcher_step control ph1 a1 cs' evs' ph2 a2 →
    watcher_steps control ph a (cs ++ cs') (evs' ++ evs) ph2 a2.

Definition abs (st : HandleWatcherThreadState) : Watcher :=
  mkWatcher (watched st) (alarms_of (timers_ st)) (shutdown_ st).
End spec.

Section refinement.
Context {E : Type} `{!DartApi} `{!WatcherEnv E} (control : Z) `{!WatcherLaws E control}.
Implicit Types (w : World E) (a : Watcher) (evs : list Event).

(** From [w] the thread came to [w'], a state of the abstract watcher [a], by the
    events [evs]. *)
Record does w a evs w' : Prop := {
  does_ok : watcher_ok control (state w');
  does_abs : abs (state w') = a;
  does_later : later (env w) (env w');
  does_trace : trace w' = evs ++ trace w;
}.

Definition performs {A} (e : stateR (World E) A) w a evs : Prop :=
  returns (e w) (λ '(_, w'), does w a evs w').

Lemma does_refl w : watcher_ok control (state w) → does w (abs (state w)) [] w.
Proof. by split. Qed.

Lemma does_trans w w1 w2 a1 a2 evs1 evs2 :
  does w a1 evs1 w1 → does w1 a2 evs2 w2 → does w a2 (evs2 ++ evs1) w2.
Proof.
  intros [_ _ Hc1 Ht1] [Hok Ha Hc2 Ht2]. split; [done|done|by etransitivity|].
  by rewrite Ht2, Ht1, app_assoc.
Qed.

Lemma performs_ret {A} (x : A) w :
  watcher_ok control (state w) → performs (mret x) w (abs (state w)) [].
Proof. intros. by apply does_refl. Qed.

Lemma performs_bind {A B} (e : stateR (World E) A) (k : A → stateR (World E) B) w a1 evs1 a2 evs2 :
  performs e w a1 evs1 →
  (∀ x w1, does w a1 evs1 w1 → performs (k x) w1 a2 evs2) →
  performs (e ≫= k) w a2 (evs2 ++ evs1).
Proof.
  intros He Hk. apply returnsS_bind. eapply returns_mono; [exact He|].
  intros [x w1] Hw1. eapply returns_mono; [by apply Hk|]. intros [y w2] Hw2.
  by eapply does_trans.
Qed.

(** The first step only looks at the state. *)
Lemma performs_step {A B} (e : stateR (World E) A) (k : A → stateR (World E) B) w x a evs :
  e w = Ok (x, w) → performs (k x) w a evs → performs (e ≫= k) w a evs.
Proof. intros He Hk. unfold performs. by rewrite (bindS_Ok _ _ _ _ _ He). Qed.

(** The state is replaced. *)
Lemma performs_set st w :
  watcher_ok control st → performs (set_thread st) w (abs st) [].
Proof. by split. Qed.

(** The calls that leave the thread's state alone. *)
Definition quietly {A} (e : stateR (World E) A) w evs (Q : A → Prop) : Prop :=
  returns (e w) (λ '(x, w'), Q x ∧ state w' = state w ∧
    later (env w) (env w') ∧ trace w' = evs ++ trace w).

Lemma quietly_performs {A} (e : stateR (World E) A) w evs Q :
  watcher_ok control (state w) → quietly e w evs Q → performs e w (abs (state w)) evs.
Proof.
  intros Hok He. eapply returns_mono; [exact He|]. intros [x w'] (_ & Hs & Hc & Ht).
  by split; rewrite ?Hs.
Qed.

Lemma performs_after {A B} (e : stateR (World E) A) (k : A → stateR (World E) B) w evs1 Q a evs2 :
  quietly e w evs1 Q →
  (∀ x w1, Q x → state w1 = state w → performs (k x) w1 a evs2) →
  performs (e ≫= k) w a (evs2 ++ evs1).
Proof.
  intros He Hk. apply returnsS_bind. eapply returns_mono; [exact He|].
  intros [x w1] (Hx & Hs & Hc1 & Ht1). eapply returns_mono; [by apply Hk|].
  intros [y w2] [Hok Ha Hc2 Ht2]. split; [done|done|by etransitivity|].
  by rewrite Ht2, Ht1, app_assoc.
Qed.

Lemma quietly_bind {A B} (e : stateR (World E) A) (k : A → stateR (World E) B) w evs1 Q1 evs2 Q2 :
  quietly e w evs1 Q1 →
  (∀ x w1, Q1 x → state w1 = state w → quietly (k x) w1 evs2 Q2) →
  quietly (e ≫= k) w (evs2 ++ evs1) Q2.
Proof.
  intros He Hk. apply returnsS_bind. eapply returns_mono; [exact He|].
  intros [x w1] (Hx & Hs & Hc1 & Ht1). eapply returns_mono; [by apply Hk|].
  intros [y w2] (Hy & Hs2 & Hc2 & Ht2). split_and!; [done|congruence|by etransitivity|].
  by rewrite Ht2, Ht1, app_assoc.
Qed.

Lemma quietly_step {A B} (e : stateR (World E) A) (k : A → stateR (World E) B) w x evs Q :
  e w = Ok (x, w) → quietly (k x) w evs Q → quietly (e ≫= k) w evs Q.
Proof. intros He Hk. unfold quietly. by rewrite (bindS_Ok _ _ _ _ _ He). Qed.

Lemma quietly_ret {A} (x : A) w (Q : A → Prop) : Q x → quietly (mret x) w [] Q.
Proof. by intros; split_and!. Qed.

Lemma quietly_log ev w : quietly (log ev) w [ev] (λ _, True).
Proof. by split_and!. Qed.

Lemma PostNull_quiet port w : quietly (PostNull port) w (null_events port) (λ _, True).
Proof.
  unfold PostNull, null_events. destruct (port =? ILLEGAL_PORT); [by apply quietly_ret|].
  apply (quietly_bind _ _ _ [_] (λ _, True) []); [apply quietly_log|]. intros x w1 _ _.
  split_and!; [done|done|apply post_null_law|done].
Qed.

Lemma PostSignal_quiet port v w : quietly (PostSignal port v) w (signal_events port v) (λ _, True).
Proof.
  unfold PostSignal, signal_events. destruct (port =? ILLEGAL_PORT); [by apply quietly_ret|].
  apply (quietly_bind _ _ _ [_] (λ _, True) []); [apply quietly_log|]. intros x w1 _ _.
  split_and!; [done|done|apply post_integer_law|done].
Qed.

Lemma MojoClose_quiet h w : h ≠ control → quietly (MojoClose h) w [Closed h] (λ _, True).
Proof.
  intros Hh. unfold MojoClose. apply (quietly_bind _ _ _ [_] (λ _, True) []); [apply quietly_log|].
  intros x w1 _ _. unfold quietly, call_env. pose proof (close_law h (env w1) Hh) as Hc.
  destruct (env_close h (env w1)) as [r e]. by split_and!.
Qed.

Lemma index_not_control st h i :
  watcher_ok control st → handle_to_index_map_ st !! h = Some i → h ≠ control →
  0 < i ∧ wait_many_handles_ st !! Z.to_nat i = Some h.
Proof.
  intros Hok Hi Hne. apply (ok_index control) in Hi as [Hi Hh]; [|done]. split; [|done].
  destruct (decide (i = 0)) as [->|]; [|lia].
  rewrite (ok_control control) in Hh by done. congruence.
Qed.

Lemma RemoveHandle_performs h w :
  watcher_ok control (state w) → h ≠ control →
  performs (RemoveHandle h) w (with_watch (delete h (watched (state w))) (abs (state w))) [].
Proof.
  intros Hok Hh. eapply performs_step; [done|].
  destruct (handle_to_index_map_ (state w) !! h) as [i|] eqn:Hi.
  - destruct (index_not_control _ _ _ Hok Hi Hh) as [Hpos Hat].
    rewrite (proj2 (Z.eqb_neq _ _)) by (unfold CONTROL_HANDLE_INDEX; lia).
    eapply performs_step; [done|]. rewrite <- (Z2Nat.id i) by lia. unfold performs.
    rewrite (RemoveHandleAtIndex_ok control _ _ h) by (done || lia).
    split; [apply remove_at_ok; [done|lia|done]| |done|done]. unfold abs, with_watch. cbn.
    f_equal. apply (remove_at_watched control); [done|lia|done].
  - apply (watched_None control) in Hi; [|done]. rewrite delete_id by done. by apply performs_ret.
Qed.

(** *** Adding *)
Definition push_handle (h s p : Z) (st : HandleWatcherThreadState) : HandleWatcherThreadState :=
  mkThreadState (shutdown_ st) (control_pipe_consumer_handle_ st)
    (wait_many_handles_ st ++ [h]) (wait_many_signals_ st ++ [s])
    (wait_many_signals_state_ st ++
       [mkSignalsState MOJO_HANDLE_SIGNAL_NONE MOJO_HANDLE_SIGNAL_NONE]) (handle_ports_ st ++ [p])
    (<[h := vec_size (wait_many_handles_ st)]> (handle_to_index_map_ st)) (timers_ st).

Lemma push_handle_ok h s p st :
  watcher_ok control st → 0 < h < 2 ^ 32 → handle_to_index_map_ st !! h = None →
  watcher_ok control (push_handle h s p st).
Proof.
  intros Hok Hvalid Hnew. pose proof (lookup_lt_Some _ _ _ (ok_control control _ Hok)) as Hlt.
  pose proof (ok_index control st Hok) as Hindex.
  destruct Hok. split; cbn; rewrite ?length_app; cbn; try congruence; try done.
  - intros h' i. destruct (decide (h' = h)) as [->|Hne].
    + rewrite lookup_insert_eq, lookup_app_Some, list_lookup_singleton_Some. unfold vec_size. split.
      * intros [= <-]. split; [lia|]. right. split; [lia|]. split; [lia|done].
      * intros [Hi [Hin|(Hge & H0 & _)]]; [|f_equal; lia].
        rewrite (proj2 (Hindex h i)) in Hnew; [done|]. done.
    + rewrite lookup_insert_ne, Hindex, lookup_app_Some, list_lookup_singleton_Some by done. naive_solver.
  - intros h' [Hin| ->%list_elem_of_singleton]%elem_of_app; auto.
  - by rewrite lookup_app_l.
  - by rewrite lookup_app_l by congruence.
  - by rewrite lookup_app_l by congruence.
  - rewrite lookup_app_l by congruence. done.
Qed.

Lemma push_handle_watched h s p st :
  watcher_ok control st → handle_to_index_map_ st !! h = None →
  watched (push_handle h s p st) = <[h := (s, p)]> (watched st).
Proof.
  intros Hok Hnew. apply map_eq. intros h'. unfold watched. cbn.
  destruct (decide (h' = h)) as [->|Hne].
  - rewrite lookup_insert_eq, lookup_omap, lookup_insert_eq. cbn. unfold vec_size.
    rewrite Nat2Z.id, !lookup_app_r by (destruct Hok; lia).
    destruct Hok. by rewrite ok_signals, ok_ports, Nat.sub_diag.
  - rewrite lookup_insert_ne, !lookup_omap, lookup_insert_ne by done.
    destruct (handle_to_index_map_ st !! h') as [i|] eqn:Hi; [|done]. cbn.
    apply (ok_index control) in Hi as [_ Hi%lookup_lt_Some]; [|done].
    destruct Hok. by rewrite !lookup_app_l by congruence.
Qed.

Definition add_signals (i : nat) (s : Z) (st : HandleWatcherThreadState) : HandleWatcherThreadState :=
  mkThreadState (shutdown_ st) (control_pipe_consumer_handle_ st)
    (wait_many_handles_ st) (<[i := s]> (wait_many_signals_ st))
    (wait_many_signals_state_ st) (handle_ports_ st) (handle_to_index_map_ st) (timers_ st).

Lemma add_signals_ok i s st :
  watcher_ok control st → (0 < i)%nat → watcher_ok control (add_signals i s st).
Proof.
  intros [] Hi. split; cbn; try done; [by rewrite length_insert|].
  rewrite list_lookup_insert_ne; [done|lia].
Qed.

Lemma add_signals_watched i s st h p :
  watcher_ok control st → wait_many_handles_ st !! i = Some h → handle_ports_ st !! i = Some p →
  watched (add_signals i s st) = <[h := (s, p)]> (watched st).
Proof.
  intros Hok Hh Hp. apply map_eq. intros h'. unfold watched. cbn.
  pose proof (lookup_lt_Some _ _ _ Hh) as Hlt.
  destruct (decide (h' = h)) as [->|Hne].
  - rewrite lookup_insert_eq, lookup_omap, (index_of control _ Hok _ _ Hh). cbn.
    rewrite Nat2Z.id, list_lookup_insert_eq, Hp; [done|]. destruct Hok. congruence.
  - rewrite lookup_insert_ne, !lookup_omap by done.
    destruct (handle_to_index_map_ st !! h') as [j|] eqn:Hj; [|done]. cbn.
    apply (ok_index control) in Hj as [_ Hj]; [|done].
    rewrite list_lookup_insert_ne; [done|]. intros ->. congruence.
Qed.

Lemma performs_checked st w :
  watcher_ok control st → performs (set_thread st;; check_sizes) w (abs st) [].
Proof.
  intros Hok. apply (performs_bind _ _ _ (abs st) [] _ []); [by apply performs_set|].
  intros [] w1 Hw1. pose proof (does_abs _ _ _ _ Hw1) as <-. unfold performs.
  rewrite (check_sizes_ok control) by apply Hw1. apply does_refl, Hw1.
Qed.

Lemma AddHandle_performs h s p w :
  watcher_ok control (state w) → 0 < h < 2 ^ 32 → h ≠ control ∨ p ≠ ILLEGAL_PORT →
  performs (AddHandle h s p) w (obey_add h s p (abs (state w))).1
    (obey_add h s p (abs (state w))).2.
Proof.
  intros Hok Hrange Hvalid. eapply performs_step; [done|]. cbv zeta.
  destruct (handle_to_index_map_ (state w) !! h) as [i|] eqn:Hi; unfold obey_add; cbn [watch abs].
  - pose proof Hi as Hh. apply (ok_index control) in Hh as [Hpos Hh]; [|done].
    destruct (vectors_at control _ Hok _ _ Hh) as (s0 & ss & p0 & Hs & _ & Hp & Hw).
    rewrite Hw, <- (Z2Nat.id i) by lia.
    eapply performs_step; [by apply vec_at_ok|]. rewrite Z.eqb_refl.
    eapply performs_step; [done|]. eapply performs_step; [by apply vec_at_ok|].
    case_decide as Hpp.
    + subst p0. rewrite Z.eqb_refl. cbn [negb fst snd].
      assert (Hi0 : (0 < Z.to_nat i)%nat).
      { destruct (decide (i = 0)) as [->|]; [|lia]. change (Z.to_nat 0) with 0%nat in *.
        destruct Hok, Hvalid; congruence. }
      eapply performs_step; [by apply vec_at_ok|].
      eapply performs_step; [by eapply vec_set_ok, lookup_lt_Some|].
      rewrite <- (add_signals_watched (Z.to_nat i)) by done.
      by apply performs_checked, add_signals_ok.
    + rewrite (proj2 (Z.eqb_neq _ _)) by done. by eapply quietly_performs, PostSignal_quiet.
  - rewrite (proj2 (watched_None control _ Hok _)) by done. cbn [fst snd].
    rewrite <- (push_handle_watched h s p) by done.
    by apply performs_checked, push_handle_ok.
Qed.

Lemma close_notice p w :
  quietly (if negb (p =? ILLEGAL_PORT) then PostNull p else mret tt) w (null_events p) (λ _, True).
Proof.
  pose proof (PostNull_quiet p w) as HP. unfold null_events in *.
  destruct (p =? ILLEGAL_PORT); [by apply quietly_ret|done].
Qed.

Lemma CloseHandle_performs h p w :
  watcher_ok control (state w) → h ≠ control →
  performs (CloseHandle h p false) w (with_watch (delete h (watched (state w))) (abs (state w)))
    (null_events p ++ [Closed h]).
Proof.
  intros Hok Hh. do 2 (eapply performs_step; [done|]).
  destruct (handle_to_index_map_ (state w) !! h) as [i|] eqn:Hi;
    (eapply performs_after; [by apply MojoClose_quiet|]; intros _ w1 _ H1).
  - apply (performs_after _ _ _ _ _ _ [] (close_notice p w1)). intros _ w2 _ H2.
    destruct (index_not_control _ _ _ Hok Hi Hh) as [Hpos _].
    rewrite (proj2 (Z.eqb_neq _ _)) by (unfold CONTROL_HANDLE_INDEX; lia).
    do 2 (eapply performs_step; [done|]). rewrite <- H1, <- H2.
    apply RemoveHandle_performs; [congruence|done].
  - apply (watched_None control) in Hi; [|done]. rewrite delete_id by done. rewrite <- H1.
    eapply quietly_performs; [congruence|apply close_notice].
Qed.

(** A handle that is pruned: its port is told. *)
Lemma CloseHandle_prunes h s p w :
  watcher_ok control (state w) → h ≠ control → watched (state w) !! h = Some (s, p) →
  performs (CloseHandle h ILLEGAL_PORT true) w
    (with_watch (delete h (watched (state w))) (abs (state w)))
    (signal_events p MOJO_HANDLE_SIGNAL_PEER_CLOSED ++ [Closed h]).
Proof.
  intros Hok Hh Hw. unfold CloseHandle. rewrite Z.eqb_refl. do 2 (eapply performs_step; [done|]).
  pose proof Hw as (i & Hi & _ & Hp)%(watched_lookup control); [|done].
  rewrite (index_of control _ Hok _ _ Hi).
  destruct (index_not_control _ _ _ Hok (index_of control _ Hok _ _ Hi) Hh) as [Hpos _].
  eapply performs_after; [by apply MojoClose_quiet|]. intros _ w1 _ H1.
  eapply performs_step; [done|].
  rewrite (proj2 (Z.eqb_neq _ _)) by (unfold CONTROL_HANDLE_INDEX; lia).
  eapply performs_step; [done|].
  apply (performs_after _ _ _ (signal_events p MOJO_HANDLE_SIGNAL_PEER_CLOSED) (λ _, True) _ []).
  - eapply quietly_step; [by apply vec_at_ok|apply PostSignal_quiet].
  - intros _ w2 _ H2. rewrite <- H1, <- H2. apply RemoveHandle_performs; [congruence|done].
Qed.

(** *** Timers *)
Definition put_timers (timers : list HandleWatcherTimer) (st : HandleWatcherThreadState)
    : HandleWatcherThreadState :=
  mkThreadState (shutdown_ st) (control_pipe_consumer_handle_ st)
    (wait_many_handles_ st) (wait_many_signals_ st) (wait_many_signals_state_ st)
    (handle_ports_ st) (handle_to_index_map_ st) timers.

Lemma put_timers_ok timers st :
  watcher_ok control st → timers_ok timers → watcher_ok control (put_timers timers st).
Proof. by intros [] ?; split. Qed.

Lemma set_timers_eq timers w :
  set_timers timers w = Ok (tt, mkWorld (put_timers timers (state w)) (env w) (trace w)).
Proof. done. Qed.

Lemma UpdateTimer_performs d p w :
  watcher_ok control (state w) → d <= max_millis →
  performs (UpdateTimer d p) w
    (mkWatcher (watched (state w)) (update_alarms d p (alarms_of (timers_ (state w))))
       (shutdown_ (state w))) [].
Proof.
  intros Hok Hd. unfold performs, UpdateTimer. eapply returnsS_bind. cbn [get_thread returns].
  eapply returnsS_bind. rewrite set_timers_eq. cbn [returns].
  pose proof (ok_timers control _ Hok) as Hts. pose proof (erase_port_ok p _ Hts) as Hts'.
  unfold update_alarms. rewrite <- (alarms_erase p) by done.
  destruct (d <? 0) eqn:Hneg; [by split; [by apply put_timers_ok|..]|].
  eapply returnsS_bind. cbn [get_thread returns]. rewrite set_timers_eq. cbn [returns].
  assert (Hfresh : p ∉ tm_port <$> erase_port p (timers_ (state w))).
  { intros (t & -> & Ht)%list_elem_of_fmap. apply elem_of_erase_port in Ht as [_ ?]; [done|]. apply Hts. }
  rewrite <- alarms_insert by (done || lia). split; [|done..].
  apply put_timers_ok; [by apply put_timers_ok|]. apply set_insert_ok; [done|lia|done].
Qed.

Lemma Shutdown_performs w :
  watcher_ok control (state w) →
  performs Shutdown w (mkWatcher (watched (state w)) (alarms_of (timers_ (state w))) true) [].
Proof. intros []. split; [by split|done..]. Qed.

(** *** Commands *)
Lemma dispatch_command_performs c w :
  watcher_ok control (state w) → valid_command control c →
  performs (dispatch_command c) w (obey c (abs (state w))).1 (obey c (abs (state w))).2.
Proof.
  intros Hok Hvalid. unfold dispatch_command, obey.
  destruct Hvalid as [(Hc & Hne & Hv)|[[Hc Hv]|[[Hc Hv]|[[Hc Hv]|Hc]]]]; rewrite Hc; cbn [Z.eqb].
  - apply AddHandle_performs; [done| |done].
    pose proof (u32_range (handle_or_deadline_ c)). unfold Command.handle, MOJO_HANDLE_INVALID in *. lia.
  - by apply RemoveHandle_performs.
  - by apply CloseHandle_performs.
  - by apply UpdateTimer_performs.
  - by apply Shutdown_performs.
Qed.

(** The next command of the pipe is read and obeyed. *)
Lemma ProcessControlMessage_performs w c cs :
  watcher_ok control (state w) → commands (env w) = c :: cs →
  returns (ProcessControlMessage w) (λ '(_, w'),
    watcher_ok control (state w') ∧ abs (state w') = (obey c (abs (state w))).1 ∧
    cs `prefix_of` commands (env w') ∧ trace w' = (obey c (abs (state w))).2 ++ trace w ∧
    later (env_read control sizeof_HandleWatcherCommand (env w)).2 (env w')).
Proof.
  intros Hok Hcs. pose proof (commands_valid (env w)) as Hvalid. rewrite Hcs in Hvalid.
  apply Forall_cons in Hvalid as [Hvalid _].
  destruct (read_law _ _ _ Hcs) as (e' & Hread & Hprefix & _).
  unfold ProcessControlMessage. eapply returnsS_bind. cbn [get_thread returns].
  rewrite (ok_consumer control) by done. eapply returnsS_bind. unfold call_env. rewrite Hread.
  cbn [returns]. rewrite !Z.eqb_refl. do 3 (eapply returnsS_bind; cbn [c_assert returns mret stateR_ret]).
  eapply returns_mono; [by apply (dispatch_command_performs c (mkWorld (state w) e' (trace w)))|].
  intros [[] w'] [Hok' Ha' Hc' Ht']. split_and!; [done|done| |done|done].
  etransitivity; [exact Hprefix|]. by apply later_commands in Hc'.
Qed.
End refinement.
