(* ===== verification/HandleWatcherWait.v ===== *)
(** * What the handle watcher does after a wait, and its timers

    [ProcessWaitManyResults] notifies the handles that are ready and forgets them,
    then obeys a command; after a wait that failed it closes the handles that are
    dead.  The loops of the code walk the vectors by index, from the end, since
    the removal of a handle moves the last one; the theorems are about the map of
    the handles watched.  [ProcessTimers] fires the timers that are due, in order
    ([fires]), and [WaitDeadline] computes how long to wait for the next. *)
From stdpp Require Import base list numbers option gmap sorting.
From S2P Require Import Prelude MojoResult System Codec WatcherCommand HandleWatcher HandleWatcherInv HandleWatcherSpec.

Lemma NoDup_omap {A B} (f : A → option B) (l : list A) :
  NoDup l → (∀ x y z, x ∈ l → y ∈ l → f x = Some z → f y = Some z → x = y) → NoDup (omap f l).
Proof.
  induction 1 as [|x l Hx Hl IH]; cbn; intros Hinj; [constructor|].
  assert (NoDup (omap f l)) by (apply IH; intros; eapply Hinj; [by right|by right|done|done]).
  destruct (f x) as [z|] eqn:Hz; [|done]. constructor; [|done].
  intros (y & Hy & Hyz)%list_elem_of_omap. apply Hx.
  by rewrite (Hinj x y z) by (done || by left || by right).
Qed.

Section wait.
Context {E : Type} `{!DartApi} `{!WatcherEnv E} (control : Z) `{!WatcherLaws E control}.
Implicit Types (st : HandleWatcherThreadState) (w : World E) (evs : list Event).

(** ** Loops over the handles *)

(** A loop whose body leaves the state alone. *)
Lemma collect_quiet {A B} (l : list A) (body : A → stateR (World E) (option B))
    (f : A → option B) (evs : A → list Event) w :
  (∀ x w1, x ∈ l → state w1 = state w → quietly control (body x) w1 (evs x) (λ r, r = f x)) →
  quietly control (collect l body) w (concat (rev (evs <$> l))) (λ rs, rs = omap f l).
Proof.
  revert w. induction l as [|x l IH]; intros w Hbody; [by apply quietly_ret|].
  cbn. rewrite concat_app. cbn. rewrite app_nil_r.
  eapply quietly_bind; [apply Hbody; [by left|done]|]. intros r w1 -> Hw1.
  rewrite <- (app_nil_l (concat _)). eapply quietly_bind.
  - apply IH. intros y w2 Hy Hw2. apply Hbody; [by right|congruence].
  - intros rs w2 -> _. apply quietly_ret. by destruct (f x).
Qed.

(** ** The vectors at an index *)
Definition awaited_at st (i : Z) : Z :=
  match wait_many_signals_state_ st !! Z.to_nat i, wait_many_signals_ st !! Z.to_nat i with
  | Some ss, Some s => Z.land (satisfied_signals ss) s
  | _, _ => 0
  end.
Definition port_at st (i : Z) : Z := default ILLEGAL_PORT (handle_ports_ st !! Z.to_nat i).

(** The signals of a handle that the last wait found satisfied. *)
Definition satisfied st (h : Z) : Z :=
  match i ← handle_to_index_map_ st !! h; wait_many_signals_state_ st !! Z.to_nat i with
  | Some ss => satisfied_signals ss
  | None => 0
  end.

Lemma row st i :
  watcher_ok control st → 0 <= i < vec_size (wait_many_handles_ st) →
  ∃ h s ss p, wait_many_handles_ st !! Z.to_nat i = Some h ∧
    wait_many_signals_ st !! Z.to_nat i = Some s ∧
    wait_many_signals_state_ st !! Z.to_nat i = Some ss ∧ handle_ports_ st !! Z.to_nat i = Some p ∧
    watched st !! h = Some (s, p) ∧ satisfied st h = satisfied_signals ss.
Proof.
  intros Hok Hi. unfold vec_size in Hi.
  destruct (lookup_lt_is_Some_2 (wait_many_handles_ st) (Z.to_nat i)) as [h Hh]; [lia|].
  destruct (vectors_at control _ Hok _ _ Hh) as (s & ss & p & Hs & Hss & Hp & Hw).
  exists h, s, ss, p. split_and!; [done..|]. unfold satisfied.
  rewrite (index_of control _ Hok _ _ Hh). cbn. by rewrite Nat2Z.id, Hss.
Qed.

Lemma vec_at_Z {A} (v : list A) i a w :
  0 <= i → v !! Z.to_nat i = Some a → vec_at v i w = Ok (a, w).
Proof. intros Hi Ha. rewrite <- (Z2Nat.id i) at 1 by done. by apply vec_at_ok. Qed.

Lemma awaited_eq w i :
  watcher_ok control (state w) → 0 <= i < vec_size (wait_many_handles_ (state w)) →
  awaited i w = Ok (awaited_at (state w) i, w).
Proof.
  intros Hok Hi. destruct (row _ _ Hok Hi) as (h & s & ss & p & Hh & Hs & Hss & Hp & _).
  unfold awaited. rewrite (bindS_Ok _ _ _ (state w) w) by done.
  rewrite (bindS_Ok _ _ _ s w) by (apply vec_at_Z; [lia|done]).
  rewrite (bindS_Ok _ _ _ ss w) by (apply vec_at_Z; [lia|done]).
  unfold awaited_at. by rewrite Hs, Hss.
Qed.

(** ** Removing several handles, from the last to the first *)
Lemma remove_at_below st i h j :
  (i < length (wait_many_handles_ st))%nat → (j < i)%nat →
  wait_many_handles_ (remove_at i h st) !! j = wait_many_handles_ st !! j.
Proof.
  intros Hi Hj. cbn. rewrite lookup_swap_remove by done.
  by rewrite decide_True, decide_False by lia.
Qed.

(** What the removals leave alone. *)
Record shrinks st st' : Prop := {
  shrinks_ok : watcher_ok control st';
  shrinks_timers : timers_ st' = timers_ st;
  shrinks_shutdown : shutdown_ st' = shutdown_ st;
  shrinks_control : wait_many_signals_state_ st' !! 0%nat = wait_many_signals_state_ st !! 0%nat;
}.

Lemma remove_at_shrinks st i h :
  watcher_ok control st → (0 < i)%nat → wait_many_handles_ st !! i = Some h →
  shrinks st (remove_at i h st).
Proof.
  intros Hok Hi Hh. split; [by apply remove_at_ok|done|done|]. cbn.
  pose proof (ok_states control _ Hok). by apply (remove_at_lookup st i h Hi Hh).
Qed.

Lemma remove_all idx w :
  watcher_ok control (state w) → StronglySorted Z.gt idx →
  (∀ i, i ∈ idx → 0 < i < vec_size (wait_many_handles_ (state w))) →
  ∃ st', for_each idx RemoveHandleAtIndex w = Ok (tt, mkWorld st' (env w) (trace w)) ∧
    shrinks (state w) st' ∧
    ∀ h sp, watched st' !! h = Some sp ↔ watched (state w) !! h = Some sp ∧
      ∀ i, i ∈ idx → wait_many_handles_ (state w) !! Z.to_nat i ≠ Some h.
Proof.
  intros Hok Hs. revert w Hok. induction Hs as [|i idx Hs IH Hi]; intros w Hok Hrange.
  { exists (state w). split; [by destruct w|]. split; [by split|]. intros h sp. set_solver. }
  rewrite Forall_forall in Hi.
  assert (0 < i < vec_size (wait_many_handles_ (state w))) as Hi0 by (apply Hrange; by left).
  destruct (row (state w) i Hok ltac:(lia)) as (h & _ & _ & _ & Hh & _).
  set (w1 := mkWorld (remove_at (Z.to_nat i) h (state w)) (env w) (trace w)).
  pose proof (remove_at_shrinks _ (Z.to_nat i) h Hok ltac:(lia) Hh) as Hshrink. unfold vec_size in Hi0.
  destruct (IH w1) as (st' & Hrun & Hsh & Hw).
  - apply Hshrink.
  - intros j Hj. specialize (Hi j Hj). specialize (Hrange j ltac:(by right)).
    unfold vec_size in *. cbn. rewrite length_swap_remove. lia.
  - exists st'. split; [|split].
    + cbn. rewrite <- (Z2Nat.id i) by lia. unfold mbind, stateR_bind.
      by rewrite (RemoveHandleAtIndex_ok control _ _ h) by (done || lia).
    + destruct Hshrink, Hsh. split; [done|etransitivity; done..].
    + intros h' sp. rewrite Hw. cbn [state w1].
      rewrite (remove_at_watched control) by (done || lia).
      assert (Hbelow : ∀ j, j ∈ idx → wait_many_handles_ (remove_at (Z.to_nat i) h (state w)) !! Z.to_nat j
        = wait_many_handles_ (state w) !! Z.to_nat j).
      { intros j Hj. specialize (Hi j Hj). specialize (Hrange j ltac:(by right)).
        apply remove_at_below; lia. }
      destruct (decide (h = h')) as [<-|Hne].
      * rewrite lookup_delete_eq. split; [naive_solver|]. intros [_ Hno].
        exfalso. by apply (Hno i ltac:(by left)).
      * rewrite lookup_delete_ne by done. split.
        -- intros [Hsp Hno]. split; [done|]. intros j [->|Hj]%elem_of_cons; [congruence|].
           rewrite <- Hbelow by done. by apply Hno.
        -- intros [Hsp Hno]. split; [done|]. intros j Hj. rewrite Hbelow by done. apply Hno. by right.
Qed.

(** ** Handles that are ready *)
Definition event_at st (i : Z) : list Event :=
  if awaited_at st i =? 0 then [] else signal_events (port_at st i) (s32 (awaited_at st i)).

Lemma concat_rev_rev {A B} (f : A → list B) (l : list A) :
  concat (rev (f <$> rev l)) = l ≫= f.
Proof.
  induction l as [|x l IH]; [done|]. cbn. rewrite fmap_app, rev_app_distr. cbn. by rewrite IH.
Qed.

Lemma elem_of_downwards n i : i ∈ indices_downwards n ↔ 0 < i < n.
Proof. unfold indices_downwards. rewrite list_elem_of_In, <- in_rev, <- list_elem_of_In, elem_of_seqZ. lia. Qed.

Lemma notify_loop w :
  watcher_ok control (state w) →
  quietly control (collect (indices_downwards (vec_size (wait_many_handles_ (state w)))) (λ i,
      satisfied ← awaited i;
      if negb (satisfied =? 0) then
        p ← vec_at (handle_ports_ (state w)) i; PostSignal p (s32 satisfied);; mret (Some i)
      else mret None)) w
    (seqZ 1 (vec_size (wait_many_handles_ (state w)) - 1) ≫= event_at (state w))
    (λ rs, rs = omap (λ i, if awaited_at (state w) i =? 0 then None else Some i)
       (indices_downwards (vec_size (wait_many_handles_ (state w))))).
Proof.
  intros Hok. rewrite <- concat_rev_rev. apply collect_quiet.
  intros i w1 Hi Hw1. apply elem_of_downwards in Hi.
  eapply quietly_step; [apply awaited_eq; [|rewrite Hw1; lia]; by rewrite Hw1|]. rewrite Hw1.
  unfold event_at. destruct (awaited_at (state w) i =? 0); cbn [negb]; [by apply quietly_ret|].
  destruct (row _ i Hok ltac:(lia)) as (h & s & ss & p & _ & _ & _ & Hp & _).
  eapply quietly_step; [apply vec_at_Z; [lia|done]|]. unfold port_at. rewrite Hp.
  apply (quietly_bind _ _ _ _ _ (λ _, True) []); [apply PostSignal_quiet|].
  intros _ w2 _ _. by apply quietly_ret.
Qed.

(** The rows of the vectors that are ready. *)
Definition ready_row st (i : Z) : option (Z * (Z * Z)) :=
  if awaited_at st i =? 0 then None
  else h ← wait_many_handles_ st !! Z.to_nat i; sp ← watched st !! h; Some (h, sp).

Lemma ready_row_Some st i x :
  watcher_ok control st → 0 < i < vec_size (wait_many_handles_ st) →
  ready_row st i = Some x → wait_many_handles_ st !! Z.to_nat i = Some x.1 ∧
    watched st !! x.1 = Some x.2 ∧ ready control (satisfied st) x ∧ event_at st i = ready_event (satisfied st) x.
Proof.
  intros Hok Hi. destruct (row _ i Hok ltac:(lia)) as (h & s & ss & p & Hh & Hs & Hss & Hp & Hw & Hsat).
  unfold ready_row, event_at, awaited_at, port_at. rewrite Hh, Hs, Hss, Hp. cbn. rewrite Hw. cbn.
  destruct (Z.land (satisfied_signals ss) s =? 0) eqn:Hz; [done|]. intros [= <-]. cbn.
  apply Z.eqb_neq in Hz. unfold ready, ready_event. cbn. rewrite Hsat. split_and!; try done.
  intros ->. pose proof (handles_inj control _ Hok _ 0 _ Hh (ok_control control _ Hok)). lia.
Qed.

Lemma ready_row_None st i : 
  watcher_ok control st → 0 < i < vec_size (wait_many_handles_ st) →
  ready_row st i = None → event_at st i = [].
Proof.
  intros Hok Hi. destruct (row _ i Hok ltac:(lia)) as (h & s & ss & p & Hh & _ & _ & _ & Hw & _).
  unfold ready_row, event_at. rewrite Hh. cbn. rewrite Hw. by destruct (awaited_at st i =? 0).
Qed.

Lemma ready_row_of st x :
  watcher_ok control st → watched st !! x.1 = Some x.2 → ready control (satisfied st) x →
  ∃ i, 0 < i < vec_size (wait_many_handles_ st) ∧ ready_row st i = Some x.
Proof.
  destruct x as [h [s p]]. intros Hok Hw [Hne Hready]. cbn in *.
  pose proof Hw as (n & Hh & Hs & Hp)%(watched_lookup control); [|done].
  pose proof (index_of control _ Hok _ _ Hh) as Hi.
  destruct (index_not_control control _ _ _ Hok Hi Hne) as [Hpos _].
  apply lookup_lt_Some in Hh as Hlt. exists (Z.of_nat n). unfold vec_size. split; [lia|].
  destruct (vectors_at control _ Hok _ _ Hh) as (_ & ss & _ & _ & Hss & _).
  unfold satisfied in Hready. rewrite Hi in Hready. cbn in Hready. rewrite Nat2Z.id, Hss in Hready.
  unfold ready_row, awaited_at. rewrite Nat2Z.id, Hs, Hss, Hh. cbn. rewrite Hw. cbn.
  by rewrite (proj2 (Z.eqb_neq _ _)).
Qed.

Lemma ready_rows_Permutation st :
  watcher_ok control st →
  omap (ready_row st) (seqZ 1 (vec_size (wait_many_handles_ st) - 1))
    ≡ₚ map_to_list (filter (ready control (satisfied st)) (watched st)).
Proof.
  intros Hok. apply NoDup_Permutation.
  - apply NoDup_omap; [apply NoDup_seqZ|]. intros i j x Hi Hj Hx Hy.
    apply elem_of_seqZ in Hi, Hj. apply ready_row_Some in Hx as [Hx _], Hy as [Hy _]; [|done|lia|done|lia].
    pose proof (handles_inj control _ Hok _ _ _ Hx Hy). lia.
  - apply NoDup_map_to_list.
  - intros [h sp]. rewrite list_elem_of_omap, elem_of_map_to_list, map_lookup_filter_Some. split.
    + intros (i & Hi%elem_of_seqZ & Hx). apply ready_row_Some in Hx as (_ & Hw & Hr & _); [done|done|lia].
    + intros [Hw Hr]. destruct (ready_row_of st (h, sp) Hok Hw Hr) as (i & Hi & Hx).
      exists i. split; [apply elem_of_seqZ; lia|done].
Qed.

Lemma ready_events_Permutation st :
  watcher_ok control st →
  seqZ 1 (vec_size (wait_many_handles_ st) - 1) ≫= event_at st ≡ₚ ready_events control (satisfied st) (watched st).
Proof.
  intros Hok. unfold ready_events. rewrite <- ready_rows_Permutation by done.
  enough (seqZ 1 (vec_size (wait_many_handles_ st) - 1) ≫= event_at st =
    omap (ready_row st) (seqZ 1 (vec_size (wait_many_handles_ st) - 1)) ≫= ready_event (satisfied st)) as -> by done.
  assert (Hr : ∀ i, i ∈ seqZ 1 (vec_size (wait_many_handles_ st) - 1) →
    0 < i < vec_size (wait_many_handles_ st)) by (intros i Hi%elem_of_seqZ; lia).
  induction (seqZ 1 _) as [|i l IH]; [done|]. cbn.
  rewrite IH by (intros j Hj; apply Hr; by right). specialize (Hr i ltac:(by left)).
  destruct (ready_row st i) as [x|] eqn:Hx; cbn.
  - f_equal. by apply ready_row_Some in Hx as (_ & _ & _ & ?).
  - by rewrite (ready_row_None st i Hok Hr Hx).
Qed.

(** *** Notifying *)

Definition awaited_index st (i : Z) : option Z :=
  if awaited_at st i =? 0 then None else Some i.
Definition to_remove st : list Z :=
  omap (awaited_index st) (indices_downwards (vec_size (wait_many_handles_ st))).

Lemma awaited_index_Some st i j : awaited_index st i = Some j → j = i.
Proof. unfold awaited_index. case_match; [done|]. by intros [= ->]. Qed.

Lemma elem_of_to_remove st i :
  i ∈ to_remove st ↔ 0 < i < vec_size (wait_many_handles_ st) ∧ awaited_at st i ≠ 0.
Proof.
  unfold to_remove, awaited_index. rewrite list_elem_of_omap. setoid_rewrite elem_of_downwards. split.
  - intros (j & Hj & Hx). destruct (awaited_at st j =? 0) eqn:Hz; [done|]. injection Hx as ->. lia.
  - intros [Hi Hz]. exists i. by rewrite (proj2 (Z.eqb_neq _ _)).
Qed.

Lemma downwards_sorted n : StronglySorted Z.gt (indices_downwards n).
Proof.
  unfold indices_downwards. remember (Z.to_nat (n - 1)) as k eqn:Hk.
  destruct (decide (0 <= n - 1)) as [Hn|Hn]; [|by rewrite seqZ_nil by lia; constructor].
  rewrite <- (Z2Nat.id (n - 1)), <- Hk by done. clear. induction k as [|k IH]; [constructor|].
  rewrite seqZ_S, rev_app_distr. cbn. constructor; [done|]. apply Forall_forall. intros i.
  rewrite list_elem_of_In, <- in_rev, <- list_elem_of_In, elem_of_seqZ. lia.
Qed.

Lemma to_remove_sorted st : StronglySorted Z.gt (to_remove st).
Proof.
  unfold to_remove. induction (downwards_sorted (vec_size (wait_many_handles_ st))) as [|i l Hl IH Hi];
    [constructor|]. cbn. destruct (awaited_index st i) as [j|] eqn:Hj; [|done].
  apply awaited_index_Some in Hj as ->. constructor; [done|]. rewrite Forall_forall in *.
  intros j (k & Hk & ->%awaited_index_Some)%list_elem_of_omap. by apply Hi.
Qed.

Lemma not_ready_kept st h sp :
  watcher_ok control st → watched st !! h = Some sp →
  (∀ i, i ∈ to_remove st → wait_many_handles_ st !! Z.to_nat i ≠ Some h) ↔ ¬ ready control (satisfied st) (h, sp).
Proof.
  intros Hok Hsp. split.
  - intros Hno Hr. destruct (ready_row_of st (h, sp) Hok Hsp Hr) as (i & Hi & Hx).
    apply (Hno i); [|by apply ready_row_Some in Hx as [? _]].
    apply elem_of_to_remove. split; [done|]. intros Hz. unfold ready_row in Hx.
    by rewrite (proj2 (Z.eqb_eq _ _) Hz) in Hx.
  - intros Hnr i [Hi Hz]%elem_of_to_remove Hh. apply Hnr.
    assert (Hx : ready_row st i = Some (h, sp)).
    { unfold ready_row. rewrite (proj2 (Z.eqb_neq _ _)), Hh by done. cbn. by rewrite Hsp. }
    by apply ready_row_Some in Hx as (_ & _ & ? & _).
Qed.

(** The loops of [ProcessWaitManyResults] before the control message. *)
Lemma notify_removes {B} w (k : unit → stateR (World E) B) Q :
  watcher_ok control (state w) →
  (∀ w', shrinks (state w) (state w') → later (env w) (env w') →
    watched (state w') = filter (λ x, ¬ ready control (satisfied (state w)) x) (watched (state w)) →
    (∃ evs, evs ≡ₚ ready_events control (satisfied (state w)) (watched (state w)) ∧ trace w' = evs ++ trace w) →
    returns (k tt w') Q) →
  returns ((collect (indices_downwards (vec_size (wait_many_handles_ (state w)))) (λ i,
      satisfied ← awaited i;
      if negb (satisfied =? 0) then
        p ← vec_at (handle_ports_ (state w)) i; PostSignal p (s32 satisfied);; mret (Some i)
      else mret None) ≫= λ to_remove, for_each to_remove RemoveHandleAtIndex ≫= k) w) Q.
Proof.
  intros Hok Hk. eapply returnsS_bind, returns_mono; [by apply notify_loop|].
  intros [idx w1] (Hidx & Hs1 & Hl1 & Ht1). change (idx = to_remove (state w)) in Hidx. subst idx.
  destruct (remove_all (to_remove (state w)) w1) as (st' & Hrun & Hsh & Hw).
  { by rewrite Hs1. }
  { apply to_remove_sorted. }
  { rewrite Hs1. by intros i [? _]%elem_of_to_remove. }
  rewrite (bindS_Ok _ _ _ _ _ Hrun). rewrite Hs1 in *. apply Hk; cbn; [done|done| |].
  - apply map_eq. intros h. apply option_eq. intros sp. rewrite Hw, map_lookup_filter_Some.
    split; (intros [Hsp Hx]; split; [done|]; revert Hx; by apply not_ready_kept).
  - eexists. split; [by apply ready_events_Permutation|done].
Qed.

Lemma control_row st :
  watcher_ok control st → 0 < vec_size (wait_many_handles_ st) ∧
  ∃ ss, wait_many_signals_state_ st !! 0%nat = Some ss ∧ satisfied st control = satisfied_signals ss.
Proof.
  intros Hok. pose proof (lookup_lt_Some _ _ _ (ok_control control _ Hok)) as Hlt.
  assert (H0 : 0 < vec_size (wait_many_handles_ st)) by (unfold vec_size; lia). split; [done|].
  destruct (row st 0 Hok ltac:(lia)) as (h & s & ss & p & Hh & _ & Hss & _ & _ & Hsat).
  change (Z.to_nat 0) with 0%nat in *. pose proof (ok_control control _ Hok) as Hc.
  rewrite Hc in Hh. injection Hh as <-. by exists ss.
Qed.

Lemma awaited_control w w' :
  watcher_ok control (state w) → shrinks (state w) (state w') →
  awaited CONTROL_HANDLE_INDEX w' =
    Ok (Z.land (satisfied (state w) control) MOJO_HANDLE_SIGNAL_READABLE, w').
Proof.
  intros Hok Hsh. pose proof (shrinks_ok _ _ Hsh) as Hok'.
  destruct (control_row _ Hok) as (_ & ss & Hss & ->).
  destruct (control_row _ Hok') as (Hpos & _). unfold CONTROL_HANDLE_INDEX.
  rewrite awaited_eq by (done || lia). unfold awaited_at. change (Z.to_nat 0) with 0%nat.
  by rewrite (shrinks_control _ _ Hsh), Hss, (ok_control_signals control _ Hok').
Qed.

Lemma ProcessWaitManyResults_ok w :
  watcher_ok control (state w) →
  (Z.land (satisfied (state w) control) MOJO_HANDLE_SIGNAL_READABLE ≠ 0 → commands (env w) ≠ []) →
  returns (ProcessWaitManyResults MOJO_RESULT_OK w) (λ '(_, w'), watcher_ok control (state w') ∧
    ∃ evs, evs ≡ₚ ready_events control (satisfied (state w)) (watched (state w)) ∧
    if decide (Z.land (satisfied (state w) control) MOJO_HANDLE_SIGNAL_READABLE = 0)
    then abs (state w') = notified control (satisfied (state w)) (abs (state w)) ∧ later (env w) (env w') ∧ trace w' = evs ++ trace w
    else ∃ c cs, commands (env w) = c :: cs ∧ cs `prefix_of` commands (env w') ∧
      (∃ e, later (env w) e ∧ later (env_read control sizeof_HandleWatcherCommand e).2 (env w')) ∧
      abs (state w') = (obey c (notified control (satisfied (state w)) (abs (state w)))).1 ∧
      trace w' = (obey c (notified control (satisfied (state w)) (abs (state w)))).2 ++ evs ++ trace w).
Proof.
  intros Hok Hpending. unfold ProcessWaitManyResults.
  rewrite (bindS_Ok _ _ _ tt w), Z.eqb_refl by done. cbn [negb].
  rewrite (bindS_Ok _ _ _ tt w) by done. rewrite (bindS_Ok _ _ _ (state w) w) by done.
  apply notify_removes; [done|]. intros w1 Hsh Hl1 Hw1 (evs & Hevs & Ht1).
  pose proof (shrinks_ok _ _ Hsh) as Hok1.
  assert (Habs : abs (state w1) = notified control (satisfied (state w)) (abs (state w))).
  { unfold abs, notified, with_watch. cbn.
    by rewrite Hw1, (shrinks_timers _ _ Hsh), (shrinks_shutdown _ _ Hsh). }
  rewrite (bindS_Ok _ _ _ _ _ (awaited_control _ _ Hok Hsh)). case_decide as Hc.
  - rewrite Hc. cbn. split; [done|]. by exists evs.
  - rewrite (proj2 (Z.eqb_neq _ _)) by done. cbn [negb].
    destruct (commands (env w)) as [|c cs] eqn:Hcs; [by specialize (Hpending Hc)|].
    pose proof (later_commands _ _ Hl1) as [more Hmore]. rewrite Hcs in Hmore. cbn in Hmore.
    eapply returns_mono; [by apply (ProcessControlMessage_performs control w1 c)|].
    intros [[] w'] (Hok' & Ha' & Hc' & Ht' & Hl'). split; [done|]. exists evs. split; [done|].
    exists c, cs. split; [done|]. rewrite Habs in *. rewrite Ht1 in Ht'. split_and!; try done.
    + etransitivity; [|exact Hc']. by exists more.
    + by exists (env w1).
Qed.
End wait.

Section timers.
Context {E : Type} `{!DartApi} `{!WatcherEnv E} (control : Z) `{!WatcherLaws E control}.
Implicit Types (w : World E) (evs : list Event).

(** ** Timers *)

(** [MojoTimeTicks] to Dart's milliseconds. *)
Definition millis (t : Z) : Z := Z.quot t 1000.

(** The posts of the timers [fired], latest first. *)
Definition fired_events (fired : list HandleWatcherTimer) : list Event :=
  concat (rev ((λ t, null_events (tm_port t)) <$> fired)).

Lemma fired_events_cons t fired :
  fired_events (t :: fired) = fired_events fired ++ null_events (tm_port t).
Proof. unfold fired_events. cbn. rewrite concat_app. cbn. by rewrite app_nil_r. Qed.

Lemma GetDartTimeInMillis_law w :
  returns (GetDartTimeInMillis w) (λ '(now, w'), state w' = state w ∧ trace w' = trace w ∧
    later (env w) (env w') ∧ millis (clock (env w)) <= now <= millis (clock (env w')) ∧
    0 <= now <= max_millis).
Proof.
  unfold GetDartTimeInMillis, call_env. eapply returnsS_bind. pose proof (ticks_law (env w)) as Ht.
  destruct (env_ticks (env w)) as [t e]. destruct Ht as (Hc & Hr & Hl). cbn.
  unfold millis, max_millis. split_and!; try done; try (apply Z.quot_le_mono; lia);
    [apply Z.quot_pos; lia|]. rewrite <- Z.quot_div_nonneg by lia. apply Z.quot_le_mono; lia.
Qed.

(** Of the timers [timers], [fired] did fire between [start] and the end, and [rest]
    is left. *)
Record fires (start : Z) (fired rest : list HandleWatcherTimer) w w' : Prop := {
  fires_split : timers_ (state w) = fired ++ rest;
  fires_state : state w' = put_timers rest (state w);
  fires_trace : trace w' = fired_events fired ++ trace w;
  fires_later : later (env w) (env w');
  fires_due t : t ∈ fired → tm_deadline t <= millis (clock (env w'));
  fires_rest t : t ∈ rest → start < tm_deadline t;
}.

Lemma millis_mono t u : t <= u → millis t <= millis u.
Proof. intros. apply Z.quot_le_mono; lia. Qed.

Lemma HasTimers_eq w :
  HasTimers w = Ok (negb (bool_decide (timers_ (state w) = [])), w).
Proof. done. Qed.

Lemma NextTimerDeadline_eq w t rest :
  timers_ (state w) = t :: rest → NextTimerDeadline w = Ok (tm_deadline t, w).
Proof. intros Hts. unfold NextTimerDeadline. rewrite (bindS_Ok _ _ _ (state w) w) by done. by rewrite Hts. Qed.

Lemma CompleteNextTimer_fires w t rest :
  timers_ (state w) = t :: rest →
  returns (CompleteNextTimer w) (λ '(_, w'), state w' = put_timers rest (state w) ∧
    trace w' = null_events (tm_port t) ++ trace w ∧ later (env w) (env w')).
Proof.
  intros Hts. unfold CompleteNextTimer. eapply returnsS_bind. cbn. rewrite Hts.
  eapply returnsS_bind, returns_mono; [apply (PostNull_quiet control)|].
  intros [[] w1] (_ & Hs & Hl & Ht). rewrite set_timers_eq. cbn. by rewrite Hs.
Qed.

Lemma complete_timers_fires fuel now w :
  sorted (timers_ (state w)) → (length (timers_ (state w)) < fuel)%nat →
  now <= millis (clock (env w)) →
  returns (complete_timers fuel now w) (λ '(_, w'), ∃ fired rest, fires now fired rest w w').
Proof.
  revert now w. induction fuel as [|fuel IH]; intros now w Hsorted Hfuel Hnow; [lia|].
  cbn [complete_timers]. rewrite (bindS_Ok _ _ _ _ _ (HasTimers_eq w)).
  destruct (timers_ (state w)) as [|t rest] eqn:Hts; cbn [bool_decide negb list_eq_nil_dec]; cbn.
  { exists [], []. split; cbn; try done; [by destruct w as [[] ? ?]; cbn in *; subst|set_solver..]. }
  rewrite (bindS_Ok _ _ _ _ _ (NextTimerDeadline_eq w t rest Hts)).
  inversion Hsorted as [|? ? Hrest Ht]; subst. rewrite Forall_forall in Ht.
  destruct (tm_deadline t <=? now) eqn:Hdue.
  - eapply returnsS_bind, returns_mono; [by apply (CompleteNextTimer_fires w t rest)|].
    intros [[] w1] (Hs1 & Ht1 & Hl1). eapply returnsS_bind, returns_mono; [apply GetDartTimeInMillis_law|].
    intros [now' w2] (Hs2 & Ht2 & Hl2 & [Hlo Hhi] & _).
    assert (Htimers : timers_ (state w2) = rest) by (by rewrite Hs2, Hs1).
    eapply returns_mono; [apply (IH now' w2); rewrite ?Htimers; [done|cbn in Hfuel; lia|done]|].
    intros [[] w3] (fired & rest' & [Hsplit Hs3 Ht3 Hl3 Hdue3 Hrest3]).
    apply later_clock in Hl1 as Hc1. apply later_clock in Hl2 as Hc2. apply later_clock in Hl3 as Hc3.
    exists (t :: fired), rest'. split.
    + cbn. by rewrite <- Hsplit, Htimers.
    + by rewrite Hs3, Hs2, Hs1.
    + by rewrite Ht3, Ht2, Ht1, fired_events_cons, app_assoc.
    + by rewrite Hl1, Hl2.
    + intros u [->|Hu]%elem_of_cons; [|by apply Hdue3].
      pose proof (millis_mono _ _ Hc1). pose proof (millis_mono _ _ Hc2).
      pose proof (millis_mono _ _ Hc3). lia.
    + intros u Hu. specialize (Hrest3 u Hu). pose proof (millis_mono _ _ Hc1). lia.
  - cbn. exists [], (t :: rest). split; cbn; try done; [by destruct w as [[] ? ?]; cbn in *; subst|set_solver|].
    intros u [->|Hu]%elem_of_cons; [lia|]. specialize (Ht u Hu). cbn in Ht. lia.
Qed.

Lemma timers_ok_suffix fired rest : timers_ok (fired ++ rest) → timers_ok rest.
Proof.
  intros [Hs Hp Hd]. split.
  - by apply StronglySorted_app in Hs as (_ & _ & ?).
  - rewrite fmap_app in Hp. by apply NoDup_app in Hp as (_ & _ & ?).
  - intros t Ht. apply Hd, elem_of_app. by right.
Qed.

Lemma fires_ok start fired rest w w' :
  watcher_ok control (state w) → fires start fired rest w w' → watcher_ok control (state w').
Proof.
  intros Hok [Hsplit Hst _ _ _ _]. rewrite Hst. apply put_timers_ok; [done|].
  eapply timers_ok_suffix. rewrite <- Hsplit. by eapply ok_timers.
Qed.

Lemma ProcessTimers_fires w :
  watcher_ok control (state w) →
  returns (ProcessTimers w) (λ '(_, w'), watcher_ok control (state w') ∧
    ∃ fired rest, fires (millis (clock (env w))) fired rest w w').
Proof.
  intros Hok. eapply returnsS_bind, returns_mono; [apply GetDartTimeInMillis_law|].
  intros [now w1] (Hs1 & Ht1 & Hl1 & [Hlo Hhi] & _).
  rewrite (bindS_Ok _ _ _ (state w1) w1) by done. eapply returns_mono.
  { apply complete_timers_fires; [|lia|done]. rewrite Hs1. by apply (ok_timers control). }
  intros [[] w'] (fired & rest & Hf).
  assert (Hf' : fires (millis (clock (env w))) fired rest w w').
  { destruct Hf as [Hsplit Hst Htr Hl Hdue Hrest]. split.
    - by rewrite <- Hs1.
    - by rewrite Hst, Hs1.
    - by rewrite Htr, Ht1.
    - by etransitivity.
    - done.
    - intros t Ht. specialize (Hrest t Ht). lia. }
  split; [by eapply fires_ok|by exists fired, rest].
Qed.

(** The deadline of the wait, in microseconds. *)
Lemma WaitDeadline_quiet w :
  watcher_ok control (state w) →
  quietly control (WaitDeadline) w [] (λ d,
    match timers_ (state w) with
    | [] => d = -1
    | t :: _ => ∃ now, d = (tm_deadline t - now) * 1000 ∧ millis (clock (env w)) <= now
    end).
Proof.
  intros Hok. eapply quietly_step; [apply HasTimers_eq|].
  destruct (timers_ (state w)) as [|t rest] eqn:Hts; cbn; [by apply quietly_ret|].
  eapply returnsS_bind, returns_mono; [apply GetDartTimeInMillis_law|].
  intros [now w1] (Hs1 & Ht1 & Hl1 & [Hlo Hhi] & Hnow).
  pose proof (ok_timers control _ Hok) as Hto. rewrite Hts in Hto.
  assert (Hd : 0 <= tm_deadline t <= max_millis) by (apply Hto; by left).
  rewrite (bindS_Ok _ _ _ _ _ (NextTimerDeadline_eq w1 t rest ltac:(by rewrite Hs1))).
  change max_millis with 9223372036854775 in *.
  assert (Hint : ∀ z, - 2 ^ 63 <= z < 2 ^ 63 → int64 z w1 = Ok (z, w1)).
  { intros z Hz. unfold int64. by rewrite (proj2 (Z.leb_le _ _)), (proj2 (Z.ltb_lt _ _)) by lia. }
  rewrite (bindS_Ok _ _ _ _ _ (Hint (tm_deadline t - now) ltac:(lia))), Hint by lia.
  cbn. split_and!; [by exists now|done|done|done].
Qed.

End timers.
