(* ===== verification/HandleWatcherPrune.v ===== *)
(** * How the handle watcher prunes

    After a wait that failed [PruneClosedHandles] closes the handles whose peer the
    wait reports closed or, if the wait refused an argument, those that [MojoWait]
    refuses when it asks for each: these handles, all of them and no others. *)
From stdpp Require Import base list numbers option gmap sorting.
From S2P Require Import Prelude MojoResult System Codec WatcherCommand HandleWatcher HandleWatcherInv HandleWatcherSpec HandleWatcherWait.

Section prune.
Context {E : Type} `{!DartApi} `{!WatcherEnv E} (control : Z) `{!WatcherLaws E control}.
Implicit Types (st : HandleWatcherThreadState) (w : World E) (evs : list Event).

(** ** What the waits say *)
Definition reported st : list (Z * Z) :=
  zip (wait_many_handles_ st) (satisfied_signals <$> wait_many_signals_state_ st).

Lemma reported_fst st : watcher_ok control st → (reported st).*1 = wait_many_handles_ st.
Proof.
  intros Hok. apply fst_zip. rewrite length_fmap. pose proof (ok_states control _ Hok). lia.
Qed.

Lemma elem_of_handles_of (m : gmap Z (Z * Z)) h : h ∈ handles_of m ↔ is_Some (m !! h).
Proof.
  unfold handles_of. rewrite list_elem_of_fmap. split.
  - intros ([h' sp] & -> & Hin%elem_of_map_to_list). by exists sp.
  - intros [sp Hsp]. exists (h, sp). split; [done|]. by apply elem_of_map_to_list.
Qed.

Lemma elem_of_handles st h :
  watcher_ok control st → h ∈ wait_many_handles_ st ↔ is_Some (watched st !! h).
Proof.
  intros Hok. rewrite list_elem_of_lookup. split.
  - intros [i Hi]. destruct (vectors_at control _ Hok _ _ Hi) as (s & _ & p & _ & _ & _ & Hw).
    by exists (s, p).
  - intros [[s p] (i & Hi & _)%(watched_lookup control)]; [|done]. by exists i.
Qed.

Lemma handles_watched st :
  watcher_ok control st → wait_many_handles_ st ≡ₚ handles_of (watched st).
Proof.
  intros Hok. apply NoDup_Permutation; [by apply handles_NoDup in Hok|apply NoDup_fst_map_to_list|].
  intros h. by rewrite elem_of_handles_of, elem_of_handles.
Qed.

Lemma said_elem l h v : NoDup l.*1 → (h, v) ∈ l → said l h = v.
Proof. intros Hnd Hin. unfold said. by rewrite (proj1 (elem_of_list_to_map l h v Hnd) Hin). Qed.

(** The report gives the signals that the vectors give. *)
Lemma said_reported st h :
  watcher_ok control st → is_Some (watched st !! h) → said (reported st) h = satisfied st h.
Proof.
  intros Hok [i Hi]%elem_of_handles%list_elem_of_lookup; [|done].
  destruct (vectors_at control _ Hok _ _ Hi) as (s & ss & p & _ & Hss & _).
  unfold satisfied. rewrite (index_of control _ Hok _ _ Hi). cbn. rewrite Nat2Z.id, Hss.
  apply said_elem; [rewrite reported_fst by done; by apply handles_NoDup in Hok|].
  apply (list_elem_of_lookup_2 _ i), lookup_zip_Some. split; [done|].
  by rewrite list_lookup_fmap, Hss.
Qed.

Lemma ready_reported st x :
  watcher_ok control st → watched st !! x.1 = Some x.2 →
  ready control (said (reported st)) x ↔ ready control (satisfied st) x.
Proof. intros Hok Hx. unfold ready. by rewrite said_reported by (done || by eexists). Qed.

(** ** Pruning *)
Lemma elem_of_dead_handles (closed : Z → Prop) `{!∀ h, Decision (closed h)} m h :
  h ∈ dead_handles control closed m ↔ h ≠ control ∧ closed h ∧ is_Some (m !! h).
Proof.
  unfold dead_handles. change ((map_to_list ?m').*1) with (handles_of m').
  rewrite elem_of_handles_of. unfold is_Some. setoid_rewrite map_lookup_filter_Some.
  unfold dead. cbn. naive_solver.
Qed.

Lemma dead_handles_NoDup (closed : Z → Prop) `{!∀ h, Decision (closed h)} m :
  NoDup (dead_handles control closed m).
Proof. apply NoDup_fst_map_to_list. Qed.

(** Closing the handles of a list, one after the other. *)
Lemma close_all hs w :
  watcher_ok control (state w) → NoDup hs →
  (∀ h, h ∈ hs → h ≠ control ∧ is_Some (watched (state w) !! h)) →
  performs control (for_each hs (λ h, CloseHandle h ILLEGAL_PORT true)) w
    (with_watch (filter (λ x, x.1 ∉ hs) (watched (state w))) (abs (state w)))
    (prune_events (watched (state w)) hs).
Proof.
  intros Hok Hnd. revert w Hok. induction Hnd as [|h hs Hh Hnd IH]; intros w Hok Hin.
  { rewrite map_filter_id by (intros; set_solver). by apply performs_ret. }
  destruct (Hin h ltac:(by left)) as [Hne [[s p] Hw]]. unfold prune_events. cbn.
  rewrite concat_app, Hw. cbn. rewrite app_nil_r.
  eapply performs_bind; [by apply (CloseHandle_prunes control h s p)|].
  intros [] w1 [Hok1 Ha1 _ _]. unfold abs, with_watch in Ha1. cbn in Ha1. injection Ha1 as Hw1 Ht1 Hq1.
  assert (Hother : ∀ h', h' ∈ hs → watched (state w1) !! h' = watched (state w) !! h').
  { intros h' Hh'. rewrite Hw1, lookup_delete_ne; [done|]. by intros ->. }
  eapply returns_mono; [apply (IH w1 Hok1)|].
  - intros h' Hh'. rewrite Hother by done. apply Hin. by right.
  - intros [[] w'] [Hok' Ha' Hl' Htr']. split; [done| |done|].
    + rewrite Ha'. unfold with_watch, abs. cbn. f_equal; [|done|done].
      rewrite Hw1. apply map_eq. intros h'. apply option_eq. intros sp.
      rewrite !map_lookup_filter_Some, lookup_delete_Some. cbn. rewrite not_elem_of_cons. naive_solver.
    + rewrite Htr'. f_equal. unfold prune_events. do 2 f_equal. apply list_fmap_ext.
      intros i h' Hh'. rewrite Hother; [done|]. by eapply list_elem_of_lookup_2.
Qed.

Lemma prune_all (closed : Z → Prop) `{!∀ h, Decision (closed h)} hs w :
  watcher_ok control (state w) → hs ≡ₚ dead_handles control closed (watched (state w)) →
  performs control (for_each hs (λ h, CloseHandle h ILLEGAL_PORT true)) w
    (pruned control closed (abs (state w))) (prune_events (watched (state w)) hs).
Proof.
  intros Hok Hhs. assert (Hin : ∀ h, h ∈ hs ↔ h ≠ control ∧ closed h ∧ is_Some (watched (state w) !! h)).
  { intros h. by rewrite Hhs, elem_of_dead_handles. }
  replace (pruned _ _ _) with (with_watch (filter (λ x, x.1 ∉ hs) (watched (state w))) (abs (state w))).
  - apply close_all; [done|rewrite Hhs; apply dead_handles_NoDup|naive_solver].
  - unfold pruned. f_equal. apply map_filter_ext. intros h sp Hsp. unfold dead. cbn.
    rewrite Hin. naive_solver.
Qed.

Definition handle_at st (i : Z) : Z := default 0 (wait_many_handles_ st !! Z.to_nat i).

Lemma handles_at st :
  handle_at st <$> seqZ 0 (vec_size (wait_many_handles_ st)) = wait_many_handles_ st.
Proof.
  apply list_eq. intros i. rewrite list_lookup_fmap. unfold vec_size.
  destruct (decide (i < length (wait_many_handles_ st))%nat) as [Hi|Hi].
  - rewrite lookup_seqZ_lt by lia. cbn. unfold handle_at. rewrite Z.add_0_l, Nat2Z.id.
    by destruct (lookup_lt_is_Some_2 _ _ Hi) as [h ->].
  - rewrite lookup_seqZ_ge by lia. cbn. symmetry. apply lookup_ge_None. lia.
Qed.

Lemma handle_row st i :
  watcher_ok control st → 0 <= i < vec_size (wait_many_handles_ st) →
  wait_many_handles_ st !! Z.to_nat i = Some (handle_at st i) ∧
  ∃ ss, wait_many_signals_state_ st !! Z.to_nat i = Some ss ∧
    satisfied st (handle_at st i) = satisfied_signals ss.
Proof.
  intros Hok Hi. destruct (row control st i Hok Hi) as (h & s & ss & p & Hh & _ & Hss & _ & _ & Hsat).
  unfold handle_at. rewrite Hh. split; [done|]. by exists ss.
Qed.

(** *** After a wait that left the states valid *)
Definition if_peer_closed st (h : Z) : option Z :=
  if negb (Z.land (satisfied st h) MOJO_HANDLE_SIGNAL_PEER_CLOSED =? 0) then Some h else None.

Lemma if_peer_closed_Some st h h' :
  if_peer_closed st h = Some h' ↔ h' = h ∧ peer_closed (satisfied st h).
Proof. unfold if_peer_closed, peer_closed. destruct (_ =? 0) eqn:Hz; naive_solver lia. Qed.

Lemma control_satisfied st : watcher_ok control st → ¬ peer_closed (satisfied st control).
Proof.
  intros Hok. destruct (control_row control _ Hok) as (_ & ss & Hss & ->). unfold peer_closed.
  pose proof (ok_control_open control _ Hok _ Hss). lia.
Qed.

Lemma peer_closed_handles st :
  watcher_ok control st →
  omap (if_peer_closed st) (wait_many_handles_ st)
    ≡ₚ dead_handles control (λ h, peer_closed (said (reported st) h)) (watched st).
Proof.
  intros Hok. apply NoDup_Permutation; [|apply dead_handles_NoDup|].
  - apply NoDup_omap; [by apply handles_NoDup in Hok|].
    intros x y z _ _ [-> _]%if_peer_closed_Some [-> _]%if_peer_closed_Some. done.
  - intros h. rewrite list_elem_of_omap, elem_of_dead_handles.
    setoid_rewrite if_peer_closed_Some. split.
    + intros (? & Hin%elem_of_handles & -> & Hc); [|done]. rewrite said_reported by done.
      split_and!; [|done|done]. intros ->. by apply (control_satisfied st).
    + intros (_ & Hc & Hin). rewrite said_reported in Hc by done. exists h.
      by rewrite elem_of_handles.
Qed.

Lemma omap_fmap {A B C} (f : B → option C) (g : A → B) (l : list A) :
  omap (λ x, f (g x)) l = omap f (g <$> l).
Proof. induction l as [|x l IH]; cbn; [done|]. by rewrite IH. Qed.

Lemma no_events {A} (l : list A) : concat (rev ((λ _, []) <$> l)) = @nil Event.
Proof. induction l as [|x l IH]; [done|]. cbn. rewrite concat_app, IH. done. Qed.

Lemma PruneClosedHandles_valid w :
  watcher_ok control (state w) →
  returns (PruneClosedHandles true w) (λ '(_, w'), ∃ hs,
    hs ≡ₚ dead_handles control (λ h, peer_closed (said (reported (state w)) h)) (watched (state w)) ∧
    does control w (pruned control (λ h, peer_closed (said (reported (state w)) h)) (abs (state w)))
      (prune_events (watched (state w)) hs) w').
Proof.
  intros Hok. unfold PruneClosedHandles. rewrite (bindS_Ok _ _ _ (state w) w) by done. cbv zeta.
  eapply returnsS_bind, returns_mono.
  { eapply (collect_quiet control _ _ (λ i, if_peer_closed (state w) (handle_at (state w) i)) (λ _, [])).
    intros i w1 Hi%elem_of_seqZ Hw1. destruct (handle_row (state w) i Hok) as (Hh & ss & Hss & Hsat); [lia|].
    eapply quietly_step; [apply vec_at_Z; [lia|done]|]. unfold if_peer_closed. rewrite Hsat.
    destruct (Z.land _ _ =? 0); cbn [negb]; [by apply quietly_ret|].
    eapply quietly_step; [apply vec_at_Z; [lia|done]|]. by apply quietly_ret. }
  intros [hs w1] (-> & Hs1 & Hl1 & Ht1). rewrite omap_fmap, handles_at.
  pose proof (peer_closed_handles _ Hok) as Hhs. set (hs := omap _ _) in *.
  rewrite no_events in Ht1. rewrite <- Hs1 in Hok, Hhs.
  eapply returns_mono; [by apply (prune_all _ _ w1 Hok Hhs)|]. rewrite Hs1 in *.
  intros [[] w'] [Hok' Ha' Hl' Ht']. exists hs. split; [done|].
  split; [done|done|by etransitivity|]. by rewrite Ht', Ht1.
Qed.

(** *** After a wait that refused a handle *)
Definition answered (e0 : E) (x : Z * Z) : Prop :=
  ∃ e, later e0 e ∧ x.2 = (env_wait x.1 MOJO_HANDLE_SIGNAL_ALL 0 e).1.

Lemma answered_later e0 e1 x : later e0 e1 → answered e1 x → answered e0 x.
Proof. intros Hl (e & He & Hx). exists e. split; [by etransitivity|done]. Qed.

Lemma ShouldCloseHandle_asks h w :
  h ≠ MOJO_HANDLE_INVALID →
  returns (ShouldCloseHandle h w) (λ '(close, w'), ∃ r, close = bool_decide (failed r) ∧
    state w' = state w ∧ later (env w) (env w') ∧ trace w' = Waited h r :: trace w ∧
    answered (env w) (h, r)).
Proof.
  intros Hz. unfold ShouldCloseHandle. rewrite (proj2 (Z.eqb_neq _ _)) by done.
  eapply returnsS_bind. unfold call_env.
  pose proof (wait_law h MOJO_HANDLE_SIGNAL_ALL 0 (env w)) as Hw.
  destruct (env_wait h MOJO_HANDLE_SIGNAL_ALL 0 (env w)) as [r e] eqn:He. destruct Hw as [Hl _]. cbn.
  exists r. split_and!; try done.
  - unfold failed. destruct (r =? _) eqn:H1, (r =? MOJO_RESULT_DEADLINE_EXCEEDED) eqn:H2; cbn [negb andb];
      symmetry; (apply bool_decide_eq_false_2 || apply bool_decide_eq_true_2); lia.
  - exists (env w). cbn. by rewrite He.
Qed.

Lemma ask_loop st l w :
  watcher_ok control st → (∀ i, i ∈ l → 0 <= i < vec_size (wait_many_handles_ st)) →
  returns (collect l (λ i, h ← vec_at (wait_many_handles_ st) i; close ← ShouldCloseHandle h;
      mret (if (close : bool) then Some h else None)) w) (λ '(hs, w'), ∃ answers,
    state w' = state w ∧ later (env w) (env w') ∧ trace w' = asked_events answers ++ trace w ∧
    answers.*1 = handle_at st <$> l ∧ hs = (filter (λ x, failed x.2) answers).*1 ∧
    Forall (answered (env w)) answers).
Proof.
  intros Hok. revert w. induction l as [|i l IH]; intros w Hl; [by exists []|].
  destruct (handle_row st i Hok) as (Hh & _); [apply Hl; by left|].
  assert (Hz : handle_at st i ≠ MOJO_HANDLE_INVALID).
  { apply list_elem_of_lookup_2, (ok_valid control _ Hok) in Hh. unfold MOJO_HANDLE_INVALID. lia. }
  cbn [collect]. eapply returnsS_bind. erewrite bindS_Ok by (apply vec_at_Z; [apply Hl; by left|done]).
  eapply returnsS_bind, returns_mono; [by apply ShouldCloseHandle_asks|].
  intros [close w1] (r & -> & Hs1 & Hl1 & Ht1 & Ha1). cbn [mret stateR_ret returns].
  eapply returnsS_bind, returns_mono; [apply (IH w1); intros j Hj; apply Hl; by right|].
  intros [hs w2] (answers & Hs2 & Hl2 & Ht2 & Hfst & -> & Hall). cbn [mret stateR_ret returns].
  exists ((handle_at st i, r) :: answers). split_and!.
  - congruence.
  - by etransitivity.
  - rewrite Ht2, Ht1. unfold asked_events. cbn. by rewrite <- app_assoc.
  - cbn. by rewrite Hfst.
  - rewrite filter_cons. cbn. case_bool_decide; by rewrite ?decide_True, ?decide_False by done.
  - constructor; [done|]. eapply Forall_impl; [exact Hall|]. intros x. by apply answered_later.
Qed.

Lemma refused_handles st answers e0 :
  watcher_ok control st → answers.*1 = wait_many_handles_ st → Forall (answered e0) answers →
  (filter (λ x, failed x.2) answers).*1
    ≡ₚ dead_handles control (λ h, failed (said answers h)) (watched st).
Proof.
  intros Hok Hfst Hall. rewrite Forall_forall in Hall.
  assert (Hnd : NoDup answers.*1) by (rewrite Hfst; by apply handles_NoDup in Hok).
  apply NoDup_Permutation; [|apply dead_handles_NoDup|].
  - eapply sublist_NoDup; [exact Hnd|]. apply fmap_sublist, sublist_filter.
  - intros h. rewrite elem_of_dead_handles, list_elem_of_fmap, <- elem_of_handles, <- Hfst,
      list_elem_of_fmap by done. setoid_rewrite list_elem_of_filter. split.
    + intros ([h' r] & -> & Hr & Hin). cbn in *. rewrite (said_elem answers h' r) by done.
      split_and!; [|done|by exists (h', r)]. intros ->.
      destruct (Hall _ Hin) as (e & _ & He). cbn in He. subst r.
      pose proof (wait_law control MOJO_HANDLE_SIGNAL_ALL 0 e) as Hlaw.
      destruct (env_wait control MOJO_HANDLE_SIGNAL_ALL 0 e) as [r e']. destruct Hlaw as [_ Hlaw].
      destruct Hr. cbn in *. by destruct (Hlaw eq_refl).
    + intros (_ & Hr & [h' r] & -> & Hin). cbn in *. rewrite (said_elem answers h' r) in Hr by done.
      by exists (h', r).
Qed.

Lemma PruneClosedHandles_ask w :
  watcher_ok control (state w) →
  returns (PruneClosedHandles false w) (λ '(_, w'), ∃ answers hs,
    answers.*1 ≡ₚ handles_of (watched (state w)) ∧ NoDup answers.*1 ∧
    Forall (answered (env w)) answers ∧
    hs ≡ₚ dead_handles control (λ h, failed (said answers h)) (watched (state w)) ∧
    does control w (pruned control (λ h, failed (said answers h)) (abs (state w)))
      (prune_events (watched (state w)) hs ++ asked_events answers) w').
Proof.
  intros Hok. unfold PruneClosedHandles. rewrite (bindS_Ok _ _ _ (state w) w) by done. cbv zeta.
  eapply returnsS_bind, returns_mono.
  { apply ask_loop; [exact Hok|]. intros i Hi%elem_of_seqZ. lia. }
  intros [hs w1] (answers & Hs1 & Hl1 & Ht1 & Hfst & -> & Hall). rewrite handles_at in Hfst.
  pose proof (refused_handles _ _ _ Hok Hfst Hall) as Hhs.
  rewrite <- Hs1 in Hok, Hhs. eapply returns_mono; [by apply (prune_all _ _ w1 Hok Hhs)|].
  rewrite Hs1 in *. intros [[] w'] [Hok' Ha' Hl' Ht'].
  exists answers, (filter (λ x, failed x.2) answers).*1. rewrite Hfst.
  split_and!; [by apply handles_watched|by apply handles_NoDup in Hok|done|done|].
  split; [done|done|by etransitivity|]. by rewrite Ht', Ht1, app_assoc.
Qed.
End prune.
