(* ===== verification/HandleWatcherRun.v ===== *)
(** * The handle watcher runs

    A thread commanded as [WatcherLaws] says takes the steps of the abstract watcher
    and fails no check, however long it runs; told to shut down it ends, if the system
    is [attentive]. *)
From stdpp Require Import base list numbers option gmap sorting.
From S2P Require Import Prelude MojoResult System Codec WatcherCommand HandleWatcher HandleWatcherInv HandleWatcherSpec HandleWatcherWait HandleWatcherPrune.

Section run.
Context {E : Type} `{!DartApi} `{!WatcherEnv E} (control : Z) `{!WatcherLaws E control}.
Implicit Types (st : HandleWatcherThreadState) (w : World E) (evs : list Event).

(** ** Steps of the abstract watcher *)
Implicit Types (a : Watcher) (cs : list HandleWatcherCommand) (ph : Phase).
Abbreviation step := (watcher_step control).
Abbreviation steps := (watcher_steps control).

Lemma steps_one ph a cs evs ph' a' : step ph a cs evs ph' a' → steps ph a cs evs ph' a'.
Proof.
  intros Hs. rewrite <- (app_nil_l cs), <- (app_nil_r evs). by eapply steps_snoc; [apply steps_refl|].
Qed.

Lemma steps_trans ph1 a1 cs1 evs1 ph2 a2 cs2 evs2 ph3 a3 :
  steps ph1 a1 cs1 evs1 ph2 a2 → steps ph2 a2 cs2 evs2 ph3 a3 →
  steps ph1 a1 (cs1 ++ cs2) (evs2 ++ evs1) ph3 a3.
Proof.
  intros H1. induction 1 as [|cs evs ph a cs' evs' ph' a' _ IH Hs]; [by rewrite app_nil_r|].
  rewrite (app_assoc cs1), <- (app_assoc evs'). by eapply steps_snoc.
Qed.

Lemma alarms_cons t timers :
  timers_ok (t :: timers) →
  alarms_of (t :: timers) !! tm_deadline t = Some (tm_port t) ∧
  (∀ d, is_Some (alarms_of (t :: timers) !! d) → tm_deadline t <= d) ∧
  delete (tm_deadline t) (alarms_of (t :: timers)) = alarms_of timers.
Proof.
  intros Hok. pose proof Hok as [Hs _ _]. inversion Hs as [|? ? _ Ht]; subst.
  rewrite Forall_forall in Ht. split_and!.
  - cbn. by rewrite lookup_insert_eq.
  - intros d [p Hp]. apply alarms_lookup in Hp as [<-|Hin]%elem_of_cons; [cbn; lia| |done].
    specialize (Ht _ Hin). cbn in Ht. lia.
  - cbn. apply delete_insert_id. apply not_elem_of_list_to_map.
    rewrite <- list_fmap_compose. apply timers_NoDup in Hok. by apply NoDup_cons in Hok as [? _].
Qed.

Lemma fired_steps fired rest m q :
  timers_ok (fired ++ rest) →
  steps Idle (mkWatcher m (alarms_of (fired ++ rest)) q) [] (fired_events fired)
    Idle (mkWatcher m (alarms_of rest) q).
Proof.
  induction fired as [|t fired IH]; intros Hok; [apply steps_refl|].
  rewrite fired_events_cons. apply (steps_trans _ _ [] (null_events (tm_port t)) Idle
    (mkWatcher m (alarms_of (fired ++ rest)) q) []).
  - apply steps_one. cbn [app] in Hok |- *. destruct (alarms_cons _ _ Hok) as (Hd & Hmin & Hdel).
    rewrite <- Hdel. apply (step_alarm control (mkWatcher m (alarms_of (t :: fired ++ rest)) q) _ _ Hd Hmin).
  - apply IH. by apply (timers_ok_suffix [t]).
Qed.

(** The vectors and the report agree on what is ready. *)
Lemma notified_reported st :
  watcher_ok control st →
  ready_events control (satisfied st) (watched st) =
    ready_events control (said (reported st)) (watched st) ∧
  notified control (satisfied st) (abs st) = notified control (said (reported st)) (abs st).
Proof.
  intros Hok. assert (Hfilter : filter (ready control (satisfied st)) (watched st) =
    filter (ready control (said (reported st))) (watched st)).
  { apply map_filter_ext. intros h sp Hsp. by rewrite (ready_reported control st (h, sp)). }
  split.
  - unfold ready_events. rewrite <- Hfilter.
    assert (Hin : ∀ x, x ∈ map_to_list (filter (ready control (satisfied st)) (watched st)) →
      is_Some (watched st !! x.1)).
    { intros [h sp] Hx%elem_of_map_to_list. apply map_lookup_filter_Some in Hx as [Hx _]. by exists sp. }
    induction (map_to_list _) as [|x l IH]; [done|]. cbn.
    rewrite IH by (intros y Hy; apply Hin; by right). unfold ready_event at 1 3.
    by rewrite (said_reported control) by (done || apply Hin; by left).
  - unfold notified. f_equal. apply map_filter_ext. intros h sp Hsp. f_equiv.
    by rewrite (ready_reported control st (h, sp)).
Qed.

(** ** The loop *)

Lemma safely_get_thread w (Q : HandleWatcherThreadState → World E → Prop) :
  Q (state w) w → safely get_thread w Q.
Proof. done. Qed.

(** From [w] the thread came to [w'] by steps of the abstract watcher; it obeyed
    the commands in the order in which they were sent. *)
Definition advances ph w ph' w' : Prop :=
  watcher_ok control (state w') ∧
  ∃ cs evs more, steps ph (abs (state w)) cs evs ph' (abs (state w')) ∧ trace w' = evs ++ trace w ∧
    commands (env w) ++ more = cs ++ commands (env w').

Lemma advances_trans ph1 w1 ph2 w2 ph3 w3 :
  advances ph1 w1 ph2 w2 → advances ph2 w2 ph3 w3 → advances ph1 w1 ph3 w3.
Proof.
  intros [_ (cs1 & evs1 & more1 & Hs1 & Ht1 & Hc1)] [Hok (cs2 & evs2 & more2 & Hs2 & Ht2 & Hc2)].
  split; [done|]. exists (cs1 ++ cs2), (evs2 ++ evs1), (more1 ++ more2). split_and!.
  - by eapply steps_trans.
  - by rewrite Ht2, Ht1, app_assoc.
  - by rewrite app_assoc, Hc1, <- !app_assoc, Hc2.
Qed.

(** Without a command. *)
Lemma advances_silently ph w ph' w' evs :
  watcher_ok control (state w') → later (env w) (env w') →
  steps ph (abs (state w)) [] evs ph' (abs (state w')) → trace w' = evs ++ trace w →
  advances ph w ph' w'.
Proof.
  intros Hok [more Hmore]%later_commands Hs Ht. split; [done|]. exists [], evs, more.
  split_and!; [done..|]. by rewrite Hmore.
Qed.

Lemma advances_refl ph w : watcher_ok control (state w) → advances ph w ph w.
Proof. intros Hok. by apply (advances_silently _ _ _ _ []); [|done|apply steps_refl|]. Qed.

(** A step of the abstract watcher that the thread did. *)
Lemma does_advances ph w ph' w' a evs :
  does control w a evs w' → step ph (abs (state w)) [] evs ph' a → advances ph w ph' w'.
Proof.
  intros [Hok Ha Hl Ht] Hs. eapply advances_silently; [done|done| |exact Ht].
  rewrite Ha. by apply steps_one.
Qed.

Lemma fires_advances start fired rest w w' :
  watcher_ok control (state w) → fires control start fired rest w w' → advances Idle w Idle w'.
Proof.
  intros Hok Hf. pose proof (fires_ok _ _ _ _ _ _ Hok Hf) as Hok'. destruct Hf as [Hsplit Hst Htr Hl _ _].
  apply (advances_silently _ _ _ _ (fired_events fired)); [done|done| |done].
  rewrite Hst. unfold abs. cbn. rewrite Hsplit. apply fired_steps. rewrite <- Hsplit.
  by apply (ok_timers control).
Qed.

(** The states may change in a wait, nothing else of the thread does. *)
Definition put_states (states : list MojoHandleSignalsState) st : HandleWatcherThreadState :=
  mkThreadState (shutdown_ st) (control_pipe_consumer_handle_ st) (wait_many_handles_ st)
    (wait_many_signals_ st) states (handle_ports_ st) (handle_to_index_map_ st) (timers_ st).

Lemma WaitMany_does d w :
  watcher_ok control (state w) →
  safely (WaitMany d) w (λ r w',
    env_wait_many (wait_many_handles_ (state w)) (wait_many_signals_ (state w))
      (u32 (vec_size (wait_many_handles_ (state w)))) d (wait_many_signals_state_ (state w)) (env w)
      = Some (r, wait_many_signals_state_ (state w'), env w') ∧
    does control w (abs (state w)) [WaitedMany r (reported (state w'))] w' ∧
    state w' = put_states (wait_many_signals_state_ (state w')) (state w) ∧
    (r = MOJO_RESULT_OK → Z.land (satisfied (state w') control) MOJO_HANDLE_SIGNAL_READABLE ≠ 0 →
      commands (env w') ≠ [])).
Proof.
  intros Hok. unfold safely, WaitMany.
  pose proof (wait_many_law (wait_many_handles_ (state w)) (wait_many_signals_ (state w))
    (u32 (vec_size (wait_many_handles_ (state w)))) d (wait_many_signals_state_ (state w)) (env w)) as Hlaw.
  destruct (env_wait_many _ _ _ _ _ _) as [[[r states] e]|]; [|by right; right].
  destruct Hlaw as (Hl & Hlen & Hstates). change (mkThreadState _ _ _ _ _ _ _ _) with (put_states states (state w)).
  assert (Hok' : watcher_ok control (put_states states (state w))).
  { destruct Hok. split; cbn; try done; [congruence|]. intros ss Hss.
    destruct Hstates as [[_ ->]|Hnew]; [by apply ok_control_open|]. by apply (Hnew 0%nat). }
  split_and!; [done|by split|done|].
  intros -> Hr. destruct Hstates as [[? _]|Hnew]; [done|].
  destruct (control_row control _ Hok') as (_ & ss & Hss & Hsat). cbn in Hr. rewrite Hsat in Hr.
  by apply (Hnew 0%nat ss (ok_control control _ Hok) Hss).
Qed.

Lemma WaitMany_advances d w :
  watcher_ok control (state w) →
  safely (WaitMany d) w (λ r w', advances Idle w (after_wait r (reported (state w'))) w' ∧
    (r = MOJO_RESULT_OK → Z.land (satisfied (state w') control) MOJO_HANDLE_SIGNAL_READABLE ≠ 0 →
      commands (env w') ≠ [])).
Proof.
  intros Hok. eapply safely_mono; [by apply WaitMany_does|].
  intros r w' (_ & Hdoes & Hst & Hpending). split; [|done]. eapply does_advances; [exact Hdoes|].
  apply step_wait. rewrite (reported_fst control) by apply Hdoes.
  replace (watch (abs (state w))) with (watched (state w')); [apply (handles_watched control), Hdoes|].
  by rewrite <- (does_abs _ _ _ _ _ Hdoes).
Qed.

Lemma ProcessWaitManyResults_advances r w :
  watcher_ok control (state w) → r ≠ MOJO_RESULT_DEADLINE_EXCEEDED →
  (r = MOJO_RESULT_OK →
    Z.land (satisfied (state w) control) MOJO_HANDLE_SIGNAL_READABLE ≠ 0 → commands (env w) ≠ []) →
  returns (ProcessWaitManyResults r w) (λ '(_, w'), advances (Woken r (reported (state w))) w Idle w').
Proof.
  intros Hok Hr Hpending. destruct (decide (r = MOJO_RESULT_OK)) as [->|Hne].
  - eapply returns_mono; [by apply (ProcessWaitManyResults_ok control); auto|].
    intros [[] w'] (Hok' & evs & Hevs & Hcase). split; [done|].
    destruct (notified_reported _ Hok) as [He Hn]. rewrite He in Hevs. rewrite Hn in Hcase.
    pose proof (step_notify control (abs (state w)) (reported (state w)) evs Hevs) as Hnotify.
    unfold after_notify in Hnotify. rewrite (said_reported control) in Hnotify; [|done|].
    2: { apply (elem_of_handles control); [done|]. eapply list_elem_of_lookup_2, (ok_control control _ Hok). }
    case_decide as Hc.
    + destruct Hcase as (Ha & [more Hmore]%later_commands & Ht). exists [], evs, more.
      split_and!; [rewrite Ha; by apply steps_one|done|]. by rewrite Hmore.
    + destruct Hcase as (c & cs & Hcs & [more Hmore] & _ & Ha & Ht).
      set (a1 := notified control (said (reported (state w))) (abs (state w))) in *.
      exists [c], ((obey c a1).2 ++ evs), more.
      split_and!; [|by rewrite <- app_assoc|by rewrite Hcs, Hmore].
      rewrite Ha. apply (steps_trans _ _ [] _ _ _ [c] _ _ _ (steps_one _ _ _ _ _ _ Hnotify)).
      apply steps_one, step_command.
      pose proof (commands_valid (env w)) as Hv. rewrite Hcs in Hv. by apply Forall_cons in Hv as [? _].
  - unfold ProcessWaitManyResults. rewrite (proj2 (Z.eqb_neq _ _) Hr), (proj2 (Z.eqb_neq _ _) Hne).
    rewrite (bindS_Ok _ _ _ tt w) by done. cbn [negb].
    destruct (decide (r = MOJO_RESULT_INVALID_ARGUMENT)) as [->|Hinv].
    + rewrite Z.eqb_refl. eapply returns_mono; [by apply (PruneClosedHandles_ask control)|].
      intros [[] w'] (answers & hs & Hfst & _ & _ & Hhs & Hdoes). eapply does_advances; [exact Hdoes|].
      by apply step_ask.
    + rewrite (proj2 (Z.eqb_neq _ _)) by done. eapply returns_mono; [by apply (PruneClosedHandles_valid control)|].
      intros [[] w'] (hs & Hhs & Hdoes). eapply does_advances; [exact Hdoes|]. by apply step_prune.
Qed.

Lemma run_once_advances w :
  watcher_ok control (state w) → safely run_once w (λ _ w', advances Idle w Idle w').
Proof.
  intros Hok. unfold run_once. apply safely_bind.
  eapply safely_mono; [apply guarded_returns; by apply (ProcessTimers_fires control)|].
  intros [] w1 [Hok1 (fired & rest & Hf)]. apply fires_advances in Hf as H1; [|done].
  apply safely_bind, safely_get_thread, safely_bind, safely_assert.
  { rewrite (u32_small (vec_size _)).
    - unfold vec_size. rewrite (ok_signals control) by done. apply Z.eqb_refl.
    - pose proof (handles_bound control _ Hok1). unfold vec_size in *. lia. }
  apply safely_bind. eapply safely_mono; [by apply guarded_returns, (WaitDeadline_quiet control)|].
  cbv beta. intros d w2 (_ & Hs2 & Hl2 & Ht2). assert (H2 : advances Idle w1 Idle w2).
  { apply (advances_silently _ _ _ _ []); [by rewrite Hs2|done| |done]. rewrite Hs2. apply steps_refl. }
  apply safely_bind. eapply safely_mono; [apply WaitMany_advances, H2|].
  intros r w3 [H3 Hpending].
  pose proof (advances_trans _ _ _ _ _ _ H1 (advances_trans _ _ _ _ _ _ H2 H3)) as H13.
  unfold after_wait in *. destruct (r =? MOJO_RESULT_DEADLINE_EXCEEDED) eqn:Hr.
  - apply Z.eqb_eq in Hr. rewrite decide_True in H13 by done. by apply safely_ret.
  - apply Z.eqb_neq in Hr. rewrite decide_False in H13 by done.
    eapply safely_mono; [apply guarded_returns|].
    + apply ProcessWaitManyResults_advances; [apply H3|done|done].
    + intros [] w' H4. by eapply advances_trans.
Qed.

Lemma control_not_invalid st : watcher_ok control st → control ≠ MOJO_HANDLE_INVALID.
Proof.
  intros Hok. assert (Hc : control ∈ wait_many_handles_ st).
  { eapply list_elem_of_lookup_2, (ok_control control _ Hok). }
  apply (ok_valid control _ Hok) in Hc. unfold MOJO_HANDLE_INVALID. lia.
Qed.

Lemma MojoClose_eq h w :
  MojoClose h w = Ok ((env_close h (env w)).1,
    mkWorld (state w) (env_close h (env w)).2 (Closed h :: trace w)).
Proof.
  unfold MojoClose, call_env, mbind, stateR_bind. cbn. by destruct (env_close h (env w)).
Qed.

(** [Run] ends once the thread is told to, and closes the control handle. *)
Lemma Run_safe fuel w :
  watcher_ok control (state w) →
  safely (Run fuel) w (λ _ w', ∃ w1, advances Idle w Idle w1 ∧ shutdown_ (state w1) = true ∧
    state w' = state w1 ∧ trace w' = Closed control :: trace w1).
Proof.
  revert w. induction fuel as [|fuel IH]; intros w Hok; [by left|].
  cbn [Run]. apply safely_bind, safely_get_thread. destruct (shutdown_ (state w)) eqn:Hq.
  - unfold safely. rewrite (ok_consumer control) by done.
    rewrite (bindS_Ok _ _ _ _ _ (MojoClose_eq control w)). cbn. exists w.
    split_and!; [by apply advances_refl|done..].
  - apply safely_bind. eapply safely_mono; [by apply run_once_advances|]. intros [] w1 H1.
    eapply safely_mono; [apply IH, H1|]. intros [] w' (w2 & H2 & Hq2 & Hs & Ht). exists w2.
    split; [by eapply advances_trans|done].
Qed.

(** ** A thread *)

(** The state the constructor makes. *)
Definition initial_state : HandleWatcherThreadState :=
  mkThreadState false control [control] [MOJO_HANDLE_SIGNAL_READABLE]
    [mkSignalsState MOJO_HANDLE_SIGNAL_NONE MOJO_HANDLE_SIGNAL_NONE] [ILLEGAL_PORT]
    {[control := 0]} [].

Lemma initial_ok : 0 < control < 2 ^ 32 → watcher_ok control initial_state.
Proof.
  intros Hc. split; cbn; try done.
  - intros h i. rewrite lookup_singleton_Some, list_lookup_singleton_Some. split.
    + intros [<- <-]. done.
    + intros (Hi & H0 & ->). split; [done|lia].
  - by intros h ->%list_elem_of_singleton.
  - by intros ss [= <-].
  - split; cbn; [constructor|constructor|set_solver].
Qed.

Lemma new_eq w :
  0 < control < 2 ^ 32 →
  HandleWatcherThreadState_new control w = Ok (tt, mkWorld initial_state (env w) (trace w)).
Proof.
  intros Hc. unfold HandleWatcherThreadState_new.
  set (st0 := mkThreadState _ _ _ _ _ _ _ _). set (w0 := mkWorld st0 (env w) (trace w)).
  rewrite (bindS_Ok _ _ _ tt w0) by done.
  rewrite (proj2 (Z.eqb_neq _ _)) by (unfold MOJO_HANDLE_INVALID; lia).
  rewrite (bindS_Ok _ _ _ tt w0) by done. unfold AddHandle.
  rewrite (bindS_Ok _ _ _ st0 w0) by done. cbv zeta.
  rewrite (lookup_empty control : handle_to_index_map_ st0 !! control = None).
  rewrite (bindS_Ok _ _ _ tt (mkWorld initial_state (env w) (trace w))) by done.
  by apply (check_sizes_ok control), initial_ok.
Qed.

(** ** The commands end the thread *)

(** What wait.h says of a wait on valid and open handles while a message is in the
    control pipe: it succeeds, and the control handle is reported readable.  The
    isolate may watch handles that are not: then the wait is refused, and [MojoWait]
    refuses one of them too, now and later, or the wait fails and reports that the
    peer of one of them is closed.  Whatever else a wait does ([MOJO_RESULT_BUSY],
    [MOJO_RESULT_CANCELLED], [MOJO_RESULT_RESOURCE_EXHAUSTED], a success or a timeout
    that does not see the message) uses up some of the system's [patience]: that
    happens at most so many times.  (mojo.c departs from wait.h: it reports
    [MOJO_RESULT_UNKNOWN] for a handle that is invalid, [System.bad_handle_unknown],
    and is attentive only as long as all handles watched are valid.) *)
Record attentive (patience : E → nat) : Prop := {
  patience_later e e' : later e e' → (patience e' <= patience e)%nat;
  patience_read e : commands e ≠ [] →
    (patience (env_read control sizeof_HandleWatcherCommand e).2 <= patience e)%nat;
  attends handles signals n d states e :
    handles !! 0%nat = Some control → MOJO_HANDLE_INVALID ∉ handles →
    length states = length handles → commands e ≠ [] →
    ∃ r states' e', env_wait_many handles signals n d states e = Some (r, states', e') ∧
      (r = MOJO_RESULT_OK ∧ (∀ ss, states' !! 0%nat = Some ss →
         Z.land (satisfied_signals ss) MOJO_HANDLE_SIGNAL_READABLE ≠ 0) ∨
       r = MOJO_RESULT_INVALID_ARGUMENT ∧ (∃ h, h ∈ handles ∧ h ≠ control ∧
         ∀ e1, later e' e1 → failed (env_wait h MOJO_HANDLE_SIGNAL_ALL 0 e1).1) ∨
       failed r ∧ r ≠ MOJO_RESULT_INVALID_ARGUMENT ∧ (∃ i h ss,
         handles !! i = Some h ∧ h ≠ control ∧ states' !! i = Some ss ∧
         peer_closed (satisfied_signals ss)) ∨
       (patience e' < patience e)%nat);
}.

Section ends.
Context (patience : E → nat) (Hatt : attentive patience).

Definition weight w : nat := (patience (env w) + size (watched (state w)))%nat.

(** What a wait says while a command is pending. *)
Definition attended (r : Z) w w' : Prop :=
  r = MOJO_RESULT_OK ∧ Z.land (satisfied (state w') control) MOJO_HANDLE_SIGNAL_READABLE ≠ 0 ∨
  r = MOJO_RESULT_INVALID_ARGUMENT ∧ (∃ h, is_Some (watched (state w') !! h) ∧ h ≠ control ∧
    ∀ e, later (env w') e → failed (env_wait h MOJO_HANDLE_SIGNAL_ALL 0 e).1) ∨
  failed r ∧ r ≠ MOJO_RESULT_INVALID_ARGUMENT ∧ (∃ h, is_Some (watched (state w') !! h) ∧
    h ≠ control ∧ peer_closed (said (reported (state w')) h)) ∨
  (patience (env w') < patience (env w))%nat.

Lemma WaitMany_attended d w :
  watcher_ok control (state w) → commands (env w) ≠ [] →
  returns (WaitMany d w) (λ '(r, w'),
    does control w (abs (state w)) [WaitedMany r (reported (state w'))] w' ∧
    commands (env w') ≠ [] ∧ attended r w w').
Proof.
  intros Hok Hcs. pose proof (WaitMany_does d w Hok) as Hsafe.
  destruct (attends _ Hatt (wait_many_handles_ (state w)) (wait_many_signals_ (state w))
    (u32 (vec_size (wait_many_handles_ (state w)))) d (wait_many_signals_state_ (state w)) (env w))
    as (r & states & e & Hw & Hcase);
    [by apply (ok_control control)| |by apply (ok_states control)|done|].
  { intros H0%(ok_valid control _ Hok). unfold MOJO_HANDLE_INVALID in H0. lia. }
  assert (Hrun : WaitMany d w = Ok (r, mkWorld (put_states states (state w)) e
    (WaitedMany r (reported (put_states states (state w))) :: trace w))) by (unfold WaitMany; by rewrite Hw).
  unfold safely, guarded in Hsafe. rewrite Hrun in *. destruct Hsafe as (_ & Hdoes & _ & _).
  pose proof (does_ok _ _ _ _ _ Hdoes) as Hok'. cbn in Hok'. split; [done|]. cbn. split.
  { pose proof (later_commands _ _ (does_later _ _ _ _ _ Hdoes)) as [more Hm]. cbn in Hm. rewrite Hm.
    by destruct (commands (env w)). }
  unfold attended. cbn [state env].
  destruct Hcase as [[-> Hr]|[[-> (h & Hin & Hne & Hh)]|[(Hf & Hi & i & h & ss & Hh & Hne & Hss & Hp)|Hp]]].
  - left. split; [done|]. destruct (control_row control _ Hok') as (_ & ss & Hss & ->). by apply Hr.
  - right; left. split; [done|]. exists h. by rewrite <- (elem_of_handles control).
  - right; right; left. split_and!; [done|done|]. exists h.
    assert (Hw' : is_Some (watched (put_states states (state w)) !! h)).
    { apply (elem_of_handles control); [done|]. by eapply list_elem_of_lookup_2. }
    split_and!; [done|done|]. rewrite (said_reported control) by done. unfold satisfied.
    rewrite (index_of control _ Hok' i h Hh). cbn. by rewrite Nat2Z.id, Hss.
  - by right; right; right.
Qed.

(** The number of handles watched. *)
Lemma notified_size sat a :
  (size (watch (notified control sat a)) <= size (watch a))%nat.
Proof. apply map_subseteq_size, map_filter_subseteq. Qed.

Lemma pruned_size (closed : Z → Prop) `{!∀ h, Decision (closed h)} a :
  (size (watch (pruned control closed a)) <= size (watch a))%nat.
Proof. apply map_subseteq_size, map_filter_subseteq. Qed.

Lemma pruned_smaller (closed : Z → Prop) `{!∀ h, Decision (closed h)} a h :
  is_Some (watch a !! h) → h ≠ control → closed h →
  (size (watch (pruned control closed a)) < size (watch a))%nat.
Proof.
  intros [sp Hsp] Hne Hc. apply map_subset_size. split; [apply map_filter_subseteq|].
  intros Hsub. pose proof (lookup_weaken _ _ _ _ Hsp Hsub) as Hx. cbn in Hx.
  apply map_lookup_filter_Some in Hx as [_ Hx]. by apply Hx.
Qed.

Lemma obey_size c a : (size (watch (obey c a).1) <= S (size (watch a)))%nat.
Proof.
  assert (Hins : ∀ h sp, (size (<[h := sp]> (watch a)) <= S (size (watch a)))%nat).
  { intros h sp. rewrite map_size_insert. destruct (_ !! _); cbn; lia. }
  assert (Hdel : ∀ h, (size (delete h (watch a)) <= S (size (watch a)))%nat).
  { intros h. rewrite map_size_delete. destruct (_ !! _); cbn; lia. }
  unfold obey, obey_add. repeat case_match; cbn; auto with lia.
Qed.

(** A round of the loop with the command [c] pending: either it is obeyed, or the
    thread has one thing less that could keep it from obeying. *)
Definition round (c : HandleWatcherCommand) (cs : list HandleWatcherCommand) w w' : Prop :=
  (∃ more, commands (env w') = cs ++ more) ∧
    (Command.command c = kCommandShutdownHandleWatcher → shutdown_ (state w') = true) ∧
    (weight w' <= S (weight w))%nat ∨
  (∃ more, commands (env w') = c :: cs ++ more) ∧ (weight w' < weight w)%nat.

Lemma obeyed_round w w' c cs e sat :
  commands (env w) = c :: cs → cs `prefix_of` commands (env w') →
  later (env w) e → later (env_read control sizeof_HandleWatcherCommand e).2 (env w') →
  abs (state w') = (obey c (notified control sat (abs (state w)))).1 → round c cs w w'.
Proof.
  intros Hcs [more Hmore] He Hread Ha. left. split; [by exists more|]. split.
  - intros Hshut. change (shutdown_ (state w')) with (quit (abs (state w'))). rewrite Ha.
    unfold obey. by rewrite Hshut.
  - unfold weight. change (watched (state w')) with (watch (abs (state w'))). rewrite Ha.
    pose proof (obey_size c (notified control sat (abs (state w)))).
    pose proof (notified_size sat (abs (state w))). change (watch (abs (state w))) with (watched (state w)) in *.
    pose proof (patience_later _ Hatt _ _ He). pose proof (patience_later _ Hatt _ _ Hread).
    assert (Hpend : commands e ≠ []).
    { pose proof (later_commands _ _ He) as [more' Hm]. rewrite Hm, Hcs. done. }
    pose proof (patience_read _ Hatt e Hpend). lia.
Qed.

(** What follows a wait from the world [w0]. *)
Lemma ProcessWaitManyResults_round r w0 w c cs :
  watcher_ok control (state w) → commands (env w) = c :: cs → r ≠ MOJO_RESULT_DEADLINE_EXCEEDED →
  (patience (env w) <= patience (env w0))%nat → watched (state w) = watched (state w0) →
  attended r w0 w →
  returns (ProcessWaitManyResults r w) (λ '(_, w'), watcher_ok control (state w') ∧ round c cs w0 w').
Proof.
  intros Hok Hcs Hr Hle Hsame Hatt'.
  assert (Hstill : ∀ w', later (env w) (env w') → ∃ more, commands (env w') = c :: cs ++ more).
  { intros w' [more Hm]%later_commands. exists more. by rewrite Hm, Hcs. }
  assert (Hquiet : ∀ w', later (env w) (env w') →
    (patience (env w') + size (watched (state w')) < patience (env w0) + size (watched (state w)))%nat →
    round c cs w0 w').
  { intros w' Hl Hw. right. split; [by apply Hstill|]. unfold weight. by rewrite <- Hsame. }
  destruct (decide (r = MOJO_RESULT_OK)) as [->|Hne].
  - eapply returns_mono; [apply (ProcessWaitManyResults_ok control); [done|by rewrite Hcs]|].
    intros [[] w'] (Hok' & evs & _ & Hcase). split; [done|]. case_decide as Hc.
    + destruct Hcase as (Ha & Hl & _). apply Hquiet; [done|].
      destruct Hatt' as [[_ Hx]|[[Hx _]|[[[Hx _] _]|Hp]]]; [done..|].
      pose proof (patience_later _ Hatt _ _ Hl). pose proof (notified_size (satisfied (state w)) (abs (state w))) as Hs.
      rewrite <- Ha in Hs. cbn in Hs. lia.
    + destruct Hcase as (c' & cs' & Hc' & Hpre & (e & He & Hread) & Ha & _).
      rewrite Hcs in Hc'. injection Hc' as <- <-.
      destruct (obeyed_round w w' c cs e _ Hcs Hpre He Hread Ha) as [(Hm & Hq & Hw)|[Hm Hw]].
      * left. split_and!; [done|done|]. unfold weight in *. rewrite <- Hsame. lia.
      * right. split; [done|]. unfold weight in *. rewrite <- Hsame. lia.
  - unfold ProcessWaitManyResults. rewrite (proj2 (Z.eqb_neq _ _) Hr), (proj2 (Z.eqb_neq _ _) Hne).
    rewrite (bindS_Ok _ _ _ tt w) by done. cbn [negb].
    destruct (decide (r = MOJO_RESULT_INVALID_ARGUMENT)) as [->|Hinv].
    + rewrite Z.eqb_refl. eapply returns_mono; [by apply (PruneClosedHandles_ask control)|].
      intros [[] w'] (answers & hs & Hfst & Hnd & Hall & _ & [Hok' Ha Hl _]). split; [done|].
      apply Hquiet; [done|]. pose proof (patience_later _ Hatt _ _ Hl).
      change (watched (state w')) with (watch (abs (state w'))). rewrite Ha.
      destruct Hatt' as [[Hx _]|[[_ (h & Hh & Hhc & Hrefuse)]|[(_ & Hx & _)|Hp]]]; [done| |done|].
      * enough (failed (said answers h)).
        { pose proof (pruned_smaller (λ h, failed (said answers h)) (abs (state w)) h Hh Hhc ltac:(done)).
          cbn in *. lia. }
        apply elem_of_handles_of in Hh. rewrite <- Hfst, list_elem_of_fmap in Hh.
        destruct Hh as ([h' x] & -> & Hin). cbn in *. rewrite (said_elem answers h' x) by done.
        rewrite Forall_forall in Hall. destruct (Hall _ Hin) as (e & He & Hx). cbn in Hx. subst x.
        by apply Hrefuse.
      * pose proof (pruned_size (λ h, failed (said answers h)) (abs (state w))). cbn in *. lia.
    + rewrite (proj2 (Z.eqb_neq _ _)) by done. eapply returns_mono; [by apply (PruneClosedHandles_valid control)|].
      intros [[] w'] (hs & _ & [Hok' Ha Hl _]). split; [done|].
      apply Hquiet; [done|]. pose proof (patience_later _ Hatt _ _ Hl).
      change (watched (state w')) with (watch (abs (state w'))). rewrite Ha.
      destruct Hatt' as [[Hx _]|[[Hx _]|[(_ & _ & h & Hh & Hhc & Hp)|Hp]]]; [done|done| |].
      * pose proof (pruned_smaller (λ h, peer_closed (said (reported (state w)) h)) (abs (state w)) h Hh Hhc Hp).
        cbn in *. lia.
      * pose proof (pruned_size (λ h, peer_closed (said (reported (state w)) h)) (abs (state w))). cbn in *. lia.
Qed.

Lemma run_once_round w c cs :
  watcher_ok control (state w) → commands (env w) = c :: cs →
  returns (run_once w) (λ '(_, w'), watcher_ok control (state w') ∧
    ∃ more, round c (cs ++ more) w w').
Proof.
  intros Hok Hcs. unfold run_once.
  eapply returnsS_bind, returns_mono; [by apply (ProcessTimers_fires control)|].
  intros [[] w1] [Hok1 (fired & rest & Hf)]. rewrite (bindS_Ok _ _ _ (state w1) w1) by done. cbv zeta.
  rewrite (u32_small (vec_size _)) by (pose proof (handles_bound control _ Hok1); unfold vec_size in *; lia).
  unfold vec_size at 1. rewrite (ok_signals control), Z.eqb_refl by done.
  rewrite (bindS_Ok _ _ _ tt w1) by done.
  eapply returnsS_bind, returns_mono; [by apply (WaitDeadline_quiet control)|].
  intros [d w2] (_ & Hs2 & Hl2 & _). pose proof (fires_later _ _ _ _ _ _ Hf) as Hl1.
  destruct (later_commands _ _ (transitivity Hl1 Hl2)) as [more Hm]. rewrite Hcs in Hm.
  assert (Hwatch : watched (state w2) = watched (state w)).
  { rewrite Hs2, (fires_state _ _ _ _ _ _ Hf). done. }
  pose proof (patience_later _ Hatt _ _ (transitivity Hl1 Hl2)) as Hp2.
  eapply returnsS_bind, returns_mono; [apply WaitMany_attended; [by rewrite Hs2|by rewrite Hm]|].
  intros [r w3] ([Hok3 Ha3 Hl3 _] & _ & Hatt3). assert (H3 : watched (state w3) = watched (state w2)).
  { change (watch (abs (state w3)) = watch (abs (state w2))). by rewrite Ha3. }
  pose proof (patience_later _ Hatt _ _ Hl3) as Hp3.
  destruct (later_commands _ _ Hl3) as [more3 Hm3]. rewrite Hm in Hm3. cbn in Hm3.
  destruct (r =? MOJO_RESULT_DEADLINE_EXCEEDED) eqn:Hr.
  - apply Z.eqb_eq in Hr. subst r. cbn. split; [done|]. exists (more ++ more3). right. split.
    { exists []. by rewrite app_nil_r, Hm3, <- app_assoc. }
    destruct Hatt3 as [[Hx _]|[[Hx _]|[[[_ Hx] _]|Hp]]]; [done..|].
    unfold weight. rewrite H3, Hwatch. lia.
  - apply Z.eqb_neq in Hr. eapply returns_mono.
    { apply (ProcessWaitManyResults_round r w2 w3 c (cs ++ more ++ more3)); try done.
      by rewrite Hm3, <- app_assoc. }
    intros [[] w'] [Hok' Hround]. split; [done|]. exists (more ++ more3).
    unfold round, weight in *. rewrite Hwatch in Hround. destruct Hround as [(?&?&?)|[? ?]]; [left|right];
      split_and!; try done; lia.
Qed.

Lemma Run_ends cs c post w fuel :
  watcher_ok control (state w) → commands (env w) = cs ++ c :: post →
  Command.command c = kCommandShutdownHandleWatcher →
  (weight w + 2 * length cs < fuel)%nat → returns (Run fuel w) (λ _, True).
Proof.
  intros Hok Hcs Hc. revert w cs post Hok Hcs.
  induction fuel as [|fuel IH]; intros w cs post Hok Hcs Hfuel; [lia|].
  assert (Hclose : ∀ n w0, shutdown_ (state w0) = true → returns (Run (S n) w0) (λ _, True)).
  { intros n w0 Hq. cbn [Run]. rewrite (bindS_Ok _ _ _ (state w0) w0), Hq by done.
    by rewrite (bindS_Ok _ _ _ _ _ (MojoClose_eq _ w0)). }
  assert (Hpos : (0 < weight w)%nat).
  { unfold weight. enough (size (watched (state w)) ≠ 0%nat) by lia. intros H0%map_size_empty_inv.
    assert (is_Some (watched (state w) !! control)) as [sp Hsp].
    { apply (elem_of_handles control); [done|]. eapply list_elem_of_lookup_2, (ok_control control _ Hok). }
    by rewrite H0, lookup_empty in Hsp. }
  destruct (shutdown_ (state w)) eqn:Hq; [by apply Hclose|].
  cbn [Run]. rewrite (bindS_Ok _ _ _ (state w) w), Hq by done. destruct cs as [|c0 cs]; cbn in Hfuel, Hcs.
  - eapply returnsS_bind, returns_mono; [by eapply run_once_round|].
    intros [[] w1] (Hok1 & more & [(_ & Hshut & _)|[[more' Hm] Hw]]).
    + destruct fuel; [lia|]. by apply Hclose, Hshut.
    + apply (IH w1 [] ((post ++ more) ++ more') Hok1); [done|cbn; lia].
  - eapply returnsS_bind, returns_mono; [by eapply run_once_round|].
    intros [[] w1] (Hok1 & more & [([more' Hm] & _ & Hw)|[[more' Hm] Hw]]).
    + apply (IH w1 cs (post ++ more ++ more') Hok1); [by rewrite Hm, <- !app_assoc|lia].
    + apply (IH w1 (c0 :: cs) (post ++ more ++ more') Hok1); [by rewrite Hm, <- !app_assoc|cbn; lia].
Qed.
End ends.
End run.
