(* ===== verification/HandleWatcherSample.v ===== *)
(** * A small system for the handle watcher

    A system that behaves as [WatcherLaws] asks: a clock that stands still, a control
    pipe with the handle 1 and a queue of messages, handles on which nothing happens,
    handles from 50 on whose peer is closed, and no handles from 100 on.  The theorems
    about the watcher are instantiated on it. *)
From stdpp Require Import base list numbers option gmap sorting.
From S2P Require Import Prelude MojoResult System Codec WatcherCommand HandleWatcher HandleWatcherInv HandleWatcherSpec HandleWatcherWait HandleWatcherPrune HandleWatcherRun.

Record Sys := mkSys {
  sys_now : Z;
  sys_queue : list HandleWatcherCommand;
}.

(** The clock shows a number of microseconds below 2^63. *)
Definition sys_clock (e : Sys) : Z := Z.max 0 (Z.min (2 ^ 63 - 1) (sys_now e)).

Definition sys_control : Z := 1.

#[global] Instance valid_command_dec `{!DartApi} control c : Decision (valid_command control c).
Proof. unfold valid_command. apply _. Defined.

(** The messages that are well-formed; nothing else is ever sent. *)
Definition well_formed (c : HandleWatcherCommand) : bool :=
  let op := Z.shiftr (data_ c) 3 in let h := u32 (handle_or_deadline_ c) in
  (op =? 0) && negb (h =? 0) && (negb (h =? sys_control) || negb (port_ c =? 0)) ||
  (op =? 1) && negb (h =? sys_control) || (op =? 2) && negb (h =? sys_control) ||
  (op =? 3) && (handle_or_deadline_ c <=? max_millis) || (op =? 4).

Definition sys_commands (e : Sys) : list HandleWatcherCommand :=
  filter (λ c, Is_true (well_formed c)) (sys_queue e).

Definition sys_valid (h : Z) : bool := (0 <? h) && (h <? 100).
Definition sys_gone (h : Z) : bool := 50 <=? h.

(** Only the control handle is ever readable. *)
Definition sys_states (handles : list Z) (readable : bool) : list MojoHandleSignalsState :=
  (λ h, if h =? sys_control then
          if readable then mkSignalsState MOJO_HANDLE_SIGNAL_READABLE MOJO_HANDLE_SIGNAL_READABLE
          else mkSignalsState 0 0
        else if sys_gone h then
          mkSignalsState MOJO_HANDLE_SIGNAL_PEER_CLOSED MOJO_HANDLE_SIGNAL_PEER_CLOSED
        else mkSignalsState 0 0) <$> handles.

#[global] Instance Sys_api : DartApi := { ILLEGAL_PORT := 0 }.

#[global] Instance Sys_env : WatcherEnv Sys := {
  env_ticks e := (sys_clock e, e);
  env_close h e := (MOJO_RESULT_OK, e);
  env_wait h s d e :=
    (if negb (sys_valid h) then MOJO_RESULT_INVALID_ARGUMENT
     else if (h =? sys_control) || negb (sys_gone h) then MOJO_RESULT_DEADLINE_EXCEEDED
     else MOJO_RESULT_OK, e);
  env_wait_many handles signals n d states e :=
    if negb (forallb sys_valid handles) then Some (MOJO_RESULT_INVALID_ARGUMENT, states, e)
    else if existsb sys_gone handles then
      if bool_decide (length states = length handles) then
        Some (MOJO_RESULT_FAILED_PRECONDITION, sys_states handles false, e) else None
    else if bool_decide (length states = length handles) then
      if bool_decide (sys_commands e = []) then
        if d =? MOJO_DEADLINE_INDEFINITE then None
        else Some (MOJO_RESULT_DEADLINE_EXCEEDED, sys_states handles false, e)
      else Some (MOJO_RESULT_OK, sys_states handles true, e)
    else None;
  env_read h n e :=
    match sys_commands e with
    | c :: cs => (MOJO_RESULT_OK, sizeof_HandleWatcherCommand, 0, c, mkSys (sys_now e) cs)
    | [] => (MOJO_RESULT_SHOULD_WAIT, 0, 0, mkCommand 0 0 0, e)
    end;
  env_post_null p e := e;
  env_post_integer p v e := e;
}.

Definition sys_later (e e' : Sys) : Prop :=
  sys_commands e `prefix_of` sys_commands e' ∧ sys_clock e <= sys_clock e'.

#[global] Instance sys_later_preorder : PreOrder sys_later.
Proof.
  split; [by intros e|]. intros e1 e2 e3 [H1 H2] [H3 H4]. split; [by etransitivity|lia].
Qed.

Lemma sys_commands_valid e : Forall (valid_command sys_control) (sys_commands e).
Proof.
  apply Forall_forall. intros c [Hc _]%list_elem_of_filter. apply Is_true_true in Hc.
  unfold well_formed in Hc. unfold valid_command, Command.command, Command.handle, Command.port,
    Command.deadline, kCommandAddHandle, kCommandRemoveHandle, kCommandCloseHandle, kCommandAddTimer,
    kCommandShutdownHandleWatcher, MOJO_HANDLE_INVALID. cbn. lia.
Qed.

Lemma sys_states_control handles i ss readable :
  handles !! i = Some sys_control → sys_states handles readable !! i = Some ss →
  Z.land (satisfied_signals ss) MOJO_HANDLE_SIGNAL_PEER_CLOSED = 0 ∧
  (Z.land (satisfied_signals ss) MOJO_HANDLE_SIGNAL_READABLE ≠ 0 ↔ readable = true).
Proof.
  intros Hi. unfold sys_states. rewrite list_lookup_fmap, Hi. cbn. rewrite ?Z.eqb_refl.
  intros [= <-]. by destruct readable.
Qed.

#[global] Instance Sys_laws : WatcherLaws Sys sys_control.
Proof.
  refine (Build_WatcherLaws Sys _ _ sys_control sys_commands sys_clock sys_later _ _ _ _ _ _ _ _ _ _ _).
  - by intros e e' [].
  - by intros e e' [].
  - apply sys_commands_valid.
  - intros e. cbn. unfold sys_clock. split_and!; [lia..|done].
  - by intros h e _.
  - intros h s d e. cbn. split; [done|]. intros ->. by right.
  - intros handles signals n d states e. cbn.
    destruct (forallb sys_valid handles); cbn [negb]; [|split_and!; [done|done|by left]].
    case_bool_decide as Hlen; [|by destruct (existsb sys_gone handles)].
    assert (Hsize : ∀ b, length (sys_states handles b) = length states)
      by (intros; unfold sys_states; by rewrite length_fmap).
    destruct (existsb sys_gone handles).
    { split_and!; [done|by rewrite Hsize|right]. intros i ss Hi Hss.
      pose proof (sys_states_control _ _ _ _ Hi Hss). naive_solver. }
    case_bool_decide as Hq; [destruct (d =? MOJO_DEADLINE_INDEFINITE); [done|]|]; (split_and!; [done|by rewrite Hsize|right]);
      intros i ss Hi Hss; pose proof (sys_states_control _ _ _ _ Hi Hss); naive_solver.
  - intros e c cs Hcs. cbn. rewrite Hcs. eexists. split; [done|]. split; [|done].
    unfold sys_commands in *. cbn.
    assert (Hall : Forall (λ c, Is_true (well_formed c)) cs).
    { apply Forall_forall. intros c' Hc'. assert (Hin : c' ∈ c :: cs) by (by right).
      rewrite <- Hcs in Hin. by apply list_elem_of_filter in Hin as [? _]. }
    clear Hcs. induction Hall as [|c' cs' Hc' _ IH]; [done|]. rewrite filter_cons_True by done.
    by apply prefix_cons.
  - done.
  - done.
Defined.

Lemma forallb_not_valid handles :
  forallb sys_valid handles = false → ∃ h, h ∈ handles ∧ sys_valid h = false.
Proof.
  induction handles as [|h l IH]; cbn; [done|]. intros [Hh|Hl]%andb_false_iff.
  - exists h. split; [by left|done].
  - destruct (IH Hl) as (h' & Hin & Hv). exists h'. split; [by right|done].
Qed.

(** It never tries the thread's patience. *)
Lemma Sys_attentive : attentive (E:=Sys) sys_control (λ _, 0%nat).
Proof.
  split; [done|done|]. intros handles signals n d states e Hc Hvalid Hlen Hq. cbn.
  destruct (forallb sys_valid handles) eqn:Hv; cbn [negb].
  - rewrite bool_decide_eq_true_2, bool_decide_eq_false_2 by done.
    destruct (existsb sys_gone handles) eqn:Hg.
    + eexists _, _, _. split; [done|]. right; right; left. split; [by split|]. split; [done|].
      apply existsb_exists in Hg as (h & Hin%list_elem_of_In & Hh).
      apply list_elem_of_lookup in Hin as [i Hi]. exists i, h. eexists. split; [done|].
      assert (Hne : h ≠ sys_control) by (unfold sys_gone, sys_control in *; lia).
      split; [done|]. unfold sys_states. rewrite list_lookup_fmap, Hi. cbn.
      rewrite (proj2 (Z.eqb_neq _ _)), Hh by done. done.
    + eexists _, _, _. split; [done|]. left. split; [done|]. intros ss Hss.
      by apply (sys_states_control _ _ _ _ Hc Hss).
  - eexists _, _, _. split; [done|]. right; left. split; [done|].
    apply forallb_not_valid in Hv as (h & Hin & Hh). exists h. split; [done|].
    split; [by intros ->|]. intros e1 _. cbn. rewrite Hh. cbn. by split.
Qed.

(** *** Runs *)

(** Watch the handle 5 for port 9, wake port 7 at 0 ms, close handle 5 and tell port 8,
    shut down. *)
Definition sample_commands : list HandleWatcherCommand :=
  [mkCommand 5 9 3; mkCommand 0 7 24; mkCommand 5 8 16; mkCommand 0 0 32].

(** A world in which they were sent; the thread has not started. *)
Definition sample_world : World Sys :=
  mkWorld (mkThreadState false 0 [] [] [] [] ∅ []) (mkSys 0 sample_commands) [].

Definition sample_started : World Sys :=
  mkWorld (initial_state sys_control) (mkSys 0 sample_commands) [].

Lemma sys_control_valid : 0 < sys_control < 2 ^ 32.
Proof. unfold sys_control. lia. Qed.

Lemma sample_ok : watcher_ok sys_control (state sample_started).
Proof. apply (initial_ok (E:=Sys) sys_control), sys_control_valid. Qed.

(** What the thread did, without what the waits said. *)
Definition deeds (t : list Event) : list Event :=
  List.filter (λ ev, match ev with Waited _ _ | WaitedMany _ _ => false | _ => true end) t.

(** The thread fires the alarm, closes the handle and ends. *)
Example sample_run :
  match ThreadMain (E:=Sys) 9 sys_control sample_world with
  | Ok (_, w) => deeds (trace w) = [Closed 1; Closed 1; PostedNull 8; Closed 5; PostedNull 7]
  | Crash _ => False
  end.
Proof. vm_compute. reflexivity. Qed.

(** Watch the handle 5, one that does not exist and one whose peer is closed; shut
    down. *)
Definition prune_commands : list HandleWatcherCommand :=
  [mkCommand 5 7 3; mkCommand 100 9 3; mkCommand 60 8 3; mkCommand 0 0 32].

Definition prune_world : World Sys :=
  mkWorld (mkThreadState false 0 [] [] [] [] ∅ []) (mkSys 0 prune_commands) [].

(** Both are pruned, and 5 is not. *)
Example prune_run :
  match ThreadMain (E:=Sys) 9 sys_control prune_world with
  | Ok (_, w) => deeds (trace w) =
      [Closed 1; Closed 1; PostedInteger 8 4; Closed 60; PostedInteger 9 4; Closed 100]
  | Crash _ => False
  end.
Proof. vm_compute. reflexivity. Qed.

(** A thread with three timers, at 10.5 ms. *)
Definition alarmed : World Sys :=
  mkWorld (put_timers [mkTimer 3 7; mkTimer 10 8; mkTimer 30 9] (initial_state sys_control))
    (mkSys 10500 []) [].

Lemma alarmed_ok : watcher_ok sys_control (state alarmed).
Proof.
  apply put_timers_ok; [apply (initial_ok (E:=Sys) sys_control), sys_control_valid|]. split.
  - repeat constructor.
  - by apply (bool_decide_unpack _).
  - intros t Ht. change max_millis with 9223372036854775. set_unfold in Ht.
    destruct Ht as [->|[->|[->|[]]]]; cbn; lia.
Qed.
