(* ===== verification/HandleWatcherSafe.v ===== *)
(** * The handle watcher does what it promises

    The theorems about a whole thread, each applied to a run on the small system of
    HandleWatcherSample.v. *)
From stdpp Require Import base list numbers option gmap sorting.
From S2P Require Import Prelude MojoResult System Codec WatcherCommand HandleWatcher HandleWatcherInv HandleWatcherSpec HandleWatcherWait HandleWatcherPrune HandleWatcherRun HandleWatcherSample.

Section safe.
Context {E : Type} `{!DartApi} `{!WatcherEnv E} (control : Z) `{!WatcherLaws E control}.
Implicit Types (w : World E).

Lemma initial_watched :
  watched (initial_state control) = {[control := (MOJO_HANDLE_SIGNAL_READABLE, ILLEGAL_PORT)]}.
Proof. unfold watched. cbn. by rewrite omap_singleton. Qed.

(** C24: Whatever the system, the isolate and the senders of commands do within
    [WatcherLaws], a thread that ends did what the abstract watcher does: round after
    round it fired the earliest timers first and waited on exactly the handles watched;
    after a wait that succeeded it notified the handles reported ready and forgot them,
    then, if the control handle was readable, obeyed the next command, in the order
    sent; after a wait that failed it pruned exactly the watched handles that were
    reported dead, by the wait itself or, if that refused an argument, by [MojoWait]
    for each; it was told to quit; with these posts and closed handles and no others.
    No check fails, no vector is accessed outside its bounds and no arithmetic
    overflows.  At its end the control handle is closed, by [Run] and once more by the
    destructor. *)
Theorem ThreadMain_refines fuel w :
  0 < control < 2 ^ 32 →
  safely (ThreadMain fuel control) w (λ _ w', ∃ cs evs a more,
    watcher_steps control Idle
      (mkWatcher {[control := (MOJO_HANDLE_SIGNAL_READABLE, ILLEGAL_PORT)]} ∅ false) cs evs Idle a ∧
    quit a = true ∧ cs `prefix_of` commands (env w) ++ more ∧
    trace w' = Closed control :: Closed control :: evs ++ trace w).
Proof.
  intros Hc. unfold ThreadMain. apply safely_bind. unfold safely at 1, guarded. rewrite new_eq by done.
  apply safely_bind. eapply safely_mono; [apply (Run_safe control); by apply initial_ok|].
  intros [] w2 (w1 & [Hok1 (cs & evs & more & Hsteps & Ht1 & Hcs)] & Hq & Hs2 & Ht2).
  unfold HandleWatcherThreadState_destroy. apply safely_bind, safely_get_thread.
  rewrite Hs2, (ok_consumer control), (proj2 (Z.eqb_neq _ _)) by
    (done || by eapply control_not_invalid). cbn [negb].
  unfold safely, guarded. rewrite (bindS_Ok _ _ _ _ _ (MojoClose_eq control w2)). cbn.
  exists cs, evs, (abs (state w1)), more. split_and!; [|done| |by rewrite Ht2, Ht1].
  - replace (mkWatcher _ _ _) with (abs (initial_state control)); [done|].
    unfold abs. cbn. f_equal. by apply initial_watched.
  - cbn in Hcs. rewrite Hcs. by apply prefix_app_r.
Qed.

(** The states of a thread at the top of its loop. *)
Inductive reached w0 : World E → Prop :=
| reached_new w :
    HandleWatcherThreadState_new control w0 = Ok (tt, w) → reached w0 w
| reached_again w w' :
    reached w0 w → run_once w = Ok (tt, w') → reached w0 w'.

(** C25: Whenever the thread is about to wait or to end, its four vectors have the
    same length, the map sends exactly the handles of the first vector to their
    indices, the handles are distinct and valid, and the first is the control handle
    with its own signals and no port; the timers are in order, one for a port. *)
Theorem thread_tables_ok w0 w :
  0 < control < 2 ^ 32 → reached w0 w → watcher_ok control (state w) ∧
  NoDup (wait_many_handles_ (state w)) ∧ vec_size (wait_many_handles_ (state w)) < 2 ^ 32.
Proof.
  intros Hc Hr. assert (Hok : watcher_ok control (state w)).
  { induction Hr as [w Hnew|w w' _ IH Hrun].
    - rewrite new_eq in Hnew by done. injection Hnew as <-. by apply initial_ok.
    - pose proof (run_once_advances control w IH) as Hadv. unfold safely in Hadv.
      rewrite Hrun in Hadv. apply Hadv. }
  split_and!; [done|by eapply handles_NoDup|by eapply handles_bound].
Qed.

(** C27: A command to shut down ends the thread, if the system is [attentive]: while
    a command is pending a wait succeeds and sees it, or fails because of a handle that
    it or [MojoWait] reports dead, or does something else for at most so many times as
    the system has [patience].  Each round obeys a command, prunes a handle or uses up
    some patience, and the thread returns within two rounds for every command before
    that one, one for each unit of patience and two more. *)
Theorem shutdown_ends_thread patience cs c post w fuel :
  0 < control < 2 ^ 32 → attentive control patience → commands (env w) = cs ++ c :: post →
  Command.command c = kCommandShutdownHandleWatcher →
  (patience (env w) + 2 * length cs + 1 < fuel)%nat →
  returns (ThreadMain fuel control w) (λ _, True).
Proof.
  intros Hc Hatt Hcs Hshut Hfuel. unfold ThreadMain.
  rewrite (bindS_Ok _ _ _ _ _ (new_eq control w Hc)). eapply returnsS_bind, returns_mono.
  { eapply (Run_ends control); [exact Hatt|by apply initial_ok|exact Hcs|done|].
    unfold weight. cbn [state env]. rewrite initial_watched, map_size_singleton. lia. }
  intros [[] w'] _. unfold HandleWatcherThreadState_destroy.
  rewrite (bindS_Ok _ _ _ (state w') w') by done. case_match; [|done].
  by rewrite (bindS_Ok _ _ _ _ _ (MojoClose_eq _ w')).
Qed.

(** C26: [ProcessTimers] fires a prefix of the timers, in the order of their
    deadlines: all those due when it starts and none that is not due when it ends;
    each port is posted to once, and the other timers stay. *)
Theorem timers_fire_when_due w :
  watcher_ok control (state w) →
  returns (ProcessTimers w) (λ '(_, w'), ∃ fired rest,
    timers_ (state w) = fired ++ rest ∧ timers_ (state w') = rest ∧
    trace w' = concat (rev ((λ t, null_events (tm_port t)) <$> fired)) ++ trace w ∧
    (∀ t, t ∈ timers_ (state w) → tm_deadline t <= millis (clock (env w)) → t ∈ fired) ∧
    (∀ t, t ∈ fired → tm_deadline t <= millis (clock (env w'))) ∧
    watched (state w') = watched (state w)).
Proof.
  intros Hok. eapply returns_mono; [by apply (ProcessTimers_fires control)|].
  intros [[] w'] (_ & fired & rest & [Hsplit Hst Htr _ Hdue Hrest]). exists fired, rest.
  split_and!; [done|by rewrite Hst|done| |done|by rewrite Hst].
  rewrite Hsplit. intros t [Ht|Ht]%elem_of_app Hd; [done|]. specialize (Hrest t Ht). lia.
Qed.
End safe.

(** Three bits of signals below the command. *)
Lemma data_decodes command x :
  0 <= x < 8 →
  Z.shiftr (Z.lor (Z.shiftl command 3) x) 3 = command ∧
  Z.land (Z.lor (Z.shiftl command 3) x) MOJO_HANDLE_SIGNAL_ALL = x.
Proof.
  intros Hx. change MOJO_HANDLE_SIGNAL_ALL with (Z.ones 3). split.
  - rewrite Z.shiftr_lor, Z.shiftr_shiftl_l, (Z.shiftr_div_pow2 x) by lia.
    change (2 ^ 3) with 8. rewrite Z.div_small by done. by rewrite Z.lor_0_r, Z.shiftl_0_r.
  - rewrite Z.land_lor_distr_l, !Z.land_ones, Z.shiftl_mul_pow2, Z.mod_mul by lia.
    apply Z.mod_small. done.
Qed.

Lemma set_data_decodes command signals :
  ∃ d, Command.set_data command signals = Ok d ∧ Z.shiftr d 3 = command ∧
    u32 (Z.land d MOJO_HANDLE_SIGNAL_ALL) = Z.land signals MOJO_HANDLE_SIGNAL_ALL.
Proof.
  eexists. split; [done|]. assert (Hx : 0 <= Z.land signals MOJO_HANDLE_SIGNAL_ALL < 8).
  { change MOJO_HANDLE_SIGNAL_ALL with (Z.ones 3). rewrite Z.land_ones by lia.
    apply Z.mod_pos_bound. lia. }
  destruct (data_decodes command _ Hx) as [Hc Hs]. split; [done|]. rewrite Hs. apply u32_small. lia.
Qed.

(** A command built from Dart's integers arrives as it was meant: [command()]
    gives one of the five cases of the [switch], [handle()] the handle, [signals()]
    those of the three signals that were asked for, [deadline()] and [port()] what
    was passed. *)
Theorem FromDart_decodes `{!DartApi} command handle_or_deadline port signals :
  0 <= command <= 4 →
  ∃ c, Command.FromDart command handle_or_deadline port signals = Ok c ∧
    Command.command c = command ∧
    (command < kCommandAddTimer → Command.handle c = u32 handle_or_deadline) ∧
    (command = kCommandAddTimer → Command.deadline c = handle_or_deadline) ∧
    (command = kCommandAddHandle →
      Command.signals c = Z.land (u32 signals) MOJO_HANDLE_SIGNAL_ALL) ∧
    (command = kCommandAddHandle ∨ command = kCommandCloseHandle ∨ command = kCommandAddTimer →
      Command.port c = port) ∧
    (command = kCommandRemoveHandle ∨ command = kCommandShutdownHandleWatcher →
      Command.port c = ILLEGAL_PORT).
Proof.
  intros Hc. unfold Command.FromDart, Command.Add, Command.Remove, Command.Close, Command.Timer,
    Command.Shutdown, kCommandAddHandle, kCommandRemoveHandle, kCommandCloseHandle,
    kCommandAddTimer, kCommandShutdownHandleWatcher, Command.command, Command.handle,
    Command.signals, Command.deadline, Command.port.
  assert (command = 0 ∨ command = 1 ∨ command = 2 ∨ command = 3 ∨ command = 4) as Hcases by lia.
  destruct Hcases as [->|[->|[->|[->| ->]]]]; cbn [Z.eqb];
    match goal with |- context [Command.set_data ?c ?s] =>
      destruct (set_data_decodes c s) as (d & Hd & Hshift & Hsig)
    end; rewrite Hd; eexists; (split; [done|]); cbn;
    rewrite ?(u32_small (u32 _)) by apply u32_range; split_and!; (done || lia || naive_solver lia).
Qed.


(** *** Witnesses *)
Lemma ThreadMain_refines_witness :
  0 < sys_control < 2 ^ 32 ∧ ∃ w', ThreadMain 9 sys_control prune_world = Ok (tt, w') ∧
  ∃ cs evs a more,
    watcher_steps sys_control Idle
      (mkWatcher {[sys_control := (MOJO_HANDLE_SIGNAL_READABLE, ILLEGAL_PORT)]} ∅ false) cs evs Idle a ∧
    quit a = true ∧ cs `prefix_of` commands (control:=sys_control) (env prune_world) ++ more ∧
    trace w' = Closed sys_control :: Closed sys_control :: evs ++ trace prune_world.
Proof.
  split; [exact sys_control_valid|].
  pose proof (ThreadMain_refines (E:=Sys) sys_control 9 prune_world sys_control_valid) as H.
  unfold safely, guarded in H.
  destruct (ThreadMain 9 sys_control prune_world) as [[[] w']|f] eqn:Hrun.
  - exists w'. split; [reflexivity|exact H].
  - exfalso. revert Hrun. vm_compute. discriminate.
Defined.

Lemma thread_tables_ok_witness :
  reached sys_control sample_world sample_started ∧ watcher_ok sys_control (state sample_started).
Proof.
  assert (Hr : reached sys_control sample_world sample_started)
    by (apply reached_new; vm_compute; reflexivity).
  split; [exact Hr|]. apply (thread_tables_ok (E:=Sys) sys_control sample_world); [exact sys_control_valid|exact Hr].
Defined.

Lemma shutdown_ends_thread_witness :
  attentive (E:=Sys) sys_control (λ _, 0%nat) ∧
  returns (ThreadMain (E:=Sys) 8 sys_control prune_world) (λ _, True).
Proof.
  split; [exact Sys_attentive|].
  apply (shutdown_ends_thread (E:=Sys) sys_control (λ _, 0%nat) (take 3 prune_commands) (mkCommand 0 0 32) []);
    [exact sys_control_valid|exact Sys_attentive|vm_compute; reflexivity|vm_compute; reflexivity|cbn; lia].
Defined.

Lemma timers_fire_when_due_witness :
  watcher_ok sys_control (state alarmed) ∧
  returns (ProcessTimers alarmed) (λ '(_, w'), timers_ (state w') = [mkTimer 30 9] ∧
    trace w' = [PostedNull 8; PostedNull 7]) ∧
  ∃ r, ProcessTimers alarmed = Ok r ∧ ∃ fired rest,
    timers_ (state alarmed) = fired ++ rest ∧ timers_ (state r.2) = rest.
Proof.
  pose proof alarmed_ok as Hok.
  split; [exact Hok|]. split; [vm_compute; split; reflexivity|].
  pose proof (timers_fire_when_due (E:=Sys) sys_control alarmed Hok) as H.
  apply returns_Ok_inv in H as ([[] w'] & Hrun & fired & rest & Hs & Hr & _).
  exists (tt, w'). split; [exact Hrun|]. exists fired, rest. by split.
Defined.

Lemma FromDart_decodes_witness :
  ∃ c, Command.FromDart 0 5 9 11 = Ok c ∧ Command.signals c = 3.
Proof.
  destruct (FromDart_decodes 0 5 9 11) as (c & Hc & _ & _ & _ & Hs & _); [lia|].
  exists c. split; [exact Hc|]. by apply Hs.
Defined.
