(* ===== verification/HandleWatcherFlaws.v ===== *)
(** * Where the handle watcher fails

    Two timers of one deadline, a timer whose deadline passes before the wait, and
    a handle that is invalid: what the code does, whatever the system below does
    besides what is stated. *)
From stdpp Require Import base list numbers option gmap sorting.
From S2P Require Import Prelude MojoResult System Codec Handles WatcherCommand HandleWatcher HandleWatcherInv HandleWatcherSpec HandleWatcherWait HandleWatcherPrune HandleWatcherRun HandleWatcherSample.

Section flaws.
Context {E : Type} `{!DartApi} `{!WatcherEnv E}.
Implicit Types (w : World E).

(** ** Timers with one deadline *)

(** The set of timers is ordered by deadline alone, so that it holds one timer of
    a deadline: a port that asks for a deadline at which another port is to be woken
    loses its timer and the one it had before, and is never posted to. *)
Theorem equal_deadlines_lose_timer (control : Z) w d p other :
  watcher_ok control (state w) → 0 <= d → mkTimer d other ∈ timers_ (state w) → other ≠ p →
  returns (UpdateTimer d p w) (λ '(_, w'),
    (∀ t, t ∈ timers_ (state w') → tm_port t ≠ p) ∧ mkTimer d other ∈ timers_ (state w')).
Proof.
  intros Hok Hd Hin Hne. pose proof (ok_timers control _ Hok) as Hts.
  pose proof (erase_port_ok p _ Hts) as Hts'. unfold UpdateTimer.
  rewrite (bindS_Ok _ _ _ (state w) w) by done. rewrite (bindS_Ok _ _ _ _ _ (set_timers_eq _ w)).
  rewrite (proj2 (Z.ltb_ge _ _)) by done. eapply returnsS_bind. cbn [get_thread returns].
  rewrite set_timers_eq. cbn [returns state timers_ put_timers].
  assert (Hold : mkTimer d other ∈ erase_port p (timers_ (state w))).
  { apply elem_of_erase_port; [by apply Hts|]. done. }
  split.
  - intros t. rewrite elem_of_set_insert by apply Hts'. intros [Ht|[-> Hfresh]].
    + by apply elem_of_erase_port in Ht as [_ ?]; [|apply Hts].
    + exfalso. apply Hfresh. cbn. by apply (list_elem_of_fmap_2 tm_deadline) in Hold.
  - apply elem_of_set_insert; [by apply Hts'|]. by left.
Qed.

(** ** A deadline that has passed *)

(** If the clock reaches a millisecond after the deadline of the next timer when
    [WaitDeadline] reads it, the negative difference becomes an unsigned deadline:
    [MojoWaitMany] is asked to wait for 2^64 us less the lateness, and the system
    library waits for more than 2^63 ns, some 292 years, whatever the lateness below
    2^43 ms.  The timer, and the later ones, wait for an event on a handle. *)
Theorem passed_deadline_waits_forever w t rest ticks e late :
  timers_ (state w) = t :: rest → env_ticks (env w) = (ticks, e) →
  millis ticks = tm_deadline t + late → 0 < late < 2 ^ 43 →
  WaitDeadline w = Ok (- 1000 * late, mkWorld (state w) e (trace w)) ∧
  u64 (- 1000 * late) = 2 ^ 64 - 1000 * late ∧
  2 ^ 63 < MojoDeadlineToTime (u64 (- 1000 * late)) < 2 ^ 64.
Proof.
  intros Hts Hticks Hlate Hr. set (w1 := mkWorld (state w) e (trace w)).
  assert (Hint : ∀ z, - 2 ^ 63 <= z < 2 ^ 63 → int64 z w1 = Ok (z, w1)).
  { intros z Hz. unfold int64. by rewrite (proj2 (Z.leb_le _ _)), (proj2 (Z.ltb_lt _ _)) by lia. }
  split; [|split].
  - unfold WaitDeadline. rewrite (bindS_Ok _ _ _ _ _ (HasTimers_eq w)), Hts.
    rewrite bool_decide_eq_false_2 by done. cbn [negb].
    rewrite (bindS_Ok _ _ _ (millis ticks) w1).
    + rewrite (bindS_Ok _ _ _ _ _ (NextTimerDeadline_eq w1 t rest Hts)).
      rewrite (bindS_Ok _ _ _ _ _ (Hint (tm_deadline t - millis ticks) ltac:(lia))), Hint by lia.
      do 2 f_equal. lia.
    + unfold GetDartTimeInMillis, call_env, mbind, stateR_bind. by rewrite Hticks.
  - unfold u64. rewrite <- (Z.mod_unique (- 1000 * late) (2 ^ 64) (-1) (2 ^ 64 - 1000 * late)); lia.
  - unfold MojoDeadlineToTime.
    assert (Hu : u64 (- 1000 * late) = 2 ^ 64 - 1000 * late).
    { unfold u64. rewrite <- (Z.mod_unique (- 1000 * late) (2 ^ 64) (-1) (2 ^ 64 - 1000 * late)); lia. }
    rewrite Hu, (proj2 (Z.eqb_neq _ _)) by (change MOJO_DEADLINE_INDEFINITE with (2 ^ 64 - 1); lia).
    unfold u64. rewrite <- (Z.mod_unique ((2 ^ 64 - 1000 * late) * 1000) (2 ^ 64) 999
      (2 ^ 64 - 1000000 * late)); lia.
Qed.

(** ** A handle that is not one *)
Section invalid_handle.
Context (control : Z).
Abbreviation any := (λ _ : fault, True).

(** The thread watches its control handle and MOJO_HANDLE_INVALID. *)
Definition stuck (st : HandleWatcherThreadState) : Prop :=
  wait_many_handles_ st = [control; MOJO_HANDLE_INVALID] ∧
  handle_to_index_map_ st !! control = Some CONTROL_HANDLE_INDEX ∧ shutdown_ st = false.

Lemma guarded_step {A B} (m : stateR (World E) A) (k : A → stateR (World E) B) w x w1 Q :
  m w = Ok (x, w1) → guarded any (k x) w1 Q → guarded any (m ≫= k) w Q.
Proof. intros Hm Hk. unfold guarded. by rewrite (bindS_Ok _ _ _ _ _ Hm). Qed.

Lemma stuck_get w (Q : HandleWatcherThreadState → World E → Prop) :
  Q (state w) w → guarded any get_thread w Q.
Proof. done. Qed.

Lemma stuck_call {A} (f : E → A * E) w :
  stuck (state w) → guarded any (call_env f) w (λ _ w', stuck (state w')).
Proof. intros Hw. unfold guarded, call_env. by destruct (f (env w)). Qed.

Lemma stuck_PostNull p w : stuck (state w) → guarded any (PostNull p) w (λ _ w', stuck (state w')).
Proof. intros Hw. unfold PostNull. by case_match. Qed.

Lemma stuck_set_timers ts w :
  stuck (state w) → guarded any (set_timers ts) w (λ _ w', stuck (state w')).
Proof. done. Qed.

Lemma stuck_CompleteNextTimer w :
  stuck (state w) → guarded any CompleteNextTimer w (λ _ w', stuck (state w')).
Proof.
  intros Hw. apply guarded_bind, stuck_get. destruct (timers_ (state w)); [done|].
  apply guarded_bind. eapply guarded_mono; [by apply stuck_PostNull|]. intros [] w1 Hw1.
  by apply stuck_set_timers.
Qed.

Lemma stuck_now w :
  stuck (state w) → guarded any GetDartTimeInMillis w (λ _ w', stuck (state w')).
Proof.
  intros Hw. apply guarded_bind. eapply guarded_mono; [by apply stuck_call|]. by intros t w1 Hw1.
Qed.

Lemma stuck_complete_timers fuel now w :
  stuck (state w) → guarded any (complete_timers fuel now) w (λ _ w', stuck (state w')).
Proof.
  revert now w. induction fuel as [|fuel IH]; intros now w Hw; [done|]. cbn [complete_timers].
  eapply guarded_step; [apply HasTimers_eq|].
  destruct (timers_ (state w)) as [|t ts] eqn:Hts; [done|]. rewrite bool_decide_eq_false_2 by done.
  eapply guarded_step; [by eapply NextTimerDeadline_eq|]. destruct (tm_deadline t <=? now); [|done].
  apply guarded_bind. eapply guarded_mono; [by apply stuck_CompleteNextTimer|]. intros [] w1 Hw1.
  apply guarded_bind. eapply guarded_mono; [by apply stuck_now|]. intros now' w2 Hw2. by apply IH.
Qed.

Lemma stuck_ProcessTimers w :
  stuck (state w) → guarded any ProcessTimers w (λ _ w', stuck (state w')).
Proof.
  intros Hw. apply guarded_bind. eapply guarded_mono; [by apply stuck_now|]. intros now w1 Hw1.
  apply guarded_bind, stuck_get. by apply stuck_complete_timers.
Qed.

Lemma stuck_int64 z w : stuck (state w) → guarded any (int64 z) w (λ _ w', stuck (state w')).
Proof. intros Hw. unfold int64. by destruct ((- 2 ^ 63 <=? z) && (z <? 2 ^ 63)). Qed.

Lemma stuck_WaitDeadline w :
  stuck (state w) → guarded any WaitDeadline w (λ _ w', stuck (state w')).
Proof.
  intros Hw. eapply guarded_step; [apply HasTimers_eq|]. case_bool_decide; [done|]. cbn [negb].
  apply guarded_bind. eapply guarded_mono; [by apply stuck_now|]. intros now w1 Hw1.
  destruct (timers_ (state w1)) as [|t ts] eqn:Hts.
  - apply guarded_bind, guarded_bind, stuck_get. by rewrite Hts.
  - eapply guarded_step; [by eapply NextTimerDeadline_eq|]. apply guarded_bind.
    eapply guarded_mono; [by apply stuck_int64|]. intros z w2 Hw2. by apply stuck_int64.
Qed.

(** The control handle cannot be pruned: a check ends the process. *)
Lemma stuck_CloseHandle w :
  stuck (state w) → guarded any (CloseHandle control ILLEGAL_PORT true) w (λ _ _, False).
Proof.
  intros (_ & Hc & _). unfold CloseHandle. rewrite Z.eqb_refl.
  eapply guarded_step; [done|]. apply guarded_bind, stuck_get. rewrite Hc.
  eapply guarded_step; [apply MojoClose_eq|]. by eapply guarded_step.
Qed.

Lemma stuck_ShouldCloseHandle h w :
  stuck (state w) → guarded any (ShouldCloseHandle h) w (λ r w', stuck (state w') ∧
    (h = MOJO_HANDLE_INVALID → r = false)).
Proof.
  intros Hw. unfold ShouldCloseHandle. destruct (h =? MOJO_HANDLE_INVALID) eqn:Hz; [done|].
  apply Z.eqb_neq in Hz. apply guarded_bind. eapply guarded_mono; [by apply stuck_call|].
  intros r w1 Hw1. by apply guarded_bind.
Qed.

Lemma stuck_Prune w :
  stuck (state w) → guarded any (PruneClosedHandles false) w (λ _ w', stuck (state w')).
Proof.
  intros Hw. pose proof Hw as (Hh & _). unfold PruneClosedHandles.
  apply guarded_bind, stuck_get. rewrite Hh.
  change (seqZ 0 (vec_size [control; MOJO_HANDLE_INVALID])) with [0; 1]. cbn [collect].
  apply guarded_bind, guarded_bind. eapply guarded_step; [done|]. apply guarded_bind.
  eapply guarded_mono; [by apply stuck_ShouldCloseHandle|]. intros close w1 [Hw1 _].
  apply guarded_ret, guarded_bind, guarded_bind. eapply guarded_step; [done|]. apply guarded_bind.
  eapply guarded_mono; [by apply stuck_ShouldCloseHandle|]. intros r w2 [Hw2 Hr].
  rewrite Hr by done. apply guarded_ret, guarded_bind, guarded_ret, guarded_ret, guarded_ret.
  destruct close; [|done].
  apply guarded_bind. eapply guarded_mono; [by apply stuck_CloseHandle|]. done.
Qed.

Lemma stuck_run_once w :
  (∀ handles signals n d states e, MOJO_HANDLE_INVALID ∈ handles →
    ∃ states' e', env_wait_many handles signals n d states e =
      Some (MOJO_RESULT_INVALID_ARGUMENT, states', e')) →
  stuck (state w) → guarded any run_once w (λ _ w', stuck (state w')).
Proof.
  intros Hrefused Hw. apply guarded_bind. eapply guarded_mono; [by apply stuck_ProcessTimers|].
  intros [] w1 Hw1. apply guarded_bind, stuck_get. cbv zeta. destruct (_ =? _); [|done].
  eapply guarded_step; [done|]. apply guarded_bind. eapply guarded_mono; [by apply stuck_WaitDeadline|].
  intros d w2 Hw2. destruct (Hrefused (wait_many_handles_ (state w2)) (wait_many_signals_ (state w2))
    (u32 (vec_size (wait_many_handles_ (state w2)))) (u64 d) (wait_many_signals_state_ (state w2)) (env w2))
    as (states & e & Hwait).
  { destruct Hw2 as (-> & _). right. by left. }
  eapply guarded_step; [unfold WaitMany; by rewrite Hwait|].
  eapply guarded_step; [done|]. by apply stuck_Prune.
Qed.

(** Once the thread watches MOJO_HANDLE_INVALID besides its control handle it never
    ends: every wait is refused, as wait.h documents, [PruneClosedHandles] leaves that
    one handle where it is, and no command is read any more, not even the one to
    shut down. *)
Theorem invalid_handle_spins w fuel :
  (∀ handles signals n d states e, MOJO_HANDLE_INVALID ∈ handles →
    ∃ states' e', env_wait_many handles signals n d states e =
      Some (MOJO_RESULT_INVALID_ARGUMENT, states', e')) →
  stuck (state w) → ∃ f, Run fuel w = Crash f.
Proof.
  intros Hrefused. revert w. induction fuel as [|fuel IH]; intros w Hw; [by exists OutOfFuel|].
  cbn [Run]. rewrite (bindS_Ok _ _ _ (state w) w) by done. rewrite (proj2 (proj2 Hw)).
  pose proof (stuck_run_once w Hrefused Hw) as Hrun. unfold guarded in Hrun.
  unfold mbind, stateR_bind. destruct (run_once w) as [[[] w1]|f]; [by apply IH|by exists f].
Qed.
End invalid_handle.
End flaws.

(** *** Witnesses *)
Lemma equal_deadlines_lose_timer_witness :
  mkTimer 10 8 ∈ timers_ (state alarmed) ∧
  returns (UpdateTimer 10 9 alarmed) (λ '(_, w'), ∀ t, t ∈ timers_ (state w') → tm_port t ≠ 9).
Proof.
  assert (Hin : mkTimer 10 8 ∈ timers_ (state alarmed)) by (right; left).
  split; [exact Hin|]. eapply returns_mono.
  - apply (equal_deadlines_lose_timer (E:=Sys) sys_control alarmed 10 9 8 alarmed_ok); [lia|exact Hin|lia].
  - intros [[] w'] [H _]. exact H.
Defined.

Lemma passed_deadline_waits_forever_witness :
  WaitDeadline alarmed = Ok (-7000, alarmed) ∧ 2 ^ 63 < MojoDeadlineToTime (u64 (-7000)) < 2 ^ 64.
Proof.
  destruct (passed_deadline_waits_forever (E:=Sys) alarmed (mkTimer 3 7)
    [mkTimer 10 8; mkTimer 30 9] 10500 (mkSys 10500 []) 7) as (Hw & _ & Ht);
    [reflexivity|reflexivity|reflexivity|lia|].
  split; [exact Hw|exact Ht].
Defined.

Definition spinning : World Sys :=
  mkWorld (push_handle MOJO_HANDLE_INVALID 1 9 (initial_state sys_control))
    (mkSys 0 sample_commands) [].

Lemma invalid_handle_spins_witness :
  AddHandle MOJO_HANDLE_INVALID 1 9 sample_started = Ok (tt, spinning) ∧
  ∃ f, Run 5 spinning = Crash f.
Proof.
  split; [vm_compute; reflexivity|]. apply (invalid_handle_spins (E:=Sys) sys_control spinning 5).
  - intros handles signals n d states e H0. exists states, e. cbn.
    destruct (forallb sys_valid handles) eqn:Hv; [|reflexivity].
    rewrite forallb_forall in Hv. by specialize (Hv 0 (proj1 (list_elem_of_In _ _) H0)).
  - split; [reflexivity|]. split; reflexivity.
Defined.
