(* ===== verification/HandleWatcherThreads.v ===== *)
(** * The threads of the handle watchers

    The static functions of [HandleWatcher]: starting a thread with its control
    pipe, sending it commands, stopping one or all.  The threads are registered
    under the producer handles of their pipes.

    The mutex is not modelled: each function runs by itself.  A thread that is
    joined has ended, or [join] never returns ([Blocked]). *)
From stdpp Require Import base list numbers option gmap sorting.
From S2P Require Import Prelude MojoResult System Codec WatcherCommand HandleWatcher.

(** What the functions call: [MojoCreateMessagePipe], giving the two handles, the
    constructor and the join of [std::thread], and system calls on the pipe. *)
Class HostEnv (E : Type) := {
  host_create_pipe : Z → Z → E → Z * Z * Z * E;
  host_spawn : Z → E → Z * E;
  host_write : Z → HandleWatcherCommand → Z → E → Z * E;
  host_join : Z → E → option E;
  host_close : Z → E → Z * E;
}.

Definition sizeof_MojoCreateMessagePipeOptions : Z := 8.

(** What was done, for the theorems only. *)
Inductive HostEvent :=
| Spawned (thread consumer : Z)
| Sent (producer : Z) (command : HandleWatcherCommand)
| Joined (thread : Z)
| ClosedProducer (producer : Z)
| Deleted (thread : Z).

Record Host (E : Type) := mkHost {
  handle_watcher_threads_ : gmap Z Z;   (** producer handle to thread *)
  host : E;
  history : list HostEvent;   (** latest first *)
}.
Arguments mkHost {_}.
Arguments handle_watcher_threads_ {_}.
Arguments host {_}.
Arguments history {_}.

Section threads.
Context {E : Type} `{!HostEnv E} `{!DartApi}.
Abbreviation M := (stateR (Host E)).

Definition get_threads : M (gmap Z Z) := λ w, Ok (handle_watcher_threads_ w, w).
Definition set_threads (m : gmap Z Z) : M unit := λ w, Ok (tt, mkHost m (host w) (history w)).
Definition call_host {A} (f : E → A * E) : M A := λ w,
  let '(a, e) := f (host w) in Ok (a, mkHost (handle_watcher_threads_ w) e (history w)).
Definition record (ev : HostEvent) : M unit := λ w,
  Ok (tt, mkHost (handle_watcher_threads_ w) (host w) (ev :: history w)).

(** [t->join()] *)
Definition join (t : Z) : M unit := λ w,
  match host_join t (host w) with
  | Some e => Ok (tt, mkHost (handle_watcher_threads_ w) e (Joined t :: history w))
  | None => Crash Blocked
  end.

Definition close_producer (h : Z) : M unit :=
  call_host (host_close h);; record (ClosedProducer h).

Definition Start : M Z :=
  '(res, consumer, producer) ← call_host (λ e,
     let '(r, c, p, e) := host_create_pipe sizeof_MojoCreateMessagePipeOptions
       MOJO_CREATE_MESSAGE_PIPE_OPTIONS_FLAG_NONE e in ((r, c, p), e));
  if negb (res =? MOJO_RESULT_OK) then mret MOJO_HANDLE_INVALID
  else
  thread ← call_host (host_spawn consumer);
  record (Spawned thread consumer);;
  threads ← get_threads;
  c_assert (bool_decide (threads !! producer = None));;
  set_threads (<[producer := thread]> threads);;
  mret producer.

Definition SendCommand (control_pipe_producer_handle : Z) (command : HandleWatcherCommand) : M Z :=
  record (Sent control_pipe_producer_handle command);;
  call_host (host_write control_pipe_producer_handle command sizeof_HandleWatcherCommand).

(** The end of [MojoHandleWatcher_SendControlData] (mojo_natives.cc): the arguments
    were unpacked. *)
Definition SendControlData (control_handle command_code handle_or_deadline send_port_id signals : Z)
    : M Z :=
  command ← lift (Command.FromDart command_code handle_or_deadline send_port_id signals);
  res ← SendCommand (u32 control_handle) command;
  mret res.

(** The null pointer is [None]. *)
Definition RemoveLocked (handle : Z) : M (option Z) :=
  threads ← get_threads;
  match threads !! handle with
  | None => mret None
  | Some t => set_threads (delete handle threads);; mret (Some t)
  end.

(** What [Stop] and [StopLocked] do with the thread. *)
Definition end_thread (handle t : Z) : M unit :=
  command ← lift Command.Shutdown;
  SendCommand handle command;;
  join t;;
  close_producer handle;;
  record (Deleted t).

Definition Stop (control_pipe_producer_handle : Z) : M unit :=
  t ← RemoveLocked control_pipe_producer_handle;
  match t with
  | None => mret tt
  | Some t => end_thread control_pipe_producer_handle t
  end.

Definition StopLocked (handle : Z) : M unit :=
  t ← RemoveLocked handle;
  match t with
  | None => crash AssertFailed
  | Some t => end_thread handle t
  end.

(** The order of the map's elements is that of the model's map. *)
Definition StopAll : M unit :=
  threads ← get_threads;
  let control_handles := (map_to_list threads).*1 in
  for_each control_handles StopLocked.

(** ** What they do *)

(** The command to shut down. *)
Definition shutdown_command : HandleWatcherCommand := mkCommand 0 ILLEGAL_PORT 32.

Lemma Shutdown_eq : Command.Shutdown = Ok shutdown_command.
Proof. reflexivity. Qed.

(** What happens to a thread that is stopped, latest first. *)
Definition stop_events (x : Z * Z) : list HostEvent :=
  [Deleted x.2; ClosedProducer x.1; Joined x.2; Sent x.1 shutdown_command].

Lemma end_thread_does h t w :
  safely (end_thread h t) w (λ _ w',
    handle_watcher_threads_ w' = handle_watcher_threads_ w ∧
    history w' = stop_events (h, t) ++ history w).
Proof.
  unfold end_thread. rewrite Shutdown_eq. apply safely_bind. cbn. apply safely_bind.
  unfold SendCommand. apply safely_bind. cbn. unfold safely, guarded, call_host. cbn.
  destruct (host_write h shutdown_command sizeof_HandleWatcherCommand (host w)) as [r e]. cbn.
  unfold mbind, stateR_bind, join. cbn. destruct (host_join t e) as [e'|]; [|by right; right].
  unfold close_producer, mbind, stateR_bind, call_host. cbn. by destruct (host_close h e').
Qed.
End threads.

(** ** Every thread started is stopped once *)

(** The producer ends that are open: a new pipe's is not one of them yet, and only
    closing it takes one away. *)
Class HostLaws (E : Type) `{!HostEnv E} := {
  producers : E → gset Z;
  create_law n f e : let '(r, c, p, e') := host_create_pipe n f e in
    producers e ⊆ producers e' ∧ (r = MOJO_RESULT_OK → p ∉ producers e ∧ p ∈ producers e');
  spawn_law c e : producers e ⊆ producers (host_spawn c e).2;
  write_law h c n e : producers e ⊆ producers (host_write h c n e).2;
  join_law t e e' : host_join t e = Some e' → producers e ⊆ producers e';
  host_close_law h e : producers e ∖ {[h]} ⊆ producers (host_close h e).2;
}.

(** The calls of the Dart bindings. *)
Inductive Op :=
| OpStart
| OpSend (producer command handle_or_deadline port signals : Z)
| OpStop (producer : Z)
| OpStopAll.

Definition spawned (h : list HostEvent) : list Z :=
  omap (λ ev, match ev with Spawned t _ => Some t | _ => None end) h.
Definition joined (h : list HostEvent) : list Z :=
  omap (λ ev, match ev with Joined t => Some t | _ => None end) h.

Section accounts.
Context {E : Type} `{!HostEnv E} `{!DartApi} `{!HostLaws E}.
Implicit Types (w : Host E).

Definition perform (op : Op) : stateR (Host E) unit :=
  match op with
  | OpStart => Start;; mret tt
  | OpSend h c d p s => SendControlData h c d p s;; mret tt
  | OpStop h => Stop h
  | OpStopAll => StopAll
  end.

(** A command of [enum Command]. *)
Definition op_ok (op : Op) : Prop :=
  match op with OpSend _ c _ _ _ => 0 <= c <= 4 | _ => True end.

(** The threads started are those joined and those registered, whose pipes are
    open. *)
Record accounted w : Prop := {
  acc_open : dom (handle_watcher_threads_ w) ⊆ producers (host w);
  acc_threads : spawned (history w) ≡ₚ
    joined (history w) ++ (map_to_list (handle_watcher_threads_ w)).*2;
}.

Lemma SendCommand_accounted h c w :
  accounted w → safely (SendCommand h c) w (λ _ w', accounted w' ∧
    handle_watcher_threads_ w' = handle_watcher_threads_ w).
Proof.
  intros [Ho Ht]. unfold SendCommand. apply safely_bind. cbn. unfold safely, guarded, call_host. cbn.
  pose proof (write_law h c sizeof_HandleWatcherCommand (host w)) as Hl.
  destruct (host_write h c sizeof_HandleWatcherCommand (host w)) as [r e]. cbn in Hl |- *.
  split; [|done]. split; [set_solver|done].
Qed.

Lemma end_thread_accounted h t w :
  handle_watcher_threads_ w !! h = Some t → accounted w →
  safely (end_thread h t) (mkHost (delete h (handle_watcher_threads_ w)) (host w) (history w))
    (λ _ w', accounted w' ∧ handle_watcher_threads_ w' = delete h (handle_watcher_threads_ w)).
Proof.
  intros Hh [Ho Ht]. unfold end_thread. rewrite Shutdown_eq. apply safely_bind. cbn.
  apply safely_bind. unfold SendCommand, safely, guarded, mbind, stateR_bind, call_host, record. cbn.
  pose proof (write_law h shutdown_command sizeof_HandleWatcherCommand (host w)) as Hw.
  destruct (host_write h shutdown_command sizeof_HandleWatcherCommand (host w)) as [r e]. cbn in Hw |- *.
  unfold join. cbn. pose proof (join_law t e) as Hj. destruct (host_join t e) as [e'|]; [|by right; right].
  specialize (Hj e' eq_refl). unfold close_producer, mbind, stateR_bind, call_host. cbn.
  pose proof (host_close_law h e') as Hc. destruct (host_close h e') as [r' e'']. cbn in Hc |- *.
  split; [|done]. split; cbn.
  - rewrite dom_delete_L. set_solver.
  - rewrite Ht. rewrite <- (insert_delete_id _ _ _ Hh) at 1.
    rewrite map_to_list_insert by apply lookup_delete_eq. cbn. by rewrite Permutation_middle.
Qed.

Lemma Start_accounted w : accounted w → safely Start w (λ _ w', accounted w').
Proof.
  intros [Ho Ht]. unfold Start, safely, guarded, mbind, stateR_bind, call_host. cbn.
  pose proof (create_law sizeof_MojoCreateMessagePipeOptions
    MOJO_CREATE_MESSAGE_PIPE_OPTIONS_FLAG_NONE (host w)) as Hc.
  destruct (host_create_pipe _ _ _) as [[[r c] p] e]. destruct Hc as [Hsub Hp].
  destruct (r =? MOJO_RESULT_OK) eqn:Hr; cbn [negb].
  - apply Z.eqb_eq in Hr. destruct (Hp Hr) as [Hnew Hin]. cbn.
    pose proof (spawn_law c e) as Hs. destruct (host_spawn c e) as [t e']. cbn in Hs |- *.
    assert (Hfresh : handle_watcher_threads_ w !! p = None).
    { apply not_elem_of_dom. set_solver. }
    rewrite bool_decide_eq_true_2 by done. cbn. split; cbn.
    + rewrite dom_insert_L. set_solver.
    + rewrite map_to_list_insert by done. cbn. by rewrite Ht, Permutation_middle.
  - cbn. split; cbn; [set_solver|done].
Qed.

Lemma RemoveLocked_Some h t w :
  handle_watcher_threads_ w !! h = Some t →
  RemoveLocked h w = Ok (Some t, mkHost (delete h (handle_watcher_threads_ w)) (host w) (history w)).
Proof. intros Hh. unfold RemoveLocked, mbind, stateR_bind. cbn. by rewrite Hh. Qed.

Lemma FromDart_ok c d p s : 0 <= c <= 4 → ∃ cmd, Command.FromDart c d p s = Ok cmd.
Proof.
  intros Hc. assert (c = 0 ∨ c = 1 ∨ c = 2 ∨ c = 3 ∨ c = 4) as Hcases by lia.
  destruct Hcases as [->|[->|[->|[->| ->]]]]; by eexists.
Qed.

Lemma StopLocked_accounted h w :
  is_Some (handle_watcher_threads_ w !! h) → accounted w →
  safely (StopLocked h) w (λ _ w', accounted w' ∧
    handle_watcher_threads_ w' = delete h (handle_watcher_threads_ w)).
Proof.
  intros [t Hh] Hacc. unfold StopLocked, safely, guarded.
  rewrite (bindS_Ok _ _ _ _ _ (RemoveLocked_Some _ _ _ Hh)). by apply end_thread_accounted.
Qed.

Lemma Stop_accounted h w : accounted w → safely (Stop h) w (λ _ w', accounted w').
Proof.
  intros Hacc. unfold Stop, safely, guarded.
  destruct (handle_watcher_threads_ w !! h) as [t|] eqn:Hh.
  - rewrite (bindS_Ok _ _ _ _ _ (RemoveLocked_Some _ _ _ Hh)).
    eapply safely_mono; [by apply end_thread_accounted|]. by intros _ w' [].
  - rewrite (bindS_Ok _ _ _ None w); [done|]. unfold RemoveLocked, mbind, stateR_bind. cbn. by rewrite Hh.
Qed.

Lemma StopAll_accounted w :
  accounted w → safely StopAll w (λ _ w', accounted w' ∧ handle_watcher_threads_ w' = ∅).
Proof.
  intros Hacc. unfold StopAll. apply safely_bind. cbn.
  assert (Hdom : ∀ h, h ∈ (map_to_list (handle_watcher_threads_ w)).*1 ↔
    is_Some (handle_watcher_threads_ w !! h)).
  { intros h. rewrite list_elem_of_fmap. split.
    - intros ([h' t] & -> & Hx%elem_of_map_to_list). by exists t.
    - intros [t Ht%elem_of_map_to_list]. by exists (h, t). }
  pose proof (NoDup_fst_map_to_list (handle_watcher_threads_ w)) as Hnd.
  revert Hdom Hnd. generalize ((map_to_list (handle_watcher_threads_ w)).*1).
  intros hs Hdom Hnd. revert w Hacc Hdom. induction Hnd as [|h hs Hh Hnd IH]; intros w Hacc Hdom.
  - cbn. split; [done|]. apply map_empty. intros h. apply eq_None_not_Some. rewrite <- Hdom. set_solver.
  - cbn. apply safely_bind. eapply safely_mono; [apply StopLocked_accounted; [|done]|].
    { apply Hdom. by left. }
    intros [] w' [Hacc' Hd]. apply IH; [done|]. intros h'. rewrite Hd, lookup_delete_is_Some, <- Hdom.
    set_solver.
Qed.

Lemma perform_accounted op w :
  op_ok op → accounted w → safely (perform op) w (λ _ w', accounted w').
Proof.
  intros Hop Hacc. destruct op as [|h c d p s|h|]; cbn [perform].
  - apply safely_bind. eapply safely_mono; [by apply Start_accounted|]. done.
  - apply safely_bind. unfold SendControlData. apply safely_bind.
    destruct (FromDart_ok c d p s Hop) as (cmd & Hcmd). unfold lift, safely at 1, guarded.
    rewrite Hcmd. apply safely_bind. eapply safely_mono; [by apply SendCommand_accounted|].
    by intros r w' [Hacc' _].
  - by apply Stop_accounted.
  - eapply safely_mono; [by apply StopAll_accounted|]. by intros _ w' [].
Qed.

(** C28: Whatever watchers the Dart bindings start, command and stop, no check fails, and
    every thread started is joined exactly once or still registered, under a pipe
    end that is open; after [StopAll] none is registered, so all were joined. *)
Theorem threads_accounted ops w :
  accounted w → Forall op_ok ops →
  safely (for_each ops perform;; StopAll) w (λ _ w',
    handle_watcher_threads_ w' = ∅ ∧ spawned (history w') ≡ₚ joined (history w')).
Proof.
  intros Hacc Hops. apply safely_bind. revert w Hacc. induction Hops as [|op ops Hop _ IH]; intros w Hacc.
  - cbn. eapply safely_mono; [by apply StopAll_accounted|]. intros [] w' [[_ Ht] Hempty].
    split; [done|]. by rewrite Ht, Hempty, map_to_list_empty, app_nil_r.
  - cbn. apply safely_bind. eapply safely_mono; [by apply perform_accounted|].
    intros [] w' Hacc'. by apply IH.
Qed.
End accounts.

(** *** A host *)

(** It numbers handles and threads, and every thread ends. *)
Record Machine := mkMachine { next_handle : nat; next_thread : Z }.

#[global] Instance Machine_env : HostEnv Machine := {
  host_create_pipe n f e := (MOJO_RESULT_OK, Z.of_nat (next_handle e), Z.of_nat (next_handle e) + 1,
    mkMachine (next_handle e + 2) (next_thread e));
  host_spawn c e := (next_thread e, mkMachine (next_handle e) (next_thread e + 1));
  host_write h c n e := (MOJO_RESULT_OK, e);
  host_join t e := Some e;
  host_close h e := (MOJO_RESULT_OK, e);
}.

(** The handles given out count as open. *)
#[global] Instance Machine_laws : HostLaws Machine.
Proof.
  refine (Build_HostLaws Machine _ (λ e, list_to_set (seqZ 0 (Z.of_nat (next_handle e)))) _ _ _ _ _).
  - intros n f e. cbn. split.
    + intros x. rewrite !elem_of_list_to_set, !elem_of_seqZ. lia.
    + intros _. rewrite !elem_of_list_to_set, !elem_of_seqZ. lia.
  - done.
  - done.
  - by intros t e e' [= <-].
  - set_solver.
Defined.

#[global] Instance Machine_api : DartApi := { ILLEGAL_PORT := 0 }.

Lemma threads_accounted_witness :
  accounted (mkHost ∅ (mkMachine 1 10) []) ∧
  match (for_each [OpStart; OpStart; OpSend 2 0 5 9 1; OpStop 4; OpStart] perform;; StopAll)
    (mkHost ∅ (mkMachine 1 10) []) with
  | Ok (_, w') => joined (history w') = [10; 12; 11] ∧
      handle_watcher_threads_ w' = ∅ ∧ spawned (history w') ≡ₚ joined (history w')
  | Crash _ => False
  end.
Proof.
  assert (Hacc : accounted (mkHost ∅ (mkMachine 1 10) [])).
  { split; cbn; [set_solver|]. by rewrite map_to_list_empty. }
  split; [exact Hacc|].
  pose proof (threads_accounted [OpStart; OpStart; OpSend 2 0 5 9 1; OpStop 4; OpStart] _ Hacc) as H.
  assert (Hrun : ∃ w', (for_each [OpStart; OpStart; OpSend 2 0 5 9 1; OpStop 4; OpStart] perform;; StopAll)
    (mkHost ∅ (mkMachine 1 10) []) = Ok (tt, w') ∧ joined (history w') = [10; 12; 11]).
  { eexists. split; [vm_compute; reflexivity|]. vm_compute. reflexivity. }
  destruct Hrun as (w' & Hrun & Hj). unfold safely in H. rewrite Hrun in *.
  split; [exact Hj|]. apply H. repeat constructor; lia.
Defined.
