(* ===== verification/DartNatives.v ===== *)
(** * The native functions of Dart's Mojo library (public/platform/dart/mojo_natives.cc)

    The functions through which Dart code reaches the system: each takes its arguments
    from the Dart VM, checks them, makes a system call and gives its results back as
    Dart values.

    - [DartVM] is what they call of the VM (dart_api.h, which is not part of the
      repository), over opaque values [V] and a state [D] of the VM.
    - [SysCall] is a system call with its arguments, [answer] what it gives back; an out
      parameter that it did not assign is [None].  [mojo::Wait] and [mojo::WaitMany] are
      those of public/cpp/system/wait.h.
    - [World] is the state of the VM and of the system, the heap arrays of C++, the
      value that the function returns to Dart, and [trace], a history of the system
      calls and finalizers, which no code reads.

    [static_cast] of a Dart integer, an [int64_t], wraps: [u32], [u64].  [debug] says
    whether [MOJO_DCHECK]s are compiled in. *)
From stdpp Require Import base list numbers option gmap strings.
From S2P Require Import Prelude MojoResult System Codec CppBindings WatcherCommand.

(** ** The system *)

(** A pointer argument: null, an address, or the first of [n] elements on the stack or
    in an array that lives as long as the call. *)
Inductive Ptr :=
| NullPtr
| At (address : Z)
| Local (n : Z).

Inductive SysCall :=
| CallGetTimeTicksNow
| CallClose (handle : Z)
| CallWait (handle signals deadline : Z)
| CallWaitMany (handles signals : list Z) (deadline : Z)
| CallCreateSharedBuffer (options : MojoCreateSharedBufferOptions) (num_bytes : Z)
| CallDuplicateBufferHandle (handle : Z) (options : MojoDuplicateBufferHandleOptions)
| CallMapBuffer (handle offset num_bytes flags : Z)
| CallUnmapBuffer (buffer : Z)
| CallGetBufferInformation (handle : Z)
| CallCreateDataPipe (options : MojoCreateDataPipeOptions)
| CallWriteData (handle : Z) (elements : Ptr) (num_bytes flags : Z)
| CallBeginWriteData (handle flags : Z)
| CallEndWriteData (handle num_bytes_written : Z)
| CallReadData (handle : Z) (elements : Ptr) (num_bytes flags : Z)
| CallBeginReadData (handle flags : Z)
| CallEndReadData (handle num_bytes_read : Z)
| CallCreateMessagePipe (options : MojoCreateMessagePipeOptions)
| CallWriteMessage (handle : Z) (bytes : Ptr) (num_bytes : Z) (handles : list Z) (flags : Z)
| CallWriteCommand (handle : Z) (command : HandleWatcherCommand)
| CallReadMessage (handle : Z) (bytes : Ptr) (num_bytes : Z) (handles : Ptr) (num_handles flags : Z).

(** The result, then the out parameters.  [MojoReadMessage] updates its two counts, and
    leaves the array of handles, if it is a local one, with the contents given. *)
Definition answer (c : SysCall) : Type :=
  match c with
  | CallGetTimeTicksNow | CallClose _ | CallUnmapBuffer _ | CallEndWriteData _ _ | CallEndReadData _ _
  | CallWriteMessage _ _ _ _ _ | CallWriteCommand _ _ => Z
  | CallWait _ _ _ => Z * option MojoHandleSignalsState
  | CallWaitMany _ _ _ => Z * option Z * option (list MojoHandleSignalsState)
  | CallCreateSharedBuffer _ _ | CallDuplicateBufferHandle _ _ | CallMapBuffer _ _ _ _ => Z * option Z
  | CallWriteData _ _ _ _ | CallReadData _ _ _ _ => Z * option Z
  | CallGetBufferInformation _ => Z * option MojoBufferInformation
  | CallCreateDataPipe _ | CallCreateMessagePipe _ => Z * option Z * option Z
  | CallBeginWriteData _ _ | CallBeginReadData _ _ => Z * option (Z * Z)
  | CallReadMessage _ _ _ _ _ _ => Z * Z * Z * list Z
  end.

Class NativeSystem (E : Type) := { sys_call : ∀ c : SysCall, E → answer c * E }.

(** ** The Dart VM *)

(** What a weak persistent handle frees when its object is collected. *)
Inductive Peer :=
| CloserCallbackPeer (handle : Z)
| MappedBuffer (buffer : Z)
| ByteArray (address : Z)
| HandleArray (address : Z).

Inductive TypedDataType := Dart_TypedData_kByteData | Dart_TypedData_kUint32.

(** A [None] or [false] stands for an error handle.  [Dart_TypedDataAcquireData] gives the
    address and the number of elements. *)
Class DartVM (V D : Type) := {
  Dart_Null : V;
  Dart_IsNull : V → bool;
  Dart_IsInteger : V → bool;
  Dart_IsList : V → bool;
  Dart_IsTypedData : V → bool;
  Dart_IsInstance : V → bool;
  Dart_IsError : V → bool;
  Dart_IntegerToInt64 : V → option Z;
  Dart_SendPortGetId : V → option Z;
  Dart_GetNativeIntegerArgument : Z → D → option Z;
  Dart_GetNativeArgument : Z → D → V;
  Dart_NewInteger : Z → D → V * D;
  Dart_NewList : Z → D → V * D;
  Dart_ListLength : V → D → Z;
  Dart_ListGetAt : V → Z → D → V;
  Dart_ListSetAt : V → Z → V → D → D;
  Dart_NewExternalTypedData : TypedDataType → Z → Z → D → V * D;
  Dart_TypedDataAcquireData : V → D → option (Z * Z) * D;
  Dart_TypedDataReleaseData : V → D → bool * D;
  Dart_NewWeakPersistentHandle : V → Peer → Z → D → D;
}.

(** [Dart_SetIntegerReturnValue] and [Dart_SetReturnValue] *)
Inductive ReturnValue (V : Type) :=
| IntegerValue (z : Z)
| Value (v : V).
Arguments IntegerValue {_}.
Arguments Value {_}.

Inductive Event (V : Type) :=
| Called (c : SysCall)
| Registered (v : V) (peer : Peer).
Arguments Called {_}.
Arguments Registered {_}.

Record World (V D E : Type) := mkWorld {
  vm : D;
  env : E;
  arrays : gmap Z Z;       (** the arrays of [new], by address: their bytes *)
  next : Z;                (** where the next one will be *)
  returned : option (ReturnValue V);
  trace : list (Event V);  (** latest first *)
}.
Arguments mkWorld {_ _ _}.
Arguments vm {_ _ _}.
Arguments env {_ _ _}.
Arguments arrays {_ _ _}.
Arguments next {_ _ _}.
Arguments returned {_ _ _}.
Arguments trace {_ _ _}.

(** [struct WaitManyResult] (wait.h) *)
Record WaitManyResult := mkWaitManyResult {
  wm_result : Z;
  wm_index : Z;
}.
Definition kInvalidWaitManyIndexValue : Z := u32 (-1).
Definition IsIndexValid (r : WaitManyResult) : bool := negb (wm_index r =? kInvalidWaitManyIndexValue).
Definition AreSignalsStatesValid (r : WaitManyResult) : bool :=
  negb (wm_result r =? MOJO_RESULT_INVALID_ARGUMENT) &&
  negb (wm_result r =? MOJO_RESULT_RESOURCE_EXHAUSTED) &&
  negb (wm_result r =? MOJO_RESULT_BUSY).

Section natives.
Context {V D E : Type} `{!DartApi} `{!DartVM V D} `{!NativeSystem E} (debug : bool).
Abbreviation M := (stateR (World V D E)).

Definition get_vm {A} (f : D → A) : M A := λ w, Ok (f (vm w), w).
Definition call_vm {A} (f : D → A * D) : M A := λ w,
  let '(a, d) := f (vm w) in Ok (a, mkWorld d (env w) (arrays w) (next w) (returned w) (trace w)).
Definition log (e : Event V) : M unit := λ w,
  Ok (tt, mkWorld (vm w) (env w) (arrays w) (next w) (returned w) (e :: trace w)).
Definition call_env {A} (f : E → A * E) : M A := λ w,
  let '(a, e) := f (env w) in Ok (a, mkWorld (vm w) e (arrays w) (next w) (returned w) (trace w)).
Definition call (c : SysCall) : M (answer c) := log (Called c);; call_env (sys_call c).
Definition set_returned (r : ReturnValue V) : M unit := λ w,
  Ok (tt, mkWorld (vm w) (env w) (arrays w) (next w) (Some r) (trace w)).

(** [new T[n]], of [bytes] in all, and [delete[]] *)
Definition new_array (bytes : Z) : M Z := λ w,
  Ok (next w, mkWorld (vm w) (env w) (<[next w := bytes]> (arrays w)) (next w + Z.max 1 bytes) (returned w) (trace w)).
Definition delete_array (address : Z) : M unit := λ w,
  match arrays w !! address with
  | None => Crash BadAccess
  | Some _ => Ok (tt, mkWorld (vm w) (env w) (delete address (arrays w)) (next w) (returned w) (trace w))
  end.

(** A variable that was not assigned is read. *)
Definition assigned {A} (x : option A) : M A :=
  match x with Some a => mret a | None => crash BadAccess end.

Definition acquire (v : V) : M (option (Z * Z)) := call_vm (Dart_TypedDataAcquireData v).
Definition release (v : V) : M bool := call_vm (Dart_TypedDataReleaseData v).
Definition list_set (l : V) (i : Z) (v : V) : M unit := call_vm (λ d, (tt, Dart_ListSetAt l i v d)).
Definition list_set_integer (l : V) (i z : Z) : M unit :=
  v ← call_vm (Dart_NewInteger z); list_set l i v.
Definition weak_handle (v : V) (peer : Peer) (size : Z) : M unit :=
  log (Registered v peer);; call_vm (λ d, (tt, Dart_NewWeakPersistentHandle v peer size d)).

(** ** Return values and arguments *)
Definition SetNullReturn : M unit := set_returned (Value Dart_Null).
Definition SetInvalidArgumentReturn : M unit := set_returned (IntegerValue MOJO_RESULT_INVALID_ARGUMENT).

Definition SignalsStateToDart (s : MojoHandleSignalsState) : M V :=
  list ← call_vm (Dart_NewList 2);
  arg0 ← call_vm (Dart_NewInteger (satisfied_signals s));
  arg1 ← call_vm (Dart_NewInteger (satisfiable_signals s));
  list_set list 0 arg0;; list_set list 1 arg1;;
  mret list.

(** The rest of the function is [k]. *)
Definition CHECK_INTEGER_ARGUMENT (num : Z) (failure : M unit) (k : Z → M unit) : M unit :=
  status ← get_vm (Dart_GetNativeIntegerArgument num);
  match status with None => failure | Some result => k result end.

(** A list of results, each a Dart integer or [null]. *)
Fixpoint set_results (l : V) (i : Z) (results : list (option Z)) : M unit :=
  match results with
  | [] => mret tt
  | Some z :: rest => list_set_integer l i z;; set_results l (i + 1) rest
  | None :: rest => list_set l i Dart_Null;; set_results l (i + 1) rest
  end.
Definition return_list (results : list (option Z)) : M unit :=
  l ← call_vm (Dart_NewList (Z.of_nat (length results)));
  set_results l 0 results;;
  set_returned (Value l).

(** ** Handles *)
Definition MojoHandleCloserCallback (peer_handle : Z) : M unit :=
  if negb (peer_handle =? MOJO_HANDLE_INVALID) then _ ← call (CallClose peer_handle); mret tt else mret tt.

Definition MojoHandle_RegisterFinalizer : M unit :=
  mojo_handle_instance ← get_vm (Dart_GetNativeArgument 0);
  if negb (Dart_IsInstance mojo_handle_instance) then SetInvalidArgumentReturn
  else
  CHECK_INTEGER_ARGUMENT 1 SetInvalidArgumentReturn (λ raw_handle,
  if raw_handle =? MOJO_HANDLE_INVALID then SetInvalidArgumentReturn
  else
  weak_handle mojo_handle_instance (CloserCallbackPeer (u32 raw_handle)) 4;;
  set_returned (IntegerValue MOJO_RESULT_OK)).

Definition Mojo_GetTimeTicksNow : M unit :=
  ticks ← call CallGetTimeTicksNow;
  set_returned (IntegerValue ticks).

Definition MojoHandle_Close : M unit :=
  CHECK_INTEGER_ARGUMENT 0 SetInvalidArgumentReturn (λ raw_handle,
  res ← call (CallClose (u32 raw_handle));
  set_returned (IntegerValue res)).

Definition MojoHandle_Wait : M unit :=
  CHECK_INTEGER_ARGUMENT 0 SetInvalidArgumentReturn (λ handle,
  CHECK_INTEGER_ARGUMENT 1 SetInvalidArgumentReturn (λ signals,
  CHECK_INTEGER_ARGUMENT 2 SetInvalidArgumentReturn (λ deadline,
  '(r, state) ← call (CallWait (u32 handle) (u32 signals) (u64 deadline));
  list ← call_vm (Dart_NewList 2);
  list_set_integer list 0 r;;
  (if AreSignalsStatesValid (mkWaitManyResult r kInvalidWaitManyIndexValue)
   then state ← assigned state; s ← SignalsStateToDart state; list_set list 1 s
   else list_set list 1 Dart_Null);;
  set_returned (Value list)))).

(** [mojo::WaitMany] (wait.h); an out parameter that was not assigned has its value from
    before. *)
Definition WaitMany (handles signals : list Z) (deadline : Z) (states : list MojoHandleSignalsState)
    : M (WaitManyResult * list MojoHandleSignalsState) :=
  if negb (Z.of_nat (length signals) =? Z.of_nat (length handles)) ||
     negb (Z.of_nat (length states) =? Z.of_nat (length signals))
  then mret (mkWaitManyResult MOJO_RESULT_INVALID_ARGUMENT kInvalidWaitManyIndexValue, states)
  else if kInvalidWaitManyIndexValue <=? Z.of_nat (length handles)
  then mret (mkWaitManyResult MOJO_RESULT_RESOURCE_EXHAUSTED kInvalidWaitManyIndexValue, states)
  else if Z.of_nat (length handles) =? 0
  then
    '(result, _, _) ← call (CallWaitMany [] [] deadline);
    mret (mkWaitManyResult result kInvalidWaitManyIndexValue, states)
  else
    '(result, index, states') ← call (CallWaitMany handles signals deadline);
    mret (mkWaitManyResult result (default kInvalidWaitManyIndexValue index), default states states').

(** [for (int i = 0; i < handles_len; i++)]; [None]: an element is not an integer. *)
Fixpoint wait_many_arguments (handles signals : V) (i : Z) (n : nat) : M (option (list (Z * Z))) :=
  match n with
  | O => mret (Some [])
  | S n =>
      dart_handle ← get_vm (Dart_ListGetAt handles i);
      dart_signal ← get_vm (Dart_ListGetAt signals i);
      if negb (Dart_IsInteger dart_handle) || negb (Dart_IsInteger dart_signal) then mret None
      else
      rest ← wait_many_arguments handles signals (i + 1) n;
      mret (((u32 (default 0 (Dart_IntegerToInt64 dart_handle)),
              u32 (default 0 (Dart_IntegerToInt64 dart_signal))) ::.) <$> rest)
  end.

Fixpoint set_states (l : V) (i : Z) (states : list MojoHandleSignalsState) : M unit :=
  match states with
  | [] => mret tt
  | s :: rest => v ← SignalsStateToDart s; list_set l i v;; set_states l (i + 1) rest
  end.

Definition MojoHandle_WaitMany : M unit :=
  handles ← get_vm (Dart_GetNativeArgument 0);
  signals ← get_vm (Dart_GetNativeArgument 1);
  CHECK_INTEGER_ARGUMENT 2 SetInvalidArgumentReturn (λ deadline,
  if negb (Dart_IsList handles) || negb (Dart_IsList signals) then SetInvalidArgumentReturn
  else
  handles_len ← get_vm (Dart_ListLength handles);
  signals_len ← get_vm (Dart_ListLength signals);
  if negb (handles_len =? signals_len) then SetInvalidArgumentReturn
  else
  arguments ← wait_many_arguments handles signals 0 (Z.to_nat handles_len);
  match arguments with
  | None => SetInvalidArgumentReturn
  | Some arguments =>
      let states := replicate (Z.to_nat handles_len) (mkSignalsState 0 0) in
      '(wmr, states) ← WaitMany (map fst arguments) (map snd arguments) (u64 deadline) states;
      list ← call_vm (Dart_NewList 3);
      list_set_integer list 0 (wm_result wmr);;
      (if IsIndexValid wmr then list_set_integer list 1 (wm_index wmr) else list_set list 1 Dart_Null);;
      (if AreSignalsStatesValid wmr then
         stateList ← call_vm (Dart_NewList handles_len);
         set_states stateList 0 states;;
         list_set list 2 stateList
       else list_set list 2 Dart_Null);;
      set_returned (Value list)
  end).

(** ** Shared buffers *)
Definition MojoSharedBuffer_Create : M unit :=
  CHECK_INTEGER_ARGUMENT 0 SetNullReturn (λ num_bytes,
  CHECK_INTEGER_ARGUMENT 1 SetNullReturn (λ flags,
  '(res, out) ← call (CallCreateSharedBuffer {| csb_flags := u32 flags |} (u64 (s32 num_bytes)));
  return_list [Some res; Some (default MOJO_HANDLE_INVALID out)])).

Definition MojoSharedBuffer_Duplicate : M unit :=
  CHECK_INTEGER_ARGUMENT 0 SetNullReturn (λ handle,
  CHECK_INTEGER_ARGUMENT 1 SetNullReturn (λ flags,
  '(res, out) ← call (CallDuplicateBufferHandle (u32 handle) {| dbh_flags := u32 flags |});
  return_list [Some res; Some (default MOJO_HANDLE_INVALID out)])).

Definition MojoBufferUnmapCallback (peer : Z) : M unit := _ ← call (CallUnmapBuffer peer); mret tt.

(** The two results of the functions that give typed data. *)
Definition return_typed_data (list : V) (res : Z) (typed_data : V) : M unit :=
  list_set_integer list 0 res;;
  list_set list 1 typed_data;;
  set_returned (Value list).

Definition MojoSharedBuffer_Map : M unit :=
  CHECK_INTEGER_ARGUMENT 0 SetNullReturn (λ handle,
  CHECK_INTEGER_ARGUMENT 1 SetNullReturn (λ offset,
  CHECK_INTEGER_ARGUMENT 2 SetNullReturn (λ num_bytes,
  CHECK_INTEGER_ARGUMENT 3 SetNullReturn (λ flags,
  '(res, out) ← call (CallMapBuffer (u32 handle) (u64 offset) (u64 num_bytes) (u32 flags));
  list ← call_vm (Dart_NewList 2);
  typed_data ← (if res =? MOJO_RESULT_OK then
      out ← assigned out;
      typed_data ← call_vm (Dart_NewExternalTypedData Dart_TypedData_kByteData out num_bytes);
      weak_handle typed_data (MappedBuffer out) num_bytes;;
      mret typed_data
    else mret Dart_Null);
  return_typed_data list res typed_data)))).

Definition MojoSharedBuffer_GetInformation : M unit :=
  CHECK_INTEGER_ARGUMENT 0 SetNullReturn (λ handle,
  '(res, buffer_information) ← call (CallGetBufferInformation (u32 handle));
  list ← call_vm (Dart_NewList 3);
  list_set_integer list 0 res;;
  (if res =? MOJO_RESULT_OK then
     info ← assigned buffer_information;
     list_set_integer list 1 (bi_flags info);;
     list_set_integer list 2 (s64 (bi_num_bytes info))
   else mret tt);;
  set_returned (Value list)).

(** ** Data pipes *)
Definition MojoDataPipe_Create : M unit :=
  CHECK_INTEGER_ARGUMENT 0 SetNullReturn (λ element_bytes,
  CHECK_INTEGER_ARGUMENT 1 SetNullReturn (λ capacity_bytes,
  CHECK_INTEGER_ARGUMENT 2 SetNullReturn (λ flags,
  '(res, producer, consumer) ← call (CallCreateDataPipe
    {| cdp_flags := u32 flags; cdp_element_num_bytes := u32 element_bytes; cdp_capacity_num_bytes := u32 capacity_bytes |});
  return_list [Some res; Some (default MOJO_HANDLE_INVALID producer); Some (default MOJO_HANDLE_INVALID consumer)]))).

Definition MojoDataPipe_WriteData : M unit :=
  CHECK_INTEGER_ARGUMENT 0 SetNullReturn (λ handle,
  typed_data ← get_vm (Dart_GetNativeArgument 1);
  if negb (Dart_IsTypedData typed_data) then SetNullReturn
  else
  CHECK_INTEGER_ARGUMENT 2 SetNullReturn (λ num_bytes,
  if num_bytes <=? 0 then SetNullReturn
  else
  CHECK_INTEGER_ARGUMENT 3 SetNullReturn (λ flags,
  acquired ← acquire typed_data;
  '(data, data_length) ← assigned acquired;
  let length := u32 num_bytes in
  '(res, length') ← call (CallWriteData (u32 handle) (At data) length (u32 flags));
  release typed_data;;
  return_list [Some res; Some (default length length')]))).

(** [MojoBeginWriteData] and [MojoBeginReadData]: a view of the buffer *)
Definition return_buffer (res : Z) (buffer : option (Z * Z)) : M unit :=
  list ← call_vm (Dart_NewList 2);
  typed_data ← (if res =? MOJO_RESULT_OK then
      '(buffer, size) ← assigned buffer;
      call_vm (Dart_NewExternalTypedData Dart_TypedData_kByteData buffer size)
    else mret Dart_Null);
  return_typed_data list res typed_data.

Definition MojoDataPipe_BeginWriteData : M unit :=
  CHECK_INTEGER_ARGUMENT 0 SetNullReturn (λ handle,
  CHECK_INTEGER_ARGUMENT 1 SetNullReturn (λ flags,
  '(res, buffer) ← call (CallBeginWriteData (u32 handle) (u32 flags));
  return_buffer res buffer)).

Definition MojoDataPipe_EndWriteData : M unit :=
  CHECK_INTEGER_ARGUMENT 0 SetInvalidArgumentReturn (λ handle,
  CHECK_INTEGER_ARGUMENT 1 SetInvalidArgumentReturn (λ num_bytes_written,
  res ← call (CallEndWriteData (u32 handle) (u32 num_bytes_written));
  set_returned (IntegerValue res))).

(** [Dart_TypedDataAcquireData] where [data] is initialized, and the pointer then *)
Definition acquire_unless_null (typed_data : V) : M Ptr :=
  if Dart_IsNull typed_data then mret NullPtr
  else acquired ← acquire typed_data;
       mret (match acquired with Some (data, _) => At data | None => NullPtr end).
Definition release_unless_null (typed_data : V) : M unit :=
  if Dart_IsNull typed_data then mret tt else _ ← release typed_data; mret tt.

Definition MojoDataPipe_ReadData : M unit :=
  CHECK_INTEGER_ARGUMENT 0 SetNullReturn (λ handle,
  typed_data ← get_vm (Dart_GetNativeArgument 1);
  if negb (Dart_IsTypedData typed_data) && negb (Dart_IsNull typed_data) then SetNullReturn
  else
  CHECK_INTEGER_ARGUMENT 2 SetNullReturn (λ num_bytes,
  CHECK_INTEGER_ARGUMENT 3 SetNullReturn (λ flags,
  data ← acquire_unless_null typed_data;
  let len := u32 num_bytes in
  '(res, len') ← call (CallReadData (u32 handle) data len (u32 flags));
  release_unless_null typed_data;;
  return_list [Some res; Some (default len len')]))).

Definition MojoDataPipe_BeginReadData : M unit :=
  CHECK_INTEGER_ARGUMENT 0 SetNullReturn (λ handle,
  CHECK_INTEGER_ARGUMENT 1 SetNullReturn (λ flags,
  '(res, buffer) ← call (CallBeginReadData (u32 handle) (u32 flags));
  return_buffer res buffer)).

Definition MojoDataPipe_EndReadData : M unit :=
  CHECK_INTEGER_ARGUMENT 0 SetInvalidArgumentReturn (λ handle,
  CHECK_INTEGER_ARGUMENT 1 SetInvalidArgumentReturn (λ num_bytes_read,
  res ← call (CallEndReadData (u32 handle) (u32 num_bytes_read));
  set_returned (IntegerValue res))).

(** ** Message pipes *)
Definition MojoMessagePipe_Create : M unit :=
  CHECK_INTEGER_ARGUMENT 0 SetNullReturn (λ flags,
  '(res, end1, end2) ← call (CallCreateMessagePipe {| cmp_flags := u32 flags |});
  return_list [Some res; Some (default MOJO_HANDLE_INVALID end1); Some (default MOJO_HANDLE_INVALID end2)]).

(** Null typed data has no bytes, other typed data some. *)
Definition bad_length (typed_data : V) (num_bytes : Z) : bool :=
  (Dart_IsNull typed_data && negb (num_bytes =? 0)) || (negb (Dart_IsNull typed_data) && (num_bytes <=? 0)).

(** [for (int i = 0; i < handles_len; i++)]; [None]: an element is not an integer. *)
Fixpoint list_handles (handles : V) (i : Z) (n : nat) : M (option (list Z)) :=
  match n with
  | O => mret (Some [])
  | S n =>
      dart_handle ← get_vm (Dart_ListGetAt handles i);
      if negb (Dart_IsInteger dart_handle) then mret None
      else
      rest ← list_handles handles (i + 1) n;
      mret ((u32 (default 0 (Dart_IntegerToInt64 dart_handle)) ::.) <$> rest)
  end.

Definition MojoMessagePipe_Write : M unit :=
  CHECK_INTEGER_ARGUMENT 0 SetInvalidArgumentReturn (λ handle,
  typed_data ← get_vm (Dart_GetNativeArgument 1);
  if negb (Dart_IsTypedData typed_data) && negb (Dart_IsNull typed_data) then SetInvalidArgumentReturn
  else
  CHECK_INTEGER_ARGUMENT 2 SetInvalidArgumentReturn (λ num_bytes,
  if bad_length typed_data num_bytes then SetInvalidArgumentReturn
  else
  handles ← get_vm (Dart_GetNativeArgument 3);
  if negb (Dart_IsList handles) && negb (Dart_IsNull handles) then SetInvalidArgumentReturn
  else
  CHECK_INTEGER_ARGUMENT 4 SetInvalidArgumentReturn (λ flags,
  bytes ← acquire_unless_null typed_data;
  mojo_handles ← (if Dart_IsNull handles then mret (Some [])
    else handles_len ← get_vm (Dart_ListLength handles);
         list_handles handles 0 (Z.to_nat handles_len));
  match mojo_handles with
  | None => SetInvalidArgumentReturn
  | Some mojo_handles =>
      res ← call (CallWriteMessage (u32 handle) bytes (u32 num_bytes) mojo_handles (u32 flags));
      release_unless_null typed_data;;
      set_returned (IntegerValue res)
  end))).

(** [for (int i = 0; i < handles_len; i++) Dart_ListSetAt(handles, i, ...mojo_handles[i])] *)
Fixpoint store_handles (handles : V) (mojo_handles : list Z) (i : Z) (n : nat) : M unit :=
  match n with
  | O => mret tt
  | S n =>
      h ← assigned (mojo_handles !! Z.to_nat i);
      list_set_integer handles i h;;
      store_handles handles mojo_handles (i + 1) n
  end.

Definition MojoMessagePipe_Read : M unit :=
  CHECK_INTEGER_ARGUMENT 0 SetNullReturn (λ handle,
  typed_data ← get_vm (Dart_GetNativeArgument 1);
  if negb (Dart_IsTypedData typed_data) && negb (Dart_IsNull typed_data) then SetNullReturn
  else
  CHECK_INTEGER_ARGUMENT 2 SetNullReturn (λ num_bytes,
  if bad_length typed_data num_bytes then SetNullReturn
  else
  handles ← get_vm (Dart_GetNativeArgument 3);
  if negb (Dart_IsList handles) && negb (Dart_IsNull handles) then SetNullReturn
  else
  CHECK_INTEGER_ARGUMENT 4 SetNullReturn (λ flags,
  bytes ← acquire_unless_null typed_data;
  handles_len ← (if Dart_IsNull handles then mret 0 else get_vm (Dart_ListLength handles));
  let mojo_handles := if Dart_IsNull handles then NullPtr else Local handles_len in
  '(res, blen, hlen, contents) ←
    call (CallReadMessage (u32 handle) bytes (u32 num_bytes) mojo_handles (u32 handles_len) (u32 flags));
  release_unless_null typed_data;;
  (if Dart_IsNull handles then mret tt else store_handles handles contents 0 (Z.to_nat handles_len));;
  return_list [Some res; Some blen; Some hlen]))).

Definition ByteArrayFinalizer (peer : Z) : M unit := delete_array peer.
Definition HandleArrayFinalizer (peer : Z) : M unit := delete_array peer.

(** *** [MojoMessagePipe_QueryAndRead] *)

(** A new array of [n] elements of [size] bytes, as typed data that frees it. *)
Definition new_typed_data (type : TypedDataType) (peer : Z → Peer) (size n : Z) : M V :=
  address ← new_array (n * size);
  data ← call_vm (Dart_NewExternalTypedData type address n);
  MOJO_DCHECK debug (negb (Dart_IsError data));;
  weak_handle data (peer address) (n * size);;
  mret data.

(** The typed data for [n] elements: [data] if it has room for them; and the pointer that
    was obtained to find out. *)
Definition typed_data_for (type : TypedDataType) (peer : Z → Peer) (size : Z) (data : V) (n : Z) : M (V * Ptr) :=
  if (0 <? n) && Dart_IsNull data then
    data ← new_typed_data type peer size n; mret (data, NullPtr)
  else if 0 <? n then
    acquired ← acquire data;
    MOJO_DCHECK debug (bool_decide (is_Some acquired));;
    ok ← release data;
    MOJO_DCHECK debug ok;;
    let bytes_len := match acquired with Some (_, len) => len | None => 0 end in
    let bytes := match acquired with Some (bytes, _) => At bytes | None => NullPtr end in
    if u64 bytes_len <? n then data ← new_typed_data type peer size n; mret (data, bytes)
    else mret (data, bytes)
  else mret (data, NullPtr).

(** [Dart_TypedDataAcquireData] into a pointer that is [bytes] *)
Definition acquire_again (data : V) (n : Z) (bytes : Ptr) : M Ptr :=
  if 0 <? n then
    acquired ← acquire data;
    MOJO_DCHECK debug (bool_decide (is_Some acquired));;
    mret (match acquired with Some (bytes, _) => At bytes | None => bytes end)
  else mret bytes.
Definition release_checked (data : V) (n : Z) : M unit :=
  if 0 <? n then ok ← release data; MOJO_DCHECK debug ok else mret tt.

Definition set_message (result : V) (res : Z) (data handles : V) (blen hlen : Z) : M unit :=
  list_set_integer result 0 res;;
  list_set result 1 data;;
  list_set result 2 handles;;
  list_set_integer result 3 blen;;
  list_set_integer result 4 hlen.

Definition MojoMessagePipe_QueryAndRead : M unit :=
  CHECK_INTEGER_ARGUMENT 0 SetNullReturn (λ dart_handle,
  CHECK_INTEGER_ARGUMENT 1 SetNullReturn (λ flags,
  result ← get_vm (Dart_GetNativeArgument 2);
  data ← get_vm (Dart_ListGetAt result 1);
  handles ← get_vm (Dart_ListGetAt result 2);
  '(res, blen, hlen, _) ← call (CallReadMessage (u32 dart_handle) NullPtr 0 NullPtr 0 0);
  if negb (res =? MOJO_RESULT_OK) && negb (res =? MOJO_RESULT_RESOURCE_EXHAUSTED)
  then set_message result res data handles 0 0
  else
  '(data, bytes) ← typed_data_for Dart_TypedData_kByteData ByteArray 1 data blen;
  '(handles, handle_bytes) ← typed_data_for Dart_TypedData_kUint32 HandleArray 4 handles hlen;
  bytes ← acquire_again data blen bytes;
  handle_bytes ← acquire_again handles hlen handle_bytes;
  '(res, blen, hlen, _) ← call (CallReadMessage (u32 dart_handle) bytes blen handle_bytes hlen (u32 flags));
  release_checked data blen;;
  release_checked handles hlen;;
  set_message result res data handles blen hlen)).

(** ** The handle watcher *)
Definition MojoHandleWatcher_SendControlData : M unit :=
  CHECK_INTEGER_ARGUMENT 0 SetInvalidArgumentReturn (λ control_handle,
  CHECK_INTEGER_ARGUMENT 1 SetInvalidArgumentReturn (λ command_code,
  CHECK_INTEGER_ARGUMENT 2 SetInvalidArgumentReturn (λ handle_or_deadline,
  send_port_handle ← get_vm (Dart_GetNativeArgument 3);
  let send_port_id := if Dart_IsNull send_port_handle then Some ILLEGAL_PORT else Dart_SendPortGetId send_port_handle in
  match send_port_id with
  | None => SetInvalidArgumentReturn
  | Some send_port_id =>
      CHECK_INTEGER_ARGUMENT 4 SetInvalidArgumentReturn (λ signals,
      command ← lift (Command.FromDart command_code handle_or_deadline send_port_id signals);
      res ← call (CallWriteCommand (u32 control_handle) command);
      set_returned (IntegerValue res))
  end))).

(** ** Garbage collection: a weak persistent handle runs its callback once. *)
Definition finalize (peer : Peer) : M unit :=
  match peer with
  | CloserCallbackPeer handle => MojoHandleCloserCallback handle
  | MappedBuffer buffer => MojoBufferUnmapCallback buffer
  | ByteArray address => ByteArrayFinalizer address
  | HandleArray address => HandleArrayFinalizer address
  end.

(** ** The table of natives *)
Inductive Native :=
| NSharedBuffer_Create | NSharedBuffer_Duplicate | NSharedBuffer_Map | NSharedBuffer_GetInformation
| NDataPipe_Create | NDataPipe_WriteData | NDataPipe_BeginWriteData | NDataPipe_EndWriteData
| NDataPipe_ReadData | NDataPipe_BeginReadData | NDataPipe_EndReadData
| NMessagePipe_Create | NMessagePipe_Write | NMessagePipe_Read | NMessagePipe_QueryAndRead
| NGetTimeTicksNow | NHandle_Close | NHandle_Wait | NHandle_RegisterFinalizer | NHandle_WaitMany
| NHandleWatcher_SendControlData.

Definition run_native (f : Native) : M unit :=
  match f with
  | NSharedBuffer_Create => MojoSharedBuffer_Create
  | NSharedBuffer_Duplicate => MojoSharedBuffer_Duplicate
  | NSharedBuffer_Map => MojoSharedBuffer_Map
  | NSharedBuffer_GetInformation => MojoSharedBuffer_GetInformation
  | NDataPipe_Create => MojoDataPipe_Create
  | NDataPipe_WriteData => MojoDataPipe_WriteData
  | NDataPipe_BeginWriteData => MojoDataPipe_BeginWriteData
  | NDataPipe_EndWriteData => MojoDataPipe_EndWriteData
  | NDataPipe_ReadData => MojoDataPipe_ReadData
  | NDataPipe_BeginReadData => MojoDataPipe_BeginReadData
  | NDataPipe_EndReadData => MojoDataPipe_EndReadData
  | NMessagePipe_Create => MojoMessagePipe_Create
  | NMessagePipe_Write => MojoMessagePipe_Write
  | NMessagePipe_Read => MojoMessagePipe_Read
  | NMessagePipe_QueryAndRead => MojoMessagePipe_QueryAndRead
  | NGetTimeTicksNow => Mojo_GetTimeTicksNow
  | NHandle_Close => MojoHandle_Close
  | NHandle_Wait => MojoHandle_Wait
  | NHandle_RegisterFinalizer => MojoHandle_RegisterFinalizer
  | NHandle_WaitMany => MojoHandle_WaitMany
  | NHandleWatcher_SendControlData => MojoHandleWatcher_SendControlData
  end.
End natives.

#[global] Instance Native_eq_dec : EqDecision Native.
Proof. solve_decision. Defined.

(** [MojoEntries] *)
Definition MojoEntries : list (string * Native * Z) :=
  [("MojoSharedBuffer_Create", NSharedBuffer_Create, 2);
   ("MojoSharedBuffer_Duplicate", NSharedBuffer_Duplicate, 2);
   ("MojoSharedBuffer_Map", NSharedBuffer_Map, 4);
   ("MojoSharedBuffer_GetInformation", NSharedBuffer_GetInformation, 1);
   ("MojoDataPipe_Create", NDataPipe_Create, 3);
   ("MojoDataPipe_WriteData", NDataPipe_WriteData, 4);
   ("MojoDataPipe_BeginWriteData", NDataPipe_BeginWriteData, 2);
   ("MojoDataPipe_EndWriteData", NDataPipe_EndWriteData, 2);
   ("MojoDataPipe_ReadData", NDataPipe_ReadData, 4);
   ("MojoDataPipe_BeginReadData", NDataPipe_BeginReadData, 2);
   ("MojoDataPipe_EndReadData", NDataPipe_EndReadData, 2);
   ("MojoMessagePipe_Create", NMessagePipe_Create, 1);
   ("MojoMessagePipe_Write", NMessagePipe_Write, 5);
   ("MojoMessagePipe_Read", NMessagePipe_Read, 5);
   ("MojoMessagePipe_QueryAndRead", NMessagePipe_QueryAndRead, 3);
   ("Mojo_GetTimeTicksNow", NGetTimeTicksNow, 0);
   ("MojoHandle_Close", NHandle_Close, 1);
   ("MojoHandle_Wait", NHandle_Wait, 3);
   ("MojoHandle_RegisterFinalizer", NHandle_RegisterFinalizer, 2);
   ("MojoHandle_WaitMany", NHandle_WaitMany, 3);
   ("MojoHandleWatcher_SendControlData", NHandleWatcher_SendControlData, 5)]%string.

Fixpoint lookup_entry (entries : list (string * Native * Z)) (name : string) (argument_count : Z) : option Native :=
  match entries with
  | [] => None
  | (entry_name, function, count) :: entries =>
      if bool_decide (name = entry_name) && (count =? argument_count) then Some function
      else lookup_entry entries name argument_count
  end.
Definition MojoNativeLookup (name : string) (argument_count : Z) : option Native :=
  lookup_entry MojoEntries name argument_count.

Fixpoint lookup_symbol (entries : list (string * Native * Z)) (nf : Native) : option string :=
  match entries with
  | [] => None
  | (name, function, _) :: entries => if bool_decide (function = nf) then Some name else lookup_symbol entries nf
  end.
Definition MojoNativeSymbol (nf : Native) : option string := lookup_symbol MojoEntries nf.
