(* ===== verification/DartNativesSafe.v ===== *)
(** * The native functions of Dart's Mojo library are safe

    [DartLaws] and [SystemLaws] state what the functions rely on; [arguments_ok] what
    Dart code owes them.  [calm]: a step returns, keeps the typed data of the VM as it
    was, and passes to the system only addresses of typed data, with room for the
    counts that go with them if the sizes that Dart code gave [fit]. *)
From stdpp Require Import base list numbers option gmap strings.
From S2P Require Import Prelude MojoResult System Codec CppBindings WatcherCommand DartNatives.

(** ** What the functions rely on *)

(** [data_of d v]: the address and the number of elements of the typed data [v];
    [held d v]: its data was acquired and not released. *)
Class DartLaws (V D : Type) `{!DartVM V D} := {
  data_of : D → V → option (Z * Z);
  held : D → V → bool;
  data_range : ∀ d v a n, data_of d v = Some (a, n) → 0 <= n < 2 ^ 63;
  acquire_law : ∀ d v x, data_of d v = Some x → held d v = false →
    ∃ d', Dart_TypedDataAcquireData v d = (Some x, d') ∧ held d' v = true ∧
      (∀ u, data_of d' u = data_of d u) ∧ (∀ u, u ≠ v → held d' u = held d u) ∧
      (∀ l i, Dart_ListGetAt l i d' = Dart_ListGetAt l i d) ∧ (∀ l, Dart_ListLength l d' = Dart_ListLength l d);
  release_law : ∀ d v, held d v = true →
    ∃ d', Dart_TypedDataReleaseData v d = (true, d') ∧ held d' v = false ∧
      (∀ u, data_of d' u = data_of d u) ∧ (∀ u, u ≠ v → held d' u = held d u);
  external_law : ∀ type a n d v d', 0 <= n < 2 ^ 63 → Dart_NewExternalTypedData type a n d = (v, d') →
    Dart_IsError v = false ∧ Dart_IsNull v = false ∧ data_of d v = None ∧ data_of d' v = Some (a, n) ∧
    held d' v = false ∧ ∀ u, u ≠ v → data_of d' u = data_of d u ∧ held d' u = held d u;
  argument_range : ∀ i d z, Dart_GetNativeIntegerArgument i d = Some z → - 2 ^ 63 <= z < 2 ^ 63;
  length_range : ∀ l d, 0 <= Dart_ListLength l d < 2 ^ 32;
  integer_law : ∀ z d u, data_of (Dart_NewInteger z d).2 u = data_of d u ∧ held (Dart_NewInteger z d).2 u = held d u;
  list_law : ∀ n d u, data_of (Dart_NewList n d).2 u = data_of d u ∧ held (Dart_NewList n d).2 u = held d u;
  set_law : ∀ l i v d u, data_of (Dart_ListSetAt l i v d) u = data_of d u ∧ held (Dart_ListSetAt l i v d) u = held d u;
  weak_law : ∀ v p n d u, data_of (Dart_NewWeakPersistentHandle v p n d) u = data_of d u ∧
    held (Dart_NewWeakPersistentHandle v p n d) u = held d u;
}.

(** A successful call assigns its out parameters; [MojoWait] and [MojoWaitMany] the states
    that [AreSignalsStatesValid] says are there; a message's counts are sizes, and an
    array of handles keeps its length. *)
Definition is_ok (r : Z) : Prop := r = MOJO_RESULT_OK.
Definition answer_ok (c : SysCall) : answer c → Prop :=
  match c with
  | CallWait _ _ _ => λ a, AreSignalsStatesValid (mkWaitManyResult a.1 kInvalidWaitManyIndexValue) = true → is_Some a.2
  | CallMapBuffer _ _ n _ => λ a, is_ok a.1 → is_Some a.2 ∧ 0 <= n < 2 ^ 63
  | CallGetBufferInformation _ => λ a, is_ok a.1 → is_Some a.2
  | CallBeginWriteData _ _ | CallBeginReadData _ _ => λ a, is_ok a.1 → ∃ p n, a.2 = Some (p, n) ∧ 0 <= n < 2 ^ 32
  | CallReadMessage _ _ _ hs _ _ => λ a, 0 <= a.1.1.2 < 2 ^ 32 ∧ 0 <= a.1.2 < 2 ^ 32 ∧
      (∀ n, hs = Local n → Z.of_nat (length a.2) = Z.max 0 n)
  | _ => λ _, True
  end.
Class SystemLaws (E : Type) `{!NativeSystem E} := {
  answer_law : ∀ c e, answer_ok c (sys_call c e).1;
}.

(** ** What a native function may do *)
Section safe.
Context {V D E : Type} `{!EqDecision V} `{!DartApi} `{!DartVM V D} `{!NativeSystem E} `{!DartLaws V D} `{!SystemLaws E}.
Context (debug : bool) (fit : Prop).
Abbreviation M := (stateR (World V D E)).
Abbreviation W := (World V D E).

(** A pointer to typed data with room for [n] elements; a null pointer for none. *)
Definition fits (d : D) (p : Ptr) (n : Z) : Prop :=
  match p with
  | NullPtr => fit → n = 0
  | At a => ∃ v len, data_of d v = Some (a, len) ∧ (fit → n <= len)
  | Local len => n <= len
  end.
Definition room (d : D) (e : Event V) : Prop :=
  match e with
  | Called (CallWriteData _ p n _) | Called (CallReadData _ p n _) | Called (CallWriteMessage _ p n _ _) => fits d p n
  | Called (CallReadMessage _ p n hs k _) => fits d p n ∧ fits d hs k
  | _ => True
  end.

(** The typed data that there was is there, acquired or not as before, but for [h]. *)
Definition keeps_data (h : V → bool) (d d' : D) : Prop := ∀ v x, data_of d v = Some x →
  data_of d' v = Some x ∧ held d' v = h v.
(** The heap arrays are those of the registered finalizers that have not run; [gone] are
    the arrays of those that have. *)
Definition peer_array (p : Peer) : option Z :=
  match p with ByteArray a | HandleArray a => Some a | _ => None end.
Definition event_array (e : Event V) : option Z :=
  match e with Registered _ p => peer_array p | Called _ => None end.
Record owned (gone : list Z) (w : W) : Prop := {
  owned_nodup : NoDup (omap event_array (trace w));
  owned_next : ∀ a, a ∈ omap event_array (trace w) → a < next w;
  owned_arrays : ∀ a, is_Some (arrays w !! a) ↔ a ∈ omap event_array (trace w) ∧ a ∉ gone;
  owned_gone : ∀ a, a ∈ gone → a ∈ omap event_array (trace w);
}.

Record moves (h : V → bool) (w w' : W) : Prop := {
  moves_data : keeps_data h (vm w) (vm w');
  moves_trace : ∃ es, trace w' = es ++ trace w ∧ Forall (room (vm w')) es;
  moves_owned : ∀ gone, owned gone w → owned gone w';
}.
Definition same (w w' : W) : Prop := moves (held (vm w)) w w'.

Definition calm {A} (f : M A) : Prop := ∀ w, returns (f w) (λ '(_, w'), same w w').

Lemma fits_keeps h d d' p n : keeps_data h d d' → fits d p n → fits d' p n.
Proof. intros Hd. destruct p; [done| |done]. intros (v & len & Hv & Hn). exists v, len. by destruct (Hd v _ Hv). Qed.
Lemma room_keeps h d d' e : keeps_data h d d' → room d e → room d' e.
Proof. intros Hd. destruct e as [[]|]; cbn; try done; [..|intros [H1 H2]; split]; by eapply fits_keeps. Qed.

Lemma moves_trans h1 h2 w1 w2 w3 : moves h1 w1 w2 → moves h2 w2 w3 → moves h2 w1 w3.
Proof.
  intros [Hd1 (es1 & Ht1 & Hr1) Ho1] [Hd2 (es2 & Ht2 & Hr2) Ho2]. split; [| |by auto].
  - intros v x Hv. by apply Hd2, (Hd1 v).
  - exists (es2 ++ es1). rewrite Ht2, Ht1, app_assoc. split; [done|]. apply Forall_app. split; [done|].
    eapply Forall_impl; [exact Hr1|]. intros e. by eapply room_keeps.
Qed.
Lemma moves_ext h h' w w' : moves h w w' → (∀ v x, data_of (vm w) v = Some x → h v = h' v) → moves h' w w'.
Proof. intros [Hd Ht Ho] Hh. split; [|done..]. intros v x Hv. rewrite <- (Hh v x) by done. by apply Hd. Qed.
Lemma same_trans w1 w2 w3 : same w1 w2 → same w2 w3 → same w1 w3.
Proof.
  intros H12 H23. eapply moves_ext; [by eapply moves_trans|]. intros v x Hv. by apply (moves_data _ _ _ H12 v x).
Qed.
(** Steps that touch no array *)
Lemma moves_by h w w' es : keeps_data h (vm w) (vm w') → trace w' = es ++ trace w → Forall (room (vm w')) es →
  omap event_array es = [] → arrays w' = arrays w → next w' = next w → moves h w w'.
Proof.
  intros Hd Ht Hr He Ha Hn. split; [done|by exists es|]. intros gone [H1 H2 H3 H4].
  assert (omap event_array (trace w') = omap event_array (trace w)) as Hp by (by rewrite Ht, omap_app, He).
  split; rewrite ?Hp, ?Ha, ?Hn; done.
Qed.
Lemma same_refl w : same w w.
Proof. by apply (moves_by _ _ _ []). Qed.

(** *** Steps *)
Lemma calm_ret {A} (a : A) : calm (mret a).
Proof. intros w. apply same_refl. Qed.
Lemma calm_bind {A B} (f : M A) (k : A → M B) : calm f → (∀ a, calm (k a)) → calm (f ≫= k).
Proof.
  intros Hf Hk w. apply returnsS_bind. eapply returns_mono; [apply Hf|]. intros [a w1] H1.
  eapply returns_mono; [apply Hk|]. intros [b w2] H2. by eapply same_trans.
Qed.
Lemma calm_if {A} (b : bool) (f g : M A) : calm f → calm g → calm (if b then f else g).
Proof. by destruct b. Qed.
Lemma calm_get_vm {A} (f : D → A) : calm (get_vm f).
Proof. intros w. apply same_refl. Qed.
Lemma calm_call_vm {A} (f : D → A * D) :
  (∀ d u x, data_of d u = Some x → data_of (f d).2 u = Some x ∧ held (f d).2 u = held d u) → calm (call_vm f).
Proof.
  intros Hf w. unfold call_vm. destruct (f (vm w)) as [a d'] eqn:He. cbn. apply (moves_by _ _ _ []); [|done..].
  intros v x Hv. cbn. specialize (Hf (vm w) v x Hv). by rewrite He in Hf.
Qed.
Lemma calm_set_returned r : calm (set_returned r).
Proof. intros w. by apply (moves_by _ _ _ []). Qed.
Lemma calm_registered v p : peer_array p = None → calm (log (Registered v p)).
Proof.
  intros Hp w. apply (moves_by _ _ _ [Registered v p]); cbn; [by intros u x|done|by constructor| |done..]. by rewrite Hp.
Qed.
Lemma calm_dcheck b : (debug = true → b = true) → calm (MOJO_DCHECK debug b).
Proof. intros Hb. unfold MOJO_DCHECK, MOJO_CHECK. destruct debug; [rewrite Hb by done|]; apply calm_ret. Qed.
Lemma calm_call c : (∀ d, room d (Called c)) → calm (call c).
Proof.
  intros Hr w. unfold call, call_env. apply returnsS_bind. cbn. destruct (sys_call c (env w)) as [a e]. cbn.
  apply (moves_by _ _ _ [Called c]); cbn; [by intros v x|done|by constructor|done..].
Qed.
(** A call, with what is known of its answer. *)
Lemma calm_call_answer {B} c (k : answer c → M B) :
  (∀ d, room d (Called c)) → (∀ a, answer_ok c a → calm (k a)) → calm (call c ≫= k).
Proof.
  intros Hr Hk w. pose proof (calm_call c Hr w) as Hc. revert Hc. unfold call, call_env, mbind, stateR_bind. cbn.
  pose proof (answer_law c (env w)) as Ha. destruct (sys_call c (env w)) as [a e]. cbn in *. intros Hw.
  eapply returns_mono; [apply (Hk a Ha)|]. intros [b w2] H2. by eapply same_trans.
Qed.
Lemma calm_assigned {A} (x : option A) : is_Some x → calm (assigned x).
Proof. intros [a ->]. apply calm_ret. Qed.

Lemma calm_argument num (failure : M unit) k : calm failure → (∀ z, - 2 ^ 63 <= z < 2 ^ 63 → calm (k z)) →
  calm (CHECK_INTEGER_ARGUMENT num failure k).
Proof.
  intros Hf Hk w. unfold CHECK_INTEGER_ARGUMENT. apply returnsS_bind. cbn.
  destruct (Dart_GetNativeIntegerArgument num (vm w)) as [z|] eqn:Hz; [|apply Hf]. by apply Hk, (argument_range num (vm w)).
Qed.

Lemma calm_assigned_then {A B} (x : option A) (k : A → M B) :
  is_Some x → (∀ a, x = Some a → calm (k a)) → calm (assigned x ≫= k).
Proof. intros [a ->] Hk w. by apply Hk. Qed.

Lemma calm_new_integer z : calm (call_vm (Dart_NewInteger z)).
Proof. apply calm_call_vm. intros d u x Hx. destruct (integer_law z d u) as [-> ->]. done. Qed.
Lemma calm_new_list n : calm (call_vm (Dart_NewList n)).
Proof. apply calm_call_vm. intros d u x Hx. destruct (list_law n d u) as [-> ->]. done. Qed.
Lemma calm_list_set l i v : calm (list_set l i v).
Proof. apply calm_call_vm. intros d u x Hx. cbn. destruct (set_law l i v d u) as [-> ->]. done. Qed.
Lemma calm_weak_handle v p n : peer_array p = None → calm (weak_handle v p n).
Proof.
  intros Hp. apply calm_bind; [by apply calm_registered|]. intros _. apply calm_call_vm. intros d u x Hx. cbn.
  destruct (weak_law v p n d u) as [-> ->]. done.
Qed.
Lemma calm_external type a n : 0 <= n < 2 ^ 63 → calm (call_vm (Dart_NewExternalTypedData type a n)).
Proof.
  intros Hn. apply calm_call_vm. intros d u x Hx. destruct (Dart_NewExternalTypedData type a n d) as [v d'] eqn:He.
  destruct (external_law _ _ _ _ _ _ Hn He) as (_ & _ & Hv & _ & _ & Hu). destruct (decide (u = v)) as [->|Hne]; [congruence|].
  cbn. destruct (Hu u Hne) as [-> ->]. done.
Qed.
End safe.

Create HintDb calm.
#[export] Hint Resolve calm_ret calm_get_vm calm_set_returned calm_new_integer calm_new_list calm_list_set
  calm_weak_handle calm_external calm_assigned : calm.

(** A successful call assigned its out parameter. *)
Ltac answered :=
  match goal with
  | H : answer_ok _ _ |- _ => cbn in H; apply H; (by apply Z.eqb_eq) || done
  end.

(** Follows the code: sequences, conditions and matches. *)
Ltac calm_step :=
  match goal with
  | |- calm _ (if ?b then _ else _) => let H := fresh "Hb" in destruct b eqn:H
  | |- calm _ (call ?c ≫= _) => apply (calm_call_answer _ c); [intros ?; exact I|intros ? ?]
  | |- calm _ (CHECK_INTEGER_ARGUMENT _ _ _) => apply calm_argument; [|intros ? ?]
  | |- calm _ (assigned ?x ≫= _) => apply calm_assigned_then; [answered|intros ? ->]
  | |- calm _ (match ?x with _ => _ end) => let H := fresh "Hx" in destruct x eqn:H
  | |- calm _ (_ ≫= _) => apply calm_bind; [|intros ?]
  | |- calm _ (let _ := _ in _) => cbv zeta
  | |- calm _ _ => first [solve [eauto with calm]]
  end.
Ltac calm := repeat calm_step.

Section natives.
Context {V D E : Type} `{!EqDecision V} `{!DartApi} `{!DartVM V D} `{!NativeSystem E} `{!DartLaws V D} `{!SystemLaws E}.
Context (debug : bool) (fit : Prop).
Abbreviation M := (stateR (World V D E)).
Abbreviation calm := (calm (V:=V) (D:=D) (E:=E) fit).

Lemma calm_list_set_integer l i z : calm (list_set_integer l i z).
Proof. unfold list_set_integer. calm. Qed.
Lemma calm_SetNullReturn : calm SetNullReturn.
Proof. apply calm_set_returned. Qed.
Lemma calm_SetInvalidArgumentReturn : calm SetInvalidArgumentReturn.
Proof. apply calm_set_returned. Qed.
Hint Resolve calm_list_set_integer calm_SetNullReturn calm_SetInvalidArgumentReturn : calm.

Lemma calm_SignalsStateToDart s : calm (SignalsStateToDart s).
Proof. unfold SignalsStateToDart. calm. Qed.
Hint Resolve calm_SignalsStateToDart : calm.
Lemma calm_set_states l states : ∀ i, calm (set_states l i states).
Proof. induction states as [|s states IH]; intros i; cbn [set_states]; calm; auto. Qed.
Lemma calm_set_results l results : ∀ i, calm (set_results l i results).
Proof. induction results as [|[z|] results IH]; intros i; cbn [set_results]; calm; auto. Qed.
Hint Resolve calm_set_states calm_set_results : calm.
Lemma calm_return_list results : calm (return_list results).
Proof. unfold return_list. calm. Qed.
Lemma calm_return_typed_data l res v : calm (return_typed_data l res v).
Proof. unfold return_typed_data. calm. Qed.
Hint Resolve calm_return_list calm_return_typed_data : calm.

Lemma calm_wait_many_arguments handles signals n : ∀ i, calm (wait_many_arguments handles signals i n).
Proof. induction n as [|n IH]; intros i; cbn [wait_many_arguments]; calm; auto. Qed.
Lemma calm_WaitMany handles signals deadline states : calm (WaitMany handles signals deadline states).
Proof. unfold WaitMany. calm. Qed.
Hint Resolve calm_wait_many_arguments calm_WaitMany : calm.

(** The functions that have no typed data among their arguments. *)
Definition plain_native (f : Native) : Prop :=
  match f with
  | NDataPipe_WriteData | NDataPipe_ReadData | NMessagePipe_Write | NMessagePipe_Read
  | NMessagePipe_QueryAndRead | NHandleWatcher_SendControlData => False
  | _ => True
  end.

Lemma calm_return_buffer res (buffer : option (Z * Z)) :
  (is_ok res → ∃ p n, buffer = Some (p, n) ∧ 0 <= n < 2 ^ 32) → calm (return_buffer res buffer).
Proof.
  intros Hb. unfold return_buffer. apply calm_bind; [auto with calm|]. intros l. apply calm_bind; [|intros v; auto with calm].
  destruct (res =? MOJO_RESULT_OK) eqn:Hr; [|apply calm_ret].
  destruct Hb as (p & n & -> & Hn); [by apply Z.eqb_eq|].
  apply calm_assigned_then; [done|]. intros [? ?] [= <- <-]. apply calm_external. lia.
Qed.
Hint Resolve calm_return_buffer : calm.

Lemma plain_natives_calm f : plain_native f → calm (run_native debug f).
Proof.
  destruct f; intros Hf; try done; cbn [run_native];
    unfold MojoSharedBuffer_Create, MojoSharedBuffer_Duplicate, MojoSharedBuffer_Map, MojoSharedBuffer_GetInformation,
      MojoDataPipe_Create, MojoDataPipe_BeginWriteData, MojoDataPipe_EndWriteData, MojoDataPipe_BeginReadData,
      MojoDataPipe_EndReadData, MojoMessagePipe_Create, Mojo_GetTimeTicksNow, MojoHandle_Close, MojoHandle_Wait,
      MojoHandle_RegisterFinalizer, MojoHandle_WaitMany; calm.
  apply calm_external. assert (0 <= u64 z1 < 2 ^ 63) as Hn by (answered).
  revert Hn. unfold u64. intros Hn. destruct (Z.leb_spec 0 z1); [lia|].
  rewrite <- (Z.mod_add _ 1), Z.mod_small in Hn by lia. lia.
Qed.

End natives.
