(* ===== verification/DartNativesData.v ===== *)
(** * The native functions of Dart's Mojo library that are given typed data

    They rely on the typed data not being in use, and each of them returns and releases
    it again, with one exception: [MojoMessagePipe_Write] keeps it acquired if some
    handle is no integer.  They do not compare its size with the counts that they are
    given.  [lend b v x h]: of the typed data that is held according to [h], [v] is now
    held ([x]) or not, if [b]. *)
From stdpp Require Import base list numbers option gmap strings.
From S2P Require Import Prelude MojoResult System Codec CppBindings WatcherCommand DartNatives DartNativesSafe.

Section steps.
Context {V D E : Type} `{!EqDecision V} `{!DartApi} `{!DartVM V D} `{!NativeSystem E} `{!DartLaws V D} `{!SystemLaws E}.
Context (debug : bool) (fit : Prop).
Abbreviation M := (stateR (World V D E)).
Abbreviation W := (World V D E).
Abbreviation calm := (calm (V:=V) (D:=D) (E:=E) fit).
Abbreviation moves := (moves fit).
Abbreviation same := (same fit).
Abbreviation fits := (fits fit).
Abbreviation room := (room fit).

Lemma moves_same h (w w1 w2 : W) : moves h w w1 → same w1 w2 → moves h w w2.
Proof.
  intros H1 H2. eapply moves_ext; [by eapply moves_trans|]. intros v x Hv. by apply (moves_data _ _ _ _ H1 v x).
Qed.
Lemma returns_rest {A} (f : M A) h (w w1 : W) : calm f → moves h w w1 → returns (f w1) (λ '(_, w2), moves h w w2).
Proof. intros Hf Hw. eapply returns_mono; [apply Hf|]. intros [a w2] H2. by eapply moves_same. Qed.
Lemma moves_held h (w w' : W) : moves h w w' → (∀ v x, data_of (vm w) v = Some x → h v = held (vm w) v) → same w w'.
Proof. apply moves_ext. Qed.

Lemma returns_get_vm {A B} (f : D → A) (k : A → M B) w Q : returns (k (f (vm w)) w) Q → returns ((get_vm f ≫= k) w) Q.
Proof. done. Qed.
Lemma returns_assigned {A B} (a : A) (k : A → M B) w Q : returns (k a w) Q → returns ((assigned (Some a) ≫= k) w) Q.
Proof. done. Qed.
Lemma returns_argument num (failure : M unit) k w Q : returns (failure w) Q →
  (∀ z, Dart_GetNativeIntegerArgument num (vm w) = Some z → - 2 ^ 63 <= z < 2 ^ 63 → returns (k z w) Q) →
  returns (CHECK_INTEGER_ARGUMENT num failure k w) Q.
Proof.
  intros Hf Hk. unfold CHECK_INTEGER_ARGUMENT. apply returns_get_vm.
  destruct (Dart_GetNativeIntegerArgument num (vm w)) as [z|] eqn:Hz; [|done]. by apply Hk, (argument_range num (vm w)).
Qed.
Lemma returns_call {B} c (k : answer c → M B) h (w w1 : W) Q : moves h w w1 → room (vm w1) (Called c) →
  (∀ w2, answer_ok c (sys_call c (env w1)).1 → env w2 = (sys_call c (env w1)).2 →
    moves h w w2 → returns (k (sys_call c (env w1)).1 w2) Q) →
  returns ((call c ≫= k) w1) Q.
Proof.
  intros Hw Hr Hk. unfold call, call_env, mbind, stateR_bind. cbn. pose proof (answer_law c (env w1)) as Ha.
  destruct (sys_call c (env w1)) as [a e] eqn:He. cbn in *. apply Hk; [done..|]. eapply moves_same; [exact Hw|].
  apply (moves_by _ _ _ _ [Called c]); cbn; [by intros v x|done|by constructor|done..].
Qed.

End steps.

Ltac system_call := match goal with |- returns ((call ?c ≫= _) _) _ => eapply (returns_call _ c) end.

Section data.
Context {V D E : Type} `{!EqDecision V} `{!DartApi} `{!DartVM V D} `{!NativeSystem E} `{!DartLaws V D} `{!SystemLaws E}.
Context (debug : bool) (fit : Prop).
Abbreviation M := (stateR (World V D E)).
Abbreviation W := (World V D E).
Abbreviation calm := (calm (V:=V) (D:=D) (E:=E) fit).
Abbreviation moves := (moves fit).
Abbreviation same := (same fit).
Abbreviation fits := (fits fit).
Abbreviation room := (room fit).

Definition lend (b : bool) (v : V) (x : bool) (h : V → bool) (u : V) : bool :=
  if decide (b = true ∧ u = v) then x else h u.

(** *** Acquiring and releasing *)
Definition unused (d : D) (v : V) : Prop := ∃ x, data_of d v = Some x ∧ held d v = false.
Definition has_room (d : D) (v : V) (n : Z) : Prop := ∀ a len, data_of d v = Some (a, len) → n <= len.
Definition data_ok (d : D) (v : V) (n : Z) : Prop :=
  ∃ a len, data_of d v = Some (a, len) ∧ held d v = false ∧ (fit → n <= len).
Lemma unused_data d v n : unused d v → (fit → has_room d v n) → data_ok d v n.
Proof. intros ([a len] & Hv & Hh) Hn. exists a, len. split_and!; [done..|]. intros Hf. by apply (Hn Hf a). Qed.

Lemma fits_data h (w w1 : W) v a len n : moves h w w1 → data_of (vm w) v = Some (a, len) → (fit → n <= len) → fits (vm w1) (At a) n.
Proof. intros Hw Hv Hn. exists v, len. by destruct (moves_data _ _ _ _ Hw v _ Hv). Qed.

Lemma moves_vm h (w w1 : W) v x d : moves h w w1 → (∀ u, data_of d u = data_of (vm w1) u) →
  held d v = x → (∀ u, u ≠ v → held d u = held (vm w1) u) →
  moves (lend true v x h) w (mkWorld d (env w1) (arrays w1) (next w1) (returned w1) (trace w1)).
Proof.
  intros [Hd (es & Ht & Hes) Ho] Hdata Hv Hheld. split; cbn.
  - intros u y Hu. destruct (Hd u y Hu) as [Hu1 Hu2]. rewrite Hdata. split; [done|]. unfold lend.
    case_decide as Hc; [by destruct Hc as [_ ->]|]. rewrite Hheld by naive_solver. done.
  - exists es. split; [done|]. eapply Forall_impl; [exact Hes|]. intros e. apply (room_keeps _ (held d)).
    intros u y Hu. by rewrite Hdata.
  - intros gone Hg. destruct (Ho gone Hg). by split.
Qed.

Lemma acquire_runs h (w w1 : W) v x : moves h w w1 → data_of (vm w) v = Some x → h v = false →
  ∃ w2, acquire v w1 = Ok (Some x, w2) ∧ moves (lend true v true h) w w2 ∧ env w2 = env w1 ∧
    (∀ l i, Dart_ListGetAt l i (vm w2) = Dart_ListGetAt l i (vm w1)) ∧
    (∀ l, Dart_ListLength l (vm w2) = Dart_ListLength l (vm w1)) ∧
    (∀ u, data_of (vm w2) u = data_of (vm w1) u).
Proof.
  intros Hw Hv Hh. destruct (moves_data _ _ _ _ Hw v _ Hv) as [Hv1 Hh1]. rewrite Hh in Hh1.
  destruct (acquire_law _ _ _ Hv1 Hh1) as (d & He & Hd & Hdata & Hheld & Hget & Hlen).
  unfold acquire, call_vm. rewrite He. eexists. split; [done|]. cbn. split; [|done]. by apply (moves_vm h).
Qed.
Lemma release_data_runs h (w w1 : W) v x : moves h w w1 → data_of (vm w) v = Some x → h v = true →
  ∃ w2, release v w1 = Ok (true, w2) ∧ moves (lend true v false h) w w2 ∧ env w2 = env w1.
Proof.
  intros Hw Hv Hh. destruct (moves_data _ _ _ _ Hw v _ Hv) as [Hv1 Hh1]. rewrite Hh in Hh1.
  destruct (release_law _ _ Hh1) as (d & He & Hd & Hdata & Hheld).
  unfold release, call_vm. rewrite He. eexists. split; [done|]. cbn. split; [|done]. by apply (moves_vm h).
Qed.

Lemma lend_lend v x y h b u : h v = y → lend b v y (lend b v x h) u = h u.
Proof. unfold lend. intros Hv. case_decide as Hc; [by destruct Hc as [_ ->]|done]. Qed.
Lemma lend_false v x h u : lend false v x h u = h u.
Proof. unfold lend. by rewrite decide_False by (by intros []). Qed.
Lemma lend_at v x h : lend true v x h v = x.
Proof. unfold lend. by rewrite decide_True. Qed.

Lemma returns_acquire {B} v n (k : option (Z * Z) → M B) (w : W) Q : data_ok (vm w) v n →
  (∀ a len w1, fits (vm w1) (At a) n → moves (lend true v true (held (vm w))) w w1 → returns (k (Some (a, len)) w1) Q) →
  returns ((acquire v ≫= k) w) Q.
Proof.
  intros (a & len & Hv & Hh & Hn) Hk.
  destruct (acquire_runs _ w w v _ (same_refl fit w) Hv Hh) as (w1 & He & Hw1 & _).
  rewrite (bindS_Ok _ _ _ _ _ He). apply Hk; [|done]. by eapply fits_data.
Qed.
Lemma returns_release {B} v n (k : bool → M B) (w w1 : W) Q : data_ok (vm w) v n →
  moves (lend true v true (held (vm w))) w w1 → (∀ w2, same w w2 → returns (k true w2) Q) → returns ((release v ≫= k) w1) Q.
Proof.
  intros (a & len & Hv & Hh & Hn) Hw Hk.
  destruct (release_data_runs _ _ _ _ _ Hw Hv (lend_at _ _ _)) as (w2 & He & Hw2 & _).
  rewrite (bindS_Ok _ _ _ _ _ He). apply Hk. eapply moves_ext; [exact Hw2|]. intros u x _. by apply lend_lend.
Qed.

(** *** Typed data or null *)
Definition typed_ok (d : D) (v : V) (n : Z) : Prop :=
  if Dart_IsNull v then fit → n = 0 else data_ok d v n.

Lemma returns_acquire_unless_null {B} v n (k : Ptr → M B) (w : W) Q : typed_ok (vm w) v n →
  (∀ p w1, fits (vm w1) p n → moves (lend (negb (Dart_IsNull v)) v true (held (vm w))) w w1 →
    (∀ l i, Dart_ListGetAt l i (vm w1) = Dart_ListGetAt l i (vm w)) → (∀ l, Dart_ListLength l (vm w1) = Dart_ListLength l (vm w)) →
    returns (k p w1) Q) →
  returns ((acquire_unless_null v ≫= k) w) Q.
Proof.
  unfold typed_ok, acquire_unless_null. destruct (Dart_IsNull v); cbn [negb].
  - intros Hn Hk. apply Hk; [done| |done..]. eapply moves_ext; [apply same_refl|]. intros u x _. by rewrite lend_false.
  - intros (a & len & Hv & Hh & Hn) Hk. destruct (acquire_runs _ w w v _ (same_refl fit w) Hv Hh) as (w1 & He & Hw1 & _ & Hl).
    apply returnsS_bind. rewrite (bindS_Ok _ _ _ _ _ He). apply Hk; [by eapply fits_data|done|apply Hl..].
Qed.
Lemma returns_release_unless_null {B} v n (k : M B) (w w1 : W) Q : typed_ok (vm w) v n →
  moves (lend (negb (Dart_IsNull v)) v true (held (vm w))) w w1 → (∀ w2, same w w2 → returns (k w2) Q) →
  returns ((release_unless_null v;; k) w1) Q.
Proof.
  unfold typed_ok, release_unless_null. destruct (Dart_IsNull v); cbn [negb].
  - intros _ Hw Hk. apply Hk. eapply moves_ext; [exact Hw|]. intros u x _. by rewrite lend_false.
  - intros Hd Hw Hk. apply returnsS_bind. by apply (returns_release v n _ w).
Qed.

(** ** Data pipes *)
Definition integer_argument (w : W) (i : Z) : option Z := Dart_GetNativeIntegerArgument i (vm w).
Definition argument (w : W) (i : Z) : V := Dart_GetNativeArgument i (vm w).

(** The second argument is not in use, if it is typed data; and it has as many elements as
    the third says. *)
Definition data_unused (w : W) : Prop :=
  Dart_IsTypedData (argument w 1) = true → unused (vm w) (argument w 1).
Definition count_fits (w : W) : Prop := ∀ n, integer_argument w 2 = Some n → 0 < n →
  has_room (vm w) (argument w 1) (u32 n).

Lemma MojoDataPipe_WriteData_calm w : data_unused w → (fit → count_fits w) →
  returns (MojoDataPipe_WriteData w) (λ '(_, w'), same w w').
Proof.
  intros Hok Hfit. unfold MojoDataPipe_WriteData. apply returns_argument; [apply calm_set_returned|]. intros handle _ _.
  apply returns_get_vm. fold (argument w 1). destruct (Dart_IsTypedData (argument w 1)) eqn:Ht; [|apply calm_set_returned].
  apply returns_argument; [apply calm_set_returned|]. intros n Hn _.
  destruct (Z.leb_spec n 0); [apply calm_set_returned|].
  assert (data_ok (vm w) (argument w 1) (u32 n)) as Hd by (apply unused_data; [auto|intros Hf; by apply Hfit]).
  apply returns_argument; [apply calm_set_returned|]. intros flags _ _.
  apply (returns_acquire _ _ _ _ _ Hd). intros a len w1 Hp Hw1. apply returns_assigned.
  system_call; [exact Hw1|exact Hp|]. intros w2 _ _ Hw2. destruct (sys_call _ _).1 as [res len'].
  apply (returns_release _ _ _ _ _ _ Hd Hw2). intros w3 Hw3. apply returns_rest; [apply calm_return_list|done].
Qed.

Lemma MojoDataPipe_ReadData_calm w : data_unused w →
  (fit → ∀ n, integer_argument w 2 = Some n →
    if Dart_IsNull (argument w 1) then u32 n = 0 else has_room (vm w) (argument w 1) (u32 n)) →
  returns (MojoDataPipe_ReadData w) (λ '(_, w'), same w w').
Proof.
  intros Hok Hfit. unfold MojoDataPipe_ReadData. apply returns_argument; [apply calm_set_returned|]. intros handle _ _.
  apply returns_get_vm. fold (argument w 1). destruct (negb (Dart_IsTypedData _) && _) eqn:Ht; [apply calm_set_returned|].
  apply returns_argument; [apply calm_set_returned|]. intros n Hn _.
  assert (typed_ok (vm w) (argument w 1) (u32 n)) as Hd.
  { unfold typed_ok. destruct (Dart_IsNull (argument w 1)); [intros Hf; by apply Hfit|].
    apply unused_data; [apply Hok; by destruct (Dart_IsTypedData _)|]. intros Hf. by apply Hfit. }
  apply returns_argument; [apply calm_set_returned|]. intros flags _ _.
  apply (returns_acquire_unless_null _ _ _ _ _ Hd). intros p w1 Hp Hw1 _ _.
  system_call; [exact Hw1|exact Hp|]. intros w2 _ _ Hw2. destruct (sys_call _ _).1 as [res len'].
  apply (returns_release_unless_null _ _ _ _ _ _ Hd Hw2). intros w3 Hw3. apply returns_rest; [apply calm_return_list|done].
Qed.

(** ** Message pipes *)

(** An element of the list [l] that is no integer *)
Definition not_integer (d : D) (l : V) : Prop :=
  ∃ i, 0 <= i < Dart_ListLength l d ∧ Dart_IsInteger (Dart_ListGetAt l i d) = false.

Lemma list_handles_runs hs n : ∀ i (w : W), ∃ r, list_handles hs i n w = Ok (r, w) ∧
  (r = None → ∃ j, i <= j < i + Z.of_nat n ∧ Dart_IsInteger (Dart_ListGetAt hs j (vm w)) = false).
Proof.
  induction n as [|n IH]; intros i w; [by exists (Some [])|]. cbn [list_handles]. unfold mbind, stateR_bind, get_vm.
  destruct (Dart_IsInteger (Dart_ListGetAt hs i (vm w))) eqn:Hi; cbn [negb].
  - destruct (IH (i + 1) w) as (r & -> & Hr). eexists. split; [reflexivity|]. destruct r; [done|].
    intros _. destruct (Hr eq_refl) as (j & Hj & Hint). exists j. split; [lia|done].
  - exists None. split; [done|]. intros _. exists i. split; [lia|done].
Qed.
Lemma bad_length_false v n : bad_length v n = false → (Dart_IsNull v = true → n = 0) ∧ (Dart_IsNull v = false → 0 < n).
Proof. unfold bad_length. destruct (Dart_IsNull v); cbn; intros; split; intros; try done; lia. Qed.
Lemma data_unused_typed w n : data_unused w → (fit → count_fits w) → integer_argument w 2 = Some n →
  negb (Dart_IsTypedData (argument w 1)) && negb (Dart_IsNull (argument w 1)) = false →
  bad_length (argument w 1) n = false → typed_ok (vm w) (argument w 1) (u32 n).
Proof.
  intros Hok Hfit Hn Ht Hb. apply bad_length_false in Hb as [Hb1 Hb2]. unfold typed_ok.
  destruct (Dart_IsNull (argument w 1)); [by rewrite Hb1|].
  apply unused_data; [apply Hok; by destruct (Dart_IsTypedData _)|]. intros Hf. apply Hfit; auto.
Qed.

(** A handle that is no integer ends it with the typed data acquired. *)
Lemma MojoMessagePipe_Write_calm w : data_unused w → (fit → count_fits w) →
  returns (MojoMessagePipe_Write w) (λ '(_, w'), ∃ h, moves h w w' ∧
    ∀ v, v = argument w 1 ∧ not_integer (vm w) (argument w 3) ∨ h v = held (vm w) v).
Proof.
  intros Hok Hfit.
  assert (Hsame : ∀ (f : M unit) w1, same w w1 → calm f → returns (f w1) (λ '(_, w'), ∃ h, moves h w w' ∧
    ∀ v, v = argument w 1 ∧ not_integer (vm w) (argument w 3) ∨ h v = held (vm w) v)).
  { intros f w1 Hw1 Hf. eapply returns_mono; [by eapply returns_rest|]. intros [[] w'] Hw'. eexists. split; [exact Hw'|auto]. }
  assert (Hfail : calm SetInvalidArgumentReturn) by apply calm_set_returned.
  unfold MojoMessagePipe_Write. apply returns_argument; [by apply Hsame; [apply same_refl|]|]. intros handle _ _.
  apply returns_get_vm. fold (argument w 1). destruct (negb (Dart_IsTypedData _) && _) eqn:Ht; [by apply Hsame; [apply same_refl|]|].
  apply returns_argument; [by apply Hsame; [apply same_refl|]|]. intros n Hn _.
  destruct (bad_length _ _) eqn:Hb; [by apply Hsame; [apply same_refl|]|].
  pose proof (data_unused_typed w n Hok Hfit Hn Ht Hb) as Hd.
  apply returns_get_vm. fold (argument w 3). destruct (negb (Dart_IsList _) && _); [by apply Hsame; [apply same_refl|]|].
  apply returns_argument; [by apply Hsame; [apply same_refl|]|]. intros flags _ _.
  apply (returns_acquire_unless_null _ _ _ _ _ Hd). intros p w1 Hp Hw1 Hget Hlen.
  assert (∃ r, (if Dart_IsNull (argument w 3) then mret (Some [])
     else handles_len ← get_vm (Dart_ListLength (argument w 3)); list_handles (argument w 3) 0 (Z.to_nat handles_len)) w1
     = Ok (r, w1) ∧ (r = None → not_integer (vm w) (argument w 3))) as (r & Hlh & Hr).
  { destruct (Dart_IsNull (argument w 3)); [by exists (Some [])|].
    destruct (list_handles_runs (argument w 3) (Z.to_nat (Dart_ListLength (argument w 3) (vm w1))) 0 w1) as (r & He & Hr).
    exists r. split; [exact He|]. intros Hnone. destruct (Hr Hnone) as (j & Hj & Hint). exists j.
    rewrite <- Hget, <- Hlen. pose proof (length_range (argument w 3) (vm w1)). split; [lia|done]. }
  rewrite (bindS_Ok _ _ _ _ _ Hlh). destruct r as [l|].
  - system_call; [exact Hw1|exact Hp|]. intros w2 _ _ Hw2.
    apply (returns_release_unless_null _ _ _ _ _ _ Hd Hw2). intros w3 Hw3. apply Hsame; [done|apply calm_set_returned].
  - eapply returns_mono; [by eapply returns_rest; [exact Hfail|exact Hw1]|]. intros [[] w'] Hw'.
    eexists. split; [exact Hw'|]. intros v. unfold lend. case_decide as Hc; [left|by right].
    destruct Hc as [_ ->]. split; [done|]. by apply Hr.
Qed.

Lemma store_handles_calm l hs n : ∀ i, 0 <= i → i + Z.of_nat n <= Z.of_nat (length hs) → calm (store_handles l hs i n).
Proof.
  induction n as [|n IH]; intros i Hi Hn; cbn [store_handles]; [apply calm_ret|].
  destruct (lookup_lt_is_Some_2 hs (Z.to_nat i)) as [h ->]; [lia|]. apply calm_bind; [apply calm_ret|]. intros z.
  apply calm_bind; [apply calm_list_set_integer|]. intros _. apply IH; lia.
Qed.

Lemma MojoMessagePipe_Read_calm w : data_unused w → (fit → count_fits w) → returns (MojoMessagePipe_Read w) (λ '(_, w'), same w w').
Proof.
  intros Hok Hfit. unfold MojoMessagePipe_Read. apply returns_argument; [apply calm_set_returned|]. intros handle _ _.
  apply returns_get_vm. fold (argument w 1). destruct (negb (Dart_IsTypedData _) && _) eqn:Ht; [apply calm_set_returned|].
  apply returns_argument; [apply calm_set_returned|]. intros n Hn _.
  destruct (bad_length _ _) eqn:Hb; [apply calm_set_returned|]. pose proof (data_unused_typed w n Hok Hfit Hn Ht Hb) as Hd.
  apply returns_get_vm. fold (argument w 3). destruct (negb (Dart_IsList _) && _); [apply calm_set_returned|].
  apply returns_argument; [apply calm_set_returned|]. intros flags _ _.
  apply (returns_acquire_unless_null _ _ _ _ _ Hd). intros p w1 Hf Hw1 Hget Hlen.
  set (len := if Dart_IsNull (argument w 3) then 0 else Dart_ListLength (argument w 3) (vm w1)).
  assert ((if Dart_IsNull (argument w 3) then mret 0 else get_vm (Dart_ListLength (argument w 3))) w1 = Ok (len, w1)) as He
    by (unfold len; by destruct (Dart_IsNull (argument w 3))).
  rewrite (bindS_Ok _ _ _ _ _ He). assert (0 <= len < 2 ^ 32) as Hr.
  { unfold len. destruct (Dart_IsNull (argument w 3)); [lia|]. apply length_range. }
  system_call; [exact Hw1| |].
  { split; [exact Hf|]. cbn. unfold u32. rewrite Z.mod_small by done. unfold len. destruct (Dart_IsNull (argument w 3)); cbn; lia. }
  intros w2 (_ & _ & Hc) _ Hw2. destruct (sys_call _ _).1 as [[[res blen] hlen] contents]. cbn in Hc.
  apply (returns_release_unless_null _ _ _ _ _ _ Hd Hw2). intros w3 Hw3. apply returns_rest; [|done].
  apply calm_bind; [|intros _; apply calm_return_list]. unfold len in *. destruct (Dart_IsNull (argument w 3)); [apply calm_ret|].
  apply store_handles_calm; [done|]. rewrite (Hc _ eq_refl). lia.
Qed.

(** *** [MojoHandleWatcher_SendControlData] *)
Lemma FromDart_runs code handle_or_deadline port signals : 0 <= code <= kCommandShutdownHandleWatcher →
  ∃ command, Command.FromDart code handle_or_deadline port signals = Ok command.
Proof.
  unfold kCommandShutdownHandleWatcher. intros Hc. assert (code = 0 ∨ code = 1 ∨ code = 2 ∨ code = 3 ∨ code = 4) as Hcase by lia.
  destruct Hcase as [->|[->|[->|[->| ->]]]]; by eexists.
Qed.
Lemma SendControlData_calm w : (∀ code, integer_argument w 1 = Some code → 0 <= code <= kCommandShutdownHandleWatcher) →
  returns (MojoHandleWatcher_SendControlData w) (λ '(_, w'), same w w').
Proof.
  intros Hok. unfold MojoHandleWatcher_SendControlData. apply returns_argument; [apply calm_set_returned|]. intros control _ _.
  apply returns_argument; [apply calm_set_returned|]. intros code Hcode _.
  apply returns_argument; [apply calm_set_returned|]. intros hd _ _.
  apply returns_get_vm. destruct (if Dart_IsNull _ then _ else _) as [port|]; [|apply calm_set_returned].
  apply returns_argument; [apply calm_set_returned|]. intros signals _ _.
  destruct (FromDart_runs code hd port signals (Hok code Hcode)) as [command ->]. apply returnsS_bind. cbn [lift returns].
  system_call; [apply same_refl|exact I|]. intros w2 _ _ Hw2. apply returns_rest; [apply calm_set_returned|done].
Qed.
End data.
