(* ===== verification/DartNativesRead.v ===== *)
(** * [MojoMessagePipe_QueryAndRead] (mojo_natives.cc)

    It asks for the sizes of the message, makes sure that the two elements of the result
    list are typed data with room for them, and reads the message into them.  The typed
    data that it creates owns the array that it allocates. *)
From stdpp Require Import base list numbers option gmap strings.
From S2P Require Import Prelude MojoResult System Codec CppBindings WatcherCommand DartNatives DartNativesSafe DartNativesData.

Section read.
Context {V D E : Type} `{!EqDecision V} `{!DartApi} `{!DartVM V D} `{!NativeSystem E} `{!DartLaws V D} `{!SystemLaws E}.
Context (debug : bool) (fit : Prop).
Abbreviation M := (stateR (World V D E)).
Abbreviation W := (World V D E).
Abbreviation moves := (moves fit).
Abbreviation same := (same fit).
Abbreviation fits := (fits fit).
Abbreviation data_ok := (data_ok fit).

Lemma bool_decide_Some {A} (x : A) : bool_decide (is_Some (Some x)) = true.
Proof. by apply bool_decide_eq_true. Qed.
Lemma DCHECK_true {A} (k : M A) (w : W) : (MOJO_DCHECK debug true;; k) w = k w.
Proof. by destruct debug. Qed.

Lemma owned_array_new gone v p (w w' : W) : peer_array p = Some (next w) → trace w' = Registered v p :: trace w →
  is_Some (arrays w' !! next w) → (∀ a, a ≠ next w → arrays w' !! a = arrays w !! a) → next w < next w' →
  owned gone w → owned gone w'.
Proof.
  intros Hp Ht Ha Hother Hn [H1 H2 H3 H4].
  assert (omap event_array (trace w') = next w :: omap event_array (trace w)) as He by (by rewrite Ht; cbn; rewrite Hp).
  assert (next w ∉ omap event_array (trace w)) as Hnew by (intros Hin; specialize (H2 _ Hin); lia).
  split; rewrite He.
  - by apply NoDup_cons.
  - intros a [->|Hin]%elem_of_cons; [done|]. specialize (H2 _ Hin). lia.
  - intros a. rewrite elem_of_cons. destruct (decide (a = next w)) as [->|Hne].
    + split; [|done]. intros _. split; [by left|]. intros Hg. by apply H4 in Hg.
    + rewrite Hother, H3 by done. split; [intros []; auto|]. by intros [[|] ?].
  - intros a Hg. right. auto.
Qed.

Lemma new_typed_data_runs type peer size n (w : W) : (∀ a, peer_array (peer a) = Some a) → 0 < n < 2 ^ 32 →
  ∃ data w', new_typed_data debug type peer size n w = Ok (data, w') ∧ same w w' ∧ env w' = env w ∧
    data_ok (vm w') data n ∧ data_of (vm w) data = None.
Proof.
  intros Hp Hn. unfold new_typed_data.
  destruct (Dart_NewExternalTypedData type (next w) n (vm w)) as [v d] eqn:He.
  destruct (external_law type (next w) n (vm w) v d ltac:(lia) He) as (Herr & _ & Hv & Hd & Hh & Hu).
  assert (∀ u, data_of (Dart_NewWeakPersistentHandle v (peer (next w)) (n * size) d) u = data_of d u ∧
    held (Dart_NewWeakPersistentHandle v (peer (next w)) (n * size) d) u = held d u) as Hweak by (intros u; apply weak_law).
  unfold new_array, call_vm, weak_handle, log. unfold mbind at 1 2, stateR_bind at 1 2. cbn [vm env arrays next returned trace].
  rewrite He, Herr. cbn [negb]. rewrite DCHECK_true. eexists v, _. split; [reflexivity|]. cbn.
  split; [split; cbn|split; [done|split; [|done]]].
  - intros u x Hux. destruct (Hweak u) as [-> ->]. destruct (decide (u = v)) as [->|Hne]; [congruence|].
    by destruct (Hu u Hne) as [-> ->].
  - exists [Registered v (peer (next w))]. split; [done|]. by constructor.
  - intros gone. apply (owned_array_new _ v (peer (next w))); cbn; [done..| | |lia].
    + by rewrite lookup_insert_eq.
    + intros a Ha. by rewrite lookup_insert_ne.
  - exists (next w), n. destruct (Hweak v) as [-> ->]. done.
Qed.

(** *** The typed data for [n] elements *)
Lemma data_ok_more d v n a len : data_of d v = Some (a, len) → held d v = false → n <= len → data_ok d v n.
Proof. intros. by exists a, len. Qed.
Lemma same_ok (w w' : W) v n : same w w' → data_ok (vm w) v n → data_ok (vm w') v n.
Proof.
  intros Hs (a & len & Hv & Hh & Hn). destruct (moves_data _ _ _ _ Hs v _ Hv) as [Hv' Hh']. exists a, len. by rewrite Hh'.
Qed.

Lemma typed_data_for_runs type peer size data n (w : W) : (∀ a, peer_array (peer a) = Some a) → 0 <= n < 2 ^ 32 →
  (Dart_IsNull data = false → data_ok (vm w) data 0) →
  ∃ data' p w', typed_data_for debug type peer size data n w = Ok ((data', p), w') ∧ same w w' ∧ env w' = env w ∧
    (0 < n → data_ok (vm w') data' n ∧ (data' = data ∧ Dart_IsNull data = false ∨ data_of (vm w) data' = None)) ∧
    (n = 0 → p = NullPtr).
Proof.
  intros Hp Hn Hdata. unfold typed_data_for. destruct (Z.ltb_spec 0 n) as [Hpos|Hz]; cbn [andb].
  2:{ exists data, NullPtr, w. split; [done|]. split; [apply same_refl|]. split; [done|]. split; [lia|done]. }
  destruct (Dart_IsNull data).
  { destruct (new_typed_data_runs type peer size n w Hp ltac:(lia)) as (v & w1 & He & Hs & Henv & Hd & Hv).
    rewrite (bindS_Ok _ _ _ _ _ He). exists v, NullPtr, w1. split; [done|]. split; [done|]. split; [done|]. split; [auto|lia]. }
  destruct (Hdata eq_refl) as (a & len & Hv & Hh & Hlen).
  destruct (acquire_runs _ _ w w data _ (same_refl fit w) Hv Hh) as (w1 & He1 & Hw1 & Henv1 & _).
  destruct (release_data_runs _ _ w w1 data _ Hw1 Hv (lend_at _ _ _)) as (w2 & He2 & Hw2 & Henv2).
  assert (same w w2) as Hs by (eapply moves_ext; [exact Hw2|]; intros u x _; by apply lend_lend).
  rewrite (bindS_Ok _ _ _ _ _ He1), bool_decide_Some, DCHECK_true, (bindS_Ok _ _ _ _ _ He2), DCHECK_true. cbv zeta.
  unfold u64. rewrite Z.mod_small by (pose proof (data_range _ _ _ _ Hv); lia).
  destruct (Z.ltb_spec len n).
  - destruct (new_typed_data_runs type peer size n w2 Hp ltac:(lia)) as (v & w3 & He3 & Hs3 & Henv3 & Hd & Hnew).
    rewrite (bindS_Ok _ _ _ _ _ He3). exists v, (At a), w3. split; [done|]. split; [by eapply same_trans|].
    split; [congruence|]. split; [|lia]. intros _. split; [done|]. right.
    destruct (data_of (vm w) v) eqn:Hold; [|done]. destruct (moves_data _ _ _ _ Hs v _ Hold). congruence.
  - exists data, (At a), w2. split; [done|]. split; [done|]. split; [congruence|]. split; [|lia]. intros _. split; [|by left].
    apply (same_ok w w2 _ _ Hs). by eapply data_ok_more.
Qed.

Lemma acquire_again_runs h data n p (w w1 : W) : moves h w w1 → 0 <= n → (n = 0 → p = NullPtr) →
  (0 < n → data_ok (vm w) data n ∧ h data = false) →
  ∃ p' w2, acquire_again debug data n p w1 = Ok (p', w2) ∧ fits (vm w2) p' n ∧ env w2 = env w1 ∧
    (∀ u, data_of (vm w2) u = data_of (vm w1) u) ∧ moves (lend (0 <? n) data true h) w w2.
Proof.
  intros Hw Hn Hp Hd. unfold acquire_again. destruct (Z.ltb_spec 0 n) as [Hpos|Hz].
  - destruct (Hd Hpos) as [(a & len & Hv & _ & Hlen) Hh].
    destruct (acquire_runs _ _ w w1 data _ Hw Hv Hh) as (w2 & He & Hw2 & Henv & _ & _ & Hsame).
    exists (At a), w2. rewrite (bindS_Ok _ _ _ _ _ He), bool_decide_Some, DCHECK_true. split; [done|].
    split; [by eapply fits_data|done].
  - rewrite Hp by lia. exists NullPtr, w1. split; [done|]. split; [cbn; lia|]. split; [done|]. split; [done|].
    eapply moves_ext; [exact Hw|]. intros u x _. by rewrite lend_false.
Qed.
Lemma release_checked_runs h data n (w w1 : W) : moves h w w1 →
  (0 < n → is_Some (data_of (vm w) data) ∧ h data = true) →
  ∃ w2, release_checked debug data n w1 = Ok (tt, w2) ∧ moves (lend (0 <? n) data false h) w w2.
Proof.
  intros Hw Hd. unfold release_checked. destruct (Z.ltb_spec 0 n) as [Hpos|Hz].
  - destruct (Hd Hpos) as [[x Hv] Hh]. destruct (release_data_runs _ _ w w1 data _ Hw Hv Hh) as (w2 & He & Hw2 & _).
    exists w2. rewrite (bindS_Ok _ _ _ _ _ He). split; [by destruct debug|done].
  - exists w1. split; [done|]. eapply moves_ext; [exact Hw|]. intros u x _. by rewrite lend_false.
Qed.

(** *** The function *)
Lemma unused_none d v : unused d v → data_ok d v 0.
Proof. intros Hv. apply unused_data; [done|]. intros _ a len Ha. apply (data_range _ _ _ _ Ha). Qed.

(** The read after the query finds the same kinds of contents: bytes, if there were some,
    and handles, if there were some. *)
Definition query_stable (handle flags : Z) (e : E) : Prop :=
  let '(r, e1) := sys_call (CallReadMessage handle NullPtr 0 NullPtr 0 0) e in
  ∀ p q, let r' := (sys_call (CallReadMessage handle p r.1.1.2 q r.1.2 flags) e1).1 in
    (0 <? r'.1.1.2) = (0 <? r.1.1.2) ∧ (0 <? r'.1.2) = (0 <? r.1.2).
Definition result_ok (d : D) (result : V) : Prop :=
  let data := Dart_ListGetAt result 1 d in
  let handles := Dart_ListGetAt result 2 d in
  (Dart_IsNull data = false → unused d data) ∧ (Dart_IsNull handles = false → unused d handles) ∧
  (Dart_IsNull data = false → Dart_IsNull handles = false → data ≠ handles).

Lemma calm_set_message result res data handles blen hlen :
  calm (V:=V) (D:=D) (E:=E) fit (set_message result res data handles blen hlen).
Proof.
  unfold set_message. repeat (apply calm_bind; [first [apply calm_list_set_integer|apply calm_list_set]|intros _]).
  apply calm_list_set_integer.
Qed.

(** Both are acquired, the message is read, both are released. *)
Lemma read_into_runs {B} handle flags data handles blen hlen p q (k : Z * Z * Z * list Z → M B) (w : W) Q :
  0 <= blen → 0 <= hlen → (blen = 0 → p = NullPtr) → (hlen = 0 → q = NullPtr) →
  (0 < blen → data_ok (vm w) data blen) → (0 < hlen → data_ok (vm w) handles hlen) →
  (0 < blen → 0 < hlen → data ≠ handles) →
  (∀ p q, let r := (sys_call (CallReadMessage handle p blen q hlen flags) (env w)).1 in
    (0 <? r.1.1.2) = (0 <? blen) ∧ (0 <? r.1.2) = (0 <? hlen)) →
  (∀ r w', same w w' → returns (k r w') Q) →
  returns ((bytes ← acquire_again debug data blen p;
    handle_bytes ← acquire_again debug handles hlen q;
    '(res, blen, hlen, contents) ← call (CallReadMessage handle bytes blen handle_bytes hlen flags);
    release_checked debug data blen;; release_checked debug handles hlen;; k (res, blen, hlen, contents)) w) Q.
Proof.
  intros Hb Hh Hp Hq Hdata Hhandles Hne Hsame Hk.
  assert (0 < blen → held (vm w) data = false) as Hd1 by (intros Hpos; by destruct (Hdata Hpos) as (? & ? & _ & ? & _)).
  assert (0 < hlen → held (vm w) handles = false) as Hd2 by (intros Hpos; by destruct (Hhandles Hpos) as (? & ? & _ & ? & _)).
  destruct (acquire_again_runs _ data blen p w w (same_refl fit w) Hb Hp) as (p1 & w1 & He1 & Hf1 & Henv1 & _ & Hw1); [auto|].
  destruct (acquire_again_runs _ handles hlen q w w1 Hw1 Hh Hq) as (q1 & w2 & He2 & Hf2 & Henv2 & Hdata2 & Hw2).
  { intros Hpos. split; [auto|]. unfold lend. case_decide as Hc; [|auto]. destruct Hc as [Hc ->]. apply Z.ltb_lt in Hc.
    exfalso. by apply Hne. }
  rewrite (bindS_Ok _ _ _ _ _ He1), (bindS_Ok _ _ _ _ _ He2).
  assert (fits (vm w2) p1 blen) as Hf by (destruct p1; [done| |done]; destruct Hf1 as (u & len & Hu & Hl); exists u, len; by rewrite Hdata2).
  system_call; [exact Hw2|by split|]. intros w3 _ _ Hw3. rewrite Henv2, Henv1. destruct (Hsame p1 q1) as [Hblen Hhlen].
  destruct (sys_call (CallReadMessage handle p1 blen q1 hlen flags) (env w)).1 as [[[res blen'] hlen'] contents]. cbn in Hblen, Hhlen.
  destruct (release_checked_runs _ data blen' w w3 Hw3) as (w4 & He4 & Hw4).
  { rewrite <- Z.ltb_lt, Hblen, Z.ltb_lt. intros Hpos. destruct (Hdata Hpos) as (? & ? & ? & _). split; [by eexists|].
    unfold lend. case_decide as Hc1; [done|]. case_decide as Hc2; [done|]. destruct Hc2. by rewrite Z.ltb_lt. }
  rewrite (bindS_Ok _ _ _ _ _ He4).
  destruct (release_checked_runs _ handles hlen' w w4 Hw4) as (w5 & He5 & Hw5).
  { rewrite <- Z.ltb_lt, Hhlen, Z.ltb_lt. intros Hpos. destruct (Hhandles Hpos) as (? & ? & ? & _). split; [by eexists|].
    unfold lend. case_decide as Hc1.
    - destruct Hc1 as [Hc1 ->]. rewrite Hblen in Hc1. apply Z.ltb_lt in Hc1. exfalso. by apply Hne.
    - case_decide as Hc2; [done|]. destruct Hc2. by rewrite Z.ltb_lt. }
  rewrite (bindS_Ok _ _ _ _ _ He5). apply Hk. eapply moves_ext; [exact Hw5|]. intros u x _.
  rewrite Hblen, Hhlen. unfold lend. case_decide as H1; [destruct H1 as [H1%Z.ltb_lt ->]; symmetry; auto|].
  case_decide as H2; [destruct H2 as [H2%Z.ltb_lt ->]; symmetry; auto|]. done.
Qed.

Lemma MojoMessagePipe_QueryAndRead_calm w :
  (∀ handle flags, integer_argument w 0 = Some handle → integer_argument w 1 = Some flags →
    query_stable (u32 handle) (u32 flags) (env w)) →
  result_ok (vm w) (argument w 2) →
  returns (MojoMessagePipe_QueryAndRead debug w) (λ '(_, w'), same w w').
Proof.
  intros Hq (Hdata0 & Hhandles0 & Hne). unfold MojoMessagePipe_QueryAndRead.
  assert (Hdata := λ Hn, unused_none _ _ (Hdata0 Hn)). assert (Hhandles := λ Hn, unused_none _ _ (Hhandles0 Hn)).
  apply returns_argument; [apply calm_set_returned|]. intros handle Hhandle _.
  apply returns_argument; [apply calm_set_returned|]. intros flags Hflags _. specialize (Hq _ _ Hhandle Hflags).
  do 3 apply returns_get_vm. fold (argument w 2). system_call; [apply same_refl|by split|]. intros w1 Ha Henv1 Hw1.
  revert Ha Hq. unfold query_stable. rewrite (surjective_pairing (sys_call _ (env w))), <- Henv1.
  destruct (sys_call (CallReadMessage (u32 handle) NullPtr 0 NullPtr 0 0) (env w)).1 as [[[res blen] hlen] contents].
  cbn. intros (Hb & Hh & _) Hq.
  destruct (negb (res =? MOJO_RESULT_OK) && _); [apply returns_rest; [apply calm_set_message|done]|].
  destruct (typed_data_for_runs Dart_TypedData_kByteData ByteArray 1 (Dart_ListGetAt (argument w 2) 1 (vm w)) blen w1)
    as (data & p & w2 & He2 & Hs2 & Henv2 & Hd2 & Hp2); [done|done|intros Hn; eapply same_ok; [exact Hw1|auto]|].
  assert (same w w2) as Hw2 by (by eapply same_trans).
  destruct (typed_data_for_runs Dart_TypedData_kUint32 HandleArray 4 (Dart_ListGetAt (argument w 2) 2 (vm w)) hlen w2)
    as (handles & q & w3 & He3 & Hs3 & Henv3 & Hd3 & Hp3); [done|done|intros Hn; eapply same_ok; [exact Hw2|auto]|].
  rewrite (bindS_Ok _ _ _ _ _ He2), (bindS_Ok _ _ _ _ _ He3).
  assert (same w w3) as Hw3 by (by eapply same_trans).
  apply (read_into_runs _ _ _ _ _ _ _ _ (λ '(res, blen, hlen, _), set_message (argument w 2) res data handles blen hlen)).
  - lia.
  - lia.
  - done.
  - done.
  - intros Hn. destruct (Hd2 Hn) as [Hd _]. exact (same_ok _ _ _ _ Hs3 Hd).
  - intros Hn. by destruct (Hd3 Hn) as [Hd _].
  - intros Hn1 Hn2 Heq. rewrite Heq in *. destruct (Hd2 Hn1) as [Hok2 H2]. destruct (Hd3 Hn2) as [_ [[He Hnull]|H3]].
    + destruct H2 as [[He' Hnull2]|Hnew]; [by destruct Hne; [done..|congruence]|]. destruct (same_ok _ _ _ _ Hw1 (Hhandles Hnull)) as (? & ? & ? & _).
      congruence.
    + destruct Hok2 as (? & ? & ? & _). congruence.
  - rewrite Henv3, Henv2. exact Hq.
  - intros [[[res' blen'] hlen'] contents'] w' Hw'. apply returns_rest; [apply calm_set_message|]. by eapply same_trans.
Qed.
End read.
