(* ===== verification/DartNativesSample.v ===== *)
(** * A small Dart VM and system that obey the laws (DartNativesSafe.v)

    Lists and typed data are numbered; the system has a queue of messages, of which it
    knows the sizes. *)
From stdpp Require Import base list numbers option gmap strings.
From S2P Require Import Prelude MojoResult System Codec CppBindings WatcherCommand DartNatives DartNativesSafe.

(** ** The VM *)
Inductive SimpleValue :=
| SNull
| SInteger (z : Z)
| SList (id : nat)
| SData (id : nat).
#[global] Instance SimpleValue_eq_dec : EqDecision SimpleValue.
Proof. solve_decision. Defined.

Record SimpleVM := mkSimpleVM {
  s_arguments : list SimpleValue;
  s_lists : list (list SimpleValue);
  s_data : list (Z * Z * bool);  (** address, length, whether it is acquired *)
}.
Definition s_list (l : SimpleValue) (d : SimpleVM) : list SimpleValue :=
  match l with SList id => default [] (s_lists d !! id) | _ => [] end.
Definition s_data_of (d : SimpleVM) (v : SimpleValue) : option (Z * Z) :=
  match v with
  | SData id => '(a, n, _) ← s_data d !! id; Some (a, n `mod` 2 ^ 63)
  | _ => None
  end.
Definition s_held (d : SimpleVM) (v : SimpleValue) : bool :=
  match v with
  | SData id => match s_data d !! id with Some (_, _, h) => h | None => false end
  | _ => false
  end.
Definition s_hold (id : nat) (h : bool) (d : SimpleVM) : SimpleVM :=
  mkSimpleVM (s_arguments d) (s_lists d) (alter (λ x, (x.1.1, x.1.2, h)) id (s_data d)).

#[global] Instance SimpleDartApi : DartApi := {| ILLEGAL_PORT := 0 |}.
#[global] Instance SimpleDartVM : DartVM SimpleValue SimpleVM := {|
  Dart_Null := SNull;
  Dart_IsNull v := bool_decide (v = SNull);
  Dart_IsInteger v := match v with SInteger _ => true | _ => false end;
  Dart_IsList v := match v with SList _ => true | _ => false end;
  Dart_IsTypedData v := match v with SData _ => true | _ => false end;
  Dart_IsInstance v := true;
  Dart_IsError v := false;
  Dart_IntegerToInt64 v := match v with SInteger z => Some z | _ => None end;
  Dart_SendPortGetId v := match v with SInteger z => Some z | _ => None end;
  Dart_GetNativeIntegerArgument i d :=
    match s_arguments d !! Z.to_nat i with Some (SInteger z) => Some ((z + 2 ^ 63) `mod` 2 ^ 64 - 2 ^ 63) | _ => None end;
  Dart_GetNativeArgument i d := default SNull (s_arguments d !! Z.to_nat i);
  Dart_NewInteger z d := (SInteger z, d);
  Dart_NewList n d :=
    (SList (length (s_lists d)), mkSimpleVM (s_arguments d) (s_lists d ++ [replicate (Z.to_nat n) SNull]) (s_data d));
  Dart_ListLength l d := Z.of_nat (length (s_list l d)) `mod` 2 ^ 32;
  Dart_ListGetAt l i d := default SNull (s_list l d !! Z.to_nat i);
  Dart_ListSetAt l i v d :=
    match l with
    | SList id => mkSimpleVM (s_arguments d) (alter <[Z.to_nat i := v]> id (s_lists d)) (s_data d)
    | _ => d
    end;
  Dart_NewExternalTypedData _ a n d :=
    (SData (length (s_data d)), mkSimpleVM (s_arguments d) (s_lists d) (s_data d ++ [(a, n, false)]));
  Dart_TypedDataAcquireData v d :=
    match v with
    | SData id => if s_held d v then (None, d) else (s_data_of d v, s_hold id true d)
    | _ => (None, d)
    end;
  Dart_TypedDataReleaseData v d :=
    match v with SData id => if s_held d v then (true, s_hold id false d) else (false, d) | _ => (false, d) end;
  Dart_NewWeakPersistentHandle _ _ _ d := d;
|}.

Lemma s_hold_data id h d v : s_data_of (s_hold id h d) v = s_data_of d v.
Proof.
  destruct v as [| | |id']; cbn; try done. rewrite list_lookup_alter. case_decide; [subst|done].
  by destruct (s_data d !! id') as [[[? ?] ?]|].
Qed.
Lemma s_hold_held id h d v : v ≠ SData id → s_held (s_hold id h d) v = s_held d v.
Proof. intros Hne. destruct v as [| | |id']; cbn; try done. rewrite list_lookup_alter_ne; [done|congruence]. Qed.
Lemma s_hold_at id h d : is_Some (s_data d !! id) → s_held (s_hold id h d) (SData id) = h.
Proof. intros [x Hx]. cbn. by rewrite list_lookup_alter_eq, Hx. Qed.

#[global] Instance SimpleDartLaws : DartLaws SimpleValue SimpleVM.
Proof.
  refine {| data_of := s_data_of; held := s_held |}.
  - intros d [| | |id] a n; cbn; try done. destruct (s_data d !! id) as [[[? ?] ?]|]; cbn; [|done].
    intros [= <- <-]. apply Z.mod_pos_bound. lia.
  - intros d [| | |id] x Hx Hh; try done. exists (s_hold id true d). cbn [Dart_TypedDataAcquireData SimpleDartVM].
    rewrite Hh, Hx. assert (is_Some (s_data d !! id)) as Hs by (cbn in Hx; by destruct (s_data d !! id)).
    split; [done|]. split; [by apply s_hold_at|]. split; [by intros u; apply s_hold_data|]. split; [|done].
    intros u Hu. by apply s_hold_held.
  - intros d [| | |id] Hh; try done. exists (s_hold id false d). cbn [Dart_TypedDataReleaseData SimpleDartVM]. rewrite Hh.
    assert (is_Some (s_data d !! id)) as Hs by (cbn in Hh; by destruct (s_data d !! id)).
    split; [done|]. split; [by apply s_hold_at|]. split; [by intros u; apply s_hold_data|].
    intros u Hu. by apply s_hold_held.
  - intros type a n d v d' Hn [= <- <-]. split; [done|]. split; [done|]. cbn. rewrite lookup_ge_None_2 by lia.
    rewrite list_lookup_middle by done. cbn. rewrite Z.mod_small by lia. split; [done|]. split; [done|]. split; [done|].
    intros [| | |id] Hu; cbn; try done. destruct (decide (id < length (s_data d))%nat) as [Hlt|Hge].
    + by rewrite lookup_app_l.
    + rewrite !lookup_ge_None_2; [done| |]; rewrite ?length_app; cbn; [lia|]. assert (id ≠ length (s_data d)) by congruence. lia.
  - intros i d z. cbn. destruct (s_arguments d !! Z.to_nat i) as [[]|]; try done. intros [= <-].
    pose proof (Z.mod_pos_bound (z0 + 2 ^ 63) (2 ^ 64)). lia.
  - intros l d. apply Z.mod_pos_bound. lia.
  - done.
  - done.
  - by intros [] i v d u.
  - done.
Defined.

(** ** The system *)
Record SimpleSystem := mkSimpleSystem { s_messages : list (Z * Z) }.
Definition s_read (p : Ptr) (n : Z) (hs : Ptr) (k : Z) (e : SimpleSystem) : Z * Z * Z * list Z * SimpleSystem :=
  let contents := match hs with Local m => replicate (Z.to_nat m) MOJO_HANDLE_INVALID | _ => [] end in
  match s_messages e with
  | [] => (MOJO_RESULT_SHOULD_WAIT, u32 n, u32 k, contents, e)
  | (bytes, handles) :: rest =>
      if (u32 bytes <=? n) && (u32 handles <=? k)
      then (MOJO_RESULT_OK, u32 bytes, u32 handles, contents, mkSimpleSystem rest)
      else (MOJO_RESULT_RESOURCE_EXHAUSTED, u32 bytes, u32 handles, contents, e)
  end.
Definition s_call (c : SysCall) (e : SimpleSystem) : answer c * SimpleSystem :=
  match c with
  | CallWait _ _ _ => ((MOJO_RESULT_OK, Some (mkSignalsState 1 3)), e)
  | CallWaitMany _ _ _ => ((MOJO_RESULT_OK, Some 0, None), e)
  | CallCreateSharedBuffer _ _ | CallDuplicateBufferHandle _ _ => ((MOJO_RESULT_OK, Some 7), e)
  | CallMapBuffer _ _ n _ => (if (0 <=? n) && (n <? 2 ^ 32) then (MOJO_RESULT_OK, Some 65536) else (MOJO_RESULT_RESOURCE_EXHAUSTED, None), e)
  | CallGetBufferInformation _ => ((MOJO_RESULT_OK, Some (mkBufferInformation 24 0 4096)), e)
  | CallCreateDataPipe _ | CallCreateMessagePipe _ => ((MOJO_RESULT_OK, Some 8, Some 9), e)
  | CallWriteData _ _ n _ | CallReadData _ _ n _ => ((MOJO_RESULT_OK, Some n), e)
  | CallBeginWriteData _ _ | CallBeginReadData _ _ => ((MOJO_RESULT_OK, Some (65536, 16)), e)
  | CallReadMessage _ p n hs k _ => s_read p n hs k e
  | CallWriteMessage _ _ n hs _ => (MOJO_RESULT_OK, mkSimpleSystem (s_messages e ++ [(n, Z.of_nat (length hs))]))
  | _ => (MOJO_RESULT_OK, e)
  end.
#[global] Instance SimpleNativeSystem : NativeSystem SimpleSystem := {| sys_call := s_call |}.
#[global] Instance SimpleSystemLaws : SystemLaws SimpleSystem.
Proof.
  refine {| answer_law := _ |}. intros [] e; cbn; try done.
  - destruct (_ && _) eqn:Hb; [|done]. intros _. split; [done|lia].
  - intros _. by exists 65536, 16.
  - intros _. by exists 65536, 16.
  - assert (∀ n, handles = Local n → Z.of_nat (length match handles with Local m => replicate (Z.to_nat m) MOJO_HANDLE_INVALID | _ => [] end) = 0 `max` n) as Hl.
    { intros n ->. rewrite length_replicate. lia. }
    unfold s_read. destruct (s_messages e) as [|[b h] rest]; [|destruct (_ && _)]; cbn;
      (split; [apply u32_range|split; [apply u32_range|exact Hl]]).
Qed.

(** ** Worlds *)
Definition sample_world (arguments : list SimpleValue) (lists : list (list SimpleValue)) (data : list (Z * Z * bool))
    (messages : list (Z * Z)) : World SimpleValue SimpleVM SimpleSystem :=
  mkWorld (mkSimpleVM arguments lists data) (mkSimpleSystem messages) ∅ 4096 None [].

(** [MojoMessagePipe_QueryAndRead] of a message of 16 bytes and one handle, the list with
    no typed data in it *)
Definition sample_read : World SimpleValue SimpleVM SimpleSystem :=
  sample_world [SInteger 5; SInteger 0; SList 0] [[SNull; SNull; SNull; SNull; SNull]] [] [(16, 1)].
Example sample_read_runs :
  match run_native true NMessagePipe_QueryAndRead sample_read with
  | Ok (_, w) => s_list (SList 0) (vm w) = [SInteger 0; SData 0; SData 1; SInteger 16; SInteger 1] ∧
      arrays w = {[4096 := 16; 4112 := 4]} ∧ env w = mkSimpleSystem []
  | Crash _ => False
  end.
Proof. vm_compute. done. Qed.

(** [MojoMessagePipe_Write] of 8 bytes and a list of one handle that is none *)
Definition sample_write : World SimpleValue SimpleVM SimpleSystem :=
  sample_world [SInteger 5; SData 0; SInteger 8; SList 0; SInteger 0] [[SNull]] [(1024, 8, false)] [].

(** [MojoDataPipe_ReadData] (or [WriteData]) of 100 bytes with typed data of 8 *)
Definition sample_read_data : World SimpleValue SimpleVM SimpleSystem :=
  sample_world [SInteger 5; SData 0; SInteger 100; SInteger 0] [] [(1024, 8, false)] [].

(** The world after [sample_read], calls without integers, and a buffer of 2 GiB *)
Definition sample_after : World SimpleValue SimpleVM SimpleSystem :=
  match run_native true NMessagePipe_QueryAndRead sample_read with Ok (_, w) => w | Crash _ => sample_read end.
Definition sample_null : World SimpleValue SimpleVM SimpleSystem := sample_world [SNull] [] [] [].
Definition sample_create : World SimpleValue SimpleVM SimpleSystem := sample_world [SInteger (2 ^ 31); SInteger 0] [] [] [].
