(* ===== verification/DartNativesSpec.v ===== *)
(** * What the native functions of Dart's Mojo library promise

    - [natives_safe]: given typed data that is not in use the functions return, leave it
      released and pass the system its address only, with room for the counts if those
      fit.
    - [arrays_collected_once]: the arrays they allocate are freed once each, by the
      finalizers.
    - [not_an_integer]: an argument that is not an integer ends a function.
    - [natives_lookup]: the table of the functions.
    - [WriteData_unchecked], [Write_keeps_data_acquired], [Create_extends_sign]: what goes
      wrong. *)
From stdpp Require Import base list numbers option gmap strings.
From S2P Require Import Prelude MojoResult System Codec CppBindings WatcherCommand DartNatives DartNativesSafe DartNativesData DartNativesRead DartNativesSample.

Section spec.
Context {V D E : Type} `{!EqDecision V} `{!DartApi} `{!DartVM V D} `{!NativeSystem E} `{!DartLaws V D} `{!SystemLaws E}.
Context (debug : bool).
Abbreviation M := (stateR (World V D E)).
Abbreviation W := (World V D E).

(** What Dart code owes the functions: typed data is not in use, neither by another
    function nor twice; the command is one.  And what [MojoMessagePipe_QueryAndRead] relies
    on of other readers of the pipe: the message it asks the size of is the one it reads. *)
Definition arguments_ok (f : Native) (w : W) : Prop :=
  match f with
  | NDataPipe_WriteData | NDataPipe_ReadData | NMessagePipe_Write | NMessagePipe_Read => data_unused w
  | NMessagePipe_QueryAndRead => result_ok (vm w) (argument w 2) ∧
      ∀ handle flags, integer_argument w 0 = Some handle → integer_argument w 1 = Some flags →
        query_stable (u32 handle) (u32 flags) (env w)
  | NHandleWatcher_SendControlData => ∀ code, integer_argument w 1 = Some code → 0 <= code <= kCommandShutdownHandleWatcher
  | _ => True
  end.

(** The typed data has as many elements as Dart code says; to read into null is to read
    nothing. *)
Definition counts_fit (f : Native) (w : W) : Prop :=
  match f with
  | NDataPipe_WriteData | NMessagePipe_Write | NMessagePipe_Read => count_fits w
  | NDataPipe_ReadData => ∀ n, integer_argument w 2 = Some n →
      if Dart_IsNull (argument w 1) then u32 n = 0 else has_room (vm w) (argument w 1) (u32 n)
  | _ => True
  end.

(** Typed data that a function may keep acquired: that of a message some handle of which is
    no integer. *)
Definition may_stay_acquired (f : Native) (w : W) (v : V) : Prop :=
  f = NMessagePipe_Write ∧ v = argument w 1 ∧ not_integer (vm w) (argument w 3).

Lemma natives_move f w : arguments_ok f w →
  returns (run_native debug f w) (λ '(_, w'), ∃ h, moves (counts_fit f w) h w w' ∧
    ∀ v, may_stay_acquired f w v ∨ h v = held (vm w) v).
Proof.
  intros Hok. destruct (decide (f = NMessagePipe_Write)) as [->|Hne].
  - eapply returns_mono; [by apply (MojoMessagePipe_Write_calm (counts_fit NMessagePipe_Write w))|].
    intros [[] w'] (h & Hm & Hh). exists h. split; [done|]. intros v. destruct (Hh v) as [Hv|Hv]; [left|right]; [by split|done].
  - enough (returns (run_native debug f w) (λ '(_, w'), same (counts_fit f w) w w')) as Hsame.
    { eapply returns_mono; [exact Hsame|]. intros [[] w'] Hw'. eexists. split; [exact Hw'|]. by right. }
    destruct f; try done; try (by apply plain_natives_calm); cbn [run_native].
    + by apply MojoDataPipe_WriteData_calm.
    + by apply MojoDataPipe_ReadData_calm.
    + by apply MojoMessagePipe_Read_calm.
    + destruct Hok. by apply MojoMessagePipe_QueryAndRead_calm.
    + by apply SendControlData_calm.
Qed.

(** C29: Every native function, given typed data that is not in use, returns; the typed
    data of the VM is there and acquired only if it was before, with one exception, which
    is a flaw ([Write_keeps_data_acquired]); each address that it passed to the system in
    the place of a buffer is that of typed data, never another one, and this has room for
    the count that went with it if the counts of the arguments fit.  (No function checks
    that: [WriteData_unchecked].)  [MojoMessagePipe_QueryAndRead] takes the counts from
    the pipe, and relies on no one else reading it meanwhile. *)
Theorem natives_safe f (w : W) : arguments_ok f w →
  ∃ w', run_native debug f w = Ok (tt, w') ∧
    (∀ v x, data_of (vm w) v = Some x → data_of (vm w') v = Some x ∧
      (may_stay_acquired f w v ∨ held (vm w') v = held (vm w) v)) ∧
    ∃ events, trace w' = events ++ trace w ∧ Forall (room (counts_fit f w) (vm w')) events.
Proof.
  intros Hok. destruct (returns_Ok_inv _ _ (natives_move f w Hok)) as ([[] w'] & He & h & [Hd Ht _] & Hh).
  exists w'. split; [done|]. split; [|done]. intros v x Hv. destruct (Hd v x Hv) as [Hx Hhv].
  split; [done|]. destruct (Hh v); [by left|right]. congruence.
Qed.

(** *** The arrays *)

(** Native functions that Dart code calls, and finalizers that the garbage collector
    runs, each once; [gone] are the arrays whose finalizers have run.  Between the calls
    the VM and the system do as they please. *)
Inductive session : list Z → W → Prop :=
| session_start w : arrays w = ∅ → trace w = [] → session [] w
| session_dart gone w d e r : session gone w → session gone (mkWorld d e (arrays w) (next w) r (trace w))
| session_native gone w f w' : session gone w → arguments_ok f w → run_native debug f w = Ok (tt, w') → session gone w'
| session_collect gone w v p a w' : session gone w → Registered v p ∈ trace w → peer_array p = Some a → a ∉ gone →
    finalize p w = Ok (tt, w') → session (a :: gone) w'.

Lemma registered_array (w : W) a : a ∈ omap event_array (trace w) ↔ ∃ v p, Registered v p ∈ trace w ∧ peer_array p = Some a.
Proof.
  rewrite list_elem_of_omap. split.
  - intros ([|v p] & Hin & Hp); [done|]. by exists v, p.
  - intros (v & p & Hin & Hp). by exists (Registered v p).
Qed.
Lemma finalize_array p a (w : W) : peer_array p = Some a →
  finalize p w = delete_array (V:=V) (D:=D) (E:=E) a w.
Proof. by destruct p; intros [= ->]. Qed.

Lemma owned_delete gone a (w : W) : owned gone w → is_Some (arrays w !! a) →
  owned (a :: gone) (mkWorld (vm w) (env w) (delete a (arrays w)) (next w) (returned w) (trace w)).
Proof.
  intros [H1 H2 H3 H4] Ha. split; cbn; [done|done|intros b|intros b].
  - rewrite not_elem_of_cons. destruct (decide (b = a)) as [->|Hne].
    + rewrite lookup_delete_eq. split; [by intros []|naive_solver].
    + rewrite lookup_delete_ne by done. rewrite H3. naive_solver.
  - intros [->|Hb]%elem_of_cons; [by apply H3|by apply H4].
Qed.
Lemma session_owned gone w : session gone w → owned gone w.
Proof.
  induction 1 as [w Ha Ht|gone w d e r _ [H1 H2 H3 H4]|gone w f w' _ IH Hok He|gone w v p a w' _ IH Hin Hp Hg He].
  - split; rewrite ?Ht, ?Ha; cbn; [by apply NoDup_nil| | |]; intros a; rewrite ?elem_of_nil; [done| |done].
    rewrite lookup_empty. split; [by intros []|by intros []].
  - by split.
  - pose proof (natives_move f w Hok) as Hr. rewrite He in Hr. destruct Hr as (h & Hm & _). by apply Hm.
  - rewrite (finalize_array _ _ _ Hp) in He. unfold delete_array in He. destruct (arrays w !! a) eqn:Ha; [|done].
    injection He as <-. apply owned_delete; [done|by eexists].
Qed.

(** C30: In every session of native calls and garbage collections, the finalizer of an
    array that has not run finds its array and frees it; and each array that is still
    allocated is that of such a finalizer; no array has two finalizers: none is freed
    twice, none is lost. *)
Theorem arrays_collected_once gone (w : W) : session gone w →
  (∀ v p a, Registered v p ∈ trace w → peer_array p = Some a → a ∉ gone →
    ∃ w', finalize p w = Ok (tt, w') ∧ arrays w' = delete a (arrays w) ∧ is_Some (arrays w !! a)) ∧
  (∀ a, is_Some (arrays w !! a) → a ∉ gone ∧ ∃ v p, Registered v p ∈ trace w ∧ peer_array p = Some a) ∧
  NoDup (omap event_array (trace w)).
Proof.
  intros [H1 H2 H3 H4]%session_owned. split; [|split; [|done]].
  - intros v p a Hin Hp Hg. destruct (proj2 (H3 a)) as [n Hn]; [rewrite registered_array; eauto|].
    rewrite (finalize_array _ _ _ Hp). unfold delete_array. rewrite Hn. by eexists.
  - intros a Ha. apply H3 in Ha as [Ha Hg]. by apply registered_array in Ha.
Qed.

(** ** Arguments that are not integers *)
Definition integer_arguments (f : Native) : list Z :=
  match f with
  | NGetTimeTicksNow => []
  | NSharedBuffer_GetInformation | NMessagePipe_Create | NHandle_Close => [0]
  | NSharedBuffer_Create | NSharedBuffer_Duplicate | NDataPipe_BeginWriteData | NDataPipe_EndWriteData
  | NDataPipe_BeginReadData | NDataPipe_EndReadData | NMessagePipe_QueryAndRead => [0; 1]
  | NHandle_RegisterFinalizer => [1]
  | NHandle_WaitMany => [2]
  | NDataPipe_Create | NHandle_Wait => [0; 1; 2]
  | NSharedBuffer_Map => [0; 1; 2; 3]
  | NDataPipe_WriteData | NDataPipe_ReadData => [0; 2; 3]
  | NMessagePipe_Write | NMessagePipe_Read => [0; 2; 4]
  | NHandleWatcher_SendControlData => [0; 1; 2; 4]
  end.
(** The functions that give one result give an error code, the others null. *)
Definition failure (f : Native) : ReturnValue V :=
  match f with
  | NDataPipe_EndWriteData | NDataPipe_EndReadData | NMessagePipe_Write | NHandle_Close | NHandle_Wait
  | NHandle_RegisterFinalizer | NHandle_WaitMany | NHandleWatcher_SendControlData => IntegerValue MOJO_RESULT_INVALID_ARGUMENT
  | _ => Value Dart_Null
  end.

Lemma argument_fails num (fail : M unit) k (w : W) r : (Dart_GetNativeIntegerArgument num (vm w) = None → fail w = r) →
  (∀ z, Dart_GetNativeIntegerArgument num (vm w) = Some z → k z w = r) → CHECK_INTEGER_ARGUMENT num fail k w = r.
Proof.
  intros Hf Hk. unfold CHECK_INTEGER_ARGUMENT, get_vm, mbind, stateR_bind. cbn.
  destruct (Dart_GetNativeIntegerArgument num (vm w)); auto.
Qed.

(** C33: A function that is called with something else where it expects an integer gives
    its error value, [MOJO_RESULT_INVALID_ARGUMENT] or null, and does nothing else: it
    makes no system call and leaves the VM as it was. *)
Theorem not_an_integer f i (w : W) : i ∈ integer_arguments f → integer_argument w i = None →
  run_native debug f w = Ok (tt, mkWorld (vm w) (env w) (arrays w) (next w) (Some (failure f)) (trace w)).
Proof.
  unfold integer_argument. intros Hi Hnone.
  destruct f; cbn [integer_arguments] in Hi; rewrite ?elem_of_cons, ?elem_of_nil in Hi; cbn [run_native];
    unfold MojoSharedBuffer_Create, MojoSharedBuffer_Duplicate, MojoSharedBuffer_Map, MojoSharedBuffer_GetInformation,
      MojoDataPipe_Create, MojoDataPipe_BeginWriteData, MojoDataPipe_EndWriteData, MojoDataPipe_BeginReadData,
      MojoDataPipe_EndReadData, MojoMessagePipe_Create, Mojo_GetTimeTicksNow, MojoHandle_Close, MojoHandle_Wait,
      MojoHandle_RegisterFinalizer, MojoHandle_WaitMany, MojoDataPipe_WriteData, MojoDataPipe_ReadData,
      MojoMessagePipe_Write, MojoMessagePipe_Read, MojoMessagePipe_QueryAndRead, MojoHandleWatcher_SendControlData;
    repeat first
      [ contradiction
      | match goal with H1 : Dart_GetNativeIntegerArgument ?j (vm w) = None, H2 : Dart_GetNativeIntegerArgument ?j (vm w) = Some _ |- _ =>
          congruence end
      | apply argument_fails; [reflexivity|intros ? ?]
      | match goal with |- (get_vm _ ≫= _) _ = _ => refine (eq_trans (bindS_Ok _ _ _ _ _ eq_refl) _) end
      | match goal with |- (if ?b then _ else _) _ = _ => destruct b; [reflexivity|] end
      | match goal with |- (match ?x with _ => _ end) _ = _ => destruct x; [|reflexivity] end
      | match type of Hi with _ ∨ _ => destruct Hi as [->|Hi] end].
Qed.

(** ** What goes wrong *)
Lemma argument_given num (fail : M unit) k (w : W) z : integer_argument w num = Some z →
  CHECK_INTEGER_ARGUMENT num fail k w = k z w.
Proof. unfold integer_argument. intros Hz. unfold CHECK_INTEGER_ARGUMENT, get_vm, mbind, stateR_bind. cbn. by rewrite Hz. Qed.
Lemma get_vm_then {A B} (f : D → A) (k : A → M B) (w : W) : (get_vm f ≫= k) w = k (f (vm w)) w.
Proof. done. Qed.

(** [MojoDataPipe_WriteData] hands the system the address of the typed data with whatever
    count it was given, however much larger than the typed data it is. *)
Theorem WriteData_unchecked handle n flags a len (w : W) :
  integer_argument w 0 = Some handle → integer_argument w 2 = Some n → integer_argument w 3 = Some flags →
  Dart_IsTypedData (argument w 1) = true → data_of (vm w) (argument w 1) = Some (a, len) →
  held (vm w) (argument w 1) = false → 0 <= len < n → n < 2 ^ 32 →
  ∃ w', run_native debug NDataPipe_WriteData w = Ok (tt, w') ∧
    Called (CallWriteData (u32 handle) (At a) n (u32 flags)) ∈ trace w'.
Proof.
  intros H0 H2 H3 Ht Hv Hh Hlen Hn. cbn [run_native]. unfold MojoDataPipe_WriteData.
  rewrite (argument_given _ _ _ _ _ H0), get_vm_then. fold (argument w 1). rewrite Ht. cbn [negb].
  rewrite (argument_given _ _ _ _ _ H2). destruct (Z.leb_spec n 0); [lia|]. rewrite (argument_given _ _ _ _ _ H3).
  destruct (acquire_runs True _ w w _ _ (same_refl True w) Hv Hh) as (w1 & He & Hw1 & _).
  rewrite (bindS_Ok _ _ _ _ _ He). cbn [assigned]. rewrite (bindS_Ok _ _ _ (a, len) w1) by done.
  cbv beta iota zeta. rewrite (u32_small n) by lia. set (c := CallWriteData _ _ _ _).
  destruct (sys_call c (env w1)) as [[res out] e] eqn:Hs.
  set (w2 := mkWorld (vm w1) e (arrays w1) (next w1) (returned w1) (Called c :: trace w1)).
  rewrite (bindS_Ok (call c) _ w1 (res, out) w2) by (unfold call, call_env, log, mbind, stateR_bind; cbn; by rewrite Hs).
  cbv beta iota. destruct (moves_data _ _ _ _ Hw1 _ _ Hv) as [Hv1 Hh1]. rewrite lend_at in Hh1.
  destruct (release_data_runs True _ w2 w2 _ _ (same_refl True w2) Hv1 Hh1) as (w3 & He3 & Hw3 & _).
  rewrite (bindS_Ok _ _ _ _ _ He3).
  destruct (returns_Ok_inv _ _ (returns_rest True _ _ w2 w3 (calm_return_list True [Some res; Some (default n out)]) Hw3))
    as ([[] w4] & He4 & Hw4).
  exists w4. split; [exact He4|]. destruct (moves_trace _ _ _ _ Hw4) as (es & -> & _).
  apply elem_of_app. right. by left.
Qed.

(** [MojoMessagePipe_Write] with a handle that is not an integer gives
    [MOJO_RESULT_INVALID_ARGUMENT] and leaves the typed data of the message acquired. *)
Theorem Write_keeps_data_acquired handle n flags (w : W) :
  integer_argument w 0 = Some handle → integer_argument w 2 = Some n → integer_argument w 4 = Some flags →
  Dart_IsTypedData (argument w 1) = true → Dart_IsNull (argument w 1) = false → 0 < n → unused (vm w) (argument w 1) →
  Dart_IsList (argument w 3) = true → Dart_IsNull (argument w 3) = false → 0 < Dart_ListLength (argument w 3) (vm w) →
  Dart_IsInteger (Dart_ListGetAt (argument w 3) 0 (vm w)) = false →
  ∃ w', run_native debug NMessagePipe_Write w = Ok (tt, w') ∧
    returned w' = Some (IntegerValue MOJO_RESULT_INVALID_ARGUMENT) ∧ held (vm w') (argument w 1) = true.
Proof.
  intros H0 H2 H4 Ht Hnull Hn (x & Hv & Hh) Hl Hlnull Hl0 Hint. cbn [run_native]. unfold MojoMessagePipe_Write.
  rewrite (argument_given _ _ _ _ _ H0), get_vm_then. fold (argument w 1). rewrite Ht. cbn [negb andb].
  rewrite (argument_given _ _ _ _ _ H2). unfold bad_length. rewrite Hnull. cbn [negb andb orb].
  destruct (Z.leb_spec n 0); [lia|]. rewrite get_vm_then. fold (argument w 3). rewrite Hl. cbn [negb andb].
  rewrite (argument_given _ _ _ _ _ H4). unfold acquire_unless_null. rewrite Hnull.
  destruct (acquire_runs True _ w w _ _ (same_refl True w) Hv Hh) as (w1 & He & Hw1 & _ & Hget & Hlength & _).
  unfold mbind, stateR_bind. rewrite He. cbn. rewrite Hlnull, Hlength.
  destruct (Z.to_nat (Dart_ListLength (argument w 3) (vm w))) as [|m] eqn:Hm; [lia|]. cbn [list_handles].
  unfold mbind, stateR_bind, get_vm. rewrite Hget, Hint. eexists. split; [reflexivity|]. split; [done|]. cbn.
  destruct (moves_data _ _ _ _ Hw1 _ _ Hv) as [_ ->]. apply lend_at.
Qed.

(** [MojoSharedBuffer_Create] asks for nearly 2^64 bytes when Dart code asks for 2 to
    4 GiB. *)
Theorem Create_extends_sign n flags (w : W) : integer_argument w 0 = Some n → integer_argument w 1 = Some flags →
  2 ^ 31 <= n < 2 ^ 32 →
  ∃ w', run_native debug NSharedBuffer_Create w = Ok (tt, w') ∧
    ∃ events, trace w' = events ++ Called (CallCreateSharedBuffer {| csb_flags := u32 flags |} (2 ^ 64 - 2 ^ 32 + n)) :: trace w.
Proof.
  intros H0 H1 Hn. cbn [run_native]. unfold MojoSharedBuffer_Create.
  rewrite (argument_given _ _ _ _ _ H0), (argument_given _ _ _ _ _ H1).
  assert (u64 (s32 n) = 2 ^ 64 - 2 ^ 32 + n) as ->.
  { unfold s32, u64. rewrite <- (Z.mod_unique (n + 2 ^ 31) (2 ^ 32) 1 (n - 2 ^ 31)) by lia.
    symmetry. apply (Z.mod_unique _ _ (-1)); lia. }
  unfold call, log, call_env. unfold mbind at 1 2, stateR_bind at 1 2. cbn. destruct (sys_call _ (env w)) as [[res out] e].
  destruct (returns_Ok_inv _ _ (calm_return_list True [Some res; Some (default MOJO_HANDLE_INVALID out)]
    (mkWorld (vm w) e (arrays w) (next w) (returned w)
      (Called (CallCreateSharedBuffer {| csb_flags := u32 flags |} (2 ^ 64 - 2 ^ 32 + n)) :: trace w)))) as ([[] w'] & He & Hw').
  exists w'. split; [exact He|]. destruct (moves_trace _ _ _ _ Hw') as (es & Ht & _). by exists es.
Qed.
End spec.

(** ** The table *)
Lemma lookup_entry_In entries name n f : NoDup (entries.*1.*1) →
  lookup_entry entries name n = Some f ↔ (name, f, n) ∈ entries.
Proof.
  induction entries as [|[[name' f'] n'] entries IH]; cbn; [by split; [|intros ?%elem_of_nil]|].
  intros [Hnew Hnodup]%NoDup_cons. rewrite elem_of_cons. case_bool_decide as Hname; cbn.
  - subst. assert (∀ f n, (name', f, n) ∉ entries) as Hnot.
    { intros f1 n1 Hin. apply Hnew. rewrite <- list_fmap_compose. by apply (list_elem_of_fmap_2' _ _ (name', f1, n1)). }
    destruct (Z.eqb_spec n' n); [naive_solver|]. rewrite IH by done. naive_solver.
  - rewrite IH by done. naive_solver.
Qed.
Lemma lookup_symbol_In entries name f : NoDup (entries.*1.*2) →
  lookup_symbol entries f = Some name ↔ ∃ n, (name, f, n) ∈ entries.
Proof.
  induction entries as [|[[name' f'] n'] entries IH]; cbn; [split; [done|by intros [? ?%elem_of_nil]]|].
  intros [Hnew Hnodup]%NoDup_cons. setoid_rewrite elem_of_cons. case_bool_decide as Hf; cbn.
  - subst. assert (∀ name n, (name, f, n) ∉ entries) as Hnot.
    { intros n1 n2 Hin. apply Hnew. rewrite <- list_fmap_compose. by apply (list_elem_of_fmap_2' _ _ (n1, f, n2)). }
    naive_solver.
  - rewrite IH by done. naive_solver.
Qed.

(** The table of natives: [MojoNativeLookup] finds exactly the functions of the table,
    by name and number of arguments; [MojoNativeSymbol] gives the name back; each function
    is there, with at least the arguments that it reads. *)
Theorem natives_lookup name n f :
  (MojoNativeLookup name n = Some f ↔ (name, f, n) ∈ MojoEntries) ∧
  (MojoNativeSymbol f = Some name ↔ ∃ n, (name, f, n) ∈ MojoEntries) ∧
  ∃ name n, (name, f, n) ∈ MojoEntries ∧ Forall (λ i, 0 <= i < n) (integer_arguments f).
Proof.
  split; [|split].
  - apply lookup_entry_In, (bool_decide_unpack _). by vm_compute.
  - apply lookup_symbol_In, (bool_decide_unpack _). by vm_compute.
  - destruct f; do 2 eexists; (split; [unfold MojoEntries; repeat first [apply list_elem_of_here|apply list_elem_of_further]|cbn; repeat constructor; lia]).
Qed.

(** ** Witnesses *)
Lemma sample_read_ok : arguments_ok NMessagePipe_QueryAndRead sample_read.
Proof.
  split; [by split; [|split]|]. intros handle flags [= <-] [= <-]. unfold query_stable. vm_compute.
  intros p q. by split; destruct q.
Defined.

(** A message is queried and read; one is written from typed data of 8 bytes with a handle
    that is no integer; 100 bytes are read into typed data of 8. *)
Lemma natives_safe_witness :
  arguments_ok NMessagePipe_QueryAndRead sample_read ∧ counts_fit NMessagePipe_QueryAndRead sample_read ∧
  (∃ w', run_native true NMessagePipe_QueryAndRead sample_read = Ok (tt, w') ∧
    ∃ events, trace w' = events ++ trace sample_read ∧
      Forall (room (counts_fit NMessagePipe_QueryAndRead sample_read) (vm w')) events) ∧
  (∃ w', run_native true NMessagePipe_Write sample_write = Ok (tt, w') ∧
    (may_stay_acquired NMessagePipe_Write sample_write (SData 0) ∨
     held (vm w') (SData 0) = held (vm sample_write) (SData 0))) ∧
  ∃ w', run_native true NDataPipe_ReadData sample_read_data = Ok (tt, w') ∧ held (vm w') (SData 0) = false.
Proof.
  split; [exact sample_read_ok|]. split; [exact I|]. split; [|split].
  - destruct (natives_safe true NMessagePipe_QueryAndRead sample_read sample_read_ok) as (w' & He & _ & Ht).
    exists w'. split; [exact He|exact Ht].
  - assert (arguments_ok NMessagePipe_Write sample_write) as Hok by (intros _; by exists (1024, 8)).
    destruct (natives_safe true NMessagePipe_Write sample_write Hok) as (w' & He & Hd & _).
    exists w'. split; [exact He|]. apply (Hd (SData 0) (1024, 8)). reflexivity.
  - assert (arguments_ok NDataPipe_ReadData sample_read_data) as Hok by (intros _; by exists (1024, 8)).
    destruct (natives_safe true NDataPipe_ReadData sample_read_data Hok) as (w' & He & Hd & _).
    exists w'. split; [exact He|]. destruct (Hd (SData 0) (1024, 8) eq_refl) as [_ [[[=] _]|Hh]]. exact Hh.
Defined.

Lemma WriteData_unchecked_witness : ∃ w', run_native true NDataPipe_WriteData sample_read_data = Ok (tt, w') ∧
  Called (CallWriteData 5 (At 1024) 100 0) ∈ trace w'.
Proof. apply (WriteData_unchecked true 5 100 0 1024 8 sample_read_data); (reflexivity || lia). Defined.

Lemma arrays_collected_once_witness : session true [] sample_after ∧ is_Some (arrays sample_after !! 4112) ∧
  (∀ a, is_Some (arrays sample_after !! a) →
    a ∉ [] ∧ ∃ v p, Registered v p ∈ trace sample_after ∧ peer_array p = Some a).
Proof.
  assert (session true [] sample_after) as Hs.
  { apply (session_native true [] sample_read NMessagePipe_QueryAndRead); [by apply session_start|exact sample_read_ok|by vm_compute]. }
  split; [exact Hs|]. split; [exists 4; by vm_compute|]. exact (proj1 (proj2 (arrays_collected_once true [] sample_after Hs))).
Defined.

Lemma not_an_integer_witness : (0 ∈ integer_arguments NHandle_Close) ∧ integer_argument sample_null 0 = None ∧
  run_native true NHandle_Close sample_null
  = Ok (tt, mkWorld (vm sample_null) (env sample_null) (arrays sample_null) (next sample_null)
      (Some (failure NHandle_Close)) (trace sample_null)).
Proof.
  assert (0 ∈ integer_arguments NHandle_Close) as Hi by (by left).
  split; [exact Hi|]. split; [reflexivity|]. apply (not_an_integer true NHandle_Close 0 sample_null Hi). reflexivity.
Defined.

Lemma Write_keeps_data_acquired_witness : held (vm sample_write) (SData 0) = false ∧
  ∃ w', run_native true NMessagePipe_Write sample_write = Ok (tt, w') ∧
    returned w' = Some (IntegerValue MOJO_RESULT_INVALID_ARGUMENT) ∧ held (vm w') (SData 0) = true.
Proof.
  split; [reflexivity|]. change (SData 0) with (argument sample_write 1). apply (Write_keeps_data_acquired true 5 8 0 sample_write); try reflexivity.
  by exists (1024, 8).
Defined.

Lemma Create_extends_sign_witness : ∃ w', run_native true NSharedBuffer_Create sample_create = Ok (tt, w') ∧
  ∃ events, trace w' = events ++ Called (CallCreateSharedBuffer {| csb_flags := 0 |} (2 ^ 64 - 2 ^ 31)) :: trace sample_create.
Proof. apply (Create_extends_sign true (2 ^ 31) 0 sample_create); [reflexivity..|lia]. Defined.
