(* ===== verification/FrameTracker.v ===== *)
(** * Frame scheduling of the composition service's clients

    [FrameTracker] (frame_tracker.{h,cc} of services/gfx/composition/cpp) over the
    [FrameInfo] of scheduling.mojom: times are [int64_t], the interval and the
    compensation for lag are [uint64_t], and the differences of times may overflow.
    Warnings are not modelled. *)
From stdpp Require Import base list numbers option sorting.
From S2P Require Import Prelude.

Record FrameInfo : Type := mkFrameInfo {
  frame_time : Z;         (** int64 *)
  frame_interval : Z;     (** uint64 *)
  frame_deadline : Z;     (** int64 *)
  presentation_time : Z;  (** int64 *)
}.

Record FrameTracker : Type := mkFrameTracker {
  frame_count_ : Z;       (** uint64_t *)
  frame_info_ : FrameInfo;
  frame_time_delta_ : Z;  (** MojoTimeTicks, an int64_t *)
}.

(** [a - b] of [int64_t], which must not overflow *)
Definition int64_sub (a b : Z) : result Z :=
  if (- 2 ^ 63 <=? a - b) && (a - b <? 2 ^ 63) then Ok (a - b) else Crash SignedOverflow.

(** ** Operations *)

(** [FrameInfo_new] is a [FrameInfo()], whose constructor is generated. *)
Definition FrameTracker_Clear (FrameInfo_new : FrameInfo) (_ : FrameTracker) : FrameTracker :=
  mkFrameTracker 0 FrameInfo_new 0.

(** "Ensure frame info is sane" *)
Definition sane_frame (info : FrameInfo) (now : Z) : FrameInfo :=
  let time := if now <? frame_time info then now else frame_time info in
  let deadline := if frame_deadline info <? time then time else frame_deadline info in
  let presentation := if presentation_time info <? deadline then deadline else presentation_time info in
  mkFrameInfo time (frame_interval info) deadline presentation.

(** "Compensate for significant lag": from the subtraction to the end of the branch *)
Definition compensate_lag (info : FrameInfo) (now : Z) : result FrameInfo :=
  lag ← int64_sub now (frame_time info);
  let lag := u64 lag in
  if (0 <? frame_interval info) && (frame_interval info <=? lag) then
    let offset := lag `mod` frame_interval info in
    let adjustment := u64 (u64 (now - offset) - frame_time info) in
    Ok (mkFrameInfo (s64 (u64 (now - offset))) (frame_interval info)
          (s64 (u64 (frame_deadline info + adjustment)))
          (s64 (u64 (presentation_time info + adjustment))))
  else Ok info.

(** "Ensure monotonicity" *)
Definition monotone_frame (old info : FrameInfo) : FrameInfo :=
  mkFrameInfo (if frame_time info <? frame_time old then frame_time old else frame_time info)
    (frame_interval info) (frame_deadline info)
    (if presentation_time info <? presentation_time old then presentation_time old
     else presentation_time info).

Definition FrameTracker_Update (raw_frame_info : FrameInfo) (now : Z) (t : FrameTracker) : result FrameTracker :=
  let old := frame_info_ t in
  info ← compensate_lag (sane_frame raw_frame_info now) now;
  let count := u64 (frame_count_ t + 1) in
  if frame_count_ t =? 0 then Ok (mkFrameTracker count info (frame_time_delta_ t)) else
  let info := monotone_frame old info in
  delta ← int64_sub (frame_time info) (frame_time old);
  Ok (mkFrameTracker count info delta).

(** ** The reference: the same on unbounded integers

    A frame starts at the last multiple of the interval, counted from its own start,
    that is not after [now]; deadline and presentation move along. *)
Definition skipped (time interval now : Z) : Z :=
  if interval =? 0 then 0 else (now - time) `div` interval * interval.

Definition ideal_frame (raw : FrameInfo) (now : Z) : FrameInfo :=
  let time := Z.min (frame_time raw) now in
  let deadline := Z.max (frame_deadline raw) time in
  let presentation := Z.max (presentation_time raw) deadline in
  let shift := skipped time (frame_interval raw) now in
  mkFrameInfo (time + shift) (frame_interval raw) (deadline + shift) (presentation + shift).

Definition ideal_update (raw : FrameInfo) (now : Z) (t : FrameTracker) : FrameTracker :=
  let info := ideal_frame raw now in
  let old := frame_info_ t in
  if frame_count_ t =? 0 then mkFrameTracker 1 info (frame_time_delta_ t) else
  mkFrameTracker (frame_count_ t + 1)
    (mkFrameInfo (Z.max (frame_time info) (frame_time old)) (frame_interval info) (frame_deadline info)
       (Z.max (presentation_time info) (presentation_time old)))
    (Z.max (frame_time info) (frame_time old) - frame_time old).

(** What a client may be told: times of the time base, which do not reach its end even
    after they are moved to [now]. *)
Record plausible (raw : FrameInfo) (now : Z) : Prop := {
  plausible_now : 0 <= now < 2 ^ 63;
  plausible_time : 0 <= frame_time raw < 2 ^ 63;
  plausible_interval : 0 <= frame_interval raw < 2 ^ 64;
  plausible_deadline : - 2 ^ 63 <= frame_deadline raw ∧ frame_deadline raw + now < 2 ^ 63;
  plausible_presentation : - 2 ^ 63 <= presentation_time raw ∧ presentation_time raw + now < 2 ^ 63;
}.

(** What holds of a tracker after an update at the time [now] *)
Record tracking (now : Z) (t : FrameTracker) : Prop := {
  tracking_count : 0 < frame_count_ t < 2 ^ 64;
  tracking_time : 0 <= frame_time (frame_info_ t) <= now;
  tracking_deadline : frame_deadline (frame_info_ t) <= presentation_time (frame_info_ t);
  tracking_presentation : frame_time (frame_info_ t) <= presentation_time (frame_info_ t);
  tracking_delta : 0 <= frame_time_delta_ t;
}.

(** ** Arithmetic *)
Lemma s64_u64 z : s64 (u64 z) = s64 z.
Proof. unfold s64, u64. by rewrite Zplus_mod_idemp_l. Qed.
Lemma s64_small z : - 2 ^ 63 <= z < 2 ^ 63 → s64 z = z.
Proof. intros. unfold s64. rewrite Z.mod_small; lia. Qed.
Lemma int64_sub_Ok a b : - 2 ^ 63 <= a - b < 2 ^ 63 → int64_sub a b = Ok (a - b).
Proof. intros. unfold int64_sub. by rewrite (proj2 (andb_true_iff _ _)) by lia. Qed.

Lemma skipped_bounds time interval now : time <= now → 0 <= interval →
  0 <= skipped time interval now <= now - time.
Proof.
  intros. unfold skipped. destruct (Z.eqb_spec interval 0); [lia|].
  pose proof (Z.div_pos (now - time) interval). pose proof (Z.mul_div_le (now - time) interval). nia.
Qed.

Lemma skipped_late time interval now : 0 < interval → now - interval < time + skipped time interval now.
Proof.
  intros. unfold skipped. destruct (Z.eqb_spec interval 0); [lia|].
  pose proof (Z.mul_succ_div_gt (now - time) interval). nia.
Qed.

Lemma skipped_eq time interval now : 0 < interval →
  skipped time interval now = now - (now - time) `mod` interval - time.
Proof.
  intros. unfold skipped. destruct (Z.eqb_spec interval 0); [lia|].
  pose proof (Z.div_mod (now - time) interval). lia.
Qed.

Lemma skipped_small time interval now : time <= now → now - time < interval → skipped time interval now = 0.
Proof. intros. unfold skipped. destruct (interval =? 0); [done|]. rewrite Z.div_small; lia. Qed.

(** ** Steps *)
Lemma sane_frame_eq raw now :
  let time := Z.min (frame_time raw) now in
  let deadline := Z.max (frame_deadline raw) time in
  sane_frame raw now = mkFrameInfo time (frame_interval raw) deadline (Z.max (presentation_time raw) deadline).
Proof. unfold sane_frame. cbn zeta. f_equal; repeat case_match; lia. Qed.

Lemma monotone_frame_eq old info : monotone_frame old info =
  mkFrameInfo (Z.max (frame_time info) (frame_time old)) (frame_interval info) (frame_deadline info)
    (Z.max (presentation_time info) (presentation_time old)).
Proof. unfold monotone_frame. f_equal; repeat case_match; lia. Qed.

(** Wrapped or not, the adjustment is what moves the frame. *)
Lemma adjusted x now offset time : - 2 ^ 63 <= x + (now - offset - time) < 2 ^ 63 →
  s64 (u64 (x + u64 (u64 (now - offset) - time))) = x + (now - offset - time).
Proof.
  intros. rewrite s64_u64. unfold u64. rewrite Zminus_mod_idemp_l. unfold s64.
  rewrite <- Z.add_assoc, (Z.add_comm _ (2 ^ 63)), Z.add_assoc, Zplus_mod_idemp_r.
  rewrite Z.mod_small; lia.
Qed.

Lemma compensate_lag_ideal info now :
  - 2 ^ 63 <= frame_time info <= now → now < 2 ^ 63 → now - frame_time info < 2 ^ 63 →
  0 <= frame_interval info < 2 ^ 64 →
  - 2 ^ 63 <= frame_deadline info → frame_deadline info + (now - frame_time info) < 2 ^ 63 →
  - 2 ^ 63 <= presentation_time info → presentation_time info + (now - frame_time info) < 2 ^ 63 →
  let shift := skipped (frame_time info) (frame_interval info) now in
  compensate_lag info now = Ok (mkFrameInfo (frame_time info + shift) (frame_interval info)
    (frame_deadline info + shift) (presentation_time info + shift)).
Proof.
  intros Htime Hnow Hlag Hint Hd1 Hd2 Hp1 Hp2 shift. unfold compensate_lag.
  rewrite int64_sub_Ok by lia. cbn [mbind result_bind]. rewrite u64_small by lia.
  pose proof (skipped_bounds (frame_time info) (frame_interval info) now) as Hs.
  destruct (Z.ltb_spec 0 (frame_interval info)); cbn [andb];
    [destruct (Z.leb_spec (frame_interval info) (now - frame_time info))|].
  - pose proof (skipped_eq (frame_time info) (frame_interval info) now) as Heq. fold shift in Heq, Hs.
    do 2 f_equal; [rewrite s64_u64, s64_small; lia|rewrite adjusted; lia..].
  - subst shift. rewrite skipped_small by lia. rewrite !Z.add_0_r. by destruct info.
  - subst shift. unfold skipped. rewrite (proj2 (Z.eqb_eq _ _)) by lia. rewrite !Z.add_0_r. by destruct info.
Qed.

Lemma ideal_frame_runs raw now : plausible raw now →
  compensate_lag (sane_frame raw now) now = Ok (ideal_frame raw now).
Proof.
  intros [Hnow Htime Hint Hd Hp]. rewrite sane_frame_eq. apply compensate_lag_ideal;
    cbn [frame_time frame_interval frame_deadline presentation_time]; lia.
Qed.

Lemma ideal_frame_ok raw now : plausible raw now → let info := ideal_frame raw now in
  0 <= frame_time info <= now ∧ frame_time info <= frame_deadline info <= presentation_time info.
Proof.
  intros [Hnow Htime Hint Hd Hp]. unfold ideal_frame. cbn [frame_time frame_deadline presentation_time].
  pose proof (skipped_bounds (Z.min (frame_time raw) now) (frame_interval raw) now). lia.
Qed.

(** ** An update *)

(** C0: on plausible frames the tracker computes what the reference does on unbounded
    integers: no difference overflows and no conversion between [int64_t] and
    [uint64_t] wraps. *)
Theorem Update_ideal raw now t : plausible raw now →
  (0 < frame_count_ t → tracking now t) → 0 <= frame_count_ t < 2 ^ 64 - 1 →
  FrameTracker_Update raw now t = Ok (ideal_update raw now t).
Proof.
  intros Hraw Ht Hcount. unfold FrameTracker_Update, ideal_update. rewrite ideal_frame_runs by done.
  cbn [mbind result_bind]. rewrite u64_small by lia. destruct (Z.eqb_spec (frame_count_ t) 0) as [->|Hne]; [done|].
  destruct (ideal_frame_ok raw now Hraw) as [H1 _]. destruct Ht as [_ H2 _ _ _]; [lia|]. destruct Hraw as [H3 _ _ _ _].
  rewrite monotone_frame_eq, int64_sub_Ok by (cbn [frame_time]; lia). done.
Qed.

Lemma ideal_update_tracking raw now t now' : plausible raw now' → now <= now' →
  tracking now t → frame_count_ t < 2 ^ 64 - 1 → tracking now' (ideal_update raw now' t).
Proof.
  intros Hraw Hnow [H1 H2 H3 H4 H5] Hcount. destruct (ideal_frame_ok raw now' Hraw) as [I1 I2].
  unfold ideal_update. rewrite (proj2 (Z.eqb_neq _ _)) by lia.
  split; cbn [frame_count_ frame_info_ frame_time_delta_ frame_time frame_deadline presentation_time]; lia.
Qed.

Lemma ideal_update_first raw now t : plausible raw now → frame_count_ t = 0 → 0 <= frame_time_delta_ t →
  tracking now (ideal_update raw now t).
Proof.
  intros Hraw Hcount Hdelta. destruct (ideal_frame_ok raw now Hraw) as [I1 I2].
  unfold ideal_update. rewrite Hcount, Z.eqb_refl.
  split; cbn [frame_count_ frame_info_ frame_time_delta_]; lia.
Qed.

Lemma ideal_frame_recent raw now : plausible raw now → 0 < frame_interval raw →
  now - frame_interval raw < frame_time (ideal_frame raw now).
Proof. intros ??. by apply skipped_late. Qed.

Lemma ideal_update_recent raw now t : plausible raw now → 0 < frame_interval raw →
  now - frame_interval raw < frame_time (frame_info_ (ideal_update raw now t)).
Proof.
  intros Hraw Hint. pose proof (ideal_frame_recent raw now Hraw Hint). unfold ideal_update.
  destruct (frame_count_ t =? 0); cbn [frame_info_ frame_time]; lia.
Qed.

(** ** Clients

    A client updates the tracker with each frame it is told of, and the time then. *)
Fixpoint Updates (frames : list (FrameInfo * Z)) (t : FrameTracker) : result (list FrameTracker) :=
  match frames with
  | [] => Ok []
  | (raw, now) :: frames =>
      t ← FrameTracker_Update raw now t;
      ts ← Updates frames t;
      Ok (t :: ts)
  end.

(** The frames are plausible and the clock does not go backwards. *)
Fixpoint clocked (now : Z) (frames : list (FrameInfo * Z)) : Prop :=
  match frames with
  | [] => True
  | (raw, now') :: frames => now <= now' ∧ plausible raw now' ∧ clocked now' frames
  end.

(** What the client sees after one update: the frame is not in the future, and less than
    an interval has passed since it started. *)
Definition current (t : FrameTracker) (frame : FrameInfo * Z) : Prop :=
  tracking frame.2 t ∧
  (0 < frame_interval frame.1 → frame.2 - frame_interval frame.1 < frame_time (frame_info_ t)).

Definition not_after (t t' : FrameTracker) : Prop :=
  frame_time (frame_info_ t) <= frame_time (frame_info_ t') ∧
  presentation_time (frame_info_ t) <= presentation_time (frame_info_ t').

Definition elapsed (ts : list FrameTracker) : Z := foldr (λ t, Z.add (frame_time_delta_ t)) 0 ts.

#[export] Instance not_after_trans : Transitive not_after.
Proof. intros a b c [] []. split; lia. Qed.

Lemma ideal_update_after raw now t : frame_count_ t ≠ 0 → not_after t (ideal_update raw now t).
Proof.
  intros Hc. unfold ideal_update. rewrite (proj2 (Z.eqb_neq _ _)) by done.
  split; cbn [frame_info_ frame_time presentation_time]; lia.
Qed.

Lemma Updates_tracked frames : ∀ now t, tracking now t → clocked now frames →
  frame_count_ t + Z.of_nat (length frames) < 2 ^ 64 →
  ∃ ts, Updates frames t = Ok ts ∧ Forall2 current ts frames ∧ Sorted not_after (t :: ts) ∧
    frame_time (frame_info_ (default t (last ts))) = frame_time (frame_info_ t) + elapsed ts.
Proof.
  induction frames as [|[raw now'] frames IH]; intros now t Ht Hclock Hcount.
  { exists []. split_and!; [done|done|by repeat constructor|cbn; lia]. }
  cbn [length] in Hcount. destruct Hclock as (Hle & Hraw & Hclock). pose proof Ht as [Hc Htime _ _ _].
  set (t' := ideal_update raw now' t).
  assert (tracking now' t') as Ht' by (eapply ideal_update_tracking; [done..|lia]).
  assert (frame_count_ t' = frame_count_ t + 1 ∧
    frame_time_delta_ t' = frame_time (frame_info_ t') - frame_time (frame_info_ t)) as [Hc' Hd].
  { subst t'. unfold ideal_update. by rewrite (proj2 (Z.eqb_neq _ _)) by lia. }
  destruct (IH now' t' Ht' Hclock) as (ts & Hrun & Hcur & Hsort & Hsum); [lia|].
  exists (t' :: ts). cbn [Updates].
  rewrite (Update_ideal raw now' t); [|done|intros _; destruct Ht; split; lia|lia].
  cbn [mbind result_bind]. fold t'. rewrite Hrun. split_and!; [done| | |].
  - constructor; [|done]. split; [done|]. intros. by apply ideal_update_recent.
  - constructor; [done|]. constructor. apply ideal_update_after. lia.
  - cbn [elapsed foldr]. fold (elapsed ts). rewrite Hd. destruct ts as [|t2 ts]; [cbn in *; lia|].
    change (last (t' :: t2 :: ts)) with (last (t2 :: ts)).
    destruct (last (t2 :: ts)) eqn:E; [cbn in *; lia|]. by apply last_None in E.
Qed.

(** C34: a client of a new or cleared tracker that is told of plausible frames, with a clock
    that does not go backwards, is never late and never goes back: every update returns;
    afterwards the frame is not in the future and started less than an interval ago, is
    presented no earlier than its deadline and its start; frame and presentation times
    never decrease; and the deltas are non-negative, 0 at first, and add up to the time
    between the first frame and the last. *)
Theorem frames_tracked FrameInfo_new t raw now frames :
  plausible raw now → clocked now frames → Z.of_nat (length frames) < 2 ^ 64 - 1 →
  ∃ t1 ts, Updates ((raw, now) :: frames) (FrameTracker_Clear FrameInfo_new t) = Ok (t1 :: ts) ∧
    frame_time_delta_ t1 = 0 ∧
    Forall2 current (t1 :: ts) ((raw, now) :: frames) ∧
    StronglySorted not_after (t1 :: ts) ∧
    frame_time (frame_info_ (default t1 (last ts))) = frame_time (frame_info_ t1) + elapsed ts.
Proof.
  intros Hraw Hclock Hlen. set (t0 := FrameTracker_Clear _ t). set (t1 := ideal_update raw now t0).
  assert (tracking now t1) as Ht1 by (by apply ideal_update_first).
  destruct (Updates_tracked frames now t1 Ht1 Hclock) as (ts & Hrun & Hcur & Hsort & Hsum); [cbn; lia|].
  exists t1, ts. cbn [Updates]. rewrite (Update_ideal raw now t0); [|done|intros; cbn in *; lia..].
  cbn [mbind result_bind]. fold t1. rewrite Hrun. split_and!; [done|done| | |done].
  - constructor; [|done]. split; [done|]. intros. by apply ideal_update_recent.
  - apply Sorted_StronglySorted; [exact not_after_trans|done].
Qed.

(** C0: the difference of the first step is all that can overflow: an update is undefined
    exactly when the frame claims to have started 2^63 microseconds or more ago. *)
Theorem Update_overflows_iff raw now t :
  0 <= now < 2 ^ 63 → - 2 ^ 63 <= frame_time raw < 2 ^ 63 → 0 <= frame_interval raw < 2 ^ 64 →
  (frame_count_ t ≠ 0 → tracking now t) →
  FrameTracker_Update raw now t = Crash SignedOverflow ↔ frame_time raw + 2 ^ 63 <= now.
Proof.
  intros Hnow Htime Hint Ht. unfold FrameTracker_Update. rewrite sane_frame_eq. cbn zeta.
  set (info := mkFrameInfo (Z.min (frame_time raw) now) _ _ _). split.
  2: { intros. unfold compensate_lag, int64_sub. subst info. cbn [frame_time].
    by rewrite (proj2 (andb_false_iff _ _)) by (right; lia). }
  intros Hcrash. destruct (Z_lt_le_dec now (frame_time raw + 2 ^ 63)); [exfalso|done].
  assert (∃ info', compensate_lag info now = Ok info' ∧ frame_time info' <= now) as (info' & Hok & Hle).
  { subst info. unfold compensate_lag. rewrite int64_sub_Ok by (cbn; lia). cbn [mbind result_bind].
    destruct ((0 <? _) && _) eqn:E; [|eexists; split; [done|cbn; lia]]. eexists. split; [done|].
    cbn [frame_time frame_interval] in *. rewrite (u64_small (now - Z.min (frame_time raw) now)) in * by lia.
    pose proof (Z.mod_pos_bound (now - Z.min (frame_time raw) now) (frame_interval raw)).
    pose proof (Z.mod_le (now - Z.min (frame_time raw) now) (frame_interval raw)).
    rewrite s64_u64, s64_small; lia. }
  rewrite Hok in Hcrash. cbn [mbind result_bind] in Hcrash. destruct (Z.eqb_spec (frame_count_ t) 0) as [|Hne]; [done|].
  destruct (Ht Hne) as [_ Hold _ _ _]. rewrite monotone_frame_eq, int64_sub_Ok in Hcrash by (cbn [frame_time]; lia).
  done.
Qed.

(** ** Where it fails

    The comment says that frames are made sane since they come from another service. *)
Definition frame_info_zero : FrameInfo := mkFrameInfo 0 0 0 0.
Definition new_tracker : FrameTracker := mkFrameTracker 0 frame_info_zero 0.

(** The time of a frame is not checked from below, and the difference overflows. *)
Example old_frame_overflows :
  FrameTracker_Update (mkFrameInfo (- 2 ^ 63) 10 0 0) 5 new_tracker = Crash SignedOverflow.
Proof. reflexivity. Qed.

(** Deadline and presentation are compared before they are moved: they wrap around, and lie
    before the start of the frame. *)
Lemma adjusted_deadline_wraps : returns (FrameTracker_Update (mkFrameInfo 0 10 (2 ^ 63 - 1) (2 ^ 63 - 1)) 25 new_tracker)
  (λ t, frame_time (frame_info_ t) = 20 ∧ frame_deadline (frame_info_ t) < 0 ∧ presentation_time (frame_info_ t) < 0).
Proof. vm_compute. done. Qed.

(** A frame that is held back to the time of the one before keeps its deadline, which
    scheduling.mojom says is no less than its time. *)
Lemma held_back_after_deadline :
  returns (Updates [(mkFrameInfo 40 0 50 60, 40); (mkFrameInfo 10 0 20 30, 41)] new_tracker)
    (λ ts, ∃ t1 t2, ts = [t1; t2] ∧ frame_time (frame_info_ t2) = 40 ∧ frame_deadline (frame_info_ t2) = 20).
Proof. eexists _, _. split; [reflexivity|done]. Qed.

(** ** Examples *)
Definition typical_frames : list (FrameInfo * Z) :=
  [(mkFrameInfo 12 10 24 28, 12); (mkFrameInfo 22 10 34 38, 23); (mkFrameInfo 32 10 44 48, 41);
   (mkFrameInfo 46 15 59 62, 48); (mkFrameInfo 52 10 64 68, 97)].

Example typical_frames_run : mbind (M := result) (λ ts, Ok (map (λ t,
    (frame_time (frame_info_ t), frame_deadline (frame_info_ t), presentation_time (frame_info_ t), frame_time_delta_ t)) ts))
    (Updates typical_frames new_tracker) =
  Ok [(12, 24, 28, 0); (22, 34, 38, 10); (32, 44, 48, 10); (46, 59, 62, 14); (92, 104, 108, 46)].
Proof. reflexivity. Qed.

Ltac plausible_tac := split; cbn; lia.

Lemma Update_ideal_witness :
  plausible (mkFrameInfo 52 10 64 68) 97 ∧
  FrameTracker_Update (mkFrameInfo 52 10 64 68) 97 (mkFrameTracker 2 (mkFrameInfo 42 10 54 58) 20) =
  Ok (ideal_update (mkFrameInfo 52 10 64 68) 97 (mkFrameTracker 2 (mkFrameInfo 42 10 54 58) 20)).
Proof.
  assert (plausible (mkFrameInfo 52 10 64 68) 97) as H by plausible_tac.
  split; [exact H|]. apply Update_ideal; [exact H| |cbn; lia]. intros _. plausible_tac.
Defined.

Lemma frames_tracked_witness :
  ∃ t1 ts, Updates typical_frames (FrameTracker_Clear frame_info_zero new_tracker) = Ok (t1 :: ts) ∧
    frame_time (frame_info_ (default t1 (last ts))) = frame_time (frame_info_ t1) + elapsed ts.
Proof.
  destruct (frames_tracked frame_info_zero new_tracker (mkFrameInfo 12 10 24 28) 12 (tail typical_frames))
    as (t1 & ts & Hrun & _ & _ & _ & Hsum); [plausible_tac| |cbn; lia|].
  { cbn. repeat split; cbn; lia. }
  exists t1, ts. split; [exact Hrun|exact Hsum].
Defined.

Lemma Update_overflows_iff_witness :
  FrameTracker_Update (mkFrameInfo (- 2 ^ 63) 10 0 0) 5 new_tracker = Crash SignedOverflow.
Proof. apply (Update_overflows_iff (mkFrameInfo (- 2 ^ 63) 10 0 0) 5 new_tracker); cbn; [lia..|done|lia]. Defined.
